(* ===== verification/_CoqProject ===== *)
-Q . S2P
Prelude.v
Config.v
Vram.v
PageTable.v
Barrier.v
Sched.v
State.v
Device.v
Tables.v
Shadow.v
Bars.v
Arena.v
Remap.v
Channel.v
Playlist.v
Context.v
Bar0.v
Pv.v
Frame.v
System.v
Registers.v
Windows.v
Ramin.v
PvCalls.v
Qemu.v
Protocol.v
Xen.v
Rangeset.v
Heap.v
Sort.v
Timer.v
TimerHeap.v
TimerFacts.v
TimerOps.v
TimerSoftirq.v
TimerCpu.v
Evtchn.v
EvtchnFacts.v
EvtchnOps.v
EvtchnBind.v
EvtchnPirq.v
EvtchnClose.v
EvtchnSafe.v
EvtchnLife.v
EvtchnMain.v
PageAlloc.v
PageFacts.v
PageCount.v
PageSearch.v
PageOps.v
PageFree.v
PageDom.v
PageMain.v
BootAlloc.v
PageInit.v
PageOffline.v
Memop.v
MemopFacts.v
MemopMain.v
Exchange.v
ExchangeFacts.v
ExchangeMain.v
MemoryOp.v
