(* ===== verification/Prelude.v ===== *)
(** * Verification of GPUvm: the A3 GPU hypervisor and the virtual GPU of its device model

    The repository is a Xen tree that shares one NVIDIA GPU between virtual machines. Its own
    code is A3 ([src/tools/a3]), a process of the control domain that owns the GPU, and a
    device in the device model of every guest ([src/tools/qemu-xen-traditional/hw/nvc0]).
    The device model turns each access of a guest to its virtual GPU into a command for A3;
    A3 keeps, for every machine, a context with shadows of the registers, channels and page
    tables of the guest, and lets the GPU see only what it has translated. The video memory
    and the channels are partitioned statically: machine [id] owns the [id]-th part.

    ** Files

    - [Prelude]: widths of machine integers, bit fields, the state and error monad with its
      loops, the predicate [wp] on runs, frames ([keeps]), vectors with bounds.
    - [Config]: [config.h], [bit_mask.h], [a3.h].
    - [Vram]: the pool of device memory ([vram.cc]).
    - [PageTable]: formats and translation of page table entries ([page_table.h],
      [context::guest_to_host]).
    - [Barrier]: the table of guarded pages ([barrier.cc]).
    - [Sched]: the schedulers and the sampler ([credit_scheduler.cc], [band_scheduler.cc],
      [fifo_scheduler.cc], [context_sched.cc], [sampler.cc]), with the scheduler's threads as
      a step relation.
    - [State]: the records of all classes, the platform, the world of a thread.
    - [Device]: accesses to the BARs, the window on video memory, registers, pages
      ([device.cc], [pmem.cc], [registers.cc], [page.cc]).
    - [Tables]: software and shadow page tables ([software_page_table.cc],
      [shadow_page_table.cc]); [Shadow]: isolation of the shadow tables.
    - [Bars]: the managers of BAR1 and BAR3 and the poll area ([device_bar1.cc],
      [device_bar3.cc], [poll_area.cc]); [Arena], [Remap]: their properties.
    - [Channel]: [channel.cc], [bar1_channel.cc], [bar3_channel.cc], [instruments.cc].
    - [Playlist]: [pfifo.cc], [playlist.cc].
    - [Context], [Bar0], [Pv]: the handlers of a guest's accesses ([context_bar1.cc],
      [context_bar3.cc], [context_barrier.cc], TLB flushes; [context_bar0.cc];
      [context_bar4.cc]).
    - [Frame]: what the handlers leave alone.
    - [System]: sessions, the life of a context, [context::handle], device initialisation.
    - [Registers], [Windows], [Ramin], [PvCalls]: properties of the handlers.
    - [Qemu]: the device model's handlers; [Protocol]: the two sides composed.
    - [Xen]: error numbers and list lemmas of the hypervisor files ([src/xen/common]).
    - [Rangeset]: sets of numbers as lists of ranges ([rangeset.c]); the interrupts a domain
      may use are one.
    - [Sort]: the heap sort ([sort.c]); [Heap]: lemmas on heaps, shared with the timers.
    - [Timer]: the timers of a processor ([timer.c]); [TimerHeap], [TimerFacts], [TimerOps],
      [TimerSoftirq], [TimerCpu]: heap, invariant, operations, soft interrupt, hot-plug.
    - [Evtchn]: event channels ([event_channel.c]); [EvtchnFacts], [EvtchnOps], [EvtchnBind],
      [EvtchnPirq], [EvtchnClose], [EvtchnSafe], [EvtchnLife]: the invariant and the
      operations; [EvtchnMain]: the theorems.
    - [PageAlloc]: the heap of pages ([page_alloc.c]): buddy lists by node, zone and order,
      domain heap, offlining; [PageFacts], [PageCount], [PageSearch], [PageOps], [PageFree]:
      the invariant, the counters, the search, allocation, freeing; [PageDom]: pages of
      domains; [PageMain]: the theorems; [PageOffline]: pages taken out of service.
    - [BootAlloc]: the allocator of the boot and the list of bad pages; [PageInit]: the
      initialisation of the heap, the hand-over of the boot pages, the low-memory interrupt.
    - [Memop]: reservations ([memory.c]) and the references to pages ([arch/x86/mm.c]);
      [MemopFacts]: references; [MemopMain]: the requests.
    - [Exchange]: the exchange of pages and the other commands of the memory hypercall;
      [ExchangeFacts]: pages between two owners; [ExchangeMain]: the exchange; [MemoryOp]:
      the whole hypercall.

    A class is a record, a method a function in the monad [M] over the world it works on, with
    the source's name where it is unique; an early return, an [ASSERT], an [abort] or an access
    outside an array is a branch of the function or an [error]. A unique pointer is the
    object; shared pointers to para-virtual pages and contexts are names, and a use of a name
    whose object is gone is [UseAfterFree].

    ** What the theorems show

    - Isolation. Initialised machines have different numbers, whatever the sessions do
      ([System.machines_disjoint]); a translated entry reaches only the machine's part of the
      memory ([PageTable.guest_to_host_isolation]); so does everything the GPU reaches from a
      shadow directory, for any contents of the guest's tables ([Shadow], [Ramin]), and
      every para-virtual table after any map call ([PvCalls]); accesses to channel registers,
      control areas and BAR3 stay in the machine's slices ([Playlist], [Bars], [Arena]).
    - Refinement. The barrier table is a flat map of counts; the cached window is a flat
      memory, and so are BAR1 and BAR3 as a guest sees them ([Windows]); the software page table and the arena tables answer as a walk of the guest's
      tables; a batched update of BAR3 does what single updates do; the pool hands out
      disjoint blocks; the queues between device model and A3 deliver every access once, in
      order, with the right answer.
    - Scheduling. Commands of a context run in order, all are run, no context takes the GPU
      for itself, budgets stay in bounds.
    - The hypervisor. Whatever event-channel calls the guests make, the tables of ports,
      interrupts and peers agree afterwards and no call goes wrong; connected ports carry
      events both ways; a destroyed domain leaves nothing behind ([EvtchnMain]). Timers do
      what a table of expiry times would, the soft interrupt ends and has run all that was
      due, timers survive their processor ([TimerSoftirq], [TimerCpu]). Range sets are sets
      ([Rangeset]); the sort sorts ([Sort]).
    - Memory of the machine. A page is free or belongs to one domain, whatever the domains
      ask for; allocation finds a block where there is one and gives what was asked for;
      freeing undoes it ([PageMain]). The boot allocator hands out each good page once
      ([BootAlloc.boot_pages_disjoint]) and the heap gets what is left
      ([PageInit.boot_handover]); a page taken offline is not handed out
      ([PageOffline.offline_free_page]). A guest's reservation requests change its own pages
      only, keep the references to every page and can be interrupted ([MemopMain]); pages
      are traded one for one or not at all ([ExchangeMain]); no command of the memory
      hypercall touches the pages of a domain it does not name ([MemoryOp]).
    - Round trips and errors: remembered registers, renamed channel instances, what happens
      when nothing is free.
    - Where the code does not do what it means to, a theorem says what it does:
      [Device.page_clear_quarter], [Registers.window_escape], [Ramin.ramin_write_mirrored],
      [PvCalls.pv_type_confusion], [Rangeset.remove_range_adds],
      [EvtchnMain.alloc_failure_dangles], [PageOffline.offline_breaks_merge],
      [BootAlloc.alloc_boot_wraps], [MemopMain.guest_node_out_of_bounds],
      [ExchangeMain.exchange_dying_stops], [MemoryOp.remove_any_frame] and others.

    ** Assumptions

    The class [Platform] ([State]) stands for the GPU, libxc, the command line flags, the
    clock and uninitialised memory. Its laws are the documented behaviour the theorems need:
    [PraminLaws] (the window shows video memory), [TlbRegisters] (flushing the TLB does not
    change video memory), [ChannelMapLaws] (a multimap keeps its elements). [Device] has a
    simulated platform that satisfies them; the witnesses run on it. The class [XenEnv]
    ([Evtchn]) stands for the security modules, memory, the interrupt code of the architecture
    and what other processors do while a lock is dropped; the theorems take the last to keep
    the invariant. The class [HeapEnv] ([PageAlloc]) stands for the layout of the machine:
    valid frames, nodes, processors, clocks of the translation caches; [machine_ok]
    ([PageOps]) says that nodes have numbers below their limit and that transcendent memory
    is off. The class [MemEnv] ([Memop]) stands for the guest's memory, the physical map, page
    types and the moments at which a hypercall is interrupted; [drops_type] ([MemopFacts]) is
    the documented effect of [put_page_type], [p2m_ok] ([MemopMain]) says that a frame being
    paged out is a page of its domain. The classes [ExchEnv] and [StatEnv] ([Exchange]) stand
    for the rest of the guest's memory, the physical map and the security modules, with
    [plain_gfn], [gmfn_ok] ([ExchangeMain]) and [frame_ok] ([MemoryOp]) for frames that are
    not shared.

    ** Bounds

    Loops with a known number of rounds are [for_] loops. [vram_manager_t::malloc] loops until
    a block fits; two rounds are enough ([Vram.malloc_spec]: it never runs out of them). The
    waiting loops of the registers give up after the ten million rounds of the source
    ([poll]). The loops of the timers take the number of timers as fuel, the soft interrupt
    any fuel above the number of timers that are due ([TimerSoftirq.softirq_terminates]). A
    close is repeated at most once, and the walk over ports and lists is bounded by the number
    of ports ([EvtchnMain.evtchn_ops_safe]: none runs out). The search of the nodes visits
    each of 64 at most twice ([node_fuel] is 130), the loops over regions stop at the size of
    their table ([zap_fuel]); the other loops of the allocator run over orders, pages or
    extents. Nothing else needs fuel.

    ** Not modelled

    The build with [NDEBUG], in which assertions and the log disappear. The weak interleavings
    inside one operation: an operation of a context is atomic, as the device mutex makes most
    of them; the scheduler threads and the queues are interleaved. A guest that rewrites the
    shared page during a para-virtual call. The reuse of the address of a deleted object.
    Sockets, message queue names, threads, logging, PCI discovery, the command line; the radix
    tree and the direct scheduler, which nothing uses; the configuration space and the ROM
    region of the device; the BIOS image, a parameter. In the hypervisor files: locks (an
    operation is atomic but for the places where the source drops its lock), the printing of
    tables, the reclaim of transcendent memory, shared frames (the functions have the branch,
    the theorems exclude it), the change of a domain to dying during one hypercall. The rest
    of Xen, the other tools, firmware and the rest of the device model are unchanged upstream
    code that A3 only calls through the three operations of the platform. *)

From stdpp Require Export base list gmap.
From Stdlib Require Export ZArith Lia.

Global Open Scope Z_scope.
#[global] Arguments Z.add : simpl never.
#[global] Arguments Z.sub : simpl never.
#[global] Arguments Z.mul : simpl never.
#[global] Arguments Z.div : simpl never.
#[global] Arguments Z.modulo : simpl never.
#[global] Arguments Z.pow : simpl never.
#[global] Arguments Z.shiftl : simpl never.
#[global] Arguments Z.shiftr : simpl never.
#[global] Arguments Z.land : simpl never.
#[global] Arguments Z.lor : simpl never.
#[global] Arguments Z.testbit : simpl never.
#[global] Arguments Z.ones : simpl never.
#[global] Arguments Z.of_nat : simpl never.
#[global] Arguments Z.to_nat : simpl never.

(** ** Fixed-width unsigned arithmetic

    A [w]-bit unsigned integer of the source is a [Z]; every conversion to a
    narrower type and every arithmetic operation that can wrap is written
    with one of these reductions. *)

Definition u8 (x : Z) : Z := x mod 256.
Definition u16 (x : Z) : Z := x mod 65536.
Definition u32 (x : Z) : Z := x mod 4294967296.
Definition u64 (x : Z) : Z := x mod 18446744073709551616.

(** [UINT64_MAX], the value [resolve] returns for an unmapped address. *)
Definition UINT64_MAX : Z := 18446744073709551615.

(** The [len]-bit field that starts at bit [pos] (LSB-first layout of the
    bit-fields, which the source assumes: "We assume Little Endianess"). *)
Definition get_bits (pos len x : Z) : Z := Z.land (Z.shiftr x pos) (Z.ones len).

(** Storing [v] into that field: the value is truncated to the width. *)
Definition set_bits (pos len v x : Z) : Z :=
  Z.lor (Z.ldiff x (Z.shiftl (Z.ones len) pos))
        (Z.shiftl (Z.land v (Z.ones len)) pos).

(** ** Arithmetic automation *)

(** Evaluates the powers of two with a numeral exponent. *)
Ltac pow2 :=
  repeat match goal with
  | |- context [Z.pow 2 (Zpos ?k)] =>
      let v := eval vm_compute in (Z.pow 2 (Zpos k)) in change (Z.pow 2 (Zpos k)) with v
  | H : context [Z.pow 2 (Zpos ?k)] |- _ =>
      let v := eval vm_compute in (Z.pow 2 (Zpos k)) in change (Z.pow 2 (Zpos k)) with v in H
  end.

(** [lia] after division and remainder by constants are turned into
    equations, and after the fixed-width reductions are unfolded. *)
Ltac zlia :=
  unfold u8, u16, u32, u64, UINT64_MAX in *; pow2;
  Z.to_euclidean_division_equations; lia.

(** Boolean comparisons of the code as propositions. *)
Ltac bool_hyps :=
  repeat match goal with
  | H : (_ && _)%bool = true |- _ => apply andb_true_iff in H; destruct H
  | H : (_ && _)%bool = false |- _ => apply andb_false_iff in H
  | H : (_ || _)%bool = true |- _ => apply orb_true_iff in H
  | H : (_ || _)%bool = false |- _ => apply orb_false_iff in H; destruct H
  | H : negb _ = true |- _ => apply negb_true_iff in H
  | H : negb _ = false |- _ => apply negb_false_iff in H
  | H : (_ =? _) = true |- _ => apply Z.eqb_eq in H
  | H : (_ =? _) = false |- _ => apply Z.eqb_neq in H
  | H : (_ <? _) = true |- _ => apply Z.ltb_lt in H
  | H : (_ <? _) = false |- _ => apply Z.ltb_ge in H
  | H : (_ <=? _) = true |- _ => apply Z.leb_le in H
  | H : (_ <=? _) = false |- _ => apply Z.leb_gt in H
  end.

(** Case analysis on the condition of the first [if] of the goal. *)
Ltac case_if :=
  match goal with
  | |- context [if ?b then _ else _] =>
      lazymatch type of b with
      | bool => destruct b eqn:?
      | _ => destruct b
      end
  end.

Lemma u32_range x : 0 <= u32 x < 4294967296.
Proof. apply Z.mod_pos_bound; lia. Qed.

Lemma u64_range x : 0 <= u64 x < 18446744073709551616.
Proof. apply Z.mod_pos_bound; lia. Qed.

Lemma u32_small x : 0 <= x < 4294967296 -> u32 x = x.
Proof. apply Z.mod_small. Qed.

Lemma u64_small x : 0 <= x < 18446744073709551616 -> u64 x = x.
Proof. apply Z.mod_small. Qed.

Create HintDb a3.
Create Rewrite HintDb a3.
#[export] Hint Resolve u32_range u64_range : a3.
#[export] Hint Rewrite u32_small u64_small using lia : a3.

(** ** Bit-fields *)

Lemma get_bits_div pos len x :
  0 <= pos -> 0 <= len -> get_bits pos len x = (x / 2 ^ pos) mod 2 ^ len.
Proof.
  intros. unfold get_bits. rewrite Z.land_ones, Z.shiftr_div_pow2; lia.
Qed.

Lemma get_bits_range pos len x :
  0 <= len -> 0 <= get_bits pos len x < 2 ^ len.
Proof.
  intros. unfold get_bits. rewrite Z.land_ones by lia.
  apply Z.mod_pos_bound. lia.
Qed.

Lemma testbit_get_bits pos len x i :
  0 <= pos -> 0 <= len -> 0 <= i ->
  Z.testbit (get_bits pos len x) i = ((i <? len) && Z.testbit x (i + pos))%bool.
Proof.
  intros. unfold get_bits. rewrite Z.land_spec, Z.shiftr_spec by lia.
  destruct (Z.ltb_spec i len).
  - rewrite Z.ones_spec_low by lia. by rewrite andb_true_r.
  - rewrite Z.ones_spec_high by lia. by rewrite andb_false_r.
Qed.

Lemma testbit_set_bits pos len v x i :
  0 <= pos -> 0 <= len -> 0 <= i ->
  Z.testbit (set_bits pos len v x) i =
  if ((pos <=? i) && (i <? pos + len))%bool
  then Z.testbit v (i - pos) else Z.testbit x i.
Proof.
  intros. unfold set_bits.
  rewrite Z.lor_spec, Z.ldiff_spec, !Z.shiftl_spec, Z.land_spec by lia.
  destruct (Z.leb_spec pos i); simpl; last first.
  { rewrite !(Z.testbit_neg_r _ (i - pos)) by lia. simpl.
    by rewrite andb_true_r, orb_false_r. }
  destruct (Z.ltb_spec i (pos + len)).
  - rewrite !Z.ones_spec_low by lia. simpl.
    by rewrite andb_false_r, andb_true_r.
  - rewrite !Z.ones_spec_high by lia. simpl.
    by rewrite andb_true_r, andb_false_r, orb_false_r.
Qed.

(** Bit-by-bit equality of expressions made of bit-fields and masks. *)
Ltac bitwise :=
  apply Z.bits_inj'; intros ? ?;
  rewrite ?testbit_get_bits, ?testbit_set_bits by lia.

Lemma get_set_bits_same pos len v x :
  0 <= pos -> 0 <= len ->
  get_bits pos len (set_bits pos len v x) = v mod 2 ^ len.
Proof.
  intros. bitwise.
  destruct (Z.ltb_spec n len); simpl.
  - replace ((pos <=? n + pos) && (n + pos <? pos + len))%bool with true by lia.
    rewrite Z.mod_pow2_bits_low by lia. f_equal; lia.
  - by rewrite Z.mod_pow2_bits_high by lia.
Qed.

Lemma get_set_bits_other pos len pos' len' v x :
  0 <= pos -> 0 <= len -> 0 <= pos' -> 0 <= len' ->
  pos' + len' <= pos \/ pos + len <= pos' ->
  get_bits pos' len' (set_bits pos len v x) = get_bits pos' len' x.
Proof.
  intros. bitwise.
  destruct (Z.ltb_spec n len'); simpl; [|done].
  by replace ((pos <=? n + pos') && (n + pos' <? pos + len))%bool
    with false by lia.
Qed.

Lemma set_bits_range w pos len v x :
  0 <= pos -> 0 <= len -> pos + len <= w -> 0 <= x < 2 ^ w ->
  0 <= set_bits pos len v x < 2 ^ w.
Proof.
  intros. assert (0 <= set_bits pos len v x).
  { unfold set_bits. apply Z.lor_nonneg. split.
    - apply Z.ldiff_nonneg; lia.
    - apply Z.shiftl_nonneg, Z.land_nonneg. right.
      rewrite Z.ones_equiv. lia. }
  split; [done|].
  rewrite <- (Z.mod_small x (2 ^ w)) by lia.
  assert (set_bits pos len v (x mod 2 ^ w)
          = (set_bits pos len v (x mod 2 ^ w)) mod 2 ^ w) as ->.
  { apply Z.bits_inj'; intros i Hi. destruct (Z.ltb_spec i w).
    - by rewrite Z.mod_pow2_bits_low by lia.
    - rewrite (Z.mod_pow2_bits_high (set_bits _ _ _ _)) by lia.
      rewrite testbit_set_bits by lia.
      replace ((pos <=? i) && (i <? pos + len))%bool with false by lia.
      by rewrite Z.mod_pow2_bits_high by lia. }
  apply Z.mod_pos_bound. lia.
Qed.

Lemma lor_range n x y : 0 <= n -> 0 <= x < 2 ^ n -> 0 <= y < 2 ^ n -> 0 <= Z.lor x y < 2 ^ n.
Proof.
  intros Hn Hx Hy. assert (Z.lor x y = Z.lor x y mod 2 ^ n) as ->; [|apply Z.mod_pos_bound; lia].
  apply Z.bits_inj'. intros i Hi. destruct (Z.lt_ge_cases i n).
  - by rewrite Z.mod_pow2_bits_low by lia.
  - rewrite Z.mod_pow2_bits_high by lia. rewrite Z.lor_spec.
    rewrite <- (Z.mod_small x (2 ^ n)), <- (Z.mod_small y (2 ^ n)) by lia.
    by rewrite !Z.mod_pow2_bits_high by lia.
Qed.

(** Two values with disjoint bits: [lor] is addition. *)
Lemma lor_add_disjoint k hi lo :
  0 <= k -> 0 <= lo < 2 ^ k ->
  Z.lor (hi * 2 ^ k) lo = hi * 2 ^ k + lo.
Proof.
  intros. pose proof (Z.add_lor_land (hi * 2 ^ k) lo) as E.
  assert (Z.land (hi * 2 ^ k) lo = 0) as Hz; [|lia].
  bitwise. rewrite Z.land_spec, Z.bits_0.
  destruct (Z.ltb_spec n k).
  - by rewrite Z.mul_pow2_bits_low by lia.
  - rewrite <- (Z.mod_small lo (2 ^ k)), Z.mod_pow2_bits_high by lia.
    apply andb_false_r.
Qed.

(** ** Errors and the state monad

    The ways in which a run of the source does not return normally: an
    explicit [std::abort], a failed [ASSERT] (the default CMake build keeps
    assertions), an access outside an array, a use of a deleted object, a null
    dereference, a use of an uninitialised variable, an exception that nothing
    catches. [OutOfFuel] is not a behaviour of the source: it marks a
    bounded unrolling of a loop that was too short, and the theorems about
    such loops show that it does not occur. *)
Inductive error : Type :=
| Abort
| AssertFail
| OutOfBounds
| UseAfterFree
| NullDeref
| Uninitialized
| Exception
| OutOfFuel
| DivideByZero.

#[export] Instance error_eq_dec : EqDecision error.
Proof. solve_decision. Defined.

Inductive result (A : Type) : Type :=
| Ok (a : A)
| Err (e : error).
Arguments Ok {A} a.
Arguments Err {A} e.

Definition is_ok {A} (r : result A) : bool := if r is Ok _ then true else false.

(** A fallible computation over a state [S]. *)
Definition M (S A : Type) : Type := S -> result (A * S).

Definition ret {S A} (a : A) : M S A := fun s => Ok (a, s).

Definition bind {S A B} (m : M S A) (f : A -> M S B) : M S B :=
  fun s => match m s with
           | Ok (a, s') => f a s'
           | Err e => Err e
           end.

Definition fail {S A} (e : error) : M S A := fun _ => Err e.
Definition gets {S A} (f : S -> A) : M S A := fun s => Ok (f s, s).
Definition modify {S} (f : S -> S) : M S unit := fun s => Ok (tt, f s).

(** The [ASSERT] macro. *)
Definition assert_ {S} (b : bool) : M S unit :=
  if b then ret tt else fail AssertFail.

(** Dereferencing a pointer or an index that may be invalid. *)
Definition of_option {S A} (e : error) (o : option A) : M S A :=
  match o with Some a => ret a | None => fail e end.

Definition when {S} (b : bool) (m : M S unit) : M S unit :=
  if b then m else ret tt.

(** Running a computation on a part of the state. *)
Definition zoom {S T A} (get : S -> T) (put : T -> S -> S) (m : M T A) : M S A :=
  fun s => match m (get s) with
           | Ok (a, t) => Ok (a, put t s)
           | Err e => Err e
           end.

Lemma bind_ok {S A B} (m : M S A) (f : A -> M S B) s a s' :
  m s = Ok (a, s') -> bind m f s = f a s'.
Proof. unfold bind. by intros ->. Qed.

Lemma bind_err {S A B} (m : M S A) (f : A -> M S B) s e :
  m s = Err e -> bind m f s = Err e.
Proof. unfold bind. by intros ->. Qed.

Declare Scope a3_scope.
Delimit Scope a3_scope with a3.
Notation "'let!' x ':=' m 'in' k" := (bind m (fun x => k))
  (at level 10, x binder, m at level 199, k at level 200,
   format "'[v' 'let!'  x  ':='  m  'in' '/' k ']'") : a3_scope.
Notation "m ;;; k" := (bind m (fun _ => k))
  (at level 199, right associativity,
   format "'[v' m  ;;; '/' k ']'") : a3_scope.
Global Open Scope a3_scope.

(** ** Loops *)

(** [for (i = from; i < from + n; ++i) body(i)] *)
Fixpoint for_ {S} (n : nat) (from : Z) (body : Z -> M S unit) : M S unit :=
  match n with
  | O => ret tt
  | Datatypes.S n' => body from ;;; for_ n' (from + 1) body
  end.

(** The same with a local variable updated in the loop. *)
Fixpoint for_acc {S A} (n : nat) (from : Z) (body : Z -> A -> M S A) (a : A) : M S A :=
  match n with
  | O => ret a
  | Datatypes.S n' => let! a := body from a in for_acc n' (from + 1) body a
  end.

(** Runs [body] over the elements of a list, in order. *)
Fixpoint for_each {S A} (l : list A) (body : A -> M S unit) : M S unit :=
  match l with
  | [] => ret tt
  | x :: l' => body x ;;; for_each l' body
  end.

(** At most [p] rounds of [step]; stops with [true] at the first round that
    answers [true], and with [false] when the rounds are used up. *)
Fixpoint poll {S} (p : positive) (step : M S bool) : M S bool :=
  match p with
  | xH => step
  | xO p' =>
      let! b := poll p' step in
      if (b : bool) then ret true else poll p' step
  | xI p' =>
      let! b := step in
      if (b : bool) then ret true else
      let! b := poll p' step in
      if (b : bool) then ret true else poll p' step
  end.

(** ** Weakest preconditions

    [wp E m Q s]: from [s], [m] either returns normally in a state that
    satisfies [Q], or stops with an error allowed by [E]. *)
Definition wp {S A} (E : error -> Prop) (m : M S A) (Q : A -> S -> Prop)
    (s : S) : Prop :=
  match m s with
  | Ok (a, s') => Q a s'
  | Err e => E e
  end.

(** No error at all. *)
Definition no_error (_ : error) : Prop := False.
(** Partial correctness. *)
Definition any_error (_ : error) : Prop := True.

Section WeakestPreconditions.
Context {S : Type} (E : error -> Prop).

Lemma wp_ret {A} (a : A) (Q : A -> S -> Prop) s : Q a s -> wp E (ret a) Q s.
Proof. done. Qed.

Lemma wp_bind {A B} (m : M S A) (f : A -> M S B) Q s :
  wp E m (fun a s' => wp E (f a) Q s') s -> wp E (bind m f) Q s.
Proof. unfold wp, bind. by destruct (m s) as [[a s']|e]. Qed.

Lemma wp_bind_assoc {A B C} (m : M S A) (f : A -> M S B) (g : B -> M S C) Q s :
  wp E (bind (bind m f) g) Q s -> wp E (bind m (fun x => bind (f x) g)) Q s.
Proof. unfold wp, bind. by destruct (m s) as [[a s']|e]. Qed.

Lemma wp_fail {A} e (Q : A -> S -> Prop) s : E e -> wp E (fail e) Q s.
Proof. done. Qed.

Lemma wp_gets {A} (f : S -> A) (Q : A -> S -> Prop) s :
  Q (f s) s -> wp E (gets f) Q s.
Proof. done. Qed.

Lemma wp_modify (f : S -> S) (Q : unit -> S -> Prop) s :
  Q tt (f s) -> wp E (modify f) Q s.
Proof. done. Qed.

Lemma wp_assert b (Q : unit -> S -> Prop) s :
  b = true -> Q tt s -> wp E (assert_ b) Q s.
Proof. by intros ->. Qed.

Lemma wp_of_option {A} e (o : option A) a (Q : A -> S -> Prop) s :
  o = Some a -> Q a s -> wp E (of_option e o) Q s.
Proof. by intros ->. Qed.

Lemma wp_zoom {T A} (get : S -> T) (put : T -> S -> S) (m : M T A) (Q : A -> S -> Prop) s :
  wp E m (fun a t => Q a (put t s)) (get s) -> wp E (zoom get put m) Q s.
Proof. unfold wp, zoom. by destruct (m (get s)) as [[a t]|e]. Qed.

Lemma wp_mono {A} (m : M S A) (Q Q' : A -> S -> Prop) s :
  wp E m Q s -> (forall a s', Q a s' -> Q' a s') -> wp E m Q' s.
Proof. unfold wp. destruct (m s) as [[a s']|e]; naive_solver. Qed.

Lemma wp_no_error {A} (m : M S A) (Q : A -> S -> Prop) s : wp no_error m Q s -> wp E m Q s.
Proof. unfold wp. by destruct (m s) as [[a s']|e]. Qed.

Lemma wp_when b (m : M S unit) (Q : unit -> S -> Prop) s :
  (b = true -> wp E m Q s) -> (b = false -> Q tt s) -> wp E (when b m) Q s.
Proof. destruct b; naive_solver. Qed.

(** A loop with invariant [I i s], where [i] is the next index. *)
Lemma wp_for (I : Z -> S -> Prop) n from body (Q : unit -> S -> Prop) s :
  I from s ->
  (forall i s, from <= i < from + Z.of_nat n -> I i s ->
     wp E (body i) (fun _ s' => I (i + 1) s') s) ->
  (forall s, I (from + Z.of_nat n) s -> Q tt s) ->
  wp E (for_ n from body) Q s.
Proof.
  revert from s. induction n as [|n IH]; intros from s HI Hstep HQ; simpl.
  - apply wp_ret, HQ. by rewrite Z.add_0_r.
  - apply wp_bind. eapply wp_mono; [apply Hstep; [lia|done]|].
    intros [] s' HI'. apply IH; [done| |].
    + intros i s0 Hi. apply Hstep. lia.
    + intros s0 H0. apply HQ. by replace (from + Z.of_nat (Datatypes.S n))
        with (from + 1 + Z.of_nat n) by lia.
Qed.

Lemma wp_for_acc {A} (I : Z -> A -> S -> Prop) n from body a (Q : A -> S -> Prop) s :
  I from a s ->
  (forall i a s, from <= i < from + Z.of_nat n -> I i a s ->
     wp E (body i a) (fun a' s' => I (i + 1) a' s') s) ->
  (forall a s, I (from + Z.of_nat n) a s -> Q a s) ->
  wp E (for_acc n from body a) Q s.
Proof.
  revert from a s. induction n as [|n IH]; intros from a s HI Hstep HQ; simpl.
  - apply wp_ret, HQ. by rewrite Z.add_0_r.
  - apply wp_bind. eapply wp_mono; [apply Hstep; [lia|done]|].
    intros a' s' HI'. apply IH; [done| |].
    + intros i a0 s0 Hi. apply Hstep. lia.
    + intros a0 s0 H0. apply HQ. by replace (from + Z.of_nat (Datatypes.S n))
        with (from + 1 + Z.of_nat n) by lia.
Qed.

Lemma wp_for_each {A} (I : list A -> S -> Prop) l body
    (Q : unit -> S -> Prop) s :
  I [] s ->
  (forall pre x post s, l = pre ++ x :: post -> I pre s ->
     wp E (body x) (fun _ s' => I (pre ++ [x]) s') s) ->
  (forall s, I l s -> Q tt s) ->
  wp E (for_each l body) Q s.
Proof.
  intros HI Hstep HQ.
  assert (forall done rest s, l = done ++ rest -> I done s ->
    wp E (for_each rest body) Q s) as G; [|by apply (G [] l)].
  intros done rest. revert done.
  induction rest as [|x rest IH]; intros pre s0 Hl HI0; simpl.
  - apply wp_ret, HQ. subst. by rewrite app_nil_r.
  - apply wp_bind. eapply wp_mono; [by eapply Hstep|].
    intros [] s' HI'. apply (IH (pre ++ [x])); [|done].
    by rewrite <- app_assoc.
Qed.

(** Polling preserves what every round preserves, and reports [true] only
    for a round that answered [true]. *)
Lemma wp_poll (I : S -> Prop) (T : S -> Prop) p step (Q : bool -> S -> Prop) s :
  I s ->
  (forall s, I s -> wp E step (fun b s' => I s' /\ (b = true -> T s')) s) ->
  (forall b s, I s -> (b = true -> T s) -> Q b s) ->
  wp E (poll p step) Q s.
Proof.
  intros HI Hstep. revert s Q HI.
  induction p as [p IH|p IH|]; intros s Q HI HQ; simpl.
  - apply wp_bind. eapply wp_mono; [by apply Hstep|]. intros [] s1 [? ?].
    { apply wp_ret. auto. }
    apply wp_bind. apply IH; [done|]. intros [] s2 ? ?.
    { apply wp_ret. auto. }
    by apply IH.
  - apply wp_bind. apply IH; [done|]. intros [] s2 ? ?.
    { apply wp_ret. auto. }
    by apply IH.
  - eapply wp_mono; [by apply Hstep|]. intros b s1 [? ?]. auto.
Qed.

End WeakestPreconditions.

Lemma wp_ok {S A} E (m : M S A) Q s a s' :
  wp E m Q s -> m s = Ok (a, s') -> Q a s'.
Proof. unfold wp. intros H Hm. by rewrite Hm in H. Qed.

Lemma wp_total {S A} (m : M S A) Q s :
  wp no_error m Q s -> exists a s', m s = Ok (a, s') /\ Q a s'.
Proof. unfold wp. destruct (m s) as [[a s']|e]; [eauto|done]. Qed.

(** One symbolic step of a monadic program. *)
Ltac wp_step :=
  lazymatch goal with
  | |- wp _ (bind _ _) _ _ => apply wp_bind
  | |- wp _ (ret _) _ _ => apply wp_ret
  | |- wp _ (gets _) _ _ => apply wp_gets
  | |- wp _ (modify _) _ _ => apply wp_modify
  | |- wp _ (when ?b _) _ _ => apply wp_when; intros ?
  | |- wp _ (if ?b then _ else _) _ _ => destruct b eqn:?
  | |- wp _ (match ?x with _ => _ end) _ _ => destruct x eqn:?
  end.
Ltac wp_steps := repeat (wp_step; cbn beta).

(** ** Frames

    [keeps f m]: when [m] returns normally, the part [f] of the state is what it was. *)
Definition keeps {S A B} (f : S -> B) (m : M S A) : Prop :=
  forall s a s', m s = Ok (a, s') -> f s' = f s.

Section Keeps.
Context {S B : Type} (f : S -> B).

Lemma keeps_ret {A} (a : A) : keeps f (ret a).
Proof. by intros s a' s' [= _ <-]. Qed.

Lemma keeps_fail {A} e : keeps f (@fail S A e).
Proof. by intros s a s'. Qed.

Lemma keeps_gets {A} (g : S -> A) : keeps f (gets g).
Proof. by intros s a s' [= _ <-]. Qed.

Lemma keeps_modify g : (forall s, f (g s) = f s) -> keeps f (modify g).
Proof. by intros H s a s' [= _ <-]. Qed.

Lemma keeps_bind {A C} (m : M S A) (k : A -> M S C) :
  keeps f m -> (forall a, keeps f (k a)) -> keeps f (bind m k).
Proof.
  intros Hm Hk s c s'. unfold bind. destruct (m s) as [[a s1]|] eqn:E; [|done].
  intros E'. by rewrite (Hk _ _ _ _ E'), (Hm _ _ _ E).
Qed.

Lemma keeps_assert b : keeps f (assert_ b).
Proof. destruct b; [apply keeps_ret|apply keeps_fail]. Qed.

Lemma keeps_of_option {A} e (o : option A) : keeps f (of_option e o).
Proof. destruct o; [apply keeps_ret|apply keeps_fail]. Qed.

Lemma keeps_when b m : keeps f m -> keeps f (when b m).
Proof. destruct b; [done|intros _; apply keeps_ret]. Qed.

Lemma keeps_for n from body : (forall i, keeps f (body i)) -> keeps f (for_ n from body).
Proof.
  intros H. revert from. induction n as [|n IH]; intros from; [apply keeps_ret|].
  apply keeps_bind; [apply H|by intros _].
Qed.

Lemma keeps_for_acc {A} n from (body : Z -> A -> M S A) a :
  (forall i a, keeps f (body i a)) -> keeps f (for_acc n from body a).
Proof.
  intros H. revert from a. induction n as [|n IH]; intros from a; [apply keeps_ret|].
  apply keeps_bind; [apply H|by intros a'].
Qed.

Lemma keeps_for_each {A} (l : list A) body : (forall x, keeps f (body x)) -> keeps f (for_each l body).
Proof.
  intros H. induction l as [|x l IH]; [apply keeps_ret|]. apply keeps_bind; [apply H|done].
Qed.

Lemma keeps_poll p step : keeps f step -> keeps f (poll p step).
Proof.
  intros H. induction p as [p IH|p IH|]; cbn [poll]; [| |done];
    repeat (apply keeps_bind; [done|]; intros []; try apply keeps_ret); done.
Qed.

Lemma keeps_zoom {T A} (get : S -> T) put (m : M T A) :
  (forall t s, f (put t s) = f s) -> keeps f (zoom get put m).
Proof.
  intros H s a s'. unfold zoom. destruct (m (get s)) as [[a' t]|]; [|done]. by intros [= _ <-].
Qed.

Lemma keeps_zoom_same {T A} (get : S -> T) put (m : M T A) :
  (forall s, put (get s) s = s) -> keeps id m -> keeps f (zoom get put m).
Proof.
  intros H Hm s a s'. unfold zoom. destruct (m (get s)) as [[a' t]|] eqn:E; [|done].
  intros [= _ <-]. pose proof (Hm _ _ _ E) as Ht. unfold id in Ht. subst t. by rewrite H.
Qed.
End Keeps.

(** A program in partial correctness, known by what it keeps or by its runs. *)
Lemma wp_keeps {S A B} (f : S -> B) (m : M S A) (Q : A -> S -> Prop) s :
  keeps f m -> (forall a s', f s' = f s -> Q a s') -> wp any_error m Q s.
Proof. intros Hm HQ. unfold wp. destruct (m s) as [[a s']|] eqn:E; [eauto|done]. Qed.
Lemma wp_runs {S A} (m : M S A) (Q : A -> S -> Prop) s :
  (forall a s', m s = Ok (a, s') -> Q a s') -> wp any_error m Q s.
Proof. intros HQ. unfold wp. destruct (m s) as [[a s']|] eqn:E; [eauto|done]. Qed.

Create HintDb keeps discriminated.
#[export] Hint Resolve keeps_ret keeps_fail keeps_gets keeps_assert keeps_of_option : keeps.

(** One step towards [keeps]. *)
Ltac keeps_step :=
  lazymatch goal with
  | |- keeps _ (bind _ _) => apply keeps_bind; [|intros ?]
  | |- keeps _ (when _ _) => apply keeps_when
  | |- keeps _ (for_ _ _ _) => apply keeps_for; intros ?
  | |- keeps _ (for_acc _ _ _ _) => apply keeps_for_acc; intros ? ?
  | |- keeps _ (for_each _ _) => apply keeps_for_each; intros ?
  | |- keeps _ (poll _ _) => apply keeps_poll
  | |- keeps _ (modify _) => apply keeps_modify; intros ?; reflexivity
  | |- keeps _ (let _ := _ in _) => cbv zeta
  | |- keeps _ (if ?b then _ else _) => destruct b
  | |- keeps _ (match ?x with _ => _ end) => destruct x
  end.
Ltac keeps_solve := repeat first [solve [auto with keeps] | keeps_step].

(** ** Fixed-size arrays

    A [std::array], [std::vector] or [new T[n]]: a length, the elements that
    were stored, and the initial contents. Accesses are checked: an index out
    of range is undefined behaviour in the source and [None] here. *)
Record vec (A : Type) : Type := Vec {
  vlen : Z;
  vmap : gmap Z A;
  vinit : Z -> A
}.
Arguments Vec {A} _ _ _.
Arguments vlen {A} _.
Arguments vmap {A} _.
Arguments vinit {A} _ _.

Definition vec_make {A} (n : Z) (d : A) : vec A := Vec n ∅ (fun _ => d).

(** The element at [i], ignoring the bound. *)
Definition vec_at {A} (v : vec A) (i : Z) : A := default (vinit v i) (vmap v !! i).

Definition vec_get {A} (v : vec A) (i : Z) : option A :=
  if ((0 <=? i) && (i <? vlen v))%bool then Some (vec_at v i) else None.

Definition vec_set {A} (v : vec A) (i : Z) (x : A) : option (vec A) :=
  if ((0 <=? i) && (i <? vlen v))%bool
  then Some (Vec (vlen v) (<[i := x]> (vmap v)) (vinit v)) else None.

(** [std::vector::resize] with a default element for the new positions. *)
Definition vec_resize {A} (v : vec A) (n : Z) (d : A) : vec A :=
  Vec n (filter (fun p => p.1 < vlen v) (vmap v))
      (fun i => if i <? vlen v then vinit v i else d).

(** [std::fill] over the positions [from, from + n). *)
Fixpoint vec_fill {A} (v : vec A) (from : Z) (n : nat) (d : A) : option (vec A) :=
  match n with
  | O => Some v
  | S n' =>
      match vec_set v from d with
      | Some v' => vec_fill v' (from + 1) n' d
      | None => None
      end
  end.

Section VecFacts.
Context {A : Type}.
Implicit Types v : vec A.

Lemma vec_get_some v i : 0 <= i < vlen v -> vec_get v i = Some (vec_at v i).
Proof. intros. unfold vec_get. by case_if; [|lia]. Qed.

Lemma vec_get_inv v i x :
  vec_get v i = Some x -> 0 <= i < vlen v /\ x = vec_at v i.
Proof. unfold vec_get. case_if; [|done]. intros [= <-]. split; [lia|done]. Qed.

Lemma vec_set_some v i x :
  0 <= i < vlen v ->
  exists v', vec_set v i x = Some v' /\ vlen v' = vlen v /\ vec_at v' i = x /\
             forall j, j <> i -> vec_at v' j = vec_at v j.
Proof.
  intros. unfold vec_set. case_if; [|lia].
  eexists; split; [done|]. split; [done|]. unfold vec_at; simpl.
  split; [by rewrite lookup_insert_eq|]. intros. by rewrite lookup_insert_ne.
Qed.

Lemma vec_set_inv v v' i x :
  vec_set v i x = Some v' ->
  0 <= i < vlen v /\ vlen v' = vlen v /\ vec_at v' i = x /\
  forall j, j <> i -> vec_at v' j = vec_at v j.
Proof.
  intros H. assert (0 <= i < vlen v) as Hi.
  { unfold vec_set in H. case_match; [lia|done]. }
  destruct (vec_set_some v i x Hi) as (v1 & E & ?). naive_solver.
Qed.

Lemma vec_fill_some n v from d :
  0 <= from -> from + Z.of_nat n <= vlen v ->
  exists v', vec_fill v from n d = Some v' /\ vlen v' = vlen v /\
    forall j, vec_at v' j = if (from <=? j) && (j <? from + Z.of_nat n) then d else vec_at v j.
Proof.
  revert v from. induction n as [|n IH]; intros v from Hf Hn.
  - exists v. split_and!; [done|done|]. intros j.
    by destruct (Z.leb_spec from j), (Z.ltb_spec j (from + Z.of_nat 0)); simpl; try lia.
  - cbn [vec_fill]. destruct (vec_set_some v from d) as (v1 & -> & Hl & Hat & Ho); [lia|].
    destruct (IH v1 (from + 1)) as (v' & -> & Hl' & Hat'); [lia|lia|].
    exists v'. split_and!; [done|congruence|]. intros j. rewrite Hat'.
    destruct (decide (j = from)) as [->|Hne].
    + rewrite Hat. by destruct (Z.leb_spec (from + 1) from), (Z.leb_spec from from),
        (Z.ltb_spec from (from + Z.of_nat (S n))); simpl; try lia.
    + rewrite Ho by done.
      replace (from + Z.of_nat (S n)) with (from + 1 + Z.of_nat n) by lia.
      by destruct (Z.leb_spec (from + 1) j), (Z.leb_spec from j); simpl; try lia.
Qed.

Lemma vec_at_make n (d : A) i : vec_at (vec_make n d) i = d.
Proof. unfold vec_at. simpl. by rewrite lookup_empty. Qed.

Lemma vec_at_resize v n d i :
  vec_at (vec_resize v n d) i = if i <? vlen v then vec_at v i else d.
Proof.
  unfold vec_at, vec_resize; simpl. rewrite map_lookup_filter.
  destruct (vmap v !! i) eqn:Hv; simpl; [|done].
  case_guard as Hg; simpl in *; destruct (Z.ltb_spec i (vlen v)); simpl; try done; lia.
Qed.
End VecFacts.

(** ** Sums over a list *)

Definition sumz {A} (f : A -> Z) (l : list A) : Z := foldr (fun x acc => f x + acc) 0 l.

Lemma sumz_cons {A} (f : A -> Z) x l : sumz f (x :: l) = f x + sumz f l.
Proof. done. Qed.

Lemma sumz_app {A} (f : A -> Z) l k : sumz f (l ++ k) = sumz f l + sumz f k.
Proof. induction l as [|x l IH]; [done|]. simpl app. rewrite !sumz_cons. lia. Qed.

#[export] Instance sumz_perm {A} (f : A -> Z) : Proper ((≡ₚ) ==> (=)) (sumz f).
Proof.
  induction 1; rewrite ?sumz_cons; lia.
Qed.

Lemma sumz_ext {A} (f g : A -> Z) l : (forall x, x ∈ l -> f x = g x) -> sumz f l = sumz g l.
Proof.
  induction l as [|x l IH]; intros H; [done|]. rewrite !sumz_cons.
  rewrite (H x) by left. rewrite IH; [done|]. intros y Hy. apply H. by right.
Qed.

Lemma sumz_nonneg {A} (f : A -> Z) l : (forall x, x ∈ l -> 0 <= f x) -> 0 <= sumz f l.
Proof.
  induction l as [|x l IH]; intros H; [done|]. rewrite sumz_cons.
  assert (0 <= f x) by (apply H; left). assert (0 <= sumz f l); [|lia].
  apply IH. intros y Hy. apply H. by right.
Qed.

Lemma sumz_zero {A} (f : A -> Z) l : (forall x, x ∈ l -> f x = 0) -> sumz f l = 0.
Proof.
  intros H. rewrite (sumz_ext f (fun _ => 0) l H). clear H.
  by induction l as [|x l IH]; [|rewrite sumz_cons, IH].
Qed.

(** Changing one summand. *)
Lemma sumz_update {A} (f g : A -> Z) l c :
  NoDup l -> c ∈ l -> (forall x, x <> c -> g x = f x) ->
  sumz g l = sumz f l - f c + g c.
Proof.
  induction 1 as [|x l Hx Hnd IH]; intros Hc Hg; [by apply not_elem_of_nil in Hc|].
  rewrite !sumz_cons. apply elem_of_cons in Hc as [->|Hc].
  - rewrite (sumz_ext g f l); [lia|]. intros y Hy. apply Hg. by intros ->.
  - rewrite IH by done. rewrite (Hg x) by (by intros ->). lia.
Qed.

Lemma sumz_pos {A} (f : A -> Z) l : 0 < sumz f l -> exists x, x ∈ l /\ 0 < f x.
Proof.
  induction l as [|x l IH]; intros H; [done|]. rewrite sumz_cons in H.
  destruct (Z_lt_le_dec 0 (f x)).
  - exists x. split; [left|done].
  - destruct IH as (y & Hy & ?); [lia|]. exists y. split; [by right|done].
Qed.
