(* ===== verification/Config.v ===== *)
(** * Configuration, bit masks and the command record

    The compile-time configuration ([config.h], [config.quadro6000.h], the
    constants of [page_table.h] and [device_bar1.h]), the bit-mask templates of
    [bit_mask.h], the split [round_up] of the page tables and the command
    message of [a3.h]. *)

From S2P Require Import Prelude.

(** ** [config.h] and [config.quadro6000.h] *)

Definition A3_1G : Z := 0x40000000.
Definition A3_2G : Z := A3_1G * 2.
Definition A3_VM_NUM : Z := 2.
Definition A3_CHANNELS : Z := 128.
Definition A3_DOMAIN_CHANNELS : Z := A3_CHANNELS / A3_VM_NUM.
Definition A3_MEMORY_CTL_PART : Z := A3_1G / 2.
Definition A3_MEMORY_CTL_NUM : Z := ((A3_2G * 2) / A3_MEMORY_CTL_PART) / A3_VM_NUM.
Definition A3_MEMORY_SIZE : Z := A3_MEMORY_CTL_PART * A3_MEMORY_CTL_NUM.
Definition A3_HYPERVISOR_DEVICE_MEM_BASE : Z := A3_2G * 2.
Definition A3_HYPERVISOR_DEVICE_MEM_SIZE : Z := A3_2G.
Definition A3_BAR0_SIZE : Z := Z.shiftl 32 20.
Definition A3_BAR4_SIZE : Z := 0x1000.
Definition A3_BAR3_TOTAL_SIZE : Z := 16 * Z.shiftl 1 20.
Definition A3_BAR3_ARENA_SIZE : Z := A3_BAR3_TOTAL_SIZE / A3_VM_NUM.
Definition NOUVEAU_PV_SLOT_SIZE : Z := 0x1000.
Definition NOUVEAU_PV_SLOT_NUM : Z := 64.
Definition NOUVEAU_PV_SLOT_TOTAL : Z := NOUVEAU_PV_SLOT_SIZE * NOUVEAU_PV_SLOT_NUM.

(** ** [page_table.h] *)

Definition kPAGE_SHIFT : Z := 12.
Definition kSMALL_PAGE_SHIFT : Z := 12.
Definition kLARGE_PAGE_SHIFT : Z := 17.
Definition kPAGE_SIZE : Z := 0x1000.
Definition kPAGE_DIRECTORY_COVERED_SIZE : Z := 0x8000000.
Definition kMAX_PAGE_DIRECTORIES : Z := 0x2000.
Definition kSMALL_PAGE_SIZE : Z := Z.shiftl 1 kSMALL_PAGE_SHIFT.
Definition kLARGE_PAGE_SIZE : Z := Z.shiftl 1 kLARGE_PAGE_SHIFT.
Definition kSMALL_PAGE_COUNT : Z := Z.shiftr kPAGE_DIRECTORY_COVERED_SIZE kSMALL_PAGE_SHIFT.
Definition kLARGE_PAGE_COUNT : Z := Z.shiftr kPAGE_DIRECTORY_COVERED_SIZE kLARGE_PAGE_SHIFT.

(** [device_bar1.h]: the software page table of BAR1 covers 128MB. *)
Definition kBAR1_ARENA_SIZE : Z := 128 * Z.shiftl 1 20.

(** Replaces every configuration constant by its numeral. *)
Ltac const_num c := let v := eval vm_compute in c in change c with v in *.
Ltac consts :=
  const_num A3_1G; const_num A3_2G; const_num A3_VM_NUM;
  const_num A3_CHANNELS; const_num A3_DOMAIN_CHANNELS; const_num A3_MEMORY_CTL_PART;
  const_num A3_MEMORY_CTL_NUM; const_num A3_MEMORY_SIZE; const_num A3_HYPERVISOR_DEVICE_MEM_BASE;
  const_num A3_HYPERVISOR_DEVICE_MEM_SIZE; const_num A3_BAR0_SIZE; const_num A3_BAR4_SIZE;
  const_num A3_BAR3_TOTAL_SIZE; const_num A3_BAR3_ARENA_SIZE; const_num NOUVEAU_PV_SLOT_SIZE;
  const_num NOUVEAU_PV_SLOT_NUM; const_num NOUVEAU_PV_SLOT_TOTAL; const_num kPAGE_SHIFT;
  const_num kSMALL_PAGE_SHIFT; const_num kLARGE_PAGE_SHIFT; const_num kPAGE_SIZE;
  const_num kPAGE_DIRECTORY_COVERED_SIZE; const_num kMAX_PAGE_DIRECTORIES; const_num kSMALL_PAGE_SIZE;
  const_num kLARGE_PAGE_SIZE; const_num kSMALL_PAGE_COUNT; const_num kLARGE_PAGE_COUNT;
  const_num kBAR1_ARENA_SIZE.

(** ** [bit_mask.h] *)

(** [values<N>::lower] and [values<N>::upper], 64-bit masks. *)
Definition lower_mask (n : Z) : Z := u64 (Z.shiftl 1 n) - 1.
Definition upper_mask (n : Z) : Z := u64 (Z.lnot (lower_mask n)).

(** The result types of the templates are at least as wide as the argument,
    so the mask is the value: no truncation follows. *)
Definition bit_mask (n ch : Z) : Z := Z.land (lower_mask n) ch.
Definition bit_clear (n ch : Z) : Z := Z.land (upper_mask n) ch.
Definition bit_check (n ch : Z) : bool := negb (Z.land (Z.shiftl 1 n) ch =? 0).

Definition lower32 (data : Z) : Z := u32 data.
Definition upper32 (data : Z) : Z := u32 (Z.shiftr (Z.shiftr data 16) 16).

(** [round_up(x, y)] of the page tables: [y] is a power of two. *)
Definition round_up (x y : Z) : Z := Z.land (u64 (x + (y - 1))) (u64 (Z.lnot (y - 1))).

(** ** The command message of [a3.h] *)

Inductive type_t : Type :=
| TYPE_INIT | TYPE_WRITE | TYPE_READ | TYPE_UTILITY | TYPE_BAR3 | TYPE_OTHER (t : Z).

(** [type], [value], [offset] are [uint32_t], [u8[0]] is the BAR and [u8[1]]
    the access size. A [type] value outside the enumeration is [TYPE_OTHER]. *)
Record command : Type := Command {
  type : type_t;
  value : Z;
  offset : Z;
  bar : Z;
  size : Z
}.

(** A command as the message queue delivers it: the fields have their widths. *)
Definition command_wf (c : command) : Prop :=
  0 <= value c < 2 ^ 32 /\ 0 <= offset c < 2 ^ 32 /\
  0 <= bar c < 2 ^ 8 /\ 0 <= size c < 2 ^ 8.

(** ** Facts about the masks *)

Lemma lower_mask_ones n : 0 <= n < 64 -> lower_mask n = Z.ones n.
Proof.
  intros. unfold lower_mask. rewrite Z.shiftl_1_l, u64_small.
  - by rewrite Z.ones_equiv, Z.sub_1_r.
  - split; [lia|]. change 18446744073709551616 with (2 ^ 64).
    apply Z.pow_lt_mono_r; lia.
Qed.

Lemma bit_mask_mod n x : 0 <= n < 64 -> bit_mask n x = x mod 2 ^ n.
Proof.
  intros. unfold bit_mask. rewrite lower_mask_ones, Z.land_comm by lia.
  by rewrite Z.land_ones by lia.
Qed.

Lemma bit_mask_range n x : 0 <= n < 64 -> 0 <= bit_mask n x < 2 ^ n.
Proof. intros. rewrite bit_mask_mod by lia. apply Z.mod_pos_bound. lia. Qed.

Lemma u64_testbit x i :
  0 <= i -> Z.testbit (u64 x) i = ((i <? 64) && Z.testbit x i)%bool.
Proof.
  intros. unfold u64. change 18446744073709551616 with (2 ^ 64).
  destruct (Z.ltb_spec i 64).
  - by rewrite Z.mod_pow2_bits_low by lia.
  - by rewrite Z.mod_pow2_bits_high by lia.
Qed.

Lemma bit_clear_sub n x :
  0 <= n < 64 -> 0 <= x < 2 ^ 64 -> bit_clear n x = x - x mod 2 ^ n.
Proof.
  intros Hn Hx. assert (bit_clear n x = Z.ldiff x (Z.ones n)) as ->.
  { unfold bit_clear, upper_mask. rewrite lower_mask_ones by lia.
    apply Z.bits_inj'; intros i Hi.
    rewrite Z.land_spec, Z.ldiff_spec, u64_testbit, Z.lnot_spec by lia.
    destruct (Z.ltb_spec i 64); simpl; [by rewrite andb_comm|].
    rewrite <- (Z.mod_small x (2 ^ 64)) by lia.
    by rewrite Z.mod_pow2_bits_high by lia. }
  rewrite Z.ldiff_ones_r, Z.shiftr_div_pow2, Z.shiftl_mul_pow2 by lia.
  rewrite Z.mod_eq by lia. lia.
Qed.

Lemma lnot_mask_round k s :
  0 <= k < 64 -> 0 <= s < 2 ^ 64 ->
  Z.land s (u64 (Z.lnot (2 ^ k - 1))) = s - s mod 2 ^ k.
Proof.
  intros. rewrite <- bit_clear_sub by lia.
  unfold bit_clear, upper_mask. rewrite lower_mask_ones, Z.land_comm by lia.
  by rewrite Z.ones_equiv, Z.sub_1_r.
Qed.

(** Rounding up to a power of two, when the addition does not wrap. *)
Lemma round_up_spec k x :
  0 <= k < 64 -> 0 <= x -> x + 2 ^ k <= 2 ^ 64 ->
  round_up x (2 ^ k) = ((x + 2 ^ k - 1) / 2 ^ k) * 2 ^ k.
Proof.
  intros Hk Hx Hs. unfold round_up.
  rewrite (u64_small (x + (2 ^ k - 1))) by lia.
  rewrite lnot_mask_round by lia.
  rewrite Z.mod_eq by lia. replace (x + (2 ^ k - 1)) with (x + 2 ^ k - 1) by lia.
  lia.
Qed.
