(* ===== verification/Vram.v ===== *)
(** * The VRAM pool of the hypervisor ([vram.h], [vram.cc])

    A K&R allocator over the device memory that A3 keeps for itself. The
    free list is a list of blocks, each a start address and a number of pages;
    [more] extends the pool by a multiple of 32 pages. The theorems show that
    the allocator never hands out memory twice, never loses any, stops only
    when the pool is exhausted, and what [free] does about neighbours. *)

From Stdlib Require Import Sorted.
From S2P Require Import Prelude Config.

(** ** Data *)

(** [class vram_t] *)
Record vram_t : Type := Vram { address_ : Z; units_ : Z }.

(** [class vram_manager_t] *)
Record vram_manager_t : Type := VramManager {
  mem_ : Z;
  size_ : Z;
  cursor_ : Z;
  free_list_ : list vram_t
}.

#[export] Instance vram_t_eq_dec : EqDecision vram_t.
Proof. solve_decision. Defined.

(** The constructor [vram_manager_t(mem, size)]. *)
Definition vram_manager_new (mem size : Z) : vram_manager_t :=
  VramManager mem size 0 [].

Definition set_free_list (l : list vram_t) (m : vram_manager_t) : vram_manager_t :=
  VramManager (mem_ m) (size_ m) (cursor_ m) l.

Definition set_cursor (c : Z) (m : vram_manager_t) : vram_manager_t :=
  VramManager (mem_ m) (size_ m) c (free_list_ m).

Definition max_pages (m : vram_manager_t) : Z := size_ m / kPAGE_SIZE.

(** The end address of a block, in 64-bit arithmetic. *)
Definition vram_end (b : vram_t) : Z := u64 (address_ b + units_ b * kPAGE_SIZE).

(** ** Operations *)

(** [std::equal_range] by address: the blocks below, at, and above [addr].
    On a list sorted by address (see [vram_inv]) this is the binary search of
    the source. *)
Fixpoint equal_range (addr : Z) (l : list vram_t)
  : list vram_t * list vram_t * list vram_t :=
  match l with
  | [] => ([], [], [])
  | b :: l' =>
      let '(lo, eq, hi) := equal_range addr l' in
      if address_ b <? addr then (b :: lo, eq, hi)
      else if address_ b =? addr then (lo, b :: eq, hi)
      else (lo, eq, b :: hi)
  end.

(** [vram_manager_t::free]. [prev] is [range.first], the first block whose
    address is not below the entry's: the first of [eq], or else [next] itself.
    When [next] has just been joined and deleted, and [eq] is empty, [prev] is
    an iterator to a deleted block. *)
Definition vram_free (entry : vram_t) : M vram_manager_t unit :=
  let! l := gets free_list_ in
  let '(lo, eq, hi) := equal_range (address_ entry) l in
  let joined := match hi with
                | next :: _ => vram_end entry =? address_ next
                | [] => false
                end in
  let entry' := match hi with
                | next :: _ =>
                    if joined then Vram (address_ entry) (u64 (units_ entry + units_ next))
                    else entry
                | [] => entry
                end in
  let hi' := if joined then tail hi else hi in
  match eq, hi with
  | prev :: eq', _ =>
      if vram_end prev =? address_ entry' then
        modify (set_free_list (lo ++ Vram (address_ prev) (u64 (units_ prev + units_ entry'))
                                  :: eq' ++ hi'))
      else modify (set_free_list (lo ++ eq ++ entry' :: hi'))
  | [], [] => modify (set_free_list (lo ++ [entry']))
  | [], prev :: hi1 =>
      if joined then fail UseAfterFree
      else if vram_end prev =? address_ entry' then
        modify (set_free_list (lo ++ Vram (address_ prev) (u64 (units_ prev + units_ entry'))
                                  :: hi1))
      else modify (set_free_list (lo ++ entry' :: hi))
  end.

(** [vram_manager_t::more] *)
Definition vram_more (n : Z) : M vram_manager_t bool :=
  let pages := u64 (u64 (n + 32 - 1) / 32 * 32) in
  let! m := gets id in
  let address := u64 (mem_ m + u64 (cursor_ m * kPAGE_SIZE)) in
  modify (set_cursor (u64 (cursor_ m + pages))) ;;;
  let! m := gets id in
  if max_pages m <? cursor_ m then ret false
  else vram_free (Vram address pages) ;;; ret true.

(** The scan of [vram_manager_t::malloc]: the first block that is large enough,
    whole or split at its end. *)
Fixpoint take_fit (n : Z) (l : list vram_t) : option (vram_t * list vram_t) :=
  match l with
  | [] => None
  | entry :: l' =>
      if n <=? units_ entry then
        if units_ entry =? n then Some (entry, l')
        else
          let rest := units_ entry - n in
          Some (Vram (u64 (address_ entry + rest * kPAGE_SIZE)) n,
                Vram (address_ entry) rest :: l')
      else
        match take_fit n l' with
        | Some (b, l'') => Some (b, entry :: l'')
        | None => None
        end
  end.

(** The [do ... while (true)] of [vram_manager_t::malloc], unrolled. *)
Fixpoint malloc_loop (fuel : nat) (n : Z) : M vram_manager_t vram_t :=
  match fuel with
  | O => fail OutOfFuel
  | S fuel' =>
      let! l := gets free_list_ in
      match take_fit n l with
      | Some (b, l') => modify (set_free_list l') ;;; ret b
      | None =>
          let! ok := vram_more n in
          if (ok : bool) then malloc_loop fuel' n else fail Abort
      end
  end.

(** [vram_manager_t::malloc]: two rounds are enough. *)
Definition vram_malloc (n : Z) : M vram_manager_t vram_t := malloc_loop 2 n.

(** ** The ownership invariant *)

(** Byte [a] belongs to block [b]. *)
Definition covers (b : vram_t) (a : Z) : bool :=
  (address_ b <=? a) && (a <? address_ b + units_ b * kPAGE_SIZE).

(** In how many blocks of [l] byte [a] is. *)
Definition cov (l : list vram_t) (a : Z) : Z :=
  foldr (fun b acc => Z.b2z (covers b a) + acc) 0 l.

Definition below (b b' : vram_t) : Prop := address_ b < address_ b'.

(** A block of the pool: page-aligned relative to the pool, not empty, inside
    the part of the pool that [more] has handed out so far. *)
Definition block_ok (m : vram_manager_t) (b : vram_t) : Prop :=
  0 < units_ b /\ (address_ b - mem_ m) mod kPAGE_SIZE = 0 /\
  mem_ m <= address_ b /\
  address_ b + units_ b * kPAGE_SIZE <= mem_ m + cursor_ m * kPAGE_SIZE.

(** Every byte handed out by [more] is in exactly one block, free or
    allocated, and no block has any other byte. [alloc] lists the blocks that
    [malloc] returned and that have not been freed. *)
Record vram_inv (m : vram_manager_t) (alloc : list vram_t) : Prop := {
  inv_range : 0 <= mem_ m /\ 0 <= size_ m /\ mem_ m + size_ m < 2 ^ 64;
  inv_cursor : 0 <= cursor_ m <= max_pages m;
  inv_blocks : Forall (block_ok m) (free_list_ m ++ alloc);
  inv_sorted : StronglySorted below (free_list_ m);
  inv_cover : forall a, cov (free_list_ m ++ alloc) a =
    Z.b2z ((mem_ m <=? a) && (a <? mem_ m + cursor_ m * kPAGE_SIZE))
}.

Lemma cov_cons b l a : cov (b :: l) a = Z.b2z (covers b a) + cov l a.
Proof. done. Qed.
#[local] Arguments cov : simpl never.

Lemma cov_app l1 l2 a : cov (l1 ++ l2) a = cov l1 a + cov l2 a.
Proof. induction l1; simpl; rewrite ?cov_cons; [done|lia]. Qed.

Lemma cov_nonneg l a : 0 <= cov l a.
Proof. induction l; [done|]. rewrite cov_cons. destruct (covers _ _); simpl; lia. Qed.

Lemma cov_in b l a : b ∈ l -> covers b a = true -> 1 <= cov l a.
Proof.
  intros Hin Hc. induction l as [|b' l IH]; [by apply not_elem_of_nil in Hin|].
  rewrite cov_cons. apply elem_of_cons in Hin as [<-|Hin].
  - rewrite Hc. pose proof (cov_nonneg l a). simpl. lia.
  - specialize (IH Hin). destruct (covers b' a); simpl; lia.
Qed.

(** The order of the blocks is irrelevant to ownership. *)
#[export] Instance cov_perm : Proper ((≡ₚ) ==> eq ==> eq) cov.
Proof. intros l1 l2 Hl a ? <-. induction Hl; rewrite ?cov_cons; lia. Qed.

Lemma covers_start b : 0 < units_ b -> covers b (address_ b) = true.
Proof. unfold covers. consts. lia. Qed.

(** A block starts where no other block of the pool starts. *)
Lemma inv_no_equal m alloc b :
  vram_inv m (b :: alloc) -> Forall (fun b' => address_ b' <> address_ b) (free_list_ m).
Proof.
  intros [_ _ Hb _ Hc]. apply Forall_forall. intros b' Hin E.
  rewrite Forall_forall in Hb.
  assert (0 < units_ b /\ 0 < units_ b') as [Hu Hu'] by (split; eapply Hb; set_solver).
  specialize (Hc (address_ b)). rewrite cov_app, cov_cons in Hc.
  rewrite (covers_start b Hu) in Hc.
  pose proof (covers_start b' Hu') as Hs. rewrite E in Hs.
  pose proof (cov_in b' (free_list_ m) _ Hin Hs).
  pose proof (cov_nonneg alloc (address_ b)).
  destruct (_ && _)%bool in Hc; simpl in Hc; lia.
Qed.

(** ** [equal_range] on a sorted free list *)

Lemma equal_range_sorted addr l :
  StronglySorted below l -> Forall (fun b => address_ b <> addr) l ->
  exists lo hi, equal_range addr l = (lo, [], hi) /\ l = lo ++ hi /\
    Forall (fun b => address_ b < addr) lo /\ Forall (fun b => addr < address_ b) hi.
Proof.
  induction 1 as [|b l Hs IH Hb]; intros Hne; simpl; [by eexists [], []|].
  inversion_clear Hne as [|? ? Hn Hne'].
  destruct (IH Hne') as (lo & hi & -> & -> & Hlo & Hhi).
  destruct (Z.ltb_spec (address_ b) addr).
  - eexists (b :: lo), hi. repeat split; auto.
  - destruct (Z.eqb_spec (address_ b) addr); [done|].
    assert (lo = []) as ->.
    { destruct lo as [|c lo]; [done|]. inversion_clear Hlo.
      inversion_clear Hb. unfold below in *. lia. }
    eexists [], (b :: hi). repeat split; auto. constructor; [lia|done].
Qed.

Lemma sorted_app l1 l2 :
  StronglySorted below l1 -> StronglySorted below l2 ->
  (forall x y, x ∈ l1 -> y ∈ l2 -> below x y) -> StronglySorted below (l1 ++ l2).
Proof.
  induction 1 as [|b l Hs IH Hb]; intros H2 H12; simpl; [done|].
  constructor; [apply IH; set_solver|].
  apply Forall_app; split; [done|]. apply Forall_forall. set_solver.
Qed.

Lemma sorted_app_inv l1 l2 :
  StronglySorted below (l1 ++ l2) -> StronglySorted below l1 /\ StronglySorted below l2.
Proof.
  induction l1 as [|b l1 IH]; simpl; [split; [constructor|done]|].
  inversion_clear 1 as [|? ? Hs Hb]. apply Forall_app in Hb as [? _].
  destruct (IH Hs). split; [by constructor|done].
Qed.

Lemma sorted_insert lo b hi :
  StronglySorted below (lo ++ hi) ->
  Forall (fun c => address_ c < address_ b) lo ->
  Forall (fun c => address_ b < address_ c) hi ->
  StronglySorted below (lo ++ b :: hi).
Proof.
  intros Hs Hlo Hhi. rewrite Forall_forall in Hlo, Hhi.
  destruct (sorted_app_inv _ _ Hs) as [H1 H2].
  apply sorted_app; [done|constructor; [done|by apply Forall_forall]|].
  intros x y Hx [->|Hy]%elem_of_cons; unfold below; [auto|].
  specialize (Hlo x Hx). specialize (Hhi y Hy). simpl in *. lia.
Qed.

(** ** What [free] does

    From a state that owns [b], [free b] either inserts [b] at its place in the
    sorted list, unmerged, or dereferences a deleted block: the latter exactly
    when a free block starts where [b] ends. *)
Lemma vram_free_cases m alloc b :
  vram_inv m (b :: alloc) ->
  exists lo hi, free_list_ m = lo ++ hi /\
    StronglySorted below (lo ++ b :: hi) /\
    vram_free b m =
      if existsb (fun c => address_ c =? address_ b + units_ b * kPAGE_SIZE) (free_list_ m)
      then Err UseAfterFree
      else Ok (tt, set_free_list (lo ++ b :: hi) m).
Proof.
  intros Hi. pose proof (inv_no_equal _ _ _ Hi) as Hne. destruct Hi as [Hr Hcur Hb Hs Hc].
  destruct (equal_range_sorted _ _ Hs Hne) as (lo & hi & E & El & Hlo & Hhi).
  exists lo, hi. rewrite El in Hs. split; [done|].
  split; [by apply sorted_insert|].
  assert (Forall (fun c => block_ok m c) (free_list_ m) /\ block_ok m b) as [Hf Hbb].
  { apply Forall_app in Hb as [? Hb']. by inversion Hb'. }
  rewrite El in *. apply Forall_app in Hf as [Hflo Hfhi].
  assert (forall c, block_ok m c -> vram_end c = address_ c + units_ c * kPAGE_SIZE /\
            address_ c + units_ c * kPAGE_SIZE <= mem_ m + size_ m) as Hend.
  { intros c (? & ? & ? & ?). unfold vram_end, max_pages in *. consts.
    assert (cursor_ m * 4096 <= size_ m) by zlia. rewrite u64_small by lia. lia. }
  assert (0 < units_ b) as Hub by apply Hbb.
  unfold vram_free, gets, bind. rewrite El, E.
  rewrite (proj1 (Hend b Hbb)), existsb_app.
  replace (existsb _ lo) with false; last first.
  { symmetry. apply not_true_iff_false. rewrite existsb_exists.
    intros (c & Hin%list_elem_of_In & Hc1). rewrite Forall_forall in Hlo.
    specialize (Hlo c Hin). simpl in Hlo. consts. lia. }
  simpl. destruct hi as [|next hi']; simpl; [done|].
  inversion_clear Hhi as [|? ? Hn Hhi'].
  inversion_clear Hfhi as [|? ? Hok _].
  destruct (Z.eqb_spec (address_ b + units_ b * kPAGE_SIZE) (address_ next)) as [Hj|Hj].
  - rewrite (proj2 (Z.eqb_eq _ _) (eq_sym Hj)). done.
  - rewrite (proj2 (Z.eqb_neq (address_ next) _)) by congruence.
    rewrite (proj1 (Hend next Hok)).
    assert (0 < units_ next) by apply Hok.
    rewrite (proj2 (Z.eqb_neq _ (address_ b))) by (consts; lia).
    simpl. replace (existsb _ hi') with false; [done|].
    symmetry. apply not_true_iff_false. rewrite existsb_exists.
    intros (c & Hin%list_elem_of_In & Hc1%Z.eqb_eq).
    (* a block above [next] that starts at the end of [b] would overlap [next] *)
    assert (address_ next < address_ c).
    { apply sorted_app_inv in Hs as [_ Hs]. inversion_clear Hs as [|? ? _ Hall].
      rewrite Forall_forall in Hall. by apply Hall. }
    specialize (Hc (address_ next)).
    rewrite cov_app, !cov_cons, cov_app, cov_cons in Hc.
    rewrite (covers_start next) in Hc by done.
    replace (covers b (address_ next)) with true in Hc by (unfold covers; lia).
    pose proof (cov_nonneg lo (address_ next)). pose proof (cov_nonneg hi' (address_ next)).
    pose proof (cov_nonneg alloc (address_ next)).
    destruct (_ && _)%bool in Hc; simpl in Hc; lia.
Qed.

Lemma vram_inv_insert m alloc b lo hi :
  vram_inv m (b :: alloc) -> free_list_ m = lo ++ hi ->
  StronglySorted below (lo ++ b :: hi) ->
  vram_inv (set_free_list (lo ++ b :: hi) m) alloc.
Proof.
  intros [Hr Hcur Hb Hs Hc] El Hs'.
  assert ((lo ++ b :: hi) ++ alloc ≡ₚ free_list_ m ++ b :: alloc) as P.
  { rewrite El, <- !app_assoc. simpl. by rewrite !Permutation_middle. }
  constructor; simpl; try done.
  - rewrite P. done.
  - intros a. rewrite P. apply Hc.
Qed.

(** ** The scan of [malloc] *)

Lemma covers_split a0 k n a :
  0 <= k -> 0 <= n ->
  Z.b2z (covers (Vram a0 k) a) + Z.b2z (covers (Vram (a0 + k * kPAGE_SIZE) n) a)
  = Z.b2z (covers (Vram a0 (k + n)) a).
Proof.
  intros. unfold covers; simpl. consts.
  destruct (Z.leb_spec a0 a), (Z.ltb_spec a (a0 + k * 4096)),
    (Z.leb_spec (a0 + k * 4096) a), (Z.ltb_spec a (a0 + k * 4096 + n * 4096)),
    (Z.ltb_spec a (a0 + (k + n) * 4096)); simpl; lia.
Qed.

Lemma take_fit_spec m n l b l' :
  0 < n -> 0 <= mem_ m -> mem_ m + cursor_ m * kPAGE_SIZE < 2 ^ 64 ->
  Forall (block_ok m) l -> take_fit n l = Some (b, l') ->
  units_ b = n /\ Forall (block_ok m) (b :: l') /\
  (forall a, cov (b :: l') a = cov l a) /\
  (forall x, Forall (below x) l -> Forall (below x) l') /\
  (StronglySorted below l -> StronglySorted below l').
Proof.
  intros Hn Hm Hend. revert b l'.
  induction l as [|e l IH]; intros b l' Hok E; simpl in E; [done|].
  inversion_clear Hok as [|? ? He Hl].
  destruct (Z.leb_spec n (units_ e)); last first.
  - destruct (take_fit n l) as [[b1 l1]|]; [|done]. injection E as <- <-.
    destruct (IH _ _ Hl eq_refl) as (Hu & Hf & Hc & Hb & Hs).
    inversion_clear Hf. split; [done|]. split; [by rewrite !Forall_cons|]. split.
    { intros a. specialize (Hc a). rewrite !cov_cons in *. lia. }
    split.
    { intros x Hx. inversion_clear Hx. constructor; auto. }
    intros Hso. inversion_clear Hso. constructor; auto.
  - destruct (Z.eqb_spec (units_ e) n); injection E as <- <-.
    { repeat split; try done.
      - by constructor.
      - intros x Hx. by inversion_clear Hx.
      - intros Hx. by inversion_clear Hx. }
    destruct He as (Hu0 & Hal & Hlo & Hhi). destruct e as [ea eu]; simpl in *.
    rewrite u64_small by (consts; lia).
    split; [done|]. split.
    { rewrite !Forall_cons. unfold block_ok; simpl. consts.
      split; [zlia|]. split; [zlia|done]. }
    split.
    { intros a. rewrite !cov_cons.
      pose proof (covers_split ea (eu - n) n a ltac:(lia) ltac:(lia)) as Hsp.
      replace (eu - n + n) with eu in Hsp by lia. lia. }
    split.
    { intros x Hx. inversion_clear Hx. by constructor. }
    intros Hso. inversion_clear Hso. by constructor.
Qed.

Lemma take_fit_exists n l :
  Exists (fun b => n <= units_ b) l -> is_Some (take_fit n l).
Proof.
  induction 1 as [b l Hb|b l Hl [[b1 l1] IH]]; simpl.
  - rewrite (proj2 (Z.leb_le _ _) Hb). by destruct (_ =? _).
  - rewrite IH. destruct (_ <=? _); [by destruct (_ =? _)|done].
Qed.

(** ** Extending the pool *)

(** [n] pages rounded up to a multiple of 32, as [more] does. *)
Definition round32 (n : Z) : Z := (n + 31) / 32 * 32.

Lemma block_ok_cursor m c b :
  cursor_ m <= c -> block_ok m b -> block_ok (set_cursor c m) b.
Proof. unfold block_ok; simpl. consts. intros ? (? & ? & ? & ?). lia. Qed.

Lemma vram_inv_extend m alloc pages :
  vram_inv m alloc -> 0 < pages -> cursor_ m + pages <= max_pages m ->
  vram_inv (set_cursor (cursor_ m + pages) m)
           (Vram (mem_ m + cursor_ m * kPAGE_SIZE) pages :: alloc).
Proof.
  intros [Hr Hcur Hb Hs Hc] Hp Hm. constructor; simpl; try done.
  - unfold max_pages in *; simpl in *. lia.
  - rewrite Forall_app, Forall_cons in *. destruct Hb as [H1 H2].
    split; [|split].
    + eapply Forall_impl; [exact H1|]. intros. by apply block_ok_cursor; [lia|].
    + unfold block_ok; simpl. consts. zlia.
    + eapply Forall_impl; [exact H2|]. intros. by apply block_ok_cursor; [lia|].
  - intros a. rewrite cov_app, cov_cons. specialize (Hc a). rewrite cov_app in Hc.
    unfold covers; simpl. consts.
    destruct (Z.leb_spec (mem_ m) a), (Z.ltb_spec a (mem_ m + cursor_ m * 4096)),
      (Z.leb_spec (mem_ m + cursor_ m * 4096) a),
      (Z.ltb_spec a (mem_ m + cursor_ m * 4096 + pages * 4096)),
      (Z.ltb_spec a (mem_ m + (cursor_ m + pages) * 4096)); simpl in *; lia.
Qed.

Lemma vram_more_spec m alloc n :
  vram_inv m alloc -> 0 < n < 2 ^ 32 ->
  if max_pages m <? cursor_ m + round32 n
  then exists m', vram_more n m = Ok (false, m')
  else exists m', vram_more n m = Ok (true, m') /\ vram_inv m' alloc /\
         Exists (fun b => n <= units_ b) (free_list_ m').
Proof.
  intros Hi Hn.
  assert (n <= round32 n < n + 32) as Hr32 by (unfold round32; zlia).
  pose proof (inv_range _ _ Hi) as Hr. pose proof (inv_cursor _ _ Hi) as Hc.
  assert (max_pages m < 2 ^ 52) as Hmax by (unfold max_pages; consts; zlia).
  unfold vram_more, bind, gets, modify, id; simpl.
  replace (u64 (u64 (n + 32 - 1) / 32 * 32)) with (round32 n)
    by (unfold round32; rewrite (u64_small (n + 32 - 1)), u64_small by zlia; f_equal; f_equal; lia).
  rewrite (u64_small (cursor_ m + round32 n)) by lia.
  assert (cursor_ m * kPAGE_SIZE <= size_ m) as Hcs by (unfold max_pages in Hc; consts; zlia).
  rewrite (u64_small (cursor_ m * _)) by (consts; lia).
  rewrite (u64_small (mem_ m + _)) by (consts; lia).
  change (max_pages (set_cursor _ m)) with (max_pages m).
  destruct (Z.ltb_spec (max_pages m) (cursor_ m + round32 n)) as [Hlt|Hge]; [by eauto|].
  pose proof (vram_inv_extend m alloc (round32 n) Hi ltac:(lia) Hge) as Hi'.
  destruct (vram_free_cases _ _ _ Hi') as (lo & hi & El & Hs & ->).
  replace (existsb _ _) with false; last first.
  { symmetry. apply not_true_iff_false. rewrite existsb_exists.
    intros (c & Hin%list_elem_of_In & Hc1%Z.eqb_eq). simpl in *.
    pose proof (inv_blocks _ _ Hi) as Hb. rewrite Forall_forall in Hb.
    destruct (Hb c) as (? & ? & ? & ?); [set_solver|]. consts. lia. }
  eexists. split; [done|]. split; [by apply vram_inv_insert|].
  simpl. apply Exists_app. right. left. simpl. lia.
Qed.

(** ** The allocator's contract *)

Lemma malloc_contract m alloc n :
  vram_inv m alloc -> 0 < n < 2 ^ 32 ->
  match vram_malloc n m with
  | Ok (b, m') => units_ b = n /\ block_ok m' b /\ vram_inv m' (b :: alloc)
  | Err e => e = Abort /\ take_fit n (free_list_ m) = None /\
             max_pages m < cursor_ m + round32 n
  end.
Proof.
  intros Hi Hn.
  assert (forall m b l', vram_inv m alloc -> take_fit n (free_list_ m) = Some (b, l') ->
    units_ b = n /\ block_ok (set_free_list l' m) b /\
    vram_inv (set_free_list l' m) (b :: alloc)) as Htake.
  { clear m Hi. intros m b l' [Hr Hcur Hb Hs Hc] E.
    apply Forall_app in Hb as [Hb1 Hb2].
    destruct (take_fit_spec m n _ b l' ltac:(lia) ltac:(lia)
      ltac:(unfold max_pages in Hcur; consts; zlia) Hb1 E) as (Hu & Hf & Hcv & _ & Hso).
    assert (block_ok m b /\ Forall (block_ok m) l') as [Hbb Hbl] by by inversion Hf.
    split; [done|]. split; [done|].
    constructor; simpl; try done; [| by apply Hso |].
    - rewrite Forall_app, Forall_cons. done.
    - intros a. rewrite <- Permutation_middle, app_comm_cons, cov_app, Hcv, <- cov_app.
      apply Hc. }
  unfold vram_malloc. cbn [malloc_loop]. unfold bind at 1, gets at 1.
  destruct (take_fit n (free_list_ m)) as [[b l']|] eqn:E.
  { simpl. by apply Htake. }
  pose proof (vram_more_spec m alloc n Hi Hn) as Hmore. unfold bind at 1.
  destruct (Z.ltb_spec (max_pages m) (cursor_ m + round32 n)).
  { destruct Hmore as [m' ->]. done. }
  destruct Hmore as (m' & -> & Hi' & Hex).
  destruct (take_fit_exists _ _ Hex) as [[b l'] E'].
  unfold bind at 1, gets at 1. rewrite E'. simpl. by apply Htake.
Qed.

(** The pool's base and size do not change. *)
Definition same_pool (m m' : vram_manager_t) : Prop := mem_ m' = mem_ m /\ size_ m' = size_ m.

Lemma vram_free_pool b m :
  wp any_error (vram_free b) (fun _ m' => same_pool m m') m.
Proof.
  unfold vram_free. apply wp_bind, wp_gets.
  destruct (equal_range _ _) as [[lo eq] hi].
  repeat case_match; try done; by apply wp_modify.
Qed.

Lemma malloc_loop_pool fuel n m m0 :
  same_pool m0 m -> wp any_error (malloc_loop fuel n) (fun _ m' => same_pool m0 m') m.
Proof.
  revert m. induction fuel as [|fuel IH]; intros m H0; [done|]. cbn [malloc_loop].
  apply wp_bind, wp_gets. destruct (take_fit n (free_list_ m)) as [[b l']|].
  { apply wp_bind, wp_modify, wp_ret. done. }
  apply wp_bind. apply (wp_mono _ _ (fun _ m' => same_pool m0 m')).
  - unfold vram_more. apply wp_bind, wp_gets, wp_bind, wp_modify, wp_bind, wp_gets.
    case_match; [by apply wp_ret|]. apply wp_bind. eapply wp_mono; [apply vram_free_pool|].
    intros [] m' [H1 H2]. apply wp_ret. destruct H0. split; simpl in *; congruence.
  - intros [] m' H'; [by apply IH|done].
Qed.

(** The contract as a rule: the pool keeps its place and gains a block. *)
Lemma wp_vram_malloc m alloc n :
  vram_inv m alloc -> 0 < n < 2 ^ 32 ->
  wp (eq Abort) (vram_malloc n)
    (fun b m' => units_ b = n /\ block_ok m' b /\ vram_inv m' (b :: alloc) /\ same_pool m m') m.
Proof.
  intros Hi Hn. pose proof (malloc_contract m alloc n Hi Hn) as H.
  pose proof (malloc_loop_pool 2 n m m (conj eq_refl eq_refl)) as Hp.
  fold (vram_malloc n) in Hp. unfold wp in *.
  destruct (vram_malloc n m) as [[b m']|e]; [|by destruct H as [-> _]].
  by destruct H as (? & ? & ?).
Qed.

(** C10: [malloc(n)] from a pool that owns [alloc] either returns a block of
    exactly [n] pages that lies in the pool and overlaps no block handed out
    before and no free block (the ownership invariant holds with the block added),
    or aborts, and it aborts only when no free block is large enough and the
    pool cannot be extended. It always returns or aborts. *)
Theorem malloc_spec m alloc n :
  vram_inv m alloc -> 0 < n < 2 ^ 32 ->
  match vram_malloc n m with
  | Ok (b, m') => units_ b = n /\ block_ok m' b /\ vram_inv m' (b :: alloc)
  | Err e => e = Abort /\ take_fit n (free_list_ m) = None /\
             max_pages m < cursor_ m + round32 n
  end.
Proof. apply malloc_contract. Qed.

(** C14: [free(b)] of an allocated block: when no free block starts at the end
    of [b], it puts [b] back, unmerged, and the ownership invariant holds without
    [b] in the allocated blocks; when a free block does start there, the branch
    that joins the two leaves [prev] at the deleted neighbour and reads it. So
    on no defined run are two blocks coalesced. *)
Theorem free_spec m alloc b :
  vram_inv m (b :: alloc) ->
  if existsb (fun c => address_ c =? address_ b + units_ b * kPAGE_SIZE) (free_list_ m)
  then vram_free b m = Err UseAfterFree
  else exists m', vram_free b m = Ok (tt, m') /\ vram_inv m' alloc /\
         free_list_ m' ≡ₚ b :: free_list_ m /\ cursor_ m' = cursor_ m.
Proof.
  intros Hi. destruct (vram_free_cases _ _ _ Hi) as (lo & hi & El & Hs & ->).
  destruct (existsb _ _); [done|].
  eexists. split; [done|]. split; [by apply vram_inv_insert|]. split; [|done].
  simpl. rewrite El. symmetry. apply Permutation_middle.
Qed.

(** ** Witnesses *)

(** The pool as [device_t::initialize] creates it. *)
Definition pool0 : vram_manager_t :=
  vram_manager_new A3_HYPERVISOR_DEVICE_MEM_BASE A3_HYPERVISOR_DEVICE_MEM_SIZE.

Lemma pool0_inv : vram_inv pool0 [].
Proof.
  constructor; [vm_compute; intuition congruence|vm_compute; intuition congruence
    |by constructor|by constructor|].
  intros a. unfold pool0; simpl. consts.
  by destruct (Z.leb_spec 4294967296 a), (Z.ltb_spec a (4294967296 + 0 * 4096)); simpl; try lia.
Qed.

Definition pool1 : vram_manager_t :=
  VramManager (mem_ pool0) (size_ pool0) 32 [Vram 0x100000000 29].
Definition block1 : vram_t := Vram 0x10001D000 3.

Lemma malloc_spec_witness :
  vram_malloc 3 pool0 = Ok (block1, pool1) /\ vram_inv pool1 [block1].
Proof.
  split; [reflexivity|].
  pose proof (malloc_spec pool0 [] 3 pool0_inv ltac:(lia)) as H.
  change (vram_malloc 3 pool0) with (Ok (block1, pool1)) in H.
  destruct H as (_ & _ & H). exact H.
Defined.

Lemma pool1_inv : vram_inv pool1 [block1].
Proof.
  constructor.
  - vm_compute; intuition congruence.
  - vm_compute; intuition congruence.
  - repeat constructor; vm_compute; intuition congruence.
  - repeat constructor.
  - intros a. unfold cov, covers, pool1, block1; simpl. consts.
    repeat match goal with |- context [?x <=? ?y] => destruct (Z.leb_spec x y)
      | |- context [?x <? ?y] => destruct (Z.ltb_spec x y) end; simpl; lia.
Qed.

Lemma free_spec_witness :
  exists m', vram_free block1 pool1 = Ok (tt, m') /\ vram_inv m' [].
Proof.
  pose proof (free_spec pool1 [] block1 pool1_inv) as H.
  change (existsb _ (free_list_ pool1)) with false in H. cbv iota in H.
  destruct H as (m' & H1 & H2 & _). exists m'. split; assumption.
Defined.
