(* ===== verification/PageTable.v ===== *)
(** * GPU page-table formats and address translation ([page_table.h],
      [context.h], [context.cc])

    Page directory and page table entries as pairs of 32-bit words with their
    bit-fields, the static partition of the video memory between the virtual
    machines, and [context::guest_to_host], the rewriting of a guest's page
    table entry into a host one on which the isolation of the machines rests. *)

From S2P Require Import Prelude Config.

(** ** [struct page_entry] *)

Record page_entry : Type := PageEntry { pe_word0 : Z; pe_word1 : Z }.

#[export] Instance page_entry_eq_dec : EqDecision page_entry.
Proof. solve_decision. Defined.

Definition TARGET_TYPE_VRAM : Z := 0.
Definition TARGET_TYPE_SYSRAM : Z := 2.
Definition TARGET_TYPE_SYSRAM_NO_SNOOP : Z := 3.

Definition pe_present (e : page_entry) : bool := Z.testbit (pe_word0 e) 0.
Definition pe_read_only (e : page_entry) : Z := get_bits 2 1 (pe_word0 e).
Definition pe_address (e : page_entry) : Z := get_bits 4 28 (pe_word0 e).
Definition pe_target (e : page_entry) : Z := get_bits 1 2 (pe_word1 e).

Definition pe_raw (e : page_entry) : Z := Z.lor (pe_word0 e) (Z.shiftl (pe_word1 e) 32).
Definition pe_of_raw (raw : Z) : page_entry := PageEntry (u32 raw) (u32 (Z.shiftr raw 32)).

(** The zero-initialised entry. *)
Definition pe_zero : page_entry := PageEntry 0 0.

Definition set_pe_address (a : Z) (e : page_entry) : page_entry :=
  PageEntry (set_bits 4 28 a (pe_word0 e)) (pe_word1 e).
Definition clear_pe_present (e : page_entry) : page_entry :=
  PageEntry (set_bits 0 1 0 (pe_word0 e)) (pe_word1 e).

(** Both words have 32 bits. *)
Definition pe_wf (e : page_entry) : Prop :=
  0 <= pe_word0 e < 2 ^ 32 /\ 0 <= pe_word1 e < 2 ^ 32.

(** ** [struct page_directory] *)

Record page_directory : Type := PageDirectory { pd_word0 : Z; pd_word1 : Z }.

Definition SIZE_TYPE_128M : Z := 0.
Definition SIZE_TYPE_64M : Z := 1.
Definition SIZE_TYPE_32M : Z := 2.
Definition SIZE_TYPE_16M : Z := 3.

Definition large_page_table_present (d : page_directory) : bool := Z.testbit (pd_word0 d) 0.
Definition size_type (d : page_directory) : Z := get_bits 2 2 (pd_word0 d).
Definition large_page_table_address (d : page_directory) : Z := get_bits 4 28 (pd_word0 d).
Definition small_page_table_present (d : page_directory) : bool := Z.testbit (pd_word1 d) 0.
Definition small_page_table_address (d : page_directory) : Z := get_bits 4 28 (pd_word1 d).

Definition set_large_page_table_address (a : Z) (d : page_directory) : page_directory :=
  PageDirectory (set_bits 4 28 a (pd_word0 d)) (pd_word1 d).
Definition set_small_page_table_address (a : Z) (d : page_directory) : page_directory :=
  PageDirectory (pd_word0 d) (set_bits 4 28 a (pd_word1 d)).

(** [page_directory::large_size_count] *)
Definition large_size_count (d : page_directory) : Z :=
  let type := size_type d in
  if type =? SIZE_TYPE_128M then kLARGE_PAGE_COUNT
  else if type =? SIZE_TYPE_64M then kLARGE_PAGE_COUNT / 2
  else if type =? SIZE_TYPE_32M then kLARGE_PAGE_COUNT / 4
  else if type =? SIZE_TYPE_16M then kLARGE_PAGE_COUNT / 8
  else 0.

(** ** The static partition of the video memory ([context.h]) *)

Definition vram_size : Z := A3_MEMORY_SIZE.
Definition get_address_shift (id : Z) : Z := u64 (id * vram_size).
Definition get_phys_address (id virt : Z) : Z := u64 (virt + get_address_shift id).
Definition get_virt_address (id phys : Z) : Z := u64 (phys - get_address_shift id).
Definition get_phys_channel_id (id virt : Z) : Z := u32 (virt + id * A3_DOMAIN_CHANNELS).
Definition get_virt_channel_id (id phys : Z) : Z := u32 (phys - id * A3_DOMAIN_CHANNELS).
Definition in_memory_range (id phys : Z) : bool := get_virt_address id phys <? vram_size.
Definition in_memory_size (size : Z) : bool := size <=? vram_size.

(** [context::guest_to_host]; [gfn_to_mfn] is the Xen query behind
    [a3_xen_gfn_to_mfn] for the domain of this context. *)
Definition guest_to_host (id : Z) (gfn_to_mfn : Z -> Z) (entry : page_entry) : page_entry :=
  if pe_present entry then
    if pe_target entry =? TARGET_TYPE_VRAM then
      let g_field := pe_address entry in
      let g_address := Z.shiftl g_field 12 in
      let h_address := get_phys_address id g_address in
      let h_field := Z.shiftr h_address 12 in
      let result := set_pe_address (u32 h_field) entry in
      if negb ((get_address_shift id <=? h_address) &&
               (h_address <? u64 (get_address_shift id + vram_size)))
      then clear_pe_present result
      else result
    else if (pe_target entry =? TARGET_TYPE_SYSRAM) ||
            (pe_target entry =? TARGET_TYPE_SYSRAM_NO_SNOOP) then
      let gfn := pe_address entry in
      let mfn := u32 (gfn_to_mfn gfn) in
      set_pe_address mfn entry
    else entry
  else entry.

(** ** Facts about the formats *)

Lemma pe_address_range e : 0 <= pe_address e < 2 ^ 28.
Proof. apply get_bits_range. lia. Qed.

Lemma pe_target_range e : 0 <= pe_target e < 4.
Proof. change 4 with (2 ^ 2). apply get_bits_range. lia. Qed.

Lemma pe_present_get_bits e : pe_present e = Z.odd (get_bits 0 1 (pe_word0 e)).
Proof.
  unfold pe_present. rewrite <- Z.bit0_odd, testbit_get_bits by lia. done.
Qed.

Lemma pe_address_set a e : pe_address (set_pe_address a e) = a mod 2 ^ 28.
Proof. apply get_set_bits_same; lia. Qed.

Lemma pe_present_set_address a e : pe_present (set_pe_address a e) = pe_present e.
Proof. unfold pe_present; simpl. by rewrite testbit_set_bits by lia. Qed.

Lemma pe_present_clear e : pe_present (clear_pe_present e) = false.
Proof. unfold pe_present; simpl. by rewrite testbit_set_bits by lia. Qed.

Lemma pe_target_set_address a e : pe_target (set_pe_address a e) = pe_target e.
Proof. done. Qed.

Lemma pe_target_clear e : pe_target (clear_pe_present e) = pe_target e.
Proof. done. Qed.

Lemma pe_wf_set_address a e : pe_wf e -> pe_wf (set_pe_address a e).
Proof. intros [? ?]. split; [|done]. by apply set_bits_range; [lia..|]. Qed.

Lemma pe_wf_clear e : pe_wf e -> pe_wf (clear_pe_present e).
Proof. intros [? ?]. split; [|done]. by apply set_bits_range; [lia..|]. Qed.

#[export] Hint Resolve pe_wf_set_address pe_wf_clear pe_address_range pe_target_range : a3.
#[export] Hint Rewrite pe_address_set pe_present_set_address pe_present_clear
  pe_target_set_address pe_target_clear : a3.

(** The two views of the union [page_entry] agree. *)
Lemma pe_raw_value e : pe_wf e -> pe_raw e = pe_word1 e * 2 ^ 32 + pe_word0 e.
Proof.
  intros [H0 H1]. unfold pe_raw.
  rewrite Z.shiftl_mul_pow2, Z.lor_comm, lor_add_disjoint by lia. lia.
Qed.

Lemma pe_raw_roundtrip e : pe_wf e -> pe_of_raw (pe_raw e) = e.
Proof.
  intros Hwf. rewrite pe_raw_value by done. destruct Hwf as [H0 H1].
  unfold pe_of_raw. destruct e as [w0 w1]; simpl in *.
  rewrite Z.shiftr_div_pow2 by lia. f_equal; zlia.
Qed.

Lemma pe_of_raw_wf raw : pe_wf (pe_of_raw raw).
Proof. split; simpl; apply u32_range. Qed.

Lemma pe_of_raw_raw raw : 0 <= raw < 2 ^ 64 -> pe_raw (pe_of_raw raw) = raw.
Proof.
  intros. rewrite pe_raw_value by apply pe_of_raw_wf. simpl.
  rewrite Z.shiftr_div_pow2 by lia. zlia.
Qed.

(** ** Address translation *)

(** A virtual GPU: one of the [A3_VM_NUM] slots. *)
Definition valid_id (id : Z) : Prop := 0 <= id < A3_VM_NUM.

(** The partition of the machine, in bytes. *)
Definition in_partition (id a : Z) : Prop :=
  id * vram_size <= a < (id + 1) * vram_size.

Lemma get_address_shift_eq id : valid_id id -> get_address_shift id = id * vram_size.
Proof. unfold valid_id, get_address_shift, vram_size. consts. intros. apply u64_small. lia. Qed.

Lemma get_phys_address_eq id v :
  valid_id id -> 0 <= v < 2 ^ 63 -> get_phys_address id v = v + id * vram_size.
Proof.
  intros Hid Hv. unfold get_phys_address. rewrite get_address_shift_eq by done.
  unfold valid_id, vram_size in *. consts. apply u64_small. lia.
Qed.

Lemma get_virt_phys_address id v :
  valid_id id -> 0 <= v < 2 ^ 64 -> get_virt_address id (get_phys_address id v) = v.
Proof.
  intros Hid Hv. unfold get_virt_address, get_phys_address.
  rewrite get_address_shift_eq by done. unfold valid_id, vram_size in *. consts. zlia.
Qed.

(** [in_memory_range] is membership in the partition. *)
Lemma in_memory_range_spec id a :
  valid_id id -> 0 <= a < 2 ^ 64 -> in_memory_range id a = true <-> in_partition id a.
Proof.
  intros Hid Ha. unfold in_memory_range, get_virt_address, in_partition.
  rewrite get_address_shift_eq by done. rewrite Z.ltb_lt.
  unfold valid_id, vram_size in *. consts. zlia.
Qed.

(** Different machines have disjoint partitions. *)
Lemma in_partition_disjoint id id' a :
  in_partition id a -> in_partition id' a -> id = id'.
Proof. unfold in_partition, vram_size. consts. nia. Qed.

(** ** [guest_to_host] *)

Section GuestToHost.
Context (id : Z) (gfn_to_mfn : Z -> Z).
Hypothesis Hid : valid_id id.

Lemma guest_to_host_word1 e : pe_word1 (guest_to_host id gfn_to_mfn e) = pe_word1 e.
Proof using Type.
  unfold guest_to_host.
  destruct (pe_present e); [|done].
  destruct (_ =? _); [by destruct (negb _)|]. by destruct (_ || _)%bool.
Qed.

Lemma guest_to_host_target e : pe_target (guest_to_host id gfn_to_mfn e) = pe_target e.
Proof using Type. unfold pe_target. by rewrite guest_to_host_word1. Qed.

Lemma guest_to_host_wf e : pe_wf e -> pe_wf (guest_to_host id gfn_to_mfn e).
Proof using Type.
  intros. unfold guest_to_host.
  destruct (pe_present e); [|done].
  destruct (_ =? _); [destruct (negb _); auto with a3|].
  destruct (_ || _)%bool; auto with a3.
Qed.

Lemma guest_to_host_absent e :
  pe_present e = false -> guest_to_host id gfn_to_mfn e = e.
Proof using Type. unfold guest_to_host. by intros ->. Qed.

(** The rewriting of a present video-memory entry, computed. *)
Lemma guest_to_host_vram_eq e :
  pe_present e = true -> pe_target e = TARGET_TYPE_VRAM ->
  guest_to_host id gfn_to_mfn e =
    let r := set_pe_address (pe_address e + id * (vram_size / kPAGE_SIZE)) e in
    if pe_address e * kPAGE_SIZE <? vram_size then r else clear_pe_present r.
Proof.
  intros Hp Ht. unfold guest_to_host. rewrite Hp, Ht. cbn [Z.eqb TARGET_TYPE_VRAM].
  pose proof (pe_address_range e).
  rewrite Z.shiftl_mul_pow2 by lia.
  rewrite get_phys_address_eq by (done || lia). rewrite get_address_shift_eq by done.
  unfold valid_id, vram_size in *. consts. change (2147483648 / 4096) with 524288.
  rewrite Z.shiftr_div_pow2 by lia.
  replace ((pe_address e * 2 ^ 12 + id * 2147483648) / 2 ^ 12)
    with (pe_address e + id * 524288) by zlia.
  rewrite u64_small, u32_small by zlia. simpl.
  destruct (Z.ltb_spec (pe_address e * 4096) 2147483648);
    [rewrite (proj2 (negb_false_iff _)) by lia|rewrite (proj2 (negb_true_iff _)) by lia]; done.
Qed.

(** A page table entry through which the machine reaches no video memory but its own. *)
Definition safe_entry (e : page_entry) : Prop :=
  pe_present e = true -> pe_target e = TARGET_TYPE_VRAM ->
  forall o, 0 <= o < kPAGE_SIZE -> in_partition id (pe_address e * kPAGE_SIZE + o).

Lemma guest_to_host_safe e : safe_entry (guest_to_host id gfn_to_mfn e).
Proof.
  unfold safe_entry. rewrite guest_to_host_target. intros Hp Ht o Ho.
  destruct (pe_present e) eqn:He; [|rewrite guest_to_host_absent in Hp by done; congruence].
  rewrite guest_to_host_vram_eq in * by done. cbn zeta in *. revert Hp.
  destruct (Z.ltb_spec (pe_address e * kPAGE_SIZE) vram_size); autorewrite with a3; [|done].
  intros _. pose proof (pe_address_range e).
  unfold in_partition, valid_id, vram_size in *. consts.
  change (2147483648 / 4096) with 524288. rewrite Z.mod_small by zlia. zlia.
Qed.

End GuestToHost.

