(* ===== verification/Barrier.v ===== *)
(** * Access barriers ([barrier.h], [barrier.cc])

    A two-level table with a reference count per 4KB page of the machine's video
    memory. A page with a non-zero count holds the instance memory of a channel:
    writes to it must be reflected in the shadow. The theorems show that the
    two-level table with lazily created directories behaves as one flat map
    from pages to counts, and that no access leaves the arrays. *)

From S2P Require Import Prelude Config.

(** ** Data *)

Definition kPAGE_BITS : Z := 12.
Definition kPAGE_ENTRY_BITS : Z := 15.
Definition kPAGE_DIRECTORY_BITS : Z := 13.
Definition kADDRESS_BITS : Z := kPAGE_BITS + kPAGE_ENTRY_BITS + kPAGE_DIRECTORY_BITS.

(** [class page_entry]: an 8-bit reference count. *)
Definition entry_present (ref_count : Z) : bool := negb (ref_count =? 0).
Definition entry_release (ref_count : Z) : Z := u8 (ref_count - 1).
Definition entry_retain (ref_count : Z) : Z := u8 (ref_count + 1).

(** [class page_directory]: [std::array<page_entry, 1 << kPAGE_ENTRY_BITS>] *)
Definition barrier_directory : Type := vec Z.
Definition barrier_directory_new : barrier_directory :=
  vec_make (Z.shiftl 1 kPAGE_ENTRY_BITS) 0.

(** [class table] *)
Record barrier_table : Type := BarrierTable {
  bt_table : vec (option barrier_directory);
  bt_base : Z;
  bt_size : Z
}.

Definition set_bt_table (v : vec (option barrier_directory)) (t : barrier_table)
  : barrier_table := BarrierTable v (bt_base t) (bt_size t).

(** The constructor [table(base, memory_size)]. *)
Definition barrier_table_new (base memory_size : Z) : barrier_table :=
  let size := bit_mask kADDRESS_BITS memory_size in
  if memory_size =? 0 then BarrierTable (vec_make 0 None) base size
  else
    let directories_size :=
      u32 (bit_mask kPAGE_DIRECTORY_BITS
             (Z.shiftr (u64 (size - 1)) (kPAGE_BITS + kPAGE_DIRECTORY_BITS)) + 1) in
    BarrierTable (vec_make directories_size None) base size.

(** [table::in_range] *)
Definition barrier_in_range (t : barrier_table) (address : Z) : bool :=
  (bt_base t <=? address) && (address <? u64 (bt_base t + bt_size t)).

(** ** Operations *)

(** The index computations of [table::lookup] and [page_directory::lookup]. *)
Definition directory_index (address : Z) : Z :=
  u32 (bit_mask kPAGE_DIRECTORY_BITS (Z.shiftr address (kPAGE_BITS + kPAGE_DIRECTORY_BITS))).
Definition entry_index (address : Z) : Z :=
  u32 (bit_mask kPAGE_ENTRY_BITS (Z.shiftr address kPAGE_BITS)).

(** [page_directory::lookup]: the index [*entry] points to, and [present()]. *)
Definition directory_lookup (address : Z) : M barrier_directory (bool * Z) :=
  let index := entry_index address in
  let! d := gets id in
  let! e := of_option OutOfBounds (vec_get d index) in
  ret (entry_present e, index).

(** [page_directory::map] and [page_directory::unmap] *)
Definition directory_map (page_start_address : Z) : M barrier_directory bool :=
  let! r := directory_lookup page_start_address in
  let! d := gets id in
  let! d' := of_option OutOfBounds (vec_set d r.2 (entry_retain (vec_at d r.2))) in
  modify (fun _ => d') ;;;
  ret r.1.

Definition directory_unmap (page_start_address : Z) : M barrier_directory unit :=
  let! r := directory_lookup page_start_address in
  let! d := gets id in
  if r.1 then
    let! d' := of_option OutOfBounds (vec_set d r.2 (entry_release (vec_at d r.2))) in
    modify (fun _ => d')
  else ret tt.

(** [table::lookup]: the result, and the directory and index the out parameter
    [entry] points to ([None] when it is left null). *)
Definition barrier_lookup (address : Z) (force_create : bool)
  : M barrier_table (bool * option (Z * Z)) :=
  let! t := gets id in
  if negb (barrier_in_range t address) then ret (false, None)
  else
    let address := u64 (address - bt_base t) in
    let index := directory_index address in
    let! dir := of_option OutOfBounds (vec_get (bt_table t) index) in
    match dir with
    | None =>
        if negb force_create then ret (false, None)
        else
          let! v := of_option OutOfBounds
                      (vec_set (bt_table t) index (Some barrier_directory_new)) in
          modify (set_bt_table v) ;;;
          let! e := of_option OutOfBounds (vec_get barrier_directory_new (entry_index address)) in
          ret (entry_present e, Some (index, entry_index address))
    | Some d =>
        let! e := of_option OutOfBounds (vec_get d (entry_index address)) in
        ret (entry_present e, Some (index, entry_index address))
    end.

(** Applies [f] to the entry that [lookup] found and returns the new count. *)
Definition update_entry (p : Z * Z) (f : Z -> Z) : M barrier_table Z :=
  let! t := gets id in
  let! dir := of_option OutOfBounds (vec_get (bt_table t) p.1) in
  let! d := of_option NullDeref dir in
  let! e := of_option OutOfBounds (vec_get d p.2) in
  let! d' := of_option OutOfBounds (vec_set d p.2 (f e)) in
  let! v := of_option OutOfBounds (vec_set (bt_table t) p.1 (Some d')) in
  modify (set_bt_table v) ;;;
  ret (f e).

(** [table::map] *)
Definition barrier_map (page_start_address : Z) : M barrier_table bool :=
  let! r := barrier_lookup page_start_address true in
  match r.2 with
  | Some p => update_entry p entry_retain ;;; ret r.1
  | None => ret r.1
  end.

(** [table::unmap] *)
Definition barrier_unmap (page_start_address : Z) : M barrier_table bool :=
  let! r := barrier_lookup page_start_address false in
  match r.2 with
  | Some p => let! e := update_entry p entry_release in ret (entry_present e)
  | None => ret false
  end.

(** ** The flat view *)

(** The page of the machine's memory that [address] is in. *)
Definition barrier_page (t : barrier_table) (address : Z) : Z :=
  (address - bt_base t) / kPAGE_SIZE.

(** The reference count of a page: 0 while its directory does not exist. *)
Definition refs (t : barrier_table) (page : Z) : Z :=
  match vec_at (bt_table t) (page / 2 ^ 13) with
  | Some d => vec_at d (page mod 2 ^ 15)
  | None => 0
  end.

(** The table covers the memory, and every directory has its full size. *)
Record barrier_wf (t : barrier_table) : Prop := {
  bwf_base : 0 <= bt_base t;
  bwf_size : 0 < bt_size t <= 2 ^ 38;
  bwf_end : bt_base t + bt_size t < 2 ^ 64;
  bwf_len : vlen (bt_table t) = (bt_size t - 1) / 2 ^ 25 + 1;
  bwf_dir : forall i d, vec_at (bt_table t) i = Some d ->
    vlen d = 2 ^ 15 /\ forall j, 0 <= vec_at d j < 256
}.

Lemma barrier_table_new_wf base size :
  0 <= base -> 0 < size <= 2 ^ 38 -> base + size < 2 ^ 64 ->
  barrier_wf (barrier_table_new base size) /\
  (forall p, refs (barrier_table_new base size) p = 0) /\
  bt_base (barrier_table_new base size) = base /\ bt_size (barrier_table_new base size) = size.
Proof.
  intros Hb Hs He. unfold barrier_table_new.
  rewrite bit_mask_mod by (cbv; intuition congruence).
  change kADDRESS_BITS with 40. rewrite Z.mod_small by lia.
  rewrite (proj2 (Z.eqb_neq size 0)) by lia.
  split; [|split; [|done]].
  - constructor; simpl; try lia.
    + rewrite u64_small by lia. change (kPAGE_BITS + kPAGE_DIRECTORY_BITS) with 25.
      rewrite bit_mask_mod by (cbv; intuition congruence). change kPAGE_DIRECTORY_BITS with 13.
      rewrite Z.shiftr_div_pow2 by lia. zlia.
    + intros i d. by rewrite vec_at_make.
  - intros p. unfold refs; simpl. by rewrite vec_at_make.
Qed.

Section FlatView.
Context (t : barrier_table) (Hwf : barrier_wf t).

Lemma barrier_in_range_spec a :
  barrier_in_range t a = true <-> bt_base t <= a < bt_base t + bt_size t.
Proof.
  destruct Hwf. unfold barrier_in_range. rewrite u64_small by lia. lia.
Qed.

(** The indices of an address in range, in terms of its page. *)
Lemma barrier_indices a :
  bt_base t <= a < bt_base t + bt_size t ->
  let page := barrier_page t a in
  directory_index (u64 (a - bt_base t)) = page / 2 ^ 13 /\
  entry_index (u64 (a - bt_base t)) = page mod 2 ^ 15 /\
  0 <= page / 2 ^ 13 < vlen (bt_table t) /\ 0 <= page mod 2 ^ 15 < 2 ^ 15.
Proof.
  destruct Hwf as [Hb Hs He Hl _]. intros Ha. cbn zeta.
  unfold directory_index, entry_index, barrier_page. rewrite u64_small by lia.
  change (kPAGE_BITS + kPAGE_DIRECTORY_BITS) with 25.
  change kPAGE_DIRECTORY_BITS with 13. change kPAGE_ENTRY_BITS with 15.
  change kPAGE_BITS with 12. consts.
  rewrite !bit_mask_mod by (cbv; intuition congruence).
  rewrite !Z.shiftr_div_pow2 by lia. rewrite Hl.
  split; [zlia|]. split; [zlia|]. zlia.
Qed.

(** Distinct pages have distinct indices. *)
Lemma page_index_inj p q :
  p / 2 ^ 13 = q / 2 ^ 13 -> p mod 2 ^ 15 = q mod 2 ^ 15 -> p = q.
Proof. zlia. Qed.

Lemma refs_range p : 0 <= refs t p < 256.
Proof.
  unfold refs. destruct (vec_at (bt_table t) (p / 2 ^ 13)) eqn:E; [|lia].
  by apply (bwf_dir t Hwf _ _ E).
Qed.

(** [lookup] without creation reads the count and changes nothing. *)
Lemma barrier_lookup_false a :
  exists r, barrier_lookup a false t = Ok (r, t) /\
    r.1 = (barrier_in_range t a && entry_present (refs t (barrier_page t a)))%bool /\
    r.2 = if barrier_in_range t a then
            match vec_at (bt_table t) (barrier_page t a / 2 ^ 13) with
            | Some _ => Some (barrier_page t a / 2 ^ 13, barrier_page t a mod 2 ^ 15)
            | None => None
            end
          else None.
Proof.
  unfold barrier_lookup, bind, gets, id.
  destruct (barrier_in_range t a) eqn:Hr; cbn [negb andb]; [|by exists (false, None)].
  apply barrier_in_range_spec in Hr.
  destruct (barrier_indices a Hr) as (-> & -> & Hi & Hj).
  rewrite vec_get_some by lia. unfold refs. cbn [of_option ret].
  destruct (vec_at (bt_table t) _) as [d|] eqn:E; cbn [negb ret]; [|by exists (false, None)].
  destruct (bwf_dir t Hwf _ _ E) as [Hl _].
  rewrite vec_get_some by lia. by eexists (_, _).
Qed.
End FlatView.

(** Replacing one count of an existing directory. *)
Lemma update_entry_spec t p f d :
  barrier_wf t -> vec_at (bt_table t) (p / 2 ^ 13) = Some d ->
  0 <= p / 2 ^ 13 < vlen (bt_table t) ->
  (forall x, 0 <= x < 256 -> 0 <= f x < 256) ->
  exists t', update_entry (p / 2 ^ 13, p mod 2 ^ 15) f t = Ok (f (refs t p), t') /\
    barrier_wf t' /\ bt_base t' = bt_base t /\ bt_size t' = bt_size t /\
    refs t' p = f (refs t p) /\ forall q, q <> p -> refs t' q = refs t q.
Proof.
  intros Hwf E Hi Hf. destruct (bwf_dir t Hwf _ _ E) as [Hl Hd].
  assert (0 <= p mod 2 ^ 15 < 2 ^ 15) as Hj by (apply Z.mod_pos_bound; lia).
  unfold update_entry, bind, gets, id; simpl.
  rewrite vec_get_some by done. simpl. rewrite E; simpl.
  rewrite vec_get_some by lia; simpl.
  destruct (vec_set_some d (p mod 2 ^ 15) (f (vec_at d (p mod 2 ^ 15))) ltac:(lia))
    as (d' & -> & Hl' & Hat & Hother); simpl.
  destruct (vec_set_some (bt_table t) (p / 2 ^ 13) (Some d') Hi)
    as (v & -> & Hlv & Hatv & Hotherv); simpl.
  eexists. split; [unfold refs; by rewrite E|].
  split; [|split; [done|split; [done|split]]].
  - destruct Hwf as [? ? ? ? Hdir]. constructor; simpl; try done; [congruence|].
    intros i d0. destruct (decide (i = p / 2 ^ 13)) as [->|Hne].
    + rewrite Hatv. intros [= <-]. split; [lia|]. intros j.
      destruct (decide (j = p mod 2 ^ 15)) as [->|]; [rewrite Hat; auto|].
      rewrite Hother by done. auto.
    + rewrite Hotherv by done. apply Hdir.
  - unfold refs; simpl. by rewrite Hatv, Hat, E.
  - intros q Hq. unfold refs; simpl.
    destruct (decide (q / 2 ^ 13 = p / 2 ^ 13)) as [Eq|Hne];
      [|by rewrite Hotherv].
    rewrite Eq, Hatv, E. apply Hother.
    intros Hm. by apply Hq, page_index_inj.
Qed.

(** [lookup] with creation: the directory exists afterwards, no count changes. *)
Lemma barrier_lookup_true t a :
  barrier_wf t -> barrier_in_range t a = true ->
  let p := barrier_page t a in
  exists t' d,
    barrier_lookup a true t =
      Ok ((entry_present (refs t p), Some (p / 2 ^ 13, p mod 2 ^ 15)), t') /\
    barrier_wf t' /\ bt_base t' = bt_base t /\ bt_size t' = bt_size t /\
    vlen (bt_table t') = vlen (bt_table t) /\
    vec_at (bt_table t') (p / 2 ^ 13) = Some d /\ forall q, refs t' q = refs t q.
Proof.
  intros Hwf Hr p. unfold barrier_lookup. rewrite (bind_ok _ _ _ t t) by done.
  rewrite Hr; cbn [negb]. apply (barrier_in_range_spec t Hwf) in Hr.
  destruct (barrier_indices t Hwf a Hr) as (-> & -> & Hi & Hj). fold p in Hi, Hj |- *.
  rewrite vec_get_some by done.
  rewrite (bind_ok _ _ _ (vec_at (bt_table t) (p / 2 ^ 13)) t) by done.
  destruct (vec_at (bt_table t) (p / 2 ^ 13)) as [d|] eqn:E.
  - destruct (bwf_dir t Hwf _ _ E) as [Hl _]. rewrite vec_get_some by lia.
    exists t, d. split; [unfold refs; by rewrite E|]. by split_and!.
  - cbn [negb]. destruct (vec_set_some (bt_table t) (p / 2 ^ 13) (Some barrier_directory_new) Hi)
      as (v & -> & Hlv & Hat & Ho).
    assert (0 <= p mod 2 ^ 15 < vlen barrier_directory_new) as Hjn by exact Hj.
    rewrite (vec_get_some barrier_directory_new) by done.
    exists (set_bt_table v t), barrier_directory_new.
    split; [unfold refs, barrier_directory_new; by rewrite E, vec_at_make|].
    split; [|split_and!; try done].
    + destruct Hwf as [? ? ? ? Hd]. constructor; simpl; try done; [congruence|].
      intros i d. destruct (decide (i = p / 2 ^ 13)) as [->|Hne].
      * rewrite Hat. intros [= <-]. split; [done|]. intros j.
        unfold barrier_directory_new. rewrite vec_at_make. lia.
      * rewrite Ho by done. apply Hd.
    + intros q. unfold refs; simpl. destruct (decide (q / 2 ^ 13 = p / 2 ^ 13)) as [Eq|Hne].
      * rewrite Eq, Hat, E. apply vec_at_make.
      * by rewrite Ho.
Qed.

Lemma barrier_map_spec t a :
  barrier_wf t ->
  exists b t', barrier_map a t = Ok (b, t') /\ barrier_wf t' /\
    bt_base t' = bt_base t /\ bt_size t' = bt_size t /\
    b = (barrier_in_range t a && entry_present (refs t (barrier_page t a)))%bool /\
    forall q, refs t' q =
      if (barrier_in_range t a && (q =? barrier_page t a))%bool
      then u8 (refs t q + 1) else refs t q.
Proof.
  intros Hwf. unfold barrier_map. destruct (barrier_in_range t a) eqn:Hr.
  - destruct (barrier_lookup_true t a Hwf Hr) as (t1 & d & E & Hwf1 & Hb & Hs & Hl & Hd & Hq).
    rewrite (bind_ok _ _ _ _ _ E). cbn [fst snd].
    apply (barrier_in_range_spec t Hwf) in Hr.
    destruct (barrier_indices t Hwf a Hr) as (_ & _ & Hi & _).
    destruct (update_entry_spec t1 (barrier_page t a) entry_retain d Hwf1 Hd ltac:(lia))
      as (t' & Ht & Hwf' & Hb' & Hs' & Hp & Ho).
    { intros x _. unfold entry_retain, u8. apply Z.mod_pos_bound. lia. }
    rewrite (bind_ok _ _ _ _ _ Ht). eexists _, t'.
    split_and!; try done; try congruence.
    intros q. cbn [andb]. destruct (Z.eqb_spec q (barrier_page t a)) as [->|Hne].
    + by rewrite Hp, Hq.
    + by rewrite Ho, Hq.
  - unfold barrier_lookup. rewrite (bind_ok _ _ _ (false, None) t);
      [|rewrite (bind_ok _ _ _ t t) by done; by rewrite Hr].
    exists false, t. by split_and!.
Qed.

Lemma barrier_unmap_spec t a :
  barrier_wf t -> (barrier_in_range t a = true -> 0 < refs t (barrier_page t a)) ->
  exists b t', barrier_unmap a t = Ok (b, t') /\ barrier_wf t' /\
    bt_base t' = bt_base t /\ bt_size t' = bt_size t /\
    b = (barrier_in_range t a && entry_present (refs t (barrier_page t a) - 1))%bool /\
    forall q, refs t' q =
      if (barrier_in_range t a && (q =? barrier_page t a))%bool
      then refs t q - 1 else refs t q.
Proof.
  intros Hwf Hpos. unfold barrier_unmap.
  destruct (barrier_lookup_false t Hwf a) as ([r1 r2] & E & _ & Hr2). simpl in Hr2.
  unfold bind at 1. rewrite E. cbn [fst snd]. rewrite Hr2.
  destruct (barrier_in_range t a) eqn:Hr; [|exists false, t; by split_and!].
  specialize (Hpos eq_refl). apply (barrier_in_range_spec t Hwf) in Hr.
  destruct (barrier_indices t Hwf a Hr) as (_ & _ & Hi & _).
  set (p := barrier_page t a) in *. pose proof (refs_range t Hwf p) as Hrg.
  destruct (vec_at (bt_table t) (p / 2 ^ 13)) as [d|] eqn:Ed;
    [|unfold refs in Hpos; rewrite Ed in Hpos; lia].
  destruct (update_entry_spec t p entry_release d Hwf Ed Hi)
    as (t' & Ht & Hwf' & Hb' & Hs' & Hp & Ho).
  { intros x _. unfold entry_release, u8. apply Z.mod_pos_bound. lia. }
  unfold bind. rewrite Ht. unfold entry_release in *.
  assert (u8 (refs t p - 1) = refs t p - 1) as Hu by (unfold u8; apply Z.mod_small; lia).
  rewrite Hu in *. eexists _, t'. split_and!; try done.
  intros q. cbn [andb]. destruct (Z.eqb_spec q p) as [->|]; [done|by apply Ho].
Qed.

(** ** Refinement of the flat counter map *)

(** The calls a context makes on its barrier table. *)
Inductive barrier_op : Type :=
| OpMap (a : Z)
| OpUnmap (a : Z)
| OpLookup (a : Z).

Definition run_op (op : barrier_op) : M barrier_table bool :=
  match op with
  | OpMap a => barrier_map a
  | OpUnmap a => barrier_unmap a
  | OpLookup a => let! r := barrier_lookup a false in ret r.1
  end.

Fixpoint run_ops (ops : list barrier_op) : M barrier_table (list bool) :=
  match ops with
  | [] => ret []
  | op :: ops' => let! b := run_op op in let! bs := run_ops ops' in ret (b :: bs)
  end.

Section Refinement.
Context (base size : Z).

(** The contract: one 8-bit counter per page of [base, base + size). *)
Definition covered (a : Z) : bool := (base <=? a) && (a <? base + size).
Definition page_of (a : Z) : Z := (a - base) / kPAGE_SIZE.
Definition bump (f : Z -> Z) (a : Z) (c : Z -> Z) : Z -> Z :=
  fun q => if (covered a && (q =? page_of a))%bool then f (c q) else c q.

Definition spec_op (op : barrier_op) (c : Z -> Z) : bool * (Z -> Z) :=
  match op with
  | OpMap a => ((covered a && entry_present (c (page_of a)))%bool, bump (fun x => u8 (x + 1)) a c)
  | OpUnmap a =>
      ((covered a && entry_present (c (page_of a) - 1))%bool, bump (fun x => x - 1) a c)
  | OpLookup a => ((covered a && entry_present (c (page_of a)))%bool, c)
  end.

(** A page is unmapped only while it is mapped. *)
Definition op_allowed (op : barrier_op) (c : Z -> Z) : Prop :=
  match op with
  | OpUnmap a => covered a = true -> 0 < c (page_of a)
  | _ => True
  end.

Fixpoint spec_ops (ops : list barrier_op) (c : Z -> Z) : list bool * (Z -> Z) :=
  match ops with
  | [] => ([], c)
  | op :: ops' =>
      let '(b, c') := spec_op op c in
      let '(bs, c'') := spec_ops ops' c' in (b :: bs, c'')
  end.

Fixpoint ops_allowed (ops : list barrier_op) (c : Z -> Z) : Prop :=
  match ops with
  | [] => True
  | op :: ops' => op_allowed op c /\ ops_allowed ops' (spec_op op c).2
  end.

(** The table implements the counters [c]. *)
Definition implements (t : barrier_table) (c : Z -> Z) : Prop :=
  barrier_wf t /\ bt_base t = base /\ bt_size t = size /\ forall q, refs t q = c q.

Lemma run_op_refines op t c :
  implements t c -> op_allowed op c ->
  exists t', run_op op t = Ok ((spec_op op c).1, t') /\ implements t' (spec_op op c).2.
Proof.
  intros (Hwf & Hb0 & Hs0 & Hq) Hok.
  assert (forall a, barrier_in_range t a = covered a) as Hin.
  { intros a. pose proof (barrier_in_range_spec t Hwf a). unfold covered.
    rewrite Hb0, Hs0 in *. destruct (barrier_in_range t a); lia. }
  assert (forall a, barrier_page t a = page_of a) as Hpg by (unfold barrier_page; by rewrite Hb0).
  destruct op as [a|a|a]; simpl.
  - destruct (barrier_map_spec t a Hwf) as (b & t' & -> & Hwf' & Hb & Hs & -> & Hr).
    rewrite Hin, Hpg, Hq. exists t'. split; [done|]. split_and!; try congruence.
    intros q. rewrite Hr, Hin, Hpg, Hq. done.
  - destruct (barrier_unmap_spec t a Hwf) as (b & t' & -> & Hwf' & Hb & Hs & -> & Hr).
    { rewrite Hin, Hpg, Hq. exact Hok. }
    rewrite Hin, Hpg, Hq. exists t'. split; [done|]. split_and!; try congruence.
    intros q. rewrite Hr, Hin, Hpg, Hq. done.
  - destruct (barrier_lookup_false t Hwf a) as (r & E & Hr1 & _).
    rewrite (bind_ok _ _ _ _ _ E). rewrite Hin, Hpg, Hq in Hr1.
    exists t. rewrite <- Hr1. split; [done|]. by split_and!.
Qed.

(** C22: from a fresh table, any sequence of [map], [unmap] and [lookup] calls in
    which pages are unmapped only while mapped runs without error and gives the
    answers of one flat 8-bit counter per page: the lazily created directories
    and the overlapping index fields are not observable. *)
Theorem barrier_refinement ops :
  0 <= base -> 0 < size <= 2 ^ 38 -> base + size < 2 ^ 64 ->
  ops_allowed ops (fun _ => 0) ->
  exists t', run_ops ops (barrier_table_new base size)
             = Ok ((spec_ops ops (fun _ => 0)).1, t') /\
             implements t' (spec_ops ops (fun _ => 0)).2.
Proof.
  intros Hb Hs He.
  assert (implements (barrier_table_new base size) (fun _ => 0)) as Hi.
  { destruct (barrier_table_new_wf base size Hb Hs He) as (? & ? & ? & ?). by split_and!. }
  revert Hi. generalize (barrier_table_new base size), (fun _ : Z => 0).
  induction ops as [|op ops IH]; intros t c Hi Hok; simpl; [by exists t|].
  destruct Hok as [Hop Hok].
  destruct (run_op_refines op t c Hi Hop) as (t1 & E1 & Hi1).
  destruct (IH _ _ Hi1 Hok) as (t2 & E2 & Hi2).
  rewrite (bind_ok _ _ _ _ _ E1), (bind_ok _ _ _ _ _ E2).
  destruct (spec_op op c) as [b c1]; simpl in *.
  destruct (spec_ops ops c1) as [bs c2]; simpl in *. by exists t2.
Qed.
End Refinement.

Lemma barrier_refinement_witness :
  exists t', run_ops [OpMap 0x80003000; OpLookup 0x80003abc; OpMap 0x80003000;
                      OpUnmap 0x80003000; OpLookup 0x86003000; OpLookup 0x1000]
               (barrier_table_new 0x80000000 0x80000000)
             = Ok ([false; true; true; true; false; false], t').
Proof.
  destruct (barrier_refinement 0x80000000 0x80000000
    [OpMap 0x80003000; OpLookup 0x80003abc; OpMap 0x80003000;
     OpUnmap 0x80003000; OpLookup 0x86003000; OpLookup 0x1000]) as (t' & H & _).
  - lia.
  - vm_compute; intuition congruence.
  - reflexivity.
  - vm_compute. intuition congruence.
  - exists t'. exact H.
Defined.
