(* ===== verification/Sched.v ===== *)
(** * GPU schedulers ([context_sched.cc], [scheduler.cc], [credit_scheduler.cc],
      [band_scheduler.cc], [fifo_scheduler.cc], [sampler.cc])

    Command submissions of the machines are queued per context (or in one FIFO)
    and fired one at a time by a scheduler thread that charges the GPU time to
    the context's budget; a second thread replenishes the budgets once per period.
    Durations are integers (microsecond ticks of [boost::posix_time]); the time a
    command takes and the time the GPU was idle are inputs of the operations. *)

From S2P Require Import Prelude Config.

(** ** Data *)

(** The scheduling fields of [class context]. *)
Record sched_ctx : Type := SchedCtx {
  budget_ : Z;
  bandwidth_used_ : Z;
  sampling_bandwidth_used_ : Z;
  sampling_bandwidth_used_100_ : Z;
  suspended_ : list command
}.

Definition sched_ctx_new : sched_ctx := SchedCtx 0 0 0 0 [].

(** [class sampler_t] with the two counters local to [sampler_t::run]. *)
Record sampler_t : Type := Sampler {
  bandwidth_100_ : Z;
  bandwidth_500_ : Z;
  sm_count : Z;
  sm_points : Z
}.

(** The fields of [scheduler_t] and of its subclasses. A context is named by a
    number standing for its address; [contexts_] is the intrusive list in its
    order of priority. *)
Record sched_dev : Type := SchedDev {
  period_ : Z;
  gpu_idle_ : Z;
  bandwidth_ : Z;
  previous_bandwidth_ : Z;
  counter_ : Z;
  current_ : option Z;
  contexts_ : list Z;
  queue_ : list (Z * command);
  sampler_ : sampler_t
}.

(** [credit_scheduler_t(period, sample)] and [band_scheduler_t(period, sample)];
    [previous_bandwidth_] is not in the initialiser lists, but [duration_t] has
    a default constructor (zero). *)
Definition sched_dev_new (period : Z) : sched_dev :=
  SchedDev period 0 0 0 0 None [] [] (Sampler 0 0 0 0).

(** The scheduler together with the contexts that exist. *)
Record sched_state : Type := SchedState {
  ss_dev : sched_dev;
  ss_ctx : gmap Z sched_ctx
}.

(** ** Accessors *)

Definition set_dev (f : sched_dev -> sched_dev) (s : sched_state) : sched_state :=
  SchedState (f (ss_dev s)) (ss_ctx s).
Definition set_ctx (c : Z) (x : sched_ctx) (s : sched_state) : sched_state :=
  SchedState (ss_dev s) (<[c := x]> (ss_ctx s)).

Definition set_gpu_idle (v : Z) (d : sched_dev) : sched_dev :=
  SchedDev (period_ d) v (bandwidth_ d) (previous_bandwidth_ d) (counter_ d) (current_ d)
    (contexts_ d) (queue_ d) (sampler_ d).
Definition set_bandwidth (v : Z) (d : sched_dev) : sched_dev :=
  SchedDev (period_ d) (gpu_idle_ d) v (previous_bandwidth_ d) (counter_ d) (current_ d)
    (contexts_ d) (queue_ d) (sampler_ d).
Definition set_previous_bandwidth (v : Z) (d : sched_dev) : sched_dev :=
  SchedDev (period_ d) (gpu_idle_ d) (bandwidth_ d) v (counter_ d) (current_ d)
    (contexts_ d) (queue_ d) (sampler_ d).
Definition set_counter (v : Z) (d : sched_dev) : sched_dev :=
  SchedDev (period_ d) (gpu_idle_ d) (bandwidth_ d) (previous_bandwidth_ d) v (current_ d)
    (contexts_ d) (queue_ d) (sampler_ d).
Definition set_current (v : option Z) (d : sched_dev) : sched_dev :=
  SchedDev (period_ d) (gpu_idle_ d) (bandwidth_ d) (previous_bandwidth_ d) (counter_ d) v
    (contexts_ d) (queue_ d) (sampler_ d).
Definition set_contexts (v : list Z) (d : sched_dev) : sched_dev :=
  SchedDev (period_ d) (gpu_idle_ d) (bandwidth_ d) (previous_bandwidth_ d) (counter_ d)
    (current_ d) v (queue_ d) (sampler_ d).
Definition set_queue (v : list (Z * command)) (d : sched_dev) : sched_dev :=
  SchedDev (period_ d) (gpu_idle_ d) (bandwidth_ d) (previous_bandwidth_ d) (counter_ d)
    (current_ d) (contexts_ d) v (sampler_ d).
Definition set_sampler (v : sampler_t) (d : sched_dev) : sched_dev :=
  SchedDev (period_ d) (gpu_idle_ d) (bandwidth_ d) (previous_bandwidth_ d) (counter_ d)
    (current_ d) (contexts_ d) (queue_ d) v.

Definition set_budget (v : Z) (x : sched_ctx) : sched_ctx :=
  SchedCtx v (bandwidth_used_ x) (sampling_bandwidth_used_ x) (sampling_bandwidth_used_100_ x)
    (suspended_ x).
Definition set_suspended (v : list command) (x : sched_ctx) : sched_ctx :=
  SchedCtx (budget_ x) (bandwidth_used_ x) (sampling_bandwidth_used_ x)
    (sampling_bandwidth_used_100_ x) v.

(** Dereferencing a pointer to a context: it must still exist. *)
Definition deref (c : Z) : M sched_state sched_ctx :=
  let! s := gets id in of_option UseAfterFree (ss_ctx s !! c).

Definition get_dev {A} (f : sched_dev -> A) : M sched_state A := gets (fun s => f (ss_dev s)).

(** ** [context_sched.cc] *)

(** [context::enqueue]; returns whether the queue was empty. *)
Definition ctx_enqueue (cmd : command) (x : sched_ctx) : bool * sched_ctx :=
  (match suspended_ x with [] => true | _ => false end,
   set_suspended (suspended_ x ++ [cmd]) x).

(** [context::dequeue] *)
Definition ctx_dequeue (x : sched_ctx) : option command * sched_ctx :=
  match suspended_ x with
  | [] => (None, x)
  | cmd :: rest => (Some cmd, set_suspended rest x)
  end.

(** [context::is_suspended] *)
Definition is_suspended (x : sched_ctx) : bool :=
  match suspended_ x with [] => false | _ => true end.

(** [context::update_budget] *)
Definition update_budget (credit : Z) (x : sched_ctx) : sched_ctx :=
  SchedCtx (budget_ x - credit) (bandwidth_used_ x + credit)
    (sampling_bandwidth_used_ x + credit) (sampling_bandwidth_used_100_ x + credit)
    (suspended_ x).

(** [context::replenish] *)
Definition ctx_replenish (credit threshold bandwidth : Z) (idle : bool) (x : sched_ctx)
  : sched_ctx :=
  let budget := budget_ x + credit in
  let budget :=
    if idle && (bandwidth <=? budget) then bandwidth
    else
      let budget := if threshold <? budget then bandwidth else budget in
      if budget <? - threshold then 0 else budget in
  SchedCtx budget 0 (sampling_bandwidth_used_ x) (sampling_bandwidth_used_100_ x) (suspended_ x).

(** [context::clear_sampling_bandwidth_used] *)
Definition clear_sampling_bandwidth_used (point : Z) (x : sched_ctx) : sched_ctx :=
  SchedCtx (budget_ x) (bandwidth_used_ x)
    (if point mod 5 =? 4 then 0 else sampling_bandwidth_used_ x) 0 (suspended_ x).

(** ** [scheduler.cc] *)

Definition register_context (c : Z) : M sched_state unit :=
  modify (set_dev (fun d => set_contexts (contexts_ d ++ [c]) d)).

(** [contexts().erase(s_iterator_to( *ctx ))] *)
Definition erase (c : Z) (l : list Z) : list Z := filter (fun c' => c' <> c) l.

Definition unregister_context (c : Z) : M sched_state unit :=
  modify (set_dev (fun d => set_contexts (erase c (contexts_ d)) d)).

(** The end of a context's life: [~context] unregisters it ([device_t::release_virt])
    and its memory is freed. *)
Definition destroy_context (c : Z) : M sched_state unit :=
  unregister_context c ;;; modify (fun s => SchedState (ss_dev s) (delete c (ss_ctx s))).

(** ** [sampler.cc] *)

(** [sampler_t::add] *)
Definition sampler_add (time : Z) (m : sampler_t) : sampler_t :=
  Sampler (bandwidth_100_ m + time) (bandwidth_500_ m + time) (sm_count m) (sm_points m).

(** Applies [f] to every registered context, in the order of the list. *)
Definition for_contexts (f : sched_ctx -> sched_ctx) : M sched_state unit :=
  let! l := get_dev contexts_ in
  for_each l (fun c => let! x := deref c in modify (set_ctx c (f x))).

(** One round of the loop of [sampler_t::run]. *)
Definition sampler_round : M sched_state unit :=
  let! l := get_dev contexts_ in
  let! m := get_dev sampler_ in
  match l with
  | [] => ret tt
  | _ :: _ =>
      let! m' :=
        if negb (bandwidth_500_ m =? 0) then
          for_contexts (clear_sampling_bandwidth_used (sm_points m)) ;;;
          ret (Sampler (bandwidth_100_ m) (bandwidth_500_ m)
                       (u64 (sm_count m + 1)) ((sm_points m + 1) mod 5))
        else ret m in
      modify (set_dev (set_sampler
        (Sampler 0 (if sm_points m' mod 5 =? 4 then 0 else bandwidth_500_ m')
                 (sm_count m') (sm_points m'))))
  end.

(** ** The replenishing threads

    One round of [credit_scheduler_t::replenish], [band_scheduler_t::replenish] and
    [fifo_scheduler_t::replenish]: dividing a [time_duration] by an integer truncates. *)

Definition credit_replenish : M sched_state unit :=
  let! d := get_dev id in
  match contexts_ d with
  | [] => ret tt
  | _ :: _ =>
      let size := Z.of_nat (length (contexts_ d)) in
      let period := bandwidth_ d + gpu_idle_ d in
      let defaults := Z.quot (period_ d) size in
      modify (set_dev (set_previous_bandwidth period)) ;;;
      when (negb (period =? 0))
        (let budget := Z.quot period size in
         for_contexts (ctx_replenish budget (budget * 2) defaults (bandwidth_ d =? 0))) ;;;
      modify (set_dev (set_bandwidth 0)) ;;;
      modify (set_dev (set_gpu_idle 0))
  end.

Definition band_replenish : M sched_state unit :=
  let! d := get_dev id in
  match contexts_ d with
  | [] => ret tt
  | _ :: _ =>
      let size := Z.of_nat (length (contexts_ d)) in
      let period := bandwidth_ d + gpu_idle_ d in
      let defaults := Z.quot (period_ d) size in
      modify (set_dev (set_previous_bandwidth period)) ;;;
      when (negb (period =? 0))
        (let budget := Z.quot period size in
         for_contexts (ctx_replenish budget (period_ d) defaults (bandwidth_ d =? 0))) ;;;
      modify (set_dev (set_bandwidth 0)) ;;;
      modify (set_dev (set_gpu_idle 0))
  end.

Definition fifo_replenish : M sched_state unit :=
  let! d := get_dev id in
  match contexts_ d with
  | [] => ret tt
  | _ :: _ =>
      let size := Z.of_nat (length (contexts_ d)) in
      let period := bandwidth_ d + gpu_idle_ d in
      let defaults := Z.quot (period_ d) size in
      when (negb (period =? 0))
        (let budget := Z.quot period size in
         for_contexts (ctx_replenish budget (period_ d) defaults (bandwidth_ d =? 0))) ;;;
      modify (set_dev (set_bandwidth 0)) ;;;
      modify (set_dev (set_gpu_idle 0))
  end.

(** ** Selecting the next context *)

(** The common head of the two [select_next_context]: the time the GPU was idle
    ([elapsed], read from [gpu_idle_timer_] when the thread has waited). *)
Definition count_idle (idle : bool) (elapsed : Z) : M sched_state unit :=
  when idle (modify (set_dev (fun d => set_gpu_idle (gpu_idle_ d + elapsed) d))).

(** [contexts().erase(...); contexts().push_back( *ctx )] *)
Definition lower_priority (c : Z) : M sched_state unit :=
  modify (set_dev (fun d => set_contexts (erase c (contexts_ d) ++ [c]) d)).

(** The loop returning the first suspended context of the list. *)
Fixpoint first_suspended (l : list Z) : M sched_state (option Z) :=
  match l with
  | [] => ret None
  | c :: l => let! x := deref c in if is_suspended x then ret (Some c) else first_suspended l
  end.

(** [credit_scheduler_t::select_next_context] *)
Definition credit_select_next_context (idle : bool) (elapsed : Z) : M sched_state (option Z) :=
  count_idle idle elapsed ;;;
  let! current := get_dev current_ in
  match current with
  | Some c => let! x := deref c in when (budget_ x <? 0) (lower_priority c)
  | None => ret tt
  end ;;;
  let! l := get_dev contexts_ in
  first_suspended l.

(** [band_scheduler_t::utilization_over_bandwidth]. The last comparison,
    [used / (double)bandwidth > 1.0 / n], is written without the division; both
    quotients are correctly rounded, so the two agree while [bandwidth * n] is
    below [2^52]: more than a century of microseconds. *)
Definition utilization_over_bandwidth (d : sched_dev) (x : sched_ctx) : bool :=
  let size := Z.of_nat (length (contexts_ d)) in
  (bandwidth_ d =? 0)
  || (Z.quot (previous_bandwidth_ d) size <? bandwidth_used_ x)
  || (bandwidth_ d <? bandwidth_used_ x * size).

(** The three candidates of the loop, in the source's order of update. *)
Record candidates : Type := Candidates { band : option Z; under : option Z; over : option Z }.

Definition first (o : option Z) (c : Z) : option Z :=
  match o with Some _ => o | None => Some c end.

Fixpoint band_scan (d : sched_dev) (l : list Z) (k : candidates) : M sched_state candidates :=
  match l with
  | [] => ret k
  | c :: l =>
      let! x := deref c in
      if is_suspended x then
        let k :=
          if budget_ x <? 0 then Candidates (band k) (under k) (first (over k) c)
          else if utilization_over_bandwidth d x then
            Candidates (first (band k) c) (under k) (over k)
          else Candidates (band k) (first (under k) c) (over k) in
        match over k, under k, band k with
        | Some _, Some _, Some _ => ret k
        | _, _, _ => band_scan d l k
        end
      else band_scan d l k
  end.

(** [band_scheduler_t::select_next_context] up to [yield_chance]: the context to
    run next, and whether the current one is given the chance to submit again. *)
Definition band_select_prio (idle : bool) (elapsed : Z) : M sched_state (option Z * bool) :=
  count_idle idle elapsed ;;;
  let! current := get_dev current_ in
  match current with
  | Some c =>
      let! x := deref c in
      let! d := get_dev id in
      when ((budget_ x <? 0) && utilization_over_bandwidth d x) (lower_priority c)
  | None => ret tt
  end ;;;
  let! d := get_dev id in
  let! k := band_scan d (contexts_ d) (Candidates None None None) in
  let next :=
    match under k with Some c => Some c | None =>
      match band k with Some c => Some c | None => over k end end in
  match current, next with
  | Some cur, Some nxt =>
      let! xn := deref nxt in
      let! xc := deref cur in
      ret (next, negb (nxt =? cur) && utilization_over_bandwidth d xn
                 && negb (utilization_over_bandwidth d xc)
                 && (bandwidth_used_ xc <? bandwidth_used_ xn))
  | _, _ => ret (next, false)
  end.

(** The end of [select_next_context], after [yield_chance]. *)
Definition band_select_yielded (next : option Z) : M sched_state (option Z) :=
  let! current := get_dev current_ in
  match current with
  | Some cur => let! x := deref cur in ret (if is_suspended x then Some cur else next)
  | None => fail NullDeref
  end.

(** [band_scheduler_t::select_next_context]; [yield] is what the other threads do
    while [yield_chance] spins. *)
Definition band_select_next_context (yield : M sched_state unit) (idle : bool) (elapsed : Z)
  : M sched_state (option Z) :=
  let! r := band_select_prio idle elapsed in
  if r.2 then yield ;;; band_select_yielded r.1 else ret r.1.

(** ** Submitting *)

(** [credit_scheduler_t::submit] and [band_scheduler_t::submit]: the command handed
    to [device()->bar1()->write] is the result, [duration] the time until the channel
    became inactive. The result of [dequeue] is not looked at: [cmd] stays
    uninitialised when the queue is empty. *)
Definition submit (c : Z) (duration : Z) : M sched_state (Z * command) :=
  let! x := deref c in
  let! cmd := of_option Uninitialized (ctx_dequeue x).1 in
  modify (set_ctx c (ctx_dequeue x).2) ;;;
  modify (set_dev (fun d => set_bandwidth (bandwidth_ d + duration) d)) ;;;
  modify (set_dev (fun d => set_sampler (sampler_add duration (sampler_ d)) d)) ;;;
  let! x := deref c in
  modify (set_ctx c (update_budget duration x)) ;;;
  ret (c, cmd).

(** [enqueue] of the credit and of the band scheduler: two critical sections. *)
Definition enqueue_push (c : Z) (cmd : command) : M sched_state unit :=
  let! x := deref c in modify (set_ctx c (ctx_enqueue cmd x).2).
Definition enqueue_count : M sched_state unit :=
  modify (set_dev (fun d => set_counter (u64 (counter_ d + 1)) d)).
Definition sched_enqueue (c : Z) (cmd : command) : M sched_state unit :=
  enqueue_push c cmd ;;; enqueue_count.

(** The decrement of [run]. *)
Definition counter_decrement : M sched_state unit :=
  modify (set_dev (fun d => set_counter (u64 (counter_ d - 1)) d)).

(** One round of [credit_scheduler_t::run] once [counter_] is not zero. *)
Definition credit_run (idle : bool) (elapsed duration : Z) : M sched_state (option (Z * command)) :=
  let! next := credit_select_next_context idle elapsed in
  modify (set_dev (set_current next)) ;;;
  match next with
  | Some c => counter_decrement ;;; let! f := submit c duration in ret (Some f)
  | None => ret None
  end.

(** One round of [band_scheduler_t::run]. *)
Definition band_run (yield : M sched_state unit) (idle : bool) (elapsed duration : Z)
  : M sched_state (option (Z * command)) :=
  let! next := band_select_next_context yield idle elapsed in
  modify (set_dev (set_current next)) ;;;
  match next with
  | Some c => counter_decrement ;;; let! f := submit c duration in ret (Some f)
  | None => ret None
  end.

(** [fifo_scheduler_t::enqueue] *)
Definition fifo_enqueue (c : Z) (cmd : command) : M sched_state unit :=
  modify (set_dev (fun d => set_queue (queue_ d ++ [(c, cmd)]) d)).

(** One round of [fifo_scheduler_t::run] once the queue is not empty: the command is
    popped and written, then its duration is charged. *)
Definition fifo_pop : M sched_state (option (Z * command)) :=
  let! q := get_dev queue_ in
  match q with
  | [] => ret None
  | f :: q => modify (set_dev (set_queue q)) ;;; ret (Some f)
  end.
Definition fifo_charge (c : Z) (duration : Z) : M sched_state unit :=
  modify (set_dev (fun d => set_bandwidth (bandwidth_ d + duration) d)) ;;;
  modify (set_dev (fun d => set_sampler (sampler_add duration (sampler_ d)) d)) ;;;
  let! x := deref c in
  modify (set_ctx c (update_budget duration x)).
Definition fifo_run (duration : Z) : M sched_state (option (Z * command)) :=
  let! f := fifo_pop in
  match f with
  | Some f => fifo_charge f.1 duration ;;; ret (Some f)
  | None => ret None
  end.

(** ** Well-formed scheduler states *)

(** The commands waiting in a context. *)
Definition queue (s : sched_state) (c : Z) : list command :=
  match ss_ctx s !! c with Some x => suspended_ x | None => [] end.

(** The number of commands waiting in the registered contexts. *)
Definition pending (s : sched_state) : Z :=
  sumz (fun c => Z.of_nat (length (queue s c))) (contexts_ (ss_dev s)).

(** The GPU time charged to the registered contexts in this period. *)
Definition used (s : sched_state) (c : Z) : Z :=
  match ss_ctx s !! c with Some x => bandwidth_used_ x | None => 0 end.
Definition charged (s : sched_state) : Z := sumz (used s) (contexts_ (ss_dev s)).

Record sched_wf (s : sched_state) : Prop := SchedWf {
  wf_nodup : NoDup (contexts_ (ss_dev s));
  wf_exist : forall c, c ∈ contexts_ (ss_dev s) -> is_Some (ss_ctx s !! c);
  wf_current : forall c, current_ (ss_dev s) = Some c -> c ∈ contexts_ (ss_dev s)
}.

(** [s'] has the same registered contexts as [s] (in some order), the same waiting
    commands, the same charges and the same counter. *)
Record same_work (s s' : sched_state) : Prop := SameWork {
  sw_contexts : contexts_ (ss_dev s') ≡ₚ contexts_ (ss_dev s);
  sw_ctx : ss_ctx s' = ss_ctx s;
  sw_counter : counter_ (ss_dev s') = counter_ (ss_dev s);
  sw_current : current_ (ss_dev s') = current_ (ss_dev s);
  sw_bandwidth : bandwidth_ (ss_dev s') = bandwidth_ (ss_dev s);
  sw_idle : gpu_idle_ (ss_dev s) <= gpu_idle_ (ss_dev s')
}.

(** The GPU time of the period is the sum of the charges of the contexts. *)
Record charge_ok (s : sched_state) : Prop := ChargeOk {
  co_sum : bandwidth_ (ss_dev s) = charged s;
  co_idle : 0 <= gpu_idle_ (ss_dev s);
  co_used : forall c x, ss_ctx s !! c = Some x -> 0 <= bandwidth_used_ x
}.

(** ** The interface between the policies and the threads *)

(** What a policy computes under [sched_mutex]: the next context with the flag
    asking for [yield_chance], and one round of replenishing. *)
Class SelectPolicy : Type := {
  select_prio : bool -> Z -> M sched_state (option Z * bool);
  replenish_round : M sched_state unit
}.

(** What the threads rely on: selection finds a waiting context whenever there is
    one and only reorders the list; replenishing leaves the waiting commands alone
    and resets the charges of the period. *)
Class SelectPolicyLaws (P : SelectPolicy) : Prop := {
  select_prio_spec : forall idle elapsed s, 0 <= elapsed -> sched_wf s ->
    wp no_error (select_prio idle elapsed)
      (fun r s' => same_work s s'
         /\ match r.1 with
            | Some c => c ∈ contexts_ (ss_dev s) /\ queue s c <> []
            | None => forall c, c ∈ contexts_ (ss_dev s) -> queue s c = []
            end
         /\ (r.2 = true -> is_Some (current_ (ss_dev s)) /\ is_Some r.1)) s;
  replenish_round_spec : forall s, sched_wf s ->
    wp no_error replenish_round
      (fun _ s' => contexts_ (ss_dev s') = contexts_ (ss_dev s)
         /\ dom (ss_ctx s') = dom (ss_ctx s)
         /\ (forall c, queue s' c = queue s c)
         /\ counter_ (ss_dev s') = counter_ (ss_dev s)
         /\ current_ (ss_dev s') = current_ (ss_dev s)
         /\ (charge_ok s -> charge_ok s')) s
}.

(** ** The threads of the credit and the band scheduler *)

(** Where the scheduler thread is in [run]. *)
Inductive run_pc : Type :=
| Waiting
| Yielding (next : option Z)
| Selected (c : Z)
| Submitting (c : Z).

(** The shared state, the number of enqueuers between their two critical sections,
    the scheduler thread, and the history: the commands that arrived and the commands
    that were written to the GPU. *)
Record threads : Type := Threads {
  th_sched : sched_state;
  th_inflight : Z;
  th_pc : run_pc;
  th_arrived : list (Z * command);
  th_fired : list (Z * command)
}.

(** [current_ = select_next_context(idle)] and the test on it. *)
Definition after_select (next : option Z) (t : threads) (s : sched_state) : threads :=
  Threads (set_dev (set_current next) s) (th_inflight t)
    (match next with Some c => Selected c | None => Waiting end) (th_arrived t) (th_fired t).

Section Threads.
Context {P : SelectPolicy}.

(** The steps of the scheduler thread. *)
Inductive run_step : threads -> threads -> Prop :=
| run_select t idle elapsed next s' :
    th_pc t = Waiting -> counter_ (ss_dev (th_sched t)) <> 0 -> 0 <= elapsed ->
    select_prio idle elapsed (th_sched t) = Ok ((next, false), s') ->
    run_step t (after_select next t s')
| run_yield t idle elapsed next s' :
    th_pc t = Waiting -> counter_ (ss_dev (th_sched t)) <> 0 -> 0 <= elapsed ->
    select_prio idle elapsed (th_sched t) = Ok ((next, true), s') ->
    run_step t (Threads s' (th_inflight t) (Yielding next) (th_arrived t) (th_fired t))
| run_yielded t next r s' :
    th_pc t = Yielding next -> band_select_yielded next (th_sched t) = Ok (r, s') ->
    run_step t (after_select r t s')
| run_decrement t c s' :
    th_pc t = Selected c -> counter_decrement (th_sched t) = Ok (tt, s') ->
    run_step t (Threads s' (th_inflight t) (Submitting c) (th_arrived t) (th_fired t))
| run_submit t c duration f s' :
    th_pc t = Submitting c -> 0 <= duration -> submit c duration (th_sched t) = Ok (f, s') ->
    run_step t (Threads s' (th_inflight t) Waiting (th_arrived t) (th_fired t ++ [f])).

(** The steps of the other threads: a machine starts, submits a command in two
    steps, the replenisher and the sampler run. The last two take [sched_mutex],
    which the scheduler thread holds while it yields. The queues live in memory,
    so they hold fewer than [2^64] commands. *)
Inductive env_step : threads -> threads -> Prop :=
| env_register t c s' :
    ss_ctx (th_sched t) !! c = None -> c ∉ contexts_ (ss_dev (th_sched t)) ->
    (forall next, th_pc t <> Yielding next) ->
    register_context c (set_ctx c sched_ctx_new (th_sched t)) = Ok (tt, s') ->
    env_step t (Threads s' (th_inflight t) (th_pc t) (th_arrived t) (th_fired t))
| env_push t c cmd s' :
    c ∈ contexts_ (ss_dev (th_sched t)) -> pending (th_sched t) < UINT64_MAX ->
    enqueue_push c cmd (th_sched t) = Ok (tt, s') ->
    env_step t (Threads s' (th_inflight t + 1) (th_pc t) (th_arrived t ++ [(c, cmd)]) (th_fired t))
| env_count t s' :
    0 < th_inflight t -> enqueue_count (th_sched t) = Ok (tt, s') ->
    env_step t (Threads s' (th_inflight t - 1) (th_pc t) (th_arrived t) (th_fired t))
| env_replenish t s' :
    (forall next, th_pc t <> Yielding next) -> replenish_round (th_sched t) = Ok (tt, s') ->
    env_step t (Threads s' (th_inflight t) (th_pc t) (th_arrived t) (th_fired t))
| env_sample t s' :
    (forall next, th_pc t <> Yielding next) -> sampler_round (th_sched t) = Ok (tt, s') ->
    env_step t (Threads s' (th_inflight t) (th_pc t) (th_arrived t) (th_fired t)).

Definition sched_step (t t' : threads) : Prop := run_step t t' \/ env_step t t'.

(** The states the threads reach from a scheduler without contexts. *)
Definition sched_init (period : Z) : threads :=
  Threads (SchedState (sched_dev_new period) ∅) 0 Waiting [] [].
Definition sched_reachable (period : Z) (t : threads) : Prop :=
  rtc sched_step (sched_init period) t.

End Threads.

(** The two instances. *)
#[export] Instance credit_policy : SelectPolicy := {|
  select_prio idle elapsed :=
    let! next := credit_select_next_context idle elapsed in ret (next, false);
  replenish_round := credit_replenish
|}.

Definition band_policy : SelectPolicy := {|
  select_prio := band_select_prio;
  replenish_round := band_replenish
|}.

(** The commands of context [c] in a history. *)
Definition of_context (c : Z) (h : list (Z * command)) : list command :=
  snd <$> filter (fun f => f.1 = c) h.

(** ** Lemmas *)

Lemma wp_deref E c x (Q : sched_ctx -> sched_state -> Prop) s :
  ss_ctx s !! c = Some x -> Q x s -> wp E (deref c) Q s.
Proof. intros Hx HQ. unfold deref, wp, bind, gets, of_option, ret. simpl. by rewrite Hx. Qed.

Lemma erase_perm c l : NoDup l -> c ∈ l -> erase c l ++ [c] ≡ₚ l.
Proof.
  intros Hnd Hin. apply NoDup_Permutation; [|done|].
  - apply NoDup_app. split_and!.
    + by apply NoDup_filter.
    + intros x Hx. apply list_elem_of_filter in Hx as [? _]. intros ?%list_elem_of_singleton. done.
    + apply NoDup_singleton.
  - intros x. rewrite elem_of_app, list_elem_of_singleton. unfold erase.
    rewrite list_elem_of_filter. destruct (decide (x = c)); naive_solver.
Qed.

Lemma queue_suspended s c x : ss_ctx s !! c = Some x -> queue s c = suspended_ x.
Proof. intros H. unfold queue. by rewrite H. Qed.

Lemma queue_none s c : ss_ctx s !! c = None -> queue s c = [].
Proof. intros H. unfold queue. by rewrite H. Qed.

Lemma is_suspended_queue s c x :
  ss_ctx s !! c = Some x -> is_suspended x = true <-> queue s c <> [].
Proof.
  intros Hx. rewrite (queue_suspended s c x Hx). unfold is_suspended.
  destruct (suspended_ x); naive_solver.
Qed.

Lemma not_suspended_queue s c x :
  ss_ctx s !! c = Some x -> is_suspended x = false -> queue s c = [].
Proof.
  intros Hx. rewrite (queue_suspended s c x Hx). unfold is_suspended. by destruct (suspended_ x).
Qed.

#[local] Instance same_work_refl : Reflexive same_work.
Proof. intros s. by constructor. Qed.

#[local] Instance same_work_trans : Transitive same_work.
Proof.
  intros s1 s2 s3 [] []. constructor; try congruence; by etrans.
Qed.

Lemma same_work_wf s s' : same_work s s' -> sched_wf s -> sched_wf s'.
Proof.
  intros [Hc Hx Hn Hcur Hb _] [Hnd Hex Hcu]. constructor.
  - by rewrite Hc.
  - intros c. rewrite Hc, Hx. apply Hex.
  - intros c. rewrite Hcur, Hc. apply Hcu.
Qed.

Lemma same_work_queue s s' c : same_work s s' -> queue s' c = queue s c.
Proof. intros [_ Hx _ _ _ _]. unfold queue. by rewrite Hx. Qed.

Lemma count_idle_same idle elapsed s :
  0 <= elapsed -> wp no_error (count_idle idle elapsed) (fun _ s' => same_work s s') s.
Proof.
  intros He. unfold count_idle. apply wp_when; intros _; [apply wp_modify|done].
  constructor; simpl; done || lia.
Qed.

Lemma lower_priority_same c s :
  sched_wf s -> c ∈ contexts_ (ss_dev s) ->
  wp no_error (lower_priority c) (fun _ s' => same_work s s') s.
Proof.
  intros Hwf Hc. apply wp_modify. constructor; simpl; try done.
  apply erase_perm; [apply Hwf | done].
Qed.

(** The first suspended context of the list. *)
Lemma first_suspended_spec s l :
  (forall c, c ∈ l -> is_Some (ss_ctx s !! c)) ->
  wp no_error (first_suspended l)
    (fun r s' => s' = s /\ match r with
       | Some c => queue s c <> [] /\ exists pre post, l = pre ++ c :: post
                     /\ forall c', c' ∈ pre -> queue s c' = []
       | None => forall c, c ∈ l -> queue s c = [] end) s.
Proof.
  induction l as [|c l IH]; intros Hex; simpl.
  - apply wp_ret. split; [done|]. intros c Hc. by apply not_elem_of_nil in Hc.
  - destruct (Hex c) as [x Hx]; [left|].
    apply wp_bind, (wp_deref _ _ x); [done|].
    destruct (is_suspended x) eqn:Hs.
    + apply wp_ret. split; [done|]. split; [by apply (is_suspended_queue s c x Hx)|].
      exists [], l. split; [done|]. intros c' Hc. by apply not_elem_of_nil in Hc.
    + pose proof (not_suspended_queue s c x Hx Hs) as Hq.
      eapply wp_mono; [apply IH; intros; apply Hex; by right|]. intros [c'|] s' [-> Hr]; (split; [done|]).
      * destruct Hr as (? & pre & post & -> & Hpre). split; [done|]. exists (c :: pre), post.
        split; [done|]. intros c2 [-> | Hc]%elem_of_cons; [done|by apply Hpre].
      * intros c' [-> | Hc]%elem_of_cons; [done|by apply Hr].
Qed.

(** [band_scheduler_t] ranks the waiting contexts: under their share, with budget
    left but over their share of the bandwidth, out of budget. *)
Definition rank (d : sched_dev) (x : sched_ctx) : Z :=
  if budget_ x <? 0 then 2 else if utilization_over_bandwidth d x then 1 else 0.

Definition slot (k : candidates) (r : Z) : option Z :=
  if r =? 0 then under k else if r =? 1 then band k else over k.

(** Every candidate is a waiting context of the list, of the rank of its slot. *)
Definition cand_ok (s : sched_state) (d : sched_dev) (l : list Z) (k : candidates) : Prop :=
  forall r c, 0 <= r <= 2 -> slot k r = Some c ->
  c ∈ l /\ exists x, ss_ctx s !! c = Some x /\ is_suspended x = true /\ rank d x = r.

(** One round of the loop, on a waiting context. *)
Definition scan_one (d : sched_dev) (c : Z) (x : sched_ctx) (k : candidates) : candidates :=
  if budget_ x <? 0 then Candidates (band k) (under k) (first (over k) c)
  else if utilization_over_bandwidth d x then Candidates (first (band k) c) (under k) (over k)
  else Candidates (band k) (first (under k) c) (over k).

Lemma rank_range d x : 0 <= rank d x <= 2.
Proof. unfold rank. repeat case_if; lia. Qed.

Lemma slot_scan_one d c x k r :
  0 <= r <= 2 ->
  slot (scan_one d c x k) r = if r =? rank d x then first (slot k r) c else slot k r.
Proof.
  intros Hr. assert (r = 0 \/ r = 1 \/ r = 2) as [-> | [-> | ->]] by lia;
    unfold scan_one, rank; destruct (budget_ x <? 0), (utilization_over_bandwidth d x); reflexivity.
Qed.

Lemma scan_one_ok s d l c x k :
  c ∈ l -> ss_ctx s !! c = Some x -> is_suspended x = true ->
  cand_ok s d l k -> cand_ok s d l (scan_one d c x k).
Proof.
  intros Hc Hx Hs Hk r c' Hr. rewrite slot_scan_one by done.
  destruct (Z.eqb_spec r (rank d x)) as [->|]; [|by apply Hk].
  unfold first. destruct (slot k (rank d x)) eqn:E; [intros [= <-]; by apply Hk|].
  intros [= <-]. split; [done|]. by exists x.
Qed.

Lemma scan_one_mono d c x k r :
  0 <= r <= 2 -> is_Some (slot k r) -> is_Some (slot (scan_one d c x k) r).
Proof.
  intros Hr Hk. rewrite slot_scan_one by done. case_match; [|done]. by destruct (slot k r).
Qed.

Lemma scan_one_self d c x k : is_Some (slot (scan_one d c x k) (rank d x)).
Proof.
  rewrite slot_scan_one by apply rank_range. rewrite Z.eqb_refl. by destruct (slot k (rank d x)).
Qed.

Lemma band_scan_spec s d l0 l k :
  (forall c, c ∈ l -> is_Some (ss_ctx s !! c)) -> l ⊆ l0 -> cand_ok s d l0 k ->
  wp no_error (band_scan d l k)
    (fun k' s' => s' = s /\ cand_ok s d l0 k'
       /\ (forall r, 0 <= r <= 2 -> is_Some (slot k r) -> is_Some (slot k' r))
       /\ (forall c x, c ∈ l -> ss_ctx s !! c = Some x -> is_suspended x = true ->
           is_Some (slot k' (rank d x)))) s.
Proof.
  revert k. induction l as [|c l IH]; intros k Hex Hsub Hk; simpl.
  - apply wp_ret. split_and!; [done|done|done|]. intros c x Hc. by apply not_elem_of_nil in Hc.
  - destruct (Hex c) as [x Hx]; [left|].
    assert (Hex' : forall c', c' ∈ l -> is_Some (ss_ctx s !! c')) by (intros; apply Hex; by right).
    assert (Hsub' : l ⊆ l0) by (intros ??; apply Hsub; by right).
    apply wp_bind, (wp_deref _ _ x); [done|].
    destruct (is_suspended x) eqn:Hs.
    + assert (Hc0 : c ∈ l0) by (apply Hsub; left). fold (scan_one d c x k).
      set (k1 := scan_one d c x k).
      assert (Hk1 : cand_ok s d l0 k1) by (by apply scan_one_ok).
      assert (Hrest : wp no_error (band_scan d l k1)
        (fun k' s' => s' = s /\ cand_ok s d l0 k'
           /\ (forall r, 0 <= r <= 2 -> is_Some (slot k r) -> is_Some (slot k' r))
           /\ (forall c' x', c' ∈ c :: l -> ss_ctx s !! c' = Some x' -> is_suspended x' = true ->
               is_Some (slot k' (rank d x')))) s).
      { eapply wp_mono; [by apply IH|]. intros k' s' (-> & Hk' & Hm & Hl).
        split_and!; [done|done| |].
        - intros r Hr Hk2. apply Hm; [done|]. by apply scan_one_mono.
        - intros c' x' [-> | Hc]%elem_of_cons Hx' Hs'; [|by eapply Hl].
          simplify_eq. apply Hm; [apply rank_range|]. apply scan_one_self. }
      destruct (over k1) eqn:Eo, (under k1) eqn:Eu, (band k1) eqn:Eb; try exact Hrest.
      assert (Hall : forall r, 0 <= r <= 2 -> is_Some (slot k1 r)).
      { intros r Hr. unfold slot. repeat case_if; rewrite ?Eo, ?Eu, ?Eb; done. }
      apply wp_ret. split_and!; [done|done|by intros; apply Hall|].
      intros. apply Hall, rank_range.
    + eapply wp_mono; [by apply IH|].
      intros k' s' (-> & Hk' & Hm & Hl). split_and!; [done|done|done|].
      intros c' x' [-> | Hc]%elem_of_cons Hx' Hs'; [congruence|by eapply Hl].
Qed.

(** What both selections establish, from a list in any order. *)
Definition select_ok (s : sched_state) (r : option Z) : Prop :=
  match r with
  | Some c => c ∈ contexts_ (ss_dev s) /\ queue s c <> []
  | None => forall c, c ∈ contexts_ (ss_dev s) -> queue s c = []
  end.

Lemma select_ok_same s s' r : same_work s s' -> select_ok s' r -> select_ok s r.
Proof.
  intros Hs. pose proof (sw_contexts _ _ Hs) as Hc. destruct r as [c|]; simpl.
  - by rewrite (same_work_queue _ _ c Hs), Hc.
  - intros H c Hin. rewrite <- (same_work_queue _ _ c Hs). apply H. by rewrite Hc.
Qed.

Lemma credit_select_spec idle elapsed s :
  0 <= elapsed -> sched_wf s ->
  wp no_error (credit_select_next_context idle elapsed)
    (fun r s' => same_work s s' /\ select_ok s r) s.
Proof.
  intros He Hwf. unfold credit_select_next_context.
  apply wp_bind. eapply wp_mono; [by apply count_idle_same|]. intros [] s1 H1.
  pose proof (same_work_wf _ _ H1 Hwf) as Hwf1. apply wp_bind, wp_gets, wp_bind.
  apply (wp_mono _ _ (fun _ s' => same_work s s')).
  - destruct (current_ (ss_dev s1)) as [c|] eqn:Hcur; [|by apply wp_ret].
    destruct (wf_exist s1 Hwf1 c) as [x Hx]; [by apply wf_current|].
    apply wp_bind, (wp_deref _ _ x); [done|]. apply wp_when; intros _; [|done].
    eapply wp_mono; [apply lower_priority_same; [done|by apply wf_current]|].
    intros [] s2 H2. by etrans.
  - intros [] s2 H2. apply wp_bind, wp_gets.
    eapply wp_mono; [apply first_suspended_spec, (wf_exist _ (same_work_wf _ _ H2 Hwf))|].
    intros r s3 [-> Hr]. split; [done|]. apply (select_ok_same _ _ _ H2).
    destruct r; [|done]. destruct Hr as (? & pre & post & Hl & _). split; [|done].
    rewrite Hl. apply elem_of_app. right. left.
Qed.

Lemma utilization_same s s' x :
  same_work s s' -> previous_bandwidth_ (ss_dev s') = previous_bandwidth_ (ss_dev s) ->
  utilization_over_bandwidth (ss_dev s') x = utilization_over_bandwidth (ss_dev s) x.
Proof.
  intros H Hp. unfold utilization_over_bandwidth.
  by rewrite (sw_bandwidth _ _ H), Hp, (sw_contexts _ _ H).
Qed.

(** The chosen context is the best ranked of the waiting ones. *)
Definition best_ranked (s : sched_state) (r : option Z) : Prop :=
  forall c x, c ∈ contexts_ (ss_dev s) -> ss_ctx s !! c = Some x -> is_suspended x = true ->
  exists n xn, r = Some n /\ ss_ctx s !! n = Some xn /\ rank (ss_dev s) xn <= rank (ss_dev s) x.

Definition chosen (k : candidates) : option Z :=
  match under k with Some c => Some c | None =>
    match band k with Some c => Some c | None => over k end end.

Lemma chosen_slot k r :
  0 <= r <= 2 -> is_Some (slot k r) ->
  exists n r', chosen k = Some n /\ slot k r' = Some n /\ 0 <= r' <= r.
Proof.
  intros Hr [c Hc]. unfold chosen. destruct (under k) as [n|] eqn:Eu.
  { exists n, 0. split_and!; done || lia. }
  assert (r <> 0) by (intros ->; unfold slot in Hc; simpl in Hc; congruence).
  destruct (band k) as [n|] eqn:Eb.
  { exists n, 1. split_and!; done || lia. }
  assert (r <> 1) by (intros ->; unfold slot in Hc; simpl in Hc; congruence).
  assert (r = 2) as -> by lia. exists c, 2. split_and!; done || lia.
Qed.

Lemma chosen_ok s d k :
  cand_ok s d (contexts_ (ss_dev s)) k ->
  (forall c, c ∈ contexts_ (ss_dev s) ->
     queue s c = [] \/ exists r, 0 <= r <= 2 /\ is_Some (slot k r)) ->
  select_ok s (chosen k).
Proof.
  intros Hk Hall. destruct (chosen k) as [n|] eqn:En; simpl.
  - assert (exists r, 0 <= r <= 2 /\ slot k r = Some n) as (r & Hr & Hs).
    { unfold chosen in En. destruct (under k) eqn:Eu; [by exists 0; simplify_eq; split; [lia|]|].
      destruct (band k) eqn:Eb; [by exists 1; simplify_eq; split; [lia|]|]. by exists 2. }
    destruct (Hk r n Hr Hs) as (Hin & x & Hx & Hsu & _). split; [done|].
    by apply (is_suspended_queue s n x).
  - intros c Hc. destruct (Hall c Hc) as [?|(r & Hr & Hsl)]; [done|].
    destruct (chosen_slot k r Hr Hsl) as (n & ? & ? & _). congruence.
Qed.

Lemma band_select_spec idle elapsed s :
  0 <= elapsed -> sched_wf s ->
  wp no_error (band_select_prio idle elapsed)
    (fun r s' => same_work s s' /\ select_ok s r.1 /\ best_ranked s r.1
       /\ (r.2 = true -> is_Some (current_ (ss_dev s)) /\ is_Some r.1)) s.
Proof.
  intros He Hwf. unfold band_select_prio.
  set (R := fun (_ : unit) s' => same_work s s'
    /\ previous_bandwidth_ (ss_dev s') = previous_bandwidth_ (ss_dev s)).
  apply wp_bind. apply (wp_mono _ _ R).
  { unfold count_idle. apply wp_when; intros _; [apply wp_modify|by split].
    split; [|done]. constructor; simpl; done || lia. }
  intros [] s1 [H1 P1]. pose proof (same_work_wf _ _ H1 Hwf) as Hwf1.
  apply wp_bind, wp_gets, wp_bind. apply (wp_mono _ _ R).
  - destruct (current_ (ss_dev s1)) as [c|] eqn:Hcur; [|by apply wp_ret].
    destruct (wf_exist s1 Hwf1 c) as [x Hx]; [by apply wf_current|].
    apply wp_bind, (wp_deref _ _ x); [done|]. apply wp_bind, wp_gets. apply wp_when; intros _; [|done].
    apply wp_modify. split; [|done]. etrans; [exact H1|]. constructor; simpl; try done.
    apply erase_perm; [apply Hwf1|by apply wf_current].
  - intros [] s2 [H2 P2]. pose proof (same_work_wf _ _ H2 Hwf) as Hwf2.
    rewrite (sw_current _ _ H1). apply wp_bind, wp_gets, wp_bind. simpl.
    eapply wp_mono; [apply (band_scan_spec s2 _ (contexts_ (ss_dev s2)));
      [apply (wf_exist _ Hwf2)|done|]|].
    { intros r c Hr. unfold slot. by repeat case_if. }
    intros k s3 (-> & Hk & _ & Hl). fold (chosen k). set (next := chosen k).
    assert (Hrank : forall x, rank (ss_dev s2) x = rank (ss_dev s) x).
    { intros x. unfold rank. by rewrite (utilization_same s s2). }
    assert (Hbest : best_ranked s next).
    { intros c x Hc Hx Hs. rewrite <- (sw_ctx _ _ H2) in *. rewrite <- (sw_contexts _ _ H2) in Hc.
      destruct (chosen_slot k (rank (ss_dev s2) x)) as (n & r' & En & Es & Hr');
        [apply rank_range|by eapply Hl|]. pose proof (rank_range (ss_dev s2) x).
      destruct (Hk r' n) as (_ & xn & Hxn & _ & Hrn); [lia|done|].
      exists n, xn. split_and!; [done|done|]. rewrite <- !Hrank. lia. }
    assert (Hnext : select_ok s next).
    { apply (select_ok_same _ _ _ H2), (chosen_ok _ (ss_dev s2)); [done|]. intros c Hc.
      destruct (wf_exist _ Hwf2 c Hc) as [x Hx]. destruct (is_suspended x) eqn:Hs.
      - right. exists (rank (ss_dev s2) x). split; [apply rank_range|]. by eapply Hl.
      - left. by apply (not_suspended_queue _ _ x). }
    destruct (current_ (ss_dev s)) as [cur|] eqn:Hcur, next as [nxt|]; try by apply wp_ret.
    assert (Hin : forall c, c ∈ contexts_ (ss_dev s) -> is_Some (ss_ctx s2 !! c)).
    { intros c Hc. apply (wf_exist _ Hwf2). by rewrite (sw_contexts _ _ H2). }
    destruct (Hin nxt) as [xn Hxn]; [by apply Hnext|].
    destruct (Hin cur) as [xc Hxc]; [by apply wf_current|].
    apply wp_bind, (wp_deref _ _ xn); [done|]. apply wp_bind, (wp_deref _ _ xc); [done|].
    apply wp_ret. simpl. eauto.
Qed.

(** Updating every registered context. *)
Lemma for_contexts_spec f s :
  sched_wf s ->
  wp no_error (for_contexts f)
    (fun _ s' => ss_dev s' = ss_dev s /\ forall c, ss_ctx s' !! c =
       if bool_decide (c ∈ contexts_ (ss_dev s)) then f <$> ss_ctx s !! c else ss_ctx s !! c) s.
Proof.
  intros [Hnd Hex _]. unfold for_contexts, get_dev. apply wp_bind, wp_gets.
  apply (wp_for_each _ (fun pre s' => ss_dev s' = ss_dev s /\ forall c, ss_ctx s' !! c =
      if bool_decide (c ∈ pre) then f <$> ss_ctx s !! c else ss_ctx s !! c)).
  - split; [done|]. intros c. by rewrite bool_decide_false by apply not_elem_of_nil.
  - intros pre c post s' Hl (Hd & Hx).
    assert (Hpre : c ∉ pre).
    { rewrite Hl in Hnd. apply NoDup_app in Hnd as (_ & Hnd & _). intros Hin.
      apply (Hnd c Hin). left. }
    destruct (Hex c) as [x Hcx].
    { rewrite Hl, elem_of_app. right. left. }
    apply wp_bind, (wp_deref _ _ x); [by rewrite Hx, bool_decide_false|].
    apply wp_modify. split; [done|]. intros c'. simpl.
    destruct (decide (c = c')) as [->|Hne].
    + rewrite lookup_insert_eq, bool_decide_true; [by rewrite Hcx|].
      rewrite elem_of_app. right. left.
    + rewrite lookup_insert_ne by done. rewrite Hx. rewrite (bool_decide_ext (c' ∈ pre ++ [c]) (c' ∈ pre)); [done|].
      rewrite elem_of_app, list_elem_of_singleton. naive_solver.
  - by intros s' [??].
Qed.

(** The body shared by the two replenishing loops, up to the threshold. *)
Definition replenish_core (threshold : sched_dev -> Z -> Z) : M sched_state unit :=
  let! d := get_dev id in
  match contexts_ d with
  | [] => ret tt
  | _ :: _ =>
      let size := Z.of_nat (length (contexts_ d)) in
      let period := bandwidth_ d + gpu_idle_ d in
      let defaults := Z.quot (period_ d) size in
      modify (set_dev (set_previous_bandwidth period)) ;;;
      when (negb (period =? 0))
        (let budget := Z.quot period size in
         for_contexts (ctx_replenish budget (threshold d budget) defaults (bandwidth_ d =? 0))) ;;;
      modify (set_dev (set_bandwidth 0)) ;;;
      modify (set_dev (set_gpu_idle 0))
  end.

Lemma charged_nonneg s :
  (forall c x, ss_ctx s !! c = Some x -> 0 <= bandwidth_used_ x) -> 0 <= charged s.
Proof.
  intros H. apply sumz_nonneg. intros c _. unfold used.
  destruct (ss_ctx s !! c) eqn:Hc; [by eapply H|lia].
Qed.

Lemma charged_zero s :
  (forall c x, c ∈ contexts_ (ss_dev s) -> ss_ctx s !! c = Some x -> bandwidth_used_ x = 0) ->
  charged s = 0.
Proof.
  intros H. apply sumz_zero. intros c Hc. unfold used.
  destruct (ss_ctx s !! c) eqn:Hx; [by eapply H|done].
Qed.

(** What a replenishing round leaves alone. *)
Definition replenished (s s' : sched_state) : Prop :=
  contexts_ (ss_dev s') = contexts_ (ss_dev s)
  /\ dom (ss_ctx s') = dom (ss_ctx s)
  /\ (forall c, queue s' c = queue s c)
  /\ counter_ (ss_dev s') = counter_ (ss_dev s)
  /\ current_ (ss_dev s') = current_ (ss_dev s)
  /\ (charge_ok s -> charge_ok s').

Lemma dom_map_if (P : Z -> bool) (f : sched_ctx -> sched_ctx) (m m' : gmap Z sched_ctx) :
  (forall c, m' !! c = if P c then f <$> m !! c else m !! c) -> dom m' = dom m.
Proof.
  intros H. apply set_eq. intros c. rewrite !elem_of_dom, H.
  destruct (P c); [by rewrite fmap_is_Some|done].
Qed.

Lemma replenish_core_spec threshold s :
  sched_wf s -> wp no_error (replenish_core threshold) (fun _ s' => replenished s s') s.
Proof.
  intros Hwf. unfold replenish_core. apply wp_bind, wp_gets. simpl.
  destruct (contexts_ (ss_dev s)) as [|c0 l0] eqn:Hl; [by apply wp_ret|]. rewrite <- Hl.
  apply wp_bind, wp_modify. set (s1 := set_dev _ s).
  assert (Hwf1 : sched_wf s1) by (destruct Hwf; by constructor).
  apply wp_bind, wp_when.
  - intros Hp. eapply wp_mono; [by apply for_contexts_spec|]. intros [] s2 [Hd Hx].
    apply wp_bind, wp_modify, wp_modify. unfold replenished. cbn [ss_dev ss_ctx set_dev]. rewrite Hd.
    change (ss_ctx s1) with (ss_ctx s) in Hx. split_and!; try done.
    + eapply dom_map_if, Hx.
    + intros c. unfold queue. cbn [ss_dev ss_ctx set_dev]. rewrite Hx.
      case_bool_decide; [|done]. by destruct (ss_ctx s !! c).
    + intros [Hs Hi Hu]. constructor; [|done|].
      * symmetry. apply charged_zero. cbn [ss_dev ss_ctx set_dev]. rewrite Hd. intros c x Hc.
        rewrite Hx, bool_decide_true by done. by intros (y & _ & ->)%fmap_Some.
      * cbn [ss_dev ss_ctx set_dev]. intros c x. rewrite Hx. case_bool_decide; [|apply Hu].
        by intros (y & _ & ->)%fmap_Some.
  - intros Hp. apply wp_bind, wp_modify, wp_modify. unfold replenished. split_and!; try done.
    intros [Hs Hi Hu]. apply negb_false_iff, Z.eqb_eq in Hp.
    pose proof (charged_nonneg s Hu). constructor; [|done|done].
    change (0 = charged s). lia.
Qed.

#[export] Instance credit_policy_laws : SelectPolicyLaws credit_policy.
Proof.
  constructor; intros.
  - apply wp_bind. eapply wp_mono; [by apply credit_select_spec|]. intros r s' [? ?].
    by apply wp_ret.
  - apply (replenish_core_spec (fun _ budget => budget * 2)). done.
Qed.

Lemma band_policy_laws : SelectPolicyLaws band_policy.
Proof.
  constructor; intros.
  - eapply wp_mono; [by apply band_select_spec|]. intros r s' (? & ? & _ & ?). done.
  - apply (replenish_core_spec (fun d _ => period_ d)). done.
Qed.

(** ** The invariant of the threads *)

Definition runnable (s : sched_state) (c : Z) : Prop :=
  c ∈ contexts_ (ss_dev s) /\ queue s c <> [].

Definition decremented (p : run_pc) : Z := match p with Submitting _ => 1 | _ => 0 end.

Definition pc_ok (s : sched_state) (p : run_pc) : Prop :=
  match p with
  | Waiting => True
  | Yielding next => is_Some (current_ (ss_dev s))
      /\ (exists c, next = Some c /\ runnable s c) /\ 0 < counter_ (ss_dev s)
  | Selected c => runnable s c /\ 0 < counter_ (ss_dev s)
  | Submitting c => runnable s c
  end.

Record threads_inv (t : threads) : Prop := ThreadsInv {
  ti_wf : sched_wf (th_sched t);
  ti_charge : charge_ok (th_sched t);
  ti_inflight : 0 <= th_inflight t;
  ti_counter : 0 <= counter_ (ss_dev (th_sched t));
  ti_count : counter_ (ss_dev (th_sched t)) + th_inflight t + decremented (th_pc t)
             = pending (th_sched t);
  ti_bound : pending (th_sched t) <= UINT64_MAX;
  ti_pc : pc_ok (th_sched t) (th_pc t);
  ti_fifo : forall c, of_context c (th_fired t) ++ queue (th_sched t) c
                      = of_context c (th_arrived t)
}.

Lemma pc_ok_mono s s' p :
  (forall c, runnable s c -> runnable s' c) -> current_ (ss_dev s') = current_ (ss_dev s) ->
  counter_ (ss_dev s) <= counter_ (ss_dev s') -> pc_ok s p -> pc_ok s' p.
Proof.
  intros Hr Hcur Hn. destruct p; simpl; rewrite ?Hcur.
  - done.
  - intros (? & (c & ? & ?) & ?). split_and!; [done|exists c; auto|lia].
  - intros [? ?]. split; [auto|lia].
  - auto.
Qed.

Lemma pending_ext s s' :
  contexts_ (ss_dev s') ≡ₚ contexts_ (ss_dev s) ->
  (forall c, c ∈ contexts_ (ss_dev s) -> queue s' c = queue s c) -> pending s' = pending s.
Proof.
  intros Hc Hq. unfold pending. rewrite Hc. apply sumz_ext. intros c Hin. by rewrite Hq.
Qed.

Lemma charged_ext s s' :
  contexts_ (ss_dev s') ≡ₚ contexts_ (ss_dev s) -> ss_ctx s' = ss_ctx s -> charged s' = charged s.
Proof.
  intros Hc Hx. unfold charged. rewrite Hc. apply sumz_ext. intros c _. unfold used. by rewrite Hx.
Qed.

Lemma same_work_pending s s' : same_work s s' -> pending s' = pending s.
Proof.
  intros H. apply pending_ext; [apply H|]. intros c _. by apply same_work_queue.
Qed.

Lemma same_work_charge s s' : same_work s s' -> charge_ok s -> charge_ok s'.
Proof.
  intros [Hc Hx _ _ Hb Hi] [Hs Hid Hu]. constructor.
  - rewrite Hb, Hs. symmetry. by apply charged_ext.
  - lia.
  - by rewrite Hx.
Qed.

Lemma same_work_runnable s s' c : same_work s s' -> runnable s c -> runnable s' c.
Proof.
  intros H [Hc Hq]. split; [by rewrite (sw_contexts _ _ H)|by rewrite (same_work_queue _ _ _ H)].
Qed.

(** A context that is waiting somewhere makes [pending] positive, and conversely. *)
Lemma pending_pos s : 0 < pending s -> exists c, runnable s c.
Proof.
  intros (c & Hc & Hl)%sumz_pos. exists c. split; [done|]. intros Hq. rewrite Hq in Hl. done.
Qed.

Lemma pending_zero s : pending s = 0 -> forall c, c ∈ contexts_ (ss_dev s) -> queue s c = [].
Proof.
  intros Hp c Hc. destruct (queue s c) as [|a l] eqn:Hq; [done|]. exfalso. revert Hp.
  unfold pending. apply list_elem_of_split in Hc as (l1 & l2 & ->).
  rewrite sumz_app, sumz_cons, Hq. simpl length.
  set (f := fun c => Z.of_nat (length (queue s c))).
  assert (0 <= sumz f l1) by (apply sumz_nonneg; unfold f; lia).
  assert (0 <= sumz f l2) by (apply sumz_nonneg; unfold f; lia). lia.
Qed.

Lemma queue_set_ctx s c x c' :
  queue (set_ctx c x s) c' = if decide (c = c') then suspended_ x else queue s c'.
Proof.
  unfold queue, set_ctx. simpl. destruct (decide (c = c')) as [->|].
  - by rewrite lookup_insert_eq.
  - by rewrite lookup_insert_ne.
Qed.

Lemma used_set_ctx s c x c' :
  used (set_ctx c x s) c' = if decide (c = c') then bandwidth_used_ x else used s c'.
Proof.
  unfold used, set_ctx. simpl. destruct (decide (c = c')) as [->|].
  - by rewrite lookup_insert_eq.
  - by rewrite lookup_insert_ne.
Qed.

(** Replacing a registered context by another value. *)
Lemma pending_set_ctx s c x :
  sched_wf s -> c ∈ contexts_ (ss_dev s) ->
  pending (set_ctx c x s)
  = pending s - Z.of_nat (length (queue s c)) + Z.of_nat (length (suspended_ x)).
Proof.
  intros Hwf Hc. unfold pending. cbn [ss_dev set_ctx].
  rewrite (sumz_update (fun c => Z.of_nat (length (queue s c))) _ _ c);
    [|apply Hwf|done|].
  - rewrite queue_set_ctx, decide_True by done. lia.
  - intros c' Hne. by rewrite queue_set_ctx, decide_False by done.
Qed.

Lemma charged_set_ctx s c x :
  sched_wf s -> c ∈ contexts_ (ss_dev s) ->
  charged (set_ctx c x s) = charged s - used s c + bandwidth_used_ x.
Proof.
  intros Hwf Hc. unfold charged. cbn [ss_dev set_ctx].
  rewrite (sumz_update (used s) _ _ c); [|apply Hwf|done|].
  - rewrite used_set_ctx, decide_True by done. lia.
  - intros c' Hne. by rewrite used_set_ctx, decide_False by done.
Qed.

Lemma set_ctx_wf s c x : sched_wf s -> c ∈ contexts_ (ss_dev s) -> sched_wf (set_ctx c x s).
Proof.
  intros [Hnd Hex Hcu] Hc. constructor; [done| |done]. intros c' Hc'. simpl.
  destruct (decide (c = c')) as [->|]; [by rewrite lookup_insert_eq|].
  rewrite lookup_insert_ne by done. by apply Hex.
Qed.

Lemma of_context_snoc c h c' cmd :
  of_context c (h ++ [(c', cmd)])
  = of_context c h ++ (if decide (c' = c) then [cmd] else []).
Proof.
  unfold of_context. rewrite filter_app, fmap_app. f_equal.
  rewrite filter_cons, filter_nil. simpl. by destruct (decide (c' = c)).
Qed.

Lemma enqueue_push_eq s c cmd x :
  ss_ctx s !! c = Some x ->
  enqueue_push c cmd s = Ok (tt, set_ctx c (set_suspended (suspended_ x ++ [cmd]) x) s).
Proof.
  intros Hx. unfold enqueue_push, deref, bind, gets, of_option. simpl. by rewrite Hx.
Qed.

Lemma submit_eq s c duration x cmd rest :
  ss_ctx s !! c = Some x -> suspended_ x = cmd :: rest ->
  exists s', submit c duration s = Ok ((c, cmd), s')
    /\ ss_dev s' = set_sampler (sampler_add duration (sampler_ (ss_dev s)))
                     (set_bandwidth (bandwidth_ (ss_dev s) + duration) (ss_dev s))
    /\ ss_ctx s' = <[c := update_budget duration (set_suspended rest x)]> (ss_ctx s).
Proof.
  intros Hx Hq. unfold submit, deref, bind, gets, of_option, modify, ret, ctx_dequeue. simpl.
  rewrite Hx, Hq. simpl. rewrite lookup_insert_eq. eexists. split_and!; [done|done|].
  simpl. by rewrite insert_insert_eq.
Qed.

Lemma sampler_round_spec s :
  sched_wf s -> wp no_error sampler_round (fun _ s' => replenished s s') s.
Proof.
  intros Hwf. unfold sampler_round, get_dev. apply wp_bind, wp_gets, wp_bind, wp_gets.
  destruct (contexts_ (ss_dev s)) as [|c0 l0] eqn:Hl; [by apply wp_ret|]. apply wp_bind.
  apply (wp_mono _ _ (fun _ s' => ss_dev s' = ss_dev s /\ dom (ss_ctx s') = dom (ss_ctx s)
    /\ (forall c, queue s' c = queue s c) /\ (forall c, used s' c = used s c))).
  - destruct (negb _); [|by apply wp_ret]. apply wp_bind.
    eapply wp_mono; [by apply for_contexts_spec|]. intros [] s1 [Hd Hx]. apply wp_ret.
    split_and!; [done|by eapply dom_map_if, Hx| |]; intros c; unfold queue, used; rewrite Hx;
      case_bool_decide; try done; by destruct (ss_ctx s !! c).
  - intros m s1 (Hd & Hdom & Hq & Hu). apply wp_modify. unfold replenished.
    cbn [ss_dev ss_ctx set_dev]. rewrite Hd. split_and!; try done.
    intros [Hs Hi Hn]. constructor; cbn [ss_dev ss_ctx set_dev]; rewrite ?Hd.
    + cbn [bandwidth_ set_sampler]. rewrite Hs. unfold charged. cbn [ss_dev set_dev]. rewrite Hd.
      apply sumz_ext. intros c _. symmetry. apply Hu.
    + done.
    + intros c x Hx. specialize (Hu c). unfold used in Hu. rewrite Hx in Hu. rewrite Hu.
      destruct (ss_ctx s !! c) eqn:Hc; [by eapply Hn|lia].
Qed.

(** The steps of the invariant. *)
Section Invariant.
Context {P : SelectPolicy} {L : SelectPolicyLaws P}.

Lemma inv_init period : threads_inv (sched_init period).
Proof.
  constructor; simpl; try done || lia; constructor; simpl; try done || apply NoDup_nil_2.
  intros c Hc. by apply not_elem_of_nil in Hc.
Qed.

Lemma inv_push t c cmd s' :
  threads_inv t -> c ∈ contexts_ (ss_dev (th_sched t)) -> pending (th_sched t) < UINT64_MAX ->
  enqueue_push c cmd (th_sched t) = Ok (tt, s') ->
  threads_inv (Threads s' (th_inflight t + 1) (th_pc t) (th_arrived t ++ [(c, cmd)]) (th_fired t)).
Proof.
  intros [Hwf Hch Hif Hct Hcnt Hb Hpc Hff] Hc Hlt E.
  destruct (wf_exist _ Hwf c Hc) as [x Hx].
  rewrite (enqueue_push_eq _ _ _ x Hx) in E. injection E as <-.
  set (x' := set_suspended _ x). set (s := th_sched t) in *.
  assert (Hp : pending (set_ctx c x' s) = pending s + 1).
  { rewrite pending_set_ctx by done. rewrite (queue_suspended s c x Hx). simpl.
    rewrite length_app. simpl. lia. }
  assert (Hr : forall c', runnable s c' -> runnable (set_ctx c x' s) c').
  { intros c' [Hin Hq]. split; [done|]. rewrite queue_set_ctx. destruct (decide (c = c')); [|done].
    simpl. by destruct (suspended_ x). }
  constructor; simpl.
  - by apply set_ctx_wf.
  - destruct Hch as [Hs Hi Hu]. constructor; [|done|].
    + rewrite charged_set_ctx by done. unfold used. rewrite Hx. simpl. rewrite Hs. lia.
    + intros c' y. simpl. destruct (decide (c = c')) as [->|Hne].
      * rewrite lookup_insert_eq. intros [= <-]. by apply (Hu c' x).
      * rewrite lookup_insert_ne by done. apply Hu.
  - lia.
  - done.
  - rewrite Hp. lia.
  - rewrite Hp. lia.
  - by apply (pc_ok_mono s).
  - intros c'. rewrite of_context_snoc, queue_set_ctx, <- Hff.
    destruct (decide (c = c')) as [->|]; [|by rewrite app_nil_r].
    rewrite (queue_suspended s c' x Hx). simpl. by rewrite app_assoc.
Qed.

Lemma inv_replenished t s' :
  threads_inv t -> replenished (th_sched t) s' ->
  threads_inv (Threads s' (th_inflight t) (th_pc t) (th_arrived t) (th_fired t)).
Proof.
  intros [Hwf Hch Hif Hct Hcnt Hb Hpc Hff] (Hc & Hdom & Hq & Hn & Hcur & Hco).
  assert (Hp : pending s' = pending (th_sched t)).
  { apply pending_ext; [by rewrite Hc|]. intros c _. apply Hq. }
  constructor; simpl; rewrite ?Hp, ?Hn; try done.
  - destruct Hwf as [Hnd Hex Hcu]. constructor; rewrite ?Hc, ?Hcur; try done.
    intros c Hin. apply elem_of_dom. rewrite Hdom. by apply elem_of_dom, Hex.
  - by apply Hco.
  - assert (Hr : forall c, runnable (th_sched t) c -> runnable s' c).
    { intros c [??]. split; [by rewrite Hc|by rewrite Hq]. }
    apply (pc_ok_mono (th_sched t)); done || lia.
  - intros c. by rewrite Hq.
Qed.

Lemma inv_count t s' :
  threads_inv t -> 0 < th_inflight t -> enqueue_count (th_sched t) = Ok (tt, s') ->
  threads_inv (Threads s' (th_inflight t - 1) (th_pc t) (th_arrived t) (th_fired t)).
Proof.
  intros [Hwf Hch Hif Hct Hcnt Hb Hpc Hff] Hlt [= <-].
  assert (Hd : 0 <= decremented (th_pc t) <= 1) by (by destruct (th_pc t)).
  unfold UINT64_MAX in *.
  constructor; simpl; rewrite ?u64_small by lia; try done || lia.
  - by destruct Hwf.
  - by destruct Hch.
  - change (pending _) with (pending (th_sched t)). lia.
  - apply (pc_ok_mono (th_sched t)); simpl; rewrite ?u64_small by lia; done || lia.
Qed.

Lemma inv_register t c s' :
  threads_inv t -> ss_ctx (th_sched t) !! c = None -> c ∉ contexts_ (ss_dev (th_sched t)) ->
  register_context c (set_ctx c sched_ctx_new (th_sched t)) = Ok (tt, s') ->
  threads_inv (Threads s' (th_inflight t) (th_pc t) (th_arrived t) (th_fired t)).
Proof.
  intros [Hwf Hch Hif Hct Hcnt Hb Hpc Hff] Hnone Hc [= <-]. set (s := th_sched t) in *.
  set (s' := set_dev _ _).
  assert (Hq : forall c', queue s' c' = queue s c').
  { intros c'. change (queue (set_ctx c sched_ctx_new s) c' = queue s c'). rewrite queue_set_ctx.
    destruct (decide (c = c')) as [->|]; [|done]. unfold queue. by rewrite Hnone. }
  assert (Hu : forall c', used s' c' = used s c').
  { intros c'. change (used (set_ctx c sched_ctx_new s) c' = used s c'). rewrite used_set_ctx.
    destruct (decide (c = c')) as [->|]; [|done]. unfold used. by rewrite Hnone. }
  assert (Hp : pending s' = pending s).
  { unfold pending. cbn [ss_dev s' set_dev contexts_ set_contexts set_ctx]. rewrite sumz_app.
    rewrite sumz_cons. rewrite !Hq. rewrite (queue_none s c) by done. simpl.
    rewrite (sumz_ext _ (fun c => Z.of_nat (length (queue s c)))); [lia|].
    intros c' _. by rewrite Hq. }
  constructor; cbn [th_sched th_inflight th_pc th_arrived th_fired]; rewrite ?Hp; try done.
  - destruct Hwf as [Hnd Hex Hcu]. constructor; simpl.
    + apply NoDup_app. split_and!; [done| |apply NoDup_singleton].
      by intros c' Hc' ->%list_elem_of_singleton.
    + intros c' [Hc'| ->%list_elem_of_singleton]%elem_of_app.
      * destruct (decide (c = c')) as [->|]; [done|]. rewrite lookup_insert_ne by done. by apply Hex.
      * by rewrite lookup_insert_eq.
    + intros c' Hcur. apply elem_of_app. left. by apply Hcu.
  - destruct Hch as [Hs Hi Hun]. constructor; [|done|].
    + unfold charged. cbn [ss_dev s' set_dev contexts_ set_contexts set_ctx bandwidth_].
      rewrite sumz_app, sumz_cons, Hu. unfold used at 2. rewrite Hnone. simpl.
      rewrite (sumz_ext _ (used s)) by (intros; apply Hu). fold (charged s). lia.
    + simpl. intros c' x. destruct (decide (c = c')) as [->|].
      * rewrite lookup_insert_eq. by intros [= <-].
      * rewrite lookup_insert_ne by done. apply Hun.
  - assert (Hr : forall c', runnable s c' -> runnable s' c').
    { intros c' [??]. split; [|by rewrite Hq]. simpl. apply elem_of_app. by left. }
    by apply (pc_ok_mono s).
  - intros c'. by rewrite Hq.
Qed.

(** The state after [select_prio], before [current_] is assigned. *)
Lemma select_facts t idle elapsed next y s' :
  threads_inv t -> th_pc t = Waiting -> counter_ (ss_dev (th_sched t)) <> 0 -> 0 <= elapsed ->
  select_prio idle elapsed (th_sched t) = Ok ((next, y), s') ->
  same_work (th_sched t) s' /\ (exists c, next = Some c /\ runnable (th_sched t) c)
  /\ (y = true -> is_Some (current_ (ss_dev (th_sched t)))).
Proof.
  intros Hi Hpc Hn He E.
  pose proof (wp_ok _ _ _ _ _ _ (select_prio_spec idle elapsed _ He (ti_wf _ Hi)) E)
    as (Hs & Hnext & Hy).
  split_and!; [done| |naive_solver]. simpl in Hnext. destruct next as [c|]; [by exists c|].
  pose proof (ti_count _ Hi) as Hcnt. pose proof (ti_counter _ Hi). pose proof (ti_inflight _ Hi).
  rewrite Hpc in Hcnt. simpl in Hcnt.
  destruct (pending_pos (th_sched t)) as (c & Hc & Hq); [lia|]. by rewrite Hnext in Hq.
Qed.

(** Replacing the state by one with the same work, at a new place of the thread. *)
Lemma inv_same_work t s' p :
  threads_inv t -> same_work (th_sched t) s' -> decremented p = decremented (th_pc t) ->
  pc_ok s' p -> threads_inv (Threads s' (th_inflight t) p (th_arrived t) (th_fired t)).
Proof.
  intros [Hwf Hch Hif Hct Hcnt Hb Hpc Hff] Hs Hd Hp.
  constructor; simpl; rewrite ?(same_work_pending _ _ Hs), ?(sw_counter _ _ Hs), ?Hd; try done.
  - by apply (same_work_wf _ _ Hs).
  - by apply (same_work_charge _ _ Hs).
  - intros c. by rewrite (same_work_queue _ _ _ Hs).
Qed.

Lemma inv_after_select t s' c :
  threads_inv t -> same_work (th_sched t) s' -> decremented (th_pc t) = 0 ->
  runnable (th_sched t) c -> 0 < counter_ (ss_dev (th_sched t)) ->
  threads_inv (after_select (Some c) t s').
Proof.
  intros Hi Hs Hd Hr Hn. pose proof (same_work_runnable _ _ _ Hs Hr) as Hr'.
  destruct (inv_same_work t s' (Selected c) Hi Hs) as [Hwf Hch Hif Hct Hcnt Hb Hpc Hff]; [done| |].
  { split; [done|]. by rewrite (sw_counter _ _ Hs). }
  constructor; try done.
  - destruct Hwf. constructor; try done. simpl. intros c' [= <-]. apply Hr'.
  - by destruct Hch.
Qed.

Lemma inv_select t idle elapsed next s' :
  threads_inv t -> th_pc t = Waiting -> counter_ (ss_dev (th_sched t)) <> 0 -> 0 <= elapsed ->
  select_prio idle elapsed (th_sched t) = Ok ((next, false), s') ->
  threads_inv (after_select next t s').
Proof.
  intros Hi Hpc Hn He E.
  destruct (select_facts t idle elapsed next false s' Hi Hpc Hn He E) as (Hs & (c & -> & Hr) & _).
  apply inv_after_select; try done; [by rewrite Hpc|]. pose proof (ti_counter _ Hi). lia.
Qed.

Lemma inv_yield t idle elapsed next s' :
  threads_inv t -> th_pc t = Waiting -> counter_ (ss_dev (th_sched t)) <> 0 -> 0 <= elapsed ->
  select_prio idle elapsed (th_sched t) = Ok ((next, true), s') ->
  threads_inv (Threads s' (th_inflight t) (Yielding next) (th_arrived t) (th_fired t)).
Proof.
  intros Hi Hpc Hn He E.
  destruct (select_facts t idle elapsed next true s' Hi Hpc Hn He E) as (Hs & (c & -> & Hr) & Hcur).
  apply inv_same_work; [done|done|by rewrite Hpc|]. pose proof (ti_counter _ Hi).
  split_and!.
  - rewrite (sw_current _ _ Hs). by apply Hcur.
  - exists c. split; [done|]. by apply (same_work_runnable _ _ _ Hs).
  - rewrite (sw_counter _ _ Hs). lia.
Qed.

Lemma yielded_facts t next :
  threads_inv t -> th_pc t = Yielding next ->
  exists c, band_select_yielded next (th_sched t) = Ok (Some c, th_sched t)
    /\ runnable (th_sched t) c /\ 0 < counter_ (ss_dev (th_sched t)).
Proof.
  intros Hi Hpc. pose proof (ti_pc _ Hi) as Hp. rewrite Hpc in Hp.
  destruct Hp as ([cur Hcur] & (c & -> & Hr) & Hn). pose proof (ti_wf _ Hi) as Hwf.
  destruct (wf_exist _ Hwf cur) as [x Hx]; [by apply (wf_current _ Hwf)|].
  unfold band_select_yielded, get_dev, deref, bind, gets, of_option, ret. rewrite Hcur. simpl. rewrite Hx.
  destruct (is_suspended x) eqn:Es.
  - exists cur. split_and!; [done| |done]. split; [by apply (wf_current _ Hwf)|].
    by apply (is_suspended_queue _ _ x Hx).
  - by exists c.
Qed.

Lemma inv_yielded t next r s' :
  threads_inv t -> th_pc t = Yielding next ->
  band_select_yielded next (th_sched t) = Ok (r, s') -> threads_inv (after_select r t s').
Proof.
  intros Hi Hpc E. destruct (yielded_facts t next Hi Hpc) as (c & E' & Hr & Hn).
  rewrite E in E'. injection E' as -> ->.
  apply inv_after_select; try done. by rewrite Hpc.
Qed.

Lemma inv_decrement t c s' :
  threads_inv t -> th_pc t = Selected c -> counter_decrement (th_sched t) = Ok (tt, s') ->
  threads_inv (Threads s' (th_inflight t) (Submitting c) (th_arrived t) (th_fired t)).
Proof.
  intros [Hwf Hch Hif Hct Hcnt Hb Hpc Hff] E [= <-]. rewrite E in *. destruct Hpc as [Hr Hn].
  simpl in Hcnt. unfold UINT64_MAX in *.
  constructor; simpl; rewrite ?u64_small by lia; try done || lia.
  - by destruct Hwf.
  - by destruct Hch.
  - change (pending _) with (pending (th_sched t)). lia.
Qed.

Lemma runnable_inv s c :
  sched_wf s -> runnable s c ->
  exists x cmd rest, ss_ctx s !! c = Some x /\ suspended_ x = cmd :: rest.
Proof.
  intros Hwf [Hc Hq]. destruct (wf_exist _ Hwf c Hc) as [x Hx].
  rewrite (queue_suspended _ _ x Hx) in Hq. destruct (suspended_ x) as [|cmd rest] eqn:E; [done|].
  by exists x, cmd, rest.
Qed.

Lemma inv_submit t c duration f s' :
  threads_inv t -> th_pc t = Submitting c -> 0 <= duration ->
  submit c duration (th_sched t) = Ok (f, s') ->
  threads_inv (Threads s' (th_inflight t) Waiting (th_arrived t) (th_fired t ++ [f]))
  /\ pending s' = pending (th_sched t) - 1.
Proof.
  intros [Hwf Hch Hif Hct Hcnt Hb Hpc Hff] E Hdur Es. rewrite E in *. simpl in Hpc, Hcnt.
  destruct (runnable_inv _ _ Hwf Hpc) as (x & cmd & rest & Hx & Hq). destruct Hpc as [Hc _].
  destruct (submit_eq _ c duration x cmd rest Hx Hq) as (s1 & E1 & Hd1 & Hx1).
  rewrite Es in E1. injection E1 as -> <-. set (s := th_sched t) in *.
  set (x' := update_budget duration (set_suspended rest x)) in *.
  assert (Hqs : forall c', queue s' c' = queue (set_ctx c x' s) c') by (intros c'; unfold queue; by rewrite Hx1).
  assert (Hus : forall c', used s' c' = used (set_ctx c x' s) c') by (intros c'; unfold used; by rewrite Hx1).
  assert (Hp : pending s' = pending s - 1).
  { transitivity (pending (set_ctx c x' s)).
    - unfold pending. rewrite Hd1. apply sumz_ext. intros c' _. by rewrite Hqs.
    - rewrite pending_set_ctx by done. rewrite (queue_suspended _ _ x Hx), Hq. simpl. lia. }
  split; [|done]. constructor; cbn [th_sched th_inflight th_pc th_arrived th_fired]; rewrite ?Hp, ?Hd1;
    simpl; try done || lia.
  - destruct (set_ctx_wf s c x' Hwf Hc) as [Hnd Hex Hcu].
    constructor; rewrite Hd1; simpl; try done. rewrite Hx1. apply Hex.
  - destruct Hch as [Hs Hi Hu]. constructor.
    + rewrite Hd1. simpl. transitivity (charged (set_ctx c x' s)).
      * rewrite charged_set_ctx by done. unfold used. rewrite Hx. simpl. lia.
      * unfold charged. rewrite Hd1. apply sumz_ext. intros c' _. by rewrite Hus.
    + by rewrite Hd1.
    + intros c' y. rewrite Hx1. destruct (decide (c = c')) as [->|].
      * rewrite lookup_insert_eq. intros [= <-]. simpl. pose proof (Hu _ _ Hx). lia.
      * rewrite lookup_insert_ne by done. apply Hu.
  - intros c'. rewrite of_context_snoc, Hqs, queue_set_ctx, <- Hff.
    destruct (decide (c = c')) as [->|]; [|by rewrite app_nil_r].
    rewrite (queue_suspended _ _ x Hx), Hq. simpl. by rewrite <- app_assoc.
Qed.

Lemma run_inv t t' : threads_inv t -> run_step t t' -> threads_inv t'.
Proof.
  intros Hi. destruct 1.
  - by eapply inv_select.
  - by eapply inv_yield.
  - by eapply inv_yielded.
  - by eapply inv_decrement.
  - by eapply inv_submit.
Qed.

Lemma env_inv t t' : threads_inv t -> env_step t t' -> threads_inv t'.
Proof.
  intros Hi. destruct 1 as [| | |t s' _ E|t s' _ E].
  - by eapply inv_register.
  - by apply inv_push.
  - by apply inv_count.
  - apply inv_replenished; [done|]. pose proof (replenish_round_spec _ (ti_wf _ Hi)) as W.
    by apply (wp_ok _ _ _ _ _ _ W E).
  - apply inv_replenished; [done|]. pose proof (sampler_round_spec _ (ti_wf _ Hi)) as W.
    by apply (wp_ok _ _ _ _ _ _ W E).
Qed.

Lemma reachable_inv period t : sched_reachable period t -> threads_inv t.
Proof.
  intros H. assert (Hi := inv_init period). unfold sched_reachable in H.
  induction H as [|t t' t'' [Hs|Hs] _ IH]; [done| |]; apply IH.
  - by eapply run_inv.
  - by eapply env_inv.
Qed.

(** Every step of the scheduler thread makes progress towards an empty queue. *)
Definition phase (p : run_pc) : Z :=
  match p with Waiting => 0 | Yielding _ => 1 | Selected _ => 2 | Submitting _ => 3 end.
Definition work (t : threads) : Z := 4 * pending (th_sched t) - phase (th_pc t).

Lemma run_step_work t t' : threads_inv t -> run_step t t' -> 0 <= work t' < work t.
Proof.
  intros Hi Hs. pose proof (run_inv _ _ Hi Hs) as Hi'.
  pose proof (ti_inflight _ Hi'). pose proof (ti_counter _ Hi'). pose proof (ti_count _ Hi') as Hcnt.
  pose proof (ti_pc _ Hi') as Hp'. unfold work.
  destruct Hs as [t idle el next s' Hpc Hn He E|t idle el next s' Hpc Hn He E|t next r s' Hpc E
    |t c s' Hpc E|t c dur f s' Hpc Hd E]; rewrite Hpc.
  - destruct (select_facts t idle el next false s' Hi Hpc Hn He E) as (Hs & (c & -> & Hr) & _).
    simpl in *. change (pending (set_dev _ s')) with (pending s') in *.
    rewrite (same_work_pending _ _ Hs) in *. lia.
  - destruct (select_facts t idle el next true s' Hi Hpc Hn He E) as (Hs & _ & _).
    simpl in *. rewrite (same_work_pending _ _ Hs) in *. lia.
  - destruct (yielded_facts t next Hi Hpc) as (c & E' & Hr & Hc).
    rewrite E in E'. injection E' as -> ->. simpl in *.
    change (pending (set_dev _ (th_sched t))) with (pending (th_sched t)) in *. lia.
  - injection E as <-. simpl in *.
    change (pending (set_dev _ (th_sched t))) with (pending (th_sched t)) in *. lia.
  - destruct (inv_submit t c dur f s' Hi Hpc Hd E) as [_ Hp]. simpl in *. lia.
Qed.

(** With no enqueuer half-way and commands waiting, the scheduler thread can step. *)
Lemma run_progress t :
  threads_inv t -> th_inflight t = 0 -> 0 < pending (th_sched t) -> exists t', run_step t t'.
Proof.
  intros Hi Hif Hp. pose proof (ti_count _ Hi) as Hcnt. pose proof (ti_pc _ Hi) as Hpc'.
  pose proof (ti_wf _ Hi) as Hwf. destruct (th_pc t) as [|next|c|c] eqn:Hpc; simpl in Hcnt.
  - destruct (wp_total _ _ _ (select_prio_spec false 0 _ (Z.le_refl 0) Hwf)) as ([next y] & s' & E & _).
    destruct y; eexists; [eapply run_yield|eapply run_select]; try done; lia.
  - destruct (yielded_facts t next Hi Hpc) as (c & E & _). eexists. by eapply run_yielded.
  - eexists. by eapply run_decrement.
  - destruct (runnable_inv _ _ Hwf Hpc') as (x & cmd & rest & Hx & Hq).
    destruct (submit_eq _ c 0 x cmd rest Hx Hq) as (s1 & E1 & _).
    eexists. by apply (run_submit t c 0 _ _ Hpc (Z.le_refl 0) E1).
Qed.

Lemma run_acc t : threads_inv t -> Acc (fun t' t => run_step t t') t.
Proof.
  intros Hi. remember (Z.to_nat (work t)) as n eqn:Hn. revert t Hi Hn.
  induction (lt_wf n) as [n _ IH]. intros t Hi ->. constructor. intros t' Hs.
  pose proof (run_step_work _ _ Hi Hs). apply (IH (Z.to_nat (work t'))); [lia| |done].
  by apply (run_inv t).
Qed.

Lemma run_rtc_inv t t' :
  threads_inv t -> rtc run_step t t' -> threads_inv t' /\ th_inflight t' = th_inflight t.
Proof.
  intros Hi H. induction H as [|t t1 t2 Hs _ IH]; [done|].
  destruct IH as [? ->]; [by apply (run_inv t)|]. split; [done|]. by destruct Hs.
Qed.

End Invariant.

(** ** Properties *)

(** C27: in every interleaving of the scheduler thread, the enqueuing machines, the
    replenisher and the sampler, under any policy keeping the selection laws, the
    commands of a context reach the GPU in the order they arrived, none lost, none
    twice (what was fired followed by what still waits is what arrived); the 64-bit
    counter the thread sleeps on is exactly the number of waiting commands, less the
    enqueuers half-way and the command being submitted; and the GPU time of the
    period is the sum of the contexts' charges. *)
Theorem scheduler_fifo {P : SelectPolicy} {L : SelectPolicyLaws P} period t :
  sched_reachable period t ->
  (forall c, of_context c (th_fired t) ++ queue (th_sched t) c = of_context c (th_arrived t))
  /\ counter_ (ss_dev (th_sched t)) + th_inflight t + decremented (th_pc t) = pending (th_sched t)
  /\ bandwidth_ (ss_dev (th_sched t)) = charged (th_sched t).
Proof.
  intros Hi%reachable_inv. split_and!; [apply Hi|apply Hi|apply (ti_charge _ Hi)].
Qed.

(** C28: the scheduler thread never deadlocks or spins while commands wait: from any
    reachable state in which no enqueuer is half-way, every sequence of its steps is
    finite, and it can only stop with all the queues empty and every command that
    arrived fired. *)
Theorem scheduler_drains {P : SelectPolicy} {L : SelectPolicyLaws P} period t :
  sched_reachable period t -> th_inflight t = 0 ->
  Acc (fun t' t => run_step t t') t
  /\ forall t', rtc run_step t t' -> (forall t'', ~ run_step t' t'') ->
     pending (th_sched t') = 0
     /\ forall c, c ∈ contexts_ (ss_dev (th_sched t')) ->
        of_context c (th_fired t') = of_context c (th_arrived t').
Proof.
  intros Hi%reachable_inv Hif. split; [by apply run_acc|]. intros t' Hr Hstop.
  destruct (run_rtc_inv t t' Hi Hr) as [Hi' Hif'].
  assert (Hp : pending (th_sched t') = 0).
  { assert (0 <= pending (th_sched t')) by (apply sumz_nonneg; lia).
    destruct (decide (pending (th_sched t') = 0)) as [|Hne]; [done|]. exfalso.
    destruct (run_progress t' Hi') as [t'' ?]; [lia|lia|]. by apply (Hstop t''). }
  split; [done|]. intros c Hc. rewrite <- (ti_fifo _ Hi').
  rewrite (pending_zero _ Hp c Hc). by rewrite app_nil_r.
Qed.

(** Two machines: the first submits one command, which is fired, the second two,
    which wait. *)
Definition demo_cmd (v : Z) : command := Command TYPE_WRITE v 0x2000 1 4.

#[local] Ltac flat :=
  unfold sched_init, after_select; cbn [th_sched th_inflight th_pc th_arrived th_fired].

Lemma demo_trace :
  exists t, @sched_reachable credit_policy 1000 t
    /\ th_inflight t = 0 /\ th_fired t = [(0, demo_cmd 7)]
    /\ th_arrived t = [(0, demo_cmd 7); (1, demo_cmd 8); (1, demo_cmd 9)].
Proof.
  eexists. split; [|split_and!; [..|]].
  - eapply rtc_l; [right; apply (env_register _ 0); [done|apply not_elem_of_nil|vm_compute; done|vm_compute; reflexivity]|flat].
    eapply rtc_l; [right; apply (env_register _ 1);
      [done|intros ?%list_elem_of_singleton; done|vm_compute; done|vm_compute; reflexivity]|flat].
    eapply rtc_l; [right; apply (env_push _ 0 (demo_cmd 7)); [left|vm_compute; done|vm_compute; reflexivity]|flat].
    eapply rtc_l; [right; apply env_count; [done|vm_compute; reflexivity]|flat].
    eapply rtc_l; [left; apply (run_select _ true 5); [done|done|vm_compute; done|vm_compute; reflexivity]|flat].
    eapply rtc_l; [right; apply (env_push _ 1 (demo_cmd 8)); [right; left|vm_compute; done|vm_compute; reflexivity]|flat].
    eapply rtc_l; [left; apply run_decrement; [done|vm_compute; reflexivity]|flat].
    eapply rtc_l; [left; eapply (run_submit _ 0 30); [done|vm_compute; done|vm_compute; reflexivity]|flat].
    eapply rtc_l; [right; apply env_count; [done|vm_compute; reflexivity]|flat].
    eapply rtc_l; [right; apply (env_push _ 1 (demo_cmd 9)); [right; left|vm_compute; done|vm_compute; reflexivity]|flat].
    eapply rtc_l; [right; apply env_replenish; [done|vm_compute; reflexivity]|flat].
    eapply rtc_l; [right; apply env_count; [done|vm_compute; reflexivity]|flat].
    apply rtc_refl.
  - reflexivity.
  - reflexivity.
  - reflexivity.
Qed.

Lemma scheduler_fifo_witness :
  exists t, @sched_reachable credit_policy 1000 t /\ th_fired t = [(0, demo_cmd 7)]
    /\ of_context 1 (th_fired t) ++ queue (th_sched t) 1 = [demo_cmd 8; demo_cmd 9].
Proof.
  destruct demo_trace as (t & Hr & Hif & Hf & Ha). exists t. split; [exact Hr|]. split; [exact Hf|].
  destruct (scheduler_fifo 1000 t Hr) as [H _]. rewrite (H 1), Ha. reflexivity.
Defined.

Lemma scheduler_drains_witness :
  exists t, @sched_reachable credit_policy 1000 t /\ th_inflight t = 0
    /\ th_fired t <> th_arrived t /\ Acc (fun t' t => run_step t t') t.
Proof.
  destruct demo_trace as (t & Hr & Hif & Hf & Ha). exists t.
  split; [exact Hr|]. split; [exact Hif|]. split; [by rewrite Hf, Ha|].
  exact (proj1 (scheduler_drains 1000 t Hr Hif)).
Defined.

(** Where the credit scheduler looks: the list with the current context moved to its
    end when its budget is used up. *)
Definition credit_order (s : sched_state) : list Z :=
  match current_ (ss_dev s) with
  | Some c =>
      match ss_ctx s !! c with
      | Some x => if budget_ x <? 0 then erase c (contexts_ (ss_dev s)) ++ [c]
                  else contexts_ (ss_dev s)
      | None => contexts_ (ss_dev s)
      end
  | None => contexts_ (ss_dev s)
  end.

Lemma credit_select_order idle elapsed s :
  0 <= elapsed -> sched_wf s ->
  wp no_error (credit_select_next_context idle elapsed)
    (fun r s' => contexts_ (ss_dev s') = credit_order s /\ match r with
       | Some c => queue s c <> [] /\ exists pre post, credit_order s = pre ++ c :: post
                     /\ forall c', c' ∈ pre -> queue s c' = []
       | None => forall c, c ∈ credit_order s -> queue s c = [] end) s.
Proof.
  intros He Hwf. unfold credit_select_next_context.
  apply wp_bind. apply (wp_mono _ _ (fun _ s' => ss_ctx s' = ss_ctx s
    /\ contexts_ (ss_dev s') = contexts_ (ss_dev s) /\ current_ (ss_dev s') = current_ (ss_dev s))).
  { unfold count_idle. apply wp_when; intros _; [by apply wp_modify|done]. }
  intros [] s1 (Hx1 & Hc1 & Hcur1). apply wp_bind, wp_gets, wp_bind.
  apply (wp_mono _ _ (fun _ s' => ss_ctx s' = ss_ctx s /\ contexts_ (ss_dev s') = credit_order s)).
  { rewrite Hcur1. unfold credit_order.
    destruct (current_ (ss_dev s)) as [c|] eqn:Hcur; [|by apply wp_ret].
    destruct (wf_exist s Hwf c) as [x Hx]; [by apply (wf_current s Hwf)|]. rewrite Hx.
    apply wp_bind, (wp_deref _ _ x); [by rewrite Hx1|].
    apply wp_when; intros ->; [|done]. apply wp_modify. split; [done|]. simpl. by rewrite Hc1. }
  intros [] s2 (Hx2 & Hc2). apply wp_bind, wp_gets. rewrite Hc2.
  assert (Hq : forall c, queue s2 c = queue s c) by (intros c; unfold queue; by rewrite Hx2).
  eapply wp_mono; [apply first_suspended_spec|].
  - intros c Hc. rewrite Hx2. apply (wf_exist s Hwf). revert Hc. unfold credit_order.
    destruct (current_ (ss_dev s)) as [c0|] eqn:Hcur; [|done].
    destruct (ss_ctx s !! c0) as [x|]; [|done]. case_match; [|done].
    rewrite erase_perm; [done|apply Hwf|by apply (wf_current s Hwf)].
  - intros r s3 [-> Hr]. split; [done|]. destruct r as [c|].
    + rewrite Hq in Hr. destruct Hr as (? & pre & post & E & Hpre). split; [done|].
      exists pre, post. split; [done|]. intros c' Hc'. rewrite <- Hq. by apply Hpre.
    + intros c Hc. rewrite <- Hq. by apply Hr.
Qed.

(** C37: under the credit scheduler a context that has used up its budget does not
    run twice in a row while another one waits: [select_next_context] succeeds and
    returns another waiting context, and the exhausted one is now last. *)
Theorem credit_no_monopoly idle elapsed s c x c' :
  0 <= elapsed -> sched_wf s ->
  current_ (ss_dev s) = Some c -> ss_ctx s !! c = Some x -> budget_ x < 0 ->
  c' <> c -> runnable s c' ->
  exists n s', credit_select_next_context idle elapsed s = Ok (Some n, s')
    /\ n <> c /\ runnable s n /\ last (contexts_ (ss_dev s')) = Some c.
Proof.
  intros He Hwf Hcur Hx Hb Hne [Hc' Hq'].
  destruct (wp_total _ _ _ (credit_select_order idle elapsed s He Hwf)) as (r & s' & E & Ho & Hr).
  assert (Hord : credit_order s = erase c (contexts_ (ss_dev s)) ++ [c]).
  { unfold credit_order. rewrite Hcur, Hx. destruct (Z.ltb_spec (budget_ x) 0); [done|lia]. }
  rewrite Hord in *. assert (Hin : c' ∈ erase c (contexts_ (ss_dev s))).
  { by apply list_elem_of_filter. }
  destruct r as [n|]; [|destruct Hq'; apply Hr, elem_of_app; by left].
  destruct Hr as (Hqn & pre & post & El & Hpre). exists n, s'.
  assert (Hnc : n <> c).
  { intros ->. destruct post as [|z post _] using rev_ind.
    - apply app_inj_tail in El as [<- _]. by apply Hq', Hpre.
    - rewrite app_comm_cons, app_assoc in El. apply app_inj_tail in El as [El _].
      assert (c ∈ erase c (contexts_ (ss_dev s))) as [? _]%list_elem_of_filter; [|congruence].
      rewrite El. apply elem_of_app. right. left. }
  split_and!; [done|done| |by rewrite Ho, last_snoc].
  split; [|done].
  assert (n ∈ erase c (contexts_ (ss_dev s)) ++ [c]) as Hn by (rewrite El; apply elem_of_app; right; left).
  apply elem_of_app in Hn as [Hn|Hn%list_elem_of_singleton]; [|done].
  by apply list_elem_of_filter in Hn as [_ ?].
Qed.

(** The band scheduler prefers, among the waiting contexts, those within their
    share, then those with budget left, then the others: the context selected before
    [yield_chance] is waiting and none of the waiting contexts is better ranked. *)
Theorem band_priority idle elapsed s c x :
  0 <= elapsed -> sched_wf s ->
  c ∈ contexts_ (ss_dev s) -> ss_ctx s !! c = Some x -> is_suspended x = true ->
  exists n xn y s', band_select_prio idle elapsed s = Ok ((Some n, y), s')
    /\ runnable s n /\ ss_ctx s !! n = Some xn
    /\ rank (ss_dev s) xn <= rank (ss_dev s) x.
Proof.
  intros He Hwf Hc Hx Hs.
  destruct (wp_total _ _ _ (band_select_spec idle elapsed s He Hwf))
    as ([r y] & s' & E & _ & Hok & Hbest & _).
  destruct (Hbest c x Hc Hx Hs) as (n & xn & Hr & Hxn & Hrank). simpl in *. subst r.
  by exists n, xn, y, s'.
Qed.

(** The share of the period a context gets, and its default. *)
Definition share (d : sched_dev) : Z :=
  Z.quot (bandwidth_ d + gpu_idle_ d) (Z.of_nat (length (contexts_ d))).
Definition default_budget (d : sched_dev) : Z :=
  Z.quot (period_ d) (Z.of_nat (length (contexts_ d))).

Lemma ctx_replenish_bounds credit threshold bandwidth idle x :
  0 <= threshold -> 0 <= bandwidth ->
  - threshold <= budget_ (ctx_replenish credit threshold bandwidth idle x)
              <= Z.max threshold bandwidth.
Proof.
  intros. unfold ctx_replenish. cbn [budget_]. destruct idle; simpl andb; repeat case_if; lia.
Qed.

(** The contexts after a replenishing round that had time to share out. *)
Lemma replenish_core_ctx threshold s :
  sched_wf s -> contexts_ (ss_dev s) <> [] -> bandwidth_ (ss_dev s) + gpu_idle_ (ss_dev s) <> 0 ->
  wp no_error (replenish_core threshold) (fun _ s' => forall c x,
    c ∈ contexts_ (ss_dev s) -> ss_ctx s !! c = Some x ->
    ss_ctx s' !! c = Some (ctx_replenish (share (ss_dev s)) (threshold (ss_dev s) (share (ss_dev s)))
                             (default_budget (ss_dev s)) (bandwidth_ (ss_dev s) =? 0) x)) s.
Proof.
  intros Hwf Hne Hp. unfold replenish_core. apply wp_bind, wp_gets. simpl.
  destruct (contexts_ (ss_dev s)) as [|c0 l0] eqn:Hl; [done|]. rewrite <- Hl.
  apply wp_bind, wp_modify. set (s1 := set_dev _ s).
  assert (Hwf1 : sched_wf s1) by (destruct Hwf; by constructor).
  apply wp_bind, wp_when; intros Hz; [|apply negb_false_iff, Z.eqb_eq in Hz; lia].
  eapply wp_mono; [by apply for_contexts_spec|]. intros [] s2 [_ Hx].
  apply wp_bind, wp_modify, wp_modify. intros c x Hc Hcx. simpl. rewrite Hx.
  change (contexts_ (ss_dev s1)) with (contexts_ (ss_dev s)).
  change (ss_ctx s1) with (ss_ctx s). rewrite bool_decide_true by done. by rewrite Hcx.
Qed.

(** C38: one round of replenishing (credit scheduler) that has GPU time to share out
    succeeds, and leaves every context with a budget within two shares of the
    period, or its default share of the configured period when that is more; no
    context accumulates credit or debt beyond that, whatever it did before. *)
Theorem credit_replenish_bounds s c x :
  sched_wf s -> c ∈ contexts_ (ss_dev s) -> ss_ctx s !! c = Some x ->
  0 <= period_ (ss_dev s) -> 0 <= bandwidth_ (ss_dev s) -> 0 <= gpu_idle_ (ss_dev s) ->
  bandwidth_ (ss_dev s) + gpu_idle_ (ss_dev s) <> 0 ->
  exists s' x', credit_replenish s = Ok (tt, s') /\ ss_ctx s' !! c = Some x'
    /\ - (2 * share (ss_dev s)) <= budget_ x'
                                <= Z.max (2 * share (ss_dev s)) (default_budget (ss_dev s))
    /\ suspended_ x' = suspended_ x.
Proof.
  intros Hwf Hc Hx Hp Hb Hi Hz.
  assert (Hne : contexts_ (ss_dev s) <> []) by (intros E; rewrite E in Hc; by apply not_elem_of_nil in Hc).
  destruct (wp_total _ _ _ (replenish_core_ctx (fun _ b => b * 2) s Hwf Hne Hz)) as ([] & s' & E & H).
  eexists s', _. split_and!; [exact E|by apply H| | |done].
  all: set (d := ss_dev s) in *; rewrite (Z.mul_comm 2).
  all: assert (0 <= share d) by (apply Z.quot_pos; [lia|];
         destruct (contexts_ d); [done|simpl; lia]).
  all: assert (0 <= default_budget d) by (apply Z.quot_pos; [lia|];
         destruct (contexts_ d); [done|simpl; lia]).
  all: apply ctx_replenish_bounds; lia.
Qed.

(** Destroying the context a scheduler ran last leaves [current_] dangling: the
    next selection dereferences a deleted context, under both policies, whichever
    other machines are running. *)
Theorem destroy_current_dangles idle elapsed s c :
  current_ (ss_dev s) = Some c ->
  exists s', destroy_context c s = Ok (tt, s')
    /\ credit_select_next_context idle elapsed s' = Err UseAfterFree
    /\ band_select_prio idle elapsed s' = Err UseAfterFree.
Proof.
  intros Hc. eexists. split; [reflexivity|].
  unfold credit_select_next_context, band_select_prio, deref, count_idle, when, bind, gets,
    get_dev, of_option.
  destruct idle; simpl; rewrite Hc; simpl; by rewrite lookup_delete_eq.
Qed.

(** ** Witnesses *)

(** Two machines; the first ran last and is out of budget, both have commands. *)
Definition demo_sched : sched_state :=
  SchedState (SchedDev 1000 40 60 200 2 (Some 0) [0; 1] [] (Sampler 60 60 0 0))
    (<[0 := SchedCtx (-5) 60 60 60 [demo_cmd 1]]> (<[1 := SchedCtx 10 0 0 0 [demo_cmd 2]]> ∅)).

Lemma demo_sched_wf : sched_wf demo_sched.
Proof.
  constructor; simpl.
  - apply NoDup_cons. split; [by intros ?%list_elem_of_singleton|apply NoDup_singleton].
  - intros c [-> | ->%list_elem_of_singleton]%elem_of_cons.
    + by rewrite lookup_insert_eq.
    + rewrite lookup_insert_ne by done. by rewrite lookup_insert_eq.
  - intros c [= <-]. left.
Qed.

Lemma credit_no_monopoly_witness :
  exists n s', credit_select_next_context true 3 demo_sched = Ok (Some n, s')
    /\ n <> 0 /\ runnable demo_sched n /\ last (contexts_ (ss_dev s')) = Some 0.
Proof.
  apply (credit_no_monopoly true 3 demo_sched 0 (SchedCtx (-5) 60 60 60 [demo_cmd 1]) 1).
  - lia.
  - apply demo_sched_wf.
  - reflexivity.
  - reflexivity.
  - simpl. lia.
  - lia.
  - split; [right; left|]. vm_compute. discriminate.
Defined.

Lemma band_priority_witness :
  exists n xn y s', band_select_prio false 0 demo_sched = Ok ((Some n, y), s')
    /\ runnable demo_sched n /\ ss_ctx demo_sched !! n = Some xn
    /\ rank (ss_dev demo_sched) xn <= rank (ss_dev demo_sched) (SchedCtx 10 0 0 0 [demo_cmd 2]).
Proof.
  apply (band_priority false 0 demo_sched 1 (SchedCtx 10 0 0 0 [demo_cmd 2])).
  - lia.
  - apply demo_sched_wf.
  - right. left.
  - reflexivity.
  - reflexivity.
Defined.

Lemma credit_replenish_bounds_witness :
  exists s' x', credit_replenish demo_sched = Ok (tt, s') /\ ss_ctx s' !! 0 = Some x'
    /\ - (2 * share (ss_dev demo_sched)) <= budget_ x'
         <= Z.max (2 * share (ss_dev demo_sched)) (default_budget (ss_dev demo_sched))
    /\ suspended_ x' = [demo_cmd 1].
Proof.
  apply (credit_replenish_bounds demo_sched 0 (SchedCtx (-5) 60 60 60 [demo_cmd 1])).
  - apply demo_sched_wf.
  - left.
  - reflexivity.
  - simpl. lia.
  - simpl. lia.
  - simpl. lia.
  - simpl. lia.
Defined.

Lemma destroy_current_dangles_witness :
  exists s', destroy_context 0 demo_sched = Ok (tt, s')
    /\ credit_select_next_context false 0 s' = Err UseAfterFree
    /\ band_select_prio false 0 s' = Err UseAfterFree.
Proof. exact (destroy_current_dangles false 0 demo_sched 0 eq_refl). Defined.
