(* ===== verification/State.v ===== *)
(** * The state of A3

    The classes of the GPU access aggregator as records, with an update function per
    field: page tables, channels, the BAR managers, the playlist engines, the context of
    a virtual machine and the device. The platform (GPU, hypervisor interface, flags)
    is a class of parameters, and the world is what the operations of A3 act on. *)

From S2P Require Import Prelude Config Vram PageTable Barrier Sched.

(** [class page]: a block of device memory of the pool. *)
Definition page : Type := vram_t.

(** [enum struct card] *)
Inductive card : Type := UNINITIALIZED | NVC0 | NVE0.

#[export] Instance card_eq_dec : EqDecision card.
Proof. solve_decision. Defined.

(** [class software_page_directory]: the arrays exist when the guest directory has them. *)
Record software_page_directory : Type := SoftwarePageDirectory {
  sd_large : option (vec page_entry);
  sd_small : option (vec page_entry)
}.

Definition set_sd_large (v : option (vec page_entry)) (r : software_page_directory) : software_page_directory :=
  SoftwarePageDirectory v (sd_small r).
Definition set_sd_small (v : option (vec page_entry)) (r : software_page_directory) : software_page_directory :=
  SoftwarePageDirectory (sd_large r) v.

(** [class software_page_table]; [st_size] is the 40-bit field [size_]. *)
Record software_page_table : Type := SoftwarePageTable {
  st_directories : vec software_page_directory;
  st_size : Z;
  st_page_directory_address : Z;
  st_channel_id : Z;
  st_predefined_max : Z
}.

Definition set_st_directories (v : vec software_page_directory) (r : software_page_table) : software_page_table :=
  SoftwarePageTable v (st_size r) (st_page_directory_address r) (st_channel_id r)
    (st_predefined_max r).
Definition set_st_size (v : Z) (r : software_page_table) : software_page_table :=
  SoftwarePageTable (st_directories r) v (st_page_directory_address r) (st_channel_id r)
    (st_predefined_max r).
Definition set_st_page_directory_address (v : Z) (r : software_page_table) : software_page_table :=
  SoftwarePageTable (st_directories r) (st_size r) v (st_channel_id r) (st_predefined_max r).
Definition set_st_channel_id (v : Z) (r : software_page_table) : software_page_table :=
  SoftwarePageTable (st_directories r) (st_size r) (st_page_directory_address r) v
    (st_predefined_max r).
Definition set_st_predefined_max (v : Z) (r : software_page_table) : software_page_table :=
  SoftwarePageTable (st_directories r) (st_size r) (st_page_directory_address r)
    (st_channel_id r) v.

(** [class shadow_page_table] *)
Record shadow_page_table : Type := ShadowPageTable {
  sh_size : Z;
  sh_page_directory_address : Z;
  sh_channel_id : Z;
  sh_phys : option page;
  sh_large_pool : list page;
  sh_small_pool : list page;
  sh_large_cursor : Z;
  sh_small_cursor : Z
}.

Definition set_sh_size (v : Z) (r : shadow_page_table) : shadow_page_table :=
  ShadowPageTable v (sh_page_directory_address r) (sh_channel_id r) (sh_phys r)
    (sh_large_pool r) (sh_small_pool r) (sh_large_cursor r) (sh_small_cursor r).
Definition set_sh_page_directory_address (v : Z) (r : shadow_page_table) : shadow_page_table :=
  ShadowPageTable (sh_size r) v (sh_channel_id r) (sh_phys r) (sh_large_pool r)
    (sh_small_pool r) (sh_large_cursor r) (sh_small_cursor r).
Definition set_sh_channel_id (v : Z) (r : shadow_page_table) : shadow_page_table :=
  ShadowPageTable (sh_size r) (sh_page_directory_address r) v (sh_phys r) (sh_large_pool r)
    (sh_small_pool r) (sh_large_cursor r) (sh_small_cursor r).
Definition set_sh_phys (v : option page) (r : shadow_page_table) : shadow_page_table :=
  ShadowPageTable (sh_size r) (sh_page_directory_address r) (sh_channel_id r) v
    (sh_large_pool r) (sh_small_pool r) (sh_large_cursor r) (sh_small_cursor r).
Definition set_sh_large_pool (v : list page) (r : shadow_page_table) : shadow_page_table :=
  ShadowPageTable (sh_size r) (sh_page_directory_address r) (sh_channel_id r) (sh_phys r) v
    (sh_small_pool r) (sh_large_cursor r) (sh_small_cursor r).
Definition set_sh_small_pool (v : list page) (r : shadow_page_table) : shadow_page_table :=
  ShadowPageTable (sh_size r) (sh_page_directory_address r) (sh_channel_id r) (sh_phys r)
    (sh_large_pool r) v (sh_large_cursor r) (sh_small_cursor r).
Definition set_sh_large_cursor (v : Z) (r : shadow_page_table) : shadow_page_table :=
  ShadowPageTable (sh_size r) (sh_page_directory_address r) (sh_channel_id r) (sh_phys r)
    (sh_large_pool r) (sh_small_pool r) v (sh_small_cursor r).
Definition set_sh_small_cursor (v : Z) (r : shadow_page_table) : shadow_page_table :=
  ShadowPageTable (sh_size r) (sh_page_directory_address r) (sh_channel_id r) (sh_phys r)
    (sh_large_pool r) (sh_small_pool r) (sh_large_cursor r) v.

(** [class bar1_channel_t] *)
Record bar1_channel_t : Type := Bar1Channel {
  b1_enabled : bool;
  b1_ramin_address : Z;
  b1_table : software_page_table
}.

Definition set_b1_enabled (v : bool) (r : bar1_channel_t) : bar1_channel_t :=
  Bar1Channel v (b1_ramin_address r) (b1_table r).
Definition set_b1_ramin_address (v : Z) (r : bar1_channel_t) : bar1_channel_t :=
  Bar1Channel (b1_enabled r) v (b1_table r).
Definition set_b1_table (v : software_page_table) (r : bar1_channel_t) : bar1_channel_t :=
  Bar1Channel (b1_enabled r) (b1_ramin_address r) v.

(** [class bar3_channel_t] *)
Record bar3_channel_t : Type := Bar3Channel {
  b3_enabled : bool;
  b3_ramin_address : Z;
  b3_page_directory_address : Z
}.

Definition set_b3_enabled (v : bool) (r : bar3_channel_t) : bar3_channel_t :=
  Bar3Channel v (b3_ramin_address r) (b3_page_directory_address r).
Definition set_b3_ramin_address (v : Z) (r : bar3_channel_t) : bar3_channel_t :=
  Bar3Channel (b3_enabled r) v (b3_page_directory_address r).
Definition set_b3_page_directory_address (v : Z) (r : bar3_channel_t) : bar3_channel_t :=
  Bar3Channel (b3_enabled r) (b3_ramin_address r) v.

(** [class channel]. [derived_] points to the [original_] bit set of some channel of the same context: it is the index of that channel. *)
Record channel : Type := Channel {
  ch_id : Z;
  ch_enabled : bool;
  ch_tlb_flush_needed : bool;
  ch_ramin_address : Z;
  ch_submitted : Z;
  ch_table : shadow_page_table;
  ch_shadow_ramin : page;
  ch_original : vec bool;
  ch_derived : Z
}.

Definition set_ch_id (v : Z) (r : channel) : channel :=
  Channel v (ch_enabled r) (ch_tlb_flush_needed r) (ch_ramin_address r) (ch_submitted r)
    (ch_table r) (ch_shadow_ramin r) (ch_original r) (ch_derived r).
Definition set_ch_enabled (v : bool) (r : channel) : channel :=
  Channel (ch_id r) v (ch_tlb_flush_needed r) (ch_ramin_address r) (ch_submitted r) (ch_table r)
    (ch_shadow_ramin r) (ch_original r) (ch_derived r).
Definition set_ch_tlb_flush_needed (v : bool) (r : channel) : channel :=
  Channel (ch_id r) (ch_enabled r) v (ch_ramin_address r) (ch_submitted r) (ch_table r)
    (ch_shadow_ramin r) (ch_original r) (ch_derived r).
Definition set_ch_ramin_address (v : Z) (r : channel) : channel :=
  Channel (ch_id r) (ch_enabled r) (ch_tlb_flush_needed r) v (ch_submitted r) (ch_table r)
    (ch_shadow_ramin r) (ch_original r) (ch_derived r).
Definition set_ch_submitted (v : Z) (r : channel) : channel :=
  Channel (ch_id r) (ch_enabled r) (ch_tlb_flush_needed r) (ch_ramin_address r) v (ch_table r)
    (ch_shadow_ramin r) (ch_original r) (ch_derived r).
Definition set_ch_table (v : shadow_page_table) (r : channel) : channel :=
  Channel (ch_id r) (ch_enabled r) (ch_tlb_flush_needed r) (ch_ramin_address r) (ch_submitted r)
    v (ch_shadow_ramin r) (ch_original r) (ch_derived r).
Definition set_ch_shadow_ramin (v : page) (r : channel) : channel :=
  Channel (ch_id r) (ch_enabled r) (ch_tlb_flush_needed r) (ch_ramin_address r) (ch_submitted r)
    (ch_table r) v (ch_original r) (ch_derived r).
Definition set_ch_original (v : vec bool) (r : channel) : channel :=
  Channel (ch_id r) (ch_enabled r) (ch_tlb_flush_needed r) (ch_ramin_address r) (ch_submitted r)
    (ch_table r) (ch_shadow_ramin r) v (ch_derived r).
Definition set_ch_derived (v : Z) (r : channel) : channel :=
  Channel (ch_id r) (ch_enabled r) (ch_tlb_flush_needed r) (ch_ramin_address r) (ch_submitted r)
    (ch_table r) (ch_shadow_ramin r) (ch_original r) v.

(** [class poll_area_t] *)
Record poll_area_t : Type := PollArea {
  pa_per_size : Z;
  pa_area : Z
}.

Definition set_pa_per_size (v : Z) (r : poll_area_t) : poll_area_t :=
  PollArea v (pa_area r).
Definition set_pa_area (v : Z) (r : poll_area_t) : poll_area_t :=
  PollArea (pa_per_size r) v.

(** [class pfifo_t] *)
Record pfifo_t : Type := Pfifo {
  pf_total_channels : Z;
  pf_channels : Z;
  pf_range : Z
}.

Definition set_pf_total_channels (v : Z) (r : pfifo_t) : pfifo_t :=
  Pfifo v (pf_channels r) (pf_range r).
Definition set_pf_channels (v : Z) (r : pfifo_t) : pfifo_t :=
  Pfifo (pf_total_channels r) v (pf_range r).
Definition set_pf_range (v : Z) (r : pfifo_t) : pfifo_t :=
  Pfifo (pf_total_channels r) (pf_channels r) v.

(** [class instruments_t] *)
Record instruments_t : Type := Instruments {
  in_flush_times : Z;
  in_shadowing_times : Z;
  in_shadowing : Z;
  in_hypercalls : Z
}.

Definition set_in_flush_times (v : Z) (r : instruments_t) : instruments_t :=
  Instruments v (in_shadowing_times r) (in_shadowing r) (in_hypercalls r).
Definition set_in_shadowing_times (v : Z) (r : instruments_t) : instruments_t :=
  Instruments (in_flush_times r) v (in_shadowing r) (in_hypercalls r).
Definition set_in_shadowing (v : Z) (r : instruments_t) : instruments_t :=
  Instruments (in_flush_times r) (in_shadowing_times r) v (in_hypercalls r).
Definition set_in_hypercalls (v : Z) (r : instruments_t) : instruments_t :=
  Instruments (in_flush_times r) (in_shadowing_times r) (in_shadowing r) v.

(** [class device_bar1] *)
Record device_bar1 : Type := DeviceBar1 {
  db1_ramin : page;
  db1_directory : page;
  db1_entry : page;
  db1_range : Z
}.

Definition set_db1_ramin (v : page) (r : device_bar1) : device_bar1 :=
  DeviceBar1 v (db1_directory r) (db1_entry r) (db1_range r).
Definition set_db1_directory (v : page) (r : device_bar1) : device_bar1 :=
  DeviceBar1 (db1_ramin r) v (db1_entry r) (db1_range r).
Definition set_db1_entry (v : page) (r : device_bar1) : device_bar1 :=
  DeviceBar1 (db1_ramin r) (db1_directory r) v (db1_range r).
Definition set_db1_range (v : Z) (r : device_bar1) : device_bar1 :=
  DeviceBar1 (db1_ramin r) (db1_directory r) (db1_entry r) v.

(** [class device_bar3] *)
Record device_bar3 : Type := DeviceBar3 {
  db3_address : Z;
  db3_ramin : page;
  db3_directory : page;
  db3_entries : page;
  db3_software : vec Z;
  db3_large : vec page_entry;
  db3_small : vec page_entry
}.

Definition set_db3_address (v : Z) (r : device_bar3) : device_bar3 :=
  DeviceBar3 v (db3_ramin r) (db3_directory r) (db3_entries r) (db3_software r) (db3_large r)
    (db3_small r).
Definition set_db3_ramin (v : page) (r : device_bar3) : device_bar3 :=
  DeviceBar3 (db3_address r) v (db3_directory r) (db3_entries r) (db3_software r) (db3_large r)
    (db3_small r).
Definition set_db3_directory (v : page) (r : device_bar3) : device_bar3 :=
  DeviceBar3 (db3_address r) (db3_ramin r) v (db3_entries r) (db3_software r) (db3_large r)
    (db3_small r).
Definition set_db3_entries (v : page) (r : device_bar3) : device_bar3 :=
  DeviceBar3 (db3_address r) (db3_ramin r) (db3_directory r) v (db3_software r) (db3_large r)
    (db3_small r).
Definition set_db3_software (v : vec Z) (r : device_bar3) : device_bar3 :=
  DeviceBar3 (db3_address r) (db3_ramin r) (db3_directory r) (db3_entries r) v (db3_large r)
    (db3_small r).
Definition set_db3_large (v : vec page_entry) (r : device_bar3) : device_bar3 :=
  DeviceBar3 (db3_address r) (db3_ramin r) (db3_directory r) (db3_entries r) (db3_software r) v
    (db3_small r).
Definition set_db3_small (v : vec page_entry) (r : device_bar3) : device_bar3 :=
  DeviceBar3 (db3_address r) (db3_ramin r) (db3_directory r) (db3_entries r) (db3_software r)
    (db3_large r) v.

(** [struct engine_t]: the enabled channels and the two pages used in turn. *)
Record engine_t : Type := Engine {
  en_channels : vec bool;
  en_pages : vec (option page);
  en_cursor : Z
}.

Definition set_en_channels (v : vec bool) (r : engine_t) : engine_t :=
  Engine v (en_pages r) (en_cursor r).
Definition set_en_pages (v : vec (option page)) (r : engine_t) : engine_t :=
  Engine (en_channels r) v (en_cursor r).
Definition set_en_cursor (v : Z) (r : engine_t) : engine_t :=
  Engine (en_channels r) (en_pages r) v.

(** [class playlist_t] with its two implementations. *)
Inductive playlist_t : Type :=
| Nvc0Playlist (engine : engine_t)
| Nve0Playlist (engines : vec engine_t).

(** [class context]. [c_self] stands for the address of the object, as the scheduler
    sees it; [c_buffer] is the [value] field of the session's reply buffer. The pointers to
    para-virtual pages are names of objects: [c_pv_heap] holds the objects that exist,
    [c_allocated] maps a page id to its object and [c_pv_next] is the next unused name.
    [c_ramin_channel_map] is the multimap from RAMIN addresses to channel indices. *)
Record context : Type := Context {
  c_self : Z;
  c_through : bool;
  c_initialized : bool;
  c_domid : Z;
  c_id : Z;
  c_bar1_channel : bar1_channel_t;
  c_bar3_channel : bar3_channel_t;
  c_channels : vec channel;
  c_barrier : barrier_table;
  c_poll_area : poll_area_t;
  c_reg32 : vec Z;
  c_ramin_channel_map : list (Z * Z);
  c_bar3_address : Z;
  c_pfifo : pfifo_t;
  c_instruments : instruments_t;
  c_para_virtualized : bool;
  c_pv32 : option (vec Z);
  c_guest : option (vec Z);
  c_pv_heap : gmap Z page;
  c_pv_next : Z;
  c_allocated : gmap Z Z;
  c_pgds : vec (option Z);
  c_pv_bar1_pgd : option Z;
  c_pv_bar1_large_pgt : option Z;
  c_pv_bar1_small_pgt : option Z;
  c_pv_bar3_pgd : option Z;
  c_pv_bar3_pgt : option Z;
  c_buffer : Z
}.

Definition set_c_self (v : Z) (r : context) : context :=
  Context v (c_through r) (c_initialized r) (c_domid r) (c_id r) (c_bar1_channel r)
    (c_bar3_channel r) (c_channels r) (c_barrier r) (c_poll_area r) (c_reg32 r)
    (c_ramin_channel_map r) (c_bar3_address r) (c_pfifo r) (c_instruments r)
    (c_para_virtualized r) (c_pv32 r) (c_guest r) (c_pv_heap r) (c_pv_next r) (c_allocated r)
    (c_pgds r) (c_pv_bar1_pgd r) (c_pv_bar1_large_pgt r) (c_pv_bar1_small_pgt r)
    (c_pv_bar3_pgd r) (c_pv_bar3_pgt r) (c_buffer r).
Definition set_c_through (v : bool) (r : context) : context :=
  Context (c_self r) v (c_initialized r) (c_domid r) (c_id r) (c_bar1_channel r)
    (c_bar3_channel r) (c_channels r) (c_barrier r) (c_poll_area r) (c_reg32 r)
    (c_ramin_channel_map r) (c_bar3_address r) (c_pfifo r) (c_instruments r)
    (c_para_virtualized r) (c_pv32 r) (c_guest r) (c_pv_heap r) (c_pv_next r) (c_allocated r)
    (c_pgds r) (c_pv_bar1_pgd r) (c_pv_bar1_large_pgt r) (c_pv_bar1_small_pgt r)
    (c_pv_bar3_pgd r) (c_pv_bar3_pgt r) (c_buffer r).
Definition set_c_initialized (v : bool) (r : context) : context :=
  Context (c_self r) (c_through r) v (c_domid r) (c_id r) (c_bar1_channel r) (c_bar3_channel r)
    (c_channels r) (c_barrier r) (c_poll_area r) (c_reg32 r) (c_ramin_channel_map r)
    (c_bar3_address r) (c_pfifo r) (c_instruments r) (c_para_virtualized r) (c_pv32 r)
    (c_guest r) (c_pv_heap r) (c_pv_next r) (c_allocated r) (c_pgds r) (c_pv_bar1_pgd r)
    (c_pv_bar1_large_pgt r) (c_pv_bar1_small_pgt r) (c_pv_bar3_pgd r) (c_pv_bar3_pgt r)
    (c_buffer r).
Definition set_c_domid (v : Z) (r : context) : context :=
  Context (c_self r) (c_through r) (c_initialized r) v (c_id r) (c_bar1_channel r)
    (c_bar3_channel r) (c_channels r) (c_barrier r) (c_poll_area r) (c_reg32 r)
    (c_ramin_channel_map r) (c_bar3_address r) (c_pfifo r) (c_instruments r)
    (c_para_virtualized r) (c_pv32 r) (c_guest r) (c_pv_heap r) (c_pv_next r) (c_allocated r)
    (c_pgds r) (c_pv_bar1_pgd r) (c_pv_bar1_large_pgt r) (c_pv_bar1_small_pgt r)
    (c_pv_bar3_pgd r) (c_pv_bar3_pgt r) (c_buffer r).
Definition set_c_id (v : Z) (r : context) : context :=
  Context (c_self r) (c_through r) (c_initialized r) (c_domid r) v (c_bar1_channel r)
    (c_bar3_channel r) (c_channels r) (c_barrier r) (c_poll_area r) (c_reg32 r)
    (c_ramin_channel_map r) (c_bar3_address r) (c_pfifo r) (c_instruments r)
    (c_para_virtualized r) (c_pv32 r) (c_guest r) (c_pv_heap r) (c_pv_next r) (c_allocated r)
    (c_pgds r) (c_pv_bar1_pgd r) (c_pv_bar1_large_pgt r) (c_pv_bar1_small_pgt r)
    (c_pv_bar3_pgd r) (c_pv_bar3_pgt r) (c_buffer r).
Definition set_c_bar1_channel (v : bar1_channel_t) (r : context) : context :=
  Context (c_self r) (c_through r) (c_initialized r) (c_domid r) (c_id r) v (c_bar3_channel r)
    (c_channels r) (c_barrier r) (c_poll_area r) (c_reg32 r) (c_ramin_channel_map r)
    (c_bar3_address r) (c_pfifo r) (c_instruments r) (c_para_virtualized r) (c_pv32 r)
    (c_guest r) (c_pv_heap r) (c_pv_next r) (c_allocated r) (c_pgds r) (c_pv_bar1_pgd r)
    (c_pv_bar1_large_pgt r) (c_pv_bar1_small_pgt r) (c_pv_bar3_pgd r) (c_pv_bar3_pgt r)
    (c_buffer r).
Definition set_c_bar3_channel (v : bar3_channel_t) (r : context) : context :=
  Context (c_self r) (c_through r) (c_initialized r) (c_domid r) (c_id r) (c_bar1_channel r) v
    (c_channels r) (c_barrier r) (c_poll_area r) (c_reg32 r) (c_ramin_channel_map r)
    (c_bar3_address r) (c_pfifo r) (c_instruments r) (c_para_virtualized r) (c_pv32 r)
    (c_guest r) (c_pv_heap r) (c_pv_next r) (c_allocated r) (c_pgds r) (c_pv_bar1_pgd r)
    (c_pv_bar1_large_pgt r) (c_pv_bar1_small_pgt r) (c_pv_bar3_pgd r) (c_pv_bar3_pgt r)
    (c_buffer r).
Definition set_c_channels (v : vec channel) (r : context) : context :=
  Context (c_self r) (c_through r) (c_initialized r) (c_domid r) (c_id r) (c_bar1_channel r)
    (c_bar3_channel r) v (c_barrier r) (c_poll_area r) (c_reg32 r) (c_ramin_channel_map r)
    (c_bar3_address r) (c_pfifo r) (c_instruments r) (c_para_virtualized r) (c_pv32 r)
    (c_guest r) (c_pv_heap r) (c_pv_next r) (c_allocated r) (c_pgds r) (c_pv_bar1_pgd r)
    (c_pv_bar1_large_pgt r) (c_pv_bar1_small_pgt r) (c_pv_bar3_pgd r) (c_pv_bar3_pgt r)
    (c_buffer r).
Definition set_c_barrier (v : barrier_table) (r : context) : context :=
  Context (c_self r) (c_through r) (c_initialized r) (c_domid r) (c_id r) (c_bar1_channel r)
    (c_bar3_channel r) (c_channels r) v (c_poll_area r) (c_reg32 r) (c_ramin_channel_map r)
    (c_bar3_address r) (c_pfifo r) (c_instruments r) (c_para_virtualized r) (c_pv32 r)
    (c_guest r) (c_pv_heap r) (c_pv_next r) (c_allocated r) (c_pgds r) (c_pv_bar1_pgd r)
    (c_pv_bar1_large_pgt r) (c_pv_bar1_small_pgt r) (c_pv_bar3_pgd r) (c_pv_bar3_pgt r)
    (c_buffer r).
Definition set_c_poll_area (v : poll_area_t) (r : context) : context :=
  Context (c_self r) (c_through r) (c_initialized r) (c_domid r) (c_id r) (c_bar1_channel r)
    (c_bar3_channel r) (c_channels r) (c_barrier r) v (c_reg32 r) (c_ramin_channel_map r)
    (c_bar3_address r) (c_pfifo r) (c_instruments r) (c_para_virtualized r) (c_pv32 r)
    (c_guest r) (c_pv_heap r) (c_pv_next r) (c_allocated r) (c_pgds r) (c_pv_bar1_pgd r)
    (c_pv_bar1_large_pgt r) (c_pv_bar1_small_pgt r) (c_pv_bar3_pgd r) (c_pv_bar3_pgt r)
    (c_buffer r).
Definition set_c_reg32 (v : vec Z) (r : context) : context :=
  Context (c_self r) (c_through r) (c_initialized r) (c_domid r) (c_id r) (c_bar1_channel r)
    (c_bar3_channel r) (c_channels r) (c_barrier r) (c_poll_area r) v (c_ramin_channel_map r)
    (c_bar3_address r) (c_pfifo r) (c_instruments r) (c_para_virtualized r) (c_pv32 r)
    (c_guest r) (c_pv_heap r) (c_pv_next r) (c_allocated r) (c_pgds r) (c_pv_bar1_pgd r)
    (c_pv_bar1_large_pgt r) (c_pv_bar1_small_pgt r) (c_pv_bar3_pgd r) (c_pv_bar3_pgt r)
    (c_buffer r).
Definition set_c_ramin_channel_map (v : list (Z * Z)) (r : context) : context :=
  Context (c_self r) (c_through r) (c_initialized r) (c_domid r) (c_id r) (c_bar1_channel r)
    (c_bar3_channel r) (c_channels r) (c_barrier r) (c_poll_area r) (c_reg32 r) v
    (c_bar3_address r) (c_pfifo r) (c_instruments r) (c_para_virtualized r) (c_pv32 r)
    (c_guest r) (c_pv_heap r) (c_pv_next r) (c_allocated r) (c_pgds r) (c_pv_bar1_pgd r)
    (c_pv_bar1_large_pgt r) (c_pv_bar1_small_pgt r) (c_pv_bar3_pgd r) (c_pv_bar3_pgt r)
    (c_buffer r).
Definition set_c_bar3_address (v : Z) (r : context) : context :=
  Context (c_self r) (c_through r) (c_initialized r) (c_domid r) (c_id r) (c_bar1_channel r)
    (c_bar3_channel r) (c_channels r) (c_barrier r) (c_poll_area r) (c_reg32 r)
    (c_ramin_channel_map r) v (c_pfifo r) (c_instruments r) (c_para_virtualized r) (c_pv32 r)
    (c_guest r) (c_pv_heap r) (c_pv_next r) (c_allocated r) (c_pgds r) (c_pv_bar1_pgd r)
    (c_pv_bar1_large_pgt r) (c_pv_bar1_small_pgt r) (c_pv_bar3_pgd r) (c_pv_bar3_pgt r)
    (c_buffer r).
Definition set_c_pfifo (v : pfifo_t) (r : context) : context :=
  Context (c_self r) (c_through r) (c_initialized r) (c_domid r) (c_id r) (c_bar1_channel r)
    (c_bar3_channel r) (c_channels r) (c_barrier r) (c_poll_area r) (c_reg32 r)
    (c_ramin_channel_map r) (c_bar3_address r) v (c_instruments r) (c_para_virtualized r)
    (c_pv32 r) (c_guest r) (c_pv_heap r) (c_pv_next r) (c_allocated r) (c_pgds r)
    (c_pv_bar1_pgd r) (c_pv_bar1_large_pgt r) (c_pv_bar1_small_pgt r) (c_pv_bar3_pgd r)
    (c_pv_bar3_pgt r) (c_buffer r).
Definition set_c_instruments (v : instruments_t) (r : context) : context :=
  Context (c_self r) (c_through r) (c_initialized r) (c_domid r) (c_id r) (c_bar1_channel r)
    (c_bar3_channel r) (c_channels r) (c_barrier r) (c_poll_area r) (c_reg32 r)
    (c_ramin_channel_map r) (c_bar3_address r) (c_pfifo r) v (c_para_virtualized r) (c_pv32 r)
    (c_guest r) (c_pv_heap r) (c_pv_next r) (c_allocated r) (c_pgds r) (c_pv_bar1_pgd r)
    (c_pv_bar1_large_pgt r) (c_pv_bar1_small_pgt r) (c_pv_bar3_pgd r) (c_pv_bar3_pgt r)
    (c_buffer r).
Definition set_c_para_virtualized (v : bool) (r : context) : context :=
  Context (c_self r) (c_through r) (c_initialized r) (c_domid r) (c_id r) (c_bar1_channel r)
    (c_bar3_channel r) (c_channels r) (c_barrier r) (c_poll_area r) (c_reg32 r)
    (c_ramin_channel_map r) (c_bar3_address r) (c_pfifo r) (c_instruments r) v (c_pv32 r)
    (c_guest r) (c_pv_heap r) (c_pv_next r) (c_allocated r) (c_pgds r) (c_pv_bar1_pgd r)
    (c_pv_bar1_large_pgt r) (c_pv_bar1_small_pgt r) (c_pv_bar3_pgd r) (c_pv_bar3_pgt r)
    (c_buffer r).
Definition set_c_pv32 (v : option (vec Z)) (r : context) : context :=
  Context (c_self r) (c_through r) (c_initialized r) (c_domid r) (c_id r) (c_bar1_channel r)
    (c_bar3_channel r) (c_channels r) (c_barrier r) (c_poll_area r) (c_reg32 r)
    (c_ramin_channel_map r) (c_bar3_address r) (c_pfifo r) (c_instruments r)
    (c_para_virtualized r) v (c_guest r) (c_pv_heap r) (c_pv_next r) (c_allocated r) (c_pgds r)
    (c_pv_bar1_pgd r) (c_pv_bar1_large_pgt r) (c_pv_bar1_small_pgt r) (c_pv_bar3_pgd r)
    (c_pv_bar3_pgt r) (c_buffer r).
Definition set_c_guest (v : option (vec Z)) (r : context) : context :=
  Context (c_self r) (c_through r) (c_initialized r) (c_domid r) (c_id r) (c_bar1_channel r)
    (c_bar3_channel r) (c_channels r) (c_barrier r) (c_poll_area r) (c_reg32 r)
    (c_ramin_channel_map r) (c_bar3_address r) (c_pfifo r) (c_instruments r)
    (c_para_virtualized r) (c_pv32 r) v (c_pv_heap r) (c_pv_next r) (c_allocated r) (c_pgds r)
    (c_pv_bar1_pgd r) (c_pv_bar1_large_pgt r) (c_pv_bar1_small_pgt r) (c_pv_bar3_pgd r)
    (c_pv_bar3_pgt r) (c_buffer r).
Definition set_c_pv_heap (v : gmap Z page) (r : context) : context :=
  Context (c_self r) (c_through r) (c_initialized r) (c_domid r) (c_id r) (c_bar1_channel r)
    (c_bar3_channel r) (c_channels r) (c_barrier r) (c_poll_area r) (c_reg32 r)
    (c_ramin_channel_map r) (c_bar3_address r) (c_pfifo r) (c_instruments r)
    (c_para_virtualized r) (c_pv32 r) (c_guest r) v (c_pv_next r) (c_allocated r) (c_pgds r)
    (c_pv_bar1_pgd r) (c_pv_bar1_large_pgt r) (c_pv_bar1_small_pgt r) (c_pv_bar3_pgd r)
    (c_pv_bar3_pgt r) (c_buffer r).
Definition set_c_pv_next (v : Z) (r : context) : context :=
  Context (c_self r) (c_through r) (c_initialized r) (c_domid r) (c_id r) (c_bar1_channel r)
    (c_bar3_channel r) (c_channels r) (c_barrier r) (c_poll_area r) (c_reg32 r)
    (c_ramin_channel_map r) (c_bar3_address r) (c_pfifo r) (c_instruments r)
    (c_para_virtualized r) (c_pv32 r) (c_guest r) (c_pv_heap r) v (c_allocated r) (c_pgds r)
    (c_pv_bar1_pgd r) (c_pv_bar1_large_pgt r) (c_pv_bar1_small_pgt r) (c_pv_bar3_pgd r)
    (c_pv_bar3_pgt r) (c_buffer r).
Definition set_c_allocated (v : gmap Z Z) (r : context) : context :=
  Context (c_self r) (c_through r) (c_initialized r) (c_domid r) (c_id r) (c_bar1_channel r)
    (c_bar3_channel r) (c_channels r) (c_barrier r) (c_poll_area r) (c_reg32 r)
    (c_ramin_channel_map r) (c_bar3_address r) (c_pfifo r) (c_instruments r)
    (c_para_virtualized r) (c_pv32 r) (c_guest r) (c_pv_heap r) (c_pv_next r) v (c_pgds r)
    (c_pv_bar1_pgd r) (c_pv_bar1_large_pgt r) (c_pv_bar1_small_pgt r) (c_pv_bar3_pgd r)
    (c_pv_bar3_pgt r) (c_buffer r).
Definition set_c_pgds (v : vec (option Z)) (r : context) : context :=
  Context (c_self r) (c_through r) (c_initialized r) (c_domid r) (c_id r) (c_bar1_channel r)
    (c_bar3_channel r) (c_channels r) (c_barrier r) (c_poll_area r) (c_reg32 r)
    (c_ramin_channel_map r) (c_bar3_address r) (c_pfifo r) (c_instruments r)
    (c_para_virtualized r) (c_pv32 r) (c_guest r) (c_pv_heap r) (c_pv_next r) (c_allocated r) v
    (c_pv_bar1_pgd r) (c_pv_bar1_large_pgt r) (c_pv_bar1_small_pgt r) (c_pv_bar3_pgd r)
    (c_pv_bar3_pgt r) (c_buffer r).
Definition set_c_pv_bar1_pgd (v : option Z) (r : context) : context :=
  Context (c_self r) (c_through r) (c_initialized r) (c_domid r) (c_id r) (c_bar1_channel r)
    (c_bar3_channel r) (c_channels r) (c_barrier r) (c_poll_area r) (c_reg32 r)
    (c_ramin_channel_map r) (c_bar3_address r) (c_pfifo r) (c_instruments r)
    (c_para_virtualized r) (c_pv32 r) (c_guest r) (c_pv_heap r) (c_pv_next r) (c_allocated r)
    (c_pgds r) v (c_pv_bar1_large_pgt r) (c_pv_bar1_small_pgt r) (c_pv_bar3_pgd r)
    (c_pv_bar3_pgt r) (c_buffer r).
Definition set_c_pv_bar1_large_pgt (v : option Z) (r : context) : context :=
  Context (c_self r) (c_through r) (c_initialized r) (c_domid r) (c_id r) (c_bar1_channel r)
    (c_bar3_channel r) (c_channels r) (c_barrier r) (c_poll_area r) (c_reg32 r)
    (c_ramin_channel_map r) (c_bar3_address r) (c_pfifo r) (c_instruments r)
    (c_para_virtualized r) (c_pv32 r) (c_guest r) (c_pv_heap r) (c_pv_next r) (c_allocated r)
    (c_pgds r) (c_pv_bar1_pgd r) v (c_pv_bar1_small_pgt r) (c_pv_bar3_pgd r) (c_pv_bar3_pgt r)
    (c_buffer r).
Definition set_c_pv_bar1_small_pgt (v : option Z) (r : context) : context :=
  Context (c_self r) (c_through r) (c_initialized r) (c_domid r) (c_id r) (c_bar1_channel r)
    (c_bar3_channel r) (c_channels r) (c_barrier r) (c_poll_area r) (c_reg32 r)
    (c_ramin_channel_map r) (c_bar3_address r) (c_pfifo r) (c_instruments r)
    (c_para_virtualized r) (c_pv32 r) (c_guest r) (c_pv_heap r) (c_pv_next r) (c_allocated r)
    (c_pgds r) (c_pv_bar1_pgd r) (c_pv_bar1_large_pgt r) v (c_pv_bar3_pgd r) (c_pv_bar3_pgt r)
    (c_buffer r).
Definition set_c_pv_bar3_pgd (v : option Z) (r : context) : context :=
  Context (c_self r) (c_through r) (c_initialized r) (c_domid r) (c_id r) (c_bar1_channel r)
    (c_bar3_channel r) (c_channels r) (c_barrier r) (c_poll_area r) (c_reg32 r)
    (c_ramin_channel_map r) (c_bar3_address r) (c_pfifo r) (c_instruments r)
    (c_para_virtualized r) (c_pv32 r) (c_guest r) (c_pv_heap r) (c_pv_next r) (c_allocated r)
    (c_pgds r) (c_pv_bar1_pgd r) (c_pv_bar1_large_pgt r) (c_pv_bar1_small_pgt r) v
    (c_pv_bar3_pgt r) (c_buffer r).
Definition set_c_pv_bar3_pgt (v : option Z) (r : context) : context :=
  Context (c_self r) (c_through r) (c_initialized r) (c_domid r) (c_id r) (c_bar1_channel r)
    (c_bar3_channel r) (c_channels r) (c_barrier r) (c_poll_area r) (c_reg32 r)
    (c_ramin_channel_map r) (c_bar3_address r) (c_pfifo r) (c_instruments r)
    (c_para_virtualized r) (c_pv32 r) (c_guest r) (c_pv_heap r) (c_pv_next r) (c_allocated r)
    (c_pgds r) (c_pv_bar1_pgd r) (c_pv_bar1_large_pgt r) (c_pv_bar1_small_pgt r)
    (c_pv_bar3_pgd r) v (c_buffer r).
Definition set_c_buffer (v : Z) (r : context) : context :=
  Context (c_self r) (c_through r) (c_initialized r) (c_domid r) (c_id r) (c_bar1_channel r)
    (c_bar3_channel r) (c_channels r) (c_barrier r) (c_poll_area r) (c_reg32 r)
    (c_ramin_channel_map r) (c_bar3_address r) (c_pfifo r) (c_instruments r)
    (c_para_virtualized r) (c_pv32 r) (c_guest r) (c_pv_heap r) (c_pv_next r) (c_allocated r)
    (c_pgds r) (c_pv_bar1_pgd r) (c_pv_bar1_large_pgt r) (c_pv_bar1_small_pgt r)
    (c_pv_bar3_pgd r) (c_pv_bar3_pgt r) v.

(** [class device_t] *)
Record device_t : Type := Device {
  d_virts : vec bool;
  d_contexts : vec (option Z);
  d_pmem : Z;
  d_bar1 : device_bar1;
  d_bar3 : device_bar3;
  d_vram : vram_manager_t;
  d_playlist : playlist_t;
  d_sched : sched_state;
  d_card : card
}.

Definition set_d_virts (v : vec bool) (r : device_t) : device_t :=
  Device v (d_contexts r) (d_pmem r) (d_bar1 r) (d_bar3 r) (d_vram r) (d_playlist r) (d_sched r)
    (d_card r).
Definition set_d_contexts (v : vec (option Z)) (r : device_t) : device_t :=
  Device (d_virts r) v (d_pmem r) (d_bar1 r) (d_bar3 r) (d_vram r) (d_playlist r) (d_sched r)
    (d_card r).
Definition set_d_pmem (v : Z) (r : device_t) : device_t :=
  Device (d_virts r) (d_contexts r) v (d_bar1 r) (d_bar3 r) (d_vram r) (d_playlist r)
    (d_sched r) (d_card r).
Definition set_d_bar1 (v : device_bar1) (r : device_t) : device_t :=
  Device (d_virts r) (d_contexts r) (d_pmem r) v (d_bar3 r) (d_vram r) (d_playlist r)
    (d_sched r) (d_card r).
Definition set_d_bar3 (v : device_bar3) (r : device_t) : device_t :=
  Device (d_virts r) (d_contexts r) (d_pmem r) (d_bar1 r) v (d_vram r) (d_playlist r)
    (d_sched r) (d_card r).
Definition set_d_vram (v : vram_manager_t) (r : device_t) : device_t :=
  Device (d_virts r) (d_contexts r) (d_pmem r) (d_bar1 r) (d_bar3 r) v (d_playlist r)
    (d_sched r) (d_card r).
Definition set_d_playlist (v : playlist_t) (r : device_t) : device_t :=
  Device (d_virts r) (d_contexts r) (d_pmem r) (d_bar1 r) (d_bar3 r) (d_vram r) v (d_sched r)
    (d_card r).
Definition set_d_sched (v : sched_state) (r : device_t) : device_t :=
  Device (d_virts r) (d_contexts r) (d_pmem r) (d_bar1 r) (d_bar3 r) (d_vram r) (d_playlist r) v
    (d_card r).
Definition set_d_card (v : card) (r : device_t) : device_t :=
  Device (d_virts r) (d_contexts r) (d_pmem r) (d_bar1 r) (d_bar3 r) (d_vram r) (d_playlist r)
    (d_sched r) v.

(** ** The platform

    What A3 does not implement: the GPU behind the memory-mapped BARs ([mmio_read],
    [mmio_write] take the BAR, the offset, and the access size in bytes), the libxl/libxc
    queries of [xen.h] ([xen_gfn_to_mfn domid gfn]; [xen_map_foreign domid frame], which
    gives the words of the mapped range or fails), the flags of [flags.cc], what an
    uninitialised 64-bit field happens to hold, what the timer reports, and where the
    multimap of channels puts a new element. *)
Class Platform : Type := {
  gpu : Type;
  mmio_read : Z -> Z -> Z -> gpu -> Z * gpu;
  mmio_write : Z -> Z -> Z -> Z -> gpu -> gpu;
  xen_gfn_to_mfn : Z -> Z -> Z;
  xen_map_foreign : Z -> Z -> option (vec Z);
  lazy_shadowing : bool;
  bar3_remapping : bool;
  uninitialized : Z;
  elapsed : gpu -> Z;
  channel_map_insert : Z * Z -> list (Z * Z) -> list (Z * Z)
}.

(** Documented behaviour of the hash multimap: an insertion adds the element somewhere. *)
Class ChannelMapLaws (PF : Platform) : Prop :=
  channel_map_insert_perm : forall x l, channel_map_insert x l ≡ₚ x :: l.

(** The calls A3 makes to change a guest's physical memory map:
    [a3_xen_add_memory_mapping] and [a3_xen_remove_memory_mapping]
    (domain, guest frame, machine frame, number of frames). *)
Inductive xen_call : Type :=
| XenMap (domid gfn mfn count : Z)
| XenUnmap (domid gfn mfn count : Z).

(** The world of the thread serving one context: GPU, device, context, and the
    memory-map calls made so far. *)
Record world `{Platform} : Type := World {
  w_gpu : gpu;
  w_dev : device_t;
  w_ctx : context;
  w_xen : list xen_call
}.

Section Accessors.
Context `{Platform}.

Definition set_w_gpu (g : gpu) (w : world) : world := World _ g (w_dev w) (w_ctx w) (w_xen w).
Definition set_w_dev (d : device_t) (w : world) : world := World _ (w_gpu w) d (w_ctx w) (w_xen w).
Definition set_w_ctx (c : context) (w : world) : world := World _ (w_gpu w) (w_dev w) c (w_xen w).
Definition set_w_xen (l : list xen_call) (w : world) : world :=
  World _ (w_gpu w) (w_dev w) (w_ctx w) l.

Definition get_dev_f {A} (f : device_t -> A) : M world A := gets (fun w => f (w_dev w)).
Definition get_ctx_f {A} (f : context -> A) : M world A := gets (fun w => f (w_ctx w)).
Definition mod_dev (f : device_t -> device_t) : M world unit :=
  modify (fun w => set_w_dev (f (w_dev w)) w).
Definition mod_ctx (f : context -> context) : M world unit :=
  modify (fun w => set_w_ctx (f (w_ctx w)) w).

(** Running an operation of a component inside the world. *)
Definition on_vram {A} : M vram_manager_t A -> M world A :=
  zoom (fun w => d_vram (w_dev w)) (fun v w => set_w_dev (set_d_vram v (w_dev w)) w).
Definition on_barrier {A} : M barrier_table A -> M world A :=
  zoom (fun w => c_barrier (w_ctx w)) (fun v w => set_w_ctx (set_c_barrier v (w_ctx w)) w).
Definition on_sched {A} : M sched_state A -> M world A :=
  zoom (fun w => d_sched (w_dev w)) (fun v w => set_w_dev (set_d_sched v (w_dev w)) w).

(** Array accesses; an index out of range is undefined behaviour. *)
Definition vread {S A} (v : vec A) (i : Z) : M S A := of_option OutOfBounds (vec_get v i).
Definition vwrite {S A} (v : vec A) (i : Z) (x : A) : M S (vec A) :=
  of_option OutOfBounds (vec_set v i x).

(** [channels(i)] and an update of that channel. *)
Definition get_channel (i : Z) : M world channel :=
  let! v := get_ctx_f c_channels in vread v i.
Definition mod_channel (i : Z) (f : channel -> channel) : M world unit :=
  let! v := get_ctx_f c_channels in
  let! c := vread v i in
  let! v := vwrite v i (f c) in
  mod_ctx (set_c_channels v).

End Accessors.
