(* ===== verification/Device.v ===== *)
(** * Device access ([device.cc], [mmio.h], [registers.cc], [pmem.cc], [page.cc])

    Accesses to the memory-mapped BARs, the register accessor with its polling
    functions, the window through which A3 reaches all of the video memory from BAR0
    (PRAMIN: register [0x1700] selects, [0x700000..0x7fffff] accesses), and the pages
    of device memory A3 allocates for itself. The window is cached in [pmem_]; the main
    theorem says that with the cache in step any sequence of accesses behaves like
    accesses to a flat memory. *)

From S2P Require Import Prelude Config Vram PageTable Barrier Sched State.

(** ** Accesses ([device_t::read], [device_t::write]) *)

Section Device.
Context `{PF : Platform}.

(** [bars_[bar].addr]: three BARs are mapped, the other entries of the array of
    five are null. *)
Definition bar_addr (bar : Z) : M world unit :=
  if (bar =? 0) || (bar =? 1) || (bar =? 3) then ret tt
  else if (0 <=? bar) && (bar <? 5) then fail NullDeref
  else fail OutOfBounds.

(** The width of the access: 1, 2 or 4 bytes; anything else is unreachable code. *)
Definition valid_size (size : Z) : bool := (size =? 1) || (size =? 2) || (size =? 4).

(** [device_t::read(bar, offset, size)]; the offset is a [uint32_t]. *)
Definition device_read (bar offset size : Z) : M world Z :=
  assert_ (valid_size size) ;;;
  bar_addr bar ;;;
  let! w := gets id in
  let r := mmio_read bar (u32 offset) size (w_gpu w) in
  modify (set_w_gpu r.2) ;;;
  ret (r.1 mod 2 ^ (8 * size)).

(** [device_t::write(bar, offset, val, size)] *)
Definition device_write (bar offset val size : Z) : M world unit :=
  assert_ (valid_size size) ;;;
  bar_addr bar ;;;
  modify (fun w => set_w_gpu (mmio_write bar (u32 offset) (u32 val mod 2 ^ (8 * size)) size (w_gpu w)) w).

(** ** The PRAMIN window ([device_t::read_pmem], [device_t::write_pmem]) *)

Definition pmem_select (addr : Z) : M world unit :=
  let shifted := Z.shiftr (Z.land addr 0xffffff00000) 16 in
  let! pmem := get_dev_f d_pmem in
  when (negb (shifted =? pmem))
    (mod_dev (set_d_pmem (u32 shifted)) ;;; device_write 0 0x1700 shifted 4).

Definition read_pmem (addr size : Z) : M world Z :=
  pmem_select addr ;;;
  device_read 0 (0x700000 + Z.land addr 0xfffff) size.

Definition write_pmem (addr val size : Z) : M world unit :=
  pmem_select addr ;;;
  device_write 0 (0x700000 + Z.land addr 0xfffff) val size.

(** [pmem::accessor::read32] and [write32]; addresses are 64-bit. *)
Definition pmem_read32 (addr : Z) : M world Z := read_pmem (u64 addr) 4.
Definition pmem_write32 (addr val : Z) : M world unit := write_pmem (u64 addr) val 4.

(** [mmio::read64] and [mmio::write64] on a 32-bit reader and writer. *)
Definition read64 (read32 : Z -> M world Z) (addr : Z) : M world Z :=
  let! lower := read32 addr in
  let! upper := read32 (u64 (addr + 4)) in
  ret (Z.lor lower (Z.shiftl upper 32)).
Definition write64 (write32 : Z -> Z -> M world unit) (addr value : Z) : M world unit :=
  write32 addr (bit_mask 32 value) ;;;
  write32 (u64 (addr + 4)) (Z.shiftr value 32).

(** ** Registers ([registers::accessor]) *)

Definition reg_read (offset size : Z) : M world Z := device_read 0 offset size.
Definition reg_write (offset val size : Z) : M world unit := device_write 0 offset val size.
Definition reg_read32 (offset : Z) : M world Z := reg_read offset 4.
Definition reg_write32 (offset val : Z) : M world unit := reg_write offset val 4.

(** [accessor::mask32] *)
Definition mask32 (offset mask val : Z) : M world Z :=
  let! tmp := reg_read32 offset in
  reg_write32 offset (Z.lor (Z.land tmp (u32 (Z.lnot mask))) val) ;;;
  ret tmp.

(** [accessor::wait_cb]: with assertions on, the wait gives up after ten million
    rounds. *)
Definition wait_cb (offset mask val : Z) (func : Z -> Z -> bool) : M world bool :=
  poll 10000000 (let! v := reg_read32 offset in ret (func (Z.land v mask) val)).
Definition wait_eq (offset mask val : Z) : M world bool := wait_cb offset mask val Z.eqb.
Definition wait_ne (offset mask val : Z) : M world bool :=
  wait_cb offset mask val (fun a b => negb (a =? b)).

(** ** Pages ([page.cc]) *)

Definition page_new (n : Z) : M world page := on_vram (vram_malloc n).
Definition page_delete (p : page) : M world unit := on_vram (vram_free p).
Definition page_size (p : page) : Z := units_ p * 0x1000.

(** [page::clear]: the counter goes up to the size divided by four, in steps of four. *)
Definition page_clear (p : page) : M world unit :=
  for_ (Z.to_nat ((page_size p / 4 + 3) / 4)) 0
    (fun k => pmem_write32 (address_ p + 4 * k) 0).

Definition page_write (p : page) (offset value s : Z) : M world unit :=
  assert_ (offset <? page_size p) ;;; write_pmem (u64 (address_ p + offset)) value s.
Definition page_read (p : page) (offset s : Z) : M world Z :=
  assert_ (offset <? page_size p) ;;; read_pmem (u64 (address_ p + offset)) s.
Definition page_write32 (p : page) (offset value : Z) : M world unit :=
  assert_ (offset <? page_size p) ;;; pmem_write32 (address_ p + offset) value.
Definition page_read32 (p : page) (offset : Z) : M world Z :=
  assert_ (offset <? page_size p) ;;; pmem_read32 (address_ p + offset).

(** [page_entry::create]: the second word is only read when the entry is present. *)
Definition page_entry_create (read32 : Z -> M world Z) (address : Z) : M world (option page_entry) :=
  let! word0 := read32 address in
  if pe_present (PageEntry word0 0) then
    let! word1 := read32 (u64 (address + 4)) in
    ret (Some (PageEntry word0 word1))
  else ret None.

(** [page_directory::create] *)
Definition page_directory_create (address : Z) : M world page_directory :=
  let! word0 := pmem_read32 address in
  let! word1 := pmem_read32 (u64 (address + 4)) in
  ret (PageDirectory word0 word1).

(** The context's own translation: [guest_to_host] with this context's identity. *)
Definition ctx_guest_to_host (e : page_entry) : M world page_entry :=
  let! c := get_ctx_f id in
  ret (guest_to_host (c_id c) (xen_gfn_to_mfn (c_domid c)) e).

(** [chipset_t::chipset_t] and [type()]. *)
Definition chipset (boot0 : Z) : card :=
  let value := Z.shiftr (Z.land boot0 0xff00000) 20 in
  let family := Z.land value 0xf0 in
  if family =? 0xc0 then NVC0
  else if (family =? 0xe0) || (family =? 0xf0) then NVE0
  else UNINITIALIZED.
Definition chipset_type : M world card :=
  let! t := get_dev_f d_card in
  assert_ (bool_decide (t <> UNINITIALIZED)) ;;; ret t.

(** [device_t::is_active] *)
Definition is_active : M world bool :=
  let! v := reg_read32 0x400700 in ret (negb (v =? 0)).

End Device.

(** ** What the window promises

    A byte-addressed video memory, little endian. *)

Definition memory : Type := Z -> Z.

Fixpoint load_bytes (n : nat) (a : Z) (m : memory) : Z :=
  match n with O => 0 | S n => m a + 256 * load_bytes n (a + 1) m end.
Definition load (size a : Z) (m : memory) : Z := load_bytes (Z.to_nat size) a m.

Definition store (size a v : Z) (m : memory) : memory :=
  fun x => if (a <=? x) && (x <? a + size) then v / 2 ^ (8 * (x - a)) mod 256 else m x.

(** Documented behaviour of the BAR0 window of the GPU: register [0x1700] holds the
    base of the window in units of 64KB; accesses that stay inside the window read and
    write video memory at that base; nothing else moves the base or the memory (the
    engines are not modelled while A3 accesses memory). *)
Class Pramin (PF : Platform) : Type := {
  vram_bytes : gpu -> memory;
  window_base : gpu -> Z
}.

Class PraminLaws (PF : Platform) (PR : Pramin PF) : Prop := {
  vram_bytes_range : forall g a, 0 <= vram_bytes g a < 256;
  window_select : forall g v, 0 <= v < 2 ^ 28 ->
    window_base (mmio_write 0 0x1700 v 4 g) = v
    /\ forall a, vram_bytes (mmio_write 0 0x1700 v 4 g) a = vram_bytes g a;
  window_read : forall g o size, valid_size size = true -> 0 <= o -> o + size <= 0x100000 ->
    let r := mmio_read 0 (0x700000 + o) size g in
    r.1 = load size (window_base g * 0x10000 + o) (vram_bytes g)
    /\ window_base r.2 = window_base g
    /\ forall a, vram_bytes r.2 a = vram_bytes g a;
  window_write : forall g o v size, valid_size size = true -> 0 <= o -> o + size <= 0x100000 ->
    0 <= v < 2 ^ (8 * size) ->
    let g' := mmio_write 0 (0x700000 + o) v size g in
    window_base g' = window_base g
    /\ forall a, vram_bytes g' a = store size (window_base g * 0x10000 + o) v (vram_bytes g) a
}.

(** ** Facts about [load] and [store] *)

Lemma load_bytes_ext n a m m' :
  (forall x, a <= x < a + Z.of_nat n -> m x = m' x) -> load_bytes n a m = load_bytes n a m'.
Proof.
  revert a. induction n as [|n IH]; intros a H; [done|]. simpl.
  rewrite (H a) by lia. rewrite (IH (a + 1)); [done|]. intros x Hx. apply H. lia.
Qed.

Lemma load_ext size a m m' :
  0 <= size -> (forall x, a <= x < a + size -> m x = m' x) -> load size a m = load size a m'.
Proof. intros Hs H. apply load_bytes_ext. intros x Hx. apply H. lia. Qed.

Lemma load_bytes_range n a m :
  (forall x, 0 <= m x < 256) -> 0 <= load_bytes n a m < 2 ^ (8 * Z.of_nat n).
Proof.
  intros H. revert a. induction n as [|n IH]; intros a.
  - simpl. rewrite Z.mul_0_r. simpl. lia.
  - cbn [load_bytes]. specialize (IH (a + 1)). specialize (H a).
    replace (8 * Z.of_nat (S n)) with (8 + 8 * Z.of_nat n) by lia.
    rewrite Z.pow_add_r by lia. change (2 ^ 8) with 256. lia.
Qed.

Lemma load_range size a m :
  0 <= size -> (forall x, 0 <= m x < 256) -> 0 <= load size a m < 2 ^ (8 * size).
Proof.
  intros Hs H. pose proof (load_bytes_range (Z.to_nat size) a m H) as Hr.
  by rewrite Z2Nat.id in Hr by done.
Qed.

Lemma load_store_bytes n a m v k :
  (forall x, a <= x < a + Z.of_nat n -> m x = v / 2 ^ (8 * (k + (x - a))) mod 256) -> 0 <= k ->
  load_bytes n a m = v / 2 ^ (8 * k) mod 2 ^ (8 * Z.of_nat n).
Proof.
  revert a k. induction n as [|n IH]; intros a k H Hk.
  - simpl. rewrite Z.mul_0_r. simpl. by rewrite Z.mod_1_r.
  - cbn [load_bytes]. rewrite (H a) by lia. rewrite (IH (a + 1) (k + 1)); [|intros x Hx|lia].
    2:{ rewrite H by lia. by replace (k + (x - a)) with (k + 1 + (x - (a + 1))) by lia. }
    replace (k + (a - a)) with k by lia.
    replace (8 * Z.of_nat (S n)) with (8 + 8 * Z.of_nat n) by lia.
    replace (8 * (k + 1)) with (8 * k + 8) by lia.
    rewrite !Z.pow_add_r by lia. change (2 ^ 8) with 256.
    rewrite <- Z.div_div by lia. set (q := v / 2 ^ (8 * k)).
    rewrite Z.rem_mul_r by lia. lia.
Qed.

(** Reading back what was written. *)
Lemma load_store_same size a v m :
  0 <= size -> 0 <= v < 2 ^ (8 * size) -> load size a (store size a v m) = v.
Proof.
  intros Hs Hv. unfold load. rewrite (load_store_bytes _ _ _ v 0); [|intros x Hx|lia].
  - rewrite Z.mul_0_r, Z.div_1_r, Z2Nat.id by lia. by apply Z.mod_small.
  - unfold store. rewrite Z2Nat.id in Hx by done.
    by rewrite (proj2 (Z.leb_le a x)), (proj2 (Z.ltb_lt x (a + size))) by lia.
Qed.

Lemma load_store_other size a size' a' v m :
  0 <= size -> 0 <= size' -> a + size <= a' \/ a' + size' <= a ->
  load size a (store size' a' v m) = load size a m.
Proof.
  intros Hs Hs' Hd. apply load_ext; [done|]. intros x Hx. unfold store.
  destruct (Z.leb_spec a' x), (Z.ltb_spec x (a' + size')); simpl; try done. lia.
Qed.

Lemma store_outside size a v m x : x < a \/ a + size <= x -> store size a v m x = m x.
Proof.
  intros Hx. unfold store. destruct (Z.leb_spec a x), (Z.ltb_spec x (a + size)); simpl; try done. lia.
Qed.

(** ** The window refines a flat memory *)

Section Window.
Context `{PF : Platform} {PR : Pramin PF} {PL : PraminLaws PF PR}.

Definition mem (w : world) : memory := vram_bytes (w_gpu w).

(** The cached window is the hardware's. *)
Definition synced (w : world) : Prop := d_pmem (w_dev w) = window_base (w_gpu w).

(** Only the GPU and the cached window differ. *)
Record pmem_frame (w w' : world) : Prop := PmemFrame {
  fr_ctx : w_ctx w' = w_ctx w;
  fr_xen : w_xen w' = w_xen w;
  fr_dev : set_d_pmem 0 (w_dev w') = set_d_pmem 0 (w_dev w)
}.

#[export] Instance pmem_frame_refl : Reflexive pmem_frame.
Proof. by constructor. Qed.

#[export] Instance pmem_frame_trans : Transitive pmem_frame.
Proof. intros w1 w2 w3 [] []. constructor; congruence. Qed.

(** An access that stays inside one megabyte. *)
Definition fits (a size : Z) : Prop := valid_size size = true /\ a mod 2 ^ 20 + size <= 2 ^ 20.

Lemma valid_size_range size : valid_size size = true -> 1 <= size <= 4.
Proof. unfold valid_size. intros H. bool_hyps; lia. Qed.

Lemma window_bits a : Z.shiftr (Z.land a 0xffffff00000) 16 = a / 2 ^ 20 mod 2 ^ 24 * 16.
Proof.
  change 0xffffff00000 with (Z.shiftl (Z.ones 24) 20).
  replace (a / 2 ^ 20 mod 2 ^ 24 * 16) with (Z.shiftl (Z.land (Z.shiftr a 20) (Z.ones 24)) 4).
  - apply Z.bits_inj'. intros n Hn.
    rewrite Z.shiftr_spec, Z.land_spec, Z.shiftl_spec by lia.
    destruct (Z_lt_le_dec n 4).
    + rewrite (Z.shiftl_spec_low _ _ n) by done.
      rewrite (Z.testbit_neg_r _ (n + 16 - 20)) by lia. by rewrite andb_false_r.
    + rewrite Z.shiftl_spec, Z.land_spec, Z.shiftr_spec by lia.
      by replace (n - 4 + 20) with (n + 16) by lia; replace (n + 16 - 20) with (n - 4) by lia.
  - rewrite Z.shiftl_mul_pow2, Z.land_ones, Z.shiftr_div_pow2 by lia. done.
Qed.

Lemma window_offset a : Z.land a 0xfffff = a mod 2 ^ 20.
Proof. change 0xfffff with (Z.ones 20). by rewrite Z.land_ones by lia. Qed.

Lemma window_addr a : a / 2 ^ 20 mod 2 ^ 24 * 16 * 0x10000 + a mod 2 ^ 20 = a mod 2 ^ 44.
Proof.
  change (2 ^ 44) with (2 ^ 20 * 2 ^ 24). rewrite (Z.rem_mul_r a (2 ^ 20) (2 ^ 24)) by lia. lia.
Qed.

Lemma wp_device_write bar offset val size (Q : unit -> world -> Prop) w :
  valid_size size = true -> (bar =? 0) || (bar =? 1) || (bar =? 3) = true ->
  Q tt (set_w_gpu (mmio_write bar (u32 offset) (u32 val mod 2 ^ (8 * size)) size (w_gpu w)) w) ->
  wp no_error (device_write bar offset val size) Q w.
Proof. intros Hs Hb HQ. unfold device_write, bar_addr. rewrite Hs, Hb. exact HQ. Qed.

Lemma wp_device_read bar offset size (Q : Z -> world -> Prop) w :
  valid_size size = true -> (bar =? 0) || (bar =? 1) || (bar =? 3) = true ->
  (let r := mmio_read bar (u32 offset) size (w_gpu w) in
   Q (r.1 mod 2 ^ (8 * size)) (set_w_gpu r.2 w)) ->
  wp no_error (device_read bar offset size) Q w.
Proof. intros Hs Hb HQ. unfold device_read, bar_addr. rewrite Hs, Hb. exact HQ. Qed.

Lemma pmem_select_spec a w :
  synced w ->
  wp no_error (pmem_select a)
    (fun _ w' => synced w' /\ pmem_frame w w' /\ (forall x, mem w' x = mem w x)
       /\ window_base (w_gpu w') = a / 2 ^ 20 mod 2 ^ 24 * 16) w.
Proof.
  intros Hs. unfold pmem_select. rewrite window_bits. set (s := a / 2 ^ 20 mod 2 ^ 24 * 16).
  assert (Hr : 0 <= s < 2 ^ 28) by (unfold s; zlia).
  apply wp_bind, wp_gets. apply wp_when; intros Hb.
  - apply wp_bind, wp_modify, wp_device_write; [done|done|].
    rewrite (u32_small s) by lia. change (u32 0x1700) with 0x1700. change (8 * 4) with 32.
    rewrite Z.mod_small by lia.
    destruct (window_select (w_gpu w) s Hr) as [Hw Hm].
    split_and!; [|by constructor|intros x; apply Hm|exact Hw].
    unfold synced. simpl. done.
  - apply negb_false_iff, Z.eqb_eq in Hb. split_and!; [done|done|done|]. by rewrite <- Hs, <- Hb.
Qed.

Lemma read_pmem_spec a size w :
  synced w -> fits a size ->
  wp no_error (read_pmem a size)
    (fun v w' => v = load size (a mod 2 ^ 44) (mem w)
       /\ synced w' /\ pmem_frame w w' /\ forall x, mem w' x = mem w x) w.
Proof.
  intros Hs [Hv Hf]. pose proof (valid_size_range size Hv). unfold read_pmem.
  apply wp_bind. eapply wp_mono; [by apply pmem_select_spec|].
  intros [] w1 (Hs1 & Hf1 & Hm1 & Hb1). apply wp_device_read; [done|done|].
  rewrite window_offset. assert (0 <= a mod 2 ^ 20 < 2 ^ 20) by zlia.
  rewrite u32_small by lia.
  destruct (window_read (w_gpu w1) (a mod 2 ^ 20) size) as (Hr & Hb & Hm); [done|lia|lia|].
  simpl. rewrite Hr, Hb1, window_addr. split_and!.
  - rewrite Z.mod_small.
    + apply load_ext; [lia|]. intros x _. apply Hm1.
    + apply load_range; [lia|]. intros x. apply vram_bytes_range.
  - unfold synced. simpl. by rewrite Hb.
  - etrans; [exact Hf1|]. by constructor.
  - intros x. unfold mem. simpl. rewrite Hm. apply Hm1.
Qed.

Lemma write_pmem_spec a v size w :
  synced w -> fits a size ->
  wp no_error (write_pmem a v size)
    (fun _ w' => synced w' /\ pmem_frame w w'
       /\ forall x, mem w' x = store size (a mod 2 ^ 44) (u32 v mod 2 ^ (8 * size)) (mem w) x) w.
Proof.
  intros Hs [Hv Hf]. pose proof (valid_size_range size Hv). unfold write_pmem.
  apply wp_bind. eapply wp_mono; [by apply pmem_select_spec|].
  intros [] w1 (Hs1 & Hf1 & Hm1 & Hb1). apply wp_device_write; [done|done|].
  rewrite window_offset. assert (0 <= a mod 2 ^ 20 < 2 ^ 20) by zlia.
  rewrite (u32_small (_ + _)) by lia.
  destruct (window_write (w_gpu w1) (a mod 2 ^ 20) (u32 v mod 2 ^ (8 * size)) size)
    as (Hb & Hm); [done|lia|lia|apply Z.mod_pos_bound; lia|]. split_and!.
  - unfold synced. simpl. by rewrite Hb.
  - etrans; [exact Hf1|]. by constructor.
  - intros x. unfold mem. simpl. rewrite Hm, Hb1, window_addr. unfold store.
    case_match; [done|]. apply Hm1.
Qed.

(** *** Sequences of accesses *)

Inductive pmem_op : Type :=
| PRead (addr size : Z)
| PWrite (addr val size : Z).

Definition run_pmem (op : pmem_op) : M world (list Z) :=
  match op with
  | PRead a s => let! v := read_pmem a s in ret [v]
  | PWrite a v s => write_pmem a v s ;;; ret []
  end.
Fixpoint run_pmems (ops : list pmem_op) : M world (list Z) :=
  match ops with
  | [] => ret []
  | op :: ops => let! r := run_pmem op in let! rs := run_pmems ops in ret (r ++ rs)
  end.

(** The same accesses to a flat memory of [2^44] bytes. *)
Definition flat_pmem (op : pmem_op) (m : memory) : list Z * memory :=
  match op with
  | PRead a s => ([load s (a mod 2 ^ 44) m], m)
  | PWrite a v s => ([], store s (a mod 2 ^ 44) (u32 v mod 2 ^ (8 * s)) m)
  end.
Fixpoint flat_pmems (ops : list pmem_op) (m : memory) : list Z * memory :=
  match ops with
  | [] => ([], m)
  | op :: ops => let r := flat_pmem op m in let rs := flat_pmems ops r.2 in (r.1 ++ rs.1, rs.2)
  end.

Definition op_fits (op : pmem_op) : Prop :=
  match op with PRead a s | PWrite a _ s => fits a s end.

Lemma flat_pmem_ext op m m' :
  op_fits op -> (forall x, m x = m' x) ->
  (flat_pmem op m).1 = (flat_pmem op m').1
  /\ forall x, (flat_pmem op m).2 x = (flat_pmem op m').2 x.
Proof.
  intros Hf Hm. destruct op as [a s|a v s]; simpl.
  - destruct Hf as [Hv _]. apply valid_size_range in Hv. split; [|done].
    f_equal. apply load_ext; [lia|]. done.
  - split; [done|]. intros x. unfold store. by case_match.
Qed.

Lemma run_pmems_spec ops m w :
  Forall op_fits ops -> synced w -> (forall x, mem w x = m x) ->
  wp no_error (run_pmems ops)
    (fun rs w' => rs = (flat_pmems ops m).1 /\ synced w' /\ pmem_frame w w'
       /\ forall x, mem w' x = (flat_pmems ops m).2 x) w.
Proof.
  intros Hf. revert m w. induction Hf as [|op ops Hop _ IH]; intros m w Hs Hm.
  { by apply wp_ret. }
  cbn [run_pmems flat_pmems]. apply wp_bind.
  apply (wp_mono _ _ (fun r w' => r = (flat_pmem op m).1 /\ synced w' /\ pmem_frame w w'
    /\ forall x, mem w' x = (flat_pmem op m).2 x)).
  - destruct (flat_pmem_ext op (mem w) m Hop Hm) as [Hr Hx]. rewrite <- Hr.
    destruct op as [a s|a v s]; cbn [run_pmem]; apply wp_bind.
    + eapply wp_mono; [by apply read_pmem_spec|]. intros r w1 (-> & ? & ? & Hm1). apply wp_ret.
      split_and!; [done|done|done|]. intros x. by rewrite Hm1, Hm.
    + eapply wp_mono; [by apply write_pmem_spec|]. intros [] w1 (? & ? & Hm1). apply wp_ret.
      split_and!; [done|done|done|]. intros x. by rewrite Hm1, <- Hx.
  - intros r w1 (-> & Hs1 & Hf1 & Hm1). apply wp_bind. eapply wp_mono; [by apply IH|].
    intros rs w2 (-> & Hs2 & Hf2 & Hm2). apply wp_ret. split_and!; [done|done|by etrans|done].
Qed.

(** C29: any sequence of video-memory accesses through the cached window (each inside
    one megabyte), starting with the cache in step with the hardware, succeeds and
    reads and leaves exactly what the same accesses to a flat memory would, whatever
    the window was; the cache stays in step and nothing else of A3 changes. *)
Theorem pmem_refines_flat_memory ops w :
  Forall op_fits ops -> synced w ->
  exists rs w', run_pmems ops w = Ok (rs, w')
    /\ rs = (flat_pmems ops (mem w)).1
    /\ (forall x, mem w' x = (flat_pmems ops (mem w)).2 x)
    /\ synced w' /\ pmem_frame w w'.
Proof.
  intros Hf Hs. destruct (wp_total _ _ _ (run_pmems_spec ops (mem w) w Hf Hs (fun _ => eq_refl)))
    as (rs & w' & E & -> & Hs' & Hf' & Hm). by exists (flat_pmems ops (mem w)).1, w'.
Qed.

End Window.

(** ** Words and pages *)

Section Pages.
Context `{PF : Platform} {PR : Pramin PF} {PL : PraminLaws PF PR}.

(** A 32-bit word of the memory reachable through the window. *)
Definition word_ok (a : Z) : Prop := 0 <= a < 2 ^ 44 /\ a mod 4 = 0.

Lemma word_fits a : word_ok a -> fits a 4.
Proof. intros [Ha Hm]. split; [done|]. zlia. Qed.

Lemma pmem_read32_spec a w :
  synced w -> word_ok a ->
  wp no_error (pmem_read32 a)
    (fun v w' => v = load 4 a (mem w)
       /\ synced w' /\ pmem_frame w w' /\ forall x, mem w' x = mem w x) w.
Proof.
  intros Hs Ha. unfold pmem_read32. pose proof Ha as [Hr _]. rewrite u64_small by lia.
  eapply wp_mono; [apply read_pmem_spec; [done|by apply word_fits]|].
  intros v w'. by rewrite Z.mod_small by lia.
Qed.

Lemma pmem_write32_spec a v w :
  synced w -> word_ok a ->
  wp no_error (pmem_write32 a v)
    (fun _ w' => synced w' /\ pmem_frame w w'
       /\ forall x, mem w' x = store 4 a (u32 v) (mem w) x) w.
Proof.
  intros Hs Ha. unfold pmem_write32. pose proof Ha as [Hr _]. rewrite u64_small by lia.
  eapply wp_mono; [apply write_pmem_spec; [done|by apply word_fits]|].
  intros [] w'. change (8 * 4) with 32. rewrite (Z.mod_small a) by lia.
  rewrite (Z.mod_small (u32 v)); [done|]. apply u32_range.
Qed.

(** Reads leave everything but the cached window alone. *)
Record quiet (w w' : world) : Prop := Quiet {
  qu_synced : synced w';
  qu_frame : pmem_frame w w';
  qu_mem : forall x, mem w' x = mem w x
}.

Lemma quiet_trans w1 w2 w3 : quiet w1 w2 -> quiet w2 w3 -> quiet w1 w3.
Proof. intros [? F1 M1] [? F2 M2]. constructor; [done|by etrans|]. intros x. by rewrite M2, M1. Qed.

Lemma quiet_refl w : synced w -> quiet w w.
Proof. by constructor. Qed.

Lemma quiet_load w w' size a : 0 <= size -> quiet w w' -> load size a (mem w') = load size a (mem w).
Proof. intros Hs H. apply load_ext; [done|]. intros x _. apply H. Qed.

Lemma read32_quiet a w :
  synced w -> word_ok a ->
  wp no_error (pmem_read32 a) (fun v w' => v = load 4 a (mem w) /\ quiet w w') w.
Proof.
  intros Hs Ha. eapply wp_mono; [by apply pmem_read32_spec|].
  intros v w' (-> & ? & ? & ?). by split; [|constructor].
Qed.

(** The page table entry and the directory stored at an address. *)
Definition entry_at (m : memory) (a : Z) : page_entry := PageEntry (load 4 a m) (load 4 (a + 4) m).
Definition dir_at (m : memory) (a : Z) : page_directory :=
  PageDirectory (load 4 a m) (load 4 (a + 4) m).

(** What [page_entry::create] reads. *)
Definition create_at (m : memory) (a : Z) : option page_entry :=
  if pe_present (entry_at m a) then Some (entry_at m a) else None.

(** Two words in a row. *)
Definition pair_ok (a : Z) : Prop := 0 <= a /\ a + 8 <= 2 ^ 44 /\ a mod 4 = 0.

Lemma pair_word a : pair_ok a -> word_ok a /\ word_ok (a + 4).
Proof. intros (? & ? & ?). split; split; zlia. Qed.

Lemma page_entry_create_spec a w :
  synced w -> pair_ok a ->
  wp no_error (page_entry_create pmem_read32 a)
    (fun r w' => r = create_at (mem w) a /\ quiet w w') w.
Proof.
  intros Hs Hab. destruct (pair_word a Hab) as [Ha Hb]. unfold page_entry_create.
  apply wp_bind. eapply wp_mono; [by apply read32_quiet|]. intros v w1 [-> Q1].
  unfold create_at. change (pe_present (entry_at (mem w) a))
    with (pe_present (PageEntry (load 4 a (mem w)) 0)).
  case_match; [|by apply wp_ret]. apply wp_bind.
  rewrite u64_small by (destruct Hb; lia).
  eapply wp_mono; [apply read32_quiet; [apply Q1|done]|]. intros v w2 [-> Q2]. apply wp_ret.
  rewrite (quiet_load w w1) by done. split; [done|]. by apply (quiet_trans w w1).
Qed.

Lemma page_directory_create_spec a w :
  synced w -> pair_ok a ->
  wp no_error (page_directory_create a) (fun r w' => r = dir_at (mem w) a /\ quiet w w') w.
Proof.
  intros Hs Hab. destruct (pair_word a Hab) as [Ha Hb]. unfold page_directory_create.
  apply wp_bind. eapply wp_mono; [by apply read32_quiet|]. intros v w1 [-> Q1].
  apply wp_bind. rewrite u64_small by (destruct Hb; lia).
  eapply wp_mono; [apply read32_quiet; [apply Q1|done]|]. intros v w2 [-> Q2]. apply wp_ret.
  rewrite (quiet_load w w1) by done. split; [done|]. by apply (quiet_trans w w1).
Qed.

(** A page of the pool: aligned, inside the window's reach. *)
Record page_ok (p : page) : Prop := PageOk {
  po_align : address_ p mod 4096 = 0;
  po_base : 0 <= address_ p;
  po_units : 0 < units_ p;
  po_end : address_ p + page_size p <= 2 ^ 40
}.

Lemma page_word_ok p o :
  page_ok p -> 0 <= o < page_size p -> o mod 4 = 0 -> word_ok (address_ p + o).
Proof. intros [] Ho Hm. unfold page_size in *. split; zlia. Qed.

Lemma page_read32_spec p o w :
  synced w -> page_ok p -> 0 <= o < page_size p -> o mod 4 = 0 ->
  wp no_error (page_read32 p o)
    (fun v w' => v = load 4 (address_ p + o) (mem w)
       /\ synced w' /\ pmem_frame w w' /\ forall x, mem w' x = mem w x) w.
Proof.
  intros Hs Hp Ho Hm. unfold page_read32. rewrite (proj2 (Z.ltb_lt _ _)) by lia.
  apply pmem_read32_spec; [done|]. by apply page_word_ok.
Qed.

Lemma page_write32_spec p o v w :
  synced w -> page_ok p -> 0 <= o < page_size p -> o mod 4 = 0 ->
  wp no_error (page_write32 p o v)
    (fun _ w' => synced w' /\ pmem_frame w w'
       /\ forall x, mem w' x = store 4 (address_ p + o) (u32 v) (mem w) x) w.
Proof.
  intros Hs Hp Ho Hm. unfold page_write32. rewrite (proj2 (Z.ltb_lt _ _)) by lia.
  apply pmem_write32_spec; [done|]. by apply page_word_ok.
Qed.

(** An assertion of the page accessors is reached exactly outside the page. *)
Lemma page_write32_assert p o v w :
  page_size p <= o -> page_write32 p o v w = Err AssertFail.
Proof. intros Ho. unfold page_write32. by rewrite (proj2 (Z.ltb_ge _ _)) by lia. Qed.

(** [page::clear], the first quarter. *)
Definition cleared (p : page) (w w' : world) : Prop :=
  synced w' /\ pmem_frame w w'
  /\ forall x, mem w' x =
       if (address_ p <=? x) && (x <? address_ p + page_size p / 4) then 0 else mem w x.

Lemma page_clear_spec p w :
  synced w -> page_ok p -> wp no_error (page_clear p) (fun _ w' => cleared p w w') w.
Proof.
  intros Hs Hp. pose proof Hp as [Ha Hb Hu He]. unfold page_size in *.
  set (n := Z.to_nat ((units_ p * 4096 / 4 + 3) / 4)).
  assert (Hn : units_ p * 4096 / 4 = 4 * Z.of_nat n) by (unfold n; zlia).
  unfold cleared, page_clear, page_size. rewrite Hn. replace (4 * Z.of_nat n + 3) with (units_ p * 4096 / 4 + 3) by lia. fold n.
  apply (wp_for _ (fun k w' => synced w' /\ pmem_frame w w' /\ forall x, mem w' x =
    if (address_ p <=? x) && (x <? address_ p + 4 * k) then 0 else mem w x)).
  - split_and!; [done|done|]. intros x.
    destruct (Z.leb_spec (address_ p) x), (Z.ltb_spec x (address_ p + 4 * 0)); simpl; lia || done.
  - intros k w1 Hk (Hs1 & Hf1 & Hm1).
    eapply wp_mono; [apply pmem_write32_spec; [done|split; zlia]|].
    intros [] w2 (Hs2 & Hf2 & Hm2). split_and!; [done|by etrans|]. intros x. rewrite Hm2.
    change (u32 0) with 0. unfold store. rewrite Zdiv_0_l. change (0 mod 256) with 0.
    rewrite Hm1.
    destruct (Z.leb_spec (address_ p) x), (Z.ltb_spec x (address_ p + 4 * k)),
      (Z.leb_spec (address_ p + 4 * k) x), (Z.ltb_spec x (address_ p + 4 * k + 4)),
      (Z.ltb_spec x (address_ p + 4 * (k + 1))); simpl; done || lia.
  - done.
Qed.

(** C33: [page::clear] zeroes only the first quarter of the page and leaves the rest
    of it, and all other memory, as it was: its loop counts bytes up to a bound that
    is a number of words. *)
Theorem page_clear_quarter p w :
  synced w -> page_ok p ->
  exists w', page_clear p w = Ok (tt, w') /\ synced w' /\ pmem_frame w w'
    /\ forall x, mem w' x =
         if (address_ p <=? x) && (x <? address_ p + page_size p / 4) then 0 else mem w x.
Proof.
  intros Hs Hp. destruct (wp_total _ _ _ (page_clear_spec p w Hs Hp)) as ([] & w' & E & H). by exists w'.
Qed.

End Pages.

(** ** A simulated GPU

    A concrete platform: sparse video memory, the window register, and registers that
    remember what was written; the memory management unit reports an idle state. *)
Record sim_gpu : Type := SimGpu {
  sim_mem : gmap Z Z;
  sim_window : Z;
  sim_regs : gmap (Z * Z) Z
}.

Definition sim_bytes (g : sim_gpu) : memory := fun a => default 0 (sim_mem g !! a) mod 256.

Fixpoint sim_store (n : nat) (a v : Z) (m : gmap Z Z) : gmap Z Z :=
  match n with O => m | S n => <[a := v mod 256]> (sim_store n (a + 1) (v / 256) m) end.

Definition in_window (bar offset size : Z) : bool :=
  (bar =? 0) && (0x700000 <=? offset) && (offset + size <=? 0x800000).

Definition sim_read (bar offset size : Z) (g : sim_gpu) : Z * sim_gpu :=
  if in_window bar offset size
  then (load size (sim_window g * 0x10000 + (offset - 0x700000)) (sim_bytes g), g)
  else if (bar =? 0) && (offset =? 0x100c80) then (0x00ff8000, g)
  else if (bar =? 0) && (offset =? 0x1700) then (sim_window g, g)
  else (default 0 (sim_regs g !! (bar, offset)), g).

Definition sim_write (bar offset val size : Z) (g : sim_gpu) : sim_gpu :=
  if in_window bar offset size
  then SimGpu (sim_store (Z.to_nat size) (sim_window g * 0x10000 + (offset - 0x700000)) val (sim_mem g))
         (sim_window g) (sim_regs g)
  else if (bar =? 0) && (offset =? 0x1700) then SimGpu (sim_mem g) val (sim_regs g)
  else SimGpu (sim_mem g) (sim_window g) (<[(bar, offset) := val]> (sim_regs g)).

Definition sim_platform : Platform := {|
  gpu := sim_gpu;
  mmio_read := sim_read;
  mmio_write := sim_write;
  xen_gfn_to_mfn := fun domid gfn => gfn + 0x1000 * domid;
  xen_map_foreign := fun domid frame => if frame =? 0 then None else Some (vec_make 65536 0);
  lazy_shadowing := false;
  bar3_remapping := true;
  uninitialized := 0xdeadbeef;
  elapsed := fun _ => 7;
  channel_map_insert := fun x l => l ++ [x]
|}.

Definition sim_pramin : Pramin sim_platform := Build_Pramin sim_platform sim_bytes sim_window.

Lemma sim_store_spec n a v m x :
  default 0 (sim_store n a v m !! x) mod 256 =
  if (a <=? x) && (x <? a + Z.of_nat n) then v / 2 ^ (8 * (x - a)) mod 256
  else default 0 (m !! x) mod 256.
Proof.
  revert a v. induction n as [|n IH]; intros a v; cbn [sim_store].
  - destruct (Z.leb_spec a x), (Z.ltb_spec x (a + Z.of_nat 0)); simpl; done || lia.
  - destruct (decide (a = x)) as [->|Hne].
    + rewrite lookup_insert_eq. simpl. rewrite Z.mod_mod by lia.
      replace (8 * (x - x)) with 0 by lia. rewrite Z.div_1_r.
      destruct (Z.leb_spec x x), (Z.ltb_spec x (x + Z.of_nat (S n))); simpl; done || lia.
    + rewrite lookup_insert_ne by done. rewrite IH.
      destruct (Z.leb_spec (a + 1) x), (Z.ltb_spec x (a + 1 + Z.of_nat n)), (Z.leb_spec a x),
        (Z.ltb_spec x (a + Z.of_nat (S n))); simpl; try done || lia.
      replace (8 * (x - a)) with (8 + 8 * (x - (a + 1))) by lia.
      rewrite Z.pow_add_r by lia. rewrite <- Z.div_div by lia. done.
Qed.

Lemma sim_pramin_laws : PraminLaws sim_platform sim_pramin.
Proof.
  constructor.
  - intros g a. apply Z.mod_pos_bound. lia.
  - intros g v Hv. split; [done|]. done.
  - intros g o size Hv Ho Hs. pose proof (valid_size_range _ Hv). simpl. unfold sim_read, in_window.
    rewrite (proj2 (Z.leb_le _ _)), (proj2 (Z.leb_le _ _)) by lia. simpl.
    by replace (7340032 + o - 7340032) with o by lia.
  - intros g o v size Hv Ho Hs Hr. pose proof (valid_size_range _ Hv). simpl.
    unfold sim_write, in_window.
    rewrite (proj2 (Z.leb_le _ _)), (proj2 (Z.leb_le _ _)) by lia. simpl. split; [done|].
    intros a. unfold sim_bytes at 1. simpl. rewrite sim_store_spec, Z2Nat.id by lia.
    by replace (7340032 + o - 7340032) with o by lia.
Qed.

(** A world around the simulated GPU: machine 0, nothing set up yet. *)
Definition sim_page (i : Z) : page := Vram (A3_HYPERVISOR_DEVICE_MEM_BASE + i * 0x1000) 1.

Definition sim_device : device_t :=
  Device (vec_make A3_VM_NUM true) (vec_make A3_VM_NUM None) 0
    (DeviceBar1 (sim_page 0) (sim_page 1) (sim_page 2) 0x1000)
    (DeviceBar3 0xd0000000 (sim_page 3) (sim_page 4) (Vram (A3_HYPERVISOR_DEVICE_MEM_BASE + 0x8000) 8)
       (vec_make (A3_BAR3_TOTAL_SIZE / 8) 0) (vec_make (A3_BAR3_TOTAL_SIZE / kLARGE_PAGE_SIZE) pe_zero)
       (vec_make (A3_BAR3_TOTAL_SIZE / kSMALL_PAGE_SIZE) pe_zero))
    (vram_manager_new A3_HYPERVISOR_DEVICE_MEM_BASE A3_HYPERVISOR_DEVICE_MEM_SIZE)
    (Nvc0Playlist (Engine (vec_make A3_CHANNELS false) (vec_make 2 None) 0))
    (SchedState (sched_dev_new 50) (<[1 := sched_ctx_new]> ∅)) NVC0.

Definition sim_channel (i : Z) : channel :=
  Channel i false false 0 0 (ShadowPageTable 0 0 i None [] [] 0 0) (sim_page (0x100 + i))
    (vec_make A3_DOMAIN_CHANNELS false) i.

Definition sim_context : context :=
  Context 1 false true 5 0
    (Bar1Channel false 0 (SoftwarePageTable (vec_make 0 (SoftwarePageDirectory None None))
       kBAR1_ARENA_SIZE 0 0xffffffff kBAR1_ARENA_SIZE))
    (Bar3Channel false 0 0) (Vec A3_DOMAIN_CHANNELS ∅ sim_channel)
    (barrier_table_new 0 A3_MEMORY_SIZE) (PollArea 0x1000 0) (vec_make (A3_BAR0_SIZE / 4) 0) []
    0xe0000000 (Pfifo A3_CHANNELS A3_DOMAIN_CHANNELS 0x3000) (Instruments 0 0 0 0) false None None
    ∅ 1 ∅ (vec_make A3_DOMAIN_CHANNELS None) None None None None None 0.

Definition sim_world : @world sim_platform :=
  @World sim_platform (SimGpu ∅ 0 ∅) sim_device sim_context [].

Lemma pmem_refines_flat_memory_witness :
  exists rs w', @run_pmems sim_platform
      [PWrite 0x123456788 0xaabbccdd 4; PRead 0x123456789 2; PWrite 0x70 5 1; PRead 0x123456788 4]
      sim_world = Ok (rs, w')
    /\ rs = [0xbbcc; 0xaabbccdd] /\ @synced _ sim_pramin w'.
Proof.
  destruct (@pmem_refines_flat_memory sim_platform sim_pramin sim_pramin_laws
    [PWrite 0x123456788 0xaabbccdd 4; PRead 0x123456789 2; PWrite 0x70 5 1; PRead 0x123456788 4]
    sim_world) as (rs & w' & E & Hr & _ & Hs & _).
  - repeat (apply Forall_cons; split; [split; [reflexivity|vm_compute; discriminate]|]).
    apply Forall_nil. exact I.
  - reflexivity.
  - exists rs, w'. split; [exact E|]. split; [|exact Hs]. rewrite Hr. vm_compute. reflexivity.
Defined.

Lemma page_clear_quarter_witness :
  exists w', @page_clear sim_platform (sim_page 7) sim_world = Ok (tt, w')
    /\ @synced _ sim_pramin w'.
Proof.
  destruct (@page_clear_quarter sim_platform sim_pramin sim_pramin_laws (sim_page 7) sim_world)
    as (w' & E & Hs & _).
  - reflexivity.
  - constructor; vm_compute; done.
  - exists w'. split; [exact E|exact Hs].
Defined.
