(* ===== verification/Tables.v ===== *)
(** * Page tables ([software_page_table], [shadow_page_table])

    A3 keeps a software copy of the page table behind BAR1, and for every channel a
    shadow of the guest's page table in device memory of its own, with each entry
    translated by [guest_to_host]. Both scan the guest's tables through the PRAMIN
    window. The shadow table is what the GPU walks, so its entries decide what a
    machine can reach. *)

From S2P Require Import Prelude Config Vram PageTable Barrier Sched State Device.

Section Tables.
Context `{PF : Platform}.

(** ** [software_page_table] *)

Definition swdir_new : software_page_directory := SoftwarePageDirectory None None.

(** [page_directory_size()] *)
Definition directory_count (size : Z) : Z :=
  u32 (round_up size kPAGE_DIRECTORY_COVERED_SIZE / kPAGE_DIRECTORY_COVERED_SIZE).

(** The constructor; [page_directory_address_] is not initialised. *)
Definition software_page_table_new (channel_id : Z) (para : bool) (predefined_max : Z)
  : software_page_table :=
  let size := bit_mask 40 predefined_max in
  SoftwarePageTable
    (if para then vec_make (directory_count size) swdir_new else vec_make 0 swdir_new)
    size uninitialized channel_id predefined_max.

Definition st_set_low_size (value : Z) (t : software_page_table) : software_page_table :=
  set_st_size (set_bits 0 32 value (st_size t)) t.
Definition st_set_high_size (value : Z) (t : software_page_table) : software_page_table :=
  set_st_size (set_bits 32 8 value (st_size t)) t.

(** [software_page_entry::refresh], [assign] and [clear] over one guest table. *)
Definition refresh_entry (address : Z) (i : Z) (v : vec page_entry) : M world (vec page_entry) :=
  let! e := page_entry_create pmem_read32 (u64 (address + 8 * i)) in
  match e with
  | Some e => let! h := ctx_guest_to_host e in vwrite v i h
  | None => vwrite v i pe_zero
  end.

Definition entries_or_new (o : option (vec page_entry)) (n : Z) : vec page_entry :=
  match o with Some v => v | None => vec_make n pe_zero end.

(** [software_page_directory::refresh] *)
Definition directory_refresh (dir : page_directory) (remain : Z) (d : software_page_directory)
  : M world software_page_directory :=
  let! id := get_ctx_f c_id in
  let! large :=
    if large_page_table_present dir then
      let address := get_phys_address id (Z.shiftl (large_page_table_address dir) 12) in
      let count := Z.min (remain / kLARGE_PAGE_SIZE) (large_size_count dir) in
      assert_ (count <=? kLARGE_PAGE_COUNT) ;;;
      let! v := for_acc (Z.to_nat count) 0 (refresh_entry address)
                  (entries_or_new (sd_large d) kLARGE_PAGE_COUNT) in
      ret (Some v)
    else ret None in
  let! small :=
    if small_page_table_present dir then
      let address := get_phys_address id (Z.shiftl (small_page_table_address dir) 12) in
      let count := remain / kSMALL_PAGE_SIZE in
      assert_ (count <=? kSMALL_PAGE_COUNT) ;;;
      let! v := for_acc (Z.to_nat count) 0 (refresh_entry address)
                  (entries_or_new (sd_small d) kSMALL_PAGE_COUNT) in
      ret (Some v)
    else ret None in
  ret (SoftwarePageDirectory large small).

(** [software_page_table::refresh_page_directories] *)
Definition st_refresh_page_directories (address : Z) (t : software_page_table)
  : M world software_page_table :=
  let count := directory_count (st_size t) in
  let dirs := vec_resize (st_directories t) count swdir_new in
  let remain := st_size t mod kPAGE_DIRECTORY_COVERED_SIZE in
  let remain := if remain =? 0 then kPAGE_DIRECTORY_COVERED_SIZE else remain in
  let! dirs := for_acc (Z.to_nat count) 0 (fun i dirs =>
      let! dir := page_directory_create (u64 (address + 8 * i)) in
      let! d := vread dirs i in
      let! d :=
        if st_predefined_max t =? 0 then directory_refresh dir kPAGE_DIRECTORY_COVERED_SIZE d
        else if i + 1 =? count then directory_refresh dir remain d
        else directory_refresh dir kPAGE_DIRECTORY_COVERED_SIZE d in
      vwrite dirs i d) dirs in
  ret (set_st_directories dirs (set_st_page_directory_address address t)).

(** [software_page_table::refresh]; it always answers false. *)
Definition st_refresh (page_directory_address page_limit : Z) (t : software_page_table)
  : M world software_page_table :=
  let t := set_st_page_directory_address page_directory_address t in
  let t := if st_predefined_max t =? 0 then set_st_size (bit_mask 40 (u64 (page_limit + 1))) t else t in
  if kMAX_PAGE_DIRECTORIES <? directory_count (st_size t) then ret t
  else st_refresh_page_directories page_directory_address t.

(** [software_page_directory::resolve]: the address, and the entry it came from. *)
Definition resolve_in (o : option (vec page_entry)) (page_size offset : Z) : option (Z * page_entry) :=
  match o with
  | Some v =>
      match vec_get v (offset / page_size) with
      | Some e => if pe_present e then Some (Z.shiftl (pe_address e) 12 + offset mod page_size, e)
                  else None
      | None => None
      end
  | None => None
  end.
Definition directory_resolve (offset : Z) (d : software_page_directory) : option (Z * page_entry) :=
  match resolve_in (sd_small d) kSMALL_PAGE_SIZE offset with
  | Some r => Some r
  | None => resolve_in (sd_large d) kLARGE_PAGE_SIZE offset
  end.

(** [software_page_table::resolve]; [None] is [UINT64_MAX]. *)
Definition st_resolve (virtual_address : Z) (t : software_page_table) : option (Z * page_entry) :=
  let index := u32 (virtual_address / kPAGE_DIRECTORY_COVERED_SIZE) in
  match vec_get (st_directories t) index with
  | None => None
  | Some d => directory_resolve (u64 (virtual_address - u32 (index * kPAGE_DIRECTORY_COVERED_SIZE))) d
  end.

(** [software_page_directory::pv_reflect] and [software_page_table::pv_reflect_entry]: the
    index comes from the guest and is not checked. *)
Definition directory_pv_reflect (big : bool) (index guest : Z) (d : software_page_directory)
  : M world software_page_directory :=
  let! h := ctx_guest_to_host (pe_of_raw guest) in
  if big then
    let! v := vwrite (entries_or_new (sd_large d) kLARGE_PAGE_COUNT) index h in
    ret (set_sd_large (Some v) d)
  else
    let! v := vwrite (entries_or_new (sd_small d) kSMALL_PAGE_COUNT) index h in
    ret (set_sd_small (Some v) d).
Definition st_pv_reflect_entry (d : Z) (big : bool) (index entry : Z) (t : software_page_table)
  : M world software_page_table :=
  let! dir := vread (st_directories t) d in
  let! dir := directory_pv_reflect big index entry dir in
  let! dirs := vwrite (st_directories t) d dir in
  ret (set_st_directories dirs t).

(** [pv_scan]: the entries of a para-virtual table are host entries already. *)
Definition scan_entry (pgt : page) (i : Z) (v : vec page_entry) : M world (vec page_entry) :=
  let! e := page_entry_create (page_read32 pgt) (8 * i) in
  vwrite v i (match e with Some e => e | None => pe_zero end).
Definition directory_pv_scan (big : bool) (pgt : page) (remain : Z) (d : software_page_directory)
  : M world software_page_directory :=
  if big then
    let count := remain / kLARGE_PAGE_SIZE in
    assert_ (count <=? kLARGE_PAGE_COUNT) ;;;
    let! v := for_acc (Z.to_nat count) 0 (scan_entry pgt) (entries_or_new (sd_large d) kLARGE_PAGE_COUNT) in
    ret (set_sd_large (Some v) d)
  else
    let count := remain / kSMALL_PAGE_SIZE in
    assert_ (count <=? kSMALL_PAGE_COUNT) ;;;
    let! v := for_acc (Z.to_nat count) 0 (scan_entry pgt) (entries_or_new (sd_small d) kSMALL_PAGE_COUNT) in
    ret (set_sd_small (Some v) d).
Definition st_pv_scan (d : Z) (big : bool) (pgt : page) (t : software_page_table)
  : M world software_page_table :=
  let! dir := vread (st_directories t) d in
  let! dir := directory_pv_scan big pgt (st_predefined_max t) dir in
  let! dirs := vwrite (st_directories t) d dir in
  ret (set_st_directories dirs t).

(** ** [shadow_page_table] *)

Definition shadow_page_table_new (channel_id : Z) : shadow_page_table :=
  ShadowPageTable 0 uninitialized channel_id None [] [] 0 0.

Definition sh_set_low_size (value : Z) (t : shadow_page_table) : shadow_page_table :=
  set_sh_size (set_bits 0 32 value (sh_size t)) t.
Definition sh_set_high_size (value : Z) (t : shadow_page_table) : shadow_page_table :=
  set_sh_size (set_bits 32 8 value (sh_size t)) t.

(** [shadow_address()] *)
Definition shadow_address (t : shadow_page_table) : Z :=
  match sh_phys t with Some p => address_ p | None => 0 end.

(** [allocate_shadow_address()] *)
Definition allocate_shadow_address (t : shadow_page_table) : M world shadow_page_table :=
  match sh_phys t with
  | Some _ => ret t
  | None => let! p := page_new 0x10 in page_clear p ;;; ret (set_sh_phys (Some p) t)
  end.

(** [allocate_large_page()] and [allocate_small_page()]: a page that had to be
    allocated goes to the end of the pool, but the cursor stays where it is. *)
Definition allocate_large_page (t : shadow_page_table) : M world (page * shadow_page_table) :=
  if sh_large_cursor t =? Z.of_nat (length (sh_large_pool t)) then
    let! p := page_new (kLARGE_PAGE_COUNT * 8 / kPAGE_SIZE) in
    ret (p, set_sh_large_pool (sh_large_pool t ++ [p]) t)
  else
    let! p := of_option OutOfBounds (sh_large_pool t !! Z.to_nat (sh_large_cursor t)) in
    ret (p, set_sh_large_cursor (sh_large_cursor t + 1) t).
Definition allocate_small_page (t : shadow_page_table) : M world (page * shadow_page_table) :=
  if sh_small_cursor t =? Z.of_nat (length (sh_small_pool t)) then
    let! p := page_new (kSMALL_PAGE_COUNT * 8 / kPAGE_SIZE) in
    ret (p, set_sh_small_pool (sh_small_pool t ++ [p]) t)
  else
    let! p := of_option OutOfBounds (sh_small_pool t !! Z.to_nat (sh_small_cursor t)) in
    ret (p, set_sh_small_cursor (sh_small_cursor t + 1) t).

(** One round of the copying loops of [refresh_directory]. *)
Definition shadow_entry (address : Z) (p : page) (i : Z) : M world unit :=
  let item := 8 * i in
  let! e := page_entry_create pmem_read32 (u64 (address + item)) in
  match e with
  | Some e =>
      let! res := ctx_guest_to_host e in
      page_write32 p item (pe_word0 res) ;;;
      page_write32 p (item + 4) (pe_word1 res)
  | None => page_write32 p item 0
  end.

(** [shadow_page_table::refresh_directory] *)
Definition refresh_directory (dir : page_directory) (t : shadow_page_table)
  : M world (page_directory * shadow_page_table) :=
  let! id := get_ctx_f c_id in
  let! r :=
    if large_page_table_present dir then
      let address := get_phys_address id (Z.shiftl (large_page_table_address dir) 12) in
      let! a := allocate_large_page t in
      for_ (Z.to_nat (large_size_count dir)) 0 (shadow_entry address a.1) ;;;
      ret (set_large_page_table_address (Z.shiftr (address_ a.1) 12) dir, a.2)
    else ret (PageDirectory 0 (pd_word1 dir), t) in
  if small_page_table_present dir then
    let address := get_phys_address id (Z.shiftl (small_page_table_address dir) 12) in
    let! a := allocate_small_page r.2 in
    for_ (Z.to_nat kSMALL_PAGE_COUNT) 0 (shadow_entry address a.1) ;;;
    ret (set_small_page_table_address (Z.shiftr (address_ a.1) 12) r.1, a.2)
  else ret (PageDirectory (pd_word0 r.1) 0, r.2).

(** [shadow_page_table::refresh_page_directories] *)
Definition sh_refresh_page_directories (address : Z) (t : shadow_page_table)
  : M world shadow_page_table :=
  let t := set_sh_page_directory_address address t in
  let t := set_sh_small_cursor 0 (set_sh_large_cursor 0 t) in
  let! id := get_ctx_f c_id in
  if get_virt_address id address =? 0 then ret t
  else if negb (in_memory_range id address) || negb (in_memory_size (sh_size t)) then ret t
  else
    for_acc (Z.to_nat (0x10000 / 8)) 0 (fun index t =>
      let offset := 8 * index in
      let! dir := page_directory_create (u64 (address + offset)) in
      let! r := refresh_directory dir t in
      let! p := of_option NullDeref (sh_phys r.2) in
      page_write32 p offset (pd_word0 r.1) ;;;
      page_write32 p (offset + 4) (pd_word1 r.1) ;;;
      ret r.2) t.

(** [shadow_page_table::refresh]; it always answers false. *)
Definition sh_refresh (page_directory_address page_limit : Z) (t : shadow_page_table)
  : M world shadow_page_table :=
  let! t := allocate_shadow_address t in
  let t := set_sh_page_directory_address page_directory_address t in
  let t := set_sh_size (bit_mask 40 (u64 (page_limit + 1))) t in
  sh_refresh_page_directories page_directory_address t.

End Tables.

(** ** Scanning a guest table *)

Section Scan.
Context `{PF : Platform} {PR : Pramin PF} {PL : PraminLaws PF PR}.

(** The translation of what is stored at an address: a host entry, or the zero entry. *)
Definition translate (c : context) (o : option page_entry) : page_entry :=
  match o with
  | Some e => guest_to_host (c_id c) (xen_gfn_to_mfn (c_domid c)) e
  | None => pe_zero
  end.

Lemma translate_safe c o : valid_id (c_id c) -> safe_entry (c_id c) (translate c o).
Proof. intros Hid. destruct o as [e|]; [by apply guest_to_host_safe|done]. Qed.

Lemma create_at_ext m m' a : (forall x, m x = m' x) -> create_at m a = create_at m' a.
Proof.
  intros H. unfold create_at, entry_at.
  by rewrite (load_ext 4 a m m'), (load_ext 4 (a + 4) m m') by (lia || intros; apply H).
Qed.

Lemma dir_at_ext m m' a : (forall x, m x = m' x) -> dir_at m a = dir_at m' a.
Proof.
  intros H. unfold dir_at.
  by rewrite (load_ext 4 a m m'), (load_ext 4 (a + 4) m m') by (lia || intros; apply H).
Qed.

(** A table of [n] entries the window can reach. *)
Definition table_ok (a n : Z) : Prop := 0 <= a /\ a mod 4 = 0 /\ a + 8 * n <= 2 ^ 44.

Lemma table_pair a n i : table_ok a n -> 0 <= i < n -> pair_ok (a + 8 * i).
Proof. intros (? & ? & ?) Hi. split_and!; zlia. Qed.

Lemma wp_vwrite {S A} (v : vec A) i x (Q : vec A -> S -> Prop) s :
  0 <= i < vlen v ->
  (forall v', vlen v' = vlen v -> vec_at v' i = x -> (forall j, j <> i -> vec_at v' j = vec_at v j) -> Q v' s) ->
  wp no_error (vwrite v i x) Q s.
Proof.
  intros Hi HQ. destruct (vec_set_some v i x Hi) as (v' & E & ? & ? & ?).
  unfold vwrite. apply (wp_of_option _ _ _ v'); [done|]. by apply HQ.
Qed.

Lemma wp_vread {S A} (v : vec A) i (Q : A -> S -> Prop) s :
  0 <= i < vlen v -> Q (vec_at v i) s -> wp no_error (vread v i) Q s.
Proof.
  intros Hi HQ. apply (wp_of_option _ _ _ (vec_at v i)); [|done]. by apply vec_get_some.
Qed.

Lemma refresh_entry_spec address n i v w :
  synced w -> table_ok address n -> 0 <= i < n -> n <= vlen v ->
  wp no_error (refresh_entry address i v)
    (fun v' w' => quiet w w' /\ vlen v' = vlen v
       /\ vec_at v' i = translate (w_ctx w) (create_at (mem w) (address + 8 * i))
       /\ forall j, j <> i -> vec_at v' j = vec_at v j) w.
Proof.
  intros Hs Ht Hi Hv. pose proof (table_pair _ _ _ Ht Hi) as Hp. unfold refresh_entry. apply wp_bind.
  rewrite u64_small by (destruct Hp as (? & ? & ?); lia).
  eapply wp_mono; [by apply page_entry_create_spec|]. intros r w1 [-> Q1].
  destruct (create_at (mem w) (address + 8 * i)) as [e|].
  - apply wp_bind, wp_bind, wp_gets, wp_ret. rewrite (fr_ctx _ _ (qu_frame _ _ Q1)).
    apply wp_vwrite; [lia|]. intros v' ? ? ?. by split_and!.
  - apply wp_vwrite; [lia|]. intros v' ? ? ?. by split_and!.
Qed.

(** The whole loop: entry [i] of the copy is the translation of entry [i] of the guest. *)
Lemma refresh_entries_spec address n v w :
  synced w -> table_ok address n -> 0 <= n <= vlen v ->
  wp no_error (for_acc (Z.to_nat n) 0 (refresh_entry address) v)
    (fun v' w' => quiet w w' /\ vlen v' = vlen v
       /\ forall i, vec_at v' i =
            if (0 <=? i) && (i <? n)
            then translate (w_ctx w) (create_at (mem w) (address + 8 * i)) else vec_at v i) w.
Proof.
  intros Hs Ht Hn.
  apply (wp_for_acc _ (fun k v' w' => quiet w w' /\ vlen v' = vlen v
    /\ forall i, vec_at v' i =
         if (0 <=? i) && (i <? k)
         then translate (w_ctx w) (create_at (mem w) (address + 8 * i)) else vec_at v i)).
  - split_and!; [by apply quiet_refl|done|]. intros i.
    destruct (Z.leb_spec 0 i), (Z.ltb_spec i 0); simpl; done || lia.
  - intros k v1 w1 Hk (Q1 & Hl1 & Hv1). rewrite Z2Nat.id in Hk by lia.
    eapply wp_mono; [apply (refresh_entry_spec address n k v1 w1); [apply Q1|done|lia|lia]|].
    intros v2 w2 (Q2 & Hl2 & Hk2 & Ho2).
    split_and!; [by apply (quiet_trans w w1)|congruence|]. intros i.
    destruct (decide (i = k)) as [->|Hne].
    + rewrite Hk2, (fr_ctx _ _ (qu_frame _ _ Q1)).
      rewrite (create_at_ext (mem w1) (mem w)) by apply Q1.
      by destruct (Z.leb_spec 0 k), (Z.ltb_spec k (k + 1)); simpl; try lia.
    + rewrite Ho2 by done. rewrite Hv1.
      destruct (Z.leb_spec 0 i), (Z.ltb_spec i k), (Z.ltb_spec i (k + 1)); simpl; done || lia.
  - intros v' w'. by rewrite Z2Nat.id by lia.
Qed.

(** The base of a table a guest directory points to. *)
Lemma guest_table_ok id field n :
  valid_id id -> 0 <= field < 2 ^ 28 -> n <= kSMALL_PAGE_COUNT ->
  table_ok (get_phys_address id (Z.shiftl field 12)) n
  /\ get_phys_address id (Z.shiftl field 12) = field * 4096 + id * vram_size.
Proof.
  intros Hid Hf Hn. rewrite Z.shiftl_mul_pow2 by lia. change (2 ^ 12) with 4096.
  rewrite get_phys_address_eq by (done || lia). split; [|done].
  unfold table_ok, valid_id, vram_size in *. consts. split_and!; zlia.
Qed.

Lemma large_size_count_range d : 0 <= large_size_count d <= kLARGE_PAGE_COUNT.
Proof. unfold large_size_count. consts. repeat case_if; zlia. Qed.

Lemma large_field_range d : 0 <= large_page_table_address d < 2 ^ 28.
Proof. apply get_bits_range. lia. Qed.
Lemma small_field_range d : 0 <= small_page_table_address d < 2 ^ 28.
Proof. apply get_bits_range. lia. Qed.

(** ** The reference page walk *)

(** One level: the entry for [offset] in a guest table of [n] entries, translated. *)
Definition walk_table (c : context) (m : memory) (present : bool) (field page_size n offset : Z)
  : option (Z * page_entry) :=
  if present && (offset / page_size <? n) then
    let base := get_phys_address (c_id c) (Z.shiftl field 12) in
    let h := translate c (create_at m (base + 8 * (offset / page_size))) in
    if pe_present h then Some (Z.shiftl (pe_address h) 12 + offset mod page_size, h) else None
  else None.

(** Small pages first, then large pages, through the directory at [pd]. *)
Definition walk (c : context) (m : memory) (pd offset : Z) : option (Z * page_entry) :=
  let dir := dir_at m pd in
  match walk_table c m (small_page_table_present dir) (small_page_table_address dir)
          kSMALL_PAGE_SIZE kSMALL_PAGE_COUNT offset with
  | Some r => Some r
  | None => walk_table c m (large_page_table_present dir) (large_page_table_address dir)
              kLARGE_PAGE_SIZE (large_size_count dir) offset
  end.

Lemma walk_table_ext c m m' present field ps n offset :
  (forall x, m x = m' x) ->
  walk_table c m present field ps n offset = walk_table c m' present field ps n offset.
Proof. intros H. unfold walk_table. by rewrite (create_at_ext m m'). Qed.

Lemma resolve_walk c m (o : option (vec page_entry)) v0 field ps n offset :
  0 <= offset -> 0 < ps ->
  (forall v, o = Some v -> 0 <= n <= vlen v /\ forall i, vec_at v i =
     if (0 <=? i) && (i <? n)
     then translate c (create_at m (get_phys_address (c_id c) (Z.shiftl field 12) + 8 * i))
     else vec_at v0 i) ->
  (offset / ps < n \/ forall i, vec_at v0 i = pe_zero) ->
  resolve_in o ps offset = walk_table c m (match o with Some _ => true | None => false end) field ps n offset.
Proof.
  intros Ho Hps Hv Hfresh. unfold resolve_in, walk_table. destruct o as [v|]; [|done].
  destruct (Hv v eq_refl) as [Hn Hat]. assert (0 <= offset / ps) by (apply Z.div_pos; lia).
  simpl andb. destruct (Z.ltb_spec (offset / ps) n) as [Hlt|Hge].
  - rewrite vec_get_some by lia. rewrite Hat.
    by rewrite (proj2 (Z.leb_le _ _)), (proj2 (Z.ltb_lt _ _)) by lia.
  - destruct (vec_get v (offset / ps)) as [e|] eqn:E; [|done].
    apply vec_get_inv in E as [_ ->]. rewrite Hat.
    rewrite (proj2 (Z.leb_le _ _)), (proj2 (Z.ltb_ge _ _)) by lia. simpl.
    destruct Hfresh as [?| ->]; [lia|done].
Qed.
End Scan.

(** ** The software table of BAR1 *)

Definition swdir_wf (d : software_page_directory) : Prop :=
  (forall v, sd_large d = Some v -> vlen v = kLARGE_PAGE_COUNT)
  /\ (forall v, sd_small d = Some v -> vlen v = kSMALL_PAGE_COUNT).

Definition st_wf (t : software_page_table) : Prop :=
  forall i, swdir_wf (vec_at (st_directories t) i).

Section Software.
Context `{PF : Platform} {PR : Pramin PF} {PL : PraminLaws PF PR}.

(** What a refresh leaves in one of the two arrays. *)
Definition refreshed (c : context) (m : memory) (present : bool) (field count n : Z)
    (old new : option (vec page_entry)) : Prop :=
  if present then exists v, new = Some v /\ vlen v = n /\ forall i, vec_at v i =
    if (0 <=? i) && (i <? count)
    then translate c (create_at m (get_phys_address (c_id c) (Z.shiftl field 12) + 8 * i))
    else vec_at (entries_or_new old n) i
  else new = None.

Lemma entries_or_new_len o n :
  (forall v, o = Some v -> vlen v = n) -> vlen (entries_or_new o n) = n.
Proof. intros H. destruct o; [by apply H|done]. Qed.

Lemma scan_array_spec (present : bool) field count n old w :
  synced w -> valid_id (c_id (w_ctx w)) -> 0 <= field < 2 ^ 28 -> 0 <= count <= n ->
  n <= kSMALL_PAGE_COUNT -> (forall v, old = Some v -> vlen v = n) ->
  wp no_error
    (if present then
       assert_ (count <=? n) ;;;
       let! v := for_acc (Z.to_nat count) 0
                   (refresh_entry (get_phys_address (c_id (w_ctx w)) (Z.shiftl field 12)))
                   (entries_or_new old n) in
       ret (Some v)
     else ret None)
    (fun o w' => quiet w w' /\ refreshed (w_ctx w) (mem w) present field count n old o) w.
Proof.
  intros Hs Hid Hf Hc Hn Hold. destruct present; [|apply wp_ret; split; [by apply quiet_refl|done]].
  rewrite (proj2 (Z.leb_le count n)) by lia. cbn [assert_]. apply wp_bind, wp_ret, wp_bind.
  pose proof (entries_or_new_len old n Hold) as Hl.
  destruct (guest_table_ok (c_id (w_ctx w)) field count Hid Hf) as [Ht _]; [lia|].
  eapply wp_mono; [apply (refresh_entries_spec _ count); [done|done|lia]|].
  intros v w' (Q & Hlv & Hv). apply wp_ret. split; [done|]. exists v. split_and!; [done|lia|done].
Qed.

Lemma directory_refresh_spec dir d w :
  synced w -> valid_id (c_id (w_ctx w)) -> swdir_wf d ->
  wp no_error (directory_refresh dir kPAGE_DIRECTORY_COVERED_SIZE d)
    (fun d' w' => quiet w w'
       /\ refreshed (w_ctx w) (mem w) (large_page_table_present dir) (large_page_table_address dir)
            (large_size_count dir) kLARGE_PAGE_COUNT (sd_large d) (sd_large d')
       /\ refreshed (w_ctx w) (mem w) (small_page_table_present dir) (small_page_table_address dir)
            kSMALL_PAGE_COUNT kSMALL_PAGE_COUNT (sd_small d) (sd_small d')) w.
Proof.
  intros Hs Hid [Hl Hsm]. pose proof (large_size_count_range dir) as Hc. unfold directory_refresh.
  change (kPAGE_DIRECTORY_COVERED_SIZE / kLARGE_PAGE_SIZE) with kLARGE_PAGE_COUNT.
  change (kPAGE_DIRECTORY_COVERED_SIZE / kSMALL_PAGE_SIZE) with kSMALL_PAGE_COUNT.
  rewrite Z.min_r by lia. apply wp_bind, wp_gets, wp_bind.
  eapply wp_mono; [apply (scan_array_spec _ _ _ _ (sd_large d));
    [done|done|apply large_field_range|done|by consts|done]|].
  intros large w1 [Q1 R1]. apply wp_bind.
  rewrite <- (fr_ctx _ _ (qu_frame _ _ Q1)).
  eapply wp_mono; [apply (scan_array_spec _ _ _ _ (sd_small d));
    [apply Q1|by rewrite (fr_ctx _ _ (qu_frame _ _ Q1))|apply small_field_range|by consts|done|done]|].
  intros small w2 [Q2 R2]. apply wp_ret. rewrite (fr_ctx _ _ (qu_frame _ _ Q1)) in *.
  split_and!; [by apply (quiet_trans w w1)|done|].
  unfold refreshed in *. destruct (small_page_table_present dir); [|done].
  destruct R2 as (v & -> & Hv & Hat). exists v. split_and!; [done|done|]. intros i.
  rewrite Hat. destruct ((0 <=? i) && (i <? kSMALL_PAGE_COUNT)); [|done].
  by rewrite (create_at_ext (mem w1) (mem w)) by apply Q1.
Qed.

Lemma refreshed_resolve c m present field count n old new ps offset :
  0 <= offset -> 0 < ps -> 0 <= count <= n ->
  refreshed c m present field count n old new ->
  (offset / ps < count \/ old = None) ->
  resolve_in new ps offset = walk_table c m present field ps count offset.
Proof.
  intros Ho Hps Hc Hr Hf. unfold refreshed in Hr. destruct present.
  - destruct Hr as (v & -> & Hv & Hat).
    rewrite (resolve_walk c m (Some v) (entries_or_new old n) field ps count); [done|done|done| |].
    + intros v' [= <-]. split; [lia|done].
    + destruct Hf as [?| ->]; [by left|right]. intros i. apply vec_at_make.
  - subst new. done.
Qed.

Lemma refreshed_ext c m1 m2 present field count n old new :
  (forall x, m1 x = m2 x) ->
  refreshed c m1 present field count n old new <-> refreshed c m2 present field count n old new.
Proof.
  intros Hm. unfold refreshed. destruct present; [|done].
  by setoid_rewrite (fun a => create_at_ext m1 m2 a Hm).
Qed.

(** What resolving in the refreshed directory gives is the walk of the guest's tables. *)
Lemma refreshed_directory_walk c m pd old d offset :
  0 <= offset < kBAR1_ARENA_SIZE ->
  (offset / kLARGE_PAGE_SIZE < large_size_count (dir_at m pd) \/ sd_large old = None) ->
  refreshed c m (large_page_table_present (dir_at m pd)) (large_page_table_address (dir_at m pd))
    (large_size_count (dir_at m pd)) kLARGE_PAGE_COUNT (sd_large old) (sd_large d) ->
  refreshed c m (small_page_table_present (dir_at m pd)) (small_page_table_address (dir_at m pd))
    kSMALL_PAGE_COUNT kSMALL_PAGE_COUNT (sd_small old) (sd_small d) ->
  directory_resolve offset d = walk c m pd offset.
Proof.
  intros Hoff Hfresh RL RS. unfold directory_resolve, walk.
  assert (Hz : 0 <= kSMALL_PAGE_COUNT) by done.
  assert (Hs1 : offset / kSMALL_PAGE_SIZE < kSMALL_PAGE_COUNT) by (consts; zlia).
  rewrite (refreshed_resolve _ _ _ _ _ _ _ _ kSMALL_PAGE_SIZE offset (proj1 Hoff) eq_refl
    (conj Hz (Z.le_refl _)) RS (or_introl Hs1)).
  by rewrite (refreshed_resolve _ _ _ _ _ _ _ _ kLARGE_PAGE_SIZE offset (proj1 Hoff) eq_refl
    (large_size_count_range _) RL Hfresh).
Qed.

(** A refresh of a table that covers the BAR1 arena fills its only directory. *)
Lemma st_refresh_arena t pd limit w :
  synced w -> valid_id (c_id (w_ctx w)) -> st_wf t ->
  st_predefined_max t = kBAR1_ARENA_SIZE -> st_size t = kBAR1_ARENA_SIZE -> pair_ok pd ->
  let old := vec_at (vec_resize (st_directories t) 1 swdir_new) 0 in
  let dir := dir_at (mem w) pd in
  wp no_error (st_refresh pd limit t) (fun t' w' => quiet w w'
    /\ st_page_directory_address t' = pd
    /\ exists d, vec_get (st_directories t') 0 = Some d
    /\ refreshed (w_ctx w) (mem w) (large_page_table_present dir) (large_page_table_address dir)
         (large_size_count dir) kLARGE_PAGE_COUNT (sd_large old) (sd_large d)
    /\ refreshed (w_ctx w) (mem w) (small_page_table_present dir) (small_page_table_address dir)
         kSMALL_PAGE_COUNT kSMALL_PAGE_COUNT (sd_small old) (sd_small d)) w.
Proof.
  intros Hs Hid Hwf Hmax Hsz Hpd old dir.
  assert (Hd0 : swdir_wf old).
  { unfold old. rewrite vec_at_resize. case_match; [apply Hwf|]. done. }
  unfold st_refresh. cbn [st_predefined_max set_st_page_directory_address]. rewrite Hmax.
  change (kBAR1_ARENA_SIZE =? 0) with false. cbn iota.
  unfold st_refresh_page_directories. cbn [st_size set_st_page_directory_address st_directories
    st_predefined_max]. rewrite Hsz, Hmax.
  change (directory_count kBAR1_ARENA_SIZE) with 1. change (kMAX_PAGE_DIRECTORIES <? 1) with false.
  change (Z.to_nat 1) with 1%nat. change (kBAR1_ARENA_SIZE =? 0) with false. change (0 + 1 =? 1) with true.
  cbn iota. cbn [for_acc]. change (8 * 0) with 0. rewrite Z.add_0_r.
  rewrite u64_small by (destruct Hpd as (? & ? & ?); lia).
  change (if kBAR1_ARENA_SIZE mod kPAGE_DIRECTORY_COVERED_SIZE =? 0 then kPAGE_DIRECTORY_COVERED_SIZE
          else _) with kPAGE_DIRECTORY_COVERED_SIZE.
  apply wp_bind, wp_bind, wp_bind. eapply wp_mono; [by apply page_directory_create_spec|].
  intros dir1 w1 [-> Q1]. apply wp_bind, wp_vread; [simpl; lia|]. apply wp_bind.
  eapply wp_mono; [apply directory_refresh_spec; [apply Q1| |done]|];
    rewrite ?(fr_ctx _ _ (qu_frame _ _ Q1)); [done|].
  intros d w2 (Q2 & RL & RS). apply wp_vwrite; [simpl; lia|]. intros dirs' Hl H0 _.
  apply wp_ret, wp_ret. split_and!; [by apply (quiet_trans w w1)|done|].
  exists d. cbn [st_directories set_st_directories].
  rewrite vec_get_some by (rewrite Hl; simpl; lia). rewrite H0.
  by rewrite <- !(refreshed_ext _ (mem w1) (mem w)) by apply Q1.
Qed.


(** The translation of an entry looks at one 4KB page. A guest that maps a large
    page (128KB) at the last 4KB page of its memory keeps a present entry, and resolving
    the offsets behind its first 4KB leaves the partition of the machine: the first of
    them resolves to the first byte of the next partition. *)
Theorem large_page_crosses_partition (c : context) :
  valid_id (c_id c) ->
  let e := translate c (Some (PageEntry 0x7ffff1 0)) in
  let d := SoftwarePageDirectory (Some (vec_make kLARGE_PAGE_COUNT e)) None in
  exists a, directory_resolve kPAGE_SIZE d = Some (a, e)
    /\ ~ in_partition (c_id c) a /\ in_partition (c_id c + 1) a.
Proof using Type.
  intros Hid e d.
  assert (Hg : e = set_pe_address (0x7ffff + c_id c * (vram_size / kPAGE_SIZE)) (PageEntry 0x7ffff1 0))
    by (unfold e, translate; by rewrite guest_to_host_vram_eq).
  assert (Hp : pe_present e = true) by (rewrite Hg; autorewrite with a3; done).
  assert (Ha : pe_address e = 0x7ffff + c_id c * 524288).
  { rewrite Hg. autorewrite with a3. unfold valid_id, vram_size in *. consts.
    change (2147483648 / 4096) with 524288. apply Z.mod_small. zlia. }
  exists ((c_id c + 1) * vram_size). unfold directory_resolve, d.
  cbn [sd_small sd_large]. unfold resolve_in.
  change (kPAGE_SIZE / kLARGE_PAGE_SIZE) with 0. change (kPAGE_SIZE mod kLARGE_PAGE_SIZE) with kPAGE_SIZE.
  rewrite vec_get_some, vec_at_make, Hp, Ha, Z.shiftl_mul_pow2 by (simpl; consts; lia).
  unfold in_partition, vram_size. consts. split; [repeat f_equal; lia|lia].
Qed.

End Software.

(** ** A concrete guest table *)

(** The tables of machine 0: a directory at 0x10000 of the partition with a present table
    of small pages at 0x20000, whose fourth entry maps page 0x123. *)
Definition sim_guest_tables : gmap Z Z :=
  let base := get_phys_address 0 0 in
  sim_store 4 (base + 0x10004) 0x201 (sim_store 4 (base + 0x20018) 0x1231 ∅).

Definition sim_table_world : @world sim_platform :=
  @World sim_platform (SimGpu sim_guest_tables 0 ∅) sim_device sim_context [].

Definition sim_bar1_table : software_page_table := @software_page_table_new sim_platform 0 false kBAR1_ARENA_SIZE.


Lemma large_page_crosses_partition_witness :
  exists a, ~ in_partition 0 a /\ in_partition 1 a.
Proof.
  destruct (@large_page_crosses_partition sim_platform sim_context) as (a & _ & H1 & H2).
  - vm_compute; intuition congruence.
  - exists a. split; [exact H1|exact H2].
Defined.
