(* ===== verification/Shadow.v ===== *)
(** * Isolation of the shadow page tables

    The GPU walks the shadow tables A3 builds in its own device memory. Whatever a
    guest puts in its tables, and wherever its directory points, every entry the GPU
    can reach from the shadow directory leads to the machine's own partition of the
    video memory. *)

From S2P Require Import Prelude Config Vram PageTable Barrier Sched State Device Tables.

(** ** Blocks of the pool *)

Lemma cov_two p q l a : p ∈ l -> q ∈ l -> p <> q -> covers p a = true -> covers q a = true -> 2 <= cov l a.
Proof.
  intros Hp Hq Hne Ha Hb. apply list_elem_of_split in Hp as (l1 & l2 & ->).
  assert (Hq' : q ∈ l1 ++ l2).
  { rewrite elem_of_app, elem_of_cons in *. destruct Hq as [?|[?|?]]; [by left|congruence|by right]. }
  rewrite cov_app, cov_cons, Ha. pose proof (cov_in q (l1 ++ l2) a Hq' Hb) as H.
  rewrite cov_app in H. simpl. lia.
Qed.

Lemma alloc_disjoint m alloc p q a :
  vram_inv m alloc -> p ∈ alloc -> q ∈ alloc -> p <> q -> covers p a = true -> covers q a = false.
Proof.
  intros Hi Hp Hq Hne Ha. destruct (covers q a) eqn:Hb; [|done]. exfalso.
  pose proof (cov_two p q (free_list_ m ++ alloc) a) as H.
  rewrite (inv_cover _ _ Hi a) in H. rewrite !elem_of_app in H.
  specialize (H (or_intror Hp) (or_intror Hq) Hne Ha Hb). destruct (_ && _); simpl in H; lia.
Qed.

Lemma alloc_fresh m alloc p : vram_inv m (p :: alloc) -> 0 < units_ p -> p ∉ alloc.
Proof.
  intros Hi Hu Hp. pose proof (inv_cover _ _ Hi (address_ p)) as H.
  rewrite cov_app, cov_cons, covers_start in H by done.
  pose proof (cov_in p alloc (address_ p) Hp (covers_start p Hu)).
  pose proof (cov_nonneg (free_list_ m) (address_ p)). destruct (_ && _); simpl in H; lia.
Qed.

Section Shadow.
Context `{PF : Platform} {PR : Pramin PF} {PL : PraminLaws PF PR}.

(** ** The world with the hypervisor's pool *)

Definition dev_core (d : device_t) : device_t := set_d_vram (vram_manager_new 0 0) (set_d_pmem 0 d).

(** Nothing but the GPU, the cached window and the pool of device memory differs. *)
Record pool_frame (w w' : world) : Prop := PoolFrame {
  pf_ctx : w_ctx w' = w_ctx w;
  pf_xen : w_xen w' = w_xen w;
  pf_dev : dev_core (w_dev w') = dev_core (w_dev w)
}.

#[export] Instance pool_frame_refl : Reflexive pool_frame.
Proof. by constructor. Qed.
#[export] Instance pool_frame_trans : Transitive pool_frame.
Proof. intros w1 w2 w3 [] []. constructor; congruence. Qed.

Lemma pmem_pool_frame w w' : pmem_frame w w' -> pool_frame w w' /\ d_vram (w_dev w') = d_vram (w_dev w).
Proof.
  intros [Hc Hx Hd]. split; [constructor; [done|done|]|].
  - unfold dev_core. by rewrite Hd.
  - by apply (f_equal d_vram) in Hd.
Qed.

(** The pool owns the blocks of [alloc]. *)
Record pool_ok (w : world) (alloc : list page) : Prop := PoolOk {
  pk_inv : vram_inv (d_vram (w_dev w)) alloc;
  pk_mem : mem_ (d_vram (w_dev w)) = A3_HYPERVISOR_DEVICE_MEM_BASE;
  pk_size : size_ (d_vram (w_dev w)) = A3_HYPERVISOR_DEVICE_MEM_SIZE
}.

Lemma pool_ok_same w w' alloc :
  d_vram (w_dev w') = d_vram (w_dev w) -> pool_ok w alloc -> pool_ok w' alloc.
Proof. intros E []. by constructor; rewrite E. Qed.

Lemma block_page_ok w alloc p : pool_ok w alloc -> p ∈ alloc -> page_ok p.
Proof.
  intros [Hi Hm Hs] Hp. pose proof (inv_blocks _ _ Hi) as Hb. rewrite Forall_app in Hb.
  destruct Hb as [_ Hb]. rewrite Forall_forall in Hb. destruct (Hb p Hp) as (? & ? & ? & ?).
  pose proof (inv_cursor _ _ Hi). unfold max_pages in *. rewrite Hm, Hs in *.
  constructor; unfold page_size; consts; zlia.
Qed.

Lemma page_new_spec n alloc w :
  synced w -> pool_ok w alloc -> 0 < n < 2 ^ 32 ->
  wp (eq Abort) (page_new n)
    (fun p w' => units_ p = n /\ (p ∉ alloc) /\ pool_ok w' (p :: alloc)
       /\ synced w' /\ pool_frame w w' /\ forall x, mem w' x = mem w x) w.
Proof.
  intros Hs [Hi Hm Hz] Hn. unfold page_new, on_vram. apply wp_zoom.
  eapply wp_mono; [by apply wp_vram_malloc|].
  intros p m' (Hu & Hb & Hi' & [Hm' Hz']). split_and!.
  - done.
  - apply (alloc_fresh m'); [done|lia].
  - constructor; simpl; congruence || done.
  - done.
  - by constructor.
  - done.
Qed.

(** ** Entries of device memory *)

(** The entry stored at [a] leads nowhere but to the machine's partition. *)
Definition safe_at (id : Z) (m : memory) (a : Z) : Prop := safe_entry id (entry_at m a).

Lemma safe_at_ext id m m' a :
  (forall x, a <= x < a + 8 -> m' x = m x) -> safe_at id m a -> safe_at id m' a.
Proof.
  intros H. unfold safe_at, entry_at.
  by rewrite (load_ext 4 a m' m), (load_ext 4 (a + 4) m' m) by (lia || intros; apply H; lia).
Qed.

Lemma create_at_wf (w : world) a e : create_at (mem w) a = Some e -> pe_wf e.
Proof.
  unfold create_at. case_match; [|done]. intros [= <-]. unfold entry_at, pe_wf. simpl.
  pose proof (load_range 4 a (mem w) ltac:(lia) (fun x => vram_bytes_range _ x)) as H1.
  pose proof (load_range 4 (a + 4) (mem w) ltac:(lia) (fun x => vram_bytes_range _ x)) as H2.
  change (8 * 4) with 32 in *. lia.
Qed.

(** Writing the two words of an entry. *)
Definition entry_written (a : Z) (m m' : memory) : Prop :=
  forall x, x < a \/ a + 8 <= x -> m' x = m x.

Lemma write_entry_spec p o e w :
  synced w -> page_ok p -> 0 <= o -> o + 8 <= page_size p -> o mod 8 = 0 -> pe_wf e ->
  wp no_error (page_write32 p o (pe_word0 e) ;;; page_write32 p (o + 4) (pe_word1 e))
    (fun _ w' => synced w' /\ pmem_frame w w' /\ entry_at (mem w') (address_ p + o) = e
       /\ entry_written (address_ p + o) (mem w) (mem w')) w.
Proof.
  intros Hs Hp Ho Hl Hm [H0 H1]. apply wp_bind.
  eapply wp_mono; [apply page_write32_spec; [done|done|lia|zlia]|]. intros [] w1 (Hs1 & F1 & M1).
  eapply wp_mono; [apply page_write32_spec; [done|done|lia|zlia]|]. intros [] w2 (Hs2 & F2 & M2).
  set (a := address_ p + o) in *. replace (address_ p + (o + 4)) with (a + 4) in * by lia.
  rewrite u32_small in M1 by lia. rewrite u32_small in M2 by lia.
  split_and!; [done|by etrans| |].
  - unfold entry_at. destruct e as [w0 w1']. simpl in *. f_equal.
    + rewrite (load_ext 4 a (mem w2) (store 4 a w0 (mem w))).
      * apply load_store_same; [lia|]. change (8 * 4) with 32. lia.
      * lia.
      * intros x Hx. rewrite M2, store_outside by lia. apply M1.
    + rewrite (load_ext 4 (a + 4) (mem w2) (store 4 (a + 4) w1' (mem w1))).
      * apply load_store_same; [lia|]. change (8 * 4) with 32. lia.
      * lia.
      * intros x _. apply M2.
  - intros x Hx. rewrite M2, store_outside by lia. rewrite M1, store_outside by lia. done.
Qed.

(** Clearing the first word makes the entry absent. *)
Lemma clear_entry_spec p o w :
  synced w -> page_ok p -> 0 <= o -> o + 8 <= page_size p -> o mod 8 = 0 ->
  wp no_error (page_write32 p o 0)
    (fun _ w' => synced w' /\ pmem_frame w w' /\ pe_present (entry_at (mem w') (address_ p + o)) = false
       /\ entry_written (address_ p + o) (mem w) (mem w')) w.
Proof.
  intros Hs Hp Ho Hl Hm.
  eapply wp_mono; [apply page_write32_spec; [done|done|lia|zlia]|]. intros [] w1 (Hs1 & F1 & M1).
  split_and!; [done|done| |].
  - unfold pe_present, entry_at. simpl.
    rewrite (load_ext 4 _ (mem w1) (store 4 (address_ p + o) (u32 0) (mem w))) by (lia || intros; apply M1).
    by rewrite load_store_same by (change (8 * 4) with 32; zlia).
  - intros x Hx. rewrite M1, store_outside by lia. done.
Qed.

(** Two entries at multiples of eight are the same or do not overlap. *)
Lemma slot_disjoint a b x :
  a mod 8 = 0 -> b mod 8 = 0 -> a <> b -> a <= x < a + 8 -> x < b \/ b + 8 <= x.
Proof. intros. zlia. Qed.

(** One round of the copying loop: a safe entry is written, nothing else. *)
Lemma shadow_entry_spec address n p i w :
  synced w -> valid_id (c_id (w_ctx w)) -> table_ok address n -> 0 <= i < n ->
  page_ok p -> 8 * n <= page_size p ->
  wp no_error (shadow_entry address p i)
    (fun _ w' => synced w' /\ pmem_frame w w'
       /\ safe_at (c_id (w_ctx w)) (mem w') (address_ p + 8 * i)
       /\ entry_written (address_ p + 8 * i) (mem w) (mem w')) w.
Proof.
  intros Hs Hid Ht Hi Hp Hsz. pose proof (table_pair _ _ _ Ht Hi) as Ha. unfold shadow_entry.
  rewrite u64_small by (destruct Ha as (? & ? & ?); lia). apply wp_bind.
  eapply wp_mono; [by apply page_entry_create_spec|]. intros r w1 [-> Q1].
  assert (Hmem : forall a m', entry_written a (mem w1) m' -> entry_written a (mem w) m').
  { intros a m' H x Hx. rewrite H by done. apply Q1. }
  destruct (create_at (mem w) (address + 8 * i)) as [e|] eqn:Ee.
  - apply wp_bind, wp_bind, wp_gets, wp_ret. rewrite (fr_ctx _ _ (qu_frame _ _ Q1)).
    eapply wp_mono; [apply write_entry_spec;
      [apply Q1|done|lia|lia|zlia|apply guest_to_host_wf; by eapply create_at_wf]|].
    intros [] w2 (Hs2 & F2 & E2 & M2). split_and!; [done| | |by apply Hmem].
    + etrans; [apply (qu_frame _ _ Q1)|done].
    + unfold safe_at. rewrite E2. by apply guest_to_host_safe.
  - eapply wp_mono; [apply clear_entry_spec; [apply Q1|done|lia|lia|zlia]|].
    intros [] w2 (Hs2 & F2 & E2 & M2). split_and!; [done| | |by apply Hmem].
    + etrans; [apply (qu_frame _ _ Q1)|done].
    + intros Hpr. congruence.
Qed.

(** The loop over a table. *)
Lemma shadow_entries_spec address n p w :
  synced w -> valid_id (c_id (w_ctx w)) -> table_ok address n -> 0 <= n ->
  page_ok p -> 8 * n <= page_size p ->
  wp no_error (for_ (Z.to_nat n) 0 (shadow_entry address p))
    (fun _ w' => synced w' /\ pmem_frame w w'
       /\ (forall i, 0 <= i < n -> safe_at (c_id (w_ctx w)) (mem w') (address_ p + 8 * i))
       /\ (forall a, a mod 8 = 0 -> safe_at (c_id (w_ctx w)) (mem w) a ->
           safe_at (c_id (w_ctx w)) (mem w') a)
       /\ (forall x, covers p x = false -> mem w' x = mem w x)) w.
Proof.
  intros Hs Hid Ht Hn Hp Hsz. set (id := c_id (w_ctx w)) in *.
  assert (Hal : address_ p mod 8 = 0) by (destruct Hp; zlia).
  apply (wp_for _ (fun k w' => synced w' /\ pmem_frame w w'
    /\ (forall i, 0 <= i < k -> safe_at id (mem w') (address_ p + 8 * i))
    /\ (forall a, a mod 8 = 0 -> safe_at id (mem w) a -> safe_at id (mem w') a)
    /\ (forall x, covers p x = false -> mem w' x = mem w x))).
  - split_and!; [done|done|lia|done|done].
  - intros k w1 Hk (Hs1 & F1 & S1 & A1 & O1). rewrite Z2Nat.id in Hk by lia.
    assert (Hid1 : c_id (w_ctx w1) = id) by (by rewrite (fr_ctx _ _ F1)).
    eapply wp_mono; [apply (shadow_entry_spec address n p k w1); [done|by rewrite Hid1|done|lia|done|done]|].
    rewrite Hid1. intros [] w2 (Hs2 & F2 & S2 & M2).
    assert (Hkeep : forall a, a mod 8 = 0 -> safe_at id (mem w1) a -> safe_at id (mem w2) a).
    { intros a Ha Hsa. destruct (decide (a = address_ p + 8 * k)) as [->|Hne]; [done|].
      apply (safe_at_ext id (mem w1)); [|done]. intros x Hx.
      apply M2. apply (slot_disjoint a); [done|zlia|done|done]. }
    split_and!; [done|by etrans| | |].
    + intros i Hi. destruct (decide (i = k)) as [->|Hne]; [done|]. apply Hkeep; [zlia|]. apply S1. lia.
    + intros a Ha Hsa. by apply Hkeep, A1.
    + intros x Hx. rewrite M2, O1; [done|done|].
      unfold covers in Hx. unfold page_size in *. consts.
      destruct (Z.leb_spec (address_ p) x), (Z.ltb_spec x (address_ p + units_ p * 4096)); simpl in Hx; lia.
  - intros w'. by rewrite Z2Nat.id by lia.
Qed.

(** ** The tables of one channel *)

(** The pages a shadow table holds are distinct blocks of the pool. *)
Record shadow_inv (t : shadow_page_table) (ph : page) (alloc : list page) : Prop := ShadowInv {
  si_phys : sh_phys t = Some ph /\ ph ∈ alloc /\ units_ ph = 0x10;
  si_large : forall p, p ∈ sh_large_pool t -> p ∈ alloc /\ units_ p = 2 /\ p <> ph;
  si_small : forall p, p ∈ sh_small_pool t -> p ∈ alloc /\ units_ p = 64 /\ p <> ph;
  si_large_cursor : 0 <= sh_large_cursor t <= Z.of_nat (length (sh_large_pool t));
  si_small_cursor : 0 <= sh_small_cursor t <= Z.of_nat (length (sh_small_pool t))
}.

(** The pools only grow. *)
Definition pool_grows (t t' : shadow_page_table) : Prop :=
  sh_large_pool t ⊆ sh_large_pool t' /\ sh_small_pool t ⊆ sh_small_pool t'.

Definition alloc_post (n : Z) (t : shadow_page_table) (ph : page) (alloc : list page) (w : world)
    (pool : shadow_page_table -> list page) (r : page * shadow_page_table) (w' : world) : Prop :=
  exists alloc', alloc ⊆ alloc' /\ pool_ok w' alloc' /\ shadow_inv r.2 ph alloc'
    /\ pool_grows t r.2 /\ r.1 ∈ pool r.2 /\ r.1 ∈ alloc' /\ units_ r.1 = n /\ r.1 <> ph
    /\ sh_page_directory_address r.2 = sh_page_directory_address t /\ sh_size r.2 = sh_size t
    /\ synced w' /\ pool_frame w w' /\ forall x, mem w' x = mem w x.

Lemma allocate_large_page_spec t ph alloc w :
  synced w -> pool_ok w alloc -> shadow_inv t ph alloc ->
  wp (eq Abort) (allocate_large_page t) (alloc_post 2 t ph alloc w sh_large_pool) w.
Proof.
  intros Hs Hk Hi. pose proof Hi as [(Hp1 & Hp2 & Hp3) HL HS HcL HcS]. unfold allocate_large_page.
  destruct (Z.eqb_spec (sh_large_cursor t) (Z.of_nat (length (sh_large_pool t)))) as [E|E].
  - apply wp_bind. change (kLARGE_PAGE_COUNT * 8 / kPAGE_SIZE) with 2.
    eapply wp_mono; [apply (page_new_spec 2 alloc); [done|done|lia]|].
    intros p w1 (Hu & Hf & Hk1 & Hs1 & F1 & M1). apply wp_ret. exists (p :: alloc). cbn [fst snd].
    assert (Hne : p <> ph) by (intros ->; done).
    split_and!; try done.
    + intros x Hx. by right.
    + constructor; simpl; try done.
      * split_and!; [done|by right|done].
      * intros q [Hq| ->%list_elem_of_singleton]%elem_of_app.
        -- destruct (HL q Hq) as (? & ? & ?). split_and!; [by right|done|done].
        -- split_and!; [left|done|done].
      * intros q Hq. destruct (HS q Hq) as (? & ? & ?). split_and!; [by right|done|done].
      * rewrite length_app. simpl. lia.
    + split; [|done]. intros x Hx. simpl. apply elem_of_app. by left.
    + simpl. apply elem_of_app. right. left.
    + left.
  - apply wp_bind. destruct (lookup_lt_is_Some_2 (sh_large_pool t) (Z.to_nat (sh_large_cursor t))) as [p Hl]; [lia|].
    apply (wp_of_option _ _ _ p); [done|]. apply wp_ret. exists alloc. cbn [fst snd].
    pose proof (list_elem_of_lookup_2 _ _ _ Hl) as Hin. destruct (HL p Hin) as (? & ? & ?).
    split_and!; try done. constructor; simpl; try done. lia.
Qed.

Lemma allocate_small_page_spec t ph alloc w :
  synced w -> pool_ok w alloc -> shadow_inv t ph alloc ->
  wp (eq Abort) (allocate_small_page t) (alloc_post 64 t ph alloc w sh_small_pool) w.
Proof.
  intros Hs Hk Hi. pose proof Hi as [(Hp1 & Hp2 & Hp3) HL HS HcL HcS]. unfold allocate_small_page.
  destruct (Z.eqb_spec (sh_small_cursor t) (Z.of_nat (length (sh_small_pool t)))) as [E|E].
  - apply wp_bind. change (kSMALL_PAGE_COUNT * 8 / kPAGE_SIZE) with 64.
    eapply wp_mono; [apply (page_new_spec 64 alloc); [done|done|lia]|].
    intros p w1 (Hu & Hf & Hk1 & Hs1 & F1 & M1). apply wp_ret. exists (p :: alloc). cbn [fst snd].
    assert (Hne : p <> ph) by (intros ->; done).
    split_and!; try done.
    + intros x Hx. by right.
    + constructor; simpl; try done.
      * split_and!; [done|by right|done].
      * intros q Hq. destruct (HL q Hq) as (? & ? & ?). split_and!; [by right|done|done].
      * intros q [Hq| ->%list_elem_of_singleton]%elem_of_app.
        -- destruct (HS q Hq) as (? & ? & ?). split_and!; [by right|done|done].
        -- split_and!; [left|done|done].
      * rewrite length_app. simpl. lia.
    + split; [done|]. intros x Hx. simpl. apply elem_of_app. by left.
    + simpl. apply elem_of_app. right. left.
    + left.
  - apply wp_bind. destruct (lookup_lt_is_Some_2 (sh_small_pool t) (Z.to_nat (sh_small_cursor t))) as [p Hl]; [lia|].
    apply (wp_of_option _ _ _ p); [done|]. apply wp_ret. exists alloc. cbn [fst snd].
    pose proof (list_elem_of_lookup_2 _ _ _ Hl) as Hin. destruct (HS p Hin) as (? & ? & ?).
    split_and!; try done. constructor; simpl; try done. lia.
Qed.

(** ** Directories *)

Definition is_u32 (x : Z) : Prop := 0 <= x < 2 ^ 32.
Definition pd_wf (d : page_directory) : Prop := is_u32 (pd_word0 d) /\ is_u32 (pd_word1 d).

Lemma page_field p : page_ok p -> 0 <= Z.shiftr (address_ p) 12 < 2 ^ 28
  /\ Z.shiftl (Z.shiftr (address_ p) 12) 12 = address_ p.
Proof.
  intros [Ha Hb Hu He]. rewrite Z.shiftr_div_pow2, Z.shiftl_mul_pow2 by lia.
  unfold page_size in *. split; zlia.
Qed.

Lemma set_large_fields p d :
  page_ok p ->
  let d' := set_large_page_table_address (Z.shiftr (address_ p) 12) d in
  Z.shiftl (large_page_table_address d') 12 = address_ p
  /\ large_page_table_present d' = large_page_table_present d
  /\ large_size_count d' = large_size_count d
  /\ pd_word1 d' = pd_word1 d.
Proof.
  intros Hp. destruct (page_field p Hp) as [Hr He]. cbn zeta. split_and!.
  - unfold large_page_table_address, set_large_page_table_address. simpl.
    rewrite get_set_bits_same by lia. by rewrite Z.mod_small by lia.
  - unfold large_page_table_present, set_large_page_table_address. simpl.
    by rewrite testbit_set_bits by lia.
  - unfold large_size_count, size_type, set_large_page_table_address. simpl.
    by rewrite get_set_bits_other by lia.
  - done.
Qed.

Lemma set_small_fields p d :
  page_ok p ->
  let d' := set_small_page_table_address (Z.shiftr (address_ p) 12) d in
  Z.shiftl (small_page_table_address d') 12 = address_ p
  /\ small_page_table_present d' = small_page_table_present d
  /\ pd_word0 d' = pd_word0 d.
Proof.
  intros Hp. destruct (page_field p Hp) as [Hr He]. cbn zeta. split_and!.
  - unfold small_page_table_address, set_small_page_table_address. simpl.
    rewrite get_set_bits_same by lia. by rewrite Z.mod_small by lia.
  - unfold small_page_table_present, set_small_page_table_address. simpl.
    by rewrite testbit_set_bits by lia.
  - done.
Qed.

(** What every step of the scan preserves, for a fixed directory page [ph]: entries
    once safe stay safe, and the directory page is only written by the directory loop. *)
Record scan_step (id : Z) (ph : page) (t t' : shadow_page_table) (alloc : list page) (w w' : world)
  : Prop := ScanStep {
  ss_synced : synced w';
  ss_frame : pool_frame w w';
  ss_pool : exists alloc', alloc ⊆ alloc' /\ pool_ok w' alloc' /\ shadow_inv t' ph alloc';
  ss_grows : pool_grows t t';
  ss_safe : forall a, a mod 8 = 0 -> safe_at id (mem w) a -> safe_at id (mem w') a;
  ss_phys : forall x, covers ph x = true -> mem w' x = mem w x
}.

Lemma scan_step_refl id ph t alloc w :
  synced w -> pool_ok w alloc -> shadow_inv t ph alloc -> scan_step id ph t t alloc w w.
Proof. intros. constructor; try done. by exists alloc. Qed.

Lemma scan_step_trans id ph t1 t2 t3 alloc al w1 w2 w3 :
  scan_step id ph t1 t2 alloc w1 w2 -> alloc ⊆ al -> scan_step id ph t2 t3 al w2 w3 ->
  scan_step id ph t1 t3 alloc w1 w3.
Proof.
  intros [Hs1 F1 _ [G1 G1'] S1 P1] Ha [Hs2 F2 (al' & Ha' & Hk' & Hi') [G2 G2'] S2 P2].
  constructor; [done|by etrans| |split; by etrans| |].
  - exists al'. split_and!; [by etrans|done|done].
  - intros a Hm Hsa. by apply S2, S1.
  - intros x Hx. by rewrite P2, P1.
Qed.

(** Allocating a table page and copying a guest table into it. *)
Lemma copy_table_spec {A} (op : shadow_page_table -> M world (page * shadow_page_table)) n units pool
    t ph alloc address (k : page * shadow_page_table -> M world A) (Q : A -> world -> Prop) w :
  synced w -> valid_id (c_id (w_ctx w)) -> pool_ok w alloc -> shadow_inv t ph alloc ->
  table_ok address n -> 0 <= n -> 8 * n <= units * 4096 ->
  wp (eq Abort) (op t) (alloc_post units t ph alloc w pool) w ->
  (forall a w', scan_step (c_id (w_ctx w)) ph t a.2 alloc w w' -> a.1 ∈ pool a.2 -> page_ok a.1 ->
     (forall i, 0 <= i < n -> safe_at (c_id (w_ctx w)) (mem w') (address_ a.1 + 8 * i)) ->
     wp (eq Abort) (k a) Q w') ->
  wp (eq Abort) (let! a := op t in for_ (Z.to_nat n) 0 (shadow_entry address a.1) ;;; k a) Q w.
Proof.
  intros Hs Hid Hk Hi Ht Hn Hu Hop Hkont. apply wp_bind. eapply wp_mono; [exact Hop|].
  intros a w1 (al & Ha & Hk1 & Hi1 & Hg & Hin & Hal & Hua & Hne & _ & _ & Hs1 & F1 & M1).
  pose proof (block_page_ok _ _ _ Hk1 Hal) as Hp. apply wp_bind, wp_no_error.
  assert (Hc1 : w_ctx w1 = w_ctx w) by apply F1.
  eapply wp_mono; [apply (shadow_entries_spec address n);
    [done|by rewrite Hc1|done|done|done|unfold page_size; lia]|].
  rewrite Hc1. intros [] w2 (Hs2 & F2 & S2 & A2 & O2). destruct (pmem_pool_frame _ _ F2) as [F2' V2].
  apply Hkont; [|done|done|done]. constructor.
  - done.
  - by etrans.
  - exists al. split_and!; [done|by apply (pool_ok_same w1)|done].
  - done.
  - intros b Hb Hsb. apply A2; [done|]. apply (safe_at_ext _ (mem w)); [|done]. intros x _. apply M1.
  - intros x Hx. rewrite O2, M1; [done|].
    apply (alloc_disjoint _ _ ph a.1 x (pk_inv _ _ Hk1)); [|done|done|done]. apply (si_phys _ _ _ Hi1).
Qed.

(** The large half of a directory entry, and then the small half. *)
Definition large_ok (id : Z) (m : memory) (t : shadow_page_table) (d : page_directory) : Prop :=
  large_page_table_present d = true -> exists p, p ∈ sh_large_pool t
     /\ Z.shiftl (large_page_table_address d) 12 = address_ p
     /\ forall i, 0 <= i < large_size_count d -> safe_at id m (address_ p + 8 * i).
Definition small_ok (id : Z) (m : memory) (t : shadow_page_table) (d : page_directory) : Prop :=
  small_page_table_present d = true -> exists p, p ∈ sh_small_pool t
     /\ Z.shiftl (small_page_table_address d) 12 = address_ p
     /\ forall i, 0 <= i < kSMALL_PAGE_COUNT -> safe_at id m (address_ p + 8 * i).

Lemma large_ok_step id ph t t' alloc al w w' d :
  scan_step id ph t t' alloc w w' -> pool_ok w al -> shadow_inv t ph al ->
  large_ok id (mem w) t d -> large_ok id (mem w') t' d.
Proof.
  intros Hst Hk Hi H Hp. destruct (H Hp) as (p & Hin & He & Hs). exists p.
  split_and!; [by apply (ss_grows _ _ _ _ _ _ _ Hst)|done|]. intros i Hir.
  apply (ss_safe _ _ _ _ _ _ _ Hst); [|by apply Hs].
  destruct (si_large _ _ _ Hi p Hin) as (Hal & _). destruct (block_page_ok _ _ _ Hk Hal). zlia.
Qed.

Lemma small_ok_step id ph t t' alloc al w w' d :
  scan_step id ph t t' alloc w w' -> pool_ok w al -> shadow_inv t ph al ->
  small_ok id (mem w) t d -> small_ok id (mem w') t' d.
Proof.
  intros Hst Hk Hi H Hp. destruct (H Hp) as (p & Hin & He & Hs). exists p.
  split_and!; [by apply (ss_grows _ _ _ _ _ _ _ Hst)|done|]. intros i Hir.
  apply (ss_safe _ _ _ _ _ _ _ Hst); [|by apply Hs].
  destruct (si_small _ _ _ Hi p Hin) as (Hal & _). destruct (block_page_ok _ _ _ Hk Hal). zlia.
Qed.

(** Only the first word matters for the large half. *)
Lemma large_ok_word0 id m t d d' : pd_word0 d' = pd_word0 d -> large_ok id m t d -> large_ok id m t d'.
Proof.
  intros E. unfold large_ok, large_page_table_present, large_page_table_address, large_size_count, size_type.
  by rewrite E.
Qed.

Lemma refresh_directory_spec dir t ph alloc w :
  synced w -> valid_id (c_id (w_ctx w)) -> pool_ok w alloc -> shadow_inv t ph alloc -> pd_wf dir ->
  wp (eq Abort) (refresh_directory dir t)
    (fun r w' => scan_step (c_id (w_ctx w)) ph t r.2 alloc w w' /\ pd_wf r.1
       /\ large_ok (c_id (w_ctx w)) (mem w') r.2 r.1 /\ small_ok (c_id (w_ctx w)) (mem w') r.2 r.1) w.
Proof.
  intros Hs Hid Hk Hi [Hw0 Hw1]. set (id := c_id (w_ctx w)) in *.
  pose proof (large_size_count_range dir) as Hlc.
  unfold refresh_directory. apply wp_bind, wp_gets. apply wp_bind.
  apply (wp_mono _ _ (fun r w1 => scan_step id ph t r.2 alloc w w1
    /\ pd_word1 r.1 = pd_word1 dir /\ is_u32 (pd_word0 r.1) /\ large_ok id (mem w1) r.2 r.1)).
  - destruct (large_page_table_present dir) eqn:EL.
    + destruct (guest_table_ok (c_id (w_ctx w)) (large_page_table_address dir) (large_size_count dir) Hid
        (large_field_range dir)) as [Ht _]; [consts; lia|].
      apply (copy_table_spec _ (large_size_count dir) 2 sh_large_pool _ ph alloc); try done;
        [lia|consts; lia|by apply allocate_large_page_spec|].
      intros a w1 Hst Hin Hp Hsafe. apply wp_ret. cbn [fst snd].
      destruct (set_large_fields a.1 dir Hp) as (E1 & E2 & E3 & E4). split_and!; [done|done| |].
      * by apply set_bits_range.
      * intros _. exists a.1. rewrite E3. done.
    + apply wp_ret. split_and!; [by apply scan_step_refl|done|done|done].
  - intros r w1 (Hst & E1 & Hr0 & HL). cbn zeta.
    destruct (ss_pool _ _ _ _ _ _ _ Hst) as (al & Ha & Hk1 & Hi1).
    assert (Hc1 : w_ctx w1 = w_ctx w) by apply (ss_frame _ _ _ _ _ _ _ Hst).
    destruct (small_page_table_present dir) eqn:ES.
    + destruct (guest_table_ok (c_id (w_ctx w)) (small_page_table_address dir) kSMALL_PAGE_COUNT Hid
        (small_field_range dir)) as [Ht _]; [done|].
      apply (copy_table_spec _ kSMALL_PAGE_COUNT 64 sh_small_pool _ ph al); try done;
        [apply Hst|by rewrite Hc1|by apply allocate_small_page_spec; [apply Hst|..]|].
      rewrite Hc1. fold id. intros a w2 Hst2 Hin Hp Hsafe. apply wp_ret. cbn [fst snd].
      destruct (set_small_fields a.1 r.1 Hp) as (F1 & F2 & F3). split_and!.
      * by apply (scan_step_trans _ _ t r.2 a.2 alloc al w w1 w2).
      * split; [by rewrite F3|]. apply set_bits_range; try done. by rewrite E1.
      * apply (large_ok_word0 _ _ _ r.1); [done|]. by apply (large_ok_step _ _ _ _ _ al _ _ _ Hst2).
      * intros _. by exists a.1.
    + apply wp_ret. cbn [fst snd]. split_and!; [done|by split| |done].
      by apply (large_ok_word0 _ _ _ r.1).
Qed.

(** ** The whole directory *)

Lemma pool_slot w al p ph n i x :
  pool_ok w al -> p ∈ al -> ph ∈ al -> p <> ph -> 0 <= i < n -> 8 * n <= page_size p ->
  address_ p + 8 * i <= x < address_ p + 8 * i + 8 -> covers ph x = false.
Proof.
  intros Hk Hp Hph Hne Hi Hn Hx. apply (alloc_disjoint _ _ p ph x (pk_inv _ _ Hk)); try done.
  unfold covers, page_size in *. consts. apply andb_true_iff. split; lia.
Qed.

(** Writing a directory entry leaves the tables alone. *)
Lemma large_ok_write id w t ph al b m' d :
  pool_ok w al -> shadow_inv t ph al -> entry_written b (mem w) m' ->
  (forall x, b <= x < b + 8 -> covers ph x = true) ->
  large_ok id (mem w) t d -> large_ok id m' t d.
Proof.
  intros Hk Hi Hw Hb H Hp. destruct (H Hp) as (p & Hin & He & Hs). exists p. split_and!; [done|done|].
  intros i Hir. apply (safe_at_ext id (mem w)); [|by apply Hs]. intros x Hx. apply Hw.
  destruct (si_large _ _ _ Hi p Hin) as (Hal & Hu & Hne).
  pose proof (large_size_count_range d) as Hc. destruct (si_phys _ _ _ Hi) as (_ & Hph & _).
  assert (covers ph x = false) as Hx'.
  { apply (pool_slot w al p ph (large_size_count d) i); try done.
    unfold page_size. rewrite Hu. consts. lia. }
  destruct (Z_lt_le_dec x b); [by left|]. right.
  destruct (Z_lt_le_dec x (b + 8)); [|done]. rewrite Hb in Hx' by lia. done.
Qed.

Lemma small_ok_write id w t ph al b m' d :
  pool_ok w al -> shadow_inv t ph al -> entry_written b (mem w) m' ->
  (forall x, b <= x < b + 8 -> covers ph x = true) ->
  small_ok id (mem w) t d -> small_ok id m' t d.
Proof.
  intros Hk Hi Hw Hb H Hp. destruct (H Hp) as (p & Hin & He & Hs). exists p. split_and!; [done|done|].
  intros i Hir. apply (safe_at_ext id (mem w)); [|by apply Hs]. intros x Hx. apply Hw.
  destruct (si_small _ _ _ Hi p Hin) as (Hal & Hu & Hne). destruct (si_phys _ _ _ Hi) as (_ & Hph & _).
  assert (covers ph x = false) as Hx'.
  { apply (pool_slot w al p ph kSMALL_PAGE_COUNT i); try done.
    unfold page_size. rewrite Hu. by consts. }
  destruct (Z_lt_le_dec x b); [by left|]. right.
  destruct (Z_lt_le_dec x (b + 8)); [|done]. rewrite Hb in Hx' by lia. done.
Qed.

(** The first [k] entries of the directory page are in order. *)
Definition dirs_ok (id : Z) (m : memory) (t : shadow_page_table) (ph : page) (k : Z) : Prop :=
  forall j, 0 <= j < k ->
  large_ok id m t (dir_at m (address_ ph + 8 * j)) /\ small_ok id m t (dir_at m (address_ ph + 8 * j)).

Lemma dir_at_same m m' a : (forall x, a <= x < a + 8 -> m' x = m x) -> dir_at m' a = dir_at m a.
Proof.
  intros H. unfold dir_at.
  by rewrite (load_ext 4 a m' m), (load_ext 4 (a + 4) m' m) by (lia || intros; apply H; lia).
Qed.

Lemma dir_at_wf (w : world) a : pd_wf (dir_at (mem w) a).
Proof.
  split; unfold is_u32, dir_at; simpl.
  - apply (load_range 4 a (mem w) ltac:(lia)). intros x. apply vram_bytes_range.
  - apply (load_range 4 (a + 4) (mem w) ltac:(lia)). intros x. apply vram_bytes_range.
Qed.

(** A scan step keeps the directory entries written so far. *)
Lemma dirs_ok_step id ph t t' alloc al w w' k :
  scan_step id ph t t' alloc w w' -> pool_ok w al -> shadow_inv t ph al -> k <= 0x2000 ->
  dirs_ok id (mem w) t ph k -> dirs_ok id (mem w') t' ph k.
Proof.
  intros Hst Hk Hi Hk2 H j Hj. destruct (si_phys _ _ _ Hi) as (_ & _ & Hu).
  rewrite (dir_at_same (mem w) (mem w')).
  - destruct (H j Hj) as [HL HS]. split.
    + by apply (large_ok_step _ _ _ _ _ al _ _ _ Hst).
    + by apply (small_ok_step _ _ _ _ _ al _ _ _ Hst).
  - intros x Hx. apply (ss_phys _ _ _ _ _ _ _ Hst). unfold covers. rewrite Hu. consts.
    apply andb_true_iff. split; lia.
Qed.

(** Writing entry [k] of the directory page. *)
Lemma dirs_ok_write id ph t al w m' d k :
  pool_ok w al -> shadow_inv t ph al -> 0 <= k < 0x2000 ->
  entry_written (address_ ph + 8 * k) (mem w) m' ->
  dir_at m' (address_ ph + 8 * k) = d -> large_ok id (mem w) t d -> small_ok id (mem w) t d ->
  dirs_ok id (mem w) t ph k -> dirs_ok id m' t ph (k + 1).
Proof.
  intros Hk Hi Hkr Hw Hd HL HS H j Hj. destruct (si_phys _ _ _ Hi) as (_ & _ & Hu).
  assert (Hb : forall x, address_ ph + 8 * k <= x < address_ ph + 8 * k + 8 -> covers ph x = true).
  { intros x Hx. unfold covers. rewrite Hu. consts. apply andb_true_iff. split; lia. }
  assert (G : forall d', large_ok id (mem w) t d' -> small_ok id (mem w) t d' ->
    large_ok id m' t d' /\ small_ok id m' t d').
  { intros d' HL' HS'. split; [by eapply large_ok_write|by eapply small_ok_write]. }
  destruct (decide (j = k)) as [->|Hne]; [rewrite Hd; by apply G|].
  rewrite (dir_at_same (mem w) m'); [|intros x Hx; apply Hw; lia].
  destruct (H j) as [? ?]; [lia|]. by apply G.
Qed.

(** The entries the GPU can reach from the directory at [pd]. *)
Definition reachable_entry (m : memory) (pd : Z) (e : page_entry) : Prop :=
  exists j, 0 <= j < 0x2000 /\
    let d := dir_at m (pd + 8 * j) in
    (large_page_table_present d = true /\ exists i, 0 <= i < large_size_count d
       /\ e = entry_at m (Z.shiftl (large_page_table_address d) 12 + 8 * i))
    \/ (small_page_table_present d = true /\ exists i, 0 <= i < kSMALL_PAGE_COUNT
       /\ e = entry_at m (Z.shiftl (small_page_table_address d) 12 + 8 * i)).

Lemma dirs_ok_reachable id m t ph e :
  dirs_ok id m t ph 0x2000 -> reachable_entry m (address_ ph) e -> safe_entry id e.
Proof.
  intros H (j & Hj & Hd). destruct (H j Hj) as [HL HS]. cbn zeta in Hd.
  destruct Hd as [(Hp & i & Hi & ->)|(Hp & i & Hi & ->)].
  - destruct (HL Hp) as (p & _ & -> & Hs). by apply Hs.
  - destruct (HS Hp) as (p & _ & -> & Hs). by apply Hs.
Qed.

(** What the directory loop maintains from the world [w] on. *)
Definition loop_inv (id : Z) (ph : page) (alloc : list page) (w : world) (k : Z) (t' : shadow_page_table)
    (w' : world) : Prop :=
  synced w' /\ pool_frame w w' /\ (exists al, alloc ⊆ al /\ pool_ok w' al /\ shadow_inv t' ph al)
  /\ dirs_ok id (mem w') t' ph k.

Lemma directory_round pd ph alloc w k t1 w1 :
  valid_id (c_id (w_ctx w)) -> 0 <= k < 0x2000 -> 0 <= pd -> pd mod 4 = 0 -> pd + 0x10000 <= 2 ^ 44 ->
  loop_inv (c_id (w_ctx w)) ph alloc w k t1 w1 ->
  wp (eq Abort)
    (let! dir := page_directory_create (u64 (pd + 8 * k)) in
     let! r := refresh_directory dir t1 in
     let! p := of_option NullDeref (sh_phys r.2) in
     page_write32 p (8 * k) (pd_word0 r.1) ;;;
     page_write32 p (8 * k + 4) (pd_word1 r.1) ;;;
     ret r.2)
    (loop_inv (c_id (w_ctx w)) ph alloc w (k + 1)) w1.
Proof.
  intros Hid Hk H0 H4 Hend (Hs1 & F1 & (al & Hal & Hk1 & Hi1) & D1). set (id := c_id (w_ctx w)) in *.
  assert (Hc1 : c_id (w_ctx w1) = id) by (by rewrite (pf_ctx _ _ F1)).
  apply wp_bind. rewrite u64_small by lia.
  assert (pair_ok (pd + 8 * k)) by (split_and!; zlia).
  eapply wp_mono; [by apply wp_no_error, page_directory_create_spec|]. intros dir w2 [-> Q2].
  destruct (pmem_pool_frame _ _ (qu_frame _ _ Q2)) as [F2 V2].
  assert (Hc2 : c_id (w_ctx w2) = id) by (by rewrite (pf_ctx _ _ F2)).
  apply wp_bind.
  eapply wp_mono; [apply (refresh_directory_spec _ t1 ph al);
    [apply Q2|by rewrite Hc2|by apply (pool_ok_same w1)|done|apply dir_at_wf]|].
  rewrite Hc2. intros r w3 (Hst & Hwf & HL & HS).
  destruct (ss_pool _ _ _ _ _ _ _ Hst) as (al3 & Ha3 & Hk3 & Hi3).
  destruct (si_phys _ _ _ Hi3) as (Eph & Hph & Hu). rewrite Eph. apply wp_bind, wp_ret.
  pose proof (block_page_ok _ _ _ Hk3 Hph) as Hpg.
  apply wp_bind_assoc, wp_bind, wp_no_error.
  eapply wp_mono; [apply (write_entry_spec ph (8 * k) (PageEntry (pd_word0 r.1) (pd_word1 r.1)));
    [apply Hst|done|lia|unfold page_size; lia|zlia|done]|].
  intros [] w4 (Hs4 & F4 & E4 & M4). apply wp_ret.
  destruct (pmem_pool_frame _ _ F4) as [F4' V4]. split_and!.
  - done.
  - etrans; [exact F1|]. etrans; [exact F2|]. etrans; [apply Hst|exact F4'].
  - exists al3. split_and!; [by etrans|by apply (pool_ok_same w3)|done].
  - eapply (dirs_ok_write id ph r.2 al3 w3 _ r.1); try done.
    + unfold dir_at. unfold entry_at in E4. injection E4 as -> ->. by destruct r.1.
    + apply (dirs_ok_step id ph t1 r.2 al al w2 w3); [done|by apply (pool_ok_same w1)|done|lia|].
      apply (dirs_ok_step id ph t1 t1 al al w1 w2); [|done|done|lia|done].
      constructor; [apply Q2|exact F2| |done| |].
      * exists al. split_and!; [done|by apply (pool_ok_same w1)|done].
      * intros a _ Hsa. apply (safe_at_ext _ (mem w1)); [|done]. intros x _. apply Q2.
      * intros x _. apply Q2.
Qed.

(** The loop over the directory, from a world where the pool owns [alloc]. *)
Lemma refresh_loop_spec pd t ph alloc w :
  synced w -> valid_id (c_id (w_ctx w)) -> pool_ok w alloc -> shadow_inv t ph alloc ->
  in_partition (c_id (w_ctx w)) pd -> get_virt_address (c_id (w_ctx w)) pd <> 0 -> pd mod 4 = 0 ->
  sh_size t <= vram_size ->
  wp (eq Abort) (sh_refresh_page_directories pd t) (loop_inv (c_id (w_ctx w)) ph alloc w 0x2000) w.
Proof.
  intros Hs Hid Hk Hi Hpd Hnz H4 Hsz. set (id := c_id (w_ctx w)) in *.
  assert (Hr : 0 <= pd /\ pd + 0x10000 <= 2 ^ 44).
  { revert Hpd Hid. unfold in_partition, valid_id, vram_size. consts. lia. }
  assert (Hr64 : 0 <= pd < 2 ^ 64) by lia.
  unfold sh_refresh_page_directories. apply wp_bind, wp_gets. fold id.
  rewrite (proj2 (Z.eqb_neq _ _) Hnz).
  rewrite (proj2 (in_memory_range_spec id pd Hid Hr64) Hpd).
  unfold in_memory_size. cbn [sh_size set_sh_small_cursor set_sh_large_cursor set_sh_page_directory_address].
  rewrite (proj2 (Z.leb_le _ _) Hsz). cbn [negb orb].
  apply (wp_for_acc _ (loop_inv id ph alloc w)).
  - split_and!; [done|done| |intros j Hj; lia]. exists alloc. split_and!; [done|done|].
    destruct Hi as [? ? ? ? ?]. constructor; simpl; done || lia.
  - intros k t1 w1 Hkr Hinv. change (Z.of_nat (Z.to_nat (65536 / 8))) with 0x2000 in Hkr.
    apply directory_round; done || lia.
  - intros t' w'. by change (0 + Z.of_nat (Z.to_nat (65536 / 8))) with 0x2000.
Qed.

(** The tables only depend on the memory of their pages. *)
Lemma dirs_ok_other id t ph al m m' w k :
  pool_ok w al -> shadow_inv t ph al -> k <= 0x2000 ->
  (forall q x, q = ph \/ q ∈ sh_large_pool t \/ q ∈ sh_small_pool t -> covers q x = true -> m' x = m x) ->
  dirs_ok id m t ph k -> dirs_ok id m' t ph k.
Proof.
  intros Hk Hi Hk2 Hm H j Hj. destruct (si_phys _ _ _ Hi) as (_ & _ & Hu).
  assert (Hin : forall q n i x, units_ q = n -> 0 <= i -> 8 * i + 8 <= n * 4096 ->
    address_ q + 8 * i <= x < address_ q + 8 * i + 8 -> covers q x = true).
  { intros q n i x Hq Hi0 Hi1 Hx. unfold covers. rewrite Hq. consts. apply andb_true_iff. split; lia. }
  rewrite (dir_at_same m m'); [|intros x Hx; apply (Hm ph); [by left|by apply (Hin ph 0x10 j); lia]].
  destruct (H j Hj) as [HL HS]. split.
  - intros Hp. destruct (HL Hp) as (q & Hq & He & Hsa). exists q. split_and!; [done|done|]. intros i Hir.
    destruct (si_large _ _ _ Hi q Hq) as (_ & Hqu & _).
    apply (safe_at_ext _ m); [|by apply Hsa]. intros x Hx. apply (Hm q); [naive_solver|].
    apply (Hin q 2 i); [done|lia| |lia].
    pose proof (large_size_count_range (dir_at m (address_ ph + 8 * j))) as Hc. revert Hc. consts. lia.
  - intros Hp. destruct (HS Hp) as (q & Hq & He & Hsa). exists q. split_and!; [done|done|]. intros i Hir.
    destruct (si_small _ _ _ Hi q Hq) as (_ & Hqu & _).
    apply (safe_at_ext _ m); [|by apply Hsa]. intros x Hx. apply (Hm q); [naive_solver|].
    apply (Hin q 64 i); [done|lia| |lia]. revert Hir. consts. lia.
Qed.


(** Two directory entries of one refresh share a shadow table whenever the first of
    them had to allocate it: the page that is pushed at the end of the pool is not
    stepped over, so the next allocation returns it again. *)
Theorem shadow_pool_aliases t w p t1 w1 :
  sh_large_cursor t = Z.of_nat (length (sh_large_pool t)) ->
  allocate_large_page t w = Ok ((p, t1), w1) ->
  exists t2, allocate_large_page t1 w1 = Ok ((p, t2), w1).
Proof.
  intros Hc. unfold allocate_large_page at 1. rewrite (proj2 (Z.eqb_eq _ _) Hc).
  unfold bind at 1. destruct (page_new _ w) as [[q w2]|]; [|done]. intros [= -> <- ->].
  unfold allocate_large_page. cbn [sh_large_cursor sh_large_pool set_sh_large_pool].
  assert (E : (sh_large_cursor t =? Z.of_nat (length (sh_large_pool t ++ [p]))) = false).
  { apply Z.eqb_neq. rewrite length_app. simpl. lia. }
  rewrite E, Hc, Nat2Z.id, lookup_app_r, Nat.sub_diag by lia. by eexists.
Qed.

End Shadow.

(** ** Concrete instances *)

(** The pool after the directory of one shadow table was allocated. *)
Definition sim_phys : page := Vram (A3_HYPERVISOR_DEVICE_MEM_BASE + 0x10000) 16.
Definition sim_pool : vram_manager_t :=
  VramManager A3_HYPERVISOR_DEVICE_MEM_BASE A3_HYPERVISOR_DEVICE_MEM_SIZE 32
    [Vram A3_HYPERVISOR_DEVICE_MEM_BASE 16].
Definition sim_shadow_world : @world sim_platform :=
  @World sim_platform (SimGpu sim_guest_tables 0 ∅) (set_d_vram sim_pool sim_device) sim_context [].
Definition sim_shadow_table : shadow_page_table := ShadowPageTable 0 0 0 (Some sim_phys) [] [] 0 0.

Lemma sim_pool_inv : vram_inv sim_pool [sim_phys].
Proof.
  constructor.
  - vm_compute; intuition congruence.
  - vm_compute; intuition congruence.
  - repeat constructor; vm_compute; intuition congruence.
  - repeat constructor.
  - intros a. unfold cov, covers, sim_pool, sim_phys; simpl. consts.
    repeat match goal with |- context [?x <=? ?y] => destruct (Z.leb_spec x y)
      | |- context [?x <? ?y] => destruct (Z.ltb_spec x y) end; simpl; lia.
Qed.

Lemma sim_shadow_inv : shadow_inv sim_shadow_table sim_phys [sim_phys].
Proof.
  constructor; simpl; [|by intros p ?%elem_of_nil..|lia|lia].
  split_and!; [done| |done]. by constructor.
Qed.


Lemma shadow_pool_aliases_witness :
  exists p t1 w1 t2, @allocate_large_page sim_platform sim_shadow_table sim_shadow_world = Ok ((p, t1), w1)
    /\ @allocate_large_page sim_platform t1 w1 = Ok ((p, t2), w1).
Proof.
  assert (Hok : is_ok (@allocate_large_page sim_platform sim_shadow_table sim_shadow_world) = true)
    by (vm_compute; reflexivity).
  destruct (@allocate_large_page sim_platform sim_shadow_table sim_shadow_world)
    as [[[p t1] w1]|e] eqn:E; [|discriminate].
  destruct (@shadow_pool_aliases sim_platform sim_shadow_table sim_shadow_world p t1 w1 eq_refl E)
    as [t2 E2].
  exists p, t1, w1, t2. split; [reflexivity|exact E2].
Defined.
