(* ===== verification/Bars.v ===== *)
(** * The BAR managers of the device ([device_bar1.cc], [device_bar3.cc],
      [poll_area.cc])

    BAR1 is a window of channel control areas: every machine owns a slice of it and its
    accesses to its poll area are redirected there. BAR3 is a window of 16MB that the
    machines share in equal arenas: A3 keeps the GPU page table of the whole window, a
    software copy of every machine's own table, and maps the pages of the window into the
    guest's physical memory, except those under a write barrier. *)

From S2P Require Import Prelude Config Vram PageTable Barrier Sched State Device Tables.

Section Bars.
Context `{PF : Platform}.

(** ** BAR1 ([class device_bar1]) *)

(** [refresh]: makes the page the BAR1 channel. *)
Definition bar1_refresh (b : device_bar1) : M world unit :=
  reg_write32 0x1704 (Z.lor 0x80000000 (Z.shiftr (address_ (db1_ramin b)) 12)).

(** [refresh_poll_area] *)
Definition bar1_refresh_poll_area : M world unit :=
  let! t := chipset_type in
  when (bool_decide (t = NVC0)) (mask32 0x2200 1 1 ;;; ret tt) ;;;
  reg_write32 0x2254 (Z.lor 0x10000000 0).

(** The constructor. *)
Definition device_bar1_new : M world device_bar1 :=
  let! ramin := page_new 1 in
  let! directory := page_new 8 in
  let! entry := page_new 1 in
  let! t := chipset_type in
  let b := DeviceBar1 ramin directory entry (if bool_decide (t = NVC0) then 0x1000 else 0x200) in
  page_clear ramin ;;;
  page_clear directory ;;;
  write64 (page_write32 ramin) 0x0200 (address_ directory) ;;;
  page_write32 ramin 0x0208 0xffffffff ;;;
  page_write32 ramin 0x020c 0x000000ff ;;;
  page_write32 directory 0x0 0 ;;;
  page_write32 directory 0x4 (u32 (Z.lor (Z.shiftr (address_ entry) 8) 0x1)) ;;;
  bar1_refresh_poll_area ;;;
  bar1_refresh b ;;;
  ret b.

(** [map]: an entry of the GPU page table of the window. *)
Definition bar1_map (virt : Z) (entry : page_entry) : M world unit :=
  let! b := get_dev_f d_bar1 in
  if negb (virt / kPAGE_DIRECTORY_COVERED_SIZE =? 0) then ret tt
  else
    let index := virt / kSMALL_PAGE_SIZE in
    page_write32 (db1_entry b) (u64 (0x8 * index)) (pe_word0 entry) ;;;
    page_write32 (db1_entry b) (u64 (0x8 * index + 0x4)) (pe_word1 entry).

(** [shadow]: every channel of the machine gets the page its poll area resolves to. *)
Definition bar1_shadow_channel (vcid : Z) : M world unit :=
  let! b := get_dev_f d_bar1 in
  let! c := get_ctx_f id in
  let offset := u64 (vcid * db1_range b + pa_area (c_poll_area c)) in
  let pcid := get_phys_channel_id (c_id c) vcid in
  let virt := u64 (pcid * db1_range b) in
  match st_resolve offset (b1_table (c_bar1_channel c)) with
  | Some r => bar1_map virt r.2
  | None => ret tt
  end.
Definition bar1_shadow : M world unit := for_ (Z.to_nat A3_DOMAIN_CHANNELS) 0 bar1_shadow_channel.

(** [pv_scan]: the same loop. *)
Definition bar1_pv_scan : M world unit := for_ (Z.to_nat A3_DOMAIN_CHANNELS) 0 bar1_shadow_channel.

(** [flush] *)
Definition bar1_flush : M world unit :=
  let! b := get_dev_f d_bar1 in
  let engine := Z.lor 1 4 in
  wait_ne 0x100c80 0x00ff0000 0 ;;;
  reg_write32 0x100cb8 (Z.shiftr (address_ (db1_directory b)) 8) ;;;
  reg_write32 0x100cbc (Z.lor 0x80000000 engine) ;;;
  wait_eq 0x100c80 0x00008000 0x00008000 ;;;
  ret tt.

(** The redirection of [write] and [read]; the device takes a 32-bit offset. *)
Definition bar1_offset (b : device_bar1) (c : context) (cmd : command) : Z :=
  u64 (u64 (offset cmd - pa_area (c_poll_area c)) + db1_range b * c_id c * A3_DOMAIN_CHANNELS).
Definition bar1_write (cmd : command) : M world unit :=
  let! b := get_dev_f d_bar1 in
  let! c := get_ctx_f id in
  device_write 1 (bar1_offset b c cmd) (value cmd) (size cmd).
Definition bar1_read (cmd : command) : M world Z :=
  let! b := get_dev_f d_bar1 in
  let! c := get_ctx_f id in
  device_read 1 (bar1_offset b c cmd) (size cmd).

(** [pv_reflect_entry]: large pages are ignored. *)
Definition bar1_pv_reflect_entry (big : bool) (index host : Z) : M world unit :=
  let! b := get_dev_f d_bar1 in
  let! c := get_ctx_f id in
  if big then ret tt
  else bar1_map (u64 (u32 (c_id c * A3_DOMAIN_CHANNELS + index) * db1_range b)) (pe_of_raw host).

(** ** The poll area ([class poll_area_t]) *)

Definition poll_area_new (t : card) : poll_area_t :=
  PollArea (if bool_decide (t = NVC0) then 0x1000 else 0x200) 0.

Definition poll_area_in_range (c : context) (offset : Z) : bool :=
  let a := c_poll_area c in
  (pa_area a <=? offset) &&
  (offset <? u64 (pa_area a + u32 (pf_channels (c_pfifo c) * pa_per_size a))).

Definition extract_channel_and_offset (c : context) (offset : Z) : Z * Z :=
  let a := c_poll_area c in
  let sub := u64 (offset - pa_area a) in
  (u32 (sub / pa_per_size a), sub mod pa_per_size a).

Definition poll_area_write (cmd : command) : M world unit := bar1_write cmd.
Definition poll_area_read (cmd : command) : M world Z := bar1_read cmd.

(** ** BAR3 ([class device_bar3]) *)

Definition mod_bar3 (f : device_bar3 -> device_bar3) : M world unit :=
  mod_dev (fun d => set_d_bar3 (f (d_bar3 d)) d).

(** [refresh] *)
Definition bar3_refresh (b : device_bar3) : M world unit :=
  reg_write32 0x1714 (Z.lor 0xc0000000 (Z.shiftr (address_ (db3_ramin b)) 12)).

(** The constructor; [base] is the bus address of the BAR. *)
Definition device_bar3_new (base : Z) : M world device_bar3 :=
  let! ramin := page_new 1 in
  let! directory := page_new 8 in
  let! entries := page_new (A3_BAR3_TOTAL_SIZE / 0x1000 / 0x1000 * 8) in
  let b := DeviceBar3 base ramin directory entries (vec_make (A3_BAR3_TOTAL_SIZE / 0x8) 0)
             (vec_make (A3_BAR3_TOTAL_SIZE / kLARGE_PAGE_SIZE) pe_zero)
             (vec_make (A3_BAR3_TOTAL_SIZE / kSMALL_PAGE_SIZE) pe_zero) in
  page_clear ramin ;;;
  page_clear directory ;;;
  page_clear entries ;;;
  write64 (page_write32 ramin) 0x0200 (address_ directory) ;;;
  write64 (page_write32 ramin) 0x0208 (A3_BAR3_TOTAL_SIZE - 1) ;;;
  page_write32 directory 0x0 0 ;;;
  page_write32 directory 0x4 (u32 (Z.lor (Z.shiftr (address_ entries) 8) 0x1)) ;;;
  bar3_refresh b ;;;
  ret b.

Definition xen_call_ (x : xen_call) : M world unit := modify (fun w => set_w_xen (w_xen w ++ [x]) w).

(** [map_xen_page_batch], [unmap_xen_page_batch] and their one-page versions. *)
Definition xen_frames (c : context) (b : device_bar3) (offset : Z) : Z * Z :=
  (Z.shiftr (u64 (c_bar3_address c + offset)) kPAGE_SHIFT,
   Z.shiftr (u64 (db3_address b + c_id c * A3_BAR3_ARENA_SIZE + offset)) kPAGE_SHIFT).
Definition map_xen_page_batch (offset count : Z) : M world unit :=
  let! b := get_dev_f d_bar3 in
  let! c := get_ctx_f id in
  let f := xen_frames c b offset in
  when bar3_remapping (xen_call_ (XenMap (c_domid c) f.1 f.2 count)).
Definition unmap_xen_page_batch (offset count : Z) : M world unit :=
  let! b := get_dev_f d_bar3 in
  let! c := get_ctx_f id in
  let f := xen_frames c b offset in
  when bar3_remapping (xen_call_ (XenUnmap (c_domid c) f.1 f.2 count)).
Definition map_xen_page (offset : Z) : M world unit :=
  let! b := get_dev_f d_bar3 in
  let! c := get_ctx_f id in
  let f := xen_frames c b offset in
  when bar3_remapping (xen_call_ (XenMap (c_domid c) f.1 f.2 1)).
Definition unmap_xen_page (offset : Z) : M world unit :=
  let! b := get_dev_f d_bar3 in
  let! c := get_ctx_f id in
  let f := xen_frames c b offset in
  when bar3_remapping (xen_call_ (XenUnmap (c_domid c) f.1 f.2 1)).

(** [map]: the GPU's entry and the address it leads to. *)
Definition bar3_map (index : Z) (entry : page_entry) : M world unit :=
  let! b := get_dev_f d_bar3 in
  page_write32 (db3_entries b) (u64 (0x8 * index)) (pe_word0 entry) ;;;
  page_write32 (db3_entries b) (u64 (0x8 * index + 0x4)) (pe_word1 entry) ;;;
  let addr := Z.shiftl (pe_address entry) 12 in
  let! v := vwrite (db3_software b) index (if pe_present entry then addr else 0) in
  mod_bar3 (set_db3_software v).

(** [resolve]: [None] is [UINT64_MAX]. *)
Definition bar3_resolve (c : context) (b : device_bar3) (gvaddr : Z) : option (Z * page_entry) :=
  let dir := u32 (gvaddr / kPAGE_DIRECTORY_COVERED_SIZE) in
  if negb (dir =? 0) then None
  else
    let hvaddr := u64 (gvaddr + c_id c * A3_BAR3_ARENA_SIZE) in
    match resolve_in (Some (db3_small b)) kSMALL_PAGE_SIZE hvaddr with
    | Some r => Some r
    | None => resolve_in (Some (db3_large b)) kLARGE_PAGE_SIZE hvaddr
    end.

(** [shadow] *)
Definition bar3_shadow_page (k : Z) : M world unit :=
  let address := k * kPAGE_SIZE in
  let! b := get_dev_f d_bar3 in
  let! c := get_ctx_f id in
  let virt := c_id c * A3_BAR3_ARENA_SIZE + address in
  let index := virt / kPAGE_SIZE in
  match bar3_resolve c b address with
  | Some r =>
      bar3_map index r.2 ;;;
      let! l := on_barrier (barrier_lookup r.1 false) in
      if l.1 then ret tt else map_xen_page address
  | None => bar3_map index pe_zero
  end.
Definition bar3_shadow (phys : Z) : M world unit :=
  unmap_xen_page_batch 0 (A3_BAR3_ARENA_SIZE / 0x1000) ;;;
  for_ (Z.to_nat (A3_BAR3_ARENA_SIZE / kPAGE_SIZE)) 0 bar3_shadow_page.

(** [reset_barrier] *)
Definition reset_barrier_page (old addr : Z) (old_remap : bool) (index : Z) : M world unit :=
  let! b := get_dev_f d_bar3 in
  let! c := get_ctx_f id in
  let shift := c_id c * A3_BAR3_ARENA_SIZE / kPAGE_SIZE in
  let! target := vread (db3_software b) (shift + index) in
  if (target =? old) && old_remap then map_xen_page (index * kPAGE_SIZE)
  else if target =? addr then unmap_xen_page (index * kPAGE_SIZE)
  else ret tt.
Definition bar3_reset_barrier (old addr : Z) (old_remap : bool) : M world unit :=
  for_ (Z.to_nat (A3_BAR3_ARENA_SIZE / kPAGE_SIZE)) 0 (reset_barrier_page old addr old_remap).

(** [flush] *)
Definition bar3_flush : M world unit :=
  let! b := get_dev_f d_bar3 in
  let engine := Z.lor 1 4 in
  reg_write32 0x100cb8 (Z.shiftr (address_ (db3_directory b)) 8) ;;;
  reg_write32 0x100cbc (Z.lor 0x80000000 engine).

(** [small_[hindex].refresh(ctx, entry)] *)
Definition bar3_refresh_small (hindex : Z) (entry : page_entry) : M world unit :=
  let! b := get_dev_f d_bar3 in
  let! h := ctx_guest_to_host entry in
  let! v := vwrite (db3_small b) hindex h in
  mod_bar3 (set_db3_small v).

(** [pv_reflect]; the index comes from the guest and is not checked. *)
Definition bar3_pv_reflect (index guest host : Z) : M world unit :=
  let! id := get_ctx_f c_id in
  let hindex := index + (id * A3_BAR3_ARENA_SIZE) / kPAGE_SIZE in
  let goffset := u32 (index * kPAGE_SIZE) in
  bar3_refresh_small hindex (pe_of_raw guest) ;;;
  let entry := pe_of_raw host in
  if negb (host =? 0) then
    let gphys := Z.shiftl (pe_address entry) 12 in
    bar3_map hindex entry ;;;
    let! l := on_barrier (barrier_lookup gphys false) in
    if negb l.1 then map_xen_page goffset else unmap_xen_page goffset
  else
    bar3_map hindex entry ;;;
    unmap_xen_page goffset.

(** The locals of [pv_reflect_batch]: [mode] is a [tribool], [None] while indeterminate. *)
Record batch : Type := Batch {
  ba_mode : option bool;
  ba_range : Z;
  ba_init_page : Z;
  ba_guest : Z
}.

(** The end of a round of [pv_reflect_batch]: the page joins the current run, or the
    run is flushed and the page starts the next one. *)
Definition batch_page (map : bool) (goffset guest : Z) (s : batch) : M world batch :=
  if bool_decide (ba_mode s = Some map) then
    ret (Batch (ba_mode s) (ba_range s + 1) (ba_init_page s) guest)
  else
    match ba_mode s with
    | Some true => map_xen_page_batch (ba_init_page s) (u32 (ba_range s))
    | Some false => unmap_xen_page_batch (ba_init_page s) (u32 (ba_range s))
    | None => ret tt
    end ;;;
    ret (Batch (Some map) 1 goffset guest).

Definition bar3_batch_round (index next i : Z) (s : batch) : M world batch :=
  let! id := get_ctx_f c_id in
  let hindex := u32 (index + i) + (id * A3_BAR3_ARENA_SIZE) / kPAGE_SIZE in
  let goffset := u32 (u32 (index + i) * kPAGE_SIZE) in
  let guest := u64 (ba_guest s + next) in
  let gentry := pe_of_raw (ba_guest s) in
  bar3_refresh_small hindex gentry ;;;
  let! entry := ctx_guest_to_host gentry in
  bar3_map hindex entry ;;;
  if negb (pe_raw entry =? 0) then
    let gphys := Z.shiftl (pe_address entry) 12 in
    let! l := on_barrier (barrier_lookup gphys false) in
    if negb l.1 then batch_page true goffset guest s else batch_page false goffset guest s
  else batch_page false goffset guest s.

Definition bar3_pv_reflect_batch (index guest next count : Z) : M world unit :=
  let! s := for_acc (Z.to_nat count) 0 (bar3_batch_round index next)
              (Batch None (-1) UINT64_MAX guest) in
  match ba_mode s with
  | Some true => map_xen_page_batch (ba_init_page s) (u32 (ba_range s))
  | Some false => unmap_xen_page_batch (ba_init_page s) (u32 (ba_range s))
  | None => ret tt
  end.

(** [refresh_table]: the machine's part of [large_] and [small_] is read again from the
    guest's directory. *)
Definition refresh_table_array (present : bool) (field count base stop : Z) (v : vec page_entry)
  : M world (vec page_entry) :=
  let! id := get_ctx_f c_id in
  if present then
    let address := get_phys_address id (Z.shiftl field 12) in
    for_acc (Z.to_nat count) 0 (fun i v =>
      let! e := page_entry_create pmem_read32 (u64 (address + 0x8 * i)) in
      let! h := match e with Some e => ctx_guest_to_host e | None => ret pe_zero end in
      vwrite v (i + base) h) v
  else of_option OutOfBounds (vec_fill v base (Z.to_nat (stop - base)) pe_zero).

Definition bar3_refresh_table (phys : Z) : M world unit :=
  if phys =? 0 then ret tt
  else
    let! dir := page_directory_create phys in
    let! id := get_ctx_f c_id in
    let! b := get_dev_f d_bar3 in
    let count := Z.min (A3_BAR3_ARENA_SIZE / kLARGE_PAGE_SIZE) (large_size_count dir) in
    when (large_page_table_present dir) (assert_ (count <=? kLARGE_PAGE_COUNT)) ;;;
    let! large := refresh_table_array (large_page_table_present dir) (large_page_table_address dir)
                    count (id * A3_BAR3_ARENA_SIZE / kLARGE_PAGE_SIZE)
                    ((id + 1) * A3_BAR3_ARENA_SIZE / kLARGE_PAGE_SIZE) (db3_large b) in
    mod_bar3 (set_db3_large large) ;;;
    let count := A3_BAR3_ARENA_SIZE / kSMALL_PAGE_SIZE in
    when (small_page_table_present dir) (assert_ (count <=? kSMALL_PAGE_COUNT)) ;;;
    let! small := refresh_table_array (small_page_table_present dir) (small_page_table_address dir)
                    count (id * A3_BAR3_ARENA_SIZE / kSMALL_PAGE_SIZE)
                    ((id + 1) * A3_BAR3_ARENA_SIZE / kSMALL_PAGE_SIZE) (db3_small b) in
    mod_bar3 (set_db3_small small).
End Bars.

(** ** The slices of BAR1 *)

(** What the constructors establish and no operation changes: the poll area of the
    context and the window of the device use the same stride. *)
Record poll_wf (b : device_bar1) (c : context) : Prop := PollWf {
  pw_id : valid_id (c_id c);
  pw_range : db1_range b = 0x1000 \/ db1_range b = 0x200;
  pw_stride : pa_per_size (c_poll_area c) = db1_range b;
  pw_channels : pf_channels (c_pfifo c) = A3_DOMAIN_CHANNELS;
  pw_area : 0 <= pa_area (c_poll_area c) < 2 ^ 40
}.

(** The part of the window that belongs to a machine. *)
Definition bar1_slice (b : device_bar1) (id o : Z) : Prop :=
  id * A3_DOMAIN_CHANNELS * db1_range b <= o < (id + 1) * A3_DOMAIN_CHANNELS * db1_range b.

Lemma bar1_slice_disjoint b id id' o :
  0 < db1_range b -> bar1_slice b id o -> bar1_slice b id' o -> id = id'.
Proof. unfold bar1_slice. consts. nia. Qed.

Lemma bar1_offset_spec b c cmd :
  poll_wf b c -> poll_area_in_range c (offset cmd) = true ->
  let r := extract_channel_and_offset c (offset cmd) in
  bar1_offset b c cmd = get_phys_channel_id (c_id c) r.1 * db1_range b + r.2
  /\ 0 <= r.1 < A3_DOMAIN_CHANNELS /\ 0 <= r.2 < db1_range b
  /\ bar1_slice b (c_id c) (bar1_offset b c cmd)
  /\ 0 <= bar1_offset b c cmd < 2 ^ 32.
Proof.
  intros [Hid Hr Hst Hch Ha]. unfold poll_area_in_range, extract_channel_and_offset, bar1_offset,
    get_phys_channel_id, bar1_slice, valid_id in *. rewrite Hst, Hch in *. consts. simpl fst. simpl snd.
  rewrite andb_true_iff, Z.leb_le, Z.ltb_lt. intros [H1 H2].
  assert (H3 : u64 (pa_area (c_poll_area c) + u32 (64 * db1_range b))
               = pa_area (c_poll_area c) + 64 * db1_range b) by (destruct Hr as [-> | ->]; zlia).
  rewrite H3 in H2. set (sub := offset cmd - pa_area (c_poll_area c)) in *.
  assert (0 <= sub < 64 * db1_range b) by lia.
  rewrite (u64_small sub) by (destruct Hr as [Hr | Hr]; lia).
  assert (c_id c = 0 \/ c_id c = 1) as [E | E] by lia; rewrite E in *;
    destruct Hr as [Hr | Hr]; rewrite Hr in *; split_and!; zlia.
Qed.

Section Slices.
Context `{PF : Platform}.

(** Isolation of the poll area. An access of a machine to its poll area makes one
    access of the device, in BAR1, at the same place of the control area of the physical
    channel that belongs to the machine's virtual channel; this lies in the machine's
    slice of the window, an aligned access lies in it with all its bytes, and the slices
    of different machines are disjoint. *)
Theorem poll_area_isolation (cmd : command) (w : world) :
  let b := d_bar1 (w_dev w) in
  let c := w_ctx w in
  let o := bar1_offset b c cmd in
  let r := extract_channel_and_offset c (offset cmd) in
  poll_wf b c -> valid_size (size cmd) = true -> poll_area_in_range c (offset cmd) = true ->
  poll_area_write cmd w
    = Ok (tt, set_w_gpu (mmio_write 1 o (u32 (value cmd) mod 2 ^ (8 * size cmd)) (size cmd) (w_gpu w)) w)
  /\ poll_area_read cmd w
     = (let g := mmio_read 1 o (size cmd) (w_gpu w) in
        Ok (g.1 mod 2 ^ (8 * size cmd), set_w_gpu g.2 w))
  /\ o = get_phys_channel_id (c_id c) r.1 * db1_range b + r.2
  /\ bar1_slice b (c_id c) o
  /\ (o mod size cmd = 0 -> bar1_slice b (c_id c) (o + size cmd - 1))
  /\ forall id, id <> c_id c -> ~ bar1_slice b id o.
Proof.
  intros b c o r Hwf Hv Hin.
  destruct (bar1_offset_spec b c cmd Hwf Hin) as (E & _ & _ & Hs & H32).
  split_and!; [| |done|done| |].
  - unfold poll_area_write, bar1_write, device_write, bar_addr. simpl. unfold bind, get_dev_f, get_ctx_f, gets.
    rewrite Hv. unfold assert_, ret, modify. simpl. fold b c. by rewrite (u32_small (bar1_offset b c cmd)) by lia.
  - unfold poll_area_read, bar1_read, device_read, bar_addr. simpl. unfold bind, get_dev_f, get_ctx_f, gets.
    rewrite Hv. unfold assert_, ret, modify. simpl. fold b c. by rewrite (u32_small (bar1_offset b c cmd)) by lia.
  - intros Ha. fold o in Hs. revert Hs. unfold bar1_slice. consts. destruct Hwf as [_ Hr _ _ _].
    assert (Hd : exists k, db1_range b = size cmd * k).
    { assert (size cmd = 1 \/ size cmd = 2 \/ size cmd = 4) as Hz
        by (revert Hv; unfold valid_size; lia).
      exists (db1_range b / size cmd). destruct Hr as [-> | ->], Hz as [->|[->| ->]]; done. }
    destruct Hd as [k Hk]. rewrite Hk. apply Z.mod_divide in Ha as [j ->]; [|by intros E0; rewrite E0 in Hv].
    pose proof (valid_size_range _ Hv). intros [Hlo Hhi].
    assert (j < (c_id c + 1) * 64 * k) by nia. split; [lia|].
    assert ((j + 1) * size cmd <= (c_id c + 1) * 64 * k * size cmd)
      by (apply Z.mul_le_mono_nonneg_r; lia). lia.
  - intros id Hne Hs'. apply Hne. eapply bar1_slice_disjoint; [|exact Hs'|exact Hs].
    destruct (pw_range _ _ Hwf) as [-> | ->]; lia.
Qed.
End Slices.

Lemma poll_area_isolation_witness :
  let cmd := Command TYPE_WRITE 7 0x508c 1 4 in
  @poll_area_write sim_platform cmd sim_world
  = Ok (tt, @set_w_gpu sim_platform (sim_write 1 0x508c 7 4 (w_gpu sim_world)) sim_world).
Proof.
  intros cmd.
  destruct (@poll_area_isolation sim_platform cmd sim_world) as (E & _).
  - constructor; vm_compute; intuition congruence.
  - reflexivity.
  - reflexivity.
  - exact E.
Defined.
