(* ===== verification/Arena.v ===== *)
(** * The arenas of BAR3

    Every machine owns one arena of the BAR3 window: its part of the window's GPU page
    table, of the software copy of its own table, and of the guest frames that Xen maps
    to the window. The operations of [device_bar3.cc] stay in the arena of the machine
    they run for, the batched reflection of page table updates does what the updates one
    by one would do, and pages under a write barrier are not mapped. *)

From S2P Require Import Prelude Config Vram PageTable Barrier Sched State Device Tables Bars.

(** ** What an operation does not touch *)

Create HintDb oblivious discriminated.

Section Frames.
Context `{PF : Platform}.

(** [m] neither reads nor writes the log of memory-map calls. *)
Definition oblivious {A} (m : M world A) : Prop :=
  forall l w, m (set_w_xen l w) =
    match m w with Ok (a, w') => Ok (a, set_w_xen l w') | Err e => Err e end.

Lemma oblivious_ret {A} (a : A) : oblivious (ret a).
Proof. done. Qed.
Lemma oblivious_fail {A} e : oblivious (@fail world A e).
Proof. done. Qed.
Lemma oblivious_dev {A} (f : device_t -> A) : oblivious (get_dev_f f).
Proof. done. Qed.
Lemma oblivious_ctx {A} (f : context -> A) : oblivious (get_ctx_f f).
Proof. done. Qed.
Lemma oblivious_mod_dev f : oblivious (mod_dev f).
Proof. done. Qed.
Lemma oblivious_mod_ctx f : oblivious (mod_ctx f).
Proof. done. Qed.

Lemma oblivious_bind {A B} (m : M world A) (k : A -> M world B) :
  oblivious m -> (forall a, oblivious (k a)) -> oblivious (bind m k).
Proof.
  intros Hm Hk l w. unfold bind. rewrite Hm. destruct (m w) as [[a w']|]; [apply Hk|done].
Qed.

Lemma oblivious_assert b : oblivious (assert_ b).
Proof. by destruct b. Qed.
Lemma oblivious_of_option {A} e (o : option A) : oblivious (of_option e o).
Proof. by destruct o. Qed.
Lemma oblivious_when b m : oblivious m -> oblivious (when b m).
Proof. by destruct b. Qed.
Lemma oblivious_barrier {A} (m : M barrier_table A) : oblivious (on_barrier m).
Proof. intros l w. unfold on_barrier, zoom. simpl. by destruct (m _) as [[]|]. Qed.

Lemma oblivious_device_write bar o v s : oblivious (device_write bar o v s).
Proof.
  intros l w. unfold device_write, bar_addr, bind, assert_, modify.
  destruct (valid_size s); [|done].
  destruct (_ || _ || _); [done|]. by destruct (_ && _).
Qed.

Lemma oblivious_xen {A} (m : M world A) w a w' : oblivious m -> m w = Ok (a, w') -> w_xen w' = w_xen w.
Proof.
  intros Ho E. assert (Hw : w = set_w_xen (w_xen w) w) by by destruct w.
  pose proof (Ho (w_xen w) w) as H. rewrite <- Hw, E in H. injection H as H. by rewrite H.
Qed.

Hint Resolve oblivious_ret oblivious_fail oblivious_dev oblivious_ctx oblivious_mod_dev
  oblivious_mod_ctx oblivious_assert oblivious_of_option oblivious_barrier oblivious_device_write : oblivious.
Ltac oblivious_solve :=
  repeat first [solve [auto with oblivious]
    | lazymatch goal with
      | |- oblivious (bind _ _) => apply oblivious_bind; [|intros ?]
      | |- oblivious (when _ _) => apply oblivious_when
      | |- oblivious (match ?x with _ => _ end) => destruct x
      end].

Lemma oblivious_page_write32 p o v : oblivious (page_write32 p o v).
Proof. unfold page_write32, pmem_write32, write_pmem, pmem_select. oblivious_solve. Qed.
Hint Resolve oblivious_page_write32 : oblivious.

Lemma oblivious_bar3_map i e : oblivious (bar3_map i e).
Proof. unfold bar3_map, mod_bar3, vwrite. oblivious_solve. Qed.
Lemma oblivious_refresh_small i e : oblivious (bar3_refresh_small i e).
Proof. unfold bar3_refresh_small, ctx_guest_to_host, mod_bar3, vwrite. oblivious_solve. Qed.
Hint Resolve oblivious_bar3_map oblivious_refresh_small : oblivious.

(** The parts of the state that decide where a page of the window goes. *)
Definition placement (w : world) : context * Z := (w_ctx w, db3_address (d_bar3 (w_dev w))).

Lemma keeps_device_write bar o v s : keeps placement (device_write bar o v s).
Proof. unfold device_write, bar_addr. keeps_solve. Qed.
Lemma keeps_page_write32 p o v : keeps placement (page_write32 p o v).
Proof.
  unfold page_write32, pmem_write32, write_pmem, pmem_select, get_dev_f, mod_dev.
  keeps_solve; apply keeps_device_write.
Qed.
Hint Resolve keeps_page_write32 : keeps.

Lemma keeps_bar3_map i e : keeps placement (bar3_map i e).
Proof. unfold bar3_map, mod_bar3, mod_dev, vwrite, get_dev_f. keeps_solve. Qed.
Lemma keeps_refresh_small i e : keeps placement (bar3_refresh_small i e).
Proof.
  unfold bar3_refresh_small, mod_bar3, mod_dev, vwrite, get_dev_f, ctx_guest_to_host, get_ctx_f.
  keeps_solve.
Qed.

Lemma keeps_lookup a : keeps id (barrier_lookup a false).
Proof. unfold barrier_lookup. change (negb false) with true. cbn iota. keeps_solve. Qed.
Lemma keeps_on_lookup {B} (f : world -> B) a : keeps f (on_barrier (barrier_lookup a false)).
Proof. apply keeps_zoom_same; [by intros [? ? [] ?]|apply keeps_lookup]. Qed.
Hint Resolve keeps_bar3_map keeps_refresh_small keeps_on_lookup : keeps.

(** ** The batched reflection *)

(** The common part of a reflected update: the tables, and whether Xen is to map the page. *)
Definition reflect_page (hindex : Z) (g : page_entry) : M world bool :=
  bar3_refresh_small hindex g ;;;
  let! h := ctx_guest_to_host g in
  bar3_map hindex h ;;;
  if negb (pe_raw h =? 0) then
    let! l := on_barrier (barrier_lookup (Z.shiftl (pe_address h) 12) false) in ret (negb l.1)
  else ret false.

Lemma oblivious_reflect_page i g : oblivious (reflect_page i g).
Proof. unfold reflect_page, ctx_guest_to_host. oblivious_solve. Qed.
Lemma keeps_reflect_page i g : keeps placement (reflect_page i g).
Proof. unfold reflect_page, ctx_guest_to_host, get_ctx_f. keeps_solve. Qed.

Lemma batch_round_eq index next i s w :
  bar3_batch_round index next i s w =
  (let! m := reflect_page (u32 (index + i) + (c_id (w_ctx w) * A3_BAR3_ARENA_SIZE) / kPAGE_SIZE)
               (pe_of_raw (ba_guest s)) in
   batch_page m (u32 (u32 (index + i) * kPAGE_SIZE)) (u64 (ba_guest s + next)) s) w.
Proof.
  unfold bar3_batch_round, reflect_page. unfold bind at 1. cbn [get_ctx_f gets].
  unfold bind, get_ctx_f, gets. destruct (bar3_refresh_small _ _ w) as [[[] w1]|]; [|done].
  destruct (ctx_guest_to_host _ w1) as [[h w2]|]; [|done].
  destruct (bar3_map _ h w2) as [[[] w3]|]; [|done].
  destruct (negb (pe_raw h =? 0)); [|done].
  destruct (on_barrier _ w3) as [[l w4]|]; [|done]. simpl. by destruct (negb l.1).
Qed.

(** The host entry of a guest's raw entry, for the machine of the world. *)
Definition host_raw (w : world) (guest : Z) : Z :=
  pe_raw (guest_to_host (c_id (w_ctx w)) (xen_gfn_to_mfn (c_domid (w_ctx w))) (pe_of_raw guest)).

Lemma pv_reflect_eq index guest w :
  bar3_pv_reflect index guest (host_raw w guest) w =
  (let! m := reflect_page (index + (c_id (w_ctx w) * A3_BAR3_ARENA_SIZE) / kPAGE_SIZE) (pe_of_raw guest) in
   if (m : bool) then map_xen_page (u32 (index * kPAGE_SIZE)) else unmap_xen_page (u32 (index * kPAGE_SIZE))) w.
Proof.
  unfold bar3_pv_reflect, reflect_page, host_raw.
  rewrite pe_raw_roundtrip by (apply guest_to_host_wf, pe_of_raw_wf).
  set (h := guest_to_host _ _ _). unfold bind at 1. cbn [get_ctx_f gets]. unfold bind, get_ctx_f, gets.
  destruct (bar3_refresh_small _ _ w) as [[[] w1]|] eqn:E; [|done].
  assert (Hc : w_ctx w1 = w_ctx w)
    by (apply keeps_refresh_small in E; unfold placement in E; congruence).
  unfold ctx_guest_to_host, bind, get_ctx_f, gets, ret, id. rewrite Hc. fold h.
  destruct (negb (pe_raw h =? 0)); destruct (bar3_map _ h w1) as [[[] w3]|]; try done.
  destruct (on_barrier _ w3) as [[l w4]|]; [|done]. by destruct (negb l.1).
Qed.
End Frames.

(** A call on a range of frames as calls on single frames. *)
Definition xen_of (map : bool) : Z -> Z -> Z -> Z -> xen_call := if map then XenMap else XenUnmap.
Definition page_calls (x : xen_call) : list xen_call :=
  match x with
  | XenMap d g h n => (fun k => XenMap d (g + k) (h + k) 1) <$> seqZ 0 n
  | XenUnmap d g h n => (fun k => XenUnmap d (g + k) (h + k) 1) <$> seqZ 0 n
  end.
Definition expand (l : list xen_call) : list xen_call := l ≫= page_calls.

Lemma expand_app l l' : expand (l ++ l') = expand l ++ expand l'.
Proof. apply bind_app. Qed.

Lemma page_calls_of m d g h n :
  page_calls (xen_of m d g h n) = (fun k => xen_of m d (g + k) (h + k) 1) <$> seqZ 0 n.
Proof. by destruct m. Qed.

Lemma page_calls_grow m d g h n :
  0 <= n ->
  page_calls (xen_of m d g h n) ++ page_calls (xen_of m d (g + n) (h + n) 1)
  = page_calls (xen_of m d g h (n + 1)).
Proof.
  intros Hn. rewrite !page_calls_of, seqZ_app, fmap_app by lia. f_equal. simpl.
  by rewrite !Z.add_0_r.
Qed.

Section Batch.
Context `{PF : Platform}.

(** The window and the guest's BAR lie in the 64-bit address space. *)
Record placement_ok (p : context * Z) : Prop := PlacementOk {
  pl_id : valid_id (c_id p.1);
  pl_guest : 0 <= c_bar3_address p.1 /\ c_bar3_address p.1 + A3_BAR3_ARENA_SIZE <= 2 ^ 64;
  pl_host : 0 <= p.2 /\ p.2 + A3_BAR3_TOTAL_SIZE <= 2 ^ 64
}.

(** The call that maps or unmaps [n] pages at [offset], when remapping is on. *)
Definition emit (p : context * Z) (m : bool) (offset n : Z) : list xen_call :=
  if bar3_remapping then
    [xen_of m (c_domid p.1) (Z.shiftr (u64 (c_bar3_address p.1 + offset)) kPAGE_SHIFT)
       (Z.shiftr (u64 (p.2 + c_id p.1 * A3_BAR3_ARENA_SIZE + offset)) kPAGE_SHIFT) n]
  else [].

Lemma emit_grow p m o n :
  placement_ok p -> 0 <= n -> 0 <= o -> o + n * kPAGE_SIZE < A3_BAR3_ARENA_SIZE ->
  expand (emit p m o n) ++ expand (emit p m (o + n * kPAGE_SIZE) 1) = expand (emit p m o (n + 1)).
Proof.
  intros [Hid Hg Hh] Hn Ho Hb. unfold emit. destruct bar3_remapping; [|done].
  unfold expand. simpl. rewrite !app_nil_r, <- page_calls_grow by done. do 2 f_equal.
  unfold xen_of, valid_id in *. consts.
  rewrite !Z.shiftr_div_pow2 by lia. rewrite !u64_small by lia.
  f_equal; [|f_equal]; zlia.
Qed.

Lemma xen_page_batch_eq m o n w :
  (if m : bool then map_xen_page_batch o n else unmap_xen_page_batch o n) w
  = Ok (tt, set_w_xen (w_xen w ++ emit (placement w) m o n) w).
Proof.
  unfold map_xen_page_batch, unmap_xen_page_batch, emit, xen_frames, placement, bind, get_dev_f, get_ctx_f,
    gets, when, xen_call_, modify. simpl.
  destruct m, bar3_remapping; simpl; try done; rewrite app_nil_r; by destruct w.
Qed.

Lemma xen_page_eq m o w :
  (if m : bool then map_xen_page o else unmap_xen_page o) w
  = Ok (tt, set_w_xen (w_xen w ++ emit (placement w) m o 1) w).
Proof. rewrite <- xen_page_batch_eq. by destruct m. Qed.

(** What the current run of a batch still owes. *)
Definition pending (p : context * Z) (s : batch) : list xen_call :=
  match ba_mode s with Some m => emit p m (ba_init_page s) (u32 (ba_range s)) | None => [] end.

Lemma batch_page_eq m o g s w :
  batch_page m o g s w =
  if bool_decide (ba_mode s = Some m)
  then Ok (Batch (ba_mode s) (ba_range s + 1) (ba_init_page s) g, w)
  else Ok (Batch (Some m) 1 o g, set_w_xen (w_xen w ++ pending (placement w) s) w).
Proof.
  unfold batch_page, pending. destruct (bool_decide (ba_mode s = Some m)); [done|].
  destruct (ba_mode s) as [m'|].
  - pose proof (xen_page_batch_eq m' (ba_init_page s) (u32 (ba_range s)) w) as E.
    unfold bind. by destruct m'; rewrite E.
  - unfold bind, ret. rewrite app_nil_r. by destruct w.
Qed.

(** ** One page of each *)

Context (index guest next count : Z).

(** The reference: the updates one by one. *)
Definition reflect_one (i : Z) : M world unit :=
  fun w => let g := u64 (guest + i * next) in bar3_pv_reflect (u32 (index + i)) g (host_raw w g) w.

Hypothesis Hindex : 0 <= index.
Hypothesis Hcount : index + count <= A3_BAR3_ARENA_SIZE / kPAGE_SIZE.

(** Before round [i]: the batch has made the calls of the updates so far, except those of
    its current run. *)
Record batch_sim (i : Z) (s : batch) (w1 w2 : world) : Prop := BatchSim {
  bs_place : placement_ok (placement w2);
  bs_guest : ba_guest s = u64 (guest + i * next);
  bs_run : is_Some (ba_mode s) -> 1 <= ba_range s <= i
             /\ ba_init_page s = (index + i - ba_range s) * kPAGE_SIZE;
  bs_world : exists l, w1 = set_w_xen l w2
    /\ expand l ++ expand (pending (placement w2) s) = expand (w_xen w2)
}.

Lemma batch_step_sim i s m l w :
  0 <= i < count -> batch_sim i s (set_w_xen l w) w ->
  expand l ++ expand (pending (placement w) s) = expand (w_xen w) ->
  let o := (index + i) * kPAGE_SIZE in
  exists s' w1 w2, batch_page m o (u64 (ba_guest s + next)) s (set_w_xen l w) = Ok (s', w1)
    /\ (if m : bool then map_xen_page o else unmap_xen_page o) w = Ok (tt, w2)
    /\ batch_sim (i + 1) s' w1 w2.
Proof.
  intros Hi [Hp Hg Hr _] Hl o. rewrite batch_page_eq, xen_page_eq.
  assert (Hg' : u64 (ba_guest s + next) = u64 (guest + (i + 1) * next)).
  { rewrite Hg. unfold u64. rewrite Zplus_mod_idemp_l. f_equal. lia. }
  pose proof Hcount. consts. change (8388608 / 4096) with 2048 in *.
  case_bool_decide as Hm.
  - destruct Hr as [Hrng Hini]; [by rewrite Hm|].
    eexists _, _, _. split_and!; [done|done|]. constructor; cbn [ba_mode ba_range ba_init_page ba_guest]; [done|done| |].
    + intros _. split; [lia|]. rewrite Hini. consts. lia.
    + exists l. split; [by destruct w|]. unfold pending in *. rewrite Hm in *. cbn [ba_mode ba_range ba_init_page] in *.
      change (placement (set_w_xen _ w)) with (placement w). change (w_xen (set_w_xen ?x w)) with x.
      rewrite expand_app, <- Hl, <- app_assoc. f_equal. rewrite !u32_small by lia.
      replace o with (ba_init_page s + ba_range s * kPAGE_SIZE) by (unfold o; rewrite Hini; consts; lia).
      symmetry. apply emit_grow; [done|lia|rewrite Hini; consts; lia|]. rewrite Hini. consts. lia.
  - eexists _, _, _. split_and!; [done|done|]. constructor; cbn [ba_mode ba_range ba_init_page ba_guest]; [done|done| |].
    + intros _. split; [lia|]. unfold o. consts. lia.
    + exists (l ++ pending (placement w) s). split; [by destruct w|].
      change (placement (set_w_xen _ w)) with (placement w). change (w_xen (set_w_xen ?x w)) with x.
      unfold pending at 2. cbn [ba_mode ba_range ba_init_page]. change (u32 1) with 1.
      by rewrite !expand_app, Hl.
Qed.

Lemma batch_round_sim i s w1 w2 :
  0 <= i < count -> batch_sim i s w1 w2 ->
  match bar3_batch_round index next i s w1, reflect_one i w2 with
  | Ok (s', w1'), Ok (_, w2') => batch_sim (i + 1) s' w1' w2'
  | Err e1, Err e2 => e1 = e2
  | _, _ => False
  end.
Proof.
  intros Hi Hsim. pose proof Hsim as [Hp Hg Hr (l & -> & Hl)]. unfold reflect_one.
  rewrite batch_round_eq, pv_reflect_eq, Hg. change (c_id (w_ctx (set_w_xen l w2))) with (c_id (w_ctx w2)).
  pose proof Hcount. consts. change (8388608 / 4096) with 2048 in *. rewrite !u32_small by lia.
  unfold bind.
  rewrite (oblivious_reflect_page _ _ l w2). destruct (reflect_page _ _ w2) as [[m w]|e] eqn:E; [|done].
  assert (Hpl : placement w = placement w2) by (by apply keeps_reflect_page in E).
  assert (Hx : w_xen w = w_xen w2) by (eapply oblivious_xen; [apply oblivious_reflect_page|done]).
  assert (Hsim' : batch_sim i s (set_w_xen l w) w).
  { constructor; rewrite ?Hpl; [done|done|done|]. exists l. by rewrite Hx. }
  destruct (batch_step_sim i s m l w Hi Hsim') as (s' & w1' & w2' & E1 & E2 & H').
  { by rewrite Hpl, Hx. }
  change kPAGE_SIZE with 4096 in *. rewrite Hg in E1. by rewrite E1, E2.
Qed.

Lemma batch_loop_sim n i s w1 w2 :
  0 <= i -> i + Z.of_nat n <= count -> batch_sim i s w1 w2 ->
  match for_acc n i (bar3_batch_round index next) s w1, for_ n i reflect_one w2 with
  | Ok (s', w1'), Ok (_, w2') => batch_sim (i + Z.of_nat n) s' w1' w2'
  | Err e1, Err e2 => e1 = e2
  | _, _ => False
  end.
Proof.
  revert i s w1 w2. induction n as [|n IH]; intros i s w1 w2 Hi Hn Hsim.
  - cbn [for_acc for_ ret]. by rewrite Z.add_0_r.
  - cbn [for_acc for_]. unfold bind.
    pose proof (batch_round_sim i s w1 w2 ltac:(lia) Hsim) as H.
    destruct (bar3_batch_round _ _ _ _ _) as [[s1 w1']|e1], (reflect_one i w2) as [[[] w2']|e2]; try done.
    replace (i + Z.of_nat (S n)) with (i + 1 + Z.of_nat n) by lia. apply IH; [lia|lia|done].
Qed.

(** C35: the batched reflection of page table updates is the reflection of the updates one by
    one. For a batch of [count] entries inside the arena, with guest entries [guest],
    [guest + next], ..., it fails exactly when the single updates fail and with the same
    error, and otherwise leaves the same GPU state, device and context; its calls to Xen,
    which group runs of pages, map and unmap the same frames in the same order. *)
Theorem pv_reflect_batch_equiv w :
  0 <= count -> placement_ok (placement w) ->
  match bar3_pv_reflect_batch index (u64 guest) next count w, for_ (Z.to_nat count) 0 reflect_one w with
  | Ok (_, w1), Ok (_, w2) =>
      w_gpu w1 = w_gpu w2 /\ w_dev w1 = w_dev w2 /\ w_ctx w1 = w_ctx w2
      /\ expand (w_xen w1) = expand (w_xen w2)
  | Err e1, Err e2 => e1 = e2
  | _, _ => False
  end.
Proof.
  intros Hc Hp. unfold bar3_pv_reflect_batch. unfold bind.
  assert (Hsim : batch_sim 0 (Batch None (-1) UINT64_MAX (u64 guest)) w w).
  { constructor; cbn [ba_mode ba_guest];
      [done|f_equal; lia|by intros []|exists (w_xen w); split; [by destruct w|apply app_nil_r]]. }
  pose proof (batch_loop_sim (Z.to_nat count) 0 _ w w (Z.le_refl 0) ltac:(lia) Hsim) as H.
  destruct (for_acc _ _ _ _ _) as [[s w1]|e1], (for_ _ _ _ _) as [[[] w2]|e2]; try done.
  destruct H as [_ _ _ (l & -> & Hl)].
  unfold pending in Hl. destruct (ba_mode s) as [m|].
  - pose proof (xen_page_batch_eq m (ba_init_page s) (u32 (ba_range s)) (set_w_xen l w2)) as E.
    change (placement (set_w_xen l w2)) with (placement w2) in E.
    change (w_xen (set_w_xen l w2)) with l in E.
    destruct m; rewrite E; cbn [w_gpu w_dev w_ctx w_xen set_w_xen]; by rewrite expand_app, Hl.
  - cbn [ret w_gpu w_dev w_ctx w_xen set_w_xen]. by rewrite <- Hl, app_nil_r.
Qed.
End Batch.

(** A batch of three pages, all of them mapped. *)
Lemma pv_reflect_batch_equiv_witness :
  match @bar3_pv_reflect_batch sim_platform 4 (u64 0x11) 0x10 3 sim_world,
        for_ (Z.to_nat 3) 0 (@reflect_one sim_platform 4 0x11 0x10) sim_world with
  | Ok (_, w1), Ok (_, w2) => expand (w_xen w1) = expand (w_xen w2)
  | _, _ => False
  end.
Proof.
  unshelve epose proof (@pv_reflect_batch_equiv sim_platform 4 0x11 0x10 3 _ _ sim_world _ _) as H;
    [vm_compute; congruence|vm_compute; congruence|vm_compute; congruence
    |constructor; vm_compute; intuition congruence|].
  assert (Hok : is_ok (@bar3_pv_reflect_batch sim_platform 4 (u64 0x11) 0x10 3 sim_world) = true)
    by (vm_compute; reflexivity).
  destruct (@bar3_pv_reflect_batch sim_platform _ _ _ _ _) as [[u1 w1]|e1]; [|discriminate].
  destruct (for_ _ _ _ _) as [[u2 w2]|e2]; [|contradiction].
  destruct H as (_ & _ & _ & H). exact H.
Defined.

(** ** Reading a machine's table *)

Section Refresh.
Context `{PF : Platform} {PR : Pramin PF} {PL : PraminLaws PF PR}.

(** The world with another BAR3 manager. *)
Definition with_bar3 (f : device_bar3 -> device_bar3) (w : world) : world :=
  set_w_dev (set_d_bar3 (f (d_bar3 (w_dev w))) (w_dev w)) w.

Lemma quiet_with_bar3 f w w' : quiet w w' -> quiet (with_bar3 f w) (with_bar3 f w').
Proof.
  intros [Hs [Hc Hx Hd] Hm]. constructor; [done| |done]. constructor; [done|done|].
  unfold with_bar3. cbn [w_dev set_w_dev].
  assert (d_bar3 (w_dev w') = d_bar3 (w_dev w)) as -> by apply (f_equal d_bar3 Hd).
  by apply (f_equal (set_d_bar3 (f (d_bar3 (w_dev w))))) in Hd.
Qed.

Lemma quiet_bar3 w w' : quiet w w' -> d_bar3 (w_dev w') = d_bar3 (w_dev w).
Proof. intros [_ [_ _ Hd] _]. apply (f_equal d_bar3 Hd). Qed.

(** What one of the two arrays holds afterwards: the machine's part is the translation of
    the guest's table, or empty; the rest is unchanged. *)
Definition part_refreshed (c : context) (m : memory) (present : bool) (field base stop : Z)
    (v v' : vec page_entry) : Prop :=
  vlen v' = vlen v /\ forall j, vec_at v' j =
    if (base <=? j) && (j <? stop) then
      if present then translate c (create_at m (get_phys_address (c_id c) (Z.shiftl field 12) + 8 * (j - base)))
      else pe_zero
    else vec_at v j.

Lemma refresh_table_array_spec (present : bool) field count base stop v w :
  synced w -> valid_id (c_id (w_ctx w)) -> 0 <= field < 2 ^ 28 -> 0 <= count <= kSMALL_PAGE_COUNT ->
  0 <= base -> stop = base + count -> stop <= vlen v ->
  wp no_error (refresh_table_array present field count base stop v)
    (fun v' w' => quiet w w' /\ part_refreshed (w_ctx w) (mem w) present field base stop v v') w.
Proof.
  intros Hs Hid Hf Hc Hb -> Hv. unfold refresh_table_array, part_refreshed. apply wp_bind, wp_gets.
  destruct present.
  2:{ destruct (vec_fill_some (Z.to_nat (base + count - base)) v base pe_zero) as (v' & E & Hl & Hat); [lia|lia|].
      apply (wp_of_option _ _ _ v'); [done|]. split_and!; [by apply quiet_refl|done|].
      intros j. rewrite Hat, Z2Nat.id by lia. by replace (base + (base + count - base)) with (base + count) by lia. }
  destruct (guest_table_ok (c_id (w_ctx w)) field count Hid Hf) as [Ht _]; [lia|].
  set (address := get_phys_address _ _) in *.
  apply (wp_for_acc _ (fun k v' w' => quiet w w' /\ vlen v' = vlen v /\ forall j, vec_at v' j =
    if (base <=? j) && (j <? base + k)
    then translate (w_ctx w) (create_at (mem w) (address + 8 * (j - base))) else vec_at v j)).
  - split_and!; [by apply quiet_refl|done|]. intros j.
    by destruct (Z.leb_spec base j), (Z.ltb_spec j (base + 0)); simpl; try lia.
  - intros k v1 w1 Hk (Q1 & Hl1 & Hv1). rewrite Z2Nat.id in Hk by lia.
    pose proof (table_pair _ _ k Ht ltac:(lia)) as Hp.
    rewrite u64_small by (destruct Hp as (? & ? & ?); lia). apply wp_bind.
    eapply wp_mono; [apply page_entry_create_spec; [apply Q1|done]|]. intros r w2 [-> Q2].
    pose proof (quiet_trans _ _ _ Q1 Q2) as Q. apply wp_bind.
    apply (wp_mono _ _ (fun h w3 => w3 = w2 /\ h = translate (w_ctx w) (create_at (mem w) (address + 8 * k)))).
    { rewrite (create_at_ext (mem w1) (mem w)) by apply Q1.
      destruct (create_at (mem w) (address + 8 * k)) as [e|]; [|by apply wp_ret].
      apply wp_bind, wp_gets, wp_ret. by rewrite (fr_ctx _ _ (qu_frame _ _ Q)). }
    intros h w3 [-> ->]. apply wp_vwrite; [lia|]. intros v2 Hl2 Hat2 Ho2.
    split_and!; [done|congruence|]. intros j. destruct (decide (j = k + base)) as [->|Hne].
    + rewrite Hat2. replace (k + base - base) with k by lia.
      by destruct (Z.leb_spec base (k + base)), (Z.ltb_spec (k + base) (base + (k + 1))); simpl; try lia.
    + rewrite Ho2, Hv1 by done.
      by destruct (Z.leb_spec base j), (Z.ltb_spec j (base + k)), (Z.ltb_spec j (base + (k + 1))); simpl; try lia.
  - intros v' w' (Q & Hl & Hv'). rewrite Z2Nat.id in Hv' by lia. by split_and!.
Qed.

(** The arrays of the manager have the sizes of the declaration. *)
Record bar3_wf (b : device_bar3) : Prop := Bar3Wf {
  bw_large : vlen (db3_large b) = A3_BAR3_TOTAL_SIZE / kLARGE_PAGE_SIZE;
  bw_small : vlen (db3_small b) = A3_BAR3_TOTAL_SIZE / kSMALL_PAGE_SIZE;
  bw_software : vlen (db3_software b) = A3_BAR3_TOTAL_SIZE / 8;
  bw_entries : page_ok (db3_entries b) /\ units_ (db3_entries b) = 8
}.

Definition arena_base (id page_size : Z) : Z := id * A3_BAR3_ARENA_SIZE / page_size.
Definition arena_stop (id page_size : Z) : Z := (id + 1) * A3_BAR3_ARENA_SIZE / page_size.

Lemma arena_large_count dir :
  Z.min (A3_BAR3_ARENA_SIZE / kLARGE_PAGE_SIZE) (large_size_count dir) = 64.
Proof.
  unfold large_size_count. consts. repeat case_if; try reflexivity.
  pose proof (get_bits_range 2 2 (pd_word0 dir) ltac:(lia)).
  unfold size_type, SIZE_TYPE_16M, SIZE_TYPE_32M, SIZE_TYPE_64M, SIZE_TYPE_128M in *. lia.
Qed.

Lemma arena_ranges id :
  valid_id id ->
  0 <= arena_base id kLARGE_PAGE_SIZE
  /\ arena_stop id kLARGE_PAGE_SIZE = arena_base id kLARGE_PAGE_SIZE + 64
  /\ arena_stop id kLARGE_PAGE_SIZE <= 128 /\ 0 <= arena_base id kSMALL_PAGE_SIZE
  /\ arena_stop id kSMALL_PAGE_SIZE = arena_base id kSMALL_PAGE_SIZE + 2048
  /\ arena_stop id kSMALL_PAGE_SIZE <= 4096.
Proof. unfold arena_base, arena_stop, valid_id. consts. intros. split_and!; zlia. Qed.

Lemma wp_when_assert {S} (b : bool) (Q : unit -> S -> Prop) s :
  Q tt s -> wp no_error (when b (assert_ true)) Q s.
Proof. by destruct b. Qed.

Lemma part_refreshed_ext c m1 m2 present field base stop v v' :
  (forall x, m1 x = m2 x) ->
  part_refreshed c m1 present field base stop v v' -> part_refreshed c m2 present field base stop v v'.
Proof.
  intros Hm [Hl H]. split; [done|]. intros j. rewrite H. destruct present; [|done].
  by rewrite (create_at_ext m1 m2).
Qed.

Lemma bar3_refresh_table_spec phys w :
  synced w -> valid_id (c_id (w_ctx w)) -> bar3_wf (d_bar3 (w_dev w)) -> phys <> 0 -> pair_ok phys ->
  let b := d_bar3 (w_dev w) in
  let id := c_id (w_ctx w) in
  let dir := dir_at (mem w) phys in
  wp no_error (bar3_refresh_table phys) (fun _ w' => exists large small,
    quiet (with_bar3 (fun b => set_db3_small small (set_db3_large large b)) w) w'
    /\ part_refreshed (w_ctx w) (mem w) (large_page_table_present dir) (large_page_table_address dir)
         (arena_base id kLARGE_PAGE_SIZE) (arena_stop id kLARGE_PAGE_SIZE) (db3_large b) large
    /\ part_refreshed (w_ctx w) (mem w) (small_page_table_present dir) (small_page_table_address dir)
         (arena_base id kSMALL_PAGE_SIZE) (arena_stop id kSMALL_PAGE_SIZE) (db3_small b) small) w.
Proof.
  intros Hs Hid [Hll Hls _ _] Hnz Hp b id dir. unfold bar3_refresh_table.
  destruct (arena_ranges (c_id (w_ctx w)) Hid) as (HL0 & HL1 & HL2 & HS0 & HS1 & HS2).
  rewrite (proj2 (Z.eqb_neq phys 0) Hnz). apply wp_bind.
  eapply wp_mono; [by apply page_directory_create_spec|]. intros dir' w1 [-> Q1]. fold dir.
  apply wp_bind, wp_gets, wp_bind, wp_gets.
  rewrite (fr_ctx _ _ (qu_frame _ _ Q1)), (quiet_bar3 _ _ Q1), arena_large_count. fold b id.
  change (64 <=? kLARGE_PAGE_COUNT) with true.
  change (A3_BAR3_ARENA_SIZE / kSMALL_PAGE_SIZE <=? kSMALL_PAGE_COUNT) with true.
  apply wp_bind, wp_when_assert, wp_bind.
  eapply wp_mono; [apply refresh_table_array_spec;
    [apply Q1|by rewrite (fr_ctx _ _ (qu_frame _ _ Q1))|apply large_field_range|by consts|done|done
    |unfold b; rewrite Hll; done]|].
  intros large w2 [Q2 RL]. pose proof (quiet_trans _ _ _ Q1 Q2) as Q12.
  apply wp_bind, wp_modify, wp_bind, wp_when_assert, wp_bind. fold (with_bar3 (set_db3_large large) w2).
  pose proof (quiet_with_bar3 (set_db3_large large) _ _ Q12) as Q12'.
  eapply wp_mono; [apply refresh_table_array_spec;
    [apply Q12'|by rewrite (fr_ctx _ _ (qu_frame _ _ Q12'))|apply small_field_range|by consts|done|done
    |unfold b; rewrite Hls; done]|].
  intros small w3 [Q3 RS]. pose proof (quiet_trans _ _ _ Q12' Q3) as Q123.
  apply wp_modify. exists large, small. split_and!.
  - apply (quiet_with_bar3 (set_db3_small small)) in Q123. exact Q123.
  - rewrite (fr_ctx _ _ (qu_frame _ _ Q1)) in RL. eapply part_refreshed_ext; [|exact RL]. apply Q1.
  - rewrite (fr_ctx _ _ (qu_frame _ _ Q12')) in RS. eapply part_refreshed_ext; [|exact RS]. apply Q12'.
Qed.

(** Resolution in a machine's part of the two arrays. *)
Lemma part_resolve c m present field v v' ps n offset :
  valid_id (c_id c) -> 0 <= offset < A3_BAR3_ARENA_SIZE ->
  (ps = kSMALL_PAGE_SIZE \/ ps = kLARGE_PAGE_SIZE) -> arena_stop (c_id c) ps <= vlen v -> offset / ps < n ->
  part_refreshed c m present field (arena_base (c_id c) ps) (arena_stop (c_id c) ps) v v' ->
  resolve_in (Some v') ps (offset + c_id c * A3_BAR3_ARENA_SIZE) = walk_table c m present field ps n offset.
Proof.
  intros Hid Ho Hps Hl Hn [Hl' Hv]. unfold resolve_in, walk_table. rewrite (proj2 (Z.ltb_lt _ _) Hn).
  assert (Hi : (offset + c_id c * A3_BAR3_ARENA_SIZE) / ps = arena_base (c_id c) ps + offset / ps
    /\ (offset + c_id c * A3_BAR3_ARENA_SIZE) mod ps = offset mod ps
    /\ 0 <= arena_base (c_id c) ps /\ arena_base (c_id c) ps + offset / ps < arena_stop (c_id c) ps
    /\ 0 <= offset / ps).
  { unfold arena_base, arena_stop, valid_id in *. consts. destruct Hps as [-> | ->]; split_and!; zlia. }
  destruct Hi as (-> & -> & Hb & Hlt & Hd). rewrite vec_get_some by lia. rewrite Hv.
  rewrite (proj2 (Z.leb_le _ _)), (proj2 (Z.ltb_lt _ _)) by lia. simpl.
  replace (arena_base (c_id c) ps + offset / ps - arena_base (c_id c) ps) with (offset / ps) by lia.
  by destruct present.
Qed.

Lemma bar3_resolve_arena c b o :
  valid_id (c_id c) -> 0 <= o < A3_BAR3_ARENA_SIZE ->
  bar3_resolve c b o =
  match resolve_in (Some (db3_small b)) kSMALL_PAGE_SIZE (o + c_id c * A3_BAR3_ARENA_SIZE) with
  | Some r => Some r
  | None => resolve_in (Some (db3_large b)) kLARGE_PAGE_SIZE (o + c_id c * A3_BAR3_ARENA_SIZE)
  end.
Proof.
  intros Hid Ho. unfold bar3_resolve, valid_id in *.
  assert (u32 (o / kPAGE_DIRECTORY_COVERED_SIZE) = 0) as -> by (consts; zlia).
  by rewrite u64_small by (consts; lia).
Qed.

(** The parts of other machines do not change. *)
Lemma part_resolve_other c c' m present field v v' ps offset :
  valid_id (c_id c) -> valid_id (c_id c') -> c_id c' <> c_id c -> 0 <= offset < A3_BAR3_ARENA_SIZE ->
  (ps = kSMALL_PAGE_SIZE \/ ps = kLARGE_PAGE_SIZE) ->
  part_refreshed c m present field (arena_base (c_id c) ps) (arena_stop (c_id c) ps) v v' ->
  resolve_in (Some v') ps (offset + c_id c' * A3_BAR3_ARENA_SIZE)
  = resolve_in (Some v) ps (offset + c_id c' * A3_BAR3_ARENA_SIZE).
Proof.
  intros Hid Hid' Hne Ho Hps [Hl Hv]. unfold resolve_in, vec_get. rewrite Hl, Hv.
  set (i := (offset + c_id c' * A3_BAR3_ARENA_SIZE) / ps).
  assert ((arena_base (c_id c) ps <=? i) && (i <? arena_stop (c_id c) ps) = false) as ->; [|done].
  unfold i, arena_base, arena_stop, valid_id in *. consts.
  assert (c_id c = 0 /\ c_id c' = 1 \/ c_id c = 1 /\ c_id c' = 0) as [[-> ->]|[-> ->]] by lia;
    destruct Hps as [-> | ->]; apply andb_false_iff; rewrite Z.leb_gt, Z.ltb_ge; zlia.
Qed.

(** Reading a machine's BAR3 table again. Afterwards every offset of the machine's arena
    resolves to what a walk of the guest's directory at [phys] gives, with every entry
    translated; the offsets of the other machines resolve as before; memory, context and
    the calls to Xen are untouched. *)
Theorem bar3_refresh_walk phys w :
  synced w -> valid_id (c_id (w_ctx w)) -> bar3_wf (d_bar3 (w_dev w)) -> phys <> 0 -> pair_ok phys ->
  exists w', bar3_refresh_table phys w = Ok (tt, w')
    /\ (forall o, 0 <= o < A3_BAR3_ARENA_SIZE ->
         bar3_resolve (w_ctx w) (d_bar3 (w_dev w')) o = walk (w_ctx w) (mem w) phys o)
    /\ (forall c o, valid_id (c_id c) -> c_id c <> c_id (w_ctx w) -> 0 <= o < A3_BAR3_ARENA_SIZE ->
         bar3_resolve c (d_bar3 (w_dev w')) o = bar3_resolve c (d_bar3 (w_dev w)) o)
    /\ synced w' /\ (forall x, mem w' x = mem w x) /\ w_ctx w' = w_ctx w /\ w_xen w' = w_xen w.
Proof.
  intros Hs Hid Hwf Hnz Hp.
  destruct (wp_total _ _ _ (bar3_refresh_table_spec phys w Hs Hid Hwf Hnz Hp))
    as ([] & w' & E & large & small & Q & RL & RS).
  exists w'. rewrite (quiet_bar3 _ _ Q). destruct (arena_ranges _ Hid) as (_ & _ & HL & _ & _ & HS).
  split_and!; [done| | |apply Q|apply Q|apply (fr_ctx _ _ (qu_frame _ _ Q))|apply (fr_xen _ _ (qu_frame _ _ Q))].
  - intros o Ho. rewrite bar3_resolve_arena by done. cbn [with_bar3 w_dev set_w_dev d_bar3 set_d_bar3
      db3_small db3_large set_db3_small set_db3_large]. unfold walk.
    pose proof (arena_large_count (dir_at (mem w) phys)) as Hc.
    assert (HnL : o / kLARGE_PAGE_SIZE < large_size_count (dir_at (mem w) phys)) by (consts; zlia).
    assert (HnS : o / kSMALL_PAGE_SIZE < kSMALL_PAGE_COUNT) by (consts; zlia).
    rewrite <- (bw_small _ Hwf : _ = 4096) in HS. rewrite <- (bw_large _ Hwf : _ = 128) in HL.
    by rewrite (part_resolve _ _ _ _ _ _ _ _ _ Hid Ho (or_introl eq_refl) HS HnS RS),
      (part_resolve _ _ _ _ _ _ _ _ _ Hid Ho (or_intror eq_refl) HL HnL RL).
  - intros c o Hc Hne Ho. rewrite !bar3_resolve_arena by done. cbn [with_bar3 w_dev set_w_dev d_bar3 set_d_bar3
      db3_small db3_large set_db3_small set_db3_large].
    by rewrite (part_resolve_other _ _ _ _ _ _ _ _ _ Hid Hc Hne Ho (or_introl eq_refl) RS),
      (part_resolve_other _ _ _ _ _ _ _ _ _ Hid Hc Hne Ho (or_intror eq_refl) RL).
Qed.

(** The resolution does not stop at the end of the arena. What the first machine reaches
    behind its own arena is what the second machine reaches at the start of its arena:
    the offset is only checked against the 128MB of a page directory. *)
Theorem bar3_arena_escape c0 c1 b o :
  c_id c0 = 0 -> c_id c1 = 1 -> 0 <= o < A3_BAR3_ARENA_SIZE ->
  bar3_resolve c0 b (A3_BAR3_ARENA_SIZE + o) = bar3_resolve c1 b o.
Proof using Type.
  intros H0 H1 Ho. unfold bar3_resolve. rewrite H0, H1.
  assert (u32 ((A3_BAR3_ARENA_SIZE + o) / kPAGE_DIRECTORY_COVERED_SIZE) = 0) as -> by (consts; zlia).
  assert (u32 (o / kPAGE_DIRECTORY_COVERED_SIZE) = 0) as -> by (consts; zlia). simpl negb. cbn iota.
  by replace (A3_BAR3_ARENA_SIZE + o + 0 * A3_BAR3_ARENA_SIZE) with (o + 1 * A3_BAR3_ARENA_SIZE) by lia.
Qed.
End Refresh.

Lemma sim_bar3_wf : bar3_wf (d_bar3 sim_device).
Proof. constructor; [reflexivity..|]. split; [|reflexivity]. constructor; vm_compute; intuition congruence. Qed.

Lemma bar3_refresh_walk_witness :
  exists w', @bar3_refresh_table sim_platform (get_phys_address 0 0x10000) sim_table_world = Ok (tt, w')
    /\ option_map fst (bar3_resolve sim_context (d_bar3 (w_dev w')) 0x3045) = Some (get_phys_address 0 0x123045).
Proof.
  destruct (@bar3_refresh_walk sim_platform sim_pramin sim_pramin_laws (get_phys_address 0 0x10000)
    sim_table_world) as (w' & E & R & _).
  - by vm_compute.
  - by vm_compute.
  - exact sim_bar3_wf.
  - by vm_compute.
  - vm_compute; intuition congruence.
  - exists w'. split; [exact E|].
    change sim_context with (@w_ctx sim_platform sim_table_world).
    rewrite R by (vm_compute; intuition congruence). vm_compute. reflexivity.
Defined.

Lemma bar3_arena_escape_witness :
  bar3_resolve sim_context (d_bar3 sim_device) (A3_BAR3_ARENA_SIZE + 0x5000)
  = bar3_resolve (set_c_id 1 sim_context) (d_bar3 sim_device) 0x5000.
Proof.
  apply (bar3_arena_escape sim_context (set_c_id 1 sim_context) (d_bar3 sim_device) 0x5000);
    [reflexivity|reflexivity|vm_compute; intuition congruence].
Defined.
