(* ===== verification/Remap.v ===== *)
(** * BAR3 pages in the guest's physical memory

    A3 lets a guest reach the pages of its BAR3 arena without a trap by mapping them into
    the guest's physical memory, except the pages that are under a write barrier: writes to
    those must trap. This file shows what [device_bar3::shadow] and
    [device_bar3::reset_barrier] leave mapped. *)

From S2P Require Import Prelude Config Vram PageTable Barrier Sched State Device Tables Shadow Bars Arena.

(** ** The memory map the calls describe *)

(** The machine frame behind a frame of a domain. *)
Definition frame_map : Type := Z -> Z -> option Z.

(** The effect of [XEN_DOMCTL_memory_mapping]. *)
Definition xen_apply (x : xen_call) (m : frame_map) : frame_map := fun d g =>
  match x with
  | XenMap d' g' h n => if (d =? d') && (g' <=? g) && (g <? g' + n) then Some (h + (g - g')) else m d g
  | XenUnmap d' g' h n => if (d =? d') && (g' <=? g) && (g <? g' + n) then None else m d g
  end.
Definition physmap (l : list xen_call) (m : frame_map) : frame_map := foldl (fun m x => xen_apply x m) m l.

Lemma physmap_app l l' m : physmap (l ++ l') m = physmap l' (physmap l m).
Proof. apply foldl_app. Qed.

Section Remap.
Context `{PF : Platform}.

(** The frames of page [j] of a machine's arena. *)
Definition guest_frame (p : context * Z) (j : Z) : Z := Z.shiftr (c_bar3_address p.1) kPAGE_SHIFT + j.
Definition host_frame (p : context * Z) (j : Z) : Z :=
  Z.shiftr (p.2 + c_id p.1 * A3_BAR3_ARENA_SIZE) kPAGE_SHIFT + j.

Definition arena_pages : Z := A3_BAR3_ARENA_SIZE / kPAGE_SIZE.

Lemma emit_page p m j n :
  placement_ok p -> bar3_remapping = true -> 0 <= j -> (j < arena_pages) ->
  emit p m (j * kPAGE_SIZE) n = [xen_of m (c_domid p.1) (guest_frame p j) (host_frame p j) n].
Proof.
  intros [Hid Hg Hh] Hr Hj Hj'. unfold emit. rewrite Hr. unfold guest_frame, host_frame, arena_pages, valid_id in *.
  consts. change (8388608 / 4096) with 2048 in *.
  rewrite !u64_small by lia. rewrite !Z.shiftr_div_pow2 by lia. repeat f_equal; zlia.
Qed.

(** What the calls of one arena can change: page [j] is mapped or unmapped as [f j] says, or
    as it was; other frames are as in [m]. *)
Definition arena_mapped (p : context * Z) (f : Z -> option bool) (m m' : frame_map) : Prop :=
  (forall j, 0 <= j < arena_pages ->
     m' (c_domid p.1) (guest_frame p j) =
     match f j with
     | Some true => Some (host_frame p j)
     | Some false => None
     | None => m (c_domid p.1) (guest_frame p j)
     end)
  /\ forall d g, ~ (d = c_domid p.1 /\ guest_frame p 0 <= g < guest_frame p arena_pages) -> m' d g = m d g.

Lemma unmap_arena p m :
  placement_ok p -> bar3_remapping = true ->
  arena_mapped p (fun _ => Some false) m (physmap (emit p false 0 (A3_BAR3_ARENA_SIZE / 0x1000)) m).
Proof.
  intros Hp Hr. change 0 with (0 * kPAGE_SIZE) at 1. rewrite emit_page by done.
  unfold arena_mapped, physmap, xen_of, guest_frame, arena_pages. consts.
  change (8388608 / 4096) with 2048. cbn [foldl xen_apply]. split.
  - intros j Hj. rewrite Z.eqb_refl, (proj2 (Z.leb_le _ _)), (proj2 (Z.ltb_lt _ _)) by lia. done.
  - intros d g Hn. destruct (Z.eqb_spec d (c_domid p.1)); [|done].
    by destruct (Z.leb_spec (Z.shiftr (c_bar3_address p.1) 12 + 0) g),
      (Z.ltb_spec g (Z.shiftr (c_bar3_address p.1) 12 + 0 + 2048)); simpl; try done; lia.
Qed.

(** One call on page [k]. *)
Lemma arena_mapped_set p f m m' k b :
  placement_ok p -> bar3_remapping = true -> 0 <= k < arena_pages -> arena_mapped p f m m' ->
  arena_mapped p (fun j => if j =? k then Some b else f j) m (physmap (emit p b (k * kPAGE_SIZE) 1) m').
Proof.
  intros Hp Hr Hk [Hin Hout]. rewrite emit_page by (done || lia).
  unfold arena_mapped, physmap, guest_frame, host_frame in *. cbn [foldl].
  split.
  - intros j Hj. specialize (Hin j Hj). destruct (Z.eqb_spec j k) as [->|Hne].
    + unfold xen_of. set (s := Z.shiftr (c_bar3_address p.1) kPAGE_SHIFT).
      destruct b; cbn [xen_apply]; rewrite Z.eqb_refl;
        destruct (Z.leb_spec (s + k) (s + k)), (Z.ltb_spec (s + k) (s + k + 1)); simpl; try lia; [f_equal; lia|done].
    + rewrite <- Hin. unfold xen_of. set (s := Z.shiftr (c_bar3_address p.1) kPAGE_SHIFT).
      destruct b; cbn [xen_apply]; rewrite Z.eqb_refl;
        by destruct (Z.leb_spec (s + k) (s + j)), (Z.ltb_spec (s + j) (s + k + 1)); simpl; try done; lia.
  - intros d g Hn. rewrite <- (Hout d g Hn). unfold xen_of. set (s := Z.shiftr (c_bar3_address p.1) kPAGE_SHIFT) in *.
    destruct b; cbn [xen_apply]; destruct (Z.eqb_spec d (c_domid p.1)); try done;
      by destruct (Z.leb_spec (s + k) g), (Z.ltb_spec g (s + k + 1)); simpl; try done; lia.
Qed.

Lemma arena_mapped_ext p f f' m m' :
  (forall j, 0 <= j < arena_pages -> f j = f' j) -> arena_mapped p f m m' -> arena_mapped p f' m m'.
Proof. intros H [Hin Hout]. split; [|done]. intros j Hj. rewrite <- H by done. by apply Hin. Qed.

(** ** The barrier as the managers see it *)

(** [lookup] answers whether the page of [a] is under a barrier. *)
Definition barriered (t : barrier_table) (a : Z) : bool :=
  barrier_in_range t a && entry_present (refs t (barrier_page t a)).

Lemma wp_lookup a (Q : bool * option (Z * Z) -> world -> Prop) w :
  barrier_wf (c_barrier (w_ctx w)) ->
  (forall r, r.1 = barriered (c_barrier (w_ctx w)) a -> Q r w) ->
  wp no_error (on_barrier (barrier_lookup a false)) Q w.
Proof.
  intros Hwf HQ. destruct (barrier_lookup_false _ Hwf a) as (r & E & H1 & _).
  unfold on_barrier, wp, zoom. rewrite E.
  assert (set_w_ctx (set_c_barrier (c_barrier (w_ctx w)) (w_ctx w)) w = w) as -> by by destruct w as [? ? [] ?].
  by apply HQ.
Qed.
End Remap.

(** ** [map] and [shadow] *)

Section Shadowing.
Context `{PF : Platform} {PR : Pramin PF} {PL : PraminLaws PF PR}.

(** The address [map] records for an entry. *)
Definition sw_target (e : page_entry) : Z := if pe_present e then Z.shiftl (pe_address e) 12 else 0.

(** Only the GPU, the cached window, the recorded addresses and the calls to Xen change. *)
Record remap_frame (w w' : world) : Prop := RemapFrame {
  rf_synced : synced w';
  rf_ctx : w_ctx w' = w_ctx w;
  rf_dev : exists sw, set_d_pmem 0 (w_dev w') = set_d_pmem 0 (w_dev (with_bar3 (set_db3_software sw) w))
                      /\ vlen sw = vlen (db3_software (d_bar3 (w_dev w)))
}.

Lemma remap_frame_refl w : synced w -> remap_frame w w.
Proof.
  intros Hs. constructor; [done|done|]. exists (db3_software (d_bar3 (w_dev w))). split; [|done].
  unfold with_bar3. simpl. by destruct (w_dev w) as [? ? ? ? [] ? ? ? ?].
Qed.

Lemma remap_frame_bar3 w w' :
  remap_frame w w' -> exists sw, d_bar3 (w_dev w') = set_db3_software sw (d_bar3 (w_dev w))
    /\ vlen sw = vlen (db3_software (d_bar3 (w_dev w))).
Proof. intros [_ _ (sw & E & Hl)]. exists sw. split; [|done]. apply (f_equal d_bar3 E). Qed.

Lemma remap_frame_trans w1 w2 w3 : remap_frame w1 w2 -> remap_frame w2 w3 -> remap_frame w1 w3.
Proof.
  intros F1 F2. pose proof (remap_frame_bar3 _ _ F1) as (sw1 & E1 & Hl1).
  destruct F1 as [_ C1 (sw & D1 & _)], F2 as [S2 C2 (sw2 & D2 & Hl2)].
  constructor; [done|congruence|]. exists sw2. rewrite E1 in Hl2. split; [|by rewrite Hl2].
  rewrite D2. unfold with_bar3. cbn [w_dev set_w_dev]. rewrite E1.
  by apply (f_equal (set_d_bar3 (set_db3_software sw2 (d_bar3 (w_dev w1))))) in D1.
Qed.

Lemma remap_frame_wf w w' :
  remap_frame w w' -> bar3_wf (d_bar3 (w_dev w)) -> bar3_wf (d_bar3 (w_dev w')).
Proof. intros (sw & -> & Hl)%remap_frame_bar3 []. constructor; simpl; congruence. Qed.

Lemma bar3_map_spec index e w :
  synced w -> bar3_wf (d_bar3 (w_dev w)) -> 0 <= index < 4096 -> pe_wf e ->
  let a := address_ (db3_entries (d_bar3 (w_dev w))) + 8 * index in
  wp no_error (bar3_map index e) (fun _ w' => remap_frame w w' /\ w_xen w' = w_xen w
    /\ (forall j, vec_at (db3_software (d_bar3 (w_dev w'))) j =
         if j =? index then sw_target e else vec_at (db3_software (d_bar3 (w_dev w))) j)
    /\ entry_at (mem w') a = e /\ entry_written a (mem w) (mem w')) w.
Proof.
  intros Hs [_ _ Hsw [Hp Hu]] Hi He a. unfold bar3_map. apply wp_bind, wp_gets.
  set (b := d_bar3 (w_dev w)) in *. rewrite !u64_small by lia.
  change (8 * index + 0x4) with (8 * index + 4). apply wp_bind_assoc, wp_bind.
  eapply wp_mono; [apply write_entry_spec; [done|done|lia| |zlia|done]|].
  { unfold page_size. rewrite Hu. lia. }
  intros [] w1 (Hs1 & F1 & E1 & W1). fold a in E1, W1. apply wp_bind.
  apply wp_vwrite; [rewrite Hsw; consts; zlia|]. intros sw Hl Hat Ho. apply wp_modify.
  assert (Hb1 : d_bar3 (w_dev w1) = b) by apply (f_equal d_bar3 (fr_dev _ _ F1)).
  split_and!; [|apply F1| |done|done].
  - constructor; [done|apply F1|]. exists sw. split; [|done]. unfold with_bar3. cbn [w_dev set_w_dev].
    rewrite Hb1. pose proof (fr_dev _ _ F1) as D. by apply (f_equal (set_d_bar3 (set_db3_software sw b))) in D.
  - intros j. cbn [w_dev set_w_dev d_bar3 set_d_bar3 db3_software set_db3_software].
    destruct (Z.eqb_spec j index) as [->|Hne]; [done|]. by apply Ho.
Qed.

Definition tables_wf (b : device_bar3) : Prop :=
  forall j, pe_wf (vec_at (db3_small b) j) /\ pe_wf (vec_at (db3_large b) j).

(** The entry page [j] of the arena resolves to, and whether the guest may have the page
    mapped: it resolves, and to a page without a barrier. *)
Definition arena_entry (c : context) (b : device_bar3) (j : Z) : page_entry :=
  match bar3_resolve c b (j * kPAGE_SIZE) with Some r => r.2 | None => pe_zero end.
Definition arena_open (c : context) (b : device_bar3) (j : Z) : bool :=
  match bar3_resolve c b (j * kPAGE_SIZE) with
  | Some r => negb (barriered (c_barrier c) r.1)
  | None => false
  end.

Lemma resolve_in_wf v ps o r :
  (forall j, pe_wf (vec_at v j)) -> resolve_in (Some v) ps o = Some r -> pe_wf r.2.
Proof using Type.
  intros Hv. unfold resolve_in, vec_get. case_if; [|done]. destruct (pe_present _); [|done].
  intros [= <-]. apply Hv.
Qed.

Lemma arena_entry_wf c b j : tables_wf b -> pe_wf (arena_entry c b j).
Proof using Type.
  intros Hb. unfold arena_entry, bar3_resolve. destruct (negb _); [by vm_compute|].
  destruct (resolve_in (Some (db3_small b)) _ _) as [r|] eqn:E1.
  { eapply resolve_in_wf; [|exact E1]. apply Hb. }
  destruct (resolve_in (Some (db3_large b)) _ _) as [r|] eqn:E2; [|by vm_compute].
  eapply resolve_in_wf; [|exact E2]. apply Hb.
Qed.

Lemma resolve_software c b sw o : bar3_resolve c (set_db3_software sw b) o = bar3_resolve c b o.
Proof using Type. done. Qed.

Lemma remap_placement w w' : remap_frame w w' -> placement w' = placement w.
Proof using Type.
  intros F. pose proof (remap_frame_bar3 _ _ F) as (sw & E & _). unfold placement.
  by rewrite E, (rf_ctx _ _ F).
Qed.

(** After the first [k] pages of the arena. *)
Record shadowed (w : world) (m : frame_map) (k : Z) (w' : world) : Prop := Shadowed {
  sd_frame : remap_frame w w';
  sd_map : arena_mapped (placement w) (fun j => Some ((j <? k) && arena_open (w_ctx w) (d_bar3 (w_dev w)) j))
             (physmap (w_xen w) m) (physmap (w_xen w') m);
  sd_gpu : forall j, 0 <= j < k ->
    entry_at (mem w') (address_ (db3_entries (d_bar3 (w_dev w))) + 8 * (arena_base (c_id (w_ctx w)) kPAGE_SIZE + j))
    = arena_entry (w_ctx w) (d_bar3 (w_dev w)) j;
  sd_soft : forall j, vec_at (db3_software (d_bar3 (w_dev w'))) j =
    let base := arena_base (c_id (w_ctx w)) kPAGE_SIZE in
    if (base <=? j) && (j <? base + k)
    then sw_target (arena_entry (w_ctx w) (d_bar3 (w_dev w)) (j - base))
    else vec_at (db3_software (d_bar3 (w_dev w))) j;
  sd_mem : forall x,
    let a := address_ (db3_entries (d_bar3 (w_dev w))) in
    x < a + 8 * arena_base (c_id (w_ctx w)) kPAGE_SIZE \/ a + 8 * arena_stop (c_id (w_ctx w)) kPAGE_SIZE <= x ->
    mem w' x = mem w x
}.

(** What writing page [k]'s entry adds. *)
Lemma shadowed_map w m k w1 w2 e :
  shadowed w m k w1 -> valid_id (c_id (w_ctx w)) -> 0 <= k < arena_pages ->
  e = arena_entry (w_ctx w) (d_bar3 (w_dev w)) k ->
  let i := arena_base (c_id (w_ctx w)) kPAGE_SIZE + k in
  let a := address_ (db3_entries (d_bar3 (w_dev w))) + 8 * i in
  remap_frame w1 w2 ->
  (forall j, vec_at (db3_software (d_bar3 (w_dev w2))) j =
     if j =? i then sw_target e else vec_at (db3_software (d_bar3 (w_dev w1))) j) ->
  entry_at (mem w2) a = e -> entry_written a (mem w1) (mem w2) ->
  arena_mapped (placement w) (fun j => Some ((j <? k + 1) && arena_open (w_ctx w) (d_bar3 (w_dev w)) j))
    (physmap (w_xen w) m) (physmap (w_xen w2) m) ->
  shadowed w m (k + 1) w2.
Proof using Type.
  intros [F1 _ G1 S1 M1] Hid Hk -> i a F2 S2 E2 W2 Hmap.
  destruct (arena_ranges _ Hid) as (_ & _ & _ & HS0 & HS1 & _).
  change kSMALL_PAGE_SIZE with kPAGE_SIZE in *. set (base := arena_base (c_id (w_ctx w)) kPAGE_SIZE) in *.
  change arena_pages with 2048 in Hk.
  constructor; [by eapply remap_frame_trans|done| | |].
  - intros j Hj. destruct (decide (j = k)) as [->|Hne]; [done|].
    rewrite <- G1 by lia. unfold entry_at. f_equal; apply load_ext; [lia| |lia|];
      intros x Hx; apply W2; unfold a, i; lia.
  - intros j. rewrite S2, S1. fold base. cbn zeta. destruct (Z.eqb_spec j i) as [->|Hne].
    + unfold i. replace (base + k - base) with k by lia.
      by destruct (Z.leb_spec base (base + k)), (Z.ltb_spec (base + k) (base + (k + 1))); simpl; try lia.
    + unfold i in Hne. by destruct (Z.leb_spec base j), (Z.ltb_spec j (base + k)),
        (Z.ltb_spec j (base + (k + 1))); simpl; try lia.
  - intros x ax Hx. rewrite W2, M1; [done|exact Hx|]. revert Hx. fold base in HS1 |- *. rewrite HS1.
    unfold ax, a, i. lia.
Qed.

Lemma open_step (f : Z -> bool) k j : (if j =? k then f k else (j <? k) && f j) = (j <? k + 1) && f j.
Proof using Type.
  destruct (Z.eqb_spec j k) as [->|]; [by destruct (Z.ltb_spec k (k + 1)); [|lia]|].
  by destruct (Z.ltb_spec j k), (Z.ltb_spec j (k + 1)); try lia.
Qed.

Lemma if_some (b x y : bool) : Some (if b then x else y) = if b then Some x else Some y.
Proof using Type. by destruct b. Qed.

Lemma open_skip (f : Z -> bool) k j : f k = false -> (j <? k) && f j = (j <? k + 1) && f j.
Proof using Type.
  intros Hf. rewrite <- open_step. destruct (Z.eqb_spec j k) as [->|]; [|done]. by rewrite Hf, andb_false_r.
Qed.

(** The world in which the arena of [w] is shadowed. *)
Record shadow_pre (w : world) : Prop := ShadowPre {
  sp_place : placement_ok (placement w);
  sp_remap : bar3_remapping = true;
  sp_wf : bar3_wf (d_bar3 (w_dev w));
  sp_tables : tables_wf (d_bar3 (w_dev w));
  sp_barrier : barrier_wf (c_barrier (w_ctx w))
}.

(** The entry of page [k] is written; the round is complete once the map is right. *)
Lemma shadow_map_spec w m k w1 :
  shadow_pre w -> 0 <= k < arena_pages -> shadowed w m k w1 ->
  wp no_error (bar3_map (arena_base (c_id (w_ctx w)) kPAGE_SIZE + k) (arena_entry (w_ctx w) (d_bar3 (w_dev w)) k))
    (fun _ w2 => w_ctx w2 = w_ctx w /\ placement w2 = placement w /\ w_xen w2 = w_xen w1 /\ (forall l,
       arena_mapped (placement w) (fun j => Some ((j <? k + 1) && arena_open (w_ctx w) (d_bar3 (w_dev w)) j))
         (physmap (w_xen w) m) (physmap l m) -> shadowed w m (k + 1) (set_w_xen l w2))) w1.
Proof.
  intros [Hpl _ Hwf Htw _] Hk Hsh. pose proof (sd_frame _ _ _ _ Hsh) as F1.
  assert (Hid : valid_id (c_id (w_ctx w))) by apply (pl_id _ Hpl).
  destruct (arena_ranges _ Hid) as (_ & _ & _ & HB & HB1 & HB2).
  change kSMALL_PAGE_SIZE with kPAGE_SIZE in HB, HB1, HB2. pose proof Hk as Hk'. change arena_pages with 2048 in Hk'.
  pose proof (remap_frame_bar3 _ _ F1) as (sw & E1 & _).
  eapply wp_mono; [apply bar3_map_spec; [apply F1|by eapply remap_frame_wf|lia|by apply arena_entry_wf]|].
  rewrite E1. cbn [db3_entries set_db3_software]. intros [] w2 (F2 & X2 & S2 & G2 & W2).
  split_and!; [by rewrite (rf_ctx _ _ F2), (rf_ctx _ _ F1)|by rewrite (remap_placement _ _ F2), (remap_placement _ _ F1)|done|].
  intros l Hl. rewrite <- E1 in S2.
  apply (shadowed_map w m k w1 (set_w_xen l w2) _ Hsh Hid Hk eq_refl); [|exact S2|exact G2|exact W2|exact Hl].
  destruct F2. by constructor.
Qed.

Lemma set_w_xen_same (w : world) : set_w_xen (w_xen w) w = w.
Proof using Type. by destruct w. Qed.

Lemma shadow_page_spec w m k w1 :
  shadow_pre w -> 0 <= k < arena_pages -> shadowed w m k w1 ->
  wp no_error (bar3_shadow_page k) (fun _ => shadowed w m (k + 1)) w1.
Proof.
  intros Hpre Hk Hsh. pose proof (sd_frame _ _ _ _ Hsh) as F1. pose proof (sd_map _ _ _ _ Hsh) as Hm.
  pose proof (remap_frame_bar3 _ _ F1) as (sw & E1 & _). pose proof (shadow_map_spec w m k w1 Hpre Hk Hsh) as Hmap.
  unfold bar3_shadow_page. apply wp_bind, wp_gets, wp_bind, wp_gets. rewrite (rf_ctx _ _ F1), E1, resolve_software.
  cbn zeta. unfold id. assert ((c_id (w_ctx w) * A3_BAR3_ARENA_SIZE + k * kPAGE_SIZE) / kPAGE_SIZE
    = arena_base (c_id (w_ctx w)) kPAGE_SIZE + k) as -> by (unfold arena_base; consts; zlia).
  assert (Hskip : arena_open (w_ctx w) (d_bar3 (w_dev w)) k = false -> arena_mapped (placement w)
    (fun j => Some ((j <? k + 1) && arena_open (w_ctx w) (d_bar3 (w_dev w)) j)) (physmap (w_xen w) m) (physmap (w_xen w1) m)).
  { intros Ho. eapply arena_mapped_ext; [|exact Hm]. intros j _.
    exact (f_equal Some (open_skip (arena_open (w_ctx w) (d_bar3 (w_dev w))) k j Ho)). }
  pose proof (open_step (arena_open (w_ctx w) (d_bar3 (w_dev w))) k) as Hstep.
  unfold arena_open at 1 in Hstep. unfold arena_open at 1 in Hskip. unfold arena_entry in Hmap.
  destruct (bar3_resolve (w_ctx w) (d_bar3 (w_dev w)) (k * kPAGE_SIZE)) as [r|].
  - apply wp_bind. eapply wp_mono; [exact Hmap|]. intros [] w2 (C2 & P2 & X2 & Hdone). apply wp_bind.
    apply wp_lookup; rewrite C2; [apply Hpre|]. intros l ->.
    destruct (barriered (c_barrier (w_ctx w)) r.1).
    + apply wp_ret. rewrite <- (set_w_xen_same w2), X2. by apply Hdone, Hskip.
    + unfold wp. rewrite (xen_page_eq true), P2, X2. apply Hdone. rewrite physmap_app.
      eapply arena_mapped_ext; [|].
      { intros j _. rewrite <- Hstep. symmetry. exact (if_some _ _ _). }
      apply arena_mapped_set; [apply Hpre..|done|done].
  - eapply wp_mono; [exact Hmap|]. intros [] w2 (_ & _ & X2 & Hdone).
    rewrite <- (set_w_xen_same w2), X2. by apply Hdone, Hskip.
Qed.

(** Shadowing the arena of a machine. Afterwards the GPU's table of the window has, for
    every page of the arena, the entry the machine's own tables resolve to and no others;
    the guest has exactly those pages of the arena mapped that resolve and are not under a
    write barrier, each to its page of the window; frames outside the arena and all memory
    outside the machine's part of the GPU's table are untouched. *)
Theorem bar3_shadow_maps phys m w :
  shadow_pre w -> synced w ->
  exists w', bar3_shadow phys w = Ok (tt, w')
    /\ arena_mapped (placement w) (fun j => Some (arena_open (w_ctx w) (d_bar3 (w_dev w)) j))
         (physmap (w_xen w) m) (physmap (w_xen w') m)
    /\ (let a := address_ (db3_entries (d_bar3 (w_dev w))) in
        let base := arena_base (c_id (w_ctx w)) kPAGE_SIZE in
        (forall j, 0 <= j < arena_pages ->
           entry_at (mem w') (a + 8 * (base + j)) = arena_entry (w_ctx w) (d_bar3 (w_dev w)) j)
        /\ forall x, x < a + 8 * base \/ a + 8 * (base + arena_pages) <= x -> mem w' x = mem w x)
    /\ remap_frame w w'.
Proof.
  intros Hpre Hs. assert (W : wp no_error (bar3_shadow phys) (fun _ => shadowed w m arena_pages) w).
  { unfold bar3_shadow. apply wp_bind. unfold wp at 1.
    rewrite (xen_page_batch_eq false 0 (A3_BAR3_ARENA_SIZE / 0x1000)).
    apply (wp_for _ (shadowed w m)).
    - constructor; [| |lia| |done].
      + destruct (remap_frame_refl w Hs). by constructor.
      + cbn [w_xen set_w_xen]. rewrite physmap_app. eapply arena_mapped_ext; [|apply unmap_arena; apply Hpre].
        intros j Hj. by destruct (Z.ltb_spec j 0); [lia|].
      + intros j. cbn zeta. set (base := arena_base _ _). by destruct (Z.leb_spec base j), (Z.ltb_spec j (base + 0)); simpl; try lia.
    - intros k w1 Hk Hsh. apply shadow_page_spec; [done| |done].
      change (Z.of_nat (Z.to_nat (A3_BAR3_ARENA_SIZE / kPAGE_SIZE))) with arena_pages in Hk. lia.
    - intros w'. by change (0 + Z.of_nat (Z.to_nat (A3_BAR3_ARENA_SIZE / kPAGE_SIZE))) with arena_pages. }
  destruct (wp_total _ _ _ W) as ([] & w' & E & [F Hm G _ M]). exists w'.
  destruct (arena_ranges _ (pl_id _ (sp_place _ Hpre))) as (_ & _ & _ & _ & HB & _).
  split; [done|]. split; [|split; [split; [exact G|]|done]].
  - eapply arena_mapped_ext; [|exact Hm]. intros j Hj. cbn beta.
    rewrite (proj2 (Z.ltb_lt j arena_pages)) by lia. done.
  - intros x Hx. apply M. change kSMALL_PAGE_SIZE with kPAGE_SIZE in HB. change (placement w).1 with (w_ctx w) in HB.
    rewrite HB. exact Hx.
Qed.
End Shadowing.

Section Reset.
Context `{PF : Platform}.

(** What [reset_barrier] decides for a page that leads to [target]. *)
Definition reset_decision (old addr : Z) (old_remap : bool) (target : Z) : option bool :=
  if (target =? old) && old_remap then Some true
  else if target =? addr then Some false
  else None.

(** The decisions for the first [k] pages have been carried out. *)
Definition reset_done (d : Z -> option bool) (m : frame_map) (w : world) (k : Z) (w' : world) : Prop :=
  exists l, w' = set_w_xen l w
    /\ arena_mapped (placement w) (fun j => if j <? k then d j else None) (physmap (w_xen w) m) (physmap l m).

Lemma reset_done_call d m w k l b :
  placement_ok (placement w) -> bar3_remapping = true -> 0 <= k < arena_pages -> d k = Some b ->
  arena_mapped (placement w) (fun j => if j <? k then d j else None) (physmap (w_xen w) m) (physmap l m) ->
  reset_done d m w (k + 1) (set_w_xen (l ++ emit (placement w) b (k * kPAGE_SIZE) 1) w).
Proof.
  intros Hp Hr Hk Hd Hl. eexists. split; [reflexivity|]. rewrite physmap_app.
  eapply arena_mapped_ext; [|by apply arena_mapped_set; [..|exact Hl]].
  intros j _. cbn beta. destruct (Z.eqb_spec j k) as [->|]; [by destruct (Z.ltb_spec k (k + 1)); [|lia]|].
  by destruct (Z.ltb_spec j k), (Z.ltb_spec j (k + 1)); try lia.
Qed.

Lemma reset_done_skip d m w k l :
  d k = None ->
  arena_mapped (placement w) (fun j => if j <? k then d j else None) (physmap (w_xen w) m) (physmap l m) ->
  reset_done d m w (k + 1) (set_w_xen l w).
Proof.
  intros Hd Hl. eexists. split; [reflexivity|]. eapply arena_mapped_ext; [|exact Hl]. intros j _. cbn beta.
  destruct (Z.ltb_spec j k), (Z.ltb_spec j (k + 1)); try done; try lia. by assert (j = k) as -> by lia.
Qed.

Definition page_decision (old addr : Z) (old_remap : bool) (w : world) (j : Z) : option bool :=
  reset_decision old addr old_remap
    (vec_at (db3_software (d_bar3 (w_dev w))) (arena_base (c_id (w_ctx w)) kPAGE_SIZE + j)).

Lemma reset_page_spec old addr old_remap m w k w1 :
  placement_ok (placement w) -> bar3_remapping = true -> bar3_wf (d_bar3 (w_dev w)) -> 0 <= k < arena_pages ->
  reset_done (page_decision old addr old_remap w) m w k w1 ->
  wp no_error (reset_barrier_page old addr old_remap k)
    (fun _ => reset_done (page_decision old addr old_remap w) m w (k + 1)) w1.
Proof.
  intros Hp Hr Hwf Hk (l & -> & Hl). destruct (arena_ranges _ (pl_id _ Hp)) as (_ & _ & _ & HB & HB1 & HB2).
  change (placement w).1 with (w_ctx w) in *. change kSMALL_PAGE_SIZE with kPAGE_SIZE in *.
  pose proof Hk as Hk'. change arena_pages with 2048 in Hk'.
  unfold reset_barrier_page. apply wp_bind, wp_gets, wp_bind, wp_gets, wp_bind. unfold id.
  cbn [w_dev w_ctx set_w_xen]. fold (arena_base (c_id (w_ctx w)) kPAGE_SIZE).
  apply wp_vread; [rewrite (bw_software _ Hwf); consts; zlia|].
  set (t := vec_at (db3_software (d_bar3 (w_dev w))) _).
  assert (Hd : page_decision old addr old_remap w k = reset_decision old addr old_remap t) by done.
  unfold reset_decision in Hd. destruct ((t =? old) && old_remap); [|destruct (t =? addr)].
  - unfold wp. rewrite (xen_page_eq true). by apply (reset_done_call _ m w k l true).
  - unfold wp. rewrite (xen_page_eq false). by apply (reset_done_call _ m w k l false).
  - apply wp_ret. by apply reset_done_skip.
Qed.

(** Moving a write barrier from [old] to [addr]. Of the pages of the arena, those that
    lead to [old] are mapped again when [old] has no barrier left, those that lead to
    [addr] are unmapped, and all others stay as they are; nothing but the memory map of the
    machine changes. *)
Theorem reset_barrier_maps old addr old_remap m w :
  placement_ok (placement w) -> bar3_remapping = true -> bar3_wf (d_bar3 (w_dev w)) ->
  exists l, bar3_reset_barrier old addr old_remap w = Ok (tt, set_w_xen l w)
    /\ arena_mapped (placement w)
         (page_decision old addr old_remap w)
         (physmap (w_xen w) m) (physmap l m).
Proof.
  intros Hp Hr Hwf.
  assert (W : wp no_error (bar3_reset_barrier old addr old_remap)
    (fun _ => reset_done (page_decision old addr old_remap w) m w arena_pages) w).
  { apply (wp_for _ (reset_done (page_decision old addr old_remap w) m w)).
    - exists (w_xen w). split; [by destruct w|]. split; [|done]. intros j Hj. by destruct (Z.ltb_spec j 0); [lia|].
    - intros k w1 Hk Hd. change (Z.of_nat (Z.to_nat (A3_BAR3_ARENA_SIZE / kPAGE_SIZE))) with arena_pages in Hk.
      apply reset_page_spec; done || lia.
    - intros w'. by change (0 + Z.of_nat (Z.to_nat (A3_BAR3_ARENA_SIZE / kPAGE_SIZE))) with arena_pages. }
  destruct (wp_total _ _ _ W) as ([] & w' & E & l & -> & Hl). exists l. split; [done|].
  eapply arena_mapped_ext; [|exact Hl]. intros j Hj. cbn beta. by rewrite (proj2 (Z.ltb_lt j arena_pages)) by lia.
Qed.
End Reset.

(** ** Concrete instances *)

Lemma sim_placement_ok : placement_ok (@placement sim_platform sim_table_world).
Proof. constructor; vm_compute; intuition congruence. Qed.

Lemma sim_barrier_wf : barrier_wf (c_barrier sim_context).
Proof. apply barrier_table_new_wf; vm_compute; intuition congruence. Qed.

Lemma sim_shadow_pre : shadow_pre sim_table_world.
Proof.
  constructor; [exact sim_placement_ok|reflexivity|exact sim_bar3_wf| |exact sim_barrier_wf].
  intros j. unfold sim_table_world, sim_device. cbn [w_dev d_bar3 db3_small db3_large].
  rewrite !vec_at_make. split; vm_compute; intuition congruence.
Qed.

Lemma bar3_shadow_maps_witness :
  exists w', @bar3_shadow sim_platform 0 sim_table_world = Ok (tt, w') /\ @synced _ sim_pramin w'.
Proof.
  destruct (@bar3_shadow_maps sim_platform sim_pramin sim_pramin_laws 0 (fun _ _ => None) sim_table_world
    sim_shadow_pre) as (w' & E & _ & _ & F); [by vm_compute|].
  exists w'. split; [exact E|]. destruct F as [F _ _]. exact F.
Defined.

Lemma reset_barrier_maps_witness :
  exists l, @bar3_reset_barrier sim_platform 0x3000 0x5000 true sim_table_world
            = Ok (tt, set_w_xen l sim_table_world).
Proof.
  destruct (@reset_barrier_maps sim_platform 0x3000 0x5000 true (fun _ _ => None) sim_table_world
    sim_placement_ok eq_refl sim_bar3_wf) as (l & E & _).
  exists l. exact E.
Defined.
