(* ===== verification/Channel.v ===== *)
(** * Channels ([channel.cc], [channel.h], [bar1_channel.cc], [bar3_channel.cc],
      [instruments.cc])

    A guest channel has a RAMIN page in guest memory; A3 keeps a shadow of it, with the
    addresses in it replaced by host addresses and the page directory replaced by a
    shadow directory, puts the RAMIN page under a write barrier and records which
    channels use it. Channels whose directories coincide share one shadow table. *)

From S2P Require Import Prelude Config Vram PageTable Barrier Sched State Device Tables Shadow Bars Arena Remap.

Section Channel.
Context `{PF : Platform}.

(** ** Instruments *)

Definition instruments_new : instruments_t := Instruments 0 0 0 0.
Definition increment_flush_times (i : instruments_t) : instruments_t :=
  set_in_flush_times (u64 (in_flush_times i + 1)) i.
Definition increment_shadowing_times (i : instruments_t) : instruments_t :=
  set_in_shadowing_times (u64 (in_shadowing_times i + 1)) i.
Definition increment_shadowing (time : Z) (i : instruments_t) : instruments_t :=
  set_in_shadowing (in_shadowing i + time) i.
Definition clear_shadowing_utilization (i : instruments_t) : instruments_t :=
  Instruments 0 0 0 (in_hypercalls i).

(** ** [class channel] *)

(** The constructor; [submitted_] is not initialised. *)
Definition channel_new (id : Z) : M world channel :=
  let! ramin := page_new 1 in
  ret (Channel id false false 0 (u32 uninitialized) (shadow_page_table_new id) ramin
         (vec_make A3_DOMAIN_CHANNELS false) id).

(** [equal_range] on the multimap: the channels registered for a RAMIN page. *)
Definition equal_range (key : Z) (m : list (Z * Z)) : list Z :=
  map snd (filter (fun p => p.1 = key) m).

(** Erases the first element [(key, v)], if there is one. *)
Fixpoint erase_first (key v : Z) (m : list (Z * Z)) : list (Z * Z) :=
  match m with
  | [] => []
  | p :: m' => if (p.1 =? key) && (p.2 =? v) then m' else p :: erase_first key v m'
  end.

(** [detach]: the entry is looked up under the new address. *)
Definition channel_detach (i addr : Z) : M world bool :=
  let! ch := get_channel i in
  let! old_exists := on_barrier (barrier_unmap (ch_ramin_address ch)) in
  mod_ctx (fun c => set_c_ramin_channel_map (erase_first addr i (c_ramin_channel_map c)) c) ;;;
  ret old_exists.

(** [write_shadow_page_table] *)
Definition write_shadow_page_table (i shadow : Z) : M world unit :=
  let! ch := get_channel i in
  write64 (page_write32 (ch_shadow_ramin ch)) 0x0200 shadow.

(** The TLB flush both [shadow] and [flush] issue. *)
Definition flush_directory (shadow : Z) : M world unit :=
  wait_ne 0x100c80 0x00ff0000 0x00000000 ;;;
  reg_write32 0x100cb8 (Z.shiftr shadow 8) ;;;
  reg_write32 0x100cbc (Z.lor 0x80000000 0x1) ;;;
  wait_eq 0x100c80 0x00008000 0x00008000 ;;;
  ret tt.

(** A para-virtual page behind a pointer. *)
Definition pv_deref (name : Z) : M world page :=
  let! h := get_ctx_f c_pv_heap in
  of_option UseAfterFree (h !! name).

(** The copy of the RAMIN page with its addresses translated. *)
Definition copy_ramin (ramin : Z) (shadow : page) : M world unit :=
  for_ (Z.to_nat (0x1000 / 4)) 0 (fun k =>
    let offset := 4 * k in
    let! value := pmem_read32 (u64 (ramin + offset)) in
    page_write32 shadow offset value).

(** [shadow] *)
Definition channel_shadow (i : Z) : M world unit :=
  let! ch := get_channel i in
  let! c := get_ctx_f id in
  let ramin := ch_ramin_address ch in
  let shadow := ch_shadow_ramin ch in
  copy_ramin ramin shadow ;;;
  let! pd :=
    if negb (c_para_virtualized c) then
      let! page_directory_virt := read64 pmem_read32 (u64 (ramin + 0x0200)) in
      let page_directory_phys := get_phys_address (c_id c) page_directory_virt in
      let! page_directory_size := read64 pmem_read32 (u64 (ramin + 0x0208)) in
      write64 (page_write32 shadow) 0x0200 page_directory_phys ;;;
      write64 (page_write32 shadow) 0x0208 page_directory_size ;;;
      ret (page_directory_phys, page_directory_size)
    else ret (0, 0) in
  let! fctx_virt := read64 pmem_read32 (u64 (ramin + 0x08)) in
  write64 (page_write32 shadow) 0x08 (get_phys_address (c_id c) fctx_virt) ;;;
  let! mpeg_ctx_limit_virt := pmem_read32 (u64 (ramin + 0x60 + 0x04)) in
  page_write32 shadow (0x60 + 0x04) (u32 (get_phys_address (c_id c) mpeg_ctx_limit_virt)) ;;;
  let! mpeg_ctx_virt := pmem_read32 (u64 (ramin + 0x60 + 0x08)) in
  page_write32 shadow (0x60 + 0x08) (u32 (get_phys_address (c_id c) mpeg_ctx_virt)) ;;;
  if negb (c_para_virtualized c) then
    let! t := sh_refresh pd.1 pd.2 (ch_table ch) in
    mod_channel i (set_ch_table t) ;;;
    write_shadow_page_table i (shadow_address t) ;;;
    flush_directory (shadow_address t)
  else
    let! pgd := vread (c_pgds c) i in
    match pgd with
    | Some name =>
        let! p := pv_deref name in
        write_shadow_page_table i (address_ p)
    | None => ret tt
    end.

(** [attach] *)
Definition channel_attach (i addr : Z) : M world unit :=
  channel_shadow i ;;;
  let! ch := get_channel i in
  mod_ctx (fun c => set_c_ramin_channel_map
             (channel_map_insert (ch_ramin_address ch, i) (c_ramin_channel_map c)) c) ;;;
  on_barrier (barrier_map (ch_ramin_address ch)) ;;;
  ret tt.

(** [refresh] *)
Definition channel_refresh (i addr : Z) : M world Z :=
  let! ch := get_channel i in
  if ch_enabled ch && (addr =? ch_ramin_address ch) then ret (address_ (ch_shadow_ramin ch))
  else
    let! old_remap :=
      if ch_enabled ch then let! e := channel_detach i addr in ret (negb e) else ret false in
    mod_channel i (fun ch => set_ch_ramin_address addr (set_ch_enabled true ch)) ;;;
    channel_attach i addr ;;;
    bar3_reset_barrier (ch_ramin_address ch) addr old_remap ;;;
    ret (address_ (ch_shadow_ramin ch)).

(** [override_shadow]: [reuse] is the bit set of channel [j]. *)
Definition set_original (j i : Z) (b : bool) : M world unit :=
  let! ch := get_channel j in
  let! v := vwrite (ch_original ch) i b in
  mod_channel j (set_ch_original v).
Definition override_shadow (i shadow j : Z) : M world unit :=
  mod_channel i (set_ch_derived j) ;;;
  set_original j i true ;;;
  write_shadow_page_table i shadow.
Definition is_overridden_shadow (i : Z) (ch : channel) : bool := negb (ch_derived ch =? i).
Definition remove_overridden_shadow (i : Z) : M world unit :=
  let! ch := get_channel i in
  set_original (ch_derived ch) i false ;;;
  mod_channel i (set_ch_derived i) ;;;
  write_shadow_page_table i (shadow_address (ch_table ch)).

(** [generate_original] *)
Definition generate_original (i : Z) : M world unit :=
  let! ch := get_channel i in
  let! v := vwrite (vec_make (vlen (ch_original ch)) false) i true in
  mod_channel i (set_ch_original v).

Definition tlb_flush_needed (i : Z) : M world unit := mod_channel i (set_ch_tlb_flush_needed true).

(** [flush]: the flags of all channels that share the table are cleared; the channel that
    owns it is rescanned with this channel's directory. *)
Definition channel_flush (i : Z) : M world unit :=
  let! ch := get_channel i in
  if negb (ch_tlb_flush_needed ch) then ret tt
  else
    let! owner := get_channel (ch_derived ch) in
    let! origin := for_acc (Z.to_nat (vlen (ch_original owner))) 0 (fun pos origin =>
        if vec_at (ch_original owner) pos then
          mod_channel pos (set_ch_tlb_flush_needed false) ;;;
          let! x := get_channel pos in
          ret (if negb (is_overridden_shadow pos x) then Some pos else origin)
        else ret origin) None in
    let! o := of_option NullDeref origin in
    let! self := get_channel i in
    let! oc := get_channel o in
    let! t := sh_refresh_page_directories (sh_page_directory_address (ch_table self)) (ch_table oc) in
    mod_channel o (set_ch_table t) ;;;
    let! g := gets w_gpu in
    mod_ctx (fun c => set_c_instruments (increment_shadowing (elapsed g) (c_instruments c)) c) ;;;
    flush_directory (shadow_address t).

(** [submit] *)
Definition channel_submit (i : Z) (cmd : command) : M world unit :=
  mod_channel i (set_ch_submitted (value cmd)).

(** ** [class bar1_channel_t] *)

Definition bar1_channel_new (para : bool) : bar1_channel_t :=
  Bar1Channel false 0 (software_page_table_new (u32 (-1)) para kBAR1_ARENA_SIZE).

Definition mod_bar1_channel (f : bar1_channel_t -> bar1_channel_t) : M world unit :=
  mod_ctx (fun c => set_c_bar1_channel (f (c_bar1_channel c)) c).

Definition bar1_channel_shadow : M world unit :=
  let! c := get_ctx_f id in
  if c_para_virtualized c then ret tt
  else
    let b := c_bar1_channel c in
    let! page_directory_virt := read64 pmem_read32 (u64 (b1_ramin_address b + 0x0200)) in
    let page_directory_phys := get_phys_address (c_id c) page_directory_virt in
    let! page_directory_size := read64 pmem_read32 (u64 (b1_ramin_address b + 0x0208)) in
    let! t := st_refresh page_directory_phys page_directory_size (b1_table b) in
    mod_bar1_channel (set_b1_table t).

Definition bar1_channel_refresh (addr : Z) : M world unit :=
  let! b := get_ctx_f c_bar1_channel in
  if b1_enabled b && (addr =? b1_ramin_address b) then ret tt
  else
    when (b1_enabled b) (on_barrier (barrier_unmap (b1_ramin_address b)) ;;; ret tt) ;;;
    mod_bar1_channel (fun b => set_b1_ramin_address addr (set_b1_enabled true b)) ;;;
    bar1_channel_shadow ;;;
    on_barrier (barrier_map addr) ;;;
    ret tt.

(** ** [class bar3_channel_t] *)

Definition bar3_channel_new : bar3_channel_t := Bar3Channel false 0 0.

Definition mod_bar3_channel (f : bar3_channel_t -> bar3_channel_t) : M world unit :=
  mod_ctx (fun c => set_c_bar3_channel (f (c_bar3_channel c)) c).

Definition bar3_channel_refresh_table (addr : Z) : M world unit :=
  mod_bar3_channel (set_b3_page_directory_address addr) ;;;
  bar3_refresh_table addr.

Definition bar3_channel_shadow : M world unit :=
  let! c := get_ctx_f id in
  if c_para_virtualized c then ret tt
  else
    let b := c_bar3_channel c in
    let! page_directory_virt := read64 pmem_read32 (u64 (b3_ramin_address b + 0x0200)) in
    bar3_channel_refresh_table (get_phys_address (c_id c) page_directory_virt).

Definition bar3_channel_refresh (addr : Z) : M world unit :=
  let! b := get_ctx_f c_bar3_channel in
  if b3_enabled b && (addr =? b3_ramin_address b) then ret tt
  else
    when (b3_enabled b) (on_barrier (barrier_unmap (b3_ramin_address b)) ;;; ret tt) ;;;
    mod_bar3_channel (fun b => set_b3_ramin_address addr (set_b3_enabled true b)) ;;;
    bar3_channel_shadow ;;;
    on_barrier (barrier_map addr) ;;;
    ret tt.
End Channel.
