(* ===== verification/Playlist.v ===== *)
(** * Channel status registers and the run list ([pfifo.cc], [playlist.cc])

    The virtual channel [v] of a machine is the physical channel [v + id * 64]. The
    accesses of a machine to the channel table are moved to its physical channels, and the
    run list a machine submits is merged with the enabled channels of the others. *)

From S2P Require Import Prelude Config Vram PageTable Barrier Sched State Device Tables Shadow Bars Arena Remap Channel.

Section Playlist.
Context `{PF : Platform}.

(** ** Shadowed registers ([context::reg32]) *)

Definition get_reg32 (offset : Z) : M world Z :=
  let! v := get_ctx_f c_reg32 in vread v (offset / 4).
Definition set_reg32 (offset x : Z) : M world unit :=
  let! v := get_ctx_f c_reg32 in
  let! v := vwrite v (offset / 4) x in
  mod_ctx (set_c_reg32 v).

(** ** [class pfifo_t] *)

Definition pfifo_new (t : card) : pfifo_t :=
  Pfifo A3_CHANNELS A3_DOMAIN_CHANNELS (if bool_decide (t = NVC0) then 0x003000 else 0x800000).

Definition pfifo_in_range (p : pfifo_t) (offset : Z) : bool :=
  (pf_range p <=? offset) && (offset - pf_range p <=? u32 (pf_total_channels p * 8)).

(** The register of the physical channel. *)
Definition adjusted_offset (c : context) (offset : Z) : Z :=
  let virt_channel_id := u32 (offset - pf_range (c_pfifo c)) / 0x8 in
  u32 (u32 (offset - virt_channel_id * 8) + get_phys_channel_id (c_id c) virt_channel_id * 8).

Definition pfifo_write (cmd : command) : M world unit :=
  let! c := get_ctx_f id in
  let p := c_pfifo c in
  let ramin_area := u32 (offset cmd - pf_range p) mod 0x8 =? 0 in
  let virt_channel_id := u32 (offset cmd - pf_range p) / 0x8 in
  if pf_channels p <=? virt_channel_id then ret tt
  else if ramin_area then
    set_reg32 (offset cmd) (value cmd) ;;;
    let virt := Z.shiftl (bit_mask 28 (value cmd)) 12 in
    let phys := get_phys_address (c_id c) virt in
    let! shadow := channel_refresh virt_channel_id phys in
    let value := u32 (Z.lor (bit_clear 28 (value cmd)) (Z.shiftr shadow 12)) in
    reg_write32 (adjusted_offset c (offset cmd)) value
  else reg_write32 (adjusted_offset c (offset cmd)) (value cmd).

Definition pfifo_read (cmd : command) : M world Z :=
  let! c := get_ctx_f id in
  let p := c_pfifo c in
  assert_ (pfifo_in_range p (offset cmd)) ;;;
  let ramin_area := u32 (offset cmd - pf_range p) mod 0x8 =? 0 in
  let virt_channel_id := u32 (offset cmd - pf_range p) / 0x8 in
  if pf_channels p <=? virt_channel_id then ret 0
  else if ramin_area then get_reg32 (offset cmd)
  else reg_read32 (adjusted_offset c (offset cmd)).

(** ** [struct engine_t] *)

Definition engine_new : engine_t := Engine (vec_make A3_CHANNELS false) (vec_make 2 None) 0.

(** [toggle]: the other of two pages, allocated on first use. *)
Definition engine_toggle (n : Z) (e : engine_t) : M world (page * engine_t) :=
  let cursor := Z.lxor (en_cursor e) 1 in
  let index := Z.land cursor 0x1 in
  let e := set_en_cursor cursor e in
  let! p := vread (en_pages e) index in
  match p with
  | Some p => ret (p, e)
  | None =>
      let! p := page_new n in
      let! v := vwrite (en_pages e) index (Some p) in
      ret (p, set_en_pages v e)
  end.

(** [set]: [std::bitset::set] throws on a position out of range; the position is an
    [int]. *)
Definition engine_set (i : Z) (b : bool) (e : engine_t) : M world engine_t :=
  let! v := of_option Exception (vec_set (en_channels e) i b) in
  ret (set_en_channels v e).

(** ** [playlist_update] *)

(** The entries of the run list in the page: one per enabled channel, in order. *)
Definition write_runlist (p : page) (channels : vec bool) (status : Z) : M world Z :=
  for_acc (Z.to_nat A3_CHANNELS) 0 (fun i phys_count =>
    let! b := vread channels i in
    if (b : bool) then
      page_write32 p (phys_count * 0x8 + 0x0) i ;;;
      page_write32 p (phys_count * 0x8 + 0x4) status ;;;
      ret (phys_count + 1)
    else ret phys_count) 0.

Definition clear_channels (id : Z) (e : engine_t) : M world engine_t :=
  for_acc (Z.to_nat A3_DOMAIN_CHANNELS) 0
    (fun i e => engine_set (get_phys_channel_id id i) false e) e.

Definition read_playlist (id address count : Z) (e : engine_t) : M world engine_t :=
  for_acc (Z.to_nat count) 0 (fun i e =>
    let! vid := pmem_read32 (u64 (address + i * 0x8)) in
    engine_set (get_phys_channel_id id vid) true e) e.

(** [n] is the number of pages of the engine's lists. *)
Definition playlist_update (n : Z) (e : engine_t) (address cmd status : Z) : M world engine_t :=
  let! id := get_ctx_f c_id in
  let! e := clear_channels id e in
  let count := bit_mask 8 cmd in
  if count =? 0 then ret e
  else
    let! r := engine_toggle n e in
    let! e := read_playlist id address count r.2 in
    let! phys_count := write_runlist r.1 (en_channels e) status in
    let phys_cmd := Z.lor (u32 (Z.shiftl (Z.shiftr cmd 20) 20)) phys_count in
    reg_write32 0x2270 (u32 (Z.shiftr (address_ r.1) 12)) ;;;
    reg_write32 0x2274 phys_cmd ;;;
    ret e.

(** [update] of the two implementations of [playlist_t]. *)
Definition playlist_dispatch (address cmd : Z) : M world unit :=
  let! p := get_dev_f d_playlist in
  match p with
  | Nvc0Playlist e =>
      let! e := playlist_update 1 e address cmd 0x4 in
      mod_dev (set_d_playlist (Nvc0Playlist e))
  | Nve0Playlist engines =>
      let eng := Z.shiftr cmd 20 in
      assert_ (eng <? vlen engines) ;;;
      let! e := vread engines eng in
      let! e := playlist_update 8 e address cmd 0x0 in
      let! v := vwrite engines eng e in
      mod_dev (set_d_playlist (Nve0Playlist v))
  end.

(** [device_t::playlist_update]: the parameter is a [uint32_t]. *)
Definition device_playlist_update (address cmd : Z) : M world unit := playlist_dispatch (u32 address) cmd.

(** [context::playlist_update] *)
Definition context_playlist_update (reg_addr cmd : Z) : M world unit :=
  let! id := get_ctx_f c_id in
  device_playlist_update (get_phys_address id (Z.shiftl (bit_mask 28 reg_addr) 12)) cmd.
End Playlist.

(** ** The channel table *)

Record pfifo_wf (p : pfifo_t) : Prop := PfifoWf {
  fw_total : pf_total_channels p = A3_CHANNELS;
  fw_channels : pf_channels p = A3_DOMAIN_CHANNELS;
  fw_range : pf_range p = 0x3000 \/ pf_range p = 0x800000
}.

(** The registers of a machine's channels. *)
Definition pfifo_slice (p : pfifo_t) (id o : Z) : Prop :=
  pf_range p + 8 * (id * A3_DOMAIN_CHANNELS) <= o < pf_range p + 8 * ((id + 1) * A3_DOMAIN_CHANNELS).

Lemma adjusted_offset_spec c o :
  pfifo_wf (c_pfifo c) -> valid_id (c_id c) -> pfifo_in_range (c_pfifo c) o = true ->
  u32 (o - pf_range (c_pfifo c)) = o - pf_range (c_pfifo c) /\ 0 <= o - pf_range (c_pfifo c) <= 1024
  /\ ((o - pf_range (c_pfifo c)) / 8 < A3_DOMAIN_CHANNELS ->
      adjusted_offset c o = o + 8 * (c_id c * A3_DOMAIN_CHANNELS)
      /\ pfifo_slice (c_pfifo c) (c_id c) (adjusted_offset c o)).
Proof.
  intros [Ht Hc Hr] Hid. unfold pfifo_in_range, pfifo_slice, adjusted_offset, get_phys_channel_id, valid_id in *.
  rewrite Ht. consts. change (u32 (128 * 8)) with 1024. intros Hin.
  set (r := pf_range (c_pfifo c)) in *. assert (Hd : 0 <= o - r <= 1024) by lia.
  rewrite (u32_small (o - r)) by lia. split_and!; [done|lia|lia|]. intros Hlt.
  set (q := (o - r) / 8) in *. assert (Hq : 8 * q <= o - r < 8 * q + 8) by (unfold q; zlia).
  assert (Ea : u32 (u32 (o - q * 8) + u32 (q + c_id c * 64) * 8) = o + 8 * (c_id c * 64)).
  { assert (r <= 0x800000) by (destruct Hr as [Hr|Hr]; lia).
    rewrite (u32_small (o - q * 8)), (u32_small (q + c_id c * 64)), u32_small by lia. lia. }
  rewrite Ea. split; [done|]. lia.
Qed.

Section Pfifo.
Context `{PF : Platform}.

End Pfifo.



(** ** The merged run list *)

(** The physical channels of a machine. *)
Definition own_channel (id i : Z) : bool :=
  (id * A3_DOMAIN_CHANNELS <=? i) && (i <? (id + 1) * A3_DOMAIN_CHANNELS).

Lemma seqZ_1 m : seqZ m 1 = [m].
Proof. rewrite seqZ_cons by lia. done. Qed.

(** The enabled channels below [n], in order. *)
Definition enabled (v : vec bool) (n : Z) : list Z := filter (fun i => vec_at v i = true) (seqZ 0 n).

Lemma enabled_succ v n :
  0 <= n -> enabled v (n + 1) = enabled v n ++ (if vec_at v n then [n] else []).
Proof.
  intros Hn. unfold enabled. rewrite seqZ_app, filter_app by lia. f_equal.
  rewrite Z.add_0_l, seqZ_1. rewrite filter_cons. by destruct (vec_at v n).
Qed.

Lemma enabled_length v n : 0 <= n -> Z.of_nat (length (enabled v n)) <= n.
Proof.
  intros Hn. unfold enabled. etrans; [apply inj_le, length_filter|]. rewrite length_seqZ. lia.
Qed.

Section Merge.
Context `{PF : Platform} {PR : Pramin PF} {PL : PraminLaws PF PR}.

Lemma wp_engine_set i b e (Q : engine_t -> world -> Prop) w :
  vlen (en_channels e) = A3_CHANNELS -> 0 <= i < A3_CHANNELS ->
  (forall v, vlen v = A3_CHANNELS -> (forall j, vec_at v j = if j =? i then b else vec_at (en_channels e) j) ->
     Q (set_en_channels v e) w) ->
  wp no_error (engine_set i b e) Q w.
Proof.
  intros Hl Hi HQ. destruct (vec_set_some (en_channels e) i b) as (v & E & Hlv & Hat & Ho); [lia|].
  unfold engine_set. apply wp_bind, (wp_of_option _ _ _ v); [done|]. apply wp_ret, HQ; [lia|].
  intros j. destruct (Z.eqb_spec j i) as [->|]; [done|]. by apply Ho.
Qed.

(** The engine up to its channels. *)
Definition same_engine (e e' : engine_t) : Prop :=
  en_pages e' = en_pages e /\ en_cursor e' = en_cursor e /\ vlen (en_channels e') = A3_CHANNELS.

Lemma clear_channels_spec id e w :
  valid_id id -> vlen (en_channels e) = A3_CHANNELS ->
  wp no_error (clear_channels id e) (fun e' w' => w' = w /\ same_engine e e'
    /\ forall j, vec_at (en_channels e') j = negb (own_channel id j) && vec_at (en_channels e) j) w.
Proof.
  intros Hid Hl. unfold clear_channels, valid_id in *.
  apply (wp_for_acc _ (fun k e' w' => w' = w /\ same_engine e e'
    /\ forall j, vec_at (en_channels e') j =
         negb ((id * A3_DOMAIN_CHANNELS <=? j) && (j <? id * A3_DOMAIN_CHANNELS + k)) && vec_at (en_channels e) j)).
  - split_and!; [done|by split_and!|]. intros j.
    by destruct (Z.leb_spec (id * A3_DOMAIN_CHANNELS) j), (Z.ltb_spec j (id * A3_DOMAIN_CHANNELS + 0)); simpl; try lia.
  - intros k e1 w1 Hk (-> & (Hp & Hc & Hl1) & H1). change (Z.of_nat (Z.to_nat A3_DOMAIN_CHANNELS)) with 64 in Hk.
    assert (get_phys_channel_id id k = id * A3_DOMAIN_CHANNELS + k) as ->
      by (unfold get_phys_channel_id; consts; zlia).
    apply wp_engine_set; [done|consts; lia|]. intros v Hv Hat. split_and!; [done|by split_and!|]. intros j.
    cbn [en_channels set_en_channels]. rewrite Hat, H1. consts. destruct (Z.eqb_spec j (id * 64 + k)) as [->|].
    + by destruct (Z.leb_spec (id * 64) (id * 64 + k)), (Z.ltb_spec (id * 64 + k) (id * 64 + (k + 1))); simpl; try lia.
    + by destruct (Z.leb_spec (id * 64) j), (Z.ltb_spec j (id * 64 + k)), (Z.ltb_spec j (id * 64 + (k + 1)));
        simpl; try lia.
  - intros e' w' (-> & Hs & H). split_and!; [done|done|]. intros j. rewrite H. unfold own_channel.
    change (0 + Z.of_nat (Z.to_nat A3_DOMAIN_CHANNELS)) with A3_DOMAIN_CHANNELS.
    by replace (id * A3_DOMAIN_CHANNELS + A3_DOMAIN_CHANNELS) with ((id + 1) * A3_DOMAIN_CHANNELS) by lia.
Qed.

(** The virtual channels a playlist in memory names. *)
Definition playlist_vids (m : memory) (address count : Z) : list Z :=
  (fun i => load 4 (address + 8 * i) m) <$> seqZ 0 count.

Lemma playlist_vids_succ m address k :
  0 <= k -> playlist_vids m address (k + 1) = playlist_vids m address k ++ [load 4 (address + 8 * k) m].
Proof. intros Hk. unfold playlist_vids. by rewrite seqZ_app, fmap_app, Z.add_0_l, seqZ_1 by lia. Qed.

Lemma read_playlist_spec id address count e w :
  synced w -> valid_id id -> vlen (en_channels e) = A3_CHANNELS -> table_ok address count -> 0 <= count ->
  Forall (fun v => v + id * A3_DOMAIN_CHANNELS < A3_CHANNELS) (playlist_vids (mem w) address count) ->
  wp no_error (read_playlist id address count e) (fun e' w' => quiet w w' /\ same_engine e e'
    /\ forall j, vec_at (en_channels e') j =
         bool_decide (j - id * A3_DOMAIN_CHANNELS ∈ playlist_vids (mem w) address count)
         || vec_at (en_channels e) j) w.
Proof.
  intros Hs Hid Hl Ht Hc Hv. unfold read_playlist.
  apply (wp_for_acc _ (fun k e' w' => quiet w w' /\ same_engine e e'
    /\ forall j, vec_at (en_channels e') j =
         bool_decide (j - id * A3_DOMAIN_CHANNELS ∈ playlist_vids (mem w) address k) || vec_at (en_channels e) j)).
  - split_and!; [by apply quiet_refl|by split_and!|]. intros j. by rewrite bool_decide_false by (by intros ?%elem_of_nil).
  - intros k e1 w1 Hk (Q1 & (Hp & Hcu & Hl1) & H1). rewrite Z2Nat.id in Hk by lia.
    destruct (pair_word _ (table_pair _ _ k Ht ltac:(lia))) as [Hw _]. replace (k * 8) with (8 * k) by lia.
    rewrite u64_small by (destruct Hw; lia). apply wp_bind.
    eapply wp_mono; [apply read32_quiet; [apply Q1|done]|]. intros vid w2 [-> Q2].
    rewrite (quiet_load w w1) by (done || lia). set (vid := load 4 (address + 8 * k) (mem w)).
    assert (Hvid : 0 <= vid /\ vid + id * A3_DOMAIN_CHANNELS < A3_CHANNELS).
    { split; [apply load_range; [lia|intros x; apply vram_bytes_range]|].
      rewrite Forall_forall in Hv. apply Hv. apply list_elem_of_fmap. exists k. split; [done|]. apply elem_of_seqZ. lia. }
    assert (get_phys_channel_id id vid = vid + id * A3_DOMAIN_CHANNELS) as ->
      by (unfold get_phys_channel_id, valid_id in *; consts; zlia).
    apply wp_engine_set; [done|unfold valid_id in *; consts; lia|]. intros v Hlv Hat.
    split_and!; [by eapply quiet_trans|by split_and!|]. intros j. cbn [en_channels set_en_channels].
    rewrite Hat, H1, playlist_vids_succ by lia. fold vid. destruct (Z.eqb_spec j (vid + id * A3_DOMAIN_CHANNELS)) as [->|Hne].
    + rewrite bool_decide_true; [done|]. apply elem_of_app. right. apply list_elem_of_singleton. lia.
    + f_equal. apply bool_decide_ext. rewrite elem_of_app, list_elem_of_singleton. split; [by left|]. intros [?|?]; [done|lia].
  - intros e' w'. by rewrite Z.add_0_l, Z2Nat.id by lia.
Qed.

(** The list [l] of channels is in the page. *)
Definition runlist_at (m : memory) (p : page) (l : list Z) (status : Z) : Prop :=
  forall k i, l !! k = Some i -> entry_at m (address_ p + 8 * Z.of_nat k) = PageEntry i status.

(** Only the first KB of the page, and the cached window, change. *)
Definition runlist_frame (p : page) (w w' : world) : Prop :=
  synced w' /\ pmem_frame w w' /\ forall x, x < address_ p \/ address_ p + 0x400 <= x -> mem w' x = mem w x.

Lemma runlist_at_snoc m m' p l i status :
  runlist_at m p l status -> entry_at m' (address_ p + 8 * Z.of_nat (length l)) = PageEntry i status ->
  entry_written (address_ p + 8 * Z.of_nat (length l)) m m' -> runlist_at m' p (l ++ [i]) status.
Proof using Type.
  intros Hl He Hw k j Hk. apply lookup_app_Some in Hk as [Hk|[Hk1 Hk2]].
  - rewrite <- (Hl k j Hk). apply lookup_lt_Some in Hk. unfold entry_at. f_equal; apply load_ext; [lia| |lia|];
      intros x Hx; apply Hw; lia.
  - apply list_lookup_singleton_Some in Hk2 as [Hk2 ->]. by assert (k = length l) as -> by lia.
Qed.

Lemma write_runlist_spec p v status w :
  synced w -> page_ok p -> vlen v = A3_CHANNELS -> 0 <= status < 2 ^ 32 ->
  wp no_error (write_runlist p v status) (fun n w' =>
    let l := enabled v A3_CHANNELS in
    n = Z.of_nat (length l) /\ runlist_at (mem w') p l status /\ runlist_frame p w w') w.
Proof.
  intros Hs Hp Hl Hst. unfold write_runlist.
  apply (wp_for_acc _ (fun k n w' => n = Z.of_nat (length (enabled v k))
    /\ runlist_at (mem w') p (enabled v k) status /\ runlist_frame p w w')).
  - split_and!; [done|by intros k i|by split_and!].
  - intros k n w1 Hk (-> & Hat & Hs1 & F1 & M1). change (Z.of_nat (Z.to_nat A3_CHANNELS)) with 128 in Hk.
    apply wp_bind, wp_vread; [rewrite Hl; consts; lia|]. rewrite enabled_succ by lia.
    pose proof (enabled_length v k ltac:(lia)) as Hlen. destruct (vec_at v k).
    2:{ apply wp_ret. rewrite app_nil_r. split_and!; [done|done|by split_and!]. }
    rewrite Z.add_0_r. apply wp_bind_assoc, wp_bind. replace (Z.of_nat (length (enabled v k)) * 8)
      with (8 * Z.of_nat (length (enabled v k))) by lia.
    pose proof (po_units _ Hp) as Hu.
    eapply wp_mono; [apply (write_entry_spec p _ (PageEntry k status)); [done|done|lia| |zlia|]|].
    { unfold page_size. lia. }
    { split; cbn [pe_word0 pe_word1]; lia. }
    intros [] w2 (Hs2 & F2 & E2 & W2). apply wp_ret. split_and!.
    + rewrite length_app. simpl. lia.
    + by eapply runlist_at_snoc.
    + split_and!; [done|by etrans|]. intros x Hx. rewrite W2 by lia. by apply M1.
  - intros n w'. by rewrite Z.add_0_l, Z2Nat.id by done.
Qed.

(** The pages of an engine are blocks of the pool. *)
Record engine_ok (e : engine_t) (alloc : list page) : Prop := EngineOk {
  eo_channels : vlen (en_channels e) = A3_CHANNELS;
  eo_pages : vlen (en_pages e) = 2;
  eo_owned : forall i p, vec_at (en_pages e) i = Some p -> p ∈ alloc
}.

Lemma engine_toggle_spec n e alloc w :
  synced w -> pool_ok w alloc -> engine_ok e alloc -> 0 < n < 2 ^ 32 ->
  wp (eq Abort) (engine_toggle n e) (fun r w' => exists alloc', pool_ok w' alloc' /\ r.1 ∈ alloc'
    /\ engine_ok r.2 alloc' /\ en_channels r.2 = en_channels e
    /\ synced w' /\ pool_frame w w' /\ forall x, mem w' x = mem w x) w.
Proof.
  intros Hs Hk [Hc Hp Ho] Hn. unfold engine_toggle. set (i := Z.land _ 1).
  assert (Hi : 0 <= i < 2) by (unfold i; change 1 with (Z.ones 1); rewrite Z.land_ones by lia; zlia).
  apply wp_bind, wp_no_error, wp_vread; [cbn [en_pages set_en_cursor]; lia|]. cbn [en_pages set_en_cursor].
  destruct (vec_at (en_pages e) i) as [p|] eqn:E.
  { apply wp_ret. exists alloc. split_and!; [done|by eapply Ho|by constructor|done|done|done|done]. }
  apply wp_bind. eapply wp_mono; [by apply page_new_spec|].
  intros p w1 (_ & _ & Hk1 & Hs1 & F1 & M1). apply wp_bind, wp_no_error, wp_vwrite; [cbn [en_pages set_en_cursor]; lia|].
  intros v Hl Hat Hov. apply wp_ret. exists (p :: alloc).
  split_and!; [done|by constructor| |done|done|done|done].
  constructor; simpl; [done|simpl in Hl; lia|].
  intros j q Hq. destruct (decide (j = i)) as [->|Hne].
  - rewrite Hat in Hq. injection Hq as <-. by constructor.
  - rewrite Hov in Hq by done. constructor. by eapply Ho.
Qed.

Lemma wp_reg_write32 o v (Q : unit -> world -> Prop) w :
  0 <= o < 2 ^ 32 -> 0 <= v < 2 ^ 32 -> Q tt (set_w_gpu (mmio_write 0 o v 4 (w_gpu w)) w) ->
  wp no_error (reg_write32 o v) Q w.
Proof using Type.
  intros Ho Hv HQ. apply wp_device_write; [done|done|]. rewrite !u32_small by lia.
  change (2 ^ (8 * 4)) with (2 ^ 32). by rewrite Z.mod_small by lia.
Qed.

(** What the merge of a machine's list leaves: its own channels as listed, the others as they
    were, and a page with all enabled channels handed to the GPU. *)
Definition merged (id : Z) (vids : list Z) (old new : vec bool) : Prop :=
  forall j, vec_at new j =
    if own_channel id j then bool_decide (j - id * A3_DOMAIN_CHANNELS ∈ vids) else vec_at old j.
Definition runlist_submitted (m : memory) (channels : vec bool) (cmd status : Z) (g' : gpu) : Prop :=
  exists p g, let l := enabled channels A3_CHANNELS in
    runlist_at (vram_bytes g) p l status
    /\ (forall x, x < address_ p \/ address_ p + 0x400 <= x -> vram_bytes g x = m x)
    /\ g' = mmio_write 0 0x2274 (Z.lor (Z.shiftl (Z.shiftr cmd 20) 20) (Z.of_nat (length l))) 4
              (mmio_write 0 0x2270 (Z.shiftr (address_ p) 12) 4 g).

Lemma submit_runlist_spec p e cmd status m w :
  synced w -> page_ok p -> vlen (en_channels e) = A3_CHANNELS -> 0 <= cmd < 2 ^ 32 -> 0 <= status < 2 ^ 32 ->
  (forall x, mem w x = m x) ->
  wp no_error
    (let! phys_count := write_runlist p (en_channels e) status in
     let phys_cmd := Z.lor (u32 (Z.shiftl (Z.shiftr cmd 20) 20)) phys_count in
     reg_write32 0x2270 (u32 (Z.shiftr (address_ p) 12)) ;;;
     reg_write32 0x2274 phys_cmd ;;;
     ret e)
    (fun e' w' => e' = e /\ runlist_submitted m (en_channels e) cmd status (w_gpu w')) w.
Proof.
  intros Hs Hp Hl Hcmd Hst Hm. apply wp_bind.
  eapply wp_mono; [by apply write_runlist_spec|]. intros n w1 (-> & R1 & Hs1 & F1 & M1).
  destruct Hp as [_ Hpb Hpu Hpe]. unfold page_size in Hpe.
  pose proof (enabled_length (en_channels e) A3_CHANNELS ltac:(done) : _ <= 128) as Hlen.
  assert (Hsh : 0 <= Z.shiftl (Z.shiftr cmd 20) 20 < 2 ^ 32).
  { rewrite Z.shiftl_mul_pow2, Z.shiftr_div_pow2 by lia. zlia. }
  assert (Hpc : 0 <= Z.lor (Z.shiftl (Z.shiftr cmd 20) 20) (Z.of_nat (length (enabled (en_channels e) A3_CHANNELS))) < 2 ^ 32).
  { apply lor_range; [lia|done|lia]. }
  assert (Hadr : 0 <= Z.shiftr (address_ p) 12 < 2 ^ 32) by (rewrite Z.shiftr_div_pow2 by lia; zlia).
  cbn zeta. rewrite !u32_small by lia.
  apply wp_bind, wp_reg_write32; [lia|done|]. apply wp_bind, wp_reg_write32; [lia|done|]. apply wp_ret.
  split; [done|]. exists p, (w_gpu w1). split_and!; [exact R1| |done].
  intros x Hx. rewrite <- Hm. by apply M1.
Qed.

Lemma playlist_update_spec n e address cmd status alloc w :
  let id := c_id (w_ctx w) in
  let count := cmd mod 256 in
  let vids := playlist_vids (mem w) address count in
  synced w -> valid_id id -> pool_ok w alloc -> engine_ok e alloc -> 0 < n < 2 ^ 32 ->
  0 <= cmd < 2 ^ 32 -> count <> 0 -> 0 <= status < 2 ^ 32 -> table_ok address count ->
  Forall (fun v => v + id * A3_DOMAIN_CHANNELS < A3_CHANNELS) vids ->
  wp (eq Abort) (playlist_update n e address cmd status) (fun e' w' =>
    (forall j, vec_at (en_channels e') j =
       bool_decide (j - id * A3_DOMAIN_CHANNELS ∈ vids) || negb (own_channel id j) && vec_at (en_channels e) j)
    /\ runlist_submitted (mem w) (en_channels e') cmd status (w_gpu w')) w.
Proof.
  intros id count vids Hs Hid Hk He Hn Hcmd Hcnt Hst Ht Hv.
  unfold playlist_update. apply wp_bind, wp_gets. fold id. apply wp_bind.
  eapply wp_mono; [apply wp_no_error, clear_channels_spec; [done|apply He]|].
  intros e1 w1 (-> & (Ep & Ec & El) & H1). rewrite (bit_mask_mod 8) by lia. change (2 ^ 8) with 256. fold count.
  rewrite (proj2 (Z.eqb_neq count 0) Hcnt). apply wp_bind.
  eapply wp_mono; [apply (engine_toggle_spec n e1 alloc); [done|done| |done]|].
  { constructor; [done|rewrite Ep; apply He|rewrite Ep; apply He]. }
  intros [p e2] w2 (al2 & Hk2 & Hp2 & He2 & Ech2 & Hs2 & F2 & M2). cbn [fst snd] in *.
  assert (Hvids : playlist_vids (mem w2) address count = vids).
  { unfold vids, playlist_vids. apply list_fmap_ext. intros _ i _. by apply load_ext; [lia|intros x _]. }
  apply wp_bind. eapply wp_mono; [apply wp_no_error, read_playlist_spec;
    [done|done|apply He2|done|unfold count; zlia|by rewrite Hvids]|].
  rewrite Hvids. intros e3 w3 (Q3 & (_ & _ & El3) & H3). rewrite Ech2 in H3.
  eapply wp_mono; [apply wp_no_error, submit_runlist_spec;
    [apply Q3|by eapply block_page_ok|done|done|done|intros x; rewrite (qu_mem _ _ Q3); apply M2]|].
  intros e' w' [-> Hsub]. split; [|done]. intros j. by rewrite H3, H1.
Qed.

Lemma playlist_vids_nonneg (w : world) address count :
  Forall (fun v => 0 <= v) (playlist_vids (mem w) address count).
Proof.
  rewrite Forall_forall. intros v (i & -> & _)%list_elem_of_fmap.
  apply load_range; [lia|]. intros x. apply vram_bytes_range.
Qed.

Lemma merged_own id vids old new :
  0 <= id -> Forall (fun v => 0 <= v < A3_DOMAIN_CHANNELS) vids ->
  (forall j, vec_at new j =
     bool_decide (j - id * A3_DOMAIN_CHANNELS ∈ vids) || negb (own_channel id j) && vec_at old j) ->
  merged id vids old new.
Proof.
  intros Hid Hv H j. rewrite H. destruct (own_channel id j) eqn:Ho; simpl; [apply orb_false_r|].
  rewrite bool_decide_false; [done|]. intros Hin. rewrite Forall_forall in Hv. apply Hv in Hin.
  revert Ho. unfold own_channel. consts. lia.
Qed.

(** Merging the run list of a machine, for any list whose physical channels exist. The
    listed channels are enabled, the machine's other channels disabled, and all others
    kept; so when the list names virtual channels below 64 the channels of the other
    machines are not touched - and a list with a higher number, which nothing refuses,
    enables one of theirs. The GPU gets a page that lists all enabled channels of all
    machines in increasing order, and their number. The only failure is exhaustion of the
    pool. *)
Theorem playlist_update_merges n e address cmd status alloc w :
  let id := c_id (w_ctx w) in
  let count := cmd mod 256 in
  let vids := playlist_vids (mem w) address count in
  synced w -> valid_id id -> pool_ok w alloc -> engine_ok e alloc -> 0 < n < 2 ^ 32 ->
  0 <= cmd < 2 ^ 32 -> count <> 0 -> 0 <= status < 2 ^ 32 -> table_ok address count ->
  Forall (fun v => v + id * A3_DOMAIN_CHANNELS < A3_CHANNELS) vids ->
  match playlist_update n e address cmd status w with
  | Ok (e', w') =>
      (forall j, vec_at (en_channels e') j =
         bool_decide (j - id * A3_DOMAIN_CHANNELS ∈ vids) || negb (own_channel id j) && vec_at (en_channels e) j)
      /\ (Forall (fun v => v < A3_DOMAIN_CHANNELS) vids -> merged id vids (en_channels e) (en_channels e'))
      /\ runlist_submitted (mem w) (en_channels e') cmd status (w_gpu w')
  | Err err => err = Abort
  end.
Proof.
  intros id count vids Hs Hid Hk He Hn Hcmd Hcnt Hst Ht Hv.
  pose proof (playlist_update_spec n e address cmd status alloc w Hs Hid Hk He Hn Hcmd Hcnt Hst Ht Hv) as W.
  unfold wp in W. destruct (playlist_update n e address cmd status w) as [[e' w']|err]; [|by symmetry].
  destruct W as [H Hsub]. split_and!; [done| |done]. intros Hown. apply merged_own; [apply Hid| |done].
  pose proof (playlist_vids_nonneg w address count) as H0. rewrite !Forall_forall in *. intros v Hin.
  split; [by apply H0|by apply Hown].
Qed.
End Merge.

(** ** Concrete instances *)

Definition sim_playlist_world (vids : list (Z * Z)) : @world sim_platform :=
  @World sim_platform (SimGpu (foldr (fun p m => sim_store 4 p.1 p.2 m) ∅ vids) 0 ∅)
    (set_d_vram sim_pool sim_device) sim_context [].

Lemma sim_engine_ok : engine_ok engine_new [sim_phys].
Proof. constructor; [done|done|]. intros i p. unfold engine_new. simpl. by rewrite vec_at_make. Qed.

(** The first machine lists one of its channels and one of the second machine's. *)
Lemma playlist_update_merges_witness :
  let w := sim_playlist_world [(0x30000, 3); (0x30008, 70)] in
  match @playlist_update sim_platform 1 engine_new 0x30000 2 4 w with
  | Ok (e', w') => vec_at (en_channels e') 3 = true /\ vec_at (en_channels e') 70 = true
      /\ own_channel 1 70 = true
      /\ @runlist_submitted _ sim_pramin (@mem _ sim_pramin w) (en_channels e') 2 4 (w_gpu w')
  | Err err => err = Abort
  end.
Proof.
  intros w.
  pose proof (@playlist_update_merges sim_platform sim_pramin sim_pramin_laws 1 engine_new 0x30000 2 4 [sim_phys] w) as H.
  cbv zeta in H. destruct (playlist_update 1 engine_new 0x30000 2 4 w) as [[e' w']|err].
  - destruct H as (H & _ & Hs).
    1-10: first [reflexivity | lia | exact sim_engine_ok | (constructor; [exact sim_pool_inv|reflexivity|reflexivity])
      | (repeat constructor; vm_compute; reflexivity) | (by vm_compute)].
    rewrite !H. split_and!; [by vm_compute..|exact Hs].
  - apply H; first [reflexivity | lia | exact sim_engine_ok | (constructor; [exact sim_pool_inv|reflexivity|reflexivity])
      | (repeat constructor; vm_compute; reflexivity) | (by vm_compute)].
Defined.
