(* ===== verification/Context.v ===== *)
(** * The context of a virtual machine ([context.cc], [context_bar0.cc],
      [context_bar1.cc], [context_bar3.cc], [context_barrier.cc])

    The handlers of a guest's accesses to the BARs of its virtual GPU: the registers A3
    shadows or rewrites, the windows on video memory, the control areas, TLB flushes, and
    the write barrier that keeps shadow RAMIN pages in step. *)

From S2P Require Import Prelude Config Vram PageTable Barrier Sched State Device Tables Shadow Bars Arena Remap Channel Playlist.

Section Context_.
Context `{PF : Platform}.

(** [buffer()->value = v] *)
Definition set_buffer (v : Z) : M world unit := mod_ctx (set_c_buffer (u32 v)).

(** [pmem.write] and [pmem.read] of the accessor. *)
Definition pmem_write (addr val size : Z) : M world unit := write_pmem (u64 addr) val size.
Definition pmem_read (addr size : Z) : M world Z := read_pmem (u64 addr) size.

(** ** Write barriers ([context_barrier.cc]) *)

Definition write_barrier (addr : Z) (cmd : command) : M world unit :=
  let page := bit_clear kPAGE_BITS addr in
  let rest := addr - page in
  let! m := get_ctx_f c_ramin_channel_map in
  for_each (equal_range page m) (fun i =>
    when (negb (value cmd =? 0) && lazy_shadowing) (channel_flush i) ;;;
    let! ch := get_channel i in
    page_write (ch_shadow_ramin ch) rest (value cmd) (size cmd)) ;;;
  let! b3 := get_ctx_f c_bar3_channel in
  when (page =? b3_ramin_address b3) bar3_channel_shadow ;;;
  let! b1 := get_ctx_f c_bar1_channel in
  when (page =? b1_ramin_address b1) bar1_channel_shadow.

(** [read_barrier] only logs. *)
Definition read_barrier (addr : Z) (cmd : command) : M world unit := ret tt.

(** The access to video memory behind BAR1, BAR3 and the PRAMIN window: the write goes
    through and is reported when the page is under a barrier. *)
Definition write_gphys (gphys : Z) (cmd : command) : M world unit :=
  pmem_write gphys (value cmd) (size cmd) ;;;
  let! l := on_barrier (barrier_lookup gphys false) in
  when l.1 (write_barrier gphys cmd).
Definition read_gphys (gphys : Z) (cmd : command) : M world unit :=
  let! v := pmem_read gphys (size cmd) in
  set_buffer v ;;;
  let! l := on_barrier (barrier_lookup gphys false) in
  when l.1 (read_barrier gphys cmd).

(** ** BAR1 ([context_bar1.cc]) *)

(** [device_t::fire] hands the command to the scheduler. *)
Definition device_fire (cmd : command) : M world unit :=
  let! self := get_ctx_f c_self in
  on_sched (sched_enqueue self cmd).

Definition write_bar1 (cmd : command) : M world unit :=
  let! c := get_ctx_f id in
  if poll_area_in_range c (offset cmd) then
    let res := extract_channel_and_offset c (offset cmd) in
    if res.2 =? 0x8C then
      when (negb (c_para_virtualized c) && lazy_shadowing) (channel_flush res.1) ;;;
      channel_submit res.1 cmd ;;;
      device_fire cmd
    else bar1_write cmd
  else
    match st_resolve (offset cmd) (b1_table (c_bar1_channel c)) with
    | Some r => write_gphys r.1 cmd
    | None => ret tt
    end.

Definition read_bar1 (cmd : command) : M world unit :=
  let! c := get_ctx_f id in
  if poll_area_in_range c (offset cmd) then
    let res := extract_channel_and_offset c (offset cmd) in
    if res.2 =? 0x8C then
      let! ch := get_channel res.1 in
      set_buffer (ch_submitted ch)
    else
      let! v := bar1_read cmd in
      set_buffer v
  else
    match st_resolve (offset cmd) (b1_table (c_bar1_channel c)) with
    | Some r => read_gphys r.1 cmd
    | None => set_buffer 0xFFFFFFFF
    end.

(** ** BAR3 ([context_bar3.cc]) *)

Definition write_bar3 (cmd : command) : M world unit :=
  let! b := get_dev_f d_bar3 in
  let! c := get_ctx_f id in
  match bar3_resolve c b (offset cmd) with
  | Some r => write_gphys r.1 cmd
  | None => ret tt
  end.

Definition read_bar3 (cmd : command) : M world unit :=
  let! b := get_dev_f d_bar3 in
  let! c := get_ctx_f id in
  match bar3_resolve c b (offset cmd) with
  | Some r => read_gphys r.1 cmd
  | None => set_buffer 0xFFFFFFFF
  end.

(** ** TLB flushes ([context.cc]) *)

Definition flush_without_check (pd engine : Z) : M world bool :=
  let! b := wait_ne 0x100c80 0x00ff0000 0x00000000 in
  if negb b then ret false
  else
    reg_write32 0x100cb8 (u32 (Z.shiftr pd 8)) ;;;
    reg_write32 0x100cbc (Z.lor 0x80000000 engine) ;;;
    ret true.

Definition context_flush (pd : Z) (bar : bool) : M world bool :=
  let engine := if bar then Z.lor 1 4 else 1 in
  let! b := flush_without_check pd engine in
  if negb b then ret false
  else wait_eq 0x100c80 0x00008000 0x00008000.

(** The loop over the channels: the first one that uses the directory is rescanned, the
    others share its shadow table. The local state is [already] and the channel whose
    bit set [reuse] points to. *)
Definition flush_tlb_channel (page_directory i : Z) (s : Z * Z) : M world (Z * Z) :=
  let! ch := get_channel i in
  if ch_enabled ch && (sh_page_directory_address (ch_table ch) =? page_directory) then
    tlb_flush_needed i ;;;
    if negb (s.1 =? 0) then override_shadow i s.1 s.2 ;;; ret s
    else
      when (is_overridden_shadow i ch) (remove_overridden_shadow i) ;;;
      let! ch := get_channel i in
      let! t := allocate_shadow_address (ch_table ch) in
      mod_channel i (set_ch_table t) ;;;
      generate_original i ;;;
      when (negb lazy_shadowing) (channel_flush i) ;;;
      ret (shadow_address t, i)
  else ret s.

Definition flush_tlb (vspace trigger : Z) : M world unit :=
  let! c := get_ctx_f id in
  let page_directory := get_phys_address (c_id c) (bit_mask 40 (Z.shiftl vspace 8)) in
  when (st_page_directory_address (b1_table (c_bar1_channel c)) =? page_directory)
    (let! t := st_refresh_page_directories page_directory (b1_table (c_bar1_channel c)) in
     mod_bar1_channel (set_b1_table t) ;;;
     bar1_shadow ;;;
     bar1_flush) ;;;
  let! b3 := get_ctx_f c_bar3_channel in
  when (b3_page_directory_address b3 =? page_directory)
    (bar3_channel_refresh_table page_directory ;;;
     bar3_shadow page_directory ;;;
     bar3_flush) ;;;
  let! s := for_acc (Z.to_nat A3_DOMAIN_CHANNELS) 0 (flush_tlb_channel page_directory) (0, 0) in
  when (negb (s.1 =? 0))
    (reg_write32 0x100cb8 (u32 (Z.shiftr s.1 8)) ;;;
     reg_write32 0x100cbc trigger).

(** ** PCOPY channel instances ([context_bar0.cc]) *)

(** [shadow_ramin_to_phys]: the first enabled channel with this shadow page. *)
Definition shadow_ramin_to_phys (shadow : Z) : M world (option Z) :=
  for_acc (Z.to_nat A3_DOMAIN_CHANNELS) 0 (fun i r =>
    match r with
    | Some _ => ret r
    | None =>
        let! ch := get_channel i in
        ret (if ch_enabled ch && (address_ (ch_shadow_ramin ch) =? shadow)
             then Some (ch_ramin_address ch) else None)
    end) None.

Definition decode_to_virt_ramin (value : Z) : M world Z :=
  if value =? 0 then ret value
  else
    let shadow := Z.shiftl (bit_mask 28 value) 12 in
    let! phys := shadow_ramin_to_phys shadow in
    let! id := get_ctx_f c_id in
    match phys with
    | Some phys => ret (u32 (Z.lor (bit_clear 28 value) (Z.shiftr (get_virt_address id phys) 12)))
    | None => ret 0
    end.

Definition encode_to_shadow_ramin (value : Z) : M world Z :=
  if value =? 0 then ret value
  else
    let! c := get_ctx_f id in
    let virt := Z.shiftl (bit_mask 28 value) 12 in
    let phys := get_phys_address (c_id c) virt in
    match equal_range phys (c_ramin_channel_map c) with
    | [] => ret value
    | i :: _ =>
        when lazy_shadowing (channel_flush i) ;;;
        let! ch := get_channel i in
        ret (u32 (Z.lor (bit_clear 28 value) (Z.shiftr (address_ (ch_shadow_ramin ch)) 12)))
    end.
End Context_.
