(* ===== verification/Bar0.v ===== *)
(** * Register accesses of a guest ([context_bar0.cc])

    BAR0 holds the registers of the GPU. Some A3 only remembers, some it rewrites and
    forwards, some start an operation of A3; the PRAMIN window is moved to the partition
    of the machine; everything else goes to the hardware unchanged. *)

From S2P Require Import Prelude Config Vram PageTable Barrier Sched State Device Tables Shadow Bars Arena Remap Channel Playlist Context.

Section Bar0.
Context `{PF : Platform}.

(** ** Writes *)

(** [0x001704] and [0x001714]: the BAR1 and BAR3 channels. *)
Definition write_bar1_channel (cmd : command) : M world unit :=
  let! id := get_ctx_f c_id in
  set_reg32 (offset cmd) (value cmd) ;;;
  let virt := Z.shiftl (bit_mask 28 (value cmd)) 12 in
  bar1_channel_refresh (get_phys_address id virt) ;;;
  let! b := get_dev_f d_bar1 in
  bar1_refresh b.
Definition write_bar3_channel (cmd : command) : M world unit :=
  let! id := get_ctx_f c_id in
  set_reg32 (offset cmd) (value cmd) ;;;
  let virt := Z.shiftl (bit_mask 28 (value cmd)) 12 in
  bar3_channel_refresh (get_phys_address id virt) ;;;
  let! b := get_dev_f d_bar3 in
  bar3_refresh b.

(** [0x002254]: the poll area. *)
Definition write_poll_area (cmd : command) : M world unit :=
  mod_ctx (fun c => set_c_poll_area
    (set_pa_area (Z.shiftl (bit_mask 28 (value cmd)) 12) (c_poll_area c)) c) ;;;
  set_reg32 (offset cmd) (value cmd) ;;;
  bar1_refresh_poll_area.

(** [0x002274]: the length of the playlist starts its update. *)
Definition write_playlist_len (cmd : command) : M world unit :=
  set_reg32 (offset cmd) (value cmd) ;;;
  let! a := get_reg32 0x2270 in
  let! l := get_reg32 0x2274 in
  context_playlist_update a l.

(** [0x002634]: killing a channel. *)
Definition write_channel_kill (cmd : command) : M world unit :=
  if A3_DOMAIN_CHANNELS <=? value cmd then ret tt
  else
    let! id := get_ctx_f c_id in
    let phys := get_phys_channel_id id (value cmd) in
    reg_write32 (offset cmd) phys ;;;
    wait_eq 0x002634 0xffffffff phys ;;;
    set_reg32 (offset cmd) (value cmd).

(** [0x100cbc]: the trigger of a TLB flush. *)
Definition write_flush_trigger (cmd : command) : M world unit :=
  set_reg32 (offset cmd) (value cmd) ;;;
  let! vspace := get_reg32 0x100cb8 in
  let! trigger := get_reg32 0x100cbc in
  flush_tlb vspace trigger.

(** The PCOPY channel instances. *)
Definition write_pcopy (cmd : command) : M world unit :=
  let! value := encode_to_shadow_ramin (value cmd) in
  reg_write32 (offset cmd) value.

(** [0x400200] and [0x404488]: the remembered argument is written first. *)
Definition write_pair (arg : Z) (cmd : command) : M world unit :=
  let! a := get_reg32 arg in
  reg_write32 arg a ;;;
  reg_write32 (offset cmd) (value cmd).

(** [0x409504]: a command for the graphics engine whose argument may be a channel. *)
Definition write_wrcmd (cmd : command) : M world unit :=
  set_reg32 (offset cmd) (value cmd) ;;;
  let! data := get_reg32 0x409500 in
  let! c := get_ctx_f id in
  let fire data :=
    reg_write32 0x409500 data ;;;
    reg_write32 0x409504 (value cmd) in
  if bit_check 31 data then
    let virt := Z.shiftl (bit_mask 28 data) 12 in
    let phys := get_phys_address (c_id c) virt in
    let data := u32 (Z.lor (bit_clear 28 data) (Z.shiftr phys 12)) in
    match equal_range phys (c_ramin_channel_map c) with
    | [] => fire (u32 (Z.lor (bit_clear 28 data) (Z.shiftr phys 12)))
    | l => for_each l (fun i =>
        let! ch := get_channel i in
        let res := u32 (Z.lor (bit_clear 28 data) (Z.shiftr (address_ (ch_shadow_ramin ch)) 12)) in
        when lazy_shadowing (channel_flush i) ;;;
        fire res)
    end
  else fire data.

(** [0x4188b4] and [0x4188b8]: an address in units of 256 bytes. *)
Definition write_gpc_bcast (cmd : command) : M world unit :=
  let! id := get_ctx_f c_id in
  set_reg32 (offset cmd) (value cmd) ;;;
  let phys := get_phys_address id (Z.shiftl (value cmd) 8) in
  reg_write32 (offset cmd) (u32 (Z.shiftr phys 8)).

(** [0x610010] *)
Definition write_pdisplay (cmd : command) : M world unit :=
  let! id := get_ctx_f c_id in
  set_reg32 (offset cmd) (value cmd) ;;;
  reg_write32 (offset cmd) (u32 (value cmd + Z.shiftr (get_address_shift id) 8)).

(** The address behind the PRAMIN window of the machine. *)
Definition pramin_address (id base_reg offset : Z) : Z :=
  u64 (get_phys_address id (Z.shiftl base_reg 16) + (offset - 0x700000)).

(** What is left after the switch. *)
Definition write_bar0_rest (cmd : command) : M world unit :=
  let! c := get_ctx_f id in
  if (0x700000 <=? offset cmd) && (offset cmd <? 0x800000) then
    let! base := get_reg32 0x1700 in
    write_gphys (pramin_address (c_id c) base (offset cmd)) cmd
  else if pfifo_in_range (c_pfifo c) (offset cmd) then pfifo_write cmd
  else reg_write (offset cmd) (value cmd) (size cmd).

Definition one_of (o : Z) (l : list Z) : bool := existsb (Z.eqb o) l.

Definition write_bar0 (cmd : command) : M world unit :=
  let o := offset cmd in
  if o =? 0x001700 then set_reg32 o (value cmd)
  else if o =? 0x001704 then write_bar1_channel cmd
  else if o =? 0x001714 then write_bar3_channel cmd
  else if o =? 0x002254 then write_poll_area cmd
  else if o =? 0x002270 then set_reg32 o (value cmd)
  else if o =? 0x002274 then write_playlist_len cmd
  else if o =? 0x00227c then write_bar0_rest cmd
  else if o =? 0x002634 then write_channel_kill cmd
  else if o =? 0x070000 then reg_write32 o (value cmd)
  else if o =? 0x022438 then ret tt
  else if o =? 0x100cb8 then set_reg32 o (value cmd)
  else if o =? 0x100cbc then write_flush_trigger cmd
  else if o =? 0x100c80 then write_bar0_rest cmd
  else if one_of o [0x104050; 0x104054; 0x105050; 0x105054] then write_pcopy cmd
  else if o =? 0x121c75 then ret tt
  else if o =? 0x400204 then set_reg32 o (value cmd)
  else if o =? 0x400200 then write_pair 0x400204 cmd
  else if o =? 0x40448c then set_reg32 o (value cmd)
  else if o =? 0x404488 then write_pair 0x40448c cmd
  else if o =? 0x409500 then set_reg32 o (value cmd)
  else if o =? 0x409504 then write_wrcmd cmd
  else if o =? 0x409b00 then ret tt
  else if o =? 0x4188b4 then write_gpc_bcast cmd
  else if o =? 0x4188b8 then write_gpc_bcast cmd
  else if o =? 0x610010 then write_pdisplay cmd
  else write_bar0_rest cmd.

(** ** Reads *)

Definition read_shadowed (cmd : command) : M world unit :=
  let! v := get_reg32 (offset cmd) in set_buffer v.

(** The registers that describe the memory controllers. *)
Definition memctl_size (o : Z) : bool :=
  ((0x110200 <=? o) && (o <? 0x110200 + 0x1000 * 6) || (o =? 0x10f20c))
  && one_of o [0x11020c; 0x11120c; 0x11220c; 0x11320c; 0x11420c; 0x11520c; 0x11620c; 0x10f20c].

Definition read_bar0_rest (cmd : command) : M world unit :=
  let! c := get_ctx_f id in
  if (0x700000 <=? offset cmd) && (offset cmd <? 0x800000) then
    let! base := get_reg32 0x1700 in
    read_gphys (pramin_address (c_id c) base (offset cmd)) cmd
  else if pfifo_in_range (c_pfifo c) (offset cmd) then
    let! v := pfifo_read cmd in set_buffer v
  else if memctl_size (offset cmd) then set_buffer (Z.shiftr A3_MEMORY_CTL_PART 20)
  else let! v := reg_read (offset cmd) (size cmd) in set_buffer v.

Definition read_pcopy (cmd : command) : M world unit :=
  let! r := reg_read32 (offset cmd) in
  let! v := decode_to_virt_ramin r in
  set_buffer v.

Definition read_graph_irq (cmd : command) : M world unit :=
  let! id := get_ctx_f c_id in
  let! v := reg_read32 (offset cmd) in
  set_buffer (v - Z.shiftr (get_address_shift id) 12).

Definition read_bar0 (cmd : command) : M world unit :=
  let o := offset cmd in
  if one_of o [0x001700; 0x001704; 0x001714; 0x002254; 0x002270] then read_shadowed cmd
  else if o =? 0x002274 then read_bar0_rest cmd
  else if o =? 0x002634 then read_shadowed cmd
  else if o =? 0x070000 then let! v := reg_read32 o in set_buffer v
  else if o =? 0x022438 then set_buffer A3_MEMORY_CTL_NUM
  else if one_of o [0x100cb8; 0x100cbc] then read_shadowed cmd
  else if one_of o [0x104050; 0x104054; 0x105050; 0x105054] then read_pcopy cmd
  else if o =? 0x121c74 then set_buffer A3_MEMORY_CTL_NUM
  else if one_of o [0x409500; 0x409504] then read_shadowed cmd
  else if o =? 0x409b00 then read_graph_irq cmd
  else if one_of o [0x4188b4; 0x4188b8; 0x610010] then read_shadowed cmd
  else read_bar0_rest cmd.
End Bar0.
