(* ===== verification/Pv.v ===== *)
(** * Para-virtual calls ([context_bar4.cc], [pv_page.h], [pv_slot.h])

    A para-virtualized guest manages its page tables with calls: it fills a slot of a
    shared page and writes the slot's number to BAR4. A3 allocates table pages, keeps them
    under identifiers, and writes translated entries into them. *)

From S2P Require Import Prelude Config Vram PageTable Barrier Sched State Device Tables Shadow Bars Arena Remap Channel Playlist Context Bar0.

Section Pv.
Context `{PF : Platform}.

(** [enum pv_ops_t] *)
Inductive pv_ops_t : Type :=
| SET_PGD | MAP_PGT | MAP | MAP_BATCH | MAP_SG_BATCH | UNMAP_BATCH | VM_FLUSH
| MEM_ALLOC | MEM_FREE | BAR3_PGT.

Definition pv_op (b : Z) : option pv_ops_t :=
  nth_error [SET_PGD; MAP_PGT; MAP; MAP_BATCH; MAP_SG_BATCH; UNMAP_BATCH; VM_FLUSH;
             MEM_ALLOC; MEM_FREE; BAR3_PGT] (Z.to_nat b).

(** [-errno] as the guest reads it. *)
Definition EINVAL : Z := 22.
Definition ERANGE : Z := 34.

(** ** The slot ([struct slot_t]) *)

Definition slot_words : Z := NOUVEAU_PV_SLOT_SIZE / 4.

(** [slot->u32[i]]; an index outside the slot is undefined behaviour. *)
Definition slot_u32 (pos i : Z) : M world Z :=
  let! g := get_ctx_f c_guest in
  let! v := of_option NullDeref g in
  if i <? slot_words then vread v (pos * slot_words + i) else fail OutOfBounds.
Definition slot_u8_0 (pos : Z) : M world Z := let! v := slot_u32 pos 0 in ret (u8 v).
Definition slot_u64 (pos i : Z) : M world Z :=
  let! lo := slot_u32 pos (2 * i) in
  let! hi := slot_u32 pos (2 * i + 1) in
  ret (Z.lor lo (Z.shiftl hi 32)).
Definition slot_set_u32 (pos i x : Z) : M world unit :=
  let! g := get_ctx_f c_guest in
  let! v := of_option NullDeref g in
  let! v := vwrite v (pos * slot_words + i) (u32 x) in
  mod_ctx (set_c_guest (Some v)).

(** ** Pages ([class pv_page]) *)

Definition pv_page_id (p : page) : Z := Z.lor (u32 (Z.shiftr (address_ p) 12)) (Z.shiftl 1 28).

(** [lookup_by_pv_id]: the pointer, or null. *)
Definition lookup_by_pv_id (id : Z) : M world (option Z) :=
  let! a := get_ctx_f c_allocated in ret (a !! id).

(** The pointer the call needs, or [-EINVAL]. *)
Definition with_pv_id (id : Z) (k : Z -> M world Z) : M world Z :=
  let! p := lookup_by_pv_id id in
  match p with Some name => k name | None => ret (- EINVAL) end.

(** [pgt == pv_x_]; a null member is equal to no page. *)
Definition ptr_eq (a : Z) (b : option Z) : bool := bool_decide (b = Some a).

(** ** [pv_map] *)

Definition bar1_pv_entry (big : bool) (index guest host : Z) : M world Z :=
  let! b := get_ctx_f c_bar1_channel in
  let! t := st_pv_reflect_entry 0 big index guest (b1_table b) in
  mod_bar1_channel (set_b1_table t) ;;;
  bar1_pv_reflect_entry big index host ;;;
  ret 0.

Definition pv_map (pgt index guest host : Z) : M world Z :=
  let! c := get_ctx_f id in
  if ptr_eq pgt (c_pv_bar3_pgt c) then bar3_pv_reflect index guest host ;;; ret 0
  else if ptr_eq pgt (c_pv_bar1_large_pgt c) then bar1_pv_entry true index guest host
  else if ptr_eq pgt (c_pv_bar1_small_pgt c) then bar1_pv_entry false index guest host
  else
    let! p := pv_deref pgt in
    if page_size p <? u32 (0x8 * u32 (index + 1)) then ret (- ERANGE)
    else
      page_write32 p (u32 (0x8 * index + 0x0)) (lower32 host) ;;;
      page_write32 p (u32 (0x8 * index + 0x4)) (upper32 host) ;;;
      ret 0.

(** [pv_map] on the translation of a guest entry. *)
Definition pv_map_guest (pgt index guest : Z) : M world Z :=
  let! h := ctx_guest_to_host (pe_of_raw guest) in
  pv_map pgt index guest (pe_raw h).

(** A loop that stops at the first error code. *)
Fixpoint until_error (n : nat) (i : Z) (body : Z -> M world Z) : M world Z :=
  match n with
  | O => ret 0
  | Datatypes.S n' => let! r := body i in if negb (r =? 0) then ret r else until_error n' (i + 1) body
  end.

(** ** The calls *)

Definition call_set_pgd (pos : Z) : M world Z :=
  let! id := slot_u32 pos 1 in
  with_pv_id id (fun pgd =>
    let! raw := slot_u32 pos 2 in
    let cid := if raw <? 2 ^ 31 then raw else raw - 2 ^ 32 in
    if cid <? 0 then
      if cid =? -3 then mod_ctx (set_c_pv_bar3_pgd (Some pgd)) ;;; ret 0
      else mod_ctx (set_c_pv_bar1_pgd (Some pgd)) ;;; ret 0
    else
      let! v := get_ctx_f c_pgds in
      let! v := vwrite v cid (Some pgd) in
      mod_ctx (set_c_pgds v) ;;; ret 0).

(** An optional table: identifier 0 is none, an unknown one an error. *)
Definition optional_pgt (id : Z) : M world (option (option Z)) :=
  if id =? 0 then ret (Some None)
  else let! p := lookup_by_pv_id id in ret (match p with Some n => Some (Some n) | None => None end).

(** The BAR1 directory: new tables are scanned. *)
Definition bar1_scan_pgt (big : bool) (pgt : option Z) (current : option Z)
    (set : option Z -> context -> context) : M world unit :=
  match pgt with
  | None => ret tt
  | Some name =>
      if ptr_eq name current then ret tt
      else
        mod_ctx (set (Some name)) ;;;
        let! p := pv_deref name in
        let! b := get_ctx_f c_bar1_channel in
        let! t := st_pv_scan 0 big p (b1_table b) in
        mod_bar1_channel (set_b1_table t) ;;;
        bar1_pv_scan
  end.

Definition pgt_word (pgt : option Z) : M world Z :=
  match pgt with
  | Some name => let! p := pv_deref name in ret (u32 (Z.lor 0x00000001 (Z.shiftr (address_ p) 8)))
  | None => ret 0
  end.

Definition call_map_pgt (pos : Z) : M world Z :=
  let! id := slot_u32 pos 1 in
  with_pv_id id (fun pgd =>
    let! id0 := slot_u32 pos 2 in
    let! pgt0 := optional_pgt id0 in
    match pgt0 with
    | None => ret (- EINVAL)
    | Some pgt0 =>
        let! id1 := slot_u32 pos 3 in
        let! pgt1 := optional_pgt id1 in
        match pgt1 with
        | None => ret (- EINVAL)
        | Some pgt1 =>
            let! c := get_ctx_f Datatypes.id in
            if ptr_eq pgd (c_pv_bar1_pgd c) then
              bar1_scan_pgt true pgt1 (c_pv_bar1_large_pgt c) set_c_pv_bar1_large_pgt ;;;
              bar1_scan_pgt false pgt0 (c_pv_bar1_small_pgt c) set_c_pv_bar1_small_pgt ;;;
              ret 0
            else if ptr_eq pgd (c_pv_bar3_pgd c) then ret 0
            else
              let! index := slot_u32 pos 4 in
              let! d := pv_deref pgd in
              if page_size d <? 0x8 * (index + 1) then ret (- ERANGE)
              else
                let! w1 := pgt_word pgt1 in
                page_write32 d (0x8 * index + 0x0) w1 ;;;
                let! w0 := pgt_word pgt0 in
                page_write32 d (0x8 * index + 0x4) w0 ;;;
                ret 0
        end
    end).

Definition call_map (pos : Z) : M world Z :=
  let! id := slot_u32 pos 1 in
  with_pv_id id (fun pgt =>
    let! index := slot_u32 pos 2 in
    let! guest := slot_u64 pos 2 in
    pv_map_guest pgt index guest).

Definition call_map_batch (pos : Z) : M world Z :=
  let! id := slot_u32 pos 1 in
  with_pv_id id (fun pgt =>
    let! index := slot_u32 pos 2 in
    let! next := slot_u32 pos 3 in
    let! count := slot_u32 pos 4 in
    let! guest := slot_u64 pos 3 in
    let! bar3 := get_ctx_f c_pv_bar3_pgt in
    if ptr_eq pgt bar3 then bar3_pv_reflect_batch index guest next count ;;; ret 0
    else until_error (Z.to_nat count) 0 (fun i =>
           pv_map_guest pgt (u32 (index + i)) (u64 (guest + i * next)))).

Definition call_map_sg_batch (pos : Z) : M world Z :=
  let! id := slot_u32 pos 1 in
  with_pv_id id (fun pgt =>
    let! index := slot_u32 pos 2 in
    let! count := slot_u32 pos 3 in
    until_error (Z.to_nat count) 0 (fun i =>
      let! guest := slot_u64 pos (2 + i) in
      pv_map_guest pgt (u32 (index + i)) guest)).

Definition call_unmap_batch (pos : Z) : M world Z :=
  let! id := slot_u32 pos 1 in
  with_pv_id id (fun pgt =>
    let! index := slot_u32 pos 2 in
    let! count := slot_u32 pos 3 in
    until_error (Z.to_nat count) 0 (fun i => pv_map pgt (u32 (index + i)) 0 0)).

Definition call_vm_flush (pos : Z) : M world Z :=
  let! id := slot_u32 pos 1 in
  with_pv_id id (fun pgd =>
    let! c := get_ctx_f Datatypes.id in
    if ptr_eq pgd (c_pv_bar1_pgd c) then bar1_flush ;;; ret 0
    else if ptr_eq pgd (c_pv_bar3_pgd c) then bar3_flush ;;; ret 0
    else
      let! engine := slot_u32 pos 2 in
      let! ok := wait_ne 0x100c80 0x00ff0000 0x00000000 in
      if negb ok then ret (- EINVAL)
      else
        let! p := pv_deref pgd in
        reg_write32 0x100cb8 (u32 (Z.shiftr (address_ p) 8)) ;;;
        reg_write32 0x100cbc (Z.lor 0x80000000 engine) ;;;
        let! ok := wait_eq 0x100c80 0x00008000 0x00008000 in
        if negb ok then ret (- EINVAL) else ret 0).

Definition call_mem_alloc (pos : Z) : M world Z :=
  let! size := slot_u32 pos 1 in
  let! p := page_new (round_up size kPAGE_SIZE / kPAGE_SIZE) in
  page_clear p ;;;
  let id := pv_page_id p in
  assert_ (negb (id =? 0)) ;;;
  slot_set_u32 pos 1 id ;;;
  let! a := get_ctx_f c_allocated in
  assert_ (bool_decide (a !! id = None)) ;;;
  mod_ctx (fun c => set_c_allocated (<[id := c_pv_next c]> (c_allocated c))
                      (set_c_pv_heap (<[c_pv_next c := p]> (c_pv_heap c))
                        (set_c_pv_next (c_pv_next c + 1) c))) ;;;
  ret 0.

(** [allocated_.erase(id)] destroys the page. *)
Definition call_mem_free (pos : Z) : M world Z :=
  let! id := slot_u32 pos 1 in
  let! p := lookup_by_pv_id id in
  match p with
  | None => ret 0
  | Some name =>
      let! q := pv_deref name in
      mod_ctx (fun c => set_c_allocated (delete id (c_allocated c))
                          (set_c_pv_heap (delete name (c_pv_heap c)) c)) ;;;
      page_delete q ;;;
      ret 0
  end.

Definition call_bar3_pgt (pos : Z) : M world Z :=
  let! id := slot_u32 pos 1 in
  with_pv_id id (fun pgt => mod_ctx (set_c_pv_bar3_pgt (Some pgt)) ;;; ret 0).

(** [instruments_t::hypercall]: logs the name of the operation, from a table of ten. *)
Definition instruments_hypercall (pos : Z) : M world unit :=
  mod_ctx (fun c => set_c_instruments
    (set_in_hypercalls (u64 (in_hypercalls (c_instruments c) + 1)) (c_instruments c)) c) ;;;
  let! op := slot_u8_0 pos in
  if op <? 10 then ret tt else fail OutOfBounds.

Definition a3_call (pos : Z) : M world Z :=
  instruments_hypercall pos ;;;
  let! op := slot_u8_0 pos in
  match pv_op op with
  | Some SET_PGD => call_set_pgd pos
  | Some MAP_PGT => call_map_pgt pos
  | Some MAP => call_map pos
  | Some MAP_BATCH => call_map_batch pos
  | Some MAP_SG_BATCH => call_map_sg_batch pos
  | Some UNMAP_BATCH => call_unmap_batch pos
  | Some VM_FLUSH => call_vm_flush pos
  | Some MEM_ALLOC => call_mem_alloc pos
  | Some MEM_FREE => call_mem_free pos
  | Some BAR3_PGT => call_bar3_pgt pos
  | None => ret (- EINVAL)
  end.

(** ** BAR4 *)

(** [pv32]; null unless the machine is para-virtualized. *)
Definition get_pv32 (offset : Z) : M world Z :=
  let! v := get_ctx_f c_pv32 in
  let! v := of_option NullDeref v in
  vread v (offset / 4).
Definition set_pv32 (offset x : Z) : M world unit :=
  let! v := get_ctx_f c_pv32 in
  let! v := of_option NullDeref v in
  let! v := vwrite v (offset / 4) x in
  mod_ctx (set_c_pv32 (Some v)).

Definition write_bar4 (cmd : command) : M world unit :=
  let o := offset cmd in
  if o =? 0x000000 then ret tt
  else if o =? 0x000004 then set_pv32 o (value cmd)
  else if o =? 0x000008 then set_pv32 o (value cmd)
  else if o =? 0x00000c then
    let pos := value cmd in
    if NOUVEAU_PV_SLOT_NUM <=? pos then set_buffer (- EINVAL)
    else
      let! g := get_ctx_f c_guest in
      match g with
      | None => set_buffer (- EINVAL)
      | Some _ =>
          let! r := a3_call pos in
          slot_set_u32 pos 0 r
      end
  else ret tt.

Definition read_bar4 (cmd : command) : M world unit :=
  let o := offset cmd in
  if o =? 0x000000 then
    let! lower := get_pv32 0x4 in
    let! upper := get_pv32 0x8 in
    let gp := Z.lor lower (Z.shiftl upper 32) in
    let! domid := get_ctx_f c_domid in
    let g := xen_map_foreign domid (Z.shiftr gp 12) in
    mod_ctx (set_c_guest g) ;;;
    match g with
    | None => set_buffer (- EINVAL)
    | Some _ => set_buffer 0x0
    end
  else if o =? 0x00000c then set_buffer 0xdeadbeef
  else ret tt.
End Pv.
