(* ===== verification/Frame.v ===== *)
(** * What the handlers leave alone

    The identity of a context and the tables of identifiers of the device are set by
    initialisation only; the remembered registers only by the register handlers. Every
    operation of A3 between a message and its reply keeps them. *)

From S2P Require Import Prelude Config Vram PageTable Barrier Sched State Device Tables Shadow Bars Arena Remap Channel Playlist Context Bar0 Pv.

Section Generic.
Context `{PF : Platform}.

Lemma keeps_vread {S A B} (f : S -> B) (v : vec A) i : keeps f (vread v i).
Proof. apply keeps_of_option. Qed.
Lemma keeps_vwrite {S A B} (f : S -> B) (v : vec A) i x : keeps f (vwrite v i x).
Proof. apply keeps_of_option. Qed.
Lemma keeps_get_dev_f {A B} (f : world -> B) (g : device_t -> A) : keeps f (get_dev_f g).
Proof. apply keeps_gets. Qed.
Lemma keeps_get_ctx_f {A B} (f : world -> B) (g : context -> A) : keeps f (get_ctx_f g).
Proof. apply keeps_gets. Qed.
Lemma keeps_get_channel {B} (f : world -> B) i : keeps f (get_channel i).
Proof. apply keeps_bind; [apply keeps_gets|intros v; apply keeps_of_option]. Qed.

(** A part of the world that the GPU, the cached window and the pool are not in. *)
Class DeviceFrame {B} (f : world -> B) : Prop := {
  df_gpu g w : f (set_w_gpu g w) = f w;
  df_pmem p w : f (set_w_dev (set_d_pmem p (w_dev w)) w) = f w;
  df_vram v w : f (set_w_dev (set_d_vram v (w_dev w)) w) = f w
}.

End Generic.

Ltac frame_step :=
  first [keeps_step
    | lazymatch goal with
      | |- keeps _ (modify _) => apply keeps_modify; intros ?; apply df_gpu
      | |- keeps _ (mod_ctx _) => apply keeps_modify; intros ?; reflexivity
      | |- keeps _ (mod_dev _) => apply keeps_modify; intros ?; first [reflexivity | apply df_pmem]
      | |- keeps _ (on_vram _) => apply keeps_zoom; intros ? ?; apply df_vram
      | |- keeps _ (on_barrier _) => apply keeps_zoom; reflexivity
      | |- keeps _ (on_sched _) => apply keeps_zoom; reflexivity
      end].
Ltac frame_solve := repeat first [solve [auto with keeps] | frame_step].

Section DeviceOperations.
Context `{PF : Platform}.
#[local] Hint Constants Opaque : keeps.
Hint Resolve keeps_vread keeps_vwrite keeps_get_dev_f keeps_get_ctx_f keeps_get_channel : keeps.
Context {B : Type} (f : world -> B) `{!DeviceFrame f}.

(** ** Device access *)

Lemma dev_device_read b o s : keeps f (device_read b o s).
Proof. unfold device_read, bar_addr. frame_solve. Qed.
Hint Resolve dev_device_read : keeps.
Lemma dev_device_write b o v s : keeps f (device_write b o v s).
Proof. unfold device_write, bar_addr. frame_solve. Qed.
Hint Resolve dev_device_write : keeps.
Lemma dev_pmem_select a : keeps f (pmem_select a).
Proof. unfold pmem_select. frame_solve. Qed.
Hint Resolve dev_pmem_select : keeps.
Lemma dev_read_pmem a s : keeps f (read_pmem a s).
Proof. unfold read_pmem. frame_solve. Qed.
Hint Resolve dev_read_pmem : keeps.
Lemma dev_write_pmem a v s : keeps f (write_pmem a v s).
Proof. unfold write_pmem. frame_solve. Qed.
Hint Resolve dev_write_pmem : keeps.
Lemma dev_pmem_read32 a : keeps f (pmem_read32 a).
Proof. unfold pmem_read32. frame_solve. Qed.
Hint Resolve dev_pmem_read32 : keeps.
Lemma dev_pmem_write32 a v : keeps f (pmem_write32 a v).
Proof. unfold pmem_write32. frame_solve. Qed.
Hint Resolve dev_pmem_write32 : keeps.
Lemma dev_reg_read o s : keeps f (reg_read o s).
Proof. unfold reg_read. frame_solve. Qed.
Hint Resolve dev_reg_read : keeps.
Lemma dev_reg_write o v s : keeps f (reg_write o v s).
Proof. unfold reg_write. frame_solve. Qed.
Hint Resolve dev_reg_write : keeps.
Lemma dev_reg_read32 o : keeps f (reg_read32 o).
Proof. unfold reg_read32. frame_solve. Qed.
Hint Resolve dev_reg_read32 : keeps.
Lemma dev_reg_write32 o v : keeps f (reg_write32 o v).
Proof. unfold reg_write32. frame_solve. Qed.
Hint Resolve dev_reg_write32 : keeps.
Lemma dev_mask32 o m v : keeps f (mask32 o m v).
Proof. unfold mask32. frame_solve. Qed.
Hint Resolve dev_mask32 : keeps.
Lemma dev_wait_cb o m v g : keeps f (wait_cb o m v g).
Proof. unfold wait_cb. frame_solve. Qed.
Hint Resolve dev_wait_cb : keeps.
Lemma dev_wait_eq o m v : keeps f (wait_eq o m v).
Proof. unfold wait_eq. frame_solve. Qed.
Hint Resolve dev_wait_eq : keeps.
Lemma dev_wait_ne o m v : keeps f (wait_ne o m v).
Proof. unfold wait_ne. frame_solve. Qed.
Hint Resolve dev_wait_ne : keeps.
Lemma dev_page_new n : keeps f (page_new n).
Proof. unfold page_new. frame_solve. Qed.
Hint Resolve dev_page_new : keeps.
Lemma dev_page_delete p : keeps f (page_delete p).
Proof. unfold page_delete. frame_solve. Qed.
Hint Resolve dev_page_delete : keeps.
Lemma dev_page_clear p : keeps f (page_clear p).
Proof. unfold page_clear. frame_solve. Qed.
Hint Resolve dev_page_clear : keeps.
Lemma dev_page_write p o v s : keeps f (page_write p o v s).
Proof. unfold page_write. frame_solve. Qed.
Hint Resolve dev_page_write : keeps.
Lemma dev_page_read p o s : keeps f (page_read p o s).
Proof. unfold page_read. frame_solve. Qed.
Hint Resolve dev_page_read : keeps.
Lemma dev_page_write32 p o v : keeps f (page_write32 p o v).
Proof. unfold page_write32. frame_solve. Qed.
Hint Resolve dev_page_write32 : keeps.
Lemma dev_page_read32 p o : keeps f (page_read32 p o).
Proof. unfold page_read32. frame_solve. Qed.
Hint Resolve dev_page_read32 : keeps.

Lemma dev_read64 r a : (forall x, keeps f (r x)) -> keeps f (read64 r a).
Proof. intros Hr. unfold read64. frame_solve; apply Hr. Qed.
Lemma dev_write64 wr a v : (forall x y, keeps f (wr x y)) -> keeps f (write64 wr a v).
Proof. intros Hr. unfold write64. frame_solve; apply Hr. Qed.
Lemma dev_page_entry_create r a : (forall x, keeps f (r x)) -> keeps f (page_entry_create r a).
Proof. intros Hr. unfold page_entry_create. frame_solve; apply Hr. Qed.
Lemma dev_read64_pmem a : keeps f (read64 pmem_read32 a).
Proof. apply dev_read64. auto with keeps. Qed.
Lemma dev_write64_page p a v : keeps f (write64 (page_write32 p) a v).
Proof. apply dev_write64. auto with keeps. Qed.
Lemma dev_create_pmem a : keeps f (page_entry_create pmem_read32 a).
Proof. apply dev_page_entry_create. auto with keeps. Qed.
Lemma dev_create_page p a : keeps f (page_entry_create (page_read32 p) a).
Proof. apply dev_page_entry_create. auto with keeps. Qed.
Hint Resolve dev_read64_pmem dev_write64_page dev_create_pmem dev_create_page : keeps.

Lemma dev_page_directory_create a : keeps f (page_directory_create a).
Proof. unfold page_directory_create. frame_solve. Qed.
Hint Resolve dev_page_directory_create : keeps.
Lemma dev_ctx_guest_to_host e : keeps f (ctx_guest_to_host e).
Proof. unfold ctx_guest_to_host. frame_solve. Qed.
Hint Resolve dev_ctx_guest_to_host : keeps.
Lemma dev_chipset_type : keeps f chipset_type.
Proof. unfold chipset_type. frame_solve. Qed.
Hint Resolve dev_chipset_type : keeps.

(** ** Page tables *)

Lemma dev_refresh_entry a i v : keeps f (refresh_entry a i v).
Proof. unfold refresh_entry. frame_solve. Qed.
Hint Resolve dev_refresh_entry : keeps.
Lemma dev_directory_refresh dir r d : keeps f (directory_refresh dir r d).
Proof. unfold directory_refresh. frame_solve. Qed.
Hint Resolve dev_directory_refresh : keeps.
Lemma dev_st_refresh_page_directories a t : keeps f (st_refresh_page_directories a t).
Proof. unfold st_refresh_page_directories. frame_solve. Qed.
Hint Resolve dev_st_refresh_page_directories : keeps.
Lemma dev_st_refresh a l t : keeps f (st_refresh a l t).
Proof. unfold st_refresh. frame_solve. Qed.
Hint Resolve dev_st_refresh : keeps.
Lemma dev_directory_pv_reflect b i g d : keeps f (directory_pv_reflect b i g d).
Proof. unfold directory_pv_reflect. frame_solve. Qed.
Hint Resolve dev_directory_pv_reflect : keeps.
Lemma dev_st_pv_reflect_entry d b i e t : keeps f (st_pv_reflect_entry d b i e t).
Proof. unfold st_pv_reflect_entry. frame_solve. Qed.
Hint Resolve dev_st_pv_reflect_entry : keeps.
Lemma dev_scan_entry p i v : keeps f (scan_entry p i v).
Proof. unfold scan_entry. frame_solve. Qed.
Hint Resolve dev_scan_entry : keeps.
Lemma dev_directory_pv_scan b p r d : keeps f (directory_pv_scan b p r d).
Proof. unfold directory_pv_scan. frame_solve. Qed.
Hint Resolve dev_directory_pv_scan : keeps.
Lemma dev_st_pv_scan d b p t : keeps f (st_pv_scan d b p t).
Proof. unfold st_pv_scan. frame_solve. Qed.
Hint Resolve dev_st_pv_scan : keeps.
Lemma dev_allocate_shadow_address t : keeps f (allocate_shadow_address t).
Proof. unfold allocate_shadow_address. frame_solve. Qed.
Hint Resolve dev_allocate_shadow_address : keeps.
Lemma dev_allocate_large_page t : keeps f (allocate_large_page t).
Proof. unfold allocate_large_page. frame_solve. Qed.
Hint Resolve dev_allocate_large_page : keeps.
Lemma dev_allocate_small_page t : keeps f (allocate_small_page t).
Proof. unfold allocate_small_page. frame_solve. Qed.
Hint Resolve dev_allocate_small_page : keeps.
Lemma dev_shadow_entry a p i : keeps f (shadow_entry a p i).
Proof. unfold shadow_entry. frame_solve. Qed.
Hint Resolve dev_shadow_entry : keeps.
Lemma dev_refresh_directory dir t : keeps f (refresh_directory dir t).
Proof. unfold refresh_directory. frame_solve. Qed.
Hint Resolve dev_refresh_directory : keeps.
Lemma dev_sh_refresh_page_directories a t : keeps f (sh_refresh_page_directories a t).
Proof. unfold sh_refresh_page_directories. frame_solve. Qed.
Hint Resolve dev_sh_refresh_page_directories : keeps.
Lemma dev_sh_refresh a l t : keeps f (sh_refresh a l t).
Proof. unfold sh_refresh. frame_solve. Qed.
Hint Resolve dev_sh_refresh : keeps.
End DeviceOperations.

Section Frame.
Context `{PF : Platform}.

(** The identity of the machine and of the device. *)
Definition identity (w : world) :=
  (d_virts (w_dev w), d_contexts (w_dev w), d_card (w_dev w), c_self (w_ctx w), c_through (w_ctx w),
   c_initialized (w_ctx w), c_domid (w_ctx w), c_id (w_ctx w), c_pfifo (w_ctx w),
   c_para_virtualized (w_ctx w)).

(** The same with the remembered registers. *)
Definition frame (w : world) := (identity w, c_reg32 (w_ctx w)).

Lemma keeps_identity {A} (m : M world A) : keeps frame m -> keeps identity m.
Proof. intros H w a w' E. exact (f_equal fst (H _ _ _ E)). Qed.

#[export] Instance frame_device : DeviceFrame frame.
Proof. by constructor. Qed.
Hint Resolve frame_device : keeps.

#[local] Hint Constants Opaque : keeps.
Hint Resolve keeps_vread keeps_vwrite keeps_get_dev_f keeps_get_ctx_f keeps_get_channel : keeps.
Hint Resolve dev_device_read dev_device_write dev_pmem_select dev_read_pmem dev_write_pmem
  dev_pmem_read32 dev_pmem_write32 dev_reg_read dev_reg_write dev_reg_read32 dev_reg_write32
  dev_mask32 dev_wait_cb dev_wait_eq dev_wait_ne dev_page_new dev_page_delete dev_page_clear
  dev_page_write dev_page_read dev_page_write32 dev_page_read32 dev_read64_pmem dev_write64_page
  dev_create_pmem dev_create_page dev_page_directory_create dev_ctx_guest_to_host dev_chipset_type
  dev_refresh_entry dev_directory_refresh dev_st_refresh_page_directories dev_st_refresh
  dev_directory_pv_reflect dev_st_pv_reflect_entry dev_scan_entry dev_directory_pv_scan
  dev_st_pv_scan dev_allocate_shadow_address dev_allocate_large_page dev_allocate_small_page
  dev_shadow_entry dev_refresh_directory dev_sh_refresh_page_directories dev_sh_refresh : keeps.

(** ** BAR managers *)

Lemma frame_bar1_refresh b : keeps frame (bar1_refresh b).
Proof. unfold bar1_refresh. frame_solve. Qed.
Hint Resolve frame_bar1_refresh : keeps.
Lemma frame_bar1_refresh_poll_area : keeps frame bar1_refresh_poll_area.
Proof. unfold bar1_refresh_poll_area. frame_solve. Qed.
Hint Resolve frame_bar1_refresh_poll_area : keeps.
Lemma frame_bar1_map v e : keeps frame (bar1_map v e).
Proof. unfold bar1_map. frame_solve. Qed.
Hint Resolve frame_bar1_map : keeps.
Lemma frame_bar1_shadow_channel i : keeps frame (bar1_shadow_channel i).
Proof. unfold bar1_shadow_channel. frame_solve. Qed.
Hint Resolve frame_bar1_shadow_channel : keeps.
Lemma frame_bar1_shadow : keeps frame bar1_shadow.
Proof. unfold bar1_shadow. frame_solve. Qed.
Hint Resolve frame_bar1_shadow : keeps.
Lemma frame_bar1_pv_scan : keeps frame bar1_pv_scan.
Proof. unfold bar1_pv_scan. frame_solve. Qed.
Hint Resolve frame_bar1_pv_scan : keeps.
Lemma frame_bar1_flush : keeps frame bar1_flush.
Proof. unfold bar1_flush. frame_solve. Qed.
Hint Resolve frame_bar1_flush : keeps.
Lemma frame_bar1_write c : keeps frame (bar1_write c).
Proof. unfold bar1_write. frame_solve. Qed.
Hint Resolve frame_bar1_write : keeps.
Lemma frame_bar1_read c : keeps frame (bar1_read c).
Proof. unfold bar1_read. frame_solve. Qed.
Hint Resolve frame_bar1_read : keeps.
Lemma frame_bar1_pv_reflect_entry b i h : keeps frame (bar1_pv_reflect_entry b i h).
Proof. unfold bar1_pv_reflect_entry. frame_solve. Qed.
Hint Resolve frame_bar1_pv_reflect_entry : keeps.
Lemma frame_mod_bar3 f : keeps frame (mod_bar3 f).
Proof. unfold mod_bar3. frame_solve. Qed.
Hint Resolve frame_mod_bar3 : keeps.
Lemma frame_bar3_refresh b : keeps frame (bar3_refresh b).
Proof. unfold bar3_refresh. frame_solve. Qed.
Hint Resolve frame_bar3_refresh : keeps.
Lemma frame_xen_call_ x : keeps frame (xen_call_ x).
Proof. unfold xen_call_. frame_solve. Qed.
Hint Resolve frame_xen_call_ : keeps.
Lemma frame_map_xen_page_batch o c : keeps frame (map_xen_page_batch o c).
Proof. unfold map_xen_page_batch. frame_solve. Qed.
Hint Resolve frame_map_xen_page_batch : keeps.
Lemma frame_unmap_xen_page_batch o c : keeps frame (unmap_xen_page_batch o c).
Proof. unfold unmap_xen_page_batch. frame_solve. Qed.
Hint Resolve frame_unmap_xen_page_batch : keeps.
Lemma frame_map_xen_page o : keeps frame (map_xen_page o).
Proof. unfold map_xen_page. frame_solve. Qed.
Hint Resolve frame_map_xen_page : keeps.
Lemma frame_unmap_xen_page o : keeps frame (unmap_xen_page o).
Proof. unfold unmap_xen_page. frame_solve. Qed.
Hint Resolve frame_unmap_xen_page : keeps.
Lemma frame_bar3_map i e : keeps frame (bar3_map i e).
Proof. unfold bar3_map. frame_solve. Qed.
Hint Resolve frame_bar3_map : keeps.
Lemma frame_bar3_shadow_page k : keeps frame (bar3_shadow_page k).
Proof. unfold bar3_shadow_page. frame_solve. Qed.
Hint Resolve frame_bar3_shadow_page : keeps.
Lemma frame_bar3_shadow p : keeps frame (bar3_shadow p).
Proof. unfold bar3_shadow. frame_solve. Qed.
Hint Resolve frame_bar3_shadow : keeps.
Lemma frame_reset_barrier_page o a r i : keeps frame (reset_barrier_page o a r i).
Proof. unfold reset_barrier_page. frame_solve. Qed.
Hint Resolve frame_reset_barrier_page : keeps.
Lemma frame_bar3_reset_barrier o a r : keeps frame (bar3_reset_barrier o a r).
Proof. unfold bar3_reset_barrier. frame_solve. Qed.
Hint Resolve frame_bar3_reset_barrier : keeps.
Lemma frame_bar3_flush : keeps frame bar3_flush.
Proof. unfold bar3_flush. frame_solve. Qed.
Hint Resolve frame_bar3_flush : keeps.
Lemma frame_bar3_refresh_small h e : keeps frame (bar3_refresh_small h e).
Proof. unfold bar3_refresh_small. frame_solve. Qed.
Hint Resolve frame_bar3_refresh_small : keeps.
Lemma frame_bar3_pv_reflect i g h : keeps frame (bar3_pv_reflect i g h).
Proof. unfold bar3_pv_reflect. frame_solve. Qed.
Hint Resolve frame_bar3_pv_reflect : keeps.
Lemma frame_batch_page m o g s : keeps frame (batch_page m o g s).
Proof. unfold batch_page. frame_solve. Qed.
Hint Resolve frame_batch_page : keeps.
Lemma frame_bar3_batch_round i n j s : keeps frame (bar3_batch_round i n j s).
Proof. unfold bar3_batch_round. frame_solve. Qed.
Hint Resolve frame_bar3_batch_round : keeps.
Lemma frame_bar3_pv_reflect_batch i g n c : keeps frame (bar3_pv_reflect_batch i g n c).
Proof. unfold bar3_pv_reflect_batch. frame_solve. Qed.
Hint Resolve frame_bar3_pv_reflect_batch : keeps.
Lemma frame_refresh_table_array p f c b s v : keeps frame (refresh_table_array p f c b s v).
Proof. unfold refresh_table_array. frame_solve. Qed.
Hint Resolve frame_refresh_table_array : keeps.
Lemma frame_bar3_refresh_table p : keeps frame (bar3_refresh_table p).
Proof. unfold bar3_refresh_table. frame_solve. Qed.
Hint Resolve frame_bar3_refresh_table : keeps.

(** ** Channels, play lists and the windows of a context *)

Lemma frame_mod_channel i f : keeps frame (mod_channel i f).
Proof. unfold mod_channel. frame_solve. Qed.
Hint Resolve frame_mod_channel : keeps.
Lemma frame_mod_bar1_channel f : keeps frame (mod_bar1_channel f).
Proof. unfold mod_bar1_channel. frame_solve. Qed.
Hint Resolve frame_mod_bar1_channel : keeps.
Lemma frame_mod_bar3_channel f : keeps frame (mod_bar3_channel f).
Proof. unfold mod_bar3_channel. frame_solve. Qed.
Hint Resolve frame_mod_bar3_channel : keeps.
Lemma frame_channel_detach i a : keeps frame (channel_detach i a).
Proof. unfold channel_detach. frame_solve. Qed.
Hint Resolve frame_channel_detach : keeps.
Lemma frame_write_shadow_page_table i s : keeps frame (write_shadow_page_table i s).
Proof. unfold write_shadow_page_table. frame_solve. Qed.
Hint Resolve frame_write_shadow_page_table : keeps.
Lemma frame_flush_directory s : keeps frame (flush_directory s).
Proof. unfold flush_directory. frame_solve. Qed.
Hint Resolve frame_flush_directory : keeps.
Lemma frame_pv_deref n : keeps frame (pv_deref n).
Proof. unfold pv_deref. frame_solve. Qed.
Hint Resolve frame_pv_deref : keeps.
Lemma frame_copy_ramin r p : keeps frame (copy_ramin r p).
Proof. unfold copy_ramin. frame_solve. Qed.
Hint Resolve frame_copy_ramin : keeps.
Lemma frame_channel_shadow i : keeps frame (channel_shadow i).
Proof. unfold channel_shadow. frame_solve. Qed.
Hint Resolve frame_channel_shadow : keeps.
Lemma frame_channel_attach i a : keeps frame (channel_attach i a).
Proof. unfold channel_attach. frame_solve. Qed.
Hint Resolve frame_channel_attach : keeps.
Lemma frame_channel_refresh i a : keeps frame (channel_refresh i a).
Proof. unfold channel_refresh. frame_solve. Qed.
Hint Resolve frame_channel_refresh : keeps.
Lemma frame_set_original j i b : keeps frame (set_original j i b).
Proof. unfold set_original. frame_solve. Qed.
Hint Resolve frame_set_original : keeps.
Lemma frame_override_shadow i s j : keeps frame (override_shadow i s j).
Proof. unfold override_shadow. frame_solve. Qed.
Hint Resolve frame_override_shadow : keeps.
Lemma frame_remove_overridden_shadow i : keeps frame (remove_overridden_shadow i).
Proof. unfold remove_overridden_shadow. frame_solve. Qed.
Hint Resolve frame_remove_overridden_shadow : keeps.
Lemma frame_generate_original i : keeps frame (generate_original i).
Proof. unfold generate_original. frame_solve. Qed.
Hint Resolve frame_generate_original : keeps.
Lemma frame_tlb_flush_needed i : keeps frame (tlb_flush_needed i).
Proof. unfold tlb_flush_needed. frame_solve. Qed.
Hint Resolve frame_tlb_flush_needed : keeps.
Lemma frame_channel_flush i : keeps frame (channel_flush i).
Proof. unfold channel_flush. frame_solve. Qed.
Hint Resolve frame_channel_flush : keeps.
Lemma frame_channel_submit i c : keeps frame (channel_submit i c).
Proof. unfold channel_submit. frame_solve. Qed.
Hint Resolve frame_channel_submit : keeps.
Lemma frame_bar1_channel_shadow : keeps frame bar1_channel_shadow.
Proof. unfold bar1_channel_shadow. frame_solve. Qed.
Hint Resolve frame_bar1_channel_shadow : keeps.
Lemma frame_bar1_channel_refresh a : keeps frame (bar1_channel_refresh a).
Proof. unfold bar1_channel_refresh. frame_solve. Qed.
Hint Resolve frame_bar1_channel_refresh : keeps.
Lemma frame_bar3_channel_refresh_table a : keeps frame (bar3_channel_refresh_table a).
Proof. unfold bar3_channel_refresh_table. frame_solve. Qed.
Hint Resolve frame_bar3_channel_refresh_table : keeps.
Lemma frame_bar3_channel_shadow : keeps frame bar3_channel_shadow.
Proof. unfold bar3_channel_shadow. frame_solve. Qed.
Hint Resolve frame_bar3_channel_shadow : keeps.
Lemma frame_bar3_channel_refresh a : keeps frame (bar3_channel_refresh a).
Proof. unfold bar3_channel_refresh. frame_solve. Qed.
Hint Resolve frame_bar3_channel_refresh : keeps.
Lemma frame_engine_toggle n e : keeps frame (engine_toggle n e).
Proof. unfold engine_toggle. frame_solve. Qed.
Hint Resolve frame_engine_toggle : keeps.
Lemma frame_engine_set i b e : keeps frame (engine_set i b e).
Proof. unfold engine_set. frame_solve. Qed.
Hint Resolve frame_engine_set : keeps.
Lemma frame_write_runlist p c s : keeps frame (write_runlist p c s).
Proof. unfold write_runlist. frame_solve. Qed.
Hint Resolve frame_write_runlist : keeps.
Lemma frame_clear_channels i e : keeps frame (clear_channels i e).
Proof. unfold clear_channels. frame_solve. Qed.
Hint Resolve frame_clear_channels : keeps.
Lemma frame_read_playlist i a c e : keeps frame (read_playlist i a c e).
Proof. unfold read_playlist. frame_solve. Qed.
Hint Resolve frame_read_playlist : keeps.
Lemma frame_playlist_update n e a c s : keeps frame (playlist_update n e a c s).
Proof. unfold playlist_update. frame_solve. Qed.
Hint Resolve frame_playlist_update : keeps.
Lemma frame_playlist_dispatch a c : keeps frame (playlist_dispatch a c).
Proof. unfold playlist_dispatch. frame_solve. Qed.
Hint Resolve frame_playlist_dispatch : keeps.
Lemma frame_device_playlist_update a c : keeps frame (device_playlist_update a c).
Proof. unfold device_playlist_update. frame_solve. Qed.
Hint Resolve frame_device_playlist_update : keeps.
Lemma frame_context_playlist_update a c : keeps frame (context_playlist_update a c).
Proof. unfold context_playlist_update. frame_solve. Qed.
Hint Resolve frame_context_playlist_update : keeps.
Lemma frame_get_reg32 o : keeps frame (get_reg32 o).
Proof. unfold get_reg32. frame_solve. Qed.
Hint Resolve frame_get_reg32 : keeps.
Lemma frame_pfifo_read c : keeps frame (pfifo_read c).
Proof. unfold pfifo_read. frame_solve. Qed.
Hint Resolve frame_pfifo_read : keeps.
Lemma frame_set_buffer v : keeps frame (set_buffer v).
Proof. unfold set_buffer. frame_solve. Qed.
Hint Resolve frame_set_buffer : keeps.
Lemma frame_pmem_write a v s : keeps frame (pmem_write a v s).
Proof. unfold pmem_write. frame_solve. Qed.
Hint Resolve frame_pmem_write : keeps.
Lemma frame_pmem_read a s : keeps frame (pmem_read a s).
Proof. unfold pmem_read. frame_solve. Qed.
Hint Resolve frame_pmem_read : keeps.
Lemma frame_write_barrier a c : keeps frame (write_barrier a c).
Proof. unfold write_barrier. frame_solve. Qed.
Hint Resolve frame_write_barrier : keeps.
Lemma frame_read_barrier a c : keeps frame (read_barrier a c).
Proof. unfold read_barrier. frame_solve. Qed.
Hint Resolve frame_read_barrier : keeps.
Lemma frame_write_gphys g c : keeps frame (write_gphys g c).
Proof. unfold write_gphys. frame_solve. Qed.
Hint Resolve frame_write_gphys : keeps.
Lemma frame_read_gphys g c : keeps frame (read_gphys g c).
Proof. unfold read_gphys. frame_solve. Qed.
Hint Resolve frame_read_gphys : keeps.
Lemma frame_device_fire c : keeps frame (device_fire c).
Proof. unfold device_fire. frame_solve. Qed.
Hint Resolve frame_device_fire : keeps.
Lemma frame_write_bar1 c : keeps frame (write_bar1 c).
Proof. unfold write_bar1. frame_solve. Qed.
Hint Resolve frame_write_bar1 : keeps.
Lemma frame_read_bar1 c : keeps frame (read_bar1 c).
Proof. unfold read_bar1. frame_solve. Qed.
Hint Resolve frame_read_bar1 : keeps.
Lemma frame_write_bar3 c : keeps frame (write_bar3 c).
Proof. unfold write_bar3. frame_solve. Qed.
Hint Resolve frame_write_bar3 : keeps.
Lemma frame_read_bar3 c : keeps frame (read_bar3 c).
Proof. unfold read_bar3. frame_solve. Qed.
Hint Resolve frame_read_bar3 : keeps.
Lemma frame_flush_without_check p e : keeps frame (flush_without_check p e).
Proof. unfold flush_without_check. frame_solve. Qed.
Hint Resolve frame_flush_without_check : keeps.
Lemma frame_context_flush p b : keeps frame (context_flush p b).
Proof. unfold context_flush. frame_solve. Qed.
Hint Resolve frame_context_flush : keeps.
Lemma frame_flush_tlb_channel p i s : keeps frame (flush_tlb_channel p i s).
Proof. unfold flush_tlb_channel. frame_solve. Qed.
Hint Resolve frame_flush_tlb_channel : keeps.
Lemma frame_flush_tlb v t : keeps frame (flush_tlb v t).
Proof. unfold flush_tlb. frame_solve. Qed.
Hint Resolve frame_flush_tlb : keeps.
Lemma frame_shadow_ramin_to_phys s : keeps frame (shadow_ramin_to_phys s).
Proof. unfold shadow_ramin_to_phys. frame_solve. Qed.
Hint Resolve frame_shadow_ramin_to_phys : keeps.
Lemma frame_decode_to_virt_ramin v : keeps frame (decode_to_virt_ramin v).
Proof. unfold decode_to_virt_ramin. frame_solve. Qed.
Hint Resolve frame_decode_to_virt_ramin : keeps.
Lemma frame_encode_to_shadow_ramin v : keeps frame (encode_to_shadow_ramin v).
Proof. unfold encode_to_shadow_ramin. frame_solve. Qed.
Hint Resolve frame_encode_to_shadow_ramin : keeps.

(** ** Registers: reads keep the frame, writes the identity *)

Lemma frame_read_shadowed c : keeps frame (read_shadowed c).
Proof. unfold read_shadowed. frame_solve. Qed.
Hint Resolve frame_read_shadowed : keeps.
Lemma frame_read_bar0_rest c : keeps frame (read_bar0_rest c).
Proof. unfold read_bar0_rest. frame_solve. Qed.
Hint Resolve frame_read_bar0_rest : keeps.
Lemma frame_read_pcopy c : keeps frame (read_pcopy c).
Proof. unfold read_pcopy. frame_solve. Qed.
Hint Resolve frame_read_pcopy : keeps.
Lemma frame_read_graph_irq c : keeps frame (read_graph_irq c).
Proof. unfold read_graph_irq. frame_solve. Qed.
Hint Resolve frame_read_graph_irq : keeps.
Lemma frame_read_bar0 c : keeps frame (read_bar0 c).
Proof. unfold read_bar0. frame_solve. Qed.
Hint Resolve frame_read_bar0 : keeps.

Hint Resolve keeps_identity : keeps.

Lemma identity_set_reg32 o v : keeps identity (set_reg32 o v).
Proof. unfold set_reg32. frame_solve. Qed.
Hint Resolve identity_set_reg32 : keeps.
Lemma identity_pfifo_write c : keeps identity (pfifo_write c).
Proof. unfold pfifo_write. frame_solve. Qed.
Hint Resolve identity_pfifo_write : keeps.
Lemma identity_write_bar1_channel c : keeps identity (write_bar1_channel c).
Proof. unfold write_bar1_channel. frame_solve. Qed.
Hint Resolve identity_write_bar1_channel : keeps.
Lemma identity_write_bar3_channel c : keeps identity (write_bar3_channel c).
Proof. unfold write_bar3_channel. frame_solve. Qed.
Hint Resolve identity_write_bar3_channel : keeps.
Lemma identity_write_poll_area c : keeps identity (write_poll_area c).
Proof. unfold write_poll_area. frame_solve. Qed.
Hint Resolve identity_write_poll_area : keeps.
Lemma identity_write_playlist_len c : keeps identity (write_playlist_len c).
Proof. unfold write_playlist_len. frame_solve. Qed.
Hint Resolve identity_write_playlist_len : keeps.
Lemma identity_write_channel_kill c : keeps identity (write_channel_kill c).
Proof. unfold write_channel_kill. frame_solve. Qed.
Hint Resolve identity_write_channel_kill : keeps.
Lemma identity_write_flush_trigger c : keeps identity (write_flush_trigger c).
Proof. unfold write_flush_trigger. frame_solve. Qed.
Hint Resolve identity_write_flush_trigger : keeps.
Lemma identity_write_pcopy c : keeps identity (write_pcopy c).
Proof. unfold write_pcopy. frame_solve. Qed.
Hint Resolve identity_write_pcopy : keeps.
Lemma identity_write_pair a c : keeps identity (write_pair a c).
Proof. unfold write_pair. frame_solve. Qed.
Hint Resolve identity_write_pair : keeps.
Lemma identity_write_wrcmd c : keeps identity (write_wrcmd c).
Proof. unfold write_wrcmd. frame_solve. Qed.
Hint Resolve identity_write_wrcmd : keeps.
Lemma identity_write_gpc_bcast c : keeps identity (write_gpc_bcast c).
Proof. unfold write_gpc_bcast. frame_solve. Qed.
Hint Resolve identity_write_gpc_bcast : keeps.
Lemma identity_write_pdisplay c : keeps identity (write_pdisplay c).
Proof. unfold write_pdisplay. frame_solve. Qed.
Hint Resolve identity_write_pdisplay : keeps.
Lemma identity_write_bar0_rest c : keeps identity (write_bar0_rest c).
Proof. unfold write_bar0_rest. frame_solve. Qed.
Hint Resolve identity_write_bar0_rest : keeps.
Lemma identity_write_bar0 c : keeps identity (write_bar0 c).
Proof. unfold write_bar0. frame_solve. Qed.
Hint Resolve identity_write_bar0 : keeps.

(** ** Para-virtual calls *)

Lemma frame_until_error n i body : (forall j, keeps frame (body j)) -> keeps frame (until_error n i body).
Proof.
  intros Hb. revert i. induction n as [|n IH]; intros i; cbn [until_error]; frame_solve; auto.
Qed.

Lemma frame_slot_u32 p i : keeps frame (slot_u32 p i).
Proof. unfold slot_u32. frame_solve. Qed.
Hint Resolve frame_slot_u32 : keeps.
Lemma frame_slot_u8_0 p : keeps frame (slot_u8_0 p).
Proof. unfold slot_u8_0. frame_solve. Qed.
Hint Resolve frame_slot_u8_0 : keeps.
Lemma frame_slot_u64 p i : keeps frame (slot_u64 p i).
Proof. unfold slot_u64. frame_solve. Qed.
Hint Resolve frame_slot_u64 : keeps.
Lemma frame_slot_set_u32 p i x : keeps frame (slot_set_u32 p i x).
Proof. unfold slot_set_u32. frame_solve. Qed.
Hint Resolve frame_slot_set_u32 : keeps.
Lemma frame_lookup_by_pv_id i : keeps frame (lookup_by_pv_id i).
Proof. unfold lookup_by_pv_id. frame_solve. Qed.
Hint Resolve frame_lookup_by_pv_id : keeps.

Lemma frame_with_pv_id i k : (forall n, keeps frame (k n)) -> keeps frame (with_pv_id i k).
Proof. intros Hk. unfold with_pv_id. frame_solve; apply Hk. Qed.

Ltac pv_solve :=
  repeat first [progress frame_solve | apply frame_with_pv_id; intros ? | apply frame_until_error; intros ?].

Lemma frame_bar1_pv_entry b i g h : keeps frame (bar1_pv_entry b i g h).
Proof. unfold bar1_pv_entry. frame_solve. Qed.
Hint Resolve frame_bar1_pv_entry : keeps.
Lemma frame_pv_map p i g h : keeps frame (pv_map p i g h).
Proof. unfold pv_map. frame_solve. Qed.
Hint Resolve frame_pv_map : keeps.
Lemma frame_pv_map_guest p i g : keeps frame (pv_map_guest p i g).
Proof. unfold pv_map_guest. frame_solve. Qed.
Hint Resolve frame_pv_map_guest : keeps.

Lemma frame_optional_pgt i : keeps frame (optional_pgt i).
Proof. unfold optional_pgt. frame_solve. Qed.
Lemma frame_scan_large p cur : keeps frame (bar1_scan_pgt true p cur set_c_pv_bar1_large_pgt).
Proof. unfold bar1_scan_pgt. frame_solve. Qed.
Lemma frame_scan_small p cur : keeps frame (bar1_scan_pgt false p cur set_c_pv_bar1_small_pgt).
Proof. unfold bar1_scan_pgt. frame_solve. Qed.
Lemma frame_pgt_word p : keeps frame (pgt_word p).
Proof. unfold pgt_word. frame_solve. Qed.
Hint Resolve frame_optional_pgt frame_scan_large frame_scan_small frame_pgt_word : keeps.

Lemma frame_call_set_pgd p : keeps frame (call_set_pgd p).
Proof. unfold call_set_pgd. pv_solve. Qed.
Hint Resolve frame_call_set_pgd : keeps.
Lemma frame_call_map_pgt p : keeps frame (call_map_pgt p).
Proof. unfold call_map_pgt. pv_solve. Qed.
Hint Resolve frame_call_map_pgt : keeps.
Lemma frame_call_map p : keeps frame (call_map p).
Proof. unfold call_map. pv_solve. Qed.
Hint Resolve frame_call_map : keeps.
Lemma frame_call_map_batch p : keeps frame (call_map_batch p).
Proof. unfold call_map_batch. pv_solve. Qed.
Hint Resolve frame_call_map_batch : keeps.
Lemma frame_call_map_sg_batch p : keeps frame (call_map_sg_batch p).
Proof. unfold call_map_sg_batch. pv_solve. Qed.
Hint Resolve frame_call_map_sg_batch : keeps.
Lemma frame_call_unmap_batch p : keeps frame (call_unmap_batch p).
Proof. unfold call_unmap_batch. pv_solve. Qed.
Hint Resolve frame_call_unmap_batch : keeps.
Lemma frame_call_vm_flush p : keeps frame (call_vm_flush p).
Proof. unfold call_vm_flush. pv_solve. Qed.
Hint Resolve frame_call_vm_flush : keeps.
Lemma frame_call_mem_alloc p : keeps frame (call_mem_alloc p).
Proof. unfold call_mem_alloc. pv_solve. Qed.
Hint Resolve frame_call_mem_alloc : keeps.
Lemma frame_call_mem_free p : keeps frame (call_mem_free p).
Proof. unfold call_mem_free. pv_solve. Qed.
Hint Resolve frame_call_mem_free : keeps.
Lemma frame_call_bar3_pgt p : keeps frame (call_bar3_pgt p).
Proof. unfold call_bar3_pgt. pv_solve. Qed.
Hint Resolve frame_call_bar3_pgt : keeps.

Lemma frame_instruments_hypercall p : keeps frame (instruments_hypercall p).
Proof. unfold instruments_hypercall. frame_solve. Qed.
Hint Resolve frame_instruments_hypercall : keeps.
Lemma frame_a3_call p : keeps frame (a3_call p).
Proof. unfold a3_call. frame_solve. Qed.
Hint Resolve frame_a3_call : keeps.
Lemma frame_get_pv32 o : keeps frame (get_pv32 o).
Proof. unfold get_pv32. frame_solve. Qed.
Hint Resolve frame_get_pv32 : keeps.
Lemma frame_set_pv32 o x : keeps frame (set_pv32 o x).
Proof. unfold set_pv32. frame_solve. Qed.
Hint Resolve frame_set_pv32 : keeps.
Lemma frame_write_bar4 c : keeps frame (write_bar4 c).
Proof. unfold write_bar4. frame_solve. Qed.
Hint Resolve frame_write_bar4 : keeps.
Lemma frame_read_bar4 c : keeps frame (read_bar4 c).
Proof. unfold read_bar4. frame_solve. Qed.
Hint Resolve frame_read_bar4 : keeps.
End Frame.
