(* ===== verification/System.v ===== *)
(** * The aggregator as a whole ([context.cc], [device.cc], [session.cc])

    The device with all its contexts: sessions create a context per connection, the first
    message initialises it with the identifier of a free virtual GPU, the other messages
    are accesses of the guest, and the end of the session destroys it. *)

From S2P Require Import Prelude Config Vram PageTable Barrier Sched State Device Tables Shadow Bars Arena Remap Channel Playlist Context Bar0 Pv Frame.

(** The GPU, the device, the contexts that exist (by the address of the object), and the
    memory-map calls made so far. *)
Record system `{Platform} : Type := System {
  s_gpu : gpu;
  s_dev : device_t;
  s_ctxs : gmap Z context;
  s_xen : list xen_call
}.

Section System_.
Context `{PF : Platform}.

(** An operation of one context. *)
Definition on_context {A} (n : Z) (m : M world A) : M system A := fun s =>
  match s_ctxs s !! n with
  | None => Err UseAfterFree
  | Some c =>
      match m (World _ (s_gpu s) (s_dev s) c (s_xen s)) with
      | Ok (a, w) => Ok (a, System _ (w_gpu w) (w_dev w) (<[n := w_ctx w]> (s_ctxs s)) (w_xen w))
      | Err e => Err e
      end
  end.

(** ** Identifiers ([device.cc]) *)

(** [dynamic_bitset::find_first]: [npos], as a [uint32_t], when no bit is set. *)
Definition npos : Z := 0xffffffff.
Fixpoint find_first_from (n : nat) (i : Z) (v : vec bool) : Z :=
  match n with
  | O => npos
  | Datatypes.S n' => if vec_at v i then i else find_first_from n' (i + 1) v
  end.
Definition find_first (v : vec bool) : Z := find_first_from (Z.to_nat (vlen v)) 0 v.

Definition acquire_virt (ctx : Z) : M world Z :=
  let! d := get_dev_f id in
  let pos := find_first (d_virts d) in
  when (negb (pos =? npos))
    (let! v := vwrite (d_virts d) pos false in
     let! k := vwrite (d_contexts d) pos (Some ctx) in
     mod_dev (fun d => set_d_contexts k (set_d_virts v d))) ;;;
  on_sched (register_context ctx) ;;;
  ret pos.

Definition release_virt (virt ctx : Z) : M world unit :=
  let! d := get_dev_f id in
  let! v := vwrite (d_virts d) virt true in
  mod_dev (set_d_virts v) ;;;
  on_sched (unregister_context ctx) ;;;
  let! k := vwrite (d_contexts d) virt None in
  mod_dev (set_d_contexts k).

(** ** The life of a context ([context.cc]) *)

(** The members a constructed context has before [initialize]: the channels, the register
    file and the barrier do not exist, [domid_] is not set. *)
Definition context_new (self : Z) (through : bool) (t : card) : context :=
  Context self through false uninitialized 0 (bar1_channel_new false) bar3_channel_new
    (Vec 0 ∅ (fun i => Channel i false false 0 0 (shadow_page_table_new i) (Vram 0 0) (vec_make 0 false) i))
    (barrier_table_new 0 0) (poll_area_new t) (vec_make 0 0) [] 0 (pfifo_new t) instruments_new
    false None None ∅ 1 ∅ (vec_make A3_DOMAIN_CHANNELS None) None None None None None 0.

(** [session::start]: the object gets an address no live context has. *)
Definition session_start (n : Z) (through : bool) : M system unit := fun s =>
  if bool_decide (s_ctxs s !! n = None) then
    if bool_decide (d_card (s_dev s) = UNINITIALIZED) then Err AssertFail
    else
      let d := s_dev s in
      Ok (tt, System _ (s_gpu s) (set_d_sched (set_ctx n sched_ctx_new (d_sched d)) d)
                (<[n := context_new n through (d_card d)]> (s_ctxs s)) (s_xen s))
  else Err UseAfterFree.

(** The destructors of [channel], [shadow_page_table] and their pages. *)
Definition channel_delete (ch : channel) : M world unit :=
  page_delete (ch_shadow_ramin ch) ;;;
  for_each (sh_small_pool (ch_table ch)) page_delete ;;;
  for_each (sh_large_pool (ch_table ch)) page_delete ;;;
  match sh_phys (ch_table ch) with Some p => page_delete p | None => ret tt end.

(** [channels_[i].reset(new channel(i))] for every channel; a second initialisation deletes
    the channels of the first. *)
Definition initialize_channel (again : bool) (old : vec channel) (i : Z) (v : vec channel)
    : M world (vec channel) :=
  let! ch := channel_new i in
  let! v := vwrite v i ch in
  when again (let! o := vread old i in channel_delete o) ;;;
  ret v.

(** [int] from a [uint32_t]. *)
Definition to_int (v : Z) : Z := if v <? 2 ^ 31 then v else v - 2 ^ 32.

Definition context_initialize (dom : Z) (para : bool) : M world unit :=
  let! self := get_ctx_f c_self in
  let! vid := acquire_virt self in
  mod_ctx (fun c => set_c_para_virtualized para (set_c_domid dom (set_c_id vid c))) ;;;
  when para (mod_ctx (set_c_pv32 (Some (vec_make (A3_BAR4_SIZE / 4) (u32 uninitialized))))) ;;;
  mod_ctx (fun c => set_c_reg32 (vec_make (A3_BAR0_SIZE / 4) (u32 uninitialized))
    (set_c_barrier (barrier_table_new (get_address_shift vid) A3_MEMORY_SIZE)
    (set_c_bar3_channel bar3_channel_new (set_c_bar1_channel (bar1_channel_new para) c)))) ;;;
  let! c := get_ctx_f id in
  let old := c_channels c in
  let! v := for_acc (Z.to_nat A3_DOMAIN_CHANNELS) 0 (initialize_channel (c_initialized c) old)
              (Vec A3_DOMAIN_CHANNELS ∅ (vinit old)) in
  mod_ctx (fun c => set_c_initialized true (set_c_channels v c)) ;;;
  set_buffer vid.

(** [~context] with the members that own device memory: the para-virtual pages (the order
    of a hash table, here [order]), then the channels from the last to the first. *)
Definition context_delete (order : list Z) : M world unit :=
  let! c := get_ctx_f id in
  when (c_initialized c) (release_virt (c_id c) (c_self c)) ;;;
  for_each order (fun n => let! p := pv_deref n in page_delete p) ;;;
  for_ (Z.to_nat (vlen (c_channels c))) 0 (fun i =>
    let! ch := get_channel (vlen (c_channels c) - 1 - i) in channel_delete ch).

(** [session::~session] *)
Definition session_end (n : Z) (order : list Z) : M system unit :=
  on_context n (context_delete order) ;;;
  modify (fun s =>
    let d := s_dev s in
    let sch := SchedState (ss_dev (d_sched d)) (delete n (ss_ctx (d_sched d))) in
    System _ (s_gpu s) (set_d_sched sch d) (delete n (s_ctxs s)) (s_xen s)).

(** ** [context::handle] *)

Definition utility_register_read (o : Z) : M world unit :=
  let! v := reg_read32 o in set_buffer v.

Definition utility_pgraph_status : M world unit :=
  let! v := reg_read32 0x400700 in
  set_buffer v ;;;
  for_ 128 0 (fun pid => reg_read32 (0x3000 + 0x8 * pid + 0x4) ;;; ret tt).

(** Every context the device knows of. *)
Definition utility_clear : M system unit :=
  let! d := gets s_dev in
  for_ (Z.to_nat (vlen (d_contexts d))) 0 (fun i =>
    match vec_at (d_contexts d) i with
    | Some n => on_context n (mod_ctx (fun c =>
                  set_c_instruments (clear_shadowing_utilization (c_instruments c)) c))
    | None => ret tt
    end).

Definition handle_utility (n : Z) (cmd : command) : M system unit :=
  if value cmd =? 0 then on_context n utility_pgraph_status
  else if value cmd =? 1 then on_context n (utility_register_read (offset cmd))
  else if value cmd =? 2 then utility_clear
  else ret tt.

(** Through mode: the access goes to the GPU as it is. *)
Definition handle_through (cmd : command) : M world bool :=
  match type cmd with
  | TYPE_WRITE => device_write (bar cmd) (offset cmd) (value cmd) (size cmd) ;;; ret false
  | TYPE_READ =>
      let! v := device_read (bar cmd) (offset cmd) (size cmd) in
      set_buffer v ;;; ret true
  | _ => ret false
  end.

(** The accesses of a guest to its virtual GPU; the result says that the sender waits. *)
Definition handle_access (cmd : command) : M world bool :=
  match type cmd with
  | TYPE_WRITE =>
      if bar cmd =? 0 then write_bar0 cmd ;;; ret false
      else if bar cmd =? 1 then write_bar1 cmd ;;; ret false
      else if bar cmd =? 3 then write_bar3 cmd ;;; ret false
      else if bar cmd =? 4 then write_bar4 cmd ;;; ret true
      else ret false
  | TYPE_READ =>
      (if bar cmd =? 0 then read_bar0 cmd
       else if bar cmd =? 1 then read_bar1 cmd
       else if bar cmd =? 3 then read_bar3 cmd
       else if bar cmd =? 4 then read_bar4 cmd
       else ret tt) ;;;
      ret true
  | _ => ret false
  end.

(** Before [initialize] the handlers of an access meet null members; the model stops. *)
Definition handle (n : Z) (cmd : command) : M system bool :=
  match type cmd with
  | TYPE_INIT => on_context n (context_initialize (to_int (value cmd)) (negb (offset cmd =? 0))) ;;; ret false
  | TYPE_BAR3 =>
      on_context n (mod_ctx (set_c_bar3_address (u64 (Z.shiftl (value cmd) 12 + offset cmd)))) ;;; ret false
  | TYPE_UTILITY => handle_utility n cmd ;;; ret false
  | _ =>
      on_context n
        (let! c := get_ctx_f id in
         if c_through c then handle_through cmd
         else if c_initialized c then handle_access cmd
         else fail Uninitialized)
  end.

(** [session::handle_read] and [session::main] hand each message to [handle]; the reply is
    the buffer, when the sender waits for it. *)
Definition serve (n : Z) (cmd : command) : M system (option Z) :=
  let! wait := handle n cmd in
  if (wait : bool) then let! v := on_context n (get_ctx_f c_buffer) in ret (Some v) else ret None.

(** ** [device_t::device_t], [device_t::initialize] *)

(** What [initialize] builds once the PCI device is found; [bar3_base] is the bus address
    of the third BAR. The other fields of the device are those of the constructor. *)
Definition playlist_new (t : card) : playlist_t :=
  match t with NVC0 => Nvc0Playlist engine_new | _ => Nve0Playlist (vec_make 7 engine_new) end.

Definition device_initialize (bar3_base : Z) : M world unit :=
  mod_dev (fun d => set_d_pmem 0 (set_d_contexts (vec_make A3_VM_NUM None)
                      (set_d_virts (vec_make A3_VM_NUM true) d))) ;;;
  let! boot0 := device_read 0 0x0000 4 in
  mod_dev (set_d_card (chipset boot0)) ;;;
  mod_dev (set_d_vram (vram_manager_new A3_HYPERVISOR_DEVICE_MEM_BASE A3_HYPERVISOR_DEVICE_MEM_SIZE)) ;;;
  let! b1 := device_bar1_new in
  mod_dev (set_d_bar1 b1) ;;;
  let! b3 := device_bar3_new bar3_base in
  mod_dev (set_d_bar3 b3) ;;;
  let! t := chipset_type in
  mod_dev (set_d_playlist (playlist_new t)) ;;;
  let! pm := device_read 0 0x1700 4 in
  mod_dev (set_d_pmem pm) ;;;
  mod_dev (set_d_sched (SchedState (sched_dev_new 50) ∅)).

End System_.

(** ** Identifiers of virtual GPUs *)

Section Ids.
Context `{PF : Platform}.

(** What the sessions can do to the system: connect, send a message, disconnect. *)
Inductive sys_step : system -> system -> Prop :=
| step_start s n through s' : session_start n through s = Ok (tt, s') -> sys_step s s'
| step_serve s n cmd r s' : serve n cmd s = Ok (r, s') -> sys_step s s'
| step_end s n order s' : session_end n order s = Ok (tt, s') -> sys_step s s'.

(** The same as a program: a list of events. *)
Inductive event : Type :=
| Connect (n : Z) (through : bool) | Message (n : Z) (cmd : command) | Disconnect (n : Z) (order : list Z).
Definition run_event (e : event) : M system unit :=
  match e with
  | Connect n through => session_start n through
  | Message n cmd => serve n cmd ;;; ret tt
  | Disconnect n order => session_end n order
  end.
Definition run_events (l : list event) : M system unit := for_each l run_event.

Lemma run_events_steps l s s' : run_events l s = Ok (tt, s') -> rtc sys_step s s'.
Proof.
  revert s. induction l as [|e l IH]; intros s; unfold run_events; cbn [for_each]; [by intros [= <-]|].
  unfold bind. destruct (run_event e s) as [[[] s1]|] eqn:E; [|done]. intros H.
  eapply rtc_l; [|by apply IH]. destruct e as [n th|n cmd|n order]; cbn [run_event] in E.
  - by eapply step_start.
  - revert E. unfold bind. destruct (serve n cmd s) as [[r s2]|] eqn:E; [|done]. intros [= <-].
    by eapply step_serve.
  - by eapply step_end.
Qed.

(** The device after [device_t::initialize], without a context. *)
Record fresh_system (s : system) : Prop := FreshSystem {
  fresh_virts : d_virts (s_dev s) = vec_make A3_VM_NUM true;
  fresh_contexts : d_contexts (s_dev s) = vec_make A3_VM_NUM None;
  fresh_ctxs : s_ctxs s = ∅
}.

(** An initialised context holds the slot of its identifier, or has none. *)
Definition holds_slot (virts : vec bool) (slots : vec (option Z)) (n : Z) (c : context) : Prop :=
  c_initialized c = true ->
  c_id c = npos \/
  (0 <= c_id c < A3_VM_NUM /\ vec_at virts (c_id c) = false /\ vec_at slots (c_id c) = Some n).

Record ids_inv (s : system) : Prop := IdsInv {
  inv_virts : vlen (d_virts (s_dev s)) = A3_VM_NUM;
  inv_slots : vlen (d_contexts (s_dev s)) = A3_VM_NUM;
  inv_self n c : s_ctxs s !! n = Some c -> c_self c = n;
  inv_holds n c : s_ctxs s !! n = Some c -> holds_slot (d_virts (s_dev s)) (d_contexts (s_dev s)) n c
}.

Lemma npos_large : A3_VM_NUM <= npos.
Proof. by vm_compute. Qed.

(** [find_first] gives a free slot, or [npos] when there is none. *)
Lemma find_first_from_spec n i v :
  0 <= i -> i + Z.of_nat n < npos ->
  (i <= find_first_from n i v < i + Z.of_nat n /\ vec_at v (find_first_from n i v) = true)
  \/ (find_first_from n i v = npos /\ forall j, i <= j < i + Z.of_nat n -> vec_at v j = false).
Proof.
  revert i. induction n as [|n IH]; intros i Hi Hn; cbn [find_first_from].
  - right. split; [done|lia].
  - destruct (vec_at v i) eqn:E; [left; split; [lia|done]|].
    destruct (IH (i + 1)) as [[Hr Ha]|[Hr Ha]]; [lia|lia|left; split; [lia|done]|right].
    split; [done|]. intros j Hj. destruct (decide (j = i)) as [->|]; [done|apply Ha; lia].
Qed.

Lemma find_first_spec v :
  vlen v = A3_VM_NUM ->
  (0 <= find_first v < A3_VM_NUM /\ vec_at v (find_first v) = true)
  \/ (find_first v = npos /\ forall j, 0 <= j < A3_VM_NUM -> vec_at v j = false).
Proof.
  intros Hl. unfold find_first. rewrite Hl. apply (find_first_from_spec 2 0); by vm_compute.
Qed.

(** The state of the slots after an identifier was taken. *)
Definition slot_taken (n : Z) (virts virts' : vec bool) (slots slots' : vec (option Z)) (vid : Z) : Prop :=
  vlen virts' = vlen virts /\ vlen slots' = vlen slots /\
  ((vid = npos /\ virts' = virts /\ slots' = slots /\ forall j, 0 <= j < A3_VM_NUM -> vec_at virts j = false)
   \/ (0 <= vid < A3_VM_NUM /\ vec_at virts vid = true /\ vec_at virts' vid = false /\ vec_at slots' vid = Some n
       /\ forall j, j <> vid -> vec_at virts' j = vec_at virts j /\ vec_at slots' j = vec_at slots j)).

Lemma acquire_virt_spec n w vid w' :
  vlen (d_virts (w_dev w)) = A3_VM_NUM -> vlen (d_contexts (w_dev w)) = A3_VM_NUM ->
  acquire_virt n w = Ok (vid, w') ->
  slot_taken n (d_virts (w_dev w)) (d_virts (w_dev w')) (d_contexts (w_dev w)) (d_contexts (w_dev w')) vid
  /\ w_ctx w' = w_ctx w.
Proof.
  intros Hv Hs. unfold acquire_virt, get_dev_f, bind, gets. cbn [id]. unfold id.
  destruct (find_first_spec _ Hv) as [[Hr Ha]|[-> Ha]].
  - destruct (Z.eqb_spec (find_first (d_virts (w_dev w))) npos) as [E|_]; [pose proof npos_large; lia|].
    cbn [negb when]. unfold vwrite, of_option.
    destruct (vec_set_some (d_virts (w_dev w)) (find_first (d_virts (w_dev w))) false) as (v' & -> & Hl & Hat & Ho);
      [by rewrite Hv|].
    destruct (vec_set_some (d_contexts (w_dev w)) (find_first (d_virts (w_dev w))) (Some n))
      as (k' & -> & Hl2 & Hat2 & Ho2); [by rewrite Hs|].
    intros [= <- <-]. split; [|done]. split; [done|]. split; [done|]. right. naive_solver.
  - cbn [Z.eqb negb when]. intros [= <- <-]. split; [|done]. split; [done|]. split; [done|]. left. naive_solver.
Qed.

#[local] Hint Constants Opaque : keeps.
Hint Resolve keeps_vread keeps_vwrite keeps_get_channel keeps_identity : keeps.
Hint Resolve frame_device dev_page_new dev_page_delete frame_pv_deref dev_device_read dev_device_write
  dev_reg_read32 frame_set_buffer : keeps.
Hint Resolve identity_write_bar0 frame_write_bar1 frame_write_bar3 frame_write_bar4 frame_read_bar0
  frame_read_bar1 frame_read_bar3 frame_read_bar4 : keeps.

(** Deleting pages and creating channels keep the identity. *)
Lemma frame_channel_delete ch : keeps frame (channel_delete ch).
Proof.
  unfold channel_delete. keeps_solve.
Qed.
Hint Resolve frame_channel_delete : keeps.

Lemma frame_initialize_channel again old i v : keeps frame (initialize_channel again old i v).
Proof.
  unfold initialize_channel, channel_new. keeps_solve.
Qed.

Lemma context_initialize_spec dom para w w' :
  vlen (d_virts (w_dev w)) = A3_VM_NUM -> vlen (d_contexts (w_dev w)) = A3_VM_NUM ->
  context_initialize dom para w = Ok (tt, w') ->
  slot_taken (c_self (w_ctx w)) (d_virts (w_dev w)) (d_virts (w_dev w'))
    (d_contexts (w_dev w)) (d_contexts (w_dev w')) (c_id (w_ctx w'))
  /\ c_self (w_ctx w') = c_self (w_ctx w) /\ c_initialized (w_ctx w') = true
  /\ c_buffer (w_ctx w') = u32 (c_id (w_ctx w')).
Proof.
  intros Hv Hs. apply (wp_ok any_error (context_initialize dom para) (fun _ w' =>
    slot_taken (c_self (w_ctx w)) (d_virts (w_dev w)) (d_virts (w_dev w'))
      (d_contexts (w_dev w)) (d_contexts (w_dev w')) (c_id (w_ctx w'))
    /\ c_self (w_ctx w') = c_self (w_ctx w) /\ c_initialized (w_ctx w') = true
    /\ c_buffer (w_ctx w') = u32 (c_id (w_ctx w')))).
  unfold context_initialize. wp_step. apply wp_gets. wp_step. apply wp_runs. intros vid w1 E1.
  apply acquire_virt_spec in E1 as [Ht Hc]; [|done|done]. cbn beta.
  wp_step. apply wp_modify. wp_step.
  assert (Hpara : keeps identity (when para (mod_ctx (set_c_pv32 (Some (vec_make (A3_BAR4_SIZE / 4) (u32 uninitialized))))))).
  { apply keeps_when. by apply keeps_modify. }
  apply (wp_keeps _ _ _ _ Hpara). intros _ w2 H2. cbn beta. wp_step. apply wp_modify. wp_step. apply wp_gets.
  cbn beta zeta. wp_step. eapply (wp_keeps frame); [apply keeps_for_acc; intros; apply frame_initialize_channel|].
  intros v w3 H3. cbn beta. wp_step. apply wp_modify. apply wp_modify.
  injection H2 as Ev Es _ Eself _ _ _ Eid _ _. injection H3 as Ev3 Es3 _ Eself3 _ _ _ Eid3 _ _ _.
  cbn in *. rewrite Eid3, Eid, Ev3, Ev, Es3, Es, Eself3, Eself, Hc. done.
Qed.

(** ** Every step keeps the invariant *)

Lemma ids_inv_same s n c w :
  ids_inv s -> s_ctxs s !! n = Some c ->
  identity w = identity (World _ (s_gpu s) (s_dev s) c (s_xen s)) ->
  ids_inv (System _ (w_gpu w) (w_dev w) (<[n := w_ctx w]> (s_ctxs s)) (w_xen w)).
Proof.
  intros [Hv Hs Hself Hh] Hc. intros [= Ev Es _ Eself _ Ei _ Eid _ _].
  constructor; cbn [s_dev s_ctxs]; [by rewrite Ev|by rewrite Es| |];
    intros m c'; destruct (decide (n = m)) as [<-|Hne];
    rewrite ?lookup_insert_eq, ?lookup_insert_ne by done; intros H; simplify_eq.
  - rewrite Eself. by apply Hself.
  - by apply Hself.
  - unfold holds_slot. rewrite Ev, Es, Eid, Ei. by apply Hh.
  - rewrite Ev, Es. by apply Hh.
Qed.

Lemma on_context_identity {A} n (m : M world A) s :
  keeps identity m -> ids_inv s -> wp any_error (on_context n m) (fun _ s' => ids_inv s') s.
Proof.
  intros Hm Hi. unfold wp, on_context. destruct (s_ctxs s !! n) as [c|] eqn:Hc; [|done].
  destruct (m _) as [[a w]|] eqn:E; [|done]. exact (ids_inv_same _ _ _ _ Hi Hc (Hm _ _ _ E)).
Qed.

Lemma holds_slot_taken n m virts virts' slots slots' vid c :
  slot_taken n virts virts' slots slots' vid -> holds_slot virts slots m c ->
  holds_slot virts' slots' m c.
Proof.
  intros (_ & _ & [(_ & -> & -> & _)|(Hr & Ht & _ & _ & Ho)]) Hh Hi; [by apply Hh|].
  destruct (Hh Hi) as [?|(Hid & Hf & Hs)]; [by left|right].
  destruct (Ho (c_id c)) as [-> ->]; [by intros E; rewrite E in Hf; congruence|done].
Qed.

Lemma initialize_ids n dom para s :
  ids_inv s -> wp any_error (on_context n (context_initialize dom para)) (fun _ s' => ids_inv s') s.
Proof.
  intros [Hv Hs Hself Hh]. unfold wp, on_context. destruct (s_ctxs s !! n) as [c|] eqn:Hc; [|done].
  destruct (context_initialize _ _ _) as [[[] w]|] eqn:E; [|done].
  apply context_initialize_spec in E as (Ht & Es & Ei & _); [|done|done]. cbn [w_ctx w_dev] in *.
  pose proof Ht as (Hlv & Hls & Hcase). rewrite (Hself _ _ Hc) in *.
  constructor; cbn [s_dev s_ctxs]; [congruence|congruence| |];
    intros m c'; destruct (decide (n = m)) as [<-|Hne];
    rewrite ?lookup_insert_eq, ?lookup_insert_ne by done; intros H; simplify_eq; auto.
  - intros _. destruct Hcase as [(? & _)|(? & _ & ? & ? & _)]; [by left|by right].
  - eapply holds_slot_taken; [exact Ht|by apply Hh].
Qed.

Lemma utility_clear_ids s : ids_inv s -> wp any_error utility_clear (fun _ s' => ids_inv s') s.
Proof.
  intros Hi. unfold utility_clear. wp_step. wp_step. apply (wp_for _ (fun _ s => ids_inv s)); [done| |done].
  intros i s1 _ Hi1. cbn beta. destruct (vec_at _ i) as [n|]; [|done].
  apply on_context_identity; [|done]. by apply keeps_modify.
Qed.

Lemma identity_handle_through cmd : keeps identity (handle_through cmd).
Proof. unfold handle_through. keeps_solve. Qed.
Lemma identity_handle_access cmd : keeps identity (handle_access cmd).
Proof. unfold handle_access. keeps_solve. Qed.
Lemma identity_pgraph_status : keeps identity utility_pgraph_status.
Proof. unfold utility_pgraph_status. keeps_solve. Qed.
Lemma identity_register_read o : keeps identity (utility_register_read o).
Proof. unfold utility_register_read. keeps_solve. Qed.

Lemma handle_ids n cmd s : ids_inv s -> wp any_error (handle n cmd) (fun _ s' => ids_inv s') s.
Proof.
  intros Hi. unfold handle.
  assert (Hacc : wp any_error (on_context n
        (let! c := get_ctx_f id in
         if c_through c then handle_through cmd
         else if c_initialized c then handle_access cmd
         else fail Uninitialized)) (fun _ s' => ids_inv s') s).
  { apply on_context_identity; [|done]. apply keeps_bind; [apply keeps_gets|intros c].
    destruct (c_through c), (c_initialized c);
      first [apply identity_handle_through | apply identity_handle_access | apply keeps_fail]. }
  destruct (type cmd); try exact Hacc; wp_step; eapply wp_mono.
  - by apply initialize_ids.
  - by intros.
  - unfold handle_utility. destruct (value cmd =? 0); [by apply on_context_identity; [apply identity_pgraph_status|]|].
    destruct (value cmd =? 1); [by apply on_context_identity; [apply identity_register_read|]|].
    destruct (value cmd =? 2); [by apply utility_clear_ids|done].
  - by intros.
  - apply on_context_identity; [by apply keeps_modify|done].
  - by intros.
Qed.

Lemma serve_ids n cmd s : ids_inv s -> wp any_error (serve n cmd) (fun _ s' => ids_inv s') s.
Proof.
  intros Hi. unfold serve. wp_step. eapply wp_mono; [by apply handle_ids|].
  intros [] s1 Hi1; [|done]. wp_step. eapply wp_mono; [apply on_context_identity; [apply keeps_gets|done]|].
  by intros.
Qed.

Lemma start_ids n through s s' : session_start n through s = Ok (tt, s') -> ids_inv s -> ids_inv s'.
Proof.
  unfold session_start. case_bool_decide; [|done]. case_bool_decide; [done|].
  intros [= <-] [Hv Hs Hself Hh]. constructor; cbn [s_dev s_ctxs]; [done|done| |];
    intros m c'; destruct (decide (n = m)) as [<-|Hne];
    rewrite ?lookup_insert_eq, ?lookup_insert_ne by done; intros E; simplify_eq; auto.
  by intros [=].
Qed.

(** The slots after a context was destroyed. *)
Lemma context_delete_spec order w w' :
  vlen (d_virts (w_dev w)) = A3_VM_NUM -> vlen (d_contexts (w_dev w)) = A3_VM_NUM ->
  context_delete order w = Ok (tt, w') ->
  let vid := c_id (w_ctx w) in
  vlen (d_virts (w_dev w')) = A3_VM_NUM /\ vlen (d_contexts (w_dev w')) = A3_VM_NUM
  /\ (c_initialized (w_ctx w) = true -> 0 <= vid < A3_VM_NUM)
  /\ forall j, c_initialized (w_ctx w) = false \/ j <> vid ->
       vec_at (d_virts (w_dev w')) j = vec_at (d_virts (w_dev w)) j
       /\ vec_at (d_contexts (w_dev w')) j = vec_at (d_contexts (w_dev w)) j.
Proof.
  intros Hv Hs Hd vid. revert Hd. apply (wp_ok any_error (context_delete order) (fun _ w' =>
    vlen (d_virts (w_dev w')) = A3_VM_NUM /\ vlen (d_contexts (w_dev w')) = A3_VM_NUM
    /\ (c_initialized (w_ctx w) = true -> 0 <= vid < A3_VM_NUM)
    /\ forall j, c_initialized (w_ctx w) = false \/ j <> vid ->
       vec_at (d_virts (w_dev w')) j = vec_at (d_virts (w_dev w)) j
       /\ vec_at (d_contexts (w_dev w')) j = vec_at (d_contexts (w_dev w)) j)).
  unfold context_delete. wp_step. apply wp_gets. unfold id. cbn beta.
  wp_step. apply wp_runs. intros [] w1 E1. cbn beta.
  eapply (wp_keeps frame).
  { keeps_solve. }
  intros _ w2 H2. injection H2 as Ev Es _ _ _ _ _ _ _ _ _. rewrite Ev, Es.
  unfold when in E1. destruct (c_initialized (w_ctx w)) eqn:Ei.
  - revert E1. unfold release_virt, get_dev_f, vwrite, of_option, bind, gets, id, mod_dev, modify.
    destruct (vec_set (d_virts (w_dev w)) _ true) as [v|] eqn:E1; [|done].
    apply vec_set_inv in E1 as (Hr & Hl & _ & Ho). cbn [on_sched zoom unregister_context modify].
    cbn. destruct (vec_set _ _ None) as [k|] eqn:E2; [|done].
    intros [= <-]. cbn. apply vec_set_inv in E2 as (_ & Hl2 & _ & Ho2).
    split; [congruence|]. split; [congruence|]. split; [intros; subst vid; lia|].
    intros j [?|Hj]; [done|]. by rewrite Ho, Ho2.
  - injection E1 as <-. by split_and!.
Qed.

Lemma end_ids n order s : ids_inv s -> wp any_error (session_end n order) (fun _ s' => ids_inv s') s.
Proof.
  intros [Hv Hs Hself Hh]. unfold session_end. wp_step. apply wp_runs. intros [] s1. unfold on_context.
  destruct (s_ctxs s !! n) as [c|] eqn:Hc; [|done].
  destruct (context_delete _ _) as [[[] w]|] eqn:E; [|done]. intros [= <-].
  apply context_delete_spec in E as (Hlv & Hls & Hr & Ho); [|done|done]. cbn [w_dev w_ctx] in *.
  apply wp_modify. constructor; cbn [s_dev s_ctxs]; [done|done| |]; intros m c';
    rewrite delete_insert_eq; intros [Hne Hm]%lookup_delete_Some; [by apply Hself|].
  intros Hi. destruct (Hh m c' Hm Hi) as [?|(Hid & Hf & Hsl)]; [by left|right].
  assert (Hcase : c_initialized c = false \/ c_id c' <> c_id c).
  { destruct (c_initialized c) eqn:Hci; [right|by left]. intros E.
    destruct (Hh n c Hc Hci) as [E'|(_ & _ & Hsl')]; [specialize (Hr eq_refl); pose proof npos_large; lia|].
    congruence. }
  destruct (Ho _ Hcase) as [Ev Es]. cbn. by rewrite Ev, Es.
Qed.

Lemma fresh_ids s : fresh_system s -> ids_inv s.
Proof. intros [Hv Hs Hc]. constructor; rewrite ?Hv, ?Hs, ?Hc; done. Qed.

Lemma reachable_ids s0 s : fresh_system s0 -> rtc sys_step s0 s -> ids_inv s.
Proof.
  intros H0 Hr. apply fresh_ids in H0. induction Hr as [|? ? ? Hst _ IH]; [done|]. apply IH. clear IH.
  destruct Hst as [s n th s' E|s n cmd r s' E|s n order s' E].
  - by eapply start_ids.
  - exact (wp_ok _ _ _ _ _ _ (serve_ids n cmd s H0) E).
  - exact (wp_ok _ _ _ _ _ _ (end_ids n order s H0) E).
Qed.


(** A context without an identifier cannot be destroyed. *)
Lemma release_virt_npos ctx w :
  vlen (d_virts (w_dev w)) = A3_VM_NUM -> release_virt npos ctx w = Err OutOfBounds.
Proof.
  intros Hv. unfold release_virt, get_dev_f, bind, gets, vwrite, of_option, vec_set, id. by rewrite Hv.
Qed.

Lemma session_end_npos n c order s :
  s_ctxs s !! n = Some c -> c_initialized c = true -> c_id c = npos ->
  vlen (d_virts (s_dev s)) = A3_VM_NUM -> session_end n order s = Err OutOfBounds.
Proof.
  intros Hc Hi Hid Hv. unfold session_end, on_context. unfold bind at 1. rewrite Hc.
  unfold context_delete, get_ctx_f. unfold bind at 1, gets, id. cbn [w_ctx]. rewrite Hi, Hid.
  cbn [when]. unfold bind at 1. by rewrite release_virt_npos.
Qed.

End Ids.

(** Two machines connect to the simulated device. *)
Definition sim_system : @system sim_platform :=
  @System sim_platform (SimGpu ∅ 0 ∅) sim_device ∅ [].
Definition sim_init (dom : Z) : command := Command TYPE_INIT dom 0 0 0.
Definition sim_two : list event :=
  [Connect 1 false; Message 1 (sim_init 5); Connect 2 false; Message 2 (sim_init 6)].

Definition sim_ready (s : @system sim_platform) : bool :=
  match s_ctxs s !! 1, s_ctxs s !! 2 with
  | Some c, Some c' => c_initialized c && c_initialized c' && negb (c_id c =? npos) && negb (c_id c' =? npos)
  | _, _ => false
  end.

Lemma sim_system_fresh : fresh_system sim_system.
Proof. by constructor. Qed.

Lemma sim_two_ready :
  exists s c c', rtc sys_step sim_system s /\ s_ctxs s !! 1 = Some c /\ s_ctxs s !! 2 = Some c'
    /\ c_initialized c = true /\ c_initialized c' = true /\ c_id c <> npos /\ c_id c' <> npos.
Proof.
  assert (H : match run_events sim_two sim_system with Ok (_, s) => sim_ready s | Err _ => false end = true)
    by (vm_compute; reflexivity).
  destruct (run_events sim_two sim_system) as [[[] s]|] eqn:E; [|discriminate H].
  apply run_events_steps in E. unfold sim_ready in H.
  destruct (s_ctxs s !! 1) as [c|] eqn:Hc; [|discriminate H].
  destruct (s_ctxs s !! 2) as [c'|] eqn:Hc'; [|discriminate H].
  exists s, c, c'. apply andb_prop in H as [[[H1 H2]%andb_prop H3]%andb_prop H4].
  apply negb_true_iff, Z.eqb_neq in H3, H4. done.
Defined.


