(* ===== verification/Registers.v ===== *)
(** * Properties of the register handlers ([context_bar0.cc])

    Registers A3 remembers read back what the guest wrote, whatever A3 sends to the GPU;
    channel instances are renamed on the way to the GPU and back; and the window on video
    memory is moved by the guest without a bound. *)

From S2P Require Import Prelude Config Vram PageTable Barrier Sched State Device Tables Shadow Bars Arena Remap Channel Playlist Context Bar0 Pv Frame System.

(** ** Remembered registers *)

Section Remembered.
Context `{PF : Platform}.

Definition remembered : list Z :=
  [0x001700; 0x001704; 0x001714; 0x002254; 0x002270; 0x002634; 0x100cb8; 0x100cbc; 0x409500;
   0x409504; 0x4188b4; 0x4188b8; 0x610010].

(** Only remembered: nothing is done with the value yet. *)
Definition only_remembered : list Z := [0x001700; 0x002270; 0x100cb8; 0x409500].

Definition wr (o v : Z) : command := Command TYPE_WRITE v o 0 4.
Definition rd (o : Z) : command := Command TYPE_READ 0 o 0 4.

(** The register file has a word for [o] and it holds [v]. *)
Definition reg_is (o v : Z) (w : world) : Prop := vec_get (c_reg32 (w_ctx w)) (o / 4) = Some v.

Lemma set_reg32_spec o v w :
  wp any_error (set_reg32 o v) (fun _ w' => reg_is o v w') w.
Proof.
  unfold set_reg32, get_ctx_f, vwrite. wp_step. wp_step. wp_step.
  destruct (vec_set _ _ v) as [r|] eqn:E; [|done]. apply (wp_of_option _ _ _ r); [done|]. apply wp_modify.
  apply vec_set_inv in E as (Hr & Hl & Ha & _). unfold reg_is. cbn.
  rewrite vec_get_some by (rewrite Hl; lia). by rewrite Ha.
Qed.

Lemma frame_reg_is {A} o v (m : M world A) w :
  keeps frame m -> reg_is o v w -> wp any_error m (fun _ w' => reg_is o v w') w.
Proof.
  intros Hm Hr. apply (wp_keeps frame); [done|]. intros a w' E%(f_equal snd). cbn in E.
  unfold reg_is. by rewrite E.
Qed.

(** A handler that remembers the value and then works with it. *)
Lemma remember_then {A} o v (m : M world A) w :
  keeps frame m -> wp any_error (set_reg32 o v ;;; m) (fun _ w' => reg_is o v w') w.
Proof.
  intros Hm. wp_step. eapply wp_mono; [apply set_reg32_spec|]. intros u w1 H1. by apply frame_reg_is.
Qed.

#[local] Hint Constants Opaque : keeps.
Hint Resolve frame_device keeps_get_ctx_f keeps_get_dev_f keeps_get_channel frame_get_reg32 dev_reg_write32
  dev_wait_eq frame_bar1_refresh frame_bar3_refresh frame_bar1_channel_refresh
  frame_bar3_channel_refresh frame_bar1_refresh_poll_area frame_context_playlist_update
  frame_flush_tlb frame_channel_flush : keeps.

(** The handler [h] of the register, up to the point where the value is remembered. *)
Tactic Notation "remembers" reference(h) :=
  lazy beta zeta iota delta [write_bar0 wr offset Z.eqb Pos.eqb one_of existsb orb];
  unfold h; repeat (wp_step; first [apply wp_gets | apply wp_modify]); apply remember_then; keeps_solve.

Lemma kill_remembers v w :
  v < A3_DOMAIN_CHANNELS ->
  wp any_error (write_channel_kill (wr 0x002634 v)) (fun _ w' => reg_is 0x002634 v w') w.
Proof.
  intros Hk. unfold write_channel_kill. cbn [value wr].
  destruct (Z.leb_spec A3_DOMAIN_CHANNELS v); [lia|]. wp_step. apply wp_gets. wp_step.
  apply (wp_keeps frame); [apply (dev_reg_write32 frame)|]. intros [] w1 _. wp_step.
  apply (wp_keeps frame); [apply (dev_wait_eq frame)|]. intros b w2 _. apply set_reg32_spec.
Qed.

Lemma write_remembers o v w :
  o ∈ remembered -> (o = 0x002634 -> v < A3_DOMAIN_CHANNELS) ->
  wp any_error (write_bar0 (wr o v)) (fun _ w' => reg_is o v w') w.
Proof.
  unfold remembered. rewrite !elem_of_cons, elem_of_nil. intros Ho Hk.
  destruct_or! Ho; subst o; try exact (set_reg32_spec _ v w).
  - remembers write_bar1_channel.
  - remembers write_bar3_channel.
  - remembers write_poll_area.
  - exact (kill_remembers v w (Hk eq_refl)).
  - remembers write_flush_trigger.
  - remembers write_wrcmd.
  - remembers write_gpc_bcast.
  - remembers write_gpc_bcast.
  - remembers write_pdisplay.
Qed.

(** ** Accesses to other registers *)

Definition accesses (l : list command) : M world unit := for_each l (fun cmd => handle_access cmd ;;; ret tt).

(** An access that is not a write to the register [o]. *)
Definition other_access (o : Z) (cmd : command) : Prop :=
  type cmd = TYPE_READ \/ bar cmd <> 0 \/ offset cmd / 4 <> o / 4.

(** The word of the register file that belongs to [o]. *)
Definition reg_word (o : Z) (w : world) : option Z := vec_get (c_reg32 (w_ctx w)) (o / 4).

Lemma word_frame {A} o (m : M world A) : keeps frame m -> keeps (reg_word o) m.
Proof. intros Hm w a w' E%Hm%(f_equal snd). cbn in E. unfold reg_word. by rewrite E. Qed.

Lemma word_set_reg32 o o' v : o' / 4 <> o / 4 -> keeps (reg_word o) (set_reg32 o' v).
Proof.
  intros Hne w a w'. unfold set_reg32, get_ctx_f, vwrite, of_option, bind, gets.
  destruct (vec_set _ _ v) as [r|] eqn:E; [|done]. intros [= _ <-].
  apply vec_set_inv in E as (_ & Hl & _ & Ho). unfold reg_word, vec_get. cbn. by rewrite Hl, Ho by done.
Qed.

Hint Resolve frame_write_bar1 frame_write_bar3 frame_write_bar4 frame_read_bar0 frame_read_bar1
  frame_read_bar3 frame_read_bar4 frame_write_gphys frame_channel_refresh frame_encode_to_shadow_ramin dev_reg_write
  dev_wait_eq : keeps.

(** A part of a handler: it remembers the value of the register written, or changes no
    register. *)
Ltac word_step H :=
  lazymatch goal with
  | |- keeps (reg_word _) (set_reg32 _ _) => apply (word_set_reg32 _ _ _ H)
  | |- keeps (reg_word _) (bind _ _) => apply keeps_bind; [|intros ?]
  | |- keeps (reg_word _) (if ?b then _ else _) => destruct b
  | |- keeps (reg_word _) (let _ := _ in _) => cbv zeta
  | |- keeps (reg_word _) _ => apply word_frame; solve [frame_solve]
  end.

Lemma word_write_bar0 o cmd : offset cmd / 4 <> o / 4 -> keeps (reg_word o) (write_bar0 cmd).
Proof.
  intros Hne.
  unfold write_bar0, write_bar1_channel, write_bar3_channel, write_poll_area, write_playlist_len, write_channel_kill,
    write_flush_trigger, write_pcopy, write_pair, write_wrcmd, write_gpc_bcast, write_pdisplay, write_bar0_rest, pfifo_write.
  repeat word_step Hne.
Qed.

Lemma word_accesses o l : Forall (other_access o) l -> keeps (reg_word o) (accesses l).
Proof.
  unfold accesses. induction 1 as [|cmd l Hc _ IH]; cbn [for_each]; [apply keeps_ret|].
  apply keeps_bind; [|done]. apply keeps_bind; [|intros; apply keeps_ret]. unfold handle_access.
  destruct Hc as [->|[Hb%Z.eqb_neq|Hne]].
  - apply word_frame. keeps_solve.
  - rewrite Hb. apply word_frame. keeps_solve.
  - destruct (type cmd); try (apply keeps_ret); [|apply word_frame; keeps_solve].
    destruct (bar cmd =? 0); [apply keeps_bind; [by apply word_write_bar0|intros; apply keeps_ret]|].
    apply word_frame. keeps_solve.
Qed.

Lemma get_reg32_is o v w : reg_is o v w -> get_reg32 o w = Ok (v, w).
Proof. intros Hr. unfold get_reg32, get_ctx_f, vread, of_option, bind, gets. unfold reg_is in Hr. by rewrite Hr. Qed.

Lemma read_remembered o v w :
  o ∈ remembered -> reg_is o v w -> 0 <= v < 2 ^ 32 ->
  handle_access (rd o) w = Ok (true, set_w_ctx (set_c_buffer v (w_ctx w)) w).
Proof.
  intros Ho Hr Hv. assert (E : read_bar0 (rd o) = read_shadowed (rd o)).
  { revert Ho. unfold remembered. rewrite !elem_of_cons, elem_of_nil. intros Ho. destruct_or! Ho; by subst o. }
  unfold handle_access. cbn [type rd bar Z.eqb]. rewrite E. unfold read_shadowed, bind. cbn [offset rd].
  rewrite (get_reg32_is _ _ _ Hr). unfold set_buffer. by rewrite u32_small by lia.
Qed.

(** C34: A register that A3 remembers reads back the value the guest wrote last, after any
    accesses to other registers and other regions of the device, and the read does not touch
    the GPU - whatever translated value A3 sent there. For the registers that are only
    remembered the write touches nothing else and always succeeds. *)
Theorem register_roundtrip o v l w w1 w2 wait :
  o ∈ remembered -> (o = 0x002634 -> v < A3_DOMAIN_CHANNELS) -> 0 <= v < 2 ^ 32 ->
  Forall (other_access o) l ->
  handle_access (wr o v) w = Ok (wait, w1) -> accesses l w1 = Ok (tt, w2) ->
  handle_access (rd o) w2 = Ok (true, set_w_ctx (set_c_buffer v (w_ctx w2)) w2)
  /\ (o ∈ only_remembered -> forall w0, vlen (c_reg32 (w_ctx w0)) = A3_BAR0_SIZE / 4 ->
      exists regs, handle_access (wr o v) w0 = Ok (false, set_w_ctx (set_c_reg32 regs (w_ctx w0)) w0)).
Proof.
  intros Ho Hk Hv Hl Ew El. split.
  - apply read_remembered; [done| |done].
    assert (H1 : reg_is o v w1).
    { revert Ew. unfold handle_access. cbn [type wr bar Z.eqb]. unfold bind.
      pose proof (write_remembers o v w Ho Hk) as Hw. unfold wp in Hw.
      destruct (write_bar0 (wr o v) w) as [[[] w']|]; [|done]. by intros [= _ <-]. }
    unfold reg_is in *. rewrite <- H1. exact (word_accesses o l Hl _ _ _ El).
  - unfold only_remembered. rewrite !elem_of_cons, elem_of_nil. intros Ho' w0 Hlen.
    assert (Hr : 0 <= o / 4 < vlen (c_reg32 (w_ctx w0))).
    { rewrite Hlen. destruct_or! Ho'; subst o; by vm_compute. }
    destruct (vec_set_some _ _ v Hr) as (regs & E & _). exists regs.
    assert (Es : set_reg32 o v w0 = Ok (tt, set_w_ctx (set_c_reg32 regs (w_ctx w0)) w0)).
    { unfold set_reg32, get_ctx_f, vwrite, of_option, bind, gets. by rewrite E. }
    unfold handle_access. cbn [type wr bar Z.eqb]. unfold bind.
    destruct_or! Ho'; subst o; change (write_bar0 (wr ?o v)) with (set_reg32 o v); by rewrite Es.
Qed.
End Remembered.

Lemma register_roundtrip_witness :
  exists w1 w2, @handle_access sim_platform (wr 0x4188b4 0x1234) sim_world = Ok (false, w1)
    /\ @accesses sim_platform [rd 0x409500; wr 0x4188b8 7; Command TYPE_WRITE 1 0x40 3 4] w1 = Ok (tt, w2)
    /\ @handle_access sim_platform (rd 0x4188b4) w2 = Ok (true, set_w_ctx (set_c_buffer 0x1234 (w_ctx w2)) w2).
Proof.
  assert (H : match @handle_access sim_platform (wr 0x4188b4 0x1234) sim_world with
    | Ok (b, w1) => negb b && is_ok (@accesses sim_platform [rd 0x409500; wr 0x4188b8 7; Command TYPE_WRITE 1 0x40 3 4] w1)
    | Err _ => false end = true) by (vm_compute; reflexivity).
  destruct (@handle_access sim_platform (wr 0x4188b4 0x1234) sim_world) as [[[] w1]|] eqn:E1;
    [discriminate H| |discriminate H].
  destruct (@accesses sim_platform [rd 0x409500; wr 0x4188b8 7; Command TYPE_WRITE 1 0x40 3 4] w1) as [[[] w2]|] eqn:E2;
    [|discriminate H].
  exists w1, w2. split; [reflexivity|]. split; [exact E2|].
  refine (proj1 (register_roundtrip 0x4188b4 0x1234 _ sim_world w1 w2 false _ _ _ _ E1 E2)).
  - unfold remembered. set_solver.
  - discriminate.
  - split; by vm_compute.
  - apply Forall_cons; split; [by left|]. apply Forall_cons; split; [by right; right|].
    apply Forall_cons; split; [by right; left|]. by apply Forall_nil.
Defined.

(** ** The window on video memory *)

Section Window.
Context `{PF : Platform} {PR : Pramin PF} {PL : PraminLaws PF PR}.

Lemma write_bar0_window cmd : 0x700000 <= offset cmd -> write_bar0 cmd = write_bar0_rest cmd.
Proof.
  intros Ho. unfold write_bar0, one_of, existsb.
  repeat match goal with |- context [offset cmd =? ?n] => rewrite (proj2 (Z.eqb_neq (offset cmd) n)) by lia end.
  reflexivity.
Qed.

(** The base register and the offset with which machine [id] reaches [a]. *)
Definition window_base_for (id a : Z) : Z := (a - id * vram_size) mod 2 ^ 44 / 2 ^ 16.
Definition window_offset_for (id a : Z) : Z := 0x700000 + (a - id * vram_size) mod 2 ^ 16.

Lemma window_for_address id a :
  valid_id id ->
  pramin_address id (window_base_for id a) (window_offset_for id a)
  = id * vram_size + (a - id * vram_size) mod 2 ^ 44.
Proof.
  intros Hid. unfold pramin_address, window_base_for, window_offset_for. set (x := a - id * vram_size).
  assert (Hx : 0 <= x mod 2 ^ 44 < 2 ^ 44) by zlia.
  assert (Hm : x mod 2 ^ 16 = (x mod 2 ^ 44) mod 2 ^ 16).
  { symmetry. apply Z.mod_mod_divide. by exists (2 ^ 28). }
  rewrite Z.shiftl_mul_pow2 by lia. rewrite Hm.
  assert (0 <= x mod 2 ^ 44 / 2 ^ 16 < 2 ^ 28) by zlia.
  rewrite get_phys_address_eq by (done || lia).
  pose proof (Z.div_mod (x mod 2 ^ 44) (2 ^ 16)). unfold valid_id, vram_size in *. revert Hid. consts. intros Hid.
  rewrite u64_small by zlia. lia.
Qed.

(** The machine has the barrier of its own partition. *)
Record own_barrier (w : world) : Prop := OwnBarrier {
  ob_id : valid_id (c_id (w_ctx w));
  ob_regs : vlen (c_reg32 (w_ctx w)) = A3_BAR0_SIZE / 4;
  ob_wf : barrier_wf (c_barrier (w_ctx w));
  ob_base : bt_base (c_barrier (w_ctx w)) = get_address_shift (c_id (w_ctx w));
  ob_size : bt_size (c_barrier (w_ctx w)) = vram_size
}.

(** A write through the window where no barrier is. *)
Lemma write_gphys_plain gphys cmd w :
  synced w -> barrier_wf (c_barrier (w_ctx w)) -> barriered (c_barrier (w_ctx w)) gphys = false ->
  0 <= gphys < 2 ^ 64 -> fits gphys (size cmd) ->
  wp no_error (write_gphys gphys cmd)
    (fun _ w' => synced w' /\ pmem_frame w w'
       /\ forall x, mem w' x = store (size cmd) (gphys mod 2 ^ 44) (u32 (value cmd) mod 2 ^ (8 * size cmd)) (mem w) x) w.
Proof.
  intros Hs Hwf Hb Hg Hf. unfold write_gphys, pmem_write. rewrite u64_small by lia. wp_step.
  eapply wp_mono; [by apply write_pmem_spec|]. intros [] w1 (Hs1 & Hf1 & Hm1). wp_step.
  pose proof (fr_ctx _ _ Hf1) as Hc. apply wp_lookup; rewrite Hc; [done|]. intros r ->. rewrite Hb. by apply wp_ret.
Qed.

Lemma set_reg32_total o v w :
  0 <= o / 4 < vlen (c_reg32 (w_ctx w)) ->
  exists regs, set_reg32 o v w = Ok (tt, set_w_ctx (set_c_reg32 regs (w_ctx w)) w)
    /\ vec_get regs (o / 4) = Some v.
Proof.
  intros Hr. destruct (vec_set_some _ _ v Hr) as (regs & E & Hl & Ha & _). exists regs.
  unfold set_reg32, get_ctx_f, vwrite, of_option, bind, gets. rewrite E. split; [done|].
  rewrite vec_get_some by (rewrite Hl; lia). by rewrite Ha.
Qed.

Lemma out_of_barrier id a w :
  own_barrier w -> id = c_id (w_ctx w) -> 0 <= a < 2 ^ 44 -> ~ in_partition id a ->
  barriered (c_barrier (w_ctx w)) (id * vram_size + (a - id * vram_size) mod 2 ^ 44) = false.
Proof.
  intros [Hid _ Hwf Hb Hsz] -> Ha Hout. unfold barriered, barrier_in_range.
  rewrite Hb, Hsz, get_address_shift_eq by done.
  destruct (Z.leb_spec (c_id (w_ctx w) * vram_size)
    (c_id (w_ctx w) * vram_size + (a - c_id (w_ctx w) * vram_size) mod 2 ^ 44)); [|done].
  unfold in_partition, valid_id, vram_size in *. revert Hid Hout. consts. intros Hid Hout.
  rewrite (proj2 (Z.ltb_ge _ _)); [done|]. rewrite u64_small by lia. zlia.
Qed.

(** Two register accesses in a row. *)
Lemma accesses_two c1 c2 w w1 w2 b1 b2 :
  handle_access c1 w = Ok (b1, w1) -> handle_access c2 w1 = Ok (b2, w2) -> accesses [c1; c2] w = Ok (tt, w2).
Proof. intros E1 E2. unfold accesses. cbn [for_each]. unfold bind, ret. by rewrite E1, E2. Qed.

Lemma access_register_write v o sz w w' :
  write_bar0 (Command TYPE_WRITE v o 0 sz) w = Ok (tt, w') ->
  handle_access (Command TYPE_WRITE v o 0 sz) w = Ok (false, w').
Proof. intros E. unfold handle_access. cbn [type bar Z.eqb]. unfold bind, ret. by rewrite E. Qed.

(** The window on video memory has no bound: whatever partition a machine has, two
    register writes store any value it likes at any address outside it - the memory of the
    other machines and A3's own tables included. *)
Theorem window_escape a v sz w :
  own_barrier w -> synced w -> 0 <= a < 2 ^ 44 -> ~ in_partition (c_id (w_ctx w)) a -> fits a sz ->
  0 <= v < 2 ^ 32 ->
  exists w', accesses [wr 0x001700 (window_base_for (c_id (w_ctx w)) a);
                       Command TYPE_WRITE v (window_offset_for (c_id (w_ctx w)) a) 0 sz] w = Ok (tt, w')
    /\ forall x, mem w' x = store sz a (v mod 2 ^ (8 * sz)) (mem w) x.
Proof.
  intros Hob Hs Ha Hout [Hsz Hfit] Hv. set (id := c_id (w_ctx w)) in *.
  pose proof (ob_id _ Hob) as Hid. fold id in Hid.
  destruct (set_reg32_total 0x1700 (window_base_for id a) w) as (regs & E1 & Hr1).
  { rewrite (ob_regs _ Hob). by vm_compute. }
  set (w1 := set_w_ctx _ w) in E1.
  assert (Hoff : 0x700000 <= window_offset_for id a < 0x800000) by (unfold window_offset_for; zlia).
  set (x := id * vram_size + (a - id * vram_size) mod 2 ^ 44).
  assert (Hxa : x mod 2 ^ 44 = a).
  { unfold x. rewrite Zplus_mod_idemp_r. replace (_ + _) with a by lia. apply Z.mod_small. lia. }
  assert (Hx : 0 <= x < 2 ^ 63).
  { unfold x, valid_id, vram_size in *. clear - Hid. revert Hid. consts. intros. zlia. }
  assert (Hfit' : fits x sz).
  { split; [done|]. rewrite <- Hxa in Hfit. rewrite Z.mod_mod_divide in Hfit; [done|by exists (2 ^ 24)]. }
  destruct (wp_total _ _ _ (write_gphys_plain x (Command TYPE_WRITE v (window_offset_for id a) 0 sz) w1
    Hs (ob_wf _ Hob) (out_of_barrier id a w Hob eq_refl Ha Hout) ltac:(lia) Hfit')) as ([] & w2 & E2 & _ & _ & Hm).
  exists w2. split.
  - eapply accesses_two; apply access_register_write; [exact E1|].
    rewrite write_bar0_window by (cbn; lia). unfold write_bar0_rest, bind, get_ctx_f, gets. cbn [offset].
    unfold Datatypes.id. rewrite (proj2 (Z.leb_le _ _)), (proj2 (Z.ltb_lt _ _)) by lia. cbn [andb].
    rewrite (get_reg32_is 0x1700 (window_base_for id a) w1) by exact Hr1.
    change (c_id (w_ctx w1)) with id. rewrite window_for_address by done. fold x. by rewrite E2.
  - intros y. rewrite Hm. cbn [size value]. rewrite Hxa, u32_small by lia. done.
Qed.
End Window.

Lemma sim_own_barrier : own_barrier sim_world.
Proof.
  constructor; [split; by vm_compute|reflexivity|exact sim_barrier_wf|reflexivity|reflexivity].
Qed.

Lemma window_escape_witness :
  exists w', @accesses sim_platform [wr 0x001700 0x8123; Command TYPE_WRITE 0xdead 0x704560 0 4] sim_world = Ok (tt, w')
    /\ in_partition 1 0x81234560 /\ load 4 0x81234560 (@mem _ sim_pramin w') = 0xdead.
Proof.
  destruct (@window_escape sim_platform sim_pramin sim_pramin_laws 0x81234560 0xdead 4 sim_world)
    as (w' & E & Hm).
  - exact sim_own_barrier.
  - reflexivity.
  - split; by vm_compute.
  - intros [_ H]. by vm_compute in H.
  - split; [reflexivity|by vm_compute].
  - split; by vm_compute.
  - exists w'. split; [exact E|]. split; [split; by vm_compute|].
    rewrite (load_ext 4 0x81234560 _ _ ltac:(lia) (fun x _ => Hm x)). vm_compute. reflexivity.
Defined.

(** ** Channel instances of the copy engines *)

Section Pcopy.
Context `{PF : Platform}.

(** What the renaming of channel [j] depends on. *)
Definition wired (ch : channel) : bool * Z * page := (ch_enabled ch, ch_ramin_address ch, ch_shadow_ramin ch).
Definition wiring (j : Z) (w : world) :=
  (vlen (c_channels (w_ctx w)), wired (vec_at (c_channels (w_ctx w)) j), c_id (w_ctx w)).

Lemma wiring_mod_channel j i f : (forall ch, wired (f ch) = wired ch) -> keeps (wiring j) (mod_channel i f).
Proof.
  intros Hf w [] w'. unfold mod_channel, get_ctx_f, vread, vwrite, of_option, bind, gets.
  destruct (vec_get _ i) as [ch|] eqn:E; [|done]. apply vec_get_inv in E as [_ ->].
  unfold ret. cbn beta iota. destruct (vec_set _ i _) as [v|] eqn:E; [|done].
  apply vec_set_inv in E as (_ & Hl & Ha & Ho). intros [= <-]. unfold wiring. cbn. rewrite Hl. destruct (decide (j = i)) as [->|Hne].
  - by rewrite Ha, Hf.
  - by rewrite Ho.
Qed.

#[export] Instance wiring_device j : DeviceFrame (wiring j).
Proof. by constructor. Qed.

#[local] Hint Constants Opaque : keeps.
Hint Resolve wiring_device keeps_get_channel dev_wait_eq dev_wait_ne dev_reg_write32
  dev_sh_refresh_page_directories : keeps.

Lemma wiring_channel_flush j i : keeps (wiring j) (channel_flush i).
Proof.
  unfold channel_flush, flush_directory.
  repeat first [solve [auto with keeps] | keeps_step
    | lazymatch goal with
      | |- keeps _ (mod_channel _ _) => by apply wiring_mod_channel
      | |- keeps _ (mod_ctx _) => by apply keeps_modify
      end].
Qed.

(** A 28-bit page number under four flag bits. *)
Lemma flags_page v n :
  0 <= v < 2 ^ 32 -> 0 <= n < 2 ^ 28 ->
  let r := u32 (Z.lor (bit_clear 28 v) n) in bit_mask 28 r = n /\ bit_clear 28 r = bit_clear 28 v.
Proof.
  intros Hv Hn r.
  assert (E : r = v - v mod 2 ^ 28 + n).
  { unfold r. rewrite bit_clear_sub by lia.
    replace (v - v mod 2 ^ 28) with (v / 2 ^ 28 * 2 ^ 28) by zlia.
    rewrite (lor_add_disjoint 28) by lia. rewrite u32_small by zlia. lia. }
  assert (0 <= r < 2 ^ 32) by (unfold r; apply u32_range).
  rewrite bit_mask_mod, !bit_clear_sub by lia. rewrite E. split; zlia.
Qed.

(** Channel [i] is the one registered for the guest's instance [v], and its shadow page is
    a page of its own. *)
Record instance_of (v i : Z) (w : world) : Prop := InstanceOf {
  io_id : valid_id (c_id (w_ctx w));
  io_len : vlen (c_channels (w_ctx w)) = A3_DOMAIN_CHANNELS;
  io_range : 0 <= i < A3_DOMAIN_CHANNELS;
  io_first : exists l, equal_range (get_phys_address (c_id (w_ctx w)) (Z.shiftl (bit_mask 28 v) 12))
    (c_ramin_channel_map (w_ctx w)) = i :: l;
  io_enabled : ch_enabled (vec_at (c_channels (w_ctx w)) i) = true;
  io_ramin : ch_ramin_address (vec_at (c_channels (w_ctx w)) i)
    = get_phys_address (c_id (w_ctx w)) (Z.shiftl (bit_mask 28 v) 12);
  io_page : exists n, address_ (ch_shadow_ramin (vec_at (c_channels (w_ctx w)) i)) = Z.shiftl n 12
    /\ 0 < n < 2 ^ 28;
  io_own j : 0 <= j < A3_DOMAIN_CHANNELS -> j <> i -> ch_enabled (vec_at (c_channels (w_ctx w)) j) = true ->
    address_ (ch_shadow_ramin (vec_at (c_channels (w_ctx w)) j))
    <> address_ (ch_shadow_ramin (vec_at (c_channels (w_ctx w)) i))
}.

(** The lookup by shadow page finds the channel. *)
Lemma shadow_ramin_to_phys_spec i w :
  vlen (c_channels (w_ctx w)) = A3_DOMAIN_CHANNELS -> 0 <= i < A3_DOMAIN_CHANNELS ->
  ch_enabled (vec_at (c_channels (w_ctx w)) i) = true ->
  (forall j, 0 <= j < A3_DOMAIN_CHANNELS -> j <> i -> ch_enabled (vec_at (c_channels (w_ctx w)) j) = true ->
    address_ (ch_shadow_ramin (vec_at (c_channels (w_ctx w)) j))
    <> address_ (ch_shadow_ramin (vec_at (c_channels (w_ctx w)) i))) ->
  wp no_error (shadow_ramin_to_phys (address_ (ch_shadow_ramin (vec_at (c_channels (w_ctx w)) i))))
    (fun r w' => r = Some (ch_ramin_address (vec_at (c_channels (w_ctx w)) i)) /\ w' = w) w.
Proof.
  intros Hl Hi He Hown. unfold shadow_ramin_to_phys.
  set (found := ch_ramin_address (vec_at (c_channels (w_ctx w)) i)).
  apply (wp_for_acc _ (fun j r w' => w' = w /\ r = if j <=? i then None else Some found)).
  - split; [done|]. by rewrite (proj2 (Z.leb_le 0 i)) by lia.
  - intros j r w' Hj [-> ->]. rewrite Z.add_0_l, Z2Nat.id in Hj by (consts; lia).
    destruct (Z.leb_spec j i) as [Hji|Hji]; [|apply wp_ret; split; [done|];
      by rewrite (proj2 (Z.leb_gt (j + 1) i)) by lia].
    apply wp_bind. unfold get_channel, vread. wp_step. apply wp_gets.
    apply (wp_of_option _ _ _ (vec_at (c_channels (w_ctx w)) j)); [apply vec_get_some; lia|].
    apply wp_ret. split; [done|]. destruct (decide (j = i)) as [->|Hne].
    + rewrite He, Z.eqb_refl. cbn [andb]. by rewrite (proj2 (Z.leb_gt (i + 1) i)) by lia.
    + rewrite (proj2 (Z.leb_le (j + 1) i)) by lia.
      destruct (ch_enabled (vec_at (c_channels (w_ctx w)) j)) eqn:Ej; [|done].
      by rewrite (proj2 (Z.eqb_neq _ _)) by (by apply Hown).
  - intros r w' [-> ->]. split; [|done]. rewrite Z.add_0_l, Z2Nat.id by (consts; lia).
    by rewrite (proj2 (Z.leb_gt _ i)) by lia.
Qed.

(** The encoding of an instance, with or without a flush of the channel. *)
Lemma encode_spec v i w :
  0 < v < 2 ^ 32 -> instance_of v i w ->
  wp any_error (encode_to_shadow_ramin v) (fun r w1 =>
    (forall j, wiring j w1 = wiring j w) /\
    r = u32 (Z.lor (bit_clear 28 v) (Z.shiftr (address_ (ch_shadow_ramin (vec_at (c_channels (w_ctx w)) i))) 12))) w.
Proof.
  intros Hv [Hid Hl Hi [l Hf] He Hr [n [Hn Hrn]] Hown]. unfold encode_to_shadow_ramin.
  rewrite (proj2 (Z.eqb_neq v 0)) by lia. wp_step. apply wp_gets. unfold id. rewrite Hf. wp_step.
  apply wp_runs. intros [] w1 E1. assert (Hw : forall j, wiring j w1 = wiring j w).
  { intros j. revert E1. apply keeps_when, wiring_channel_flush. }
  cbn beta. wp_step. unfold get_channel, vread. wp_step. apply wp_gets.
  pose proof (Hw i) as Hwi. injection Hwi as Hl1 He1 Hr1 Hp1 Hid1.
  apply (wp_of_option _ _ _ (vec_at (c_channels (w_ctx w1)) i)); [apply vec_get_some; rewrite Hl1; lia|].
  apply wp_ret. split; [done|]. by rewrite Hp1.
Qed.

(** Renaming the channel instance of a copy engine is invertible: the page A3 sends to
    the GPU for a guest's instance is the shadow page of the registered channel, and
    reading the register back gives the guest the instance it wrote, flags included. *)
Theorem pcopy_roundtrip v i w r w1 :
  0 < v < 2 ^ 32 -> instance_of v i w -> encode_to_shadow_ramin v w = Ok (r, w1) ->
  Z.shiftl (bit_mask 28 r) 12 = address_ (ch_shadow_ramin (vec_at (c_channels (w_ctx w)) i))
  /\ bit_clear 28 r = bit_clear 28 v /\ decode_to_virt_ramin r w1 = Ok (v, w1).
Proof.
  intros Hv Hio Ee. pose proof (encode_spec v i w Hv Hio) as Hw. unfold wp in Hw. rewrite Ee in Hw.
  destruct Hw as [Hw Hr]. destruct Hio as [Hid Hl Hi _ He Hra [n [Hn Hrn]] Hown].
  rewrite Hn, Z.shiftr_shiftl_l in Hr by lia. change (12 - 12) with 0 in Hr. rewrite Z.shiftl_0_r in Hr.
  destruct (flags_page v n ltac:(lia) ltac:(lia)) as [Hm Hc]. rewrite <- Hr in Hm, Hc.
  split; [by rewrite Hm|]. split; [done|].
  pose proof (bit_mask_range 28 v ltac:(lia)) as Hvm.
  assert (Hr0 : r <> 0) by (intros ->; change (bit_mask 28 0) with 0 in Hm; lia).
  unfold decode_to_virt_ramin. rewrite (proj2 (Z.eqb_neq r 0)) by done.
  assert (Hch : forall j, vlen (c_channels (w_ctx w1)) = vlen (c_channels (w_ctx w))
    /\ wired (vec_at (c_channels (w_ctx w1)) j) = wired (vec_at (c_channels (w_ctx w)) j)
    /\ c_id (w_ctx w1) = c_id (w_ctx w)) 
    by (intros j; exact (conj (f_equal (fun x => x.1.1) (Hw j))
          (conj (f_equal (fun x => x.1.2) (Hw j)) (f_equal snd (Hw j))))).
  pose proof (Hch i) as (Hl1 & Hwi & Hid1). injection Hwi as He1 Hr1 Hp1.
  destruct (wp_total _ _ _ (shadow_ramin_to_phys_spec i w1 ltac:(congruence) Hi ltac:(congruence)
    ltac:(intros j Hj Hne; destruct (Hch j) as (_ & Hwj & _); injection Hwj as -> _ ->; rewrite Hp1; by apply Hown)))
    as (a & w2 & E & -> & ->).
  rewrite Hp1, Hn in E. rewrite Hm. unfold bind. rewrite E. unfold get_ctx_f, gets, ret.
  rewrite Hr1, Hra, Hid1. rewrite get_virt_phys_address by (done || (rewrite Z.shiftl_mul_pow2 by lia; lia)).
  rewrite Z.shiftr_shiftl_l by lia. change (12 - 12) with 0. rewrite Z.shiftl_0_r, Hc.
  rewrite bit_clear_sub, bit_mask_mod by lia. replace (v - v mod 2 ^ 28) with (v / 2 ^ 28 * 2 ^ 28) by zlia.
  rewrite (lor_add_disjoint 28) by zlia. rewrite u32_small by zlia. do 2 f_equal. zlia.
Qed.
End Pcopy.

(** A channel attached at page 0x20 of machine 0. *)
Definition sim_attached : @world sim_platform :=
  set_w_ctx (set_c_ramin_channel_map [(0x20000, 3)]
    (set_c_channels (Vec A3_DOMAIN_CHANNELS
      {[3 := set_ch_ramin_address 0x20000 (set_ch_enabled true (sim_channel 3))]} sim_channel) sim_context)) sim_world.

Lemma sim_instance : instance_of 0x80000020 3 sim_attached.
Proof.
  constructor.
  - split; by vm_compute.
  - reflexivity.
  - split; by vm_compute.
  - by exists [].
  - reflexivity.
  - reflexivity.
  - exists (0x100000 + 0x103). split; [reflexivity|lia].
  - intros j _ Hne He. exfalso. revert He. unfold vec_at. cbn.
    rewrite lookup_singleton_ne by congruence. by cbn.
Qed.

Lemma pcopy_roundtrip_witness :
  exists r w1, @encode_to_shadow_ramin sim_platform 0x80000020 sim_attached = Ok (r, w1)
    /\ @decode_to_virt_ramin sim_platform r w1 = Ok (0x80000020, w1).
Proof.
  assert (H : is_ok (@encode_to_shadow_ramin sim_platform 0x80000020 sim_attached) = true)
    by (vm_compute; reflexivity).
  destruct (@encode_to_shadow_ramin sim_platform 0x80000020 sim_attached) as [[r w1]|] eqn:E; [|discriminate H].
  exists r, w1. split; [reflexivity|].
  refine (proj2 (proj2 (pcopy_roundtrip 0x80000020 3 sim_attached r w1 _ sim_instance E))). lia.
Defined.
