(* ===== verification/Windows.v ===== *)
(** * The memory windows of a guest ([context_bar1.cc], [context_bar3.cc])

    Outside the control areas, BAR1 and BAR3 are windows on video memory: an access goes
    through the page tables of the window. With the tables as they are, any sequence of
    accesses behaves like accesses to the memory behind them. *)

From S2P Require Import Prelude Config Vram PageTable Barrier Sched State Device Tables Shadow Bars Arena Remap Channel Playlist Context Bar0 Pv Frame System Registers.

Section Windows.
Context `{PF : Platform} {PR : Pramin PF} {PL : PraminLaws PF PR}.

(** ** What an access reaches *)

(** What the translation depends on. *)
Definition tables (w : world) :=
  (c_bar1_channel (w_ctx w), c_poll_area (w_ctx w), c_pfifo (w_ctx w), c_id (w_ctx w), c_barrier (w_ctx w),
   d_bar3 (w_dev w)).

(** The address in video memory behind an offset of BAR1 or BAR3. *)
Definition window_target (w : world) (cmd : command) : option Z :=
  fst <$> (if bar cmd =? 1 then st_resolve (offset cmd) (b1_table (c_bar1_channel (w_ctx w)))
           else bar3_resolve (w_ctx w) (d_bar3 (w_dev w)) (offset cmd)).

Definition in_poll_area (w : world) (cmd : command) : bool := poll_area_in_range (w_ctx w) (offset cmd).

(** An aligned access to one of the windows; a write does not hit a guarded page. *)
Record window_ok (w : world) (cmd : command) : Prop := WindowOk {
  wk_type : type cmd = TYPE_READ \/ type cmd = TYPE_WRITE;
  wk_bar : (bar cmd = 1 /\ in_poll_area w cmd = false) \/ bar cmd = 3;
  wk_size : valid_size (size cmd) = true;
  wk_aligned : offset cmd mod size cmd = 0;
  wk_plain a : type cmd = TYPE_WRITE -> window_target w cmd = Some a ->
    barriered (c_barrier (w_ctx w)) a = false
}.

(** ** The accesses, and the same accesses to a flat memory *)

Definition window_access (cmd : command) : M world (list Z) :=
  let! wait := handle_access cmd in
  if (wait : bool) then let! v := get_ctx_f c_buffer in ret [v] else ret [].
Fixpoint window_accesses (l : list command) : M world (list Z) :=
  match l with
  | [] => ret []
  | cmd :: l => let! r := window_access cmd in let! rs := window_accesses l in ret (r ++ rs)
  end.

Definition is_read (cmd : command) : bool := match type cmd with TYPE_READ => true | _ => false end.

(** Nothing is mapped: reads give ones, writes are dropped. *)
Definition flat_window (t : command -> option Z) (cmd : command) (m : memory) : list Z * memory :=
  match t cmd with
  | Some a => flat_pmem (if is_read cmd then PRead a (size cmd) else PWrite a (value cmd) (size cmd)) m
  | None => (if is_read cmd then [0xffffffff] else [], m)
  end.
Fixpoint flat_windows (t : command -> option Z) (l : list command) (m : memory) : list Z * memory :=
  match l with
  | [] => ([], m)
  | cmd :: l => let r := flat_window t cmd m in let rs := flat_windows t l r.2 in (r.1 ++ rs.1, rs.2)
  end.

Lemma window_target_tables w w' cmd : tables w' = tables w -> window_target w' cmd = window_target w cmd.
Proof. intros [= E1 E2 E3 E4 E5 E6]. unfold window_target, bar3_resolve. by rewrite E1, E4, E6. Qed.

Lemma window_ok_tables w w' cmd : tables w' = tables w -> window_ok w cmd -> window_ok w' cmd.
Proof.
  intros E [Ht Hb Hs Ha Hp]. constructor; try done.
  - destruct Hb as [[Hb Hi]|Hb]; [left|by right]. split; [done|]. rewrite <- Hi. unfold in_poll_area, poll_area_in_range.
    injection E as _ E2 E3 _ _ _. by rewrite E2, E3.
  - intros a Hw. rewrite (window_target_tables w) by done. intros Hx. rewrite <- (Hp a Hw Hx). by injection E as _ _ _ _ -> _.
Qed.

Lemma valid_size_cases s : valid_size s = true -> s = 1 \/ s = 2 \/ s = 4.
Proof. unfold valid_size. rewrite !orb_true_iff, !Z.eqb_eq. tauto. Qed.

(** An aligned offset gives an aligned address that fits. *)
Lemma resolve_in_range o ps off s a e :
  resolve_in o ps off = Some (a, e) -> (ps = kSMALL_PAGE_SIZE \/ ps = kLARGE_PAGE_SIZE) ->
  valid_size s = true -> off mod s = 0 -> 0 <= a < 2 ^ 44 /\ a mod s = 0.
Proof.
  intros Hr Hps Hs Ho. unfold resolve_in in Hr. destruct o as [v|]; [|done]. destruct (vec_get _ _) as [e'|]; [|done].
  destruct (pe_present e'); [|done]. injection Hr as <- <-. rewrite Z.shiftl_mul_pow2 by lia.
  pose proof (pe_address_range e'). apply valid_size_cases in Hs.
  destruct Hps as [-> | ->]; consts; destruct_or! Hs; subst s; split; zlia.
Qed.

Lemma fits_aligned a s : valid_size s = true -> a mod s = 0 -> fits a s.
Proof. intros Hs Ha. split; [done|]. apply valid_size_cases in Hs. destruct_or! Hs; subst s; zlia. Qed.

Lemma two_level_range o1 o2 off s r :
  match resolve_in o1 kSMALL_PAGE_SIZE off with
  | Some r => Some r
  | None => resolve_in o2 kLARGE_PAGE_SIZE off
  end = Some r ->
  valid_size s = true -> off mod s = 0 -> 0 <= r.1 < 2 ^ 44 /\ fits r.1 s.
Proof.
  intros Hr Hs Ho. destruct r as [a e]. cbn [fst].
  assert (H : 0 <= a < 2 ^ 44 /\ a mod s = 0).
  { destruct (resolve_in o1 _ off) as [r'|] eqn:E; [injection Hr as ->|]; eapply resolve_in_range; eauto. }
  destruct H. split; [done|by apply fits_aligned].
Qed.

Lemma window_target_range w cmd a :
  window_ok w cmd -> window_target w cmd = Some a -> 0 <= a < 2 ^ 44 /\ fits a (size cmd).
Proof.
  intros [_ _ Hs Ho _] Ht. unfold window_target in Ht. apply fmap_Some in Ht as (r & Hr & ->).
  assert (Hdiv : forall x y, x mod size cmd = 0 -> y mod 2 ^ 23 = 0 -> u64 (x + y) mod size cmd = 0).
  { intros x y Hx Hy. apply valid_size_cases in Hs. destruct Hs as [E|[E|E]]; rewrite E in *; zlia. }
  destruct (bar cmd =? 1).
  - unfold st_resolve in Hr. destruct (vec_get _ _) as [d|]; [|done]. unfold directory_resolve in Hr.
    eapply two_level_range; [exact Hr|done|]. rewrite <- Z.add_opp_r. apply Hdiv; [done|]. consts. zlia.
  - unfold bar3_resolve in Hr. destruct (negb _); [done|].
    eapply two_level_range; [exact Hr|done|]. apply Hdiv; [done|]. consts. zlia.
Qed.

Lemma pmem_frame_tables w w' : pmem_frame w w' -> tables w' = tables w.
Proof.
  intros [Ec _ Ed]. unfold tables. rewrite Ec. apply (f_equal d_bar3) in Ed. cbn in Ed. by rewrite Ed.
Qed.

(** ** One access *)

Lemma load_u32 sz a (w : world) : valid_size sz = true -> u32 (load sz a (mem w)) = load sz a (mem w).
Proof.
  intros Hs. pose proof (load_range sz a (mem w) ltac:(apply valid_size_range in Hs; lia) ltac:(intros x; apply vram_bytes_range)) as Hl.
  apply u32_small. apply valid_size_cases in Hs. destruct_or! Hs; subst sz; lia.
Qed.

(** Reading and writing the memory behind the window. *)
Lemma read_gphys_spec a cmd w :
  synced w -> barrier_wf (c_barrier (w_ctx w)) -> 0 <= a < 2 ^ 44 -> fits a (size cmd) ->
  wp no_error (read_gphys a cmd) (fun _ w' => synced w' /\ tables w' = tables w
    /\ c_buffer (w_ctx w') = load (size cmd) (a mod 2 ^ 44) (mem w) /\ forall x, mem w' x = mem w x) w.
Proof.
  intros Hs Hwf Ha Hf. unfold read_gphys, pmem_read. rewrite u64_small by lia. wp_step.
  eapply wp_mono; [by apply read_pmem_spec|]. intros v w1 (-> & Hs1 & F1 & M1). wp_step. apply wp_modify. wp_step.
  apply wp_lookup; cbn; rewrite (fr_ctx _ _ F1); [done|]. intros r _.
  assert (Hpost : forall w2, w2 = set_w_ctx (set_c_buffer (u32 (load (size cmd) (a mod 2 ^ 44) (mem w))) (w_ctx w)) w1 ->
    synced w2 /\ tables w2 = tables w
    /\ c_buffer (w_ctx w2) = load (size cmd) (a mod 2 ^ 44) (mem w) /\ forall x, mem w2 x = mem w x).
  { intros w2 ->. split_and!; [done| |cbn; apply load_u32, Hf|done].
    rewrite <- (pmem_frame_tables _ _ F1). unfold tables. cbn. by rewrite (fr_ctx _ _ F1). }
  destruct r.1; unfold read_barrier; apply Hpost; by rewrite <- (fr_ctx _ _ F1).
Qed.

(** What an access must do. *)
Definition accessed (cmd : command) (w : world) (r : list Z) (w' : world) : Prop :=
  r = (flat_window (window_target w) cmd (mem w)).1 /\ synced w' /\ tables w' = tables w
  /\ forall x, mem w' x = (flat_window (window_target w) cmd (mem w)).2 x.

(** The handlers, with the translation as one function. *)
Definition read_target (cmd : command) (t : option Z) : M world unit :=
  match t with Some a => read_gphys a cmd | None => set_buffer 0xFFFFFFFF end.
Definition write_target (cmd : command) (t : option Z) : M world unit :=
  match t with Some a => write_gphys a cmd | None => ret tt end.

Lemma window_handler cmd w :
  window_ok w cmd ->
  handle_access cmd w =
    (if is_read cmd then read_target cmd (window_target w cmd) ;;; ret true
     else write_target cmd (window_target w cmd) ;;; ret false) w.
Proof.
  intros [Ht Hb _ _ _]. unfold handle_access, is_read, window_target, in_poll_area in *.
  destruct Hb as [[Hb Hp]|Hb]; rewrite Hb; cbn [Z.eqb Pos.eqb];
    destruct Ht as [-> | ->]; unfold bind at 1; unfold bind at 1, read_bar1, write_bar1, read_bar3, write_bar3, get_ctx_f, get_dev_f, bind, gets, id.
  1,2: rewrite Hp; by destruct (st_resolve _ _).
  all: by destruct (bar3_resolve _ _ _).
Qed.

Lemma read_target_spec cmd w :
  synced w -> barrier_wf (c_barrier (w_ctx w)) -> window_ok w cmd -> is_read cmd = true ->
  wp no_error (read_target cmd (window_target w cmd)) (fun _ w' => accessed cmd w [c_buffer (w_ctx w')] w') w.
Proof.
  intros Hs Hwf Hok Hrd. pose proof (fun a => window_target_range w cmd a Hok) as Hr.
  unfold accessed, flat_window, read_target. rewrite Hrd. destruct (window_target w cmd) as [a|]; [|by apply wp_modify].
  destruct (Hr a eq_refl). eapply wp_mono; [by apply read_gphys_spec|]. intros [] w1 (? & ? & E & ?). cbn. by rewrite E.
Qed.

Lemma write_target_spec cmd w :
  synced w -> barrier_wf (c_barrier (w_ctx w)) -> window_ok w cmd -> is_read cmd = false ->
  wp no_error (write_target cmd (window_target w cmd)) (fun _ w' => accessed cmd w [] w') w.
Proof.
  intros Hs Hwf Hok Hrd. pose proof (fun a => window_target_range w cmd a Hok) as Hr.
  assert (Hw : type cmd = TYPE_WRITE).
  { destruct (wk_type _ _ Hok) as [E|E]; [|done]. unfold is_read in Hrd. by rewrite E in Hrd. }
  pose proof (fun a => wk_plain _ _ Hok a Hw) as Hb.
  unfold accessed, flat_window, write_target. rewrite Hrd. destruct (window_target w cmd) as [a|]; [|by apply wp_ret].
  destruct (Hr a eq_refl). eapply wp_mono; [apply write_gphys_plain; [done|done|by apply Hb|lia|done]|].
  intros [] w1 (? & F & ?). split_and!; try done. by apply pmem_frame_tables.
Qed.

Lemma window_access_spec cmd w :
  synced w -> barrier_wf (c_barrier (w_ctx w)) -> window_ok w cmd ->
  wp no_error (window_access cmd) (fun r w' => accessed cmd w r w') w.
Proof.
  intros Hs Hwf Hok. unfold window_access. wp_step. unfold wp. rewrite window_handler by done.
  destruct (is_read cmd) eqn:Hrd.
  - pose proof (read_target_spec cmd w Hs Hwf Hok Hrd) as W. revert W. unfold wp, bind at 1.
    by destruct (read_target _ _ w) as [[u w1]|].
  - pose proof (write_target_spec cmd w Hs Hwf Hok Hrd) as W. revert W. unfold wp, bind at 1.
    by destruct (write_target _ _ w) as [[u w1]|].
Qed.

(** ** Sequences of accesses *)

Lemma flat_window_ext t t' cmd m m' :
  t cmd = t' cmd -> valid_size (size cmd) = true -> (forall x, m x = m' x) ->
  (flat_window t cmd m).1 = (flat_window t' cmd m').1
  /\ forall x, (flat_window t cmd m).2 x = (flat_window t' cmd m').2 x.
Proof.
  intros Et Hs Hm. unfold flat_window. rewrite Et. destruct (t' cmd) as [a|]; [|by destruct (is_read cmd)].
  destruct (is_read cmd); simpl; split; try done.
  - f_equal. apply load_ext; [apply valid_size_range in Hs; lia|]. done.
  - intros x. unfold store. by case_match.
Qed.

Lemma flat_windows_ext t t' l m m' :
  Forall (fun cmd => t cmd = t' cmd /\ valid_size (size cmd) = true) l -> (forall x, m x = m' x) ->
  (flat_windows t l m).1 = (flat_windows t' l m').1 /\ forall x, (flat_windows t l m).2 x = (flat_windows t' l m').2 x.
Proof.
  intros Hl. revert m m'. induction Hl as [|cmd l [Et Hs] _ IH]; intros m m' Hm; cbn [flat_windows]; [done|].
  destruct (flat_window_ext t t' cmd m m' Et Hs Hm) as [E1 E2]. destruct (IH _ _ E2) as [E3 E4]. cbn. by rewrite E1, E3.
Qed.

Lemma window_accesses_spec l w :
  synced w -> barrier_wf (c_barrier (w_ctx w)) -> Forall (window_ok w) l ->
  wp no_error (window_accesses l) (fun rs w' => rs = (flat_windows (window_target w) l (mem w)).1
    /\ synced w' /\ tables w' = tables w /\ forall x, mem w' x = (flat_windows (window_target w) l (mem w)).2 x) w.
Proof.
  revert w. induction l as [|cmd l IH]; intros w Hs Hwf Hl; cbn [window_accesses flat_windows]; [done|].
  apply Forall_cons in Hl as [Hc Hl]. wp_step. eapply wp_mono; [by apply window_access_spec|].
  intros r w1 (-> & Hs1 & T1 & M1). wp_step.
  assert (Hwf1 : barrier_wf (c_barrier (w_ctx w1))) by (injection T1 as _ _ _ _ -> _; done).
  assert (Hl1 : Forall (window_ok w1) l) by (eapply Forall_impl; [exact Hl|intros c; by apply window_ok_tables]).
  eapply wp_mono; [by apply IH|]. intros rs w2 (-> & Hs2 & T2 & M2). apply wp_ret.
  destruct (flat_windows_ext (window_target w1) (window_target w) l (mem w1) (flat_window (window_target w) cmd (mem w)).2)
    as [E1 E2]; [|done|].
  { eapply Forall_impl; [exact Hl|]. intros c Hok. split; [by apply window_target_tables|apply Hok]. }
  cbn. split_and!; [by rewrite E1|done|congruence|]. intros x. by rewrite M2.
Qed.

(** C30: the windows are memory. Any sequence of aligned reads and writes of a guest through
    BAR1, outside the control areas, and BAR3 gives the values, and leaves the video
    memory, that the same accesses to a flat memory at the translated addresses would:
    no access fails, a read sees the last write to the address through either window,
    unmapped addresses read as ones and ignore writes. Writes to guarded pages are
    excluded: they also change the shadow pages. *)
Theorem windows_are_memory l w :
  synced w -> barrier_wf (c_barrier (w_ctx w)) -> Forall (window_ok w) l ->
  exists rs w', window_accesses l w = Ok (rs, w')
    /\ rs = (flat_windows (window_target w) l (mem w)).1
    /\ (forall x, mem w' x = (flat_windows (window_target w) l (mem w)).2 x)
    /\ synced w' /\ forall cmd, window_target w' cmd = window_target w cmd.
Proof.
  intros Hs Hwf Hl. destruct (wp_total _ _ _ (window_accesses_spec l w Hs Hwf Hl)) as (rs & w' & E & Hr & Hs' & T & M).
  exists rs, w'. split_and!; try done. intros cmd. by apply window_target_tables.
Qed.
End Windows.

(** ** A concrete instance: a page of the guest at the start of BAR3 *)

Definition sim_mapped_bar3 : device_bar3 :=
  set_db3_small (Vec (A3_BAR3_TOTAL_SIZE / kSMALL_PAGE_SIZE) {[0 := PageEntry 0x451 0]} (fun _ => pe_zero)) (d_bar3 sim_device).
Definition sim_window_world : @world sim_platform :=
  set_w_dev (set_d_bar3 sim_mapped_bar3 sim_device) sim_world.
Definition sim_window_cmds : list command :=
  [Command TYPE_WRITE 0xaabbccdd 0x10 3 4; Command TYPE_READ 0 0x12 3 2; Command TYPE_READ 0 0x4000 3 4].

Lemma windows_are_memory_witness :
  exists w', @window_accesses sim_platform sim_window_cmds sim_window_world = Ok ([0xaabb; 0xffffffff], w')
    /\ load 4 0x45010 (@mem _ sim_pramin w') = 0xaabbccdd.
Proof.
  destruct (@windows_are_memory sim_platform sim_pramin sim_pramin_laws sim_window_cmds sim_window_world)
    as (rs & w' & E & Hr & Hm & _).
  - reflexivity.
  - exact sim_barrier_wf.
  - repeat (apply Forall_cons; split; [constructor; [(by left) || (by right)|by right|reflexivity|reflexivity|]|]); [..|by apply Forall_nil];
      intros a Ht; try discriminate Ht; intros [= <-]; by vm_compute.
  - exists w'. split; [rewrite E, Hr; f_equal; f_equal; by vm_compute|].
    rewrite (load_ext 4 _ _ _ ltac:(lia) (fun x _ => Hm x)). by vm_compute.
Defined.
