(* ===== verification/Ramin.v ===== *)
(** * Properties of channels ([channel.cc], [context_barrier.cc])

    What the GPU sees of a channel is its shadow RAMIN page. Shadowing makes its directory
    the shadow directory, from which only the machine's own memory is reachable; later
    writes of the guest to its RAMIN page are mirrored as they are; and moving a channel
    leaves its old page in the registry. *)

From S2P Require Import Prelude Config Vram PageTable Barrier Sched State Device Tables Shadow Bars Arena Remap Channel Playlist Context Bar0 Pv Frame System Registers.

(** Documented behaviour of the registers that control the TLB: using them changes neither
    video memory nor the window. *)
Class TlbRegisters (PF : Platform) (PR : Pramin PF) : Prop := {
  tlb_read : forall o g, o ∈ [0x100c80; 0x100cb8; 0x100cbc] ->
    window_base (mmio_read 0 o 4 g).2 = window_base g
    /\ forall x, vram_bytes (mmio_read 0 o 4 g).2 x = vram_bytes g x;
  tlb_write : forall o v g, o ∈ [0x100c80; 0x100cb8; 0x100cbc] ->
    window_base (mmio_write 0 o v 4 g) = window_base g
    /\ forall x, vram_bytes (mmio_write 0 o v 4 g) x = vram_bytes g x
}.

Section Flush.
Context `{PF : Platform} {PR : Pramin PF} {PL : PraminLaws PF PR} {TL : TlbRegisters PF PR}.

Lemma tlb_read32_quiet o w :
  o ∈ [0x100c80; 0x100cb8; 0x100cbc] -> synced w -> wp no_error (reg_read32 o) (fun _ w' => quiet w w') w.
Proof.
  intros Ho Hs. apply wp_device_read; [done|done|]. assert (E : u32 o = o).
  { rewrite !elem_of_cons, elem_of_nil in Ho. destruct_or! Ho; by subst o. }
  rewrite E. destruct (tlb_read o (w_gpu w) Ho) as [Hb Hm].
  constructor; [unfold synced; cbn; by rewrite Hb|by constructor|done].
Qed.

Lemma tlb_write32_quiet o v w :
  o ∈ [0x100c80; 0x100cb8; 0x100cbc] -> synced w -> wp no_error (reg_write32 o v) (fun _ w' => quiet w w') w.
Proof.
  intros Ho Hs. apply wp_device_write; [done|done|]. assert (E : u32 o = o).
  { rewrite !elem_of_cons, elem_of_nil in Ho. destruct_or! Ho; by subst o. }
  rewrite E. destruct (tlb_write o (u32 v mod 2 ^ (8 * 4)) (w_gpu w) Ho) as [Hb Hm].
  constructor; [unfold synced; cbn; by rewrite Hb|by constructor|done].
Qed.

Lemma tlb_wait_quiet o mask val f w :
  o ∈ [0x100c80; 0x100cb8; 0x100cbc] -> synced w -> wp no_error (wait_cb o mask val f) (fun _ w' => quiet w w') w.
Proof.
  intros Ho Hs. unfold wait_cb. apply (wp_poll _ (fun w' => quiet w w') (fun _ => True)); [by apply quiet_refl| |done].
  intros w1 Q1. wp_step. eapply wp_mono; [apply tlb_read32_quiet; [done|apply Q1]|].
  intros v w2 Q2. apply wp_ret. split; [by eapply quiet_trans|done].
Qed.

(** A flush of the TLB leaves memory alone. *)
Lemma flush_directory_quiet shadow w : synced w -> wp no_error (flush_directory shadow) (fun _ w' => quiet w w') w.
Proof.
  intros Hs. unfold flush_directory, wait_ne, wait_eq.
  wp_step. eapply wp_mono; [apply tlb_wait_quiet; [set_solver|done]|]. intros b w1 Q1.
  wp_step. eapply wp_mono; [apply tlb_write32_quiet; [set_solver|apply Q1]|]. intros [] w2 Q2.
  wp_step. eapply wp_mono; [apply tlb_write32_quiet; [set_solver|apply Q2]|]. intros [] w3 Q3.
  wp_step. eapply wp_mono; [apply tlb_wait_quiet; [set_solver|apply Q3]|]. intros b' w4 Q4.
  apply wp_ret. exact (quiet_trans _ _ _ Q1 (quiet_trans _ _ _ Q2 (quiet_trans _ _ _ Q3 Q4))).
Qed.
End Flush.

(** ** Shadowing a RAMIN page *)

Section Shadowing.
Context `{PF : Platform} {PR : Pramin PF} {PL : PraminLaws PF PR} {TL : TlbRegisters PF PR}.

(** Only the memory of page [p] and the cached window differ. *)
Record page_frame (p : page) (w w' : world) : Prop := PageFrame {
  pgf_synced : synced w';
  pgf_frame : pmem_frame w w';
  pgf_mem : forall x, covers p x = false -> mem w' x = mem w x
}.

Lemma page_frame_refl p w : synced w -> page_frame p w w.
Proof. by constructor. Qed.
Lemma page_frame_trans p w1 w2 w3 : page_frame p w1 w2 -> page_frame p w2 w3 -> page_frame p w1 w3.
Proof. intros [? F1 M1] [? F2 M2]. constructor; [done|by etrans|]. intros x Hx. by rewrite M2, M1. Qed.
Lemma quiet_page_frame p w w' : quiet w w' -> page_frame p w w'.
Proof. intros [? ? ?]. by constructor. Qed.

Lemma covers_word p o x :
  0 <= o -> o + 4 <= page_size p -> covers p x = false -> x < address_ p + o \/ address_ p + o + 4 <= x.
Proof. unfold covers, page_size. consts. intros. destruct (Z.leb_spec (address_ p) x); simpl in *; lia. Qed.

Lemma page_write32_frame p o v w :
  synced w -> page_ok p -> 0 <= o -> o + 4 <= page_size p -> o mod 4 = 0 ->
  wp no_error (page_write32 p o v) (fun _ w' => page_frame p w w' /\ load 4 (address_ p + o) (mem w') = u32 v) w.
Proof.
  intros Hs Hp Ho Ho' Hm. eapply wp_mono; [apply page_write32_spec; [done|done|lia|done]|].
  intros [] w' (Hs' & F & M). split; [constructor; [done|done|]|].
  - intros x Hx. rewrite M, store_outside; [done|]. by apply covers_word.
  - rewrite (load_ext 4 _ _ (store 4 (address_ p + o) (u32 v) (mem w)) ltac:(lia) (fun x _ => M x)).
    apply load_store_same; [lia|]. apply u32_range.
Qed.

(** A 64-bit field of memory. *)
Definition load64 (a : Z) (m : memory) : Z := Z.lor (load 4 a m) (Z.shiftl (load 4 (a + 4) m) 32).

Lemma write64_frame p o v w :
  synced w -> page_ok p -> 0 <= o -> o + 8 <= page_size p -> o mod 4 = 0 -> 0 <= v < 2 ^ 64 ->
  wp no_error (write64 (page_write32 p) o v)
    (fun _ w' => page_frame p w w' /\ load64 (address_ p + o) (mem w') = v) w.
Proof.
  intros Hs Hp Ho Ho' Hm Hv. unfold write64. wp_step. pose proof Hp as [_ _ _ He].
  eapply wp_mono; [apply page_write32_frame; [done|done|lia|lia|done]|]. intros [] w1 [F1 L1].
  rewrite u64_small by (unfold page_size in *; destruct Hp; lia).
  eapply wp_mono; [apply page_write32_spec; [apply F1|done|lia|zlia]|]. intros [] w2 (Hs2 & F2 & M2).
  assert (F2' : page_frame p w1 w2).
  { constructor; [done|done|]. intros x Hx. rewrite M2, store_outside; [done|].
    apply (covers_word p (o + 4)) in Hx; lia. }
  split; [by eapply page_frame_trans|]. unfold load64.
  rewrite (load_ext 4 (address_ p + o) (mem w2) (mem w1)); [|lia|intros x Hx; rewrite M2, store_outside by lia; done].
  replace (address_ p + o + 4) with (address_ p + (o + 4)) by lia.
  rewrite (load_ext 4 _ (mem w2) (store 4 (address_ p + (o + 4)) (u32 (Z.shiftr v 32)) (mem w1)) ltac:(lia) (fun x _ => M2 x)).
  rewrite load_store_same by (lia || apply u32_range). rewrite L1. rewrite bit_mask_mod by lia.
  rewrite (u32_small (v mod _)) by zlia. rewrite Z.shiftr_div_pow2 by lia. rewrite u32_small by zlia.
  rewrite Z.lor_comm, Z.shiftl_mul_pow2, lor_add_disjoint by zlia. zlia.
Qed.

Lemma read64_quiet a w :
  synced w -> pair_ok a ->
  wp no_error (read64 pmem_read32 a) (fun v w' => v = load64 a (mem w) /\ quiet w w') w.
Proof.
  intros Hs Hab. destruct (pair_word a Hab) as [Ha Hb]. unfold read64. wp_step.
  eapply wp_mono; [by apply read32_quiet|]. intros v w1 [-> Q1]. wp_step. rewrite u64_small by (destruct Hb; lia).
  eapply wp_mono; [apply read32_quiet; [apply Q1|done]|]. intros v w2 [-> Q2]. apply wp_ret.
  rewrite (quiet_load w w1) by done. split; [done|]. by apply (quiet_trans w w1).
Qed.

(** The RAMIN page of the guest, outside the pages of the pool. *)
Record ramin_ok (r : Z) (p : page) : Prop := RaminOk {
  ro_align : r mod 4096 = 0;
  ro_range : 0 <= r < 2 ^ 40;
  ro_page : page_ok p;
  ro_unit : units_ p = 1;
  ro_apart : forall x, r <= x < r + 4096 -> covers p x = false
}.

Lemma copy_ramin_frame r p w :
  synced w -> ramin_ok r p -> wp no_error (copy_ramin r p) (fun _ w' => page_frame p w w') w.
Proof.
  intros Hs [Ha Hr Hp Hu _]. unfold copy_ramin.
  apply (wp_for _ (fun _ w' => page_frame p w w')); [by apply page_frame_refl| |done].
  intros k w1 Hk F1. change (Z.of_nat (Z.to_nat (4096 / 4))) with 1024 in Hk.
  wp_step. rewrite u64_small by lia. eapply wp_mono; [apply read32_quiet; [apply F1|split; zlia]|].
  intros v w2 [_ Q2]. eapply wp_mono; [apply page_write32_frame; [apply Q2|done|lia|unfold page_size; lia|zlia]|].
  intros [] w3 [F3 _]. eapply page_frame_trans; [exact F1|]. eapply page_frame_trans; [|exact F3].
  by apply quiet_page_frame.
Qed.

Lemma load64_range (w : world) a : 0 <= load64 a (mem w) < 2 ^ 64.
Proof.
  assert (H : forall b, 0 <= load 4 b (mem w) < 2 ^ 32).
  { intros b. apply (load_range 4 b (mem w) ltac:(lia)). intros x. apply vram_bytes_range. }
  unfold load64. rewrite Z.lor_comm, Z.shiftl_mul_pow2, lor_add_disjoint by (lia || apply H).
  pose proof (H a). pose proof (H (a + 4)). lia.
Qed.

Lemma page_frame_load64 p r o w w' :
  ramin_ok r p -> 0 <= o -> o + 8 <= 4096 -> page_frame p w w' -> load64 (r + o) (mem w') = load64 (r + o) (mem w).
Proof.
  intros Hr Ho Ho' F. unfold load64.
  assert (H : forall a, r <= a -> a + 4 <= r + 4096 -> load 4 a (mem w') = load 4 a (mem w)).
  { intros a Ha Ha'. apply load_ext; [lia|]. intros x Hx. apply (pgf_mem _ _ _ F), (ro_apart _ _ Hr). lia. }
  by rewrite !H by lia.
Qed.

(** Reading and writing fields while only the shadow page changes. *)
Lemma read64_step r p o w w1 (Q : Z -> world -> Prop) E :
  ramin_ok r p -> 0 <= o -> o + 8 <= 4096 -> o mod 4 = 0 -> page_frame p w w1 ->
  (forall w2, page_frame p w w2 -> Q (load64 (r + o) (mem w)) w2) ->
  wp E (read64 pmem_read32 (u64 (r + o))) Q w1.
Proof.
  intros Hr Ho Ho' Hm F HQ. pose proof Hr as [Ha Hb _ _ _]. rewrite u64_small by lia. apply wp_no_error.
  eapply wp_mono; [apply read64_quiet; [apply F|split_and!; zlia]|]. intros v w2 [-> Q2].
  rewrite (page_frame_load64 p r o w w1) by done. apply HQ. eapply page_frame_trans; [exact F|by apply quiet_page_frame].
Qed.

Lemma write64_step r p o v w w1 (Q : unit -> world -> Prop) E :
  ramin_ok r p -> 0 <= o -> o + 8 <= 4096 -> o mod 4 = 0 -> 0 <= v < 2 ^ 64 -> page_frame p w w1 ->
  (forall w2, page_frame p w w2 -> Q tt w2) -> wp E (write64 (page_write32 p) o v) Q w1.
Proof.
  intros [_ _ Hp Hu _] Ho Ho' Hm Hv F HQ. apply wp_no_error.
  eapply wp_mono; [apply write64_frame; [apply F|done|lia|unfold page_size; lia|done|done]|].
  intros [] w2 [F2 _]. apply HQ. by eapply page_frame_trans.
Qed.

Lemma translate32_step r p o id w w1 (Q : unit -> world -> Prop) E :
  ramin_ok r p -> 0 <= o -> o + 4 <= 4096 -> o mod 4 = 0 -> page_frame p w w1 ->
  (forall w2, page_frame p w w2 -> Q tt w2) ->
  wp E (let! v := pmem_read32 (u64 (r + o)) in page_write32 p o (u32 (get_phys_address id v))) Q w1.
Proof.
  intros [Ha Hb Hp Hu _] Ho Ho' Hm F HQ. apply wp_no_error. wp_step. rewrite u64_small by lia.
  eapply wp_mono; [apply read32_quiet; [apply F|split; zlia]|]. intros v w2 [_ Q2].
  eapply wp_mono; [apply page_write32_frame; [apply Q2|done|lia|unfold page_size; lia|done]|].
  intros [] w3 [F3 _]. apply HQ. eapply page_frame_trans; [exact F|].
  eapply page_frame_trans; [|exact F3]. by apply quiet_page_frame.
Qed.

(** A channel whose tables exist, and whose RAMIN page names a directory of the machine. *)
Record channel_ready (i : Z) (ch : channel) (ph : page) (alloc : list page) (w : world) : Prop := ChannelReady {
  cr_synced : synced w;
  cr_full : c_para_virtualized (w_ctx w) = false;
  cr_id : valid_id (c_id (w_ctx w));
  cr_pool : pool_ok w alloc;
  cr_channel : vec_get (c_channels (w_ctx w)) i = Some ch;
  cr_ramin : ramin_ok (ch_ramin_address ch) (ch_shadow_ramin ch);
  cr_page : ch_shadow_ramin ch ∈ alloc;
  cr_table : shadow_inv (ch_table ch) ph alloc;
  cr_partition : in_partition (c_id (w_ctx w))
    (get_phys_address (c_id (w_ctx w)) (load64 (ch_ramin_address ch + 0x200) (mem w)));
  cr_nonzero : get_virt_address (c_id (w_ctx w))
    (get_phys_address (c_id (w_ctx w)) (load64 (ch_ramin_address ch + 0x200) (mem w))) <> 0;
  cr_aligned : get_phys_address (c_id (w_ctx w)) (load64 (ch_ramin_address ch + 0x200) (mem w)) mod 4 = 0;
  cr_limit : bit_mask 40 (u64 (load64 (ch_ramin_address ch + 0x208) (mem w) + 1)) <= vram_size
}.

Lemma page_frame_pool p w w' alloc : page_frame p w w' -> pool_ok w alloc -> pool_ok w' alloc /\ w_ctx w' = w_ctx w.
Proof.
  intros [_ F _] Hk. destruct (pmem_pool_frame _ _ F) as [F' V]. split; [by apply (pool_ok_same w)|apply F'].
Qed.

(** What the GPU then finds. *)
Definition confined (i : Z) (w' : world) : Prop :=
  exists ch ph, vec_get (c_channels (w_ctx w')) i = Some ch /\ sh_phys (ch_table ch) = Some ph
  /\ load64 (address_ (ch_shadow_ramin ch) + 0x200) (mem w') = address_ ph
  /\ forall e, reachable_entry (mem w') (address_ ph) e -> safe_entry (c_id (w_ctx w')) e.

Lemma mod_channel_table i ch t w :
  vec_get (c_channels (w_ctx w)) i = Some ch ->
  wp no_error (mod_channel i (set_ch_table t)) (fun _ w' =>
    vec_get (c_channels (w_ctx w')) i = Some (set_ch_table t ch) /\ c_id (w_ctx w') = c_id (w_ctx w)
    /\ w_gpu w' = w_gpu w /\ w_dev w' = w_dev w) w.
Proof.
  intros Hc. pose proof Hc as [Hi _]%vec_get_inv. unfold mod_channel, vread, vwrite.
  wp_step. apply wp_gets. wp_step. apply (wp_of_option _ _ _ ch); [done|].
  destruct (vec_set_some (c_channels (w_ctx w)) i (set_ch_table t ch) Hi) as (v & E & Hl & Ha & _).
  wp_step. apply (wp_of_option _ _ _ v); [done|]. apply wp_modify. cbn. split; [|done].
  rewrite vec_get_some by lia. by rewrite Ha.
Qed.

(** The table pages do not meet the shadow page. *)
Lemma tables_apart t ph al p q m x :
  vram_inv m al -> shadow_inv t ph al -> p ∈ al -> units_ p = 1 ->
  q = ph \/ q ∈ sh_large_pool t \/ q ∈ sh_small_pool t -> covers q x = true -> covers p x = false.
Proof.
  intros Hm [(_ & Hph & Hu) HL HS _ _] Hp Hpu Hq Hx.
  assert (Hqa : q ∈ al /\ units_ q <> 1).
  { destruct Hq as [->|[Hq|Hq]]; [split; [done|lia]|destruct (HL q Hq) as (? & ? & _); split; [done|lia]|].
    destruct (HS q Hq) as (? & ? & _). split; [done|lia]. }
  destruct Hqa as [Hqa Hqu]. apply (alloc_disjoint m al q p x); try done. congruence.
Qed.

Lemma shadow_tables_spec i ch ph alloc w w1 :
  channel_ready i ch ph alloc w -> page_frame (ch_shadow_ramin ch) w w1 ->
  let pd := get_phys_address (c_id (w_ctx w)) (load64 (ch_ramin_address ch + 0x200) (mem w)) in
  let limit := load64 (ch_ramin_address ch + 0x208) (mem w) in
  wp (eq Abort)
    (let! t := sh_refresh pd limit (ch_table ch) in
     mod_channel i (set_ch_table t) ;;;
     write_shadow_page_table i (shadow_address t) ;;;
     flush_directory (shadow_address t)) (fun _ w' => confined i w' /\ synced w') w1.
Proof.
  intros [Hs Hf Hid Hk Hc Hr Hp Ht Hpd Hnz H4 Hlim] F1 pd limit.
  destruct (page_frame_pool _ _ _ _ F1 Hk) as [Hk1 Hctx]. pose proof Hr as [_ _ Hpo Hpu _].
  set (t0 := set_sh_size (bit_mask 40 (u64 (limit + 1))) (set_sh_page_directory_address pd (ch_table ch))).
  assert (Ht0 : shadow_inv t0 ph alloc) by (by destruct Ht; constructor).
  assert (Er : sh_refresh pd limit (ch_table ch) w1 = sh_refresh_page_directories pd t0 w1).
  { unfold sh_refresh, allocate_shadow_address, bind. by destruct (si_phys _ _ _ Ht) as (-> & _). }
  wp_step. unfold wp. rewrite Er.
  pose proof (refresh_loop_spec pd t0 ph alloc w1 (pgf_synced _ _ _ F1)) as W. rewrite Hctx in W.
  specialize (W Hid Hk1 Ht0 Hpd Hnz H4 Hlim). unfold wp in W.
  destruct (sh_refresh_page_directories pd t0 w1) as [[t w2]|e]; [|done].
  destruct W as (Hs2 & F2 & (al & Hal & Hk2 & Hi2) & D2). destruct (si_phys _ _ _ Hi2) as (Ephy & Hph & Hphu).
  assert (Hc2 : vec_get (c_channels (w_ctx w2)) i = Some ch) by (by rewrite (pf_ctx _ _ F2), Hctx).
  enough (W : wp (eq Abort) (mod_channel i (set_ch_table t) ;;; write_shadow_page_table i (shadow_address t) ;;;
     flush_directory (shadow_address t)) (fun _ w' => confined i w' /\ synced w') w2) by exact W.
  unfold shadow_address. rewrite Ephy. pose proof (block_page_ok _ _ _ Hk2 Hph) as Hphk.
  wp_step. apply wp_no_error. eapply wp_mono; [by apply mod_channel_table|]. intros [] w3 (Hc3 & Hid3 & G3 & V3).
  assert (Hs3 : synced w3) by (unfold synced; by rewrite G3, V3).
  assert (M3 : mem w3 = mem w2) by (unfold mem; by rewrite G3).
  wp_step. unfold write_shadow_page_table. wp_step. unfold get_channel, vread. wp_step. apply wp_gets.
  apply (wp_of_option _ _ _ (set_ch_table t ch)); [done|]. apply wp_no_error.
  eapply wp_mono; [apply write64_frame; [done|done|lia|unfold page_size; cbn; lia|done|]|].
  { destruct Hphk. unfold page_size in *. lia. }
  intros [] w4 [F4 L4]. apply wp_no_error. eapply wp_mono; [apply flush_directory_quiet, F4|]. intros [] w5 Q5.
  split; [|apply Q5]. exists (set_ch_table t ch), ph.
  rewrite (fr_ctx _ _ (qu_frame _ _ Q5)), (fr_ctx _ _ (pgf_frame _ _ _ F4)).
  assert (M5 : forall x, covers (ch_shadow_ramin ch) x = false -> mem w5 x = mem w2 x).
  { intros x Hx. rewrite (qu_mem _ _ Q5), (pgf_mem _ _ _ F4), M3; done. }
  split_and!; [done|done| |].
  - rewrite <- L4. unfold load64. by rewrite !(quiet_load w4 w5) by done.
  - rewrite Hid3, (pf_ctx _ _ F2), Hctx. intros e. apply dirs_ok_reachable with t.
    eapply (dirs_ok_other _ t ph al (mem w2)); [exact Hk2|done|lia| |exact D2].
    intros q x Hq Hx. apply M5. by eapply tables_apart; [apply Hk2|exact Hi2|by apply Hal|done|exact Hq|].
Qed.

End Shadowing.

(** ** Guest writes to a RAMIN page *)

Section Mirror.
Context `{PF : Platform} {PR : Pramin PF} {PL : PraminLaws PF PR}.

Lemma page_write_spec p o v sz w :
  synced w -> page_ok p -> units_ p = 1 -> valid_size sz = true -> 0 <= o -> o + sz <= 4096 ->
  wp no_error (page_write p o v sz)
    (fun _ w' => synced w' /\ pmem_frame w w'
       /\ forall x, mem w' x = store sz (address_ p + o) (u32 v mod 2 ^ (8 * sz)) (mem w) x) w.
Proof.
  intros Hs [Ha Hb _ He] Hu Hv Ho Ho'. pose proof (valid_size_range sz Hv). unfold page_size in He. unfold page_write, page_size.
  rewrite (proj2 (Z.ltb_lt _ _)) by lia. wp_step. apply wp_ret. rewrite u64_small by lia.
  eapply wp_mono; [apply write_pmem_spec; [done|split; [done|zlia]]|].
  intros [] w'. by rewrite (Z.mod_small (_ + _)) by lia.
Qed.

(** Channel [i] is registered for the page at [a], alone, and up to date. *)
Record ramin_of (i : Z) (ch : channel) (a : Z) (w : world) : Prop := RaminOf {
  rf_synced : synced w;
  rf_barrier : barrier_wf (c_barrier (w_ctx w));
  rf_ramin : ramin_ok a (ch_shadow_ramin ch);
  rf_registered : equal_range a (c_ramin_channel_map (w_ctx w)) = [i];
  rf_channel : vec_get (c_channels (w_ctx w)) i = Some ch;
  rf_flushed : ch_tlb_flush_needed ch = false;
  rf_bar1 : b1_ramin_address (c_bar1_channel (w_ctx w)) <> a;
  rf_bar3 : b3_ramin_address (c_bar3_channel (w_ctx w)) <> a
}.

(** Nothing is flushed when nothing needs it. *)
Lemma channel_flush_idle i ch w :
  vec_get (c_channels (w_ctx w)) i = Some ch -> ch_tlb_flush_needed ch = false -> channel_flush i w = Ok (tt, w).
Proof.
  intros Hc Hf. unfold channel_flush, get_channel, vread, of_option, get_ctx_f, bind, gets. rewrite Hc.
  unfold ret. by rewrite Hf.
Qed.

(** A guest write to a channel's RAMIN page under a barrier goes to the page and, with
    the same value, to the shadow page the GPU uses. So after a four-byte write at offset
    0x200 the GPU's page directory of the channel is the address the guest chose, not
    the shadow directory: the mirrored words are not translated. *)
Theorem ramin_write_mirrored i ch a o cmd w :
  ramin_of i ch a w -> barriered (c_barrier (w_ctx w)) (a + o) = true ->
  valid_size (size cmd) = true -> 0 <= o -> o + size cmd <= 4096 -> 0 <= value cmd < 2 ^ (8 * size cmd) ->
  exists w', write_gphys (a + o) cmd w = Ok (tt, w')
    /\ (forall x, mem w' x = store (size cmd) (address_ (ch_shadow_ramin ch) + o) (value cmd)
                               (store (size cmd) (a + o) (value cmd) (mem w)) x)
    /\ load (size cmd) (address_ (ch_shadow_ramin ch) + o) (mem w') = value cmd.
Proof.
  intros [Hs Hwf [Ha Hr Hp Hu Hap] Hreg Hc Hfl Hb1 Hb3] Hbar Hsz Ho Ho' Hv.
  pose proof (valid_size_range _ Hsz) as Hszr. pose proof (bit_clear_sub 12 (a + o) ltac:(lia) ltac:(lia)) as Hbc.
  replace ((a + o) mod 2 ^ 12) with o in Hbc by zlia. replace (a + o - o) with a in Hbc by lia.
  assert (Hvu : u32 (value cmd) mod 2 ^ (8 * size cmd) = value cmd).
  { assert (2 ^ (8 * size cmd) <= 2 ^ 32) by (apply Z.pow_le_mono_r; lia). rewrite u32_small, Z.mod_small by lia. done. }
  assert (W : wp no_error (write_gphys (a + o) cmd) (fun _ w' => forall x, mem w' x =
      store (size cmd) (address_ (ch_shadow_ramin ch) + o) (value cmd) (store (size cmd) (a + o) (value cmd) (mem w)) x) w).
  { unfold write_gphys, pmem_write. rewrite u64_small by lia. wp_step.
    eapply wp_mono; [apply write_pmem_spec; [done|split; [done|zlia]]|]. intros [] w1 (Hs1 & F1 & M1).
    rewrite Hvu, (Z.mod_small (a + o)) in M1 by lia. pose proof (fr_ctx _ _ F1) as C1.
    wp_step. apply wp_lookup; rewrite C1; [done|]. intros l ->. rewrite Hbar. cbn [when].
    unfold write_barrier. change kPAGE_BITS with 12. rewrite Hbc. replace (a + o - a) with o by lia.
    wp_step. apply wp_gets. rewrite C1, Hreg. wp_step. cbn [for_each]. wp_step. wp_step.
    assert (Hf : when (negb (value cmd =? 0) && lazy_shadowing) (channel_flush i) w1 = Ok (tt, w1)).
    { unfold when. destruct (_ && _); [|done]. apply channel_flush_idle with ch; [by rewrite C1|done]. }
    unfold wp at 1. rewrite Hf. wp_step. unfold get_channel, vread. wp_step. apply wp_gets. rewrite C1.
    apply (wp_of_option _ _ _ ch); [done|].
    eapply wp_mono; [by apply page_write_spec|]. intros [] w2 (_ & F2 & M2). rewrite Hvu in M2.
    pose proof (fr_ctx _ _ F2) as C2. apply wp_ret.
    wp_step. apply wp_gets. rewrite C2, C1, (proj2 (Z.eqb_neq a _)) by congruence. wp_step. apply wp_ret.
    wp_step. apply wp_gets. rewrite C2, C1, (proj2 (Z.eqb_neq a _)) by congruence. apply wp_ret.
    intros x. rewrite M2. unfold store at 1 2. case_match; [done|]. apply M1. }
  destruct (wp_total _ _ _ W) as ([] & w' & E & M). exists w'. split; [done|]. split; [done|].
  rewrite (load_ext (size cmd) _ _ _ ltac:(lia) (fun x _ => M x)). apply load_store_same; [lia|done].
Qed.
End Mirror.

(** ** The registry of RAMIN pages *)

Section Registry.
Context `{PF : Platform}.

Definition registry (w : world) : list (Z * Z) := c_ramin_channel_map (w_ctx w).

#[export] Instance registry_device : DeviceFrame registry.
Proof. by constructor. Qed.

#[local] Hint Constants Opaque : keeps.
Hint Resolve registry_device keeps_get_channel keeps_get_ctx_f keeps_get_dev_f keeps_vread keeps_vwrite
  dev_pmem_read32 dev_page_write32 dev_read64_pmem dev_write64_page dev_sh_refresh dev_wait_ne dev_wait_eq
  dev_reg_write32 : keeps.

Lemma registry_mod_channel i f : keeps registry (mod_channel i f).
Proof. unfold mod_channel. frame_solve. Qed.
Lemma registry_write_shadow i s : keeps registry (write_shadow_page_table i s).
Proof. unfold write_shadow_page_table. frame_solve. Qed.
Lemma registry_flush_directory s : keeps registry (flush_directory s).
Proof. unfold flush_directory. frame_solve. Qed.
Hint Resolve registry_mod_channel registry_write_shadow registry_flush_directory : keeps.

Lemma registry_channel_shadow i : keeps registry (channel_shadow i).
Proof. unfold channel_shadow, copy_ramin, pv_deref. frame_solve. Qed.

Lemma registry_reset_barrier old addr remap : keeps registry (bar3_reset_barrier old addr remap).
Proof. unfold bar3_reset_barrier, reset_barrier_page, map_xen_page, unmap_xen_page, xen_call_. frame_solve. Qed.

Lemma equal_range_cons k v key m :
  equal_range key ((k, v) :: m) = if bool_decide (k = key) then v :: equal_range key m else equal_range key m.
Proof. unfold equal_range. rewrite filter_cons. cbn. by repeat case_decide; repeat case_bool_decide. Qed.

Lemma equal_range_erase_other key key' v m :
  key <> key' -> equal_range key' (erase_first key v m) = equal_range key' m.
Proof.
  intros Hne. induction m as [|[k x] m IH]; [done|]. cbn [erase_first fst snd].
  destruct ((k =? key) && (x =? v)) eqn:E.
  - apply andb_prop in E as [->%Z.eqb_eq _]. rewrite equal_range_cons. by case_bool_decide.
  - rewrite !equal_range_cons, IH. done.
Qed.

#[export] Instance equal_range_perm key : Proper ((≡ₚ) ==> (≡ₚ)) (equal_range key).
Proof. intros m m' H. unfold equal_range. by rewrite H. Qed.

Hint Resolve wiring_device : keeps.
Lemma wiring_channel_shadow j i : keeps (wiring j) (channel_shadow i).
Proof.
  unfold channel_shadow, copy_ramin, pv_deref, write_shadow_page_table, flush_directory.
  repeat first [solve [auto with keeps] | keeps_step | by apply wiring_mod_channel].
Qed.

Lemma mod_channel_ramin i addr w :
  wp any_error (mod_channel i (fun ch => set_ch_ramin_address addr (set_ch_enabled true ch)))
    (fun _ w' => (wiring i w').1.2.1.2 = addr /\ registry w' = registry w) w.
Proof.
  unfold mod_channel, vread, vwrite. wp_step. apply wp_gets. wp_step. apply wp_runs.
  intros ch w1 E. cbn beta. wp_step. apply wp_runs. intros v w2 E2. apply wp_modify.
  revert E. destruct (vec_get _ i) as [ch'|]; [|done]. intros [= <- <-].
  revert E2. destruct (vec_set _ _ _) as [v'|] eqn:E3; [|done]. intros [= <- <-].
  apply vec_set_inv in E3 as (_ & _ & Ha & _). unfold wiring, registry. cbn. by rewrite Ha.
Qed.

(** The registry after an enabled channel moved to another page. *)
Lemma channel_refresh_registry i ch addr w :
  vec_get (c_channels (w_ctx w)) i = Some ch -> ch_enabled ch = true -> ch_ramin_address ch <> addr ->
  wp any_error (channel_refresh i addr) (fun _ w' =>
    registry w' = channel_map_insert (addr, i) (erase_first addr i (registry w))) w.
Proof.
  intros Hc He Hne. unfold channel_refresh, get_channel, vread, get_ctx_f. wp_step. wp_step. apply wp_gets.
  apply (wp_of_option _ _ _ ch); [done|]. rewrite He, (proj2 (Z.eqb_neq addr _)) by congruence. cbn [andb].
  wp_step. wp_step.
  assert (Hd : wp any_error (channel_detach i addr) (fun _ w1 => registry w1 = erase_first addr i (registry w)) w).
  { unfold channel_detach. wp_step. apply (wp_keeps registry); [apply keeps_get_channel|]. intros ch' w1 H1. wp_step.
    apply (wp_keeps registry); [apply keeps_zoom; reflexivity|]. intros e w2 H2. wp_step. apply wp_modify. apply wp_ret.
    unfold registry in *. cbn. by rewrite H2, H1. }
  eapply wp_mono; [exact Hd|]. intros e w1 H1. apply wp_ret. wp_step.
  eapply wp_mono; [apply mod_channel_ramin|]. intros [] w2 [Hr2 H2]. wp_step. unfold channel_attach. wp_step.
  apply wp_runs. intros [] w3 E3. pose proof (registry_channel_shadow _ _ _ _ E3) as H3.
  pose proof (wiring_channel_shadow i _ _ _ _ E3) as Hw3. rewrite <- Hw3 in Hr2. clear E3 Hw3.
  wp_step. apply wp_runs. intros ch' w4 E4. wp_step. apply wp_modify. wp_step.
  assert (w4 = w3 /\ ch_ramin_address ch' = addr) as [-> Ha].
  { revert E4. unfold get_channel, vread, of_option, get_ctx_f, bind, gets.
    destruct (vec_get (c_channels (w_ctx w3)) i) as [x|] eqn:Ex; [|done].
    apply vec_get_inv in Ex as [_ ->]. unfold ret. cbn beta. intros H. injection H as <- <-. done. }
  apply (wp_keeps registry); [apply keeps_zoom; reflexivity|]. intros e' w5 H5. apply wp_ret. wp_step.
  apply (wp_keeps registry); [apply registry_reset_barrier|]. intros [] w6 H6. apply wp_ret.
  rewrite H6, H5. unfold registry in *. cbn. by rewrite Ha, H3, H2, H1.
Qed.

(** Moving an enabled channel to another RAMIN page does not take the old page out of
    the registry: the entry that is looked for is the one of the new page. The old page
    keeps all its channels, the moved one among them, so later writes to it are still
    mirrored into the channel's shadow. *)
Theorem channel_move_stale {LM : ChannelMapLaws PF} i ch addr w r w' :
  vec_get (c_channels (w_ctx w)) i = Some ch -> ch_enabled ch = true -> ch_ramin_address ch <> addr ->
  channel_refresh i addr w = Ok (r, w') ->
  equal_range (ch_ramin_address ch) (c_ramin_channel_map (w_ctx w'))
    ≡ₚ equal_range (ch_ramin_address ch) (c_ramin_channel_map (w_ctx w))
  /\ equal_range addr (c_ramin_channel_map (w_ctx w'))
    ≡ₚ i :: equal_range addr (erase_first addr i (c_ramin_channel_map (w_ctx w))).
Proof.
  intros Hc He Hne E. pose proof (wp_ok _ _ _ _ _ _ (channel_refresh_registry i ch addr w Hc He Hne) E) as H.
  unfold registry in H. rewrite H, channel_map_insert_perm, !equal_range_cons. split.
  - rewrite bool_decide_false by done. by rewrite equal_range_erase_other by done.
  - by rewrite bool_decide_true by done.
Qed.
End Registry.

(** ** A concrete channel *)

#[export] Instance sim_tlb : TlbRegisters sim_platform sim_pramin.
Proof.
  constructor.
  - intros o g Ho. rewrite !elem_of_cons, elem_of_nil in Ho. by destruct_or! Ho; subst o.
  - intros o v g Ho. rewrite !elem_of_cons, elem_of_nil in Ho. by destruct_or! Ho; subst o.
Qed.

Definition sim_ramin_page : page := Vram (A3_HYPERVISOR_DEVICE_MEM_BASE + 0x20000) 1.
Definition sim_ramin_pool : vram_manager_t :=
  VramManager A3_HYPERVISOR_DEVICE_MEM_BASE A3_HYPERVISOR_DEVICE_MEM_SIZE 33
    [Vram A3_HYPERVISOR_DEVICE_MEM_BASE 16].
Definition sim_ramin_channel : channel :=
  Channel 0 true false 0x30000 0 sim_shadow_table sim_ramin_page (vec_make A3_DOMAIN_CHANNELS false) 0.
Definition sim_ramin_world : @world sim_platform :=
  @World sim_platform (SimGpu (<[0x30202 := 1]> sim_guest_tables) 0 ∅) (set_d_vram sim_ramin_pool sim_device)
    (set_c_channels (Vec A3_DOMAIN_CHANNELS {[0 := sim_ramin_channel]} sim_channel) sim_context) [].

Lemma sim_ramin_inv : vram_inv sim_ramin_pool [sim_ramin_page; sim_phys].
Proof.
  constructor.
  - vm_compute; intuition congruence.
  - vm_compute; intuition congruence.
  - repeat constructor; vm_compute; intuition congruence.
  - repeat constructor.
  - intros a. unfold cov, covers, sim_ramin_pool, sim_phys, sim_ramin_page; simpl. consts.
    repeat match goal with |- context [?x <=? ?y] => destruct (Z.leb_spec x y)
      | |- context [?x <? ?y] => destruct (Z.ltb_spec x y) end; simpl; lia.
Qed.

Lemma sim_channel_ready :
  @channel_ready sim_platform sim_pramin 0 sim_ramin_channel sim_phys [sim_ramin_page; sim_phys] sim_ramin_world.
Proof.
  constructor; try reflexivity.
  - split; by vm_compute.
  - constructor; [exact sim_ramin_inv|reflexivity|reflexivity].
  - constructor; [reflexivity|split; by vm_compute| |reflexivity|].
    + constructor; by vm_compute.
    + intros x Hx. unfold covers. cbn in *. consts. apply andb_false_iff. left. apply Z.leb_gt. lia.
  - by constructor.
  - constructor; simpl; [|by intros p ?%elem_of_nil..|lia|lia].
    split_and!; [done| |done]. by do 2 constructor.
  - split; by vm_compute.
  - by vm_compute.
  - by vm_compute.
Qed.


(** The same channel with its RAMIN page registered and under a barrier. *)
Definition sim_mapped : barrier_table :=
  match barrier_map 0x30000 (c_barrier sim_context) with Ok (_, t) => t | Err _ => c_barrier sim_context end.
Definition sim_mirror_world : @world sim_platform :=
  set_w_ctx (set_c_barrier sim_mapped (set_c_ramin_channel_map [(0x30000, 0)] (w_ctx sim_ramin_world))) sim_ramin_world.

Lemma sim_mapped_wf : barrier_wf sim_mapped.
Proof.
  unfold sim_mapped. destruct (barrier_map_spec _ 0x30000 sim_barrier_wf) as (b & t' & -> & Hwf & _). exact Hwf.
Qed.

Lemma ramin_write_mirrored_witness :
  exists w', @write_gphys sim_platform 0x30200 (Command TYPE_WRITE 0x12345678 0 0 4) sim_mirror_world = Ok (tt, w')
    /\ load 4 (address_ sim_ramin_page + 0x200) (@mem _ sim_pramin w') = 0x12345678.
Proof.
  destruct (@ramin_write_mirrored sim_platform sim_pramin sim_pramin_laws 0 sim_ramin_channel 0x30000 0x200
    (Command TYPE_WRITE 0x12345678 0 0 4) sim_mirror_world) as (w' & E & _ & L).
  - constructor; try reflexivity; [exact sim_mapped_wf|exact (cr_ramin _ _ _ _ _ sim_channel_ready)|discriminate..].
  - by vm_compute.
  - reflexivity.
  - lia.
  - cbn; lia.
  - cbn; lia.
  - exists w'. split; [exact E|exact L].
Defined.

#[export] Instance sim_map_laws : ChannelMapLaws sim_platform.
Proof. intros x l. cbn. apply Permutation_app_comm. Qed.

Lemma channel_move_stale_witness :
  exists r w', @channel_refresh sim_platform 3 0x40000 sim_attached = Ok (r, w')
    /\ 3 ∈ equal_range 0x20000 (c_ramin_channel_map (w_ctx w')).
Proof.
  assert (H : is_ok (@channel_refresh sim_platform 3 0x40000 sim_attached) = true) by (vm_compute; reflexivity).
  destruct (@channel_refresh sim_platform 3 0x40000 sim_attached) as [[r w']|] eqn:E; [|discriminate H].
  exists r, w'. split; [reflexivity|].
  pose proof (@channel_move_stale sim_platform sim_map_laws 3
    (set_ch_ramin_address 0x20000 (set_ch_enabled true (sim_channel 3))) 0x40000 sim_attached r w'
    eq_refl eq_refl ltac:(discriminate) E) as [Hp _].
  apply (elem_of_Permutation_proper _ _ _ Hp). by constructor.
Defined.
