(* ===== verification/PvCalls.v ===== *)
(** * Properties of the para-virtual calls ([context_bar4.cc])

    Entries that go into a para-virtual table are translated, so the tables stay confined
    to the machine's memory under any sequence of map calls; indices wrap around and one
    of them stops A3; and nothing keeps a page from being used both as a directory and as
    a table, which defeats the translation. *)

From S2P Require Import Prelude Config Vram PageTable Barrier Sched State Device Tables Shadow Bars Arena Remap Channel Playlist Context Bar0 Pv Frame System Registers Ramin.

Section PvMap.
Context `{PF : Platform} {PR : Pramin PF} {PL : PraminLaws PF PR}.

(** The page behind the name [n], an ordinary table. *)
Record pv_table (n : Z) (p : page) (w : world) : Prop := PvTable {
  pt_heap : c_pv_heap (w_ctx w) !! n = Some p;
  pt_page : page_ok p;
  pt_size : page_size p <= 2 ^ 31;
  pt_bar3 : c_pv_bar3_pgt (w_ctx w) <> Some n;
  pt_large : c_pv_bar1_large_pgt (w_ctx w) <> Some n;
  pt_small : c_pv_bar1_small_pgt (w_ctx w) <> Some n
}.

Lemma pe_of_raw_words host : 0 <= host < 2 ^ 64 -> pe_wf (pe_of_raw host).
Proof. intros Hh. split; apply u32_range. Qed.

(** The code for an ordinary table. *)
Lemma pv_map_ordinary n p index guest host w :
  pv_table n p w ->
  pv_map n index guest host w =
    (if page_size p <? u32 (0x8 * u32 (index + 1)) then ret (- ERANGE)
     else
       page_write32 p (u32 (0x8 * index + 0x0)) (lower32 host) ;;;
       page_write32 p (u32 (0x8 * index + 0x4)) (upper32 host) ;;;
       ret 0) w.
Proof.
  intros [Hh _ _ H3 HL HS]. unfold pv_map, get_ctx_f. unfold bind at 1, gets, id.
  unfold ptr_eq. rewrite !bool_decide_false by done. unfold bind at 1, pv_deref, get_ctx_f, bind at 1, gets.
  by rewrite Hh.
Qed.

Lemma u32_mul8 x : u32 (0x8 * x) = 8 * (x mod 2 ^ 29).
Proof. unfold u32. zlia. Qed.

(** ** One entry *)

Lemma pv_map_spec n p index guest host w :
  synced w -> pv_table n p w -> 0 <= index < 2 ^ 32 -> 0 <= host < 2 ^ 64 ->
  let k := index mod 2 ^ 29 in
  k <> 2 ^ 29 - 1 -> 8 * (k + 1) <= page_size p ->
  wp no_error (pv_map n index guest host) (fun r w' => r = 0 /\ synced w' /\ pmem_frame w w'
    /\ entry_at (mem w') (address_ p + 8 * k) = pe_of_raw host
    /\ entry_written (address_ p + 8 * k) (mem w) (mem w')) w.
Proof.
  intros Hs Ht Hi Hh k Hk Hsz. unfold wp. rewrite (pv_map_ordinary n p) by done.
  assert (E1 : u32 (8 * u32 (index + 1)) = 8 * (k + 1)) by (rewrite u32_mul8; unfold k in *; zlia).
  assert (E2 : u32 (8 * index + 0) = 8 * k) by (rewrite Z.add_0_r, u32_mul8; done).
  assert (E3 : u32 (8 * index + 4) = 8 * k + 4) by (unfold k in *; zlia).
  rewrite E1, E2, E3, (proj2 (Z.ltb_ge _ _)) by lia.
  pose proof (write_entry_spec p (8 * k) (pe_of_raw host) w Hs (pt_page _ _ _ Ht) ltac:(unfold k; zlia) ltac:(lia)
    ltac:(zlia) (pe_of_raw_words host Hh)) as W. revert W. unfold wp, bind.
  change (pe_word0 (pe_of_raw host)) with (lower32 host). change (pe_word1 (pe_of_raw host)) with (upper32 host).
  destruct (page_write32 p (8 * k) (lower32 host) w) as [[[] w1]|]; [|done].
  destruct (page_write32 p (8 * k + 4) (upper32 host) w1) as [[[] w2]|]; [|done]. done.
Qed.

(** The entry a call writes. *)
Definition host_entry (w : world) (guest : Z) : page_entry :=
  guest_to_host (c_id (w_ctx w)) (xen_gfn_to_mfn (c_domid (w_ctx w))) (pe_of_raw guest).

Lemma pv_map_guest_eq n index guest w :
  pv_map_guest n index guest w = pv_map n index guest (pe_raw (host_entry w guest)) w.
Proof. reflexivity. Qed.

Lemma host_entry_wf w guest : pe_wf (host_entry w guest).
Proof. apply guest_to_host_wf, pe_of_raw_wf. Qed.

Lemma pe_raw_range e : pe_wf e -> 0 <= pe_raw e < 2 ^ 64.
Proof. intros He. rewrite pe_raw_value by done. destruct He. lia. Qed.

(** MAP on an ordinary table, for every index and entry a guest can send. The index
    counts modulo 2^29: the entry it then names is written with the translation of the
    guest's entry, which is confined to the machine's partition, and nothing else is
    changed; an index behind the end of the page is refused; but for the last index modulo
    2^29 the check passes and the write stops A3 with an assertion. *)
Theorem pv_map_entry n p index guest w :
  synced w -> valid_id (c_id (w_ctx w)) -> pv_table n p w -> 0 <= index < 2 ^ 32 ->
  let k := index mod 2 ^ 29 in
  (k = 2 ^ 29 - 1 -> pv_map_guest n index guest w = Err AssertFail)
  /\ (k <> 2 ^ 29 - 1 -> page_size p < 8 * (k + 1) -> pv_map_guest n index guest w = Ok (- ERANGE, w))
  /\ (k <> 2 ^ 29 - 1 -> 8 * (k + 1) <= page_size p ->
      exists w', pv_map_guest n index guest w = Ok (0, w')
        /\ entry_at (mem w') (address_ p + 8 * k) = host_entry w guest
        /\ safe_entry (c_id (w_ctx w)) (host_entry w guest)
        /\ entry_written (address_ p + 8 * k) (mem w) (mem w') /\ synced w' /\ pmem_frame w w').
Proof.
  intros Hs Hid Ht Hi k. rewrite pv_map_guest_eq. split_and!.
  - intros Hk. rewrite (pv_map_ordinary n p) by done. pose proof (pt_size _ _ _ Ht) as Hsz.
    assert (Hz : u32 (8 * u32 (index + 1)) = 0) by (rewrite u32_mul8; unfold k in *; zlia).
    assert (Ho : u32 (8 * index + 0) = 2 ^ 32 - 8) by (rewrite Z.add_0_r, u32_mul8; unfold k in *; zlia).
    destruct (pt_page _ _ _ Ht). rewrite Hz, Ho, (proj2 (Z.ltb_ge _ _)) by (unfold page_size; lia).
    unfold bind at 1. by rewrite page_write32_assert by lia.
  - intros Hk Hlt. rewrite (pv_map_ordinary n p) by done.
    assert (E1 : u32 (8 * u32 (index + 1)) = 8 * (k + 1)) by (rewrite u32_mul8; unfold k in *; zlia).
    by rewrite E1, (proj2 (Z.ltb_lt _ _)) by lia.
  - intros Hk Hle. pose proof (pe_raw_range _ (host_entry_wf w guest)) as Hr.
    destruct (wp_total _ _ _ (pv_map_spec n p index guest (pe_raw (host_entry w guest)) w Hs Ht Hi Hr Hk Hle))
      as (r & w' & E & -> & Hs' & F & He & Hw). fold k in He, Hw. exists w'. rewrite pe_raw_roundtrip in He by apply host_entry_wf.
    split_and!; try done. by apply guest_to_host_safe.
Qed.
End PvMap.

(** ** Sequences of calls *)

Section Confined.
Context `{PF : Platform} {PR : Pramin PF} {PL : PraminLaws PF PR}.

(** Every entry of every para-virtual page is confined to the machine. *)
Definition tables_safe (w : world) : Prop :=
  forall n p i, c_pv_heap (w_ctx w) !! n = Some p -> 0 <= i -> 8 * (i + 1) <= page_size p ->
    safe_at (c_id (w_ctx w)) (mem w) (address_ p + 8 * i).

(** What the map calls work with. *)
Record pv_inv (c : context) (w : world) : Prop := PvInv {
  pi_ctx : w_ctx w = c;
  pi_synced : synced w;
  pi_safe : tables_safe w
}.

Lemma slot_write_safe id a b m m' :
  a mod 8 = 0 -> b mod 8 = 0 -> entry_written a m m' -> safe_at id m' a -> safe_at id m b -> safe_at id m' b.
Proof.
  intros Ha Hb Hw Hsa Hsb. destruct (decide (a = b)) as [<-|Hne]; [done|].
  apply (safe_at_ext _ m); [|done]. intros x Hx. apply Hw.
  destruct (slot_disjoint b a x Hb Ha (not_eq_sym Hne) Hx); lia.
Qed.

Lemma pv_table_ctx n p w w' : w_ctx w' = w_ctx w -> pv_table n p w -> pv_table n p w'.
Proof. intros E []. by constructor; rewrite ?E. Qed.

(** One entry: a confined one keeps all tables confined. *)
Lemma pv_map_inv c n p index guest host w :
  pv_inv c w -> (forall n p, c_pv_heap c !! n = Some p -> page_ok p) -> pv_table n p w ->
  0 <= index < 2 ^ 32 -> 0 <= host < 2 ^ 64 -> safe_entry (c_id c) (pe_of_raw host) ->
  wp any_error (pv_map n index guest host) (fun _ w' => pv_inv c w') w.
Proof.
  intros Hinv Hpg Ht Hi Hh Hsafe. pose proof Hinv as [Hc Hs Ha]. set (k := index mod 2 ^ 29).
  destruct (decide (k = 2 ^ 29 - 1)) as [Hk|Hk]; [|destruct (Z_le_gt_dec (8 * (k + 1)) (page_size p)) as [Hle|Hgt]].
  - unfold wp. rewrite (pv_map_ordinary n p) by done.
    assert (Ho : u32 (8 * index + 0) = 2 ^ 32 - 8) by (rewrite Z.add_0_r, u32_mul8; unfold k in *; zlia).
    pose proof (pt_size _ _ _ Ht). rewrite Ho. destruct (_ <? _); [done|]. unfold bind at 1.
    by rewrite page_write32_assert by lia.
  - apply wp_no_error. eapply wp_mono; [by apply pv_map_spec|]. fold k.
    intros r w' (_ & Hs' & F & He & Hw). constructor; [by rewrite (fr_ctx _ _ F)|done|].
    intros m q i Hq Hi0 Hi1. rewrite (fr_ctx _ _ F) in *. rewrite Hc in *.
    destruct (pt_page _ _ _ Ht) as [Hal _ _ _]. destruct (Hpg m q Hq) as [Halq _ _ _].
    eapply slot_write_safe; [| |exact Hw| |]; [unfold k; zlia|zlia| |].
    + unfold safe_at. by rewrite He.
    + rewrite <- Hc. apply (Ha m q); [by rewrite Hc|done|done].
  - unfold wp. rewrite (pv_map_ordinary n p) by done.
    assert (E1 : u32 (8 * u32 (index + 1)) = 8 * (k + 1)) by (rewrite u32_mul8; unfold k in *; zlia).
    by rewrite E1, (proj2 (Z.ltb_lt _ _)) by lia.
Qed.

Lemma wp_until_error (I : world -> Prop) n i body w :
  I w -> (forall j w, I w -> wp any_error (body j) (fun _ w' => I w') w) ->
  wp any_error (until_error n i body) (fun _ w' => I w') w.
Proof.
  intros HI Hb. revert i w HI. induction n as [|n IH]; intros i w HI; cbn [until_error]; [done|].
  wp_step. eapply wp_mono; [by apply Hb|]. intros r w1 H1. destruct (negb _); [done|]. by apply IH.
Qed.

(** The word [i] of the slot [pos]. *)
Definition slot_word (c : context) (pos i : Z) : Z :=
  match c_guest c with Some v => vec_at v (pos * slot_words + i) | None => 0 end.

(** What holds of the context during a call in the slot [pos]: its pages are well formed
    and the page the call names is not one of the tables of BAR1 and BAR3. *)
Record pv_ctx (pos : Z) (c : context) : Prop := PvCtx {
  px_id : valid_id (c_id c);
  px_pages n p : c_pv_heap c !! n = Some p -> page_ok p /\ page_size p <= 2 ^ 31;
  px_live id n : c_allocated c !! id = Some n -> is_Some (c_pv_heap c !! n);
  px_bar n : c_allocated c !! slot_word c pos 1 = Some n ->
    c_pv_bar3_pgt c <> Some n /\ c_pv_bar1_large_pgt c <> Some n /\ c_pv_bar1_small_pgt c <> Some n;
  px_words v i : c_guest c = Some v -> 0 <= vec_at v i < 2 ^ 32
}.

Lemma slot_u32_wp c pos0 pos i (Q : Z -> world -> Prop) w :
  pv_ctx pos0 c -> pv_inv c w -> (0 <= slot_word c pos i < 2 ^ 32 -> Q (slot_word c pos i) w) ->
  wp any_error (slot_u32 pos i) Q w.
Proof.
  intros Hc [Ec _ _] HQ. unfold slot_u32, vread. wp_step. apply wp_gets. rewrite Ec. wp_step.
  unfold slot_word in HQ. destruct (c_guest c) as [v|] eqn:Eg; [|done]. apply wp_ret. destruct (i <? slot_words); [|done].
  destruct (vec_get v _) as [x|] eqn:Ex; [|done]. apply vec_get_inv in Ex as [_ ->]. apply wp_ret, HQ.
  by apply (px_words pos0 c Hc).
Qed.

Lemma slot_u64_wp c pos0 pos i (Q : Z -> world -> Prop) w :
  pv_ctx pos0 c -> pv_inv c w -> (forall v, Q v w) -> wp any_error (slot_u64 pos i) Q w.
Proof.
  intros Hc Hi HQ. unfold slot_u64. wp_step. eapply slot_u32_wp; [done|done|]. intros _. wp_step.
  eapply slot_u32_wp; [done|done|]. intros _. by apply wp_ret.
Qed.

Lemma pv_map_guest_inv c pos n p index guest w :
  pv_ctx pos c -> pv_inv c w -> pv_table n p w -> 0 <= index < 2 ^ 32 ->
  wp any_error (pv_map_guest n index guest) (fun _ w' => pv_inv c w') w.
Proof.
  intros Hc Hi Ht Hix. unfold wp. rewrite pv_map_guest_eq. pose proof (pi_ctx _ _ Hi) as Ec.
  apply (pv_map_inv c n p); try done.
  - intros m q Hq. by apply (px_pages pos c Hc m q Hq).
  - apply pe_raw_range, host_entry_wf.
  - rewrite pe_raw_roundtrip by apply host_entry_wf. unfold host_entry. rewrite Ec. by apply guest_to_host_safe, (px_id pos).
Qed.

(** A call that works on the page it names. *)
Lemma named_page_inv c pos k w :
  pv_ctx pos c -> pv_inv c w ->
  (forall n p, pv_table n p w -> wp any_error (k n) (fun _ w' => pv_inv c w') w) ->
  wp any_error (let! id := slot_u32 pos 1 in with_pv_id id k) (fun _ w' => pv_inv c w') w.
Proof.
  intros Hc Hi Hk. wp_step. eapply slot_u32_wp; [done|done|]. intros _.
  unfold with_pv_id, lookup_by_pv_id. wp_step. wp_step. apply wp_gets. apply wp_ret.
  pose proof (pi_ctx _ _ Hi) as Ec. rewrite Ec. destruct (c_allocated c !! _) as [n|] eqn:En; [|done].
  destruct (px_live pos c Hc _ _ En) as [p Hp]. destruct (px_pages pos c Hc n p Hp) as [Hpo Hsz].
  destruct (px_bar pos c Hc _ En) as (H3 & HL & HS). apply (Hk n p). by constructor; rewrite ?Ec.
Qed.

Lemma table_later c n p w w' : pv_inv c w -> pv_inv c w' -> pv_table n p w -> pv_table n p w'.
Proof. intros [E1 _ _] [E2 _ _]. apply pv_table_ctx. congruence. Qed.

Lemma call_map_inv c pos w :
  pv_ctx pos c -> pv_inv c w -> wp any_error (call_map pos) (fun _ w' => pv_inv c w') w.
Proof.
  intros Hc Hi. apply named_page_inv; [done|done|]. intros n p Ht. wp_step.
  eapply slot_u32_wp; [done|done|]. intros Hx. wp_step. eapply slot_u64_wp; [done|done|]. intros g.
  by eapply pv_map_guest_inv.
Qed.

Lemma call_map_batch_inv c pos w :
  pv_ctx pos c -> pv_inv c w -> wp any_error (call_map_batch pos) (fun _ w' => pv_inv c w') w.
Proof.
  intros Hc Hi. apply named_page_inv; [done|done|]. intros n p Ht.
  do 3 (wp_step; eapply slot_u32_wp; [done|done|]; intros _). wp_step. eapply slot_u64_wp; [done|done|]. intros g.
  wp_step. apply wp_gets. unfold ptr_eq. rewrite bool_decide_false by apply Ht.
  apply wp_until_error; [done|]. intros j w1 H1. eapply pv_map_guest_inv; [done|done| |apply u32_range].
  by apply (table_later c n p w).
Qed.

Lemma call_map_sg_batch_inv c pos w :
  pv_ctx pos c -> pv_inv c w -> wp any_error (call_map_sg_batch pos) (fun _ w' => pv_inv c w') w.
Proof.
  intros Hc Hi. apply named_page_inv; [done|done|]. intros n p Ht.
  do 2 (wp_step; eapply slot_u32_wp; [done|done|]; intros _).
  apply wp_until_error; [done|]. intros j w1 H1. wp_step. eapply slot_u64_wp; [done|done|]. intros g.
  eapply pv_map_guest_inv; [done|done| |apply u32_range]. by apply (table_later c n p w).
Qed.

Lemma call_unmap_batch_inv c pos w :
  pv_ctx pos c -> pv_inv c w -> wp any_error (call_unmap_batch pos) (fun _ w' => pv_inv c w') w.
Proof.
  intros Hc Hi. apply named_page_inv; [done|done|]. intros n p Ht.
  do 2 (wp_step; eapply slot_u32_wp; [done|done|]; intros _).
  apply wp_until_error; [done|]. intros j w1 H1. apply (pv_map_inv c n p); [done| | |apply u32_range|lia|].
  - intros m q Hq. by apply (px_pages pos c Hc m q Hq).
  - by apply (table_later c n p w).
  - intros Hp. exfalso. by vm_compute in Hp.
Qed.

(** The calls that write entries. *)
Definition map_op (op : Z) : Prop :=
  pv_op op = Some MAP \/ pv_op op = Some MAP_BATCH \/ pv_op op = Some MAP_SG_BATCH \/ pv_op op = Some UNMAP_BATCH.

(** The context after the call was counted. *)
Definition counted (c : context) : context :=
  set_c_instruments (set_in_hypercalls (u64 (in_hypercalls (c_instruments c) + 1)) (c_instruments c)) c.

Lemma pv_ctx_counted pos c : pv_ctx pos c -> pv_ctx pos (counted c).
Proof. by intros []. Qed.

Lemma map_op_inv c pos w :
  pv_ctx pos c -> pv_inv c w -> map_op (u8 (slot_word c pos 0)) ->
  wp any_error (a3_call pos) (fun _ w' => pv_inv (counted c) w') w.
Proof.
  intros Hc [Ec Hs Ha] Hop. unfold a3_call, instruments_hypercall, slot_u8_0, mod_ctx.
  pose proof (pv_ctx_counted pos c Hc) as Hc'. wp_step. wp_step. apply wp_modify. wp_step. wp_step.
  set (w1 := set_w_ctx _ w). assert (Hi : pv_inv (counted c) w1) by (constructor; subst; done).
  eapply slot_u32_wp; [done|done|]. intros _. apply wp_ret. destruct (_ <? 10); [|done]. apply wp_ret. wp_step.
  wp_step. eapply slot_u32_wp; [done|done|]. intros _. apply wp_ret.
  destruct Hop as [Hop|[Hop|[Hop|Hop]]]; unfold slot_word, counted in *; cbn [c_guest set_c_instruments]; rewrite Hop.
  - by apply call_map_inv.
  - by apply call_map_batch_inv.
  - by apply call_map_sg_batch_inv.
  - by apply call_unmap_batch_inv.
Qed.

End Confined.

(** ** Directories *)

Section Directories.
Context `{PF : Platform} {PR : Pramin PF} {PL : PraminLaws PF PR}.

(** The page lies in A3's own part of the video memory. *)
Definition in_pool (p : page) : Prop :=
  A3_HYPERVISOR_DEVICE_MEM_BASE <= address_ p
  /\ address_ p + page_size p <= A3_HYPERVISOR_DEVICE_MEM_BASE + A3_HYPERVISOR_DEVICE_MEM_SIZE.

(** The directory word of a table is a page table entry that maps the table. *)
Lemma table_word_entry p :
  page_ok p -> in_pool p ->
  let e := PageEntry (u32 (Z.lor 1 (Z.shiftr (address_ p) 8))) 0 in
  pe_wf e /\ pe_present e = true /\ pe_target e = TARGET_TYPE_VRAM /\ pe_address e * kPAGE_SIZE = address_ p.
Proof.
  intros [Ha Hb Hu He] [H1 H2] e. unfold page_size in *. consts.
  assert (Hw : u32 (Z.lor 1 (Z.shiftr (address_ p) 8)) = 1 + address_ p / 256).
  { rewrite Z.shiftr_div_pow2 by lia. change (2 ^ 8) with 256.
    assert (Hl : Z.land 1 (address_ p / 256) = 0).
    { rewrite Z.land_comm. change 1 with (Z.ones 1). rewrite Z.land_ones by lia. zlia. }
    rewrite <- Z.lxor_lor, <- Z.add_nocarry_lxor by done. apply u32_small. zlia. }
  subst e. rewrite Hw. unfold pe_wf, pe_present, pe_target, pe_address, get_bits. cbn [pe_word0 pe_word1].
  split_and!; [zlia..| |reflexivity|].
  - rewrite Z.bit0_odd, Z.odd_spec. exists (address_ p / 512). zlia.
  - rewrite Z.shiftr_div_pow2, Z.land_ones by lia. zlia.
Qed.

(** A MAP_PGT call with the page [n] as directory and as large table. *)
Record self_map (pos id n : Z) (p : page) (index : Z) (w : world) : Prop := SelfMap {
  sm_table : pv_table n p w;
  sm_bar1 : c_pv_bar1_pgd (w_ctx w) <> Some n;
  sm_bar3 : c_pv_bar3_pgd (w_ctx w) <> Some n;
  sm_id : id <> 0 /\ c_allocated (w_ctx w) !! id = Some n;
  sm_directory : slot_u32 pos 1 w = Ok (id, w);
  sm_small : slot_u32 pos 2 w = Ok (0, w);
  sm_large : slot_u32 pos 3 w = Ok (id, w);
  sm_index : slot_u32 pos 4 w = Ok (index, w)
}.

Lemma self_map_runs pos id n p index w :
  self_map pos id n p index w -> 0 <= index -> 8 * (index + 1) <= page_size p ->
  call_map_pgt pos w =
    (page_write32 p (8 * index + 0) (u32 (Z.lor 1 (Z.shiftr (address_ p) 8))) ;;;
     page_write32 p (8 * index + 4) 0 ;;; ret 0) w.
Proof.
  intros [[Hh _ _ _ _ _] H1 H3 [Hid Ha] S1 S2 S3 S4] Hi Hsz. unfold call_map_pgt. unfold bind at 1. rewrite S1.
  unfold with_pv_id, lookup_by_pv_id, get_ctx_f. unfold bind at 1. unfold bind at 1, gets at 1, ret at 1. rewrite Ha.
  unfold bind at 1. rewrite S2. unfold optional_pgt at 1. cbn [Z.eqb]. unfold bind at 1, ret at 1.
  unfold bind at 1. rewrite S3. unfold optional_pgt, lookup_by_pv_id, get_ctx_f. rewrite (proj2 (Z.eqb_neq _ _)) by done.
  unfold bind at 1. unfold bind at 1. unfold bind at 1, gets at 1, ret at 1. rewrite Ha. unfold ret at 1.
  unfold bind at 1, gets at 1, ptr_eq. rewrite !bool_decide_false by done.
  unfold bind at 1. rewrite S4. unfold bind at 1. unfold pv_deref at 1, get_ctx_f, bind at 1, gets at 1. rewrite Hh.
  unfold of_option, ret at 1. rewrite (proj2 (Z.ltb_ge _ _)) by lia.
  unfold pgt_word, bind at 1. unfold bind at 1. unfold pv_deref at 1, get_ctx_f, bind at 1, gets at 1. rewrite Hh. reflexivity.
Qed.

(** A directory may be its own table. The MAP_PGT call does not look at what a page is
    used for, and the word it writes for a table has the format of a page table entry: when
    one page is named as the directory and as the large table, the call succeeds and the
    page holds a present entry that maps the page itself. Used as a table, it gives the
    guest a view of A3's tables, outside the partitions of all machines. *)
Theorem pv_type_confusion pos id n p index w :
  synced w -> self_map pos id n p index w -> in_pool p -> 0 <= index -> 8 * (index + 1) <= page_size p ->
  exists w', call_map_pgt pos w = Ok (0, w') /\ synced w'
    /\ let e := entry_at (mem w') (address_ p + 8 * index) in
       pe_present e = true /\ pe_target e = TARGET_TYPE_VRAM /\ pe_address e * kPAGE_SIZE = address_ p
       /\ forall vm, valid_id vm -> ~ in_partition vm (pe_address e * kPAGE_SIZE).
Proof.
  intros Hs Hm Hp Hi Hsz. rewrite (self_map_runs pos id n p index) by done.
  pose proof (pt_page _ _ _ (sm_table _ _ _ _ _ _ Hm)) as Hok. destruct (table_word_entry p Hok Hp) as (Hwf & He & Ht & Had).
  rewrite Z.add_0_r. pose proof (write_entry_spec p (8 * index) _ w Hs Hok ltac:(lia) ltac:(lia) ltac:(zlia) Hwf) as W.
  cbn [pe_word0 pe_word1] in W. destruct (wp_total _ _ _ W) as ([] & w' & E & Hs' & _ & Ee & _).
  exists w'. split_and!; [|done|cbn zeta; rewrite Ee; split_and!; try done].
  - revert E. unfold bind. destruct (page_write32 p _ _ w) as [[[] w1]|]; [|done]. by intros ->.
  - intros vm Hv. rewrite Had. destruct Hp. unfold valid_id, in_partition, vram_size in *. consts. lia.
Qed.
End Directories.

(** ** Allocation *)

Section Allocation.
Context `{PF : Platform} {PR : Pramin PF} {PL : PraminLaws PF PR}.

(** Every identifier names a live page of the pool and is its frame number. *)
Record heap_inv (alloc : list page) (w : world) : Prop := HeapInv {
  hi_pool : pool_ok w alloc;
  hi_page id n : c_allocated (w_ctx w) !! id = Some n ->
    exists p, c_pv_heap (w_ctx w) !! n = Some p /\ p ∈ alloc /\ id = pv_page_id p;
  hi_names n p : c_pv_heap (w_ctx w) !! n = Some p -> n < c_pv_next (w_ctx w)
}.

Lemma pool_page_range w alloc p :
  pool_ok w alloc -> p ∈ alloc -> 0 < units_ p /\ address_ p mod 4096 = 0 /\ 2 ^ 32 <= address_ p < 2 ^ 33.
Proof.
  intros [Hi Hm Hs] Hp. pose proof (inv_blocks _ _ Hi) as Hb. rewrite Forall_app in Hb.
  destruct Hb as [_ Hb]. rewrite Forall_forall in Hb. destruct (Hb p Hp) as (? & ? & ? & ?).
  pose proof (inv_cursor _ _ Hi). unfold max_pages in *. rewrite Hm, Hs in *. consts. zlia.
Qed.

Lemma pv_page_id_value p :
  address_ p mod 4096 = 0 -> 2 ^ 32 <= address_ p < 2 ^ 33 -> pv_page_id p = 2 ^ 28 + address_ p / 4096.
Proof.
  intros Ha Hr. unfold pv_page_id. rewrite Z.shiftr_div_pow2 by lia. rewrite u32_small by zlia.
  change (Z.shiftl 1 28) with (2 ^ 28). change (2 ^ 12) with 4096.
  assert (Hl : Z.land (address_ p / 4096) (2 ^ 28) = 0).
  { apply Z.bits_inj'; intros i Hi. rewrite Z.land_spec, Z.bits_0. destruct (decide (i = 28)) as [->|].
    - apply andb_false_iff. left. rewrite <- (Z.mod_small (address_ p / 4096) (2 ^ 28)) by zlia.
      by rewrite Z.mod_pow2_bits_high by lia.
    - apply andb_false_iff. right. apply Z.pow2_bits_false. lia. }
  rewrite <- Z.lxor_lor, <- Z.add_nocarry_lxor by done. lia.
Qed.

(** Two pages of the pool have different identifiers. *)
Lemma pv_page_id_inj w alloc p q :
  pool_ok w alloc -> p ∈ alloc -> q ∈ alloc -> pv_page_id p = pv_page_id q -> p = q.
Proof.
  intros Hk Hp Hq. destruct (pool_page_range _ _ _ Hk Hp) as (Hup & Hap & Hrp).
  destruct (pool_page_range _ _ _ Hk Hq) as (Huq & Haq & Hrq). rewrite !pv_page_id_value by done.
  intros He. destruct (decide (p = q)) as [|Hne]; [done|exfalso].
  assert (address_ p = address_ q) as Ea by zlia.
  pose proof (alloc_disjoint _ _ p q (address_ p) (pk_inv _ _ Hk) Hp Hq Hne (covers_start p Hup)) as Hd.
  rewrite Ea, covers_start in Hd by done. done.
Qed.

Lemma fresh_id w w1 alloc p :
  heap_inv alloc w -> w_ctx w1 = w_ctx w -> pool_ok w1 (p :: alloc) -> p ∉ alloc ->
  c_allocated (w_ctx w1) !! pv_page_id p = None.
Proof.
  intros [_ Hh _] Ec Hk Hn. rewrite Ec. destruct (_ !! pv_page_id p) as [n|] eqn:E; [|done]. exfalso.
  destruct (Hh _ _ E) as (q & _ & Hq & Hid). apply Hn.
  rewrite (pv_page_id_inj w1 (p :: alloc) p q Hk); [done|by left|by right|done].
Qed.

Lemma units_of_size size :
  0 < size < 2 ^ 32 -> round_up size kPAGE_SIZE / kPAGE_SIZE = (size + 4095) / 4096.
Proof.
  intros H. change kPAGE_SIZE with (2 ^ 12). rewrite round_up_spec by lia. rewrite Z.div_mul by lia. zlia.
Qed.

Lemma slot_read_at pos i v w :
  c_guest (w_ctx w) = Some v -> vlen v = NOUVEAU_PV_SLOT_NUM * slot_words -> 0 <= pos < NOUVEAU_PV_SLOT_NUM ->
  0 <= i < slot_words -> slot_u32 pos i w = Ok (vec_at v (pos * slot_words + i), w).
Proof.
  intros Eg Hl Hp Hi. unfold slot_u32, get_ctx_f, vread. unfold bind at 1, gets. rewrite Eg. unfold bind at 1, of_option, ret at 1.
  rewrite (proj2 (Z.ltb_lt _ _)) by lia. rewrite vec_get_some; [done|]. rewrite Hl. nia.
Qed.

(** Registering a page with a fresh identifier. *)
Lemma heap_inv_insert w w1 alloc p v :
  heap_inv alloc w -> w_ctx w1 = set_c_guest v (w_ctx w) -> pool_ok w1 (p :: alloc) ->
  let c := w_ctx w1 in
  heap_inv (p :: alloc) (set_w_ctx
    (set_c_allocated (<[pv_page_id p := c_pv_next c]> (c_allocated c))
      (set_c_pv_heap (<[c_pv_next c := p]> (c_pv_heap c)) (set_c_pv_next (c_pv_next c + 1) c))) w1).
Proof.
  intros [Hk Hp Hn] Ec Hk1 c. subst c. rewrite Ec. cbn. constructor; cbn; [by apply (pool_ok_same w1)| |].
  - intros id n. destruct (decide (id = pv_page_id p)) as [->|Hne].
    + rewrite lookup_insert_eq. intros [= <-]. exists p. rewrite lookup_insert_eq. split_and!; [done|by left|done].
    + rewrite lookup_insert_ne by done. intros Hl. destruct (Hp _ _ Hl) as (q & Hq & Hin & Hid). exists q.
      pose proof (Hn _ _ Hq). rewrite lookup_insert_ne by lia. split_and!; [done|by right|done].
  - intros n q. destruct (decide (n = c_pv_next (w_ctx w))) as [->|Hne]; [lia|].
    rewrite lookup_insert_ne by done. intros Hq%Hn. lia.
Qed.

(** MEM_ALLOC. For a size above zero the call either stops A3 because the pool is
    exhausted, or it takes a page of the rounded size that overlaps no allocated block,
    registers it under an identifier that names no other page, tells the guest the
    identifier and keeps the invariant of the heap: neither of its assertions fails. The
    page is only cleared in its first quarter; no other memory changes. *)
Theorem mem_alloc_fresh pos size alloc v w :
  synced w -> heap_inv alloc w -> c_guest (w_ctx w) = Some v -> vlen v = NOUVEAU_PV_SLOT_NUM * slot_words ->
  0 <= pos < NOUVEAU_PV_SLOT_NUM -> vec_at v (pos * slot_words + 1) = size -> 0 < size < 2 ^ 32 ->
  wp (eq Abort) (call_mem_alloc pos) (fun r w' => r = 0 /\ synced w' /\ exists p n,
    units_ p = (size + 4095) / 4096 /\ (p ∉ alloc) /\ heap_inv (p :: alloc) w'
    /\ c_allocated (w_ctx w) !! pv_page_id p = None /\ c_pv_heap (w_ctx w) !! n = None
    /\ c_allocated (w_ctx w') = <[pv_page_id p := n]> (c_allocated (w_ctx w))
    /\ c_pv_heap (w_ctx w') = <[n := p]> (c_pv_heap (w_ctx w))
    /\ slot_u32 pos 1 w' = Ok (pv_page_id p, w')
    /\ forall x, mem w' x =
         if (address_ p <=? x) && (x <? address_ p + page_size p / 4) then 0 else mem w x) w.
Proof.
  intros Hs Hh Eg Hl Hpos Hsz Hr. assert (Hsw : 1 < slot_words) by (vm_compute; reflexivity).
  unfold call_mem_alloc. wp_step. unfold wp at 1. rewrite (slot_read_at pos 1 v) by (done || lia). rewrite Hsz.
  rewrite units_of_size by done. wp_step. eapply wp_mono; [apply (page_new_spec _ alloc); [done|apply Hh|zlia]|].
  intros p w1 (Hu & Hnew & Hk1 & Hs1 & F1 & M1). wp_step.
  pose proof (block_page_ok w1 (p :: alloc) p Hk1 ltac:(by left)) as Hok.
  eapply wp_mono; [apply wp_no_error, page_clear_spec; done|]. intros [] w2 (Hs2 & F2 & M2).
  destruct (pmem_pool_frame _ _ F2) as [F12 Ev]. pose proof (pool_ok_same _ _ _ Ev Hk1) as Hk2.
  assert (Ec : w_ctx w2 = w_ctx w) by (rewrite (pf_ctx _ _ F12); apply F1).
  destruct (pool_page_range _ _ p Hk2 ltac:(by left)) as (_ & Hal & Hrg).
  pose proof (fresh_id w w2 alloc p Hh Ec Hk2 Hnew) as Hfresh.
  wp_step. apply wp_assert; [apply negb_true_iff, Z.eqb_neq; rewrite pv_page_id_value by done; zlia|].
  unfold slot_set_u32, vwrite, get_ctx_f, mod_ctx. wp_step. wp_step. apply wp_gets. rewrite Ec, Eg. wp_step. apply wp_ret.
  wp_step. destruct (vec_set_some v (pos * slot_words + 1) (u32 (pv_page_id p))) as (v' & -> & Hl' & Hat & _); [rewrite Hl; nia|].
  apply wp_ret. apply wp_modify. wp_step. apply wp_gets. wp_step. apply wp_assert.
  { apply bool_decide_eq_true. cbn. rewrite Ec in Hfresh. by rewrite Ec. }
  wp_step. apply wp_modify. apply wp_ret. cbn [w_ctx set_w_ctx].
  split_and!; [done|done|]. exists p, (c_pv_next (w_ctx w)). rewrite Ec in Hfresh |- *. split_and!; try done.
  - apply (heap_inv_insert w (set_w_ctx (set_c_guest (Some v') (w_ctx w)) w2) alloc p (Some v')); [done|done|]. by apply (pool_ok_same w2).
  - destruct (c_pv_heap (w_ctx w) !! c_pv_next (w_ctx w)) eqn:E; [|done]. apply (hi_names alloc w Hh) in E. lia.
  - rewrite (slot_read_at pos 1 v') by (done || lia). rewrite Hat, u32_small; [done|]. rewrite pv_page_id_value by done. zlia.
  - intros x. rewrite <- M1. apply M2.
Qed.
End Allocation.

(** ** A machine with one table *)

Definition sim_slot (l : list Z) : vec Z :=
  Vec (NOUVEAU_PV_SLOT_NUM * slot_words) (list_to_map (zip (seqZ 0 (Z.of_nat (length l))) l)) (fun _ => 0).

Lemma sim_slot_range l i : Forall (fun x => 0 <= x < 2 ^ 32) l -> 0 <= vec_at (sim_slot l) i < 2 ^ 32.
Proof.
  intros Hl. unfold vec_at, sim_slot. cbn. destruct (list_to_map _ !! i) as [x|] eqn:E; cbn; [|lia].
  apply elem_of_list_to_map_2, elem_of_zip_r in E. by rewrite Forall_forall in Hl; apply Hl.
Qed.

Definition sim_table_id : Z := pv_page_id sim_phys.
Definition sim_pv_world (l : list Z) : @world sim_platform :=
  @World sim_platform (SimGpu ∅ 0 ∅) (set_d_vram sim_pool sim_device)
    (set_c_guest (Some (sim_slot l)) (set_c_pv_next 2
      (set_c_pv_heap {[1 := sim_phys]} (set_c_allocated {[sim_table_id := 1]} sim_context)))) [].

Lemma sim_phys_ok : page_ok sim_phys.
Proof. constructor; by vm_compute. Qed.

Lemma sim_pv_table l : @pv_table sim_platform 1 sim_phys (sim_pv_world l).
Proof. by constructor; [|apply sim_phys_ok|..]. Qed.

Lemma pv_map_entry_witness :
  exists w', @pv_map_guest sim_platform 1 (2 ^ 29 + 5) 0x71 (sim_pv_world []) = Ok (0, w')
    /\ entry_at (@mem _ sim_pramin w') (address_ sim_phys + 40) = PageEntry 0x71 0.
Proof.
  destruct (@pv_map_entry sim_platform sim_pramin sim_pramin_laws 1 sim_phys (2 ^ 29 + 5) 0x71 (sim_pv_world []))
    as (_ & _ & H).
  - reflexivity.
  - by vm_compute.
  - apply sim_pv_table.
  - lia.
  - destruct H as (w' & E & He & _); [by vm_compute..|]. exists w'. split; [exact E|exact He].
Defined.

Lemma sim_pv_safe l : @tables_safe sim_platform sim_pramin (sim_pv_world l).
Proof. intros n p i _ _ _ Hp. exfalso. revert Hp. unfold pe_present. cbn. by vm_compute. Qed.

(** A MAP call that stores the guest's entry [0x71] under the index 3. *)
Definition sim_map_slot : list Z := [2; sim_table_id; 3; 0; 0x71; 0].

Lemma sim_pv_ctx : pv_ctx 0 (w_ctx (sim_pv_world sim_map_slot)).
Proof.
  constructor.
  - by vm_compute.
  - intros n p Hp. cbn in Hp. apply lookup_singleton_Some in Hp as [_ <-]. split; [apply sim_phys_ok|by vm_compute].
  - intros id n Hn. cbn in Hn. apply lookup_singleton_Some in Hn as [_ <-]. by exists sim_phys.
  - done.
  - intros v i [= <-]. apply sim_slot_range. repeat constructor; by vm_compute.
Qed.


Lemma pv_type_confusion_witness :
  exists w', @call_map_pgt sim_platform 0 (sim_pv_world [1; sim_table_id; 0; sim_table_id; 5]) = Ok (0, w')
    /\ pe_address (entry_at (@mem _ sim_pramin w') (address_ sim_phys + 8 * 5)) * kPAGE_SIZE = address_ sim_phys.
Proof.
  destruct (@pv_type_confusion sim_platform sim_pramin sim_pramin_laws 0 sim_table_id 1 sim_phys 5
    (sim_pv_world [1; sim_table_id; 0; sim_table_id; 5])) as (w' & E & _ & H).
  - reflexivity.
  - by constructor; [apply sim_pv_table|..].
  - split; by vm_compute.
  - lia.
  - by vm_compute.
  - exists w'. split; [exact E|]. cbn zeta in H. destruct H as (_ & _ & H & _). exact H.
Defined.

Lemma sim_heap_inv l : @heap_inv sim_platform [sim_phys] (sim_pv_world l).
Proof.
  constructor.
  - by constructor; [exact sim_pool_inv|..].
  - intros id n Hn. cbn in Hn. apply lookup_singleton_Some in Hn as [<- <-]. exists sim_phys.
    split_and!; [done|by left|done].
  - intros n p Hn. cbn in Hn. apply lookup_singleton_Some in Hn as [<- _]. done.
Qed.

Lemma mem_alloc_fresh_witness :
  exists w' p, @call_mem_alloc sim_platform 0 (sim_pv_world [7; 0x2001]) = Ok (0, w')
    /\ heap_inv [p; sim_phys] w' /\ units_ p = 3.
Proof.
  pose proof (@mem_alloc_fresh sim_platform sim_pramin sim_pramin_laws 0 0x2001 [sim_phys] (sim_slot [7; 0x2001])
    (sim_pv_world [7; 0x2001]) eq_refl (sim_heap_inv _) eq_refl eq_refl ltac:(consts; lia) ltac:(by vm_compute) ltac:(lia)) as H.
  assert (R : is_ok (@call_mem_alloc sim_platform 0 (sim_pv_world [7; 0x2001])) = true) by (vm_compute; reflexivity).
  revert H R. unfold wp. destruct (call_mem_alloc _ _) as [[r w']|e]; [intros H _|discriminate].
  destruct H as (-> & _ & p & n & Hu & _ & Hh & _). exists w', p. split_and!; [reflexivity|exact Hh|exact Hu].
Defined.
