(* ===== verification/Qemu.v ===== *)
(** * The virtual GPU of the device model ([hw/nvc0] of qemu-xen-traditional)

    Every guest has a device model process that presents a PCI device. The handlers of its
    memory regions answer some accesses themselves - the timer, the ROM image, the log
    switch - and send all others to A3 as commands, in a request queue; for reads, and for
    all accesses to BAR4, they wait for the next message of the response queue. *)

From S2P Require Import Prelude Config Vram PageTable Barrier Sched State Device Tables Shadow Bars Arena Remap Channel Playlist Context Bar0 Pv Frame System.

(** ** Constants ([nvc0.h], [nvreg.h], [nouveau_reg.h], [nvc0_mmio_bar0.cc]) *)

Definition NVC0_REG0 : Z := 0x0c0c00a3.
Definition NV_PROM_OFFSET : Z := 0x00300000.
Definition NV03_PMC_BOOT_0 : Z := 0x00000000.
Definition NV04_PTIMER_NUMERATOR : Z := 0x00009200.
Definition NV04_PTIMER_DENOMINATOR : Z := 0x00009210.
Definition NV04_PTIMER_TIME_0 : Z := 0x00009400.
Definition NV04_PTIMER_TIME_1 : Z := 0x00009410.
Definition GPU_CLOCKS_PER_NANO_SEC : Z := 27.
Definition BAR0_SPACE : Z := 0x2000000.

(** [sizeof(nvc0_vbios)]: an array of 15872 words. *)
Definition vbios_size : Z := 15872 * 4.

(** ** The state ([nvc0_bar_t], [nvc0_state_t] and the file-level variables) *)

(** [nb_api] tells which of the two tables of handlers is registered for the region. *)
Record nvc0_bar_t : Type := NvcBar { nb_api : bool; nb_addr : Z; nb_size : Z; nb_type : Z }.

(** [nv_space] is the workspace of BAR0, [nv_guest] the number of the guest. *)
Record nvc0_state_t : Type := NvcState {
  nv_bar : vec nvc0_bar_t;
  nv_space : vec Z;
  nv_guest : Z;
  nv_log : Z;
  nv_numerator : Z;
  nv_denominator : Z
}.

Definition set_nv_bar (v : vec nvc0_bar_t) (s : nvc0_state_t) : nvc0_state_t :=
  NvcState v (nv_space s) (nv_guest s) (nv_log s) (nv_numerator s) (nv_denominator s).
Definition set_nv_space (v : vec Z) (s : nvc0_state_t) : nvc0_state_t :=
  NvcState (nv_bar s) v (nv_guest s) (nv_log s) (nv_numerator s) (nv_denominator s).
Definition set_nv_log (v : Z) (s : nvc0_state_t) : nvc0_state_t :=
  NvcState (nv_bar s) (nv_space s) (nv_guest s) v (nv_numerator s) (nv_denominator s).
Definition set_nv_numerator (v : Z) (s : nvc0_state_t) : nvc0_state_t :=
  NvcState (nv_bar s) (nv_space s) (nv_guest s) (nv_log s) v (nv_denominator s).
Definition set_nv_denominator (v : Z) (s : nvc0_state_t) : nvc0_state_t :=
  NvcState (nv_bar s) (nv_space s) (nv_guest s) (nv_log s) (nv_numerator s) v.

(** How a handler ends: with a value of its own, or by sending a command, whose reply is
    its value when it waits for one ([context::message(cmd, read)]). *)
Inductive outcome : Type := Done (v : Z) | Send (cmd : command) (read : bool).

(** ** Byte accesses to the workspace *)

Definition space_read (n o : Z) : M nvc0_state_t Z :=
  let! v := gets nv_space in
  if (0 <=? o) && (o + n <=? vlen v) then ret (load n o (vec_at v)) else fail OutOfBounds.

Fixpoint space_bytes (n : nat) (o x : Z) (v : vec Z) : option (vec Z) :=
  match n with
  | O => Some v
  | S n' => match vec_set v o (x mod 256) with
            | Some v' => space_bytes n' (o + 1) (x / 256) v'
            | None => None
            end
  end.
Definition space_write (n o x : Z) : M nvc0_state_t unit :=
  let! v := gets nv_space in
  let! v := of_option OutOfBounds (space_bytes (Z.to_nat n) o x v) in
  modify (set_nv_space v).

(** ** The timer; [ts] is the time of [clock_gettime] *)

Record timespec : Type := Timespec { tv_sec : Z; tv_nsec : Z }.

Definition timer_nano_sec (ts : timespec) : Z := u64 (tv_sec ts * 1000000 + tv_nsec ts).

(** The sums have 32 bits, the products 64; a division by zero ends the process. *)
Definition timer_now (ts : timespec) : M nvc0_state_t Z :=
  let! s := gets id in
  let d := u32 (nv_denominator s + 1) in
  if d =? 0 then fail DivideByZero
  else ret (u64 (u64 (timer_nano_sec ts * GPU_CLOCKS_PER_NANO_SEC) * u32 (nv_numerator s + 1)) / d).

(** ** [nvc0_vm.h] *)

Definition vm_read (bar n offset : Z) : outcome := Send (Command TYPE_READ 0 (u32 offset) bar n) true.
Definition vm_bar1_read (n offset : Z) : outcome := vm_read 1 n offset.
Definition vm_bar3_read (n offset : Z) : outcome := vm_read 3 n offset.
Definition vm_bar4_read (n offset : Z) : outcome := vm_read 4 n offset.
Definition vm_bar1_write (n offset value : Z) : outcome :=
  Send (Command TYPE_WRITE value (u32 offset) 1 n) false.
Definition vm_bar3_write (n offset value : Z) : outcome :=
  Send (Command TYPE_WRITE value (u32 offset) 3 n) false.
Definition vm_bar4_write (n offset value : Z) : outcome :=
  Send (Command TYPE_WRITE value (u32 offset) 4 n) true.

(** [addr - state->bar[i].addr] *)
Definition bar_offset (i addr : Z) : M nvc0_state_t Z :=
  let! v := gets nv_bar in
  let! b := of_option OutOfBounds (vec_get v i) in
  ret (u64 (addr - nb_addr b)).

(** ** BAR0 ([nvc0_mmio_bar0.cc]) *)

Definition in_prom (o : Z) : bool := (NV_PROM_OFFSET <=? o) && (o <? NV_PROM_OFFSET + vbios_size).

(** The part that is the same for all widths: the ROM image, or a command. *)
Definition bar0_read (n offset : Z) : M nvc0_state_t outcome :=
  let o := u32 offset in
  if in_prom o then let! v := space_read n o in ret (Done v)
  else ret (Send (Command TYPE_READ 0xdeadface o 0 n) true).
Definition bar0_write (n offset val : Z) : M nvc0_state_t outcome :=
  let o := u32 offset in
  if in_prom o then space_write n o val ;;; ret (Done 0)
  else ret (Send (Command TYPE_WRITE val o 0 n) false).

Definition nvc0_mmio_bar0_readb (addr : Z) : M nvc0_state_t outcome :=
  let! offset := bar_offset 0 addr in bar0_read 1 offset.
Definition nvc0_mmio_bar0_readw (addr : Z) : M nvc0_state_t outcome :=
  let! offset := bar_offset 0 addr in bar0_read 2 offset.
Definition nvc0_mmio_bar0_readd (ts : timespec) (addr : Z) : M nvc0_state_t outcome :=
  let! offset := bar_offset 0 addr in
  if offset =? NV04_PTIMER_TIME_0 then let! t := timer_now ts in ret (Done (u32 t))
  else if offset =? NV04_PTIMER_TIME_1 then let! t := timer_now ts in ret (Done (u32 (Z.shiftr t 32)))
  else if offset =? NV04_PTIMER_NUMERATOR then let! s := gets id in ret (Done (nv_numerator s))
  else if offset =? NV04_PTIMER_DENOMINATOR then let! s := gets id in ret (Done (nv_denominator s))
  else bar0_read 4 offset.

Definition nvc0_mmio_bar0_writeb (addr val : Z) : M nvc0_state_t outcome :=
  let! offset := bar_offset 0 addr in bar0_write 1 offset val.
Definition nvc0_mmio_bar0_writew (addr val : Z) : M nvc0_state_t outcome :=
  let! offset := bar_offset 0 addr in bar0_write 2 offset val.
Definition nvc0_mmio_bar0_writed (addr val : Z) : M nvc0_state_t outcome :=
  let! offset := bar_offset 0 addr in
  if (offset =? 0x00000000) && (val =? 0xdeadbeef) then modify (set_nv_log 1) ;;; ret (Done 0)
  else if (offset =? 0x00000000) && (val =? 0xdeafbeef) then modify (set_nv_log 0) ;;; ret (Done 0)
  else if (offset =? 0x00000000) && (val =? 0xdeadface) then ret (Done 0)
  else if offset =? NV04_PTIMER_NUMERATOR then modify (set_nv_numerator val) ;;; ret (Done 0)
  else if offset =? NV04_PTIMER_DENOMINATOR then modify (set_nv_denominator val) ;;; ret (Done 0)
  else bar0_write 4 offset val.

(** [nvc0_init_bar0], from the words of the image. *)
Definition nvc0_init_bar0 (nvc0_vbios : list Z) : M nvc0_state_t unit :=
  modify (set_nv_space (vec_make BAR0_SPACE 0)) ;;;
  space_write 4 NV03_PMC_BOOT_0 NVC0_REG0 ;;;
  for_ (length nvc0_vbios) 0 (fun i =>
    space_write 4 (NV_PROM_OFFSET + 4 * i) (nth (Z.to_nat i) nvc0_vbios 0)).

(** ** BAR1, BAR3 and BAR4 ([nvc0_mmio_bar1.cc], [nvc0_mmio_bar3.cc], [nvc0_mmio_bar4.cc]) *)

Definition nvc0_mmio_bar1_readb (addr : Z) : M nvc0_state_t outcome :=
  let! offset := bar_offset 1 addr in ret (vm_bar1_read 1 offset).
Definition nvc0_mmio_bar1_readw (addr : Z) : M nvc0_state_t outcome :=
  let! offset := bar_offset 1 addr in ret (vm_bar1_read 2 offset).
Definition nvc0_mmio_bar1_readd (addr : Z) : M nvc0_state_t outcome :=
  let! offset := bar_offset 1 addr in ret (vm_bar1_read 4 offset).
Definition nvc0_mmio_bar1_writeb (addr val : Z) : M nvc0_state_t outcome :=
  let! offset := bar_offset 1 addr in ret (vm_bar1_write 4 offset val).
Definition nvc0_mmio_bar1_writew (addr val : Z) : M nvc0_state_t outcome :=
  let! offset := bar_offset 1 addr in ret (vm_bar1_write 4 offset val).
Definition nvc0_mmio_bar1_writed (addr val : Z) : M nvc0_state_t outcome :=
  let! offset := bar_offset 1 addr in ret (vm_bar1_write 4 offset val).

Definition nvc0_mmio_bar3_readb (addr : Z) : M nvc0_state_t outcome :=
  let! offset := bar_offset 3 addr in ret (vm_bar3_read 1 offset).
Definition nvc0_mmio_bar3_readw (addr : Z) : M nvc0_state_t outcome :=
  let! offset := bar_offset 3 addr in ret (vm_bar3_read 2 offset).
Definition nvc0_mmio_bar3_readd (addr : Z) : M nvc0_state_t outcome :=
  let! offset := bar_offset 3 addr in ret (vm_bar3_read 4 offset).
Definition nvc0_mmio_bar3_writeb (addr val : Z) : M nvc0_state_t outcome :=
  let! offset := bar_offset 3 addr in ret (vm_bar3_write 1 offset val).
Definition nvc0_mmio_bar3_writew (addr val : Z) : M nvc0_state_t outcome :=
  let! offset := bar_offset 3 addr in ret (vm_bar3_write 2 offset val).
Definition nvc0_mmio_bar3_writed (addr val : Z) : M nvc0_state_t outcome :=
  let! offset := bar_offset 3 addr in ret (vm_bar3_write 4 offset val).

Definition nvc0_mmio_bar4_readb (addr : Z) : M nvc0_state_t outcome :=
  let! offset := bar_offset 4 addr in ret (vm_bar4_read 1 offset).
Definition nvc0_mmio_bar4_readw (addr : Z) : M nvc0_state_t outcome :=
  let! offset := bar_offset 4 addr in ret (vm_bar4_read 2 offset).
Definition nvc0_mmio_bar4_readd (addr : Z) : M nvc0_state_t outcome :=
  let! offset := bar_offset 4 addr in ret (vm_bar4_read 4 offset).
Definition nvc0_mmio_bar4_writeb (addr val : Z) : M nvc0_state_t outcome :=
  let! offset := bar_offset 4 addr in ret (vm_bar4_write 1 offset val).
Definition nvc0_mmio_bar4_writew (addr val : Z) : M nvc0_state_t outcome :=
  let! offset := bar_offset 4 addr in ret (vm_bar4_write 2 offset val).
Definition nvc0_mmio_bar4_writed (addr val : Z) : M nvc0_state_t outcome :=
  let! offset := bar_offset 4 addr in ret (vm_bar4_write 4 offset val).

(** ** Dispatch ([nvc0_mmio.c]) *)

(** The index in a block of functions: byte, word, double word. *)
Inductive width : Type := W8 | W16 | W32.

(** The ROM region is not registered and its workspace is never allocated. *)
Definition mmio_read_table (ts : timespec) (region : Z) (w : width) (addr : Z) : M nvc0_state_t outcome :=
  match region, w with
  | 0, W8 => nvc0_mmio_bar0_readb addr
  | 0, W16 => nvc0_mmio_bar0_readw addr
  | 0, W32 => nvc0_mmio_bar0_readd ts addr
  | 1, W8 => nvc0_mmio_bar1_readb addr
  | 1, W16 => nvc0_mmio_bar1_readw addr
  | 1, W32 => nvc0_mmio_bar1_readd addr
  | 3, W8 => nvc0_mmio_bar3_readb addr
  | 3, W16 => nvc0_mmio_bar3_readw addr
  | 3, W32 => nvc0_mmio_bar3_readd addr
  | 4, W8 => nvc0_mmio_bar4_readb addr
  | 4, W16 => nvc0_mmio_bar4_readw addr
  | 4, W32 => nvc0_mmio_bar4_readd addr
  | _, _ => fail NullDeref
  end.
Definition mmio_write_table (region : Z) (w : width) (addr val : Z) : M nvc0_state_t outcome :=
  match region, w with
  | 0, W8 => nvc0_mmio_bar0_writeb addr val
  | 0, W16 => nvc0_mmio_bar0_writew addr val
  | 0, W32 => nvc0_mmio_bar0_writed addr val
  | 1, W8 => nvc0_mmio_bar1_writeb addr val
  | 1, W16 => nvc0_mmio_bar1_writew addr val
  | 1, W32 => nvc0_mmio_bar1_writed addr val
  | 3, W8 => nvc0_mmio_bar3_writeb addr val
  | 3, W16 => nvc0_mmio_bar3_writew addr val
  | 3, W32 => nvc0_mmio_bar3_writed addr val
  | 4, W8 => nvc0_mmio_bar4_writeb addr val
  | 4, W16 => nvc0_mmio_bar4_writew addr val
  | 4, W32 => nvc0_mmio_bar4_writed addr val
  | _, _ => fail NullDeref
  end.

(** The other table: BAR4 and BAR5 answer zero and ignore writes
    ([nvc0_api_bar4.cc], [nvc0_api_bar5.cc]). *)
Definition api_mmio_read_table (region : Z) : M nvc0_state_t outcome :=
  if (region =? 4) || (region =? 5) then ret (Done 0) else fail NullDeref.
Definition api_mmio_write_table (region : Z) : M nvc0_state_t outcome :=
  if (region =? 4) || (region =? 5) then ret (Done 0) else fail NullDeref.

(** [nvc0_ioport.c] *)
Definition nvc0_ioport_readb (addr : Z) : M nvc0_state_t outcome := ret (Done 0).
Definition nvc0_ioport_writeb (addr val : Z) : M nvc0_state_t outcome := ret (Done 0).

(** An access of the guest to a mapped memory region or to the I/O ports. *)
Inductive access : Type :=
| MemRead (region : Z) (w : width) (addr : Z)
| MemWrite (region : Z) (w : width) (addr val : Z)
| PortRead (addr : Z)
| PortWrite (addr val : Z).

Definition region_api (region : Z) : M nvc0_state_t bool :=
  let! v := gets nv_bar in
  let! b := of_option OutOfBounds (vec_get v region) in
  ret (nb_api b).

Definition guest_access (ts : timespec) (a : access) : M nvc0_state_t outcome :=
  match a with
  | MemRead r w addr =>
      let! api := region_api r in
      if (api : bool) then api_mmio_read_table r else mmio_read_table ts r w addr
  | MemWrite r w addr val =>
      let! api := region_api r in
      if (api : bool) then api_mmio_write_table r else mmio_write_table r w addr val
  | PortRead addr => nvc0_ioport_readb addr
  | PortWrite addr val => nvc0_ioport_writeb addr val
  end.

(** [context::notify_bar3_change] *)
Definition notify_bar3_change (s : nvc0_state_t) : command :=
  let address := nb_addr (vec_at (nv_bar s) 3) in
  Command TYPE_BAR3 (u32 (Z.shiftr address 32)) (u32 address) 0 0.

(** [nvc0_mmio_map] and [nvc0_ioport_map]: the guest placed a region; A3 is told about BAR3. *)
Definition nvc0_mmio_map (region addr size type : Z) : M nvc0_state_t (option command) :=
  let! s := gets id in
  let! v := vwrite (nv_bar s) region (NvcBar (nv_guest s =? 42) addr size type) in
  modify (set_nv_bar v) ;;;
  if region =? 3 then let! s := gets id in ret (Some (notify_bar3_change s)) else ret None.
Definition nvc0_ioport_map (region addr size type : Z) : M nvc0_state_t unit :=
  let! s := gets id in
  let! v := vwrite (nv_bar s) region (NvcBar false addr size type) in
  modify (set_nv_bar v).

(** The regions the device registers, with their sizes. *)
Definition nvc0_mmio_init (guest : Z) : list (Z * Z) :=
  [(0, 0x2000000); (1, 0x8000000); (3, A3_BAR3_ARENA_SIZE)] ++
  (if 0 <? guest then [(4, NOUVEAU_PV_SLOT_SIZE)] else []).
Definition nvc0_api_paravirt_mmio_init : list (Z * Z) := [(4, NOUVEAU_PV_SLOT_SIZE); (5, 0x8000000)].
Definition nvc0_ioport_init : list (Z * Z) := [(5, 0x80)].
Definition pci_nvc0_init (guest : Z) : list (Z * Z) :=
  if guest =? 42 then nvc0_api_paravirt_mmio_init else nvc0_mmio_init guest ++ nvc0_ioport_init.

(** The command with which [context::context] introduces the guest. *)
Definition nvc0_context_init (domid guest : Z) : command := Command TYPE_INIT (u32 domid) (u32 guest) 0 0.
