(* ===== verification/Protocol.v ===== *)
(** * The message protocol between the device model and A3

    A handler of the device model holds a mutex while it sends a command to the request
    queue and, when the command is one that is answered, takes the next message from the
    response queue. A3 takes the commands one by one. This file composes the two sides and
    the other sessions, and shows that the guest gets the answers to its own accesses, in
    order, and never waits for an answer that does not come. *)

From S2P Require Import Prelude Config Vram PageTable Barrier Sched State Device Tables Shadow Bars Arena Remap Channel Playlist Context Bar0 Pv Frame System Qemu.

Section Protocol.
Context `{PF : Platform}.

(** The capacity of the queues ([session::initialize]). *)
Definition queue_capacity : Z := 0x100000.

(** The device model of one guest with its queues; [vm_wait] is the command a handler waits
    for. The last three fields are a record of what happened: the commands that were sent,
    those that A3 handled with its reply, and the values the guest received. *)
Record vm : Type := Vm {
  vm_state : nvc0_state_t;
  vm_req : list command;
  vm_res : list Z;
  vm_wait : option command;
  vm_sent : list command;
  vm_served : list (command * option Z);
  vm_got : list (command * Z)
}.

(** What other sessions do to A3: the steps of the sessions other than [n]. *)
Inductive other_step (n : Z) : system -> system -> Prop :=
| other_start s m through s' : m <> n -> session_start m through s = Ok (tt, s') -> other_step n s s'
| other_serve s m cmd r s' : m <> n -> serve m cmd s = Ok (r, s') -> other_step n s s'
| other_end s m order s' : m <> n -> session_end m order s = Ok (tt, s') -> other_step n s s'.

(** One step of the guest with session [n], of A3's thread for it, or of others. *)
Inductive vm_step (n : Z) : vm * system -> vm * system -> Prop :=
| step_local st req res sent served got s ts a v st' :
    guest_access ts a st = Ok (Done v, st') ->
    vm_step n (Vm st req res None sent served got, s) (Vm st' req res None sent served got, s)
| step_send st req res sent served got s ts a cmd (read : bool) st' :
    guest_access ts a st = Ok (Send cmd read, st') -> Z.of_nat (length req) < queue_capacity ->
    vm_step n (Vm st req res None sent served got, s)
      (Vm st' (req ++ [cmd]) res (if read then Some cmd else None) (sent ++ [cmd]) served got, s)
| step_handle st cmd req res wait sent served got s r s' :
    serve n cmd s = Ok (r, s') -> Z.of_nat (length res) < queue_capacity ->
    vm_step n (Vm st (cmd :: req) res wait sent served got, s)
      (Vm st req (res ++ option_list r) wait sent (served ++ [(cmd, r)]) got, s')
| step_receive st req v res cmd sent served got s :
    vm_step n (Vm st req (v :: res) (Some cmd) sent served got, s)
      (Vm st req res None sent served (got ++ [(cmd, v)]), s)
| step_map st req res sent served got s region addr size type st' :
    nvc0_mmio_map region addr size type st = Ok (None, st') ->
    vm_step n (Vm st req res None sent served got, s) (Vm st' req res None sent served got, s)
| step_notify st req res sent served got s region addr size type cmd st' r s' :
    nvc0_mmio_map region addr size type st = Ok (Some cmd, st') -> serve n cmd s = Ok (r, s') ->
    vm_step n (Vm st req res None sent served got, s) (Vm st' req res None sent served got, s')
| step_other v s s' : other_step n s s' -> vm_step n (v, s) (v, s').

(** The commands a handler waits for. *)
Definition waits (cmd : command) : bool :=
  match type cmd with TYPE_READ => true | TYPE_WRITE => bar cmd =? 4 | _ => false end.

Definition is_access (cmd : command) : Prop := type cmd = TYPE_READ \/ type cmd = TYPE_WRITE.

(** ** Each side alone *)

(** Every result of [m] satisfies [Q]. *)
Definition results {S A} (Q : A -> Prop) (m : M S A) : Prop := forall s a s', m s = Ok (a, s') -> Q a.

Lemma results_ret {S A} (Q : A -> Prop) (a : A) : Q a -> results Q (@ret S A a).
Proof. by intros H s a' s' [= <- _]. Qed.
Lemma results_fail {S A} (Q : A -> Prop) e : results Q (@fail S A e).
Proof. by intros s a s'. Qed.
Lemma results_bind {S A B} (Q : B -> Prop) (m : M S A) (k : A -> M S B) :
  (forall a, results Q (k a)) -> results Q (bind m k).
Proof. intros H s b s'. unfold bind. destruct (m s) as [[a s1]|]; [apply H|done]. Qed.

Definition sends_access (o : outcome) : Prop :=
  match o with Send cmd read => is_access cmd /\ read = waits cmd | Done _ => True end.

Ltac results_step :=
  lazymatch goal with
  | |- results _ (bind _ _) => apply results_bind; intros ?
  | |- results _ (ret _) => apply results_ret
  | |- results _ (fail _) => apply results_fail
  | |- results _ (if ?b then _ else _) => destruct b
  | |- results _ (match ?x with _ => _ end) => destruct x
  end.

Lemma bar0_read_sends n o : results sends_access (bar0_read n o).
Proof. unfold bar0_read. repeat results_step; [done|split; [by left|done]]. Qed.
Lemma bar0_write_sends n o v : results sends_access (bar0_write n o v).
Proof. unfold bar0_write. repeat results_step; [done|split; [by right|done]]. Qed.

(** A handler sends an access, and waits exactly for the commands that are answered. *)
Lemma guest_access_sends ts a : results sends_access (guest_access ts a).
Proof.
  unfold guest_access, mmio_read_table, mmio_write_table, api_mmio_read_table, api_mmio_write_table,
    nvc0_ioport_readb, nvc0_ioport_writeb, nvc0_mmio_bar0_readb, nvc0_mmio_bar0_readw, nvc0_mmio_bar0_readd,
    nvc0_mmio_bar0_writeb, nvc0_mmio_bar0_writew, nvc0_mmio_bar0_writed, nvc0_mmio_bar1_readb, nvc0_mmio_bar1_readw,
    nvc0_mmio_bar1_readd, nvc0_mmio_bar1_writeb, nvc0_mmio_bar1_writew, nvc0_mmio_bar1_writed, nvc0_mmio_bar3_readb,
    nvc0_mmio_bar3_readw, nvc0_mmio_bar3_readd, nvc0_mmio_bar3_writeb, nvc0_mmio_bar3_writew, nvc0_mmio_bar3_writed,
    nvc0_mmio_bar4_readb, nvc0_mmio_bar4_readw, nvc0_mmio_bar4_readd, nvc0_mmio_bar4_writeb, nvc0_mmio_bar4_writew,
    nvc0_mmio_bar4_writed.
  repeat first [apply bar0_read_sends|apply bar0_write_sends|results_step]; try done.
  all: split; [by (left + right)|done].
Qed.

(** Whether the context [n] exists, is initialised, and is in through mode. *)
Definition flags (n : Z) (s : system) : option (bool * bool) :=
  (fun c => (c_initialized c, c_through c)) <$> s_ctxs s !! n.

(** The session is initialised and not in through mode. *)
Definition ready (n : Z) (s : system) : Prop := flags n s = Some (true, false).

Lemma flags_other {A} n m (k : M world A) : m <> n -> keeps (flags n) (on_context m k).
Proof.
  intros Hne s a s'. unfold on_context. destruct (s_ctxs s !! m) as [c|]; [|done].
  destruct (k _) as [[x w]|]; [|done]. intros [= _ <-]. unfold flags. cbn [s_ctxs]. by rewrite lookup_insert_ne.
Qed.

Lemma flags_identity {A} n m (k : M world A) : keeps identity k -> keeps (flags n) (on_context m k).
Proof.
  intros Hk. destruct (decide (m = n)) as [->|Hne]; [|by apply flags_other].
  intros s a s'. unfold on_context. destruct (s_ctxs s !! n) as [c|] eqn:Hc; [|done].
  destruct (k _) as [[x w]|] eqn:E; [|done]. apply Hk in E. intros [= _ <-].
  unfold flags. cbn [s_ctxs]. rewrite lookup_insert_eq, Hc. injection E as _ _ _ _ Et Ei _ _ _ _.
  cbn in Et, Ei |- *. by rewrite Et, Ei.
Qed.

Lemma flags_utility n m cmd : keeps (flags n) (handle_utility m cmd).
Proof.
  unfold handle_utility. destruct (value cmd =? 0); [by apply flags_identity, identity_pgraph_status|].
  destruct (value cmd =? 1); [by apply flags_identity, identity_register_read|].
  destruct (value cmd =? 2); [|apply keeps_ret]. unfold utility_clear. apply keeps_bind; [apply keeps_gets|intros d].
  apply keeps_for. intros i. cbn beta. destruct (vec_at _ i); [|apply keeps_ret].
  apply flags_identity. by apply keeps_modify.
Qed.

Lemma flags_reply n m (b : bool) :
  keeps (flags n) (if b then let! v := on_context m (get_ctx_f c_buffer) in ret (Some v) else ret None).
Proof.
  destruct b; [|apply keeps_ret]. apply keeps_bind; [|intros; apply keeps_ret].
  apply flags_identity. apply keeps_gets.
Qed.

(** A message of another session. *)
Lemma flags_serve_other n m cmd : m <> n -> keeps (flags n) (serve m cmd).
Proof.
  intros Hne. unfold serve. apply keeps_bind; [|intros b; apply flags_reply]. unfold handle.
  destruct (type cmd); try (by apply flags_other); apply keeps_bind; try (intros; apply keeps_ret).
  - by apply flags_other.
  - apply flags_utility.
  - by apply flags_other.
Qed.

Lemma handle_access_reply cmd : results (fun b => b = waits cmd) (handle_access cmd).
Proof.
  unfold handle_access, waits. destruct (type cmd); try (by apply results_ret); [|by repeat results_step].
  destruct (Z.eqb_spec (bar cmd) 0) as [->|_]; [by repeat results_step|].
  destruct (Z.eqb_spec (bar cmd) 1) as [->|_]; [by repeat results_step|].
  destruct (Z.eqb_spec (bar cmd) 3) as [->|_]; [by repeat results_step|].
  destruct (bar cmd =? 4); by repeat results_step.
Qed.

(** An access in a session that is ready: it stays ready, and the reply is there exactly for
    the commands the device model waits for. *)
Lemma serve_access n cmd s r s' :
  ready n s -> is_access cmd -> serve n cmd s = Ok (r, s') -> ready n s' /\ (is_Some r <-> waits cmd = true).
Proof.
  unfold ready. intros Hr Ha Es.
  assert (Eh : handle n cmd = on_context n (let! c := get_ctx_f id in
         if c_through c then handle_through cmd
         else if c_initialized c then handle_access cmd else fail Uninitialized)).
  { unfold handle. by destruct Ha as [-> | ->]. }
  revert Es. unfold serve, bind at 1. rewrite Eh. unfold on_context at 1.
  pose proof Hr as Hf. unfold flags in Hf. destruct (s_ctxs s !! n) as [c|] eqn:Hc; [|done]. injection Hf as Hi Ht.
  unfold bind at 1, get_ctx_f, gets at 1, id. cbn [w_ctx]. rewrite Hi, Ht.
  destruct (handle_access cmd _) as [[b w]|] eqn:E; [|done].
  pose proof (handle_access_reply cmd _ _ _ E) as ->. apply identity_handle_access in E.
  injection E as _ _ _ _ Et Ei _ _ _ _. cbn in Et, Ei. intros Es. split.
  - rewrite (flags_reply n n _ _ _ _ Es). unfold flags. cbn [s_ctxs]. rewrite lookup_insert_eq. cbn. by rewrite Ei, Et, Hi, Ht.
  - destruct (waits cmd).
    + revert Es. unfold bind. destruct (on_context _ _ _) as [[]|]; [|done]. intros [= <- _]. split; [done|by eexists].
    + injection Es as <- _. split; [by intros []|done].
Qed.

(** The notification of BAR3. *)
Lemma flags_notify n cmd : type cmd = TYPE_BAR3 -> keeps (flags n) (serve n cmd).
Proof.
  intros Ht. unfold serve, handle. rewrite Ht. apply keeps_bind; [|intros b; apply flags_reply].
  apply keeps_bind; [|intros; apply keeps_ret]. apply flags_identity. by apply keeps_modify.
Qed.

Lemma map_notifies region addr size type :
  results (fun o => match o with Some cmd => Config.type cmd = TYPE_BAR3 | None => True end)
    (nvc0_mmio_map region addr size type).
Proof. unfold nvc0_mmio_map. by repeat results_step. Qed.

Lemma ready_other n s s' : other_step n s s' -> ready n s -> ready n s'.
Proof.
  unfold ready. intros Hst <-. destruct Hst as [s m th s' Hne E|s m cmd r s' Hne E|s m order s' Hne E].
  - revert E. unfold session_start. case_bool_decide; [|done]. case_bool_decide; [done|]. intros [= <-].
    unfold flags. cbn [s_ctxs]. by rewrite lookup_insert_ne.
  - by apply (flags_serve_other n m cmd Hne _ _ _ E).
  - revert E. unfold session_end, bind. destruct (on_context m _ s) as [[[] s1]|] eqn:E; [|done].
    intros [= <-]. rewrite <- (flags_other n m _ Hne _ _ _ E). unfold flags. cbn [s_ctxs]. by rewrite lookup_delete_ne.
Qed.

(** ** The two sides together *)

(** The answered commands, with the answers. *)
Definition replies (l : list (command * option Z)) : list (command * Z) :=
  omap (fun p => pair p.1 <$> p.2) l.
#[local] Arguments replies : simpl never.

(** What the queues hold while a handler waits for [wait]. *)
Definition queues_ok (req : list command) (res : list Z) (wait : option command) : Prop :=
  match wait with
  | None => res = [] /\ Forall (fun c => waits c = false) req
  | Some c => (req = [] /\ exists v, res = [v])
              \/ (res = [] /\ waits c = true /\ exists l, req = l ++ [c] /\ Forall (fun c => waits c = false) l)
  end.

Record proto_inv (n : Z) (v : vm) (s : system) : Prop := ProtoInv {
  pr_order : vm_sent v = (vm_served v).*1 ++ vm_req v;
  pr_access : Forall is_access (vm_req v);
  pr_served : Forall (fun p => is_Some p.2 <-> waits p.1 = true) (vm_served v);
  pr_replies : replies (vm_served v) =
    vm_got v ++ match vm_wait v with Some c => pair c <$> vm_res v | None => [] end;
  pr_queues : queues_ok (vm_req v) (vm_res v) (vm_wait v);
  pr_ready : ready n s
}.

Lemma replies_snoc l c r : replies (l ++ [(c, r)]) = replies l ++ match r with Some v => [(c, v)] | None => [] end.
Proof. unfold replies. rewrite omap_app. by destruct r. Qed.

Lemma send_inv n st st' req res sent served got s cmd :
  proto_inv n (Vm st req res None sent served got) s -> is_access cmd ->
  proto_inv n (Vm st' (req ++ [cmd]) res (if waits cmd then Some cmd else None) (sent ++ [cmd]) served got) s.
Proof.
  intros [Ho Ha Hs Hr Hq Hy] Hc. cbn in *. destruct Hq as [-> Hq]. constructor; cbn; try done.
  - by rewrite Ho, app_assoc.
  - apply Forall_app_2; [done|by constructor].
  - rewrite Hr. by destruct (waits cmd).
  - destruct (waits cmd) eqn:E; cbn; [by right; eauto|]. split; [done|]. apply Forall_app_2; [done|by constructor].
Qed.

Lemma no_reply (r : option Z) c : (is_Some r <-> waits c = true) -> waits c = false -> r = None.
Proof. intros [H _] E. destruct r; [|done]. rewrite H in E by (by eexists). done. Qed.

(** The queues after the first command was handled. *)
Lemma handle_queues cmd req res wait r :
  queues_ok (cmd :: req) res wait -> (is_Some r <-> waits cmd = true) ->
  res = [] /\ queues_ok req (option_list r) wait /\ (forall v, r = Some v -> wait = Some cmd).
Proof.
  intros Hq Hw. destruct wait as [c|]; cbn in Hq |- *.
  - destruct Hq as [[? _]|(-> & Hwc & l & Hl & Hf)]; [done|]. destruct l as [|x l]; cbn in Hl; injection Hl as -> ->.
    + destruct (proj2 Hw Hwc) as [v ->]. split_and!; [done|left; split; [done|by exists v]|done].
    + apply Forall_cons in Hf as [Hx Hf]. rewrite (no_reply r x Hw Hx). split_and!; [done|right; eauto|done].
  - destruct Hq as [-> Hf]. apply Forall_cons in Hf as [Hx Hf]. rewrite (no_reply r cmd Hw Hx). by split_and!.
Qed.

Lemma handle_inv n st cmd req res wait sent served got s r s' :
  proto_inv n (Vm st (cmd :: req) res wait sent served got) s -> serve n cmd s = Ok (r, s') ->
  proto_inv n (Vm st req (res ++ option_list r) wait sent (served ++ [(cmd, r)]) got) s'.
Proof.
  intros [Ho Ha Hs Hr Hq Hy] E. cbn in *. apply Forall_cons in Ha as [Hc Ha].
  destruct (serve_access n cmd s r s' Hy Hc E) as [Hy' Hw].
  destruct (handle_queues _ _ _ _ _ Hq Hw) as (-> & Hq' & Hv). constructor; cbn; try done.
  - by rewrite Ho, fmap_app, <- app_assoc.
  - apply Forall_app_2; [done|by constructor].
  - rewrite replies_snoc, Hr. destruct r as [v|]; [by rewrite (Hv v eq_refl), <- app_assoc|].
    by destruct wait; rewrite !app_nil_r.
Qed.

Lemma step_inv n v s v' s' : vm_step n (v, s) (v', s') -> proto_inv n v s -> proto_inv n v' s'.
Proof.
  intros Hst Hi. inversion Hst; subst.
  - by destruct Hi; constructor.
  - match goal with H : guest_access _ _ _ = _ |- _ => apply guest_access_sends in H as [Hc ->] end. by eapply send_inv.
  - by eapply handle_inv.
  - destruct Hi as [Ho Ha Hs Hr Hq Hy]. cbn in *. destruct Hq as [[-> [w [= -> ->]]]|[? _]]; [|done].
    constructor; cbn; try done. by rewrite Hr, app_nil_r.
  - by destruct Hi; constructor.
  - destruct Hi as [Ho Ha Hs Hr Hq Hy]. constructor; try done. unfold ready in *. rewrite <- Hy.
    match goal with H : nvc0_mmio_map _ _ _ _ _ = _ |- _ => apply map_notifies in H end.
    by eapply flags_notify.
  - destruct Hi as [Ho Ha Hs Hr Hq Hy]. constructor; try done. by eapply ready_other.
Qed.

(** A device model whose handlers have not run yet. *)
Definition vm_start (st : nvc0_state_t) : vm := Vm st [] [] None [] [] [].

Lemma proto_reachable n st s v s' :
  ready n s -> rtc (vm_step n) (vm_start st, s) (v, s') -> proto_inv n v s'.
Proof.
  intros Hr Hst. assert (Hi : proto_inv n (vm_start st) s) by by constructor; cbn; [..|split|].
  revert Hi. remember (vm_start st, s) as a eqn:Ea. remember (v, s') as b eqn:Eb.
  revert s v s' Hr Ea Eb. generalize (vm_start st). induction Hst as [x|x y z Hxy _ IH]; intros u s v s' Hr -> E.
  - by injection E as -> ->.
  - intros Hi. destruct y as [u' s1]. apply step_inv in Hxy; [|done]. by eapply (IH u' s1); [apply Hxy|..].
Qed.

(** A3 handles all commands of the queue. *)
Definition handle_all (n : Z) (l : list command) : M system unit := for_each l (fun cmd => serve n cmd ;;; ret tt).

Lemma handle_all_steps n st req res wait sent served got s s' :
  proto_inv n (Vm st req res wait sent served got) s -> handle_all n req s = Ok (tt, s') ->
  exists res' served', rtc (vm_step n) (Vm st req res wait sent served got, s) (Vm st [] res' wait sent served' got, s')
    /\ proto_inv n (Vm st [] res' wait sent served' got) s'.
Proof.
  revert res served s. induction req as [|cmd req IH]; intros res served s Hi; unfold handle_all; cbn [for_each].
  - intros [= <-]. by exists res, served.
  - unfold bind at 1, bind at 1. destruct (serve n cmd s) as [[r s1]|] eqn:E; [|done]. intros H.
    pose proof (handle_inv n _ _ _ _ _ _ _ _ _ _ _ Hi E) as Hi1.
    destruct (IH _ _ _ Hi1 H) as (res' & served' & Hst & Hi'). exists res', served'. split; [|done].
    eapply rtc_l; [|exact Hst]. apply step_handle; [done|]. destruct Hi as [_ _ _ _ Hq _]. cbn in Hq.
    destruct wait; [destruct Hq as [[? _]|[-> _]]; [done|]|destruct Hq as [-> _]]; by vm_compute.
Qed.


End Protocol.

(** ** The start of a guest *)

Section Setup.
Context `{PF : Platform}.

Lemma acquire_virt_ctx n : keeps w_ctx (acquire_virt n).
Proof.
  unfold acquire_virt, get_dev_f, vwrite, on_sched, mod_dev. apply keeps_bind; [apply keeps_gets|intros d].
  apply keeps_bind; [apply keeps_when|intros _; apply keeps_bind; [by apply keeps_zoom|intros _; apply keeps_ret]].
  apply keeps_bind; [apply keeps_of_option|intros v]. apply keeps_bind; [apply keeps_of_option|intros k].
  by apply keeps_modify.
Qed.

(** What a context knows of its machine after its initialisation. *)
Lemma context_initialize_machine dom para w :
  wp any_error (context_initialize dom para) (fun _ w' =>
    c_domid (w_ctx w') = dom /\ c_para_virtualized (w_ctx w') = para /\ c_initialized (w_ctx w') = true
    /\ c_through (w_ctx w') = c_through (w_ctx w)) w.
Proof.
  unfold context_initialize. wp_step. apply wp_gets. wp_step.
  apply (wp_keeps w_ctx); [apply acquire_virt_ctx|]. intros vid w1 H1. cbn beta. wp_step. apply wp_modify. wp_step.
  assert (Hpara : keeps identity (when para (mod_ctx (set_c_pv32 (Some (vec_make (A3_BAR4_SIZE / 4) (u32 uninitialized))))))).
  { apply keeps_when. by apply keeps_modify. }
  apply (wp_keeps _ _ _ _ Hpara). intros _ w2 H2. cbn beta. wp_step. apply wp_modify. wp_step. apply wp_gets.
  cbn beta zeta. wp_step. eapply (wp_keeps frame); [apply keeps_for_acc; intros; apply frame_initialize_channel|].
  intros v w3 H3. cbn beta. wp_step. apply wp_modify. apply wp_modify.
  injection H2 as _ _ _ _ Et _ Ed _ _ Ep. injection H3 as _ _ _ _ Et3 _ Ed3 _ _ Ep3 _.
  cbn in *. by rewrite Ed3, Ed, Ep3, Ep, Et3, Et, H1.
Qed.

Lemma on_context_ok {A} n (m : M world A) s a s' :
  on_context n m s = Ok (a, s') -> exists c w, s_ctxs s !! n = Some c
    /\ m (World _ (s_gpu s) (s_dev s) c (s_xen s)) = Ok (a, w) /\ s_ctxs s' !! n = Some (w_ctx w).
Proof.
  unfold on_context. destruct (s_ctxs s !! n) as [c|]; [|done]. destruct (m _) as [[x w]|] eqn:E; [|done].
  intros [= -> <-]. exists c, w. cbn. by rewrite lookup_insert_eq.
Qed.

(** The device model and A3 agree on the machine. After the device model has introduced
    a guest and the guest has placed BAR3, A3 has the domain of the guest, takes it for
    para-virtualized exactly when the device has a BAR4, which is where such a guest makes
    its calls, and has the guest address of BAR3 that the device model decodes. *)
Theorem setup_agrees n domid guest addr size type st cmd st' s r1 s1 r2 s2 :
  0 <= domid < 2 ^ 31 -> 0 <= guest < 2 ^ 31 -> guest <> 42 -> 0 <= addr < 2 ^ 32 ->
  serve n (nvc0_context_init domid guest) s = Ok (r1, s1) ->
  nvc0_mmio_map 3 addr size type st = Ok (Some cmd, st') -> serve n cmd s1 = Ok (r2, s2) ->
  exists c, s_ctxs s2 !! n = Some c /\ c_initialized c = true /\ c_domid c = domid
    /\ (c_para_virtualized c = true <-> 4 ∈ (pci_nvc0_init guest).*1)
    /\ c_bar3_address c = addr /\ nb_addr (vec_at (nv_bar st') 3) = addr.
Proof.
  intros Hd Hg H42 Ha E1 Em E2. assert (Hmap : cmd = Command TYPE_BAR3 0 addr 0 0 /\ nb_addr (vec_at (nv_bar st') 3) = addr).
  { revert Em. unfold nvc0_mmio_map, vwrite, bind, gets, of_option, id. destruct (vec_set _ 3 _) as [v|] eqn:Ev; [|done].
    cbn. intros [= <- <-]. apply vec_set_inv in Ev as (_ & _ & Ev & _). unfold notify_bar3_change. cbn. rewrite Ev. cbn.
    rewrite Z.shiftr_div_pow2, Z.div_small, (u32_small addr) by lia. done. }
  destruct Hmap as [-> Hb]. revert E1 E2. unfold serve, handle, nvc0_context_init. cbn [Config.type value offset].
  unfold bind at 1 2. destruct (on_context n (context_initialize _ _) s) as [[[] s1']|] eqn:Ei; [|done]. intros [= _ <-].
  unfold bind at 1 2. destruct (on_context n (mod_ctx _) s1') as [[[] s2']|] eqn:E3; [|done]. intros [= _ <-].
  apply on_context_ok in Ei as (c & w & _ & Ei & Hc). apply on_context_ok in E3 as (c' & w' & Hc' & [= <-] & Hc2).
  rewrite Hc in Hc'. injection Hc' as <-.
  pose proof (wp_ok _ _ _ _ _ _ (context_initialize_machine _ _ _) Ei) as (Ed & Ep & Hin & _).
  exists (set_c_bar3_address (u64 (Z.shiftl 0 12 + addr)) (w_ctx w)). split; [exact Hc2|]. cbn.
  split_and!; [done| | |rewrite Z.shiftl_0_l; unfold u64; zlia|done].
  - rewrite Ed. unfold to_int. rewrite u32_small by lia. by rewrite (proj2 (Z.ltb_lt _ _)) by lia.
  - rewrite Ep, u32_small by lia. unfold pci_nvc0_init. rewrite (proj2 (Z.eqb_neq guest 42)) by done.
    unfold nvc0_mmio_init. destruct (Z.eqb_spec guest 0) as [->|Hne]; [|rewrite (proj2 (Z.ltb_lt 0 guest)) by lia];
      cbn; rewrite !elem_of_cons, elem_of_nil; intuition lia.
Qed.
End Setup.

(** ** A guest on the simulated device *)

Definition sim_bars : vec nvc0_bar_t := vec_make 7 (NvcBar false 0xe0000000 0x2000000 0).
Definition sim_nvc0 : nvc0_state_t := NvcState sim_bars (vec_make BAR0_SPACE 0) 0 0 0 0.
Definition sim_run : @system sim_platform :=
  match run_events sim_two sim_system with Ok (_, s) => s | Err _ => sim_system end.

Lemma sim_run_ready : ready 1 sim_run.
Proof. vm_compute. reflexivity. Qed.

(** The guest writes the register of the window and reads it back. *)
Definition sim_write_cmd : command := Command TYPE_WRITE 0x42 0x1700 0 4.
Definition sim_read_cmd : command := Command TYPE_READ 0xdeadface 0x1700 0 4.

Lemma sim_guest_waits :
  rtc (vm_step 1) (vm_start sim_nvc0, sim_run)
    (Vm sim_nvc0 [sim_write_cmd; sim_read_cmd] [] (Some sim_read_cmd) [sim_write_cmd; sim_read_cmd] [] [], sim_run).
Proof.
  eapply rtc_l; [|eapply rtc_l; [|apply rtc_refl]].
  - apply (step_send 1 sim_nvc0 [] [] [] [] [] sim_run (Timespec 0 0) (MemWrite 0 W32 0xe0001700 0x42)
      sim_write_cmd false sim_nvc0); by vm_compute.
  - apply (step_send 1 sim_nvc0 [sim_write_cmd] [] [sim_write_cmd] [] [] sim_run (Timespec 0 0) (MemRead 0 W32 0xe0001700)
      sim_read_cmd true sim_nvc0); by vm_compute.
Qed.



Lemma setup_agrees_witness :
  exists (s : @system sim_platform) c, s_ctxs s !! 1 = Some c /\ c_para_virtualized c = true /\ c_bar3_address c = 0xd8000000.
Proof.
  assert (H : match run_events [Connect 1 false] sim_system with
    | Ok (_, s) => match serve 1 (nvc0_context_init 5 1) s with
                   | Ok (_, s1) => is_ok (serve 1 (Command TYPE_BAR3 0 0xd8000000 0 0) s1)
                   | Err _ => false end
    | Err _ => false end = true) by (vm_compute; reflexivity).
  destruct (run_events _ _) as [[[] s]|]; [|discriminate H].
  destruct (serve 1 (nvc0_context_init 5 1) s) as [[r1 s1]|] eqn:E1; [|discriminate H].
  destruct (serve 1 (Command TYPE_BAR3 0 0xd8000000 0 0) s1) as [[r2 s2]|] eqn:E2; [|discriminate H].
  destruct (setup_agrees 1 5 1 0xd8000000 0x800000 0 sim_nvc0 (Command TYPE_BAR3 0 0xd8000000 0 0)
    (set_nv_bar (Vec 7 {[3 := NvcBar false 0xd8000000 0x800000 0]} (fun _ => NvcBar false 0xe0000000 0x2000000 0)) sim_nvc0)
    s r1 s1 r2 s2) as (c & Hc & _ & _ & Hp & Ha & _); try lia.
  - exact E1.
  - vm_compute. reflexivity.
  - exact E2.
  - exists s2, c. split; [exact Hc|]. split; [|exact Ha]. apply Hp. by vm_compute; do 3 right; left.
Defined.
