(* ===== verification/Xen.v ===== *)
(** * What the hypervisor's components share: error numbers and list lemmas

    The files that require this one model parts of [src/xen/common]. *)

From S2P Require Import Prelude.
From Stdlib Require Export Sorting.Sorted.

(** ** Error numbers ([errno.h]) *)

Definition EPERM : Z := 1.
Definition ENOENT : Z := 2.
Definition ESRCH : Z := 3.
Definition ENOMEM : Z := 12.
Definition EFAULT : Z := 14.
Definition EEXIST : Z := 17.
Definition EINVAL : Z := 22.
Definition ENOSPC : Z := 28.
Definition ENOSYS : Z := 38.

(** ** Sorted lists *)

Section Sorted.
Context {A : Type} (R : A -> A -> Prop).

Lemma strongly_sorted_app (l k : list A) :
  StronglySorted R (l ++ k) <->
  StronglySorted R l /\ StronglySorted R k /\ (forall x y, x ∈ l -> y ∈ k -> R x y).
Proof.
  induction l as [|a l IH]; simpl.
  - split; [intros H|by intros (_ & H & _)]. split_and!; [constructor|done|]. intros x y Hx. by apply elem_of_nil in Hx.
  - split.
    + intros [Hs Hf]%StronglySorted_inv. apply IH in Hs as (H1 & H2 & H3). apply Forall_app in Hf as [Hf1 Hf2].
      split_and!; [by constructor|done|]. intros x y [->|Hx]%elem_of_cons Hy; [|by apply H3].
      by eapply Forall_forall in Hf2.
    + intros ([H1 Hf]%StronglySorted_inv & H2 & H3). constructor.
      * apply IH. split_and!; [done..|]. intros x y Hx Hy. apply H3; [by right|done].
      * apply Forall_app. split; [done|]. apply Forall_forall. intros y Hy. apply H3; [by left|done].
Qed.

Lemma sorted_cons a (l : list A) :
  StronglySorted R (a :: l) <-> StronglySorted R l /\ (forall y, y ∈ l -> R a y).
Proof.
  rewrite <- Forall_forall. split; [apply StronglySorted_inv|]. intros [? ?]. by constructor.
Qed.
End Sorted.

Lemma filter_none {A} (P : A -> Prop) `{forall x, Decision (P x)} (l : list A) :
  (forall x, x ∈ l -> ~ P x) -> filter P l = [].
Proof.
  induction l as [|a l IH]; intros Hl; [done|]. rewrite filter_cons_False by (apply Hl; by left).
  apply IH. intros x Hx. apply Hl. by right.
Qed.

Lemma sorted_compare {A} (R : A -> A -> Prop) l x y :
  StronglySorted R l -> x ∈ l -> y ∈ l -> x = y \/ R x y \/ R y x.
Proof.
  induction l as [|a l IH]; intros [Hs Ha]%sorted_cons Hx Hy || intros _ Hx _; [by apply elem_of_nil in Hx|].
  apply elem_of_cons in Hx as [->|Hx]; apply elem_of_cons in Hy as [->|Hy]; auto.
Qed.

Lemma sorted_fmap {A B} (R : A -> A -> Prop) (R' : B -> B -> Prop) (f : A -> B) l :
  (forall x y, x ∈ l -> y ∈ l -> R x y -> R' (f x) (f y)) -> StronglySorted R l -> StronglySorted R' (f <$> l).
Proof.
  induction l as [|a l IH]; intros Hf Hs; simpl; [constructor|]. apply sorted_cons in Hs as [Hs Ha].
  apply sorted_cons. split.
  - apply IH; [|done]. intros x y Hx Hy. apply Hf; by right.
  - intros y (x & -> & Hx)%list_elem_of_fmap. apply Hf; [by left|by right|by apply Ha].
Qed.

Lemma sorted_filter {A} (R : A -> A -> Prop) (P : A -> Prop) `{forall x, Decision (P x)} l :
  StronglySorted R l -> StronglySorted R (filter P l).
Proof.
  induction l as [|a l IH]; intros Hs; [done|]. apply sorted_cons in Hs as [Hs Ha]. rewrite filter_cons. case_decide; [|by apply IH].
  apply sorted_cons. split; [by apply IH|]. intros y [_ Hy]%list_elem_of_filter. by apply Ha.
Qed.

Lemma filter_all {A} (P : A -> Prop) `{forall x, Decision (P x)} (l : list A) :
  (forall x, x ∈ l -> P x) -> filter P l = l.
Proof.
  induction l as [|a l IH]; intros Hl; [done|]. rewrite filter_cons_True by (apply Hl; by left). f_equal.
  apply IH. intros x Hx. apply Hl. by right.
Qed.

Lemma sorted_ext {A} (R R' : A -> A -> Prop) l :
  (forall x y, x ∈ l -> y ∈ l -> R x y -> R' x y) -> StronglySorted R l -> StronglySorted R' l.
Proof. intros HR Hs. rewrite <- (list_fmap_id l). by apply (sorted_fmap R). Qed.
