(* ===== verification/Rangeset.v ===== *)
(** * Sets of integers as lists of ranges

    [src/xen/common/rangeset.c]: a set of [unsigned long] is kept as an ascending list of
    inclusive ranges that neither overlap nor touch. The theorem shows that the operations
    implement a mathematical set. *)

From S2P Require Import Prelude.
From S2P Require Import Xen.

Definition ULONG_MAX : Z := 18446744073709551615.

(** ** Data *)

(** [struct range]: the inclusive range from [s] to [e]. *)
Record range : Type := Range { rg_s : Z; rg_e : Z }.

(** The [range_list] of a [struct rangeset]. A pointer to a range is its position in the
    list, [None] is [NULL]; destroying a range moves the following ones down by one. *)
Abbreviation rset := (list range).

(** ** Private operations on the list *)

Fixpoint find_range_loop (x : option nat) (i : nat) (l : list range) (s : Z) : option nat :=
  match l with
  | [] => x
  | y :: l => if s <? rg_s y then x else find_range_loop (Some i) (S i) l s
  end.
Definition find_range (r : rset) (s : Z) : option nat := find_range_loop None 0 r s.

Definition first_range (r : rset) : option nat :=
  match r with [] => None | _ :: _ => Some 0%nat end.

Definition next_range (r : rset) (x : nat) : option nat :=
  if decide (S x < length r)%nat then Some (S x) else None.

Definition insert_range (x : option nat) (y : range) : M rset unit :=
  modify (fun r => let k := match x with Some x => S x | None => 0%nat end in take k r ++ y :: drop k r).

Definition destroy_range (x : nat) : M rset unit := modify (delete x).

(** The fields of a range, and assignments to them. *)
Definition get_range (x : nat) : M rset range := fun r => of_option NullDeref (r !! x) r.
Definition set_s (x : nat) (s : Z) : M rset unit :=
  let! y := get_range x in modify (<[x := Range s (rg_e y)]>).
Definition set_e (x : nat) (e : Z) : M rset unit :=
  let! y := get_range x in modify (<[x := Range (rg_s y) e]>).
Definition deref (x : option nat) : M rset nat := of_option NullDeref x.

(** ** Adding a range

    [mem] is the outcome of the allocation. *)

(** The loop that removes the ranges inside the enlarged range [x]; every round removes one,
    so the length of the list bounds the rounds. *)
Fixpoint absorb (fuel : nat) (x : nat) : M rset unit :=
  match fuel with
  | O => fail OutOfFuel
  | S fuel =>
      let! r := gets id in
      match next_range r x with
      | None => ret tt
      | Some y =>
          let! ry := get_range y in
          let! rx := get_range x in
          if rg_e rx <? rg_e ry then ret tt else destroy_range y ;;; absorb fuel x
      end
  end.

(** The end of the function: [x] is joined with the range it touches. *)
Definition join_next (x : nat) : M rset unit :=
  let! r := gets id in
  match next_range r x with
  | None => ret tt
  | Some y =>
      let! rx := get_range x in
      let! ry := get_range y in
      if u64 (rg_e rx + 1) =? rg_s ry then set_e x (rg_e ry) ;;; destroy_range y else ret tt
  end.

Definition apart (x : range) (s : Z) : bool := (rg_e x <? s) && negb (u64 (rg_e x + 1) =? s).

(** [x == y]: the new range reaches no range that starts behind [s]. *)
Definition add_within (mem : bool) (x : option nat) (s e : Z) : M rset Z :=
  let! new := match x with None => ret true | Some x => let! rx := get_range x in ret (apart rx s) end in
  if new : bool then
    if mem then
      insert_range x (Range s e) ;;;
      join_next (match x with Some x => S x | None => 0%nat end) ;;; ret 0
    else ret (- ENOMEM)
  else
    let! x := deref x in
    let! rx := get_range x in
    when (rg_e rx <? e) (set_e x e) ;;;
    join_next x ;;; ret 0.

(** [x != y]. *)
Definition add_across (r : rset) (x y : option nat) (s e : Z) : M rset Z :=
  let! x :=
    match x with
    | None => let! x := deref (first_range r) in set_s x s ;;; ret x
    | Some x =>
        let! rx := get_range x in
        if apart rx s then let! x := deref (next_range r x) in set_s x s ;;; ret x else ret x
    end in
  let! y := deref y in
  let! ry := get_range y in
  set_e x (if e <? rg_e ry then rg_e ry else e) ;;;
  absorb (S (length r)) x ;;;
  join_next x ;;; ret 0.

Definition rangeset_add_range (mem : bool) (s e : Z) : M rset Z :=
  assert_ (s <=? e) ;;;
  let! r := gets id in
  let x := find_range r s in
  let y := find_range r e in
  if decide (x = y) then add_within mem x s e else add_across r x y s e.

(** ** Removing a range *)

(** [while (x != y)]: the range at [x] is destroyed, so the next one is at [x] again, and
    [y] has moved to [y - 1]. *)
Fixpoint destroy_until (n : nat) (x : nat) : M rset unit :=
  match n with
  | O => ret tt
  | S n => destroy_range x ;;; destroy_until n x
  end.

Definition remove_within (mem : bool) (x : option nat) (s e : Z) : M rset Z :=
  match x with
  | None => ret 0
  | Some x =>
      let! rx := get_range x in
      if rg_e rx <? s then ret 0
      else if (rg_s rx <? s) && (e <? rg_e rx) then
        if mem then
          set_e x (u64 (s - 1)) ;;;
          insert_range (Some x) (Range (u64 (e + 1)) (rg_e rx)) ;;; ret 0
        else ret (- ENOMEM)
      else if (rg_s rx =? s) && (rg_e rx <=? e) then destroy_range x ;;; ret 0
      else if rg_s rx =? s then set_s x (u64 (e + 1)) ;;; ret 0
      else if rg_e rx <=? e then set_e x (u64 (s - 1)) ;;; ret 0
      else ret 0
  end.

Definition remove_across (r : rset) (x y : option nat) (s e : Z) : M rset Z :=
  let! x := match x with None => deref (first_range r) | Some x => ret x end in
  let! rx := get_range x in
  let! x :=
    (if rg_s rx <? s then set_e x (u64 (s - 1)) ;;; deref (next_range r x) else ret x) in
  let! y := deref y in
  destroy_until (y - x) x ;;;
  set_s x (u64 (e + 1)) ;;;
  let! rx := get_range x in
  when (rg_e rx <? rg_s rx) (destroy_range x) ;;; ret 0.

Definition rangeset_remove_range (mem : bool) (s e : Z) : M rset Z :=
  assert_ (s <=? e) ;;;
  let! r := gets id in
  let x := find_range r s in
  let y := find_range r e in
  if decide (x = y) then remove_within mem x s e else remove_across r x y s e.

(** ** Queries *)

Definition rangeset_contains_range (s e : Z) : M rset bool :=
  assert_ (s <=? e) ;;;
  let! r := gets id in
  match find_range r s with
  | None => ret false
  | Some x => let! rx := get_range x in ret (e <=? rg_e rx)
  end.

Definition rangeset_overlaps_range (s e : Z) : M rset bool :=
  assert_ (s <=? e) ;;;
  let! r := gets id in
  match find_range r e with
  | None => ret false
  | Some x => let! rx := get_range x in ret (s <=? rg_e rx)
  end.

(** The loop of [rangeset_report_ranges] from the range at the head of the list; the
    callback [cb] works on a state of the caller and stops the loop with a nonzero value. *)
Fixpoint report_loop {C} (cb : Z -> Z -> C -> Z * C) (l : list range) (s e : Z) (c : C) : Z * C :=
  match l with
  | [] => (0, c)
  | x :: l =>
      if rg_s x <=? e then
        let rc := if s <=? rg_e x then cb (Z.max (rg_s x) s) (Z.min (rg_e x) e) c else (0, c) in
        if rc.1 =? 0 then report_loop cb l s e rc.2 else rc
      else (0, c)
  end.
Definition rangeset_report_ranges {C} (cb : Z -> Z -> C -> Z * C) (r : rset) (s e : Z) (c : C) : Z * C :=
  match find_range r s with
  | None => (0, c)
  | Some x => report_loop cb (drop x r) s e c
  end.

Definition rangeset_add_singleton mem s := rangeset_add_range mem s s.
Definition rangeset_remove_singleton mem s := rangeset_remove_range mem s s.
Definition rangeset_contains_singleton s := rangeset_contains_range s s.
Definition rangeset_is_empty (r : rset) : bool := match r with [] => true | _ => false end.

(** ** Creation and destruction

    A [struct rangeset] with its owner, and the lists of rangesets of the domains. A rangeset
    is known by its address; [rs_exec] below works on the [range_list] of one. *)

Record rangeset : Type := Rangeset {
  rs_domain : option Z;
  range_list : rset;
  rs_name : list Z;
  rs_flags : Z
}.

Record rs_world : Type := RsWorld { w_sets : gmap Z rangeset; w_rangesets : gmap Z (list Z) }.

Definition RANGESETF_prettyprint_hex : Z := 1.
(** The characters of [(no name)]. *)
Definition no_name : list Z := [40; 110; 111; 32; 110; 97; 109; 101; 41].

(** [p] is what [xmalloc] returns. *)
Definition rangeset_new (p : option Z) (d : option Z) (name : option (list Z)) (flags : Z) : M rs_world (option Z) :=
  match p with
  | None => ret None
  | Some p =>
      (if Z.land flags (Z.lnot RANGESETF_prettyprint_hex) =? 0 then ret tt else fail Abort) ;;;
      let n := match name with Some name => take 31 name | None => no_name end in
      modify (fun w => RsWorld (<[p := Rangeset d [] n flags]> (w_sets w))
        match d with
        | Some d => <[d := p :: default [] (w_rangesets w !! d)]> (w_rangesets w)
        | None => w_rangesets w
        end) ;;;
      ret (Some p)
  end.

Definition list_del (p : Z) (l : list Z) : list Z := filter (fun q => q <> p) l.

(** The ranges are freed with the list. *)
Definition rangeset_destroy (r : option Z) : M rs_world unit :=
  match r with
  | None => ret tt
  | Some p =>
      let! w := gets id in
      let! o := of_option UseAfterFree (w_sets w !! p) in
      modify (fun w => RsWorld (delete p (w_sets w))
        match rs_domain o with
        | Some d => alter (list_del p) d (w_rangesets w)
        | None => w_rangesets w
        end)
  end.

Definition rangeset_domain_initialise (d : Z) : M rs_world unit :=
  modify (fun w => RsWorld (w_sets w) (<[d := []]> (w_rangesets w))).

(** One round for each element of the list. *)
Definition rangeset_domain_destroy (d : Z) : M rs_world unit :=
  let! w := gets id in
  for_each (default [] (w_rangesets w !! d)) (fun p =>
    let! w := gets id in
    let! o := of_option UseAfterFree (w_sets w !! p) in
    (if decide (rs_domain o = Some d) then ret tt else fail Abort) ;;;
    modify (fun w => RsWorld (<[p := Rangeset None (range_list o) (rs_name o) (rs_flags o)]> (w_sets w))
                             (alter (list_del p) d (w_rangesets w))) ;;;
    rangeset_destroy (Some p)).

(** ** The invariant and the set a list stands for *)

Definition range_ok (x : range) : Prop := 0 <= rg_s x <= rg_e x /\ rg_e x <= ULONG_MAX.
(** There is a gap between [x] and [y]. *)
Definition before (x y : range) : Prop := rg_e x + 1 < rg_s y.

Definition rset_wf (r : rset) : Prop := Forall range_ok r /\ StronglySorted before r.

Definition has (r : rset) (z : Z) : Prop := exists x, x ∈ r /\ rg_s x <= z <= rg_e x.

Lemma has_nil z : has [] z <-> False.
Proof. split; [|done]. intros (x & Hx & _). by apply elem_of_nil in Hx. Qed.

Lemma has_cons x r z : has (x :: r) z <-> rg_s x <= z <= rg_e x \/ has r z.
Proof. unfold has. setoid_rewrite elem_of_cons. naive_solver. Qed.

Lemma has_app r1 r2 z : has (r1 ++ r2) z <-> has r1 z \/ has r2 z.
Proof. unfold has. setoid_rewrite elem_of_app. naive_solver. Qed.

(** Well-formedness in terms of the parts of a list. *)
Definition all_before (l k : rset) : Prop := forall x y, x ∈ l -> y ∈ k -> before x y.

Lemma wf_nil : rset_wf [].
Proof. split; constructor. Qed.

Lemma wf_app l k : rset_wf (l ++ k) <-> rset_wf l /\ rset_wf k /\ all_before l k.
Proof. unfold rset_wf, all_before. rewrite Forall_app, strongly_sorted_app. naive_solver. Qed.

Lemma wf_single x : rset_wf [x] <-> range_ok x.
Proof. unfold rset_wf. rewrite Forall_singleton. split; [naive_solver|]. intros H. split; [done|]. by repeat constructor. Qed.

Lemma wf_cons x l : rset_wf (x :: l) <-> range_ok x /\ rset_wf l /\ all_before [x] l.
Proof. change (x :: l) with ([x] ++ l). by rewrite wf_app, wf_single. Qed.

Lemma all_before_app_l l l' k : all_before (l ++ l') k <-> all_before l k /\ all_before l' k.
Proof. unfold all_before. setoid_rewrite elem_of_app. naive_solver. Qed.
Lemma all_before_app_r l k k' : all_before l (k ++ k') <-> all_before l k /\ all_before l k'.
Proof. unfold all_before. setoid_rewrite elem_of_app. naive_solver. Qed.
Lemma all_before_cons_l x l k : all_before (x :: l) k <-> all_before [x] k /\ all_before l k.
Proof. apply (all_before_app_l [x]). Qed.
Lemma all_before_cons_r l x k : all_before l (x :: k) <-> all_before l [x] /\ all_before l k.
Proof. apply (all_before_app_r l [x]). Qed.
Lemma all_before_singles x y : all_before [x] [y] <-> before x y.
Proof. unfold all_before. setoid_rewrite list_elem_of_singleton. naive_solver. Qed.
Lemma all_before_nil_l k : all_before [] k.
Proof. intros x y Hx. by apply elem_of_nil in Hx. Qed.
Lemma all_before_nil_r l : all_before l [].
Proof. intros x y _ Hy. by apply elem_of_nil in Hy. Qed.

(** Replacing a range by one that starts no lower, or ends no higher. *)
Lemma all_before_start l x y : all_before l [x] -> rg_s x <= rg_s y -> all_before l [y].
Proof.
  intros H Hs a b Ha ->%list_elem_of_singleton. unfold before.
  pose proof (H a x Ha ltac:(by left)). unfold before in *. lia.
Qed.
Lemma all_before_end x y k : all_before [x] k -> rg_e y <= rg_e x -> all_before [y] k.
Proof.
  intros H Hs a b ->%list_elem_of_singleton Hb. unfold before.
  pose proof (H x b ltac:(by left) Hb). unfold before in *. lia.
Qed.
Lemma all_before_trans l x k : range_ok x -> all_before l [x] -> all_before [x] k -> all_before l k.
Proof.
  intros [? _] H1 H2 a b Ha Hb. pose proof (H1 a x Ha ltac:(by left)). pose proof (H2 x b ltac:(by left) Hb).
  unfold before in *. lia.
Qed.

Ltac parts := rewrite ?wf_app, ?wf_cons, ?all_before_app_l, ?all_before_app_r in *; destruct_and?.

(** ** The list operations at a split of the list *)

Section Positions.
Implicit Types (l r : rset) (x y : range).

Lemma at_mid l x r : (l ++ x :: r) !! length l = Some x.
Proof. by rewrite lookup_app_r, Nat.sub_diag by lia. Qed.

Lemma put_mid l x y r : <[length l := y]> (l ++ x :: r) = l ++ y :: r.
Proof. by rewrite insert_app_r_alt, Nat.sub_diag by lia. Qed.

Lemma del_mid l x r : delete (length l) (l ++ x :: r) = l ++ r.
Proof. induction l as [|a l IH]; simpl; [done|]. by f_equal/=. Qed.

Context (E : error -> Prop).

Lemma wp_get_range l x k r n (Q : range -> rset -> Prop) :
  r = l ++ x :: k -> n = length l -> Q x r -> wp E (get_range n) Q r.
Proof. intros -> -> H. unfold wp, get_range, of_option. by rewrite at_mid. Qed.

Lemma wp_set_s l x k r n s (Q : unit -> rset -> Prop) :
  r = l ++ x :: k -> n = length l -> Q tt (l ++ Range s (rg_e x) :: k) -> wp E (set_s n s) Q r.
Proof.
  intros Hr Hn H. unfold set_s. apply wp_bind. eapply wp_get_range; [done..|]. apply wp_modify. subst. by rewrite put_mid.
Qed.

Lemma wp_set_e l x k r n e (Q : unit -> rset -> Prop) :
  r = l ++ x :: k -> n = length l -> Q tt (l ++ Range (rg_s x) e :: k) -> wp E (set_e n e) Q r.
Proof.
  intros Hr Hn H. unfold set_e. apply wp_bind. eapply wp_get_range; [done..|]. apply wp_modify. subst. by rewrite put_mid.
Qed.

Lemma wp_destroy l x k r n (Q : unit -> rset -> Prop) :
  r = l ++ x :: k -> n = length l -> Q tt (l ++ k) -> wp E (destroy_range n) Q r.
Proof. intros -> -> H. apply wp_modify. by rewrite del_mid. Qed.

Lemma wp_insert_after y l x k r n (Q : unit -> rset -> Prop) :
  r = l ++ x :: k -> n = length l -> Q tt (l ++ x :: y :: k) -> wp E (insert_range (Some n) y) Q r.
Proof.
  intros -> -> H. apply wp_modify. cbn. rewrite take_app_ge, drop_app_ge by lia.
  replace (S (length l) - length l)%nat with 1%nat by lia. cbn. by rewrite take_0, drop_0, <- app_assoc.
Qed.

Lemma next_mid l x r :
  next_range (l ++ x :: r) (length l) = match r with [] => None | _ => Some (S (length l)) end.
Proof. unfold next_range. rewrite length_app. destruct r; simpl; case_decide; done || lia. Qed.

Lemma find_loop_split l s (x : option nat) i :
  exists lo hi, l = lo ++ hi /\ Forall (fun a => rg_s a <= s) lo
    /\ match hi with [] => True | a :: _ => s < rg_s a end
    /\ find_range_loop x i l s = match lo with [] => x | _ => Some (i + length lo - 1)%nat end.
Proof.
  revert x i. induction l as [|a l IH]; intros x i; simpl.
  - by exists [], [].
  - destruct (Z.ltb_spec s (rg_s a)).
    + by exists [], (a :: l).
    + destruct (IH (Some i) (S i)) as (lo & hi & -> & Hlo & Hhi & ->). exists (a :: lo), hi. split_and!; [done|by constructor|done|].
      destruct lo; simpl; f_equal; lia.
Qed.

(** The result of [find_range] splits the list at the ranges that start at most at [s]. *)
Lemma find_range_spec r s :
  rset_wf r ->
  (find_range r s = None /\ Forall (fun a => s < rg_s a) r)
  \/ exists lo x hi, r = lo ++ x :: hi /\ find_range r s = Some (length lo)
       /\ rg_s x <= s /\ Forall (fun a => s < rg_s a) hi.
Proof.
  intros Hwf. destruct (find_loop_split r s None 0) as (lo & hi & -> & Hlo & Hhi & Ef).
  assert (Forall (fun a => s < rg_s a) hi) as Hall.
  { destruct hi as [|a hi]; [constructor|]. apply wf_app in Hwf as (_ & (Ha & _ & Hb)%wf_cons & _).
    constructor; [done|]. apply Forall_forall. intros b Hin.
    pose proof (Hb a b ltac:(by left) Hin) as Hab. unfold before, range_ok in *. lia. }
  unfold find_range. rewrite Ef. destruct lo as [|a lo _] using rev_ind.
  - by left.
  - right. exists lo, a, hi. rewrite <- app_assoc. split_and!; [done| | |done].
    + destruct (lo ++ [a]) eqn:El; [by destruct lo|]. rewrite <- El, length_app. simpl. f_equal. lia.
    + apply Forall_app in Hlo as [_ Hlo]. by inversion Hlo.
Qed.
End Positions.

(** ** Adding *)

(** [X] between [l] and [k], where it may touch the first range of [k]. *)
Record nearly_wf (l : rset) (X : range) (k : rset) : Prop := {
  nw_left : rset_wf l;
  nw_mid : range_ok X;
  nw_right : rset_wf k;
  nw_before : all_before l [X];
  nw_after y : y ∈ k -> rg_e X < rg_s y
}.

Definition same_set (r r' : rset) : Prop := forall z, has r' z <-> has r z.

(** Positions in a list that is given as a concatenation. *)
Ltac pos := first [done | by rewrite <- ?app_assoc | rewrite ?length_app; simpl; lia].

Lemma join_next_spec n l X k :
  n = length l -> nearly_wf l X k ->
  wp no_error (join_next n) (fun _ r' => rset_wf r' /\ same_set (l ++ X :: k) r') (l ++ X :: k).
Proof.
  intros -> [Hl HX Hk Hb Ha]. unfold join_next. wp_step. cbn beta. wp_step. unfold id. rewrite next_mid.
  destruct k as [|Y k].
  { wp_step. split; [|done]. apply wf_app. split_and!; [done|by apply wf_single|done]. }
  apply wf_cons in Hk as (HY & Hk & HYk). pose proof (Ha Y ltac:(by left)) as HXY.
  wp_step. eapply (wp_get_range _ l); [done..|]. wp_step. eapply (wp_get_range _ (l ++ [X])); [pos..|].
  unfold range_ok, ULONG_MAX in *. wp_step; bool_hyps.
  - wp_step. eapply (wp_set_e _ l); [done..|]. eapply (wp_destroy _ (l ++ [_])); [pos..|]. rewrite <- app_assoc. split.
    + apply wf_app. simpl. rewrite wf_cons, all_before_cons_r. unfold range_ok, ULONG_MAX; simpl. split_and!; try done; try lia.
      * eapply all_before_end; [done|simpl; lia].
      * eapply all_before_start; [done|simpl; lia].
      * intros a b Hin Hb'. pose proof (Hb a X Hin ltac:(by left)). pose proof (HYk Y b ltac:(by left) Hb').
        unfold before in *. lia.
    + assert (rg_s Y = rg_e X + 1) by zlia. intros z. rewrite !has_app, !has_cons, has_nil. simpl.
      assert (rg_s X <= z <= rg_e Y <-> rg_s X <= z <= rg_e X \/ rg_s Y <= z <= rg_e Y) by lia. tauto.
  - wp_step. split; [|done]. assert (before X Y) as HXY' by (unfold before; zlia).
    apply wf_app. rewrite !wf_cons, (all_before_cons_r l X), (all_before_cons_r l Y), (all_before_cons_r [X] Y), all_before_singles. unfold range_ok, ULONG_MAX. split_and!; try done; try lia.
    + eapply all_before_trans; [|by apply all_before_singles|done]. unfold range_ok, ULONG_MAX; lia.
    + eapply all_before_start; [done|]. lia.
    + eapply all_before_trans; [|exact Hb|]; [unfold range_ok, ULONG_MAX; lia|].
      eapply all_before_trans; [|by apply all_before_singles|done]. unfold range_ok, ULONG_MAX; lia.
Qed.

Lemma absorb_spec fuel l X m k n (Q : unit -> rset -> Prop) :
  n = length l -> (length m < fuel)%nat -> Forall (fun y => rg_e y <= rg_e X) m ->
  (forall y, y ∈ k -> rg_e X < rg_e y) -> Q tt (l ++ X :: k) ->
  wp no_error (absorb fuel n) Q (l ++ X :: m ++ k).
Proof.
  intros ->. revert m. induction fuel as [|fuel IH]; intros m Hf Hm Hk HQ; [lia|]. simpl.
  wp_step. cbn beta. wp_step. unfold id. rewrite next_mid. destruct m as [|y m]; simpl.
  - destruct k as [|y k]; [by wp_step|]. wp_step. eapply (wp_get_range _ (l ++ [X])); [pos..|]. wp_step.
    eapply (wp_get_range _ l); [done..|]. pose proof (Hk y ltac:(by left)).
    destruct (Z.ltb_spec (rg_e X) (rg_e y)); [by wp_step|lia].
  - apply Forall_cons in Hm as [Hy Hm]. wp_step. eapply (wp_get_range _ (l ++ [X])); [pos..|]. wp_step.
    eapply (wp_get_range _ l); [done..|]. destruct (Z.ltb_spec (rg_e X) (rg_e y)); [lia|].
    wp_step. eapply (wp_destroy _ (l ++ [X])); [pos..|].
    rewrite <- app_assoc. simpl. apply IH; try done. simpl in Hf. lia.
Qed.

Definition adds (s e : Z) (r r' : rset) : Prop :=
  rset_wf r' /\ forall z, has r' z <-> has r z \/ s <= z <= e.

Lemma finish_add l X k r r0 n s e (Q : Z -> rset -> Prop) :
  r0 = l ++ X :: k -> n = length l -> nearly_wf l X k -> (forall z, has r0 z <-> has r z \/ s <= z <= e) ->
  (forall r', adds s e r r' -> Q 0 r') ->
  wp no_error (join_next n ;;; ret 0) Q r0.
Proof.
  intros -> Hn HX Hset HQ. wp_step. eapply wp_mono; [by apply join_next_spec|]. intros _ r' [Hwf Hs]. wp_step.
  apply HQ. split; [done|]. intros z. by rewrite (Hs z), Hset.
Qed.

(** Ranges between the first and the last of a list. *)
Lemma wf_extent l Y b : rset_wf (l ++ [Y]) -> b ∈ l ++ [Y] -> rg_e b <= rg_e Y.
Proof.
  intros (_ & HY%wf_single & HlY)%wf_app [Hb| ->%list_elem_of_singleton]%elem_of_app; [|done].
  pose proof (HlY b Y Hb ltac:(by left)). unfold before, range_ok in *. lia.
Qed.
Lemma wf_extent_l x l b : rset_wf (x :: l) -> b ∈ x :: l -> rg_s x <= rg_s b.
Proof.
  intros (Hx & _ & Hxl)%wf_cons [->|Hb]%elem_of_cons; [done|].
  pose proof (Hxl x b ltac:(by left) Hb). unfold before, range_ok in *. lia.
Qed.

Lemma last_split (x : range) m Y : (x :: m) !! length m = Some Y -> x :: m = take (length m) (x :: m) ++ [Y].
Proof.
  intros HY. rewrite <- (take_drop_middle (x :: m) _ _ HY) at 1. by rewrite (drop_ge _ (S _)) by done.
Qed.

(** The part of [rangeset_add_range] that enlarges [X], up to the end of the last range [Y]
    the new range reaches. *)
Lemma enlarge_spec fuel n y l X m Y k r s e (Q : Z -> rset -> Prop) :
  n = length l -> y = (length l + length m)%nat -> (length m < fuel)%nat ->
  (X :: m) !! length m = Some Y -> Forall (fun b => rg_e b <= rg_e Y) m ->
  nearly_wf l (Range (rg_s X) (if e <? rg_e Y then rg_e Y else e)) k ->
  (forall z, has (l ++ Range (rg_s X) (if e <? rg_e Y then rg_e Y else e) :: k) z <-> has r z \/ s <= z <= e) ->
  (forall r', adds s e r r' -> Q 0 r') ->
  wp no_error (let! ry := get_range y in
               set_e n (if e <? rg_e ry then rg_e ry else e) ;;; absorb fuel n ;;; join_next n ;;; ret 0)
    Q (l ++ X :: m ++ k).
Proof.
  intros Hn Hy Hf HY Hm HX Hset HQ. pose proof (last_split _ _ _ HY) as Hsplit.
  wp_step. eapply (wp_get_range _ (l ++ take (length m) (X :: m)) Y k).
  { rewrite <- app_assoc. f_equal. change (X :: m ++ k) with ((X :: m) ++ k). rewrite Hsplit at 1. by rewrite <- app_assoc. }
  { rewrite length_app, length_take_le by (simpl; lia). lia. }
  wp_step. eapply (wp_set_e _ l); [done..|]. set (E' := if e <? rg_e Y then rg_e Y else e) in *.
  wp_step. apply (absorb_spec _ _ (Range (rg_s X) E') m k); try done.
  - eapply Forall_impl; [done|]. simpl. intros b Hb. unfold E'. case_if; bool_hyps; lia.
  - intros c Hc. simpl. pose proof (nw_after _ _ _ HX c Hc) as H1. simpl in H1.
    destruct (nw_right _ _ _ HX) as [Hok _]. eapply Forall_forall in Hok; [|done]. unfold range_ok in Hok. lia.
  - by eapply finish_add.
Qed.

(** How the ranges found for [s] and [e] lie to each other. *)
Inductive found (r : rset) (s e : Z) : Prop :=
| found_none :
    find_range r s = None -> find_range r e = None -> (forall b, b ∈ r -> e < rg_s b) -> found r s e
| found_same l x k :
    r = l ++ x :: k -> find_range r s = Some (length l) -> find_range r e = Some (length l) ->
    rg_s x <= s -> (forall b, b ∈ k -> e < rg_s b) -> found r s e
| found_above m Y k :
    r = m ++ Y :: k -> find_range r s = None -> find_range r e = Some (length m) ->
    (forall b, b ∈ m ++ [Y] -> s < rg_s b) -> rg_s Y <= e -> (forall b, b ∈ k -> e < rg_s b) -> found r s e
| found_both l x m Y k :
    r = l ++ x :: m ++ Y :: k -> find_range r s = Some (length l) ->
    find_range r e = Some (S (length l + length m)) -> rg_s x <= s ->
    (forall b, b ∈ m ++ [Y] -> s < rg_s b) -> rg_s Y <= e -> (forall b, b ∈ k -> e < rg_s b) -> found r s e.

Lemma find_two r s e : rset_wf r -> s <= e -> found r s e.
Proof.
  intros Hwf Hse. destruct (find_range_spec r e Hwf) as [[He Hr]|(k1 & Y & k & Hr & He & HY & Hk)].
  - rewrite Forall_forall in Hr. destruct (find_range_spec r s Hwf) as [[Hs _]|(l & x & l2 & -> & _ & Hx & _)].
    + by apply found_none.
    + pose proof (Hr x ltac:(set_solver)). lia.
  - rewrite Forall_forall in Hk. destruct (find_range_spec r s Hwf) as [[Hs Hr']|(l & x & l2 & Hl & Hs & Hx & Hl2)].
    + rewrite Forall_forall in Hr'. eapply found_above; try done. intros b Hb. apply Hr'. set_solver.
    + rewrite Forall_forall in Hl2. rewrite Hr in Hl. apply app_eq_inv in Hl as [(j & H1 & H2)|(j & H1 & H2)].
      * destruct j as [|x' j]; simplify_eq/=.
        { rewrite app_nil_r in *. by eapply found_same. }
        eapply (found_both _ _ _ l x' j Y k); try done.
        -- by rewrite <- app_assoc.
        -- rewrite He, length_app. f_equal. simpl. lia.
        -- intros b Hb. apply Hl2. set_solver.
      * destruct j as [|Y' j]; simplify_eq/=.
        { rewrite app_nil_r in *. by eapply found_same. }
        pose proof (Hk x ltac:(set_solver)). lia.
Qed.

Lemma wf_split l x k :
  rset_wf (l ++ x :: k) -> rset_wf l /\ range_ok x /\ rset_wf k /\ all_before l [x] /\ all_before [x] k.
Proof. rewrite wf_app, wf_cons, all_before_cons_r. naive_solver. Qed.

Lemma all_before_apart l x s e : all_before l [x] -> range_ok x -> rg_e x + 1 < s -> all_before (l ++ [x]) [Range s e].
Proof.
  intros H Hx Hs. apply all_before_app_l. split; [|by apply all_before_singles].
  eapply all_before_start; [done|]. unfold range_ok in Hx. simpl. lia.
Qed.

(** The set after the ranges [x], ..., [Y] became one that also covers [s, e]. *)
Lemma grown_set x m Y S E s e z :
  rset_wf (x :: m) -> (x :: m) !! length m = Some Y -> s <= e -> rg_s Y <= e ->
  E = (if e <? rg_e Y then rg_e Y else e) -> S <= s -> S <= rg_s x ->
  (S < s -> S = rg_s x /\ s <= rg_e x + 1) ->
  S <= z <= E <-> has (x :: m) z \/ s <= z <= e.
Proof.
  intros Hwf HY Hse HYe -> H1 H2 H3. assert (Y ∈ x :: m) as HYin by (by eapply list_elem_of_lookup_2).
  split.
  - intros Hz. destruct (decide (z < s)).
    { left. exists x. split; [by left|]. lia. }
    destruct (decide (z <= e)); [right; lia|]. left. exists Y. split; [done|]. revert Hz. case_if; bool_hyps; lia.
  - pose proof (last_split _ _ _ HY) as Hsplit. intros [(b & Hb & Hbz)|Hz]; [|case_if; bool_hyps; lia].
    pose proof (wf_extent_l _ _ _ Hwf Hb). rewrite Hsplit in Hwf, Hb. pose proof (wf_extent _ _ _ Hwf Hb).
    case_if; bool_hyps; lia.
Qed.

Lemma snoc_cons (m : rset) Y :
  exists x m', m ++ [Y] = x :: m' /\ length m' = length m /\ (x :: m') !! length m' = Some Y.
Proof.
  assert ((m ++ [Y]) !! length m = Some Y) as H by by rewrite lookup_app_r, Nat.sub_diag by lia.
  destruct m as [|x m]; [by exists Y, []|]. exists x, (m ++ [Y]).
  assert (length (m ++ [Y]) = length (x :: m)) as E by (rewrite length_app; simpl; lia). by rewrite E.
Qed.

Lemma cross_spec l x m Y k S r r0 n y fuel s e (Q : Z -> rset -> Prop) :
  r = l ++ x :: m ++ k -> r0 = l ++ Range S (rg_e x) :: m ++ k ->
  n = length l -> y = (length l + length m)%nat -> (length m < fuel)%nat ->
  rset_wf r -> (x :: m) !! length m = Some Y ->
  0 <= S -> s <= e -> e <= ULONG_MAX -> rg_s Y <= e -> (forall b, b ∈ k -> e < rg_s b) ->
  S <= s -> S <= rg_s x -> (S < s -> S = rg_s x /\ s <= rg_e x + 1) -> all_before l [Range S (rg_e x)] ->
  (forall r', adds s e r r' -> Q 0 r') ->
  wp no_error (let! ry := get_range y in
               set_e n (if e <? rg_e ry then rg_e ry else e) ;;; absorb fuel n ;;; join_next n ;;; ret 0)
    Q r0.
Proof.
  intros -> -> Hn Hy Hf Hwf HY HS Hse He HYe Hk H1 H2 H3 Hb HQ. pose proof (last_split _ _ _ HY) as Hsplit.
  assert (exists Y', (Range S (rg_e x) :: m) !! length m = Some Y' /\ rg_e Y' = rg_e Y) as (Y' & HY' & EY).
  { destruct m; simpl in *; [|by exists Y]. simplify_eq. by eexists. }
  apply wf_app in Hwf as (Hl & Hxmk & Hlk). change (x :: m ++ k) with ((x :: m) ++ k) in *.
  apply wf_app in Hxmk as (Hxm & Hwk & Hxk). assert (Y ∈ x :: m) as HYin by (by eapply list_elem_of_lookup_2).
  assert (range_ok Y) as HYok by (by eapply Forall_forall; [apply Hxm|]).
  eapply enlarge_spec; try done.
  - apply Forall_forall. intros b Hb'. rewrite EY. rewrite Hsplit in Hxm. eapply wf_extent; [done|].
    rewrite <- Hsplit. by right.
  - rewrite EY. unfold range_ok in HYok. constructor; try done.
    + split; simpl; case_if; bool_hyps; lia.
    + eapply all_before_start; [done|]. simpl. lia.
    + simpl. intros c Hc. pose proof (Hk c Hc). pose proof (Hxk Y c HYin Hc). unfold before in *. case_if; lia.
  - intros z. rewrite EY, !has_app, has_cons. cbn [rg_s rg_e].
    pose proof (grown_set x m Y S _ s e z Hxm HY Hse HYe eq_refl H1 H2 H3). tauto.
Qed.

Lemma add_within_none mem s e r (Q : Z -> rset -> Prop) :
  rset_wf r -> 0 <= s <= e -> e <= ULONG_MAX -> (forall b, b ∈ r -> e < rg_s b) ->
  (forall r', adds s e r r' -> Q 0 r') -> (mem = false -> Q (- ENOMEM) r) ->
  wp no_error (add_within mem None s e) Q r.
Proof.
  intros Hwf Hse He Hr HQ HQ'. unfold add_within. wp_step. wp_step. destruct mem; [|wp_step; auto]. wp_step. apply wp_modify. simpl.
  apply (finish_add [] (Range s e) r r _ _ s e); [done..| | |done].
  - constructor; [apply wf_nil|by unfold range_ok|done|apply all_before_nil_l|done].
  - intros z. simpl. rewrite has_cons. simpl. tauto.
Qed.

Lemma add_within_some mem l x k s e (Q : Z -> rset -> Prop) :
  rset_wf (l ++ x :: k) -> 0 <= s <= e -> e <= ULONG_MAX -> rg_s x <= s -> (forall b, b ∈ k -> e < rg_s b) ->
  (forall r', adds s e (l ++ x :: k) r' -> Q 0 r') -> (mem = false -> Q (- ENOMEM) (l ++ x :: k)) ->
  wp no_error (add_within mem (Some (length l)) s e) Q (l ++ x :: k).
Proof.
  intros (Hl & Hxok & Hwk & Hlx & Hxk)%wf_split Hse He Hx Hk HQ HQ'. unfold add_within.
  wp_step. wp_step. eapply (wp_get_range _ l); [done..|]. wp_step. unfold apart. wp_step; bool_hyps.
  - destruct mem; [|wp_step; auto]. wp_step. eapply wp_insert_after; [done..|].
    apply (finish_add (l ++ [x]) (Range s e) k (l ++ x :: k) _ _ s e); [pos..| | |done].
    + constructor; try done.
      * apply wf_app. split_and!; [done|by apply wf_single|done].
      * apply all_before_apart; [done..|]. unfold range_ok, ULONG_MAX in *. zlia.
    + intros z. rewrite !has_app, !has_cons. simpl. tauto.
  - wp_step. eapply wp_of_option; [done|]. wp_step. eapply (wp_get_range _ l); [done..|].
    assert (s <= rg_e x + 1) as Hs1. { unfold range_ok, ULONG_MAX in *. destruct Heqb; bool_hyps; zlia. }
    wp_step. wp_step; bool_hyps.
    + eapply (wp_set_e _ l); [done..|]. apply (finish_add l (Range (rg_s x) e) k (l ++ x :: k) _ _ s e); [done..| | |done].
      * constructor; try done; [unfold range_ok in *; simpl; lia|]. by eapply all_before_start.
      * intros z. rewrite !has_app, !has_cons. cbn [rg_s rg_e].
        assert (rg_s x <= z <= e <-> rg_s x <= z <= rg_e x \/ s <= z <= e) by lia. tauto.
    + apply (finish_add l x k (l ++ x :: k) _ _ s e); [done..| | |done].
      * constructor; try done. intros b Hb. pose proof (Hxk x b ltac:(by left) Hb). unfold before in *. lia.
      * intros z. rewrite !has_app, !has_cons.
        assert (s <= z <= e -> rg_s x <= z <= rg_e x) by lia. tauto.
Qed.

Lemma add_across_none m Y k s e (Q : Z -> rset -> Prop) :
  rset_wf (m ++ Y :: k) -> 0 <= s <= e -> e <= ULONG_MAX -> (forall b, b ∈ m ++ [Y] -> s < rg_s b) ->
  rg_s Y <= e -> (forall b, b ∈ k -> e < rg_s b) -> (forall r', adds s e (m ++ Y :: k) r' -> Q 0 r') ->
  wp no_error (add_across (m ++ Y :: k) None (Some (length m)) s e) Q (m ++ Y :: k).
Proof.
  destruct (snoc_cons m Y) as (x & m' & Em & El & HY').
  rewrite cons_middle, app_assoc, Em. intros Hwf Hse He Hm HY Hk HQ. pose proof (Hm x ltac:(by left)).
  unfold add_across. wp_step. wp_step. eapply wp_of_option; [done|]. wp_step. eapply (wp_set_s _ []); [done..|]. wp_step.
  wp_step. eapply wp_of_option; [done|].
  eapply (cross_spec [] x m' Y k s (x :: m' ++ k) _ _ _ _ s e); try done; try lia; [|apply all_before_nil_l].
  simpl. rewrite length_app. lia.
Qed.

Lemma add_across_some l x m Y k s e r (Q : Z -> rset -> Prop) :
  r = l ++ x :: m ++ Y :: k -> rset_wf r -> 0 <= s <= e -> e <= ULONG_MAX -> rg_s x <= s ->
  (forall b, b ∈ m ++ [Y] -> s < rg_s b) -> rg_s Y <= e -> (forall b, b ∈ k -> e < rg_s b) ->
  (forall r', adds s e r r' -> Q 0 r') ->
  wp no_error (add_across r (Some (length l)) (Some (S (length l + length m))) s e) Q r.
Proof.
  intros Hr Hwf Hse He Hx Hm HY Hk HQ. assert (length r = length l + length m + length k + 2)%nat as Hlen.
  { rewrite Hr. rewrite !length_app. simpl. rewrite length_app. simpl. lia. }
  pose proof Hwf as Hwf'. rewrite Hr in Hwf'. apply wf_split in Hwf' as (Hl & Hxok & _ & Hlx & Hxk).
  unfold add_across. wp_step. wp_step. eapply (wp_get_range _ l); [done..|]. unfold apart. wp_step; bool_hyps.
  - assert (next_range r (length l) = Some (S (length l))) as -> by (rewrite Hr, next_mid; by destruct m).
    wp_step. eapply wp_of_option; [done|]. destruct (snoc_cons m Y) as (x' & m' & Em & El & HY').
    rewrite (cons_middle Y), (app_assoc m), Em in Hr. rewrite Em in Hm. pose proof (Hm x' ltac:(by left)).
    wp_step. eapply (wp_set_s _ (l ++ [x]) x' (m' ++ k)); [subst r; pos..|]. wp_step. wp_step. eapply wp_of_option; [done|].
    eapply (cross_spec (l ++ [x]) x' m' Y k s r _ _ _ _ s e); try done; try lia; [subst r; pos|pos|pos|].
    apply all_before_apart; [done..|]. unfold range_ok, ULONG_MAX in *. zlia.
  - assert (s <= rg_e x + 1) as Hs1. { unfold range_ok, ULONG_MAX in *. destruct Heqb; bool_hyps; zlia. }
    wp_step. wp_step. eapply wp_of_option; [done|]. destruct x as [xs xe] eqn:Ex. cbn [rg_s rg_e] in *.
    eapply (cross_spec l x (m ++ [Y]) Y k xs r _ _ _ _ s e); subst x; try done; simpl; try lia.
    all: try (rewrite ?length_app; simpl; lia). all: try (rewrite Hr; by rewrite <- app_assoc).
    + by rewrite length_app, Nat.add_1_r; simpl; rewrite lookup_app_r, Nat.sub_diag by lia.
    + unfold range_ok in Hxok. simpl in Hxok. lia.
Qed.

(** [rangeset_add_range] adds the range to the set, or runs out of memory and changes nothing. *)
Lemma rangeset_add_range_spec mem s e r :
  rset_wf r -> 0 <= s <= e -> e <= ULONG_MAX ->
  wp no_error (rangeset_add_range mem s e)
    (fun rc r' => (rc = 0 /\ adds s e r r') \/ (mem = false /\ rc = - ENOMEM /\ r' = r)) r.
Proof.
  intros Hwf Hse He. unfold rangeset_add_range. wp_step. apply wp_assert; [lia|]. wp_step. cbn beta. wp_step. unfold id.
  destruct (find_two r s e Hwf) as [-> -> Hr|l x k Hr -> -> Hx Hk|m Y k Hr -> -> Hm HY Hk|l x m Y k Hr -> -> Hx Hm HY Hk];
    [lia|rewrite ?decide_True by done..|].
  - apply add_within_none; auto.
  - subst r. apply add_within_some; auto.
  - rewrite decide_False by done. subst r. apply add_across_none; auto.
  - rewrite decide_False by (intros [=]; lia). eapply add_across_some; eauto.
Qed.

(** ** Removing *)

Definition removes (s e : Z) (r r' : rset) : Prop :=
  rset_wf r' /\ forall z, has r' z <-> has r z /\ ~ (s <= z <= e).

Lemma destroy_until_spec m l k n (Q : unit -> rset -> Prop) :
  n = length l -> Q tt (l ++ k) -> wp no_error (destroy_until (length m) n) Q (l ++ m ++ k).
Proof.
  intros ->. induction m as [|x m IH]; intros HQ; simpl; [by wp_step|]. wp_step. by eapply (wp_destroy _ l); [done..|apply IH].
Qed.

(** What is left of [Y] behind [e]. *)
Definition rest_of (Y : range) (e : Z) : rset := if rg_e Y <? e + 1 then [] else [Range (e + 1) (rg_e Y)].

(** The end of [rangeset_remove_range]: the ranges [m] go, [Y] is cut. *)
Lemma cut_spec l m Y k r n y e (Q : Z -> rset -> Prop) :
  r = l ++ m ++ Y :: k -> n = length l -> (y - n)%nat = length m -> 0 <= e < ULONG_MAX ->
  Q 0 (l ++ rest_of Y e ++ k) ->
  wp no_error (destroy_until (y - n) n ;;; set_s n (u64 (e + 1)) ;;;
    let! rx := get_range n in when (rg_e rx <? rg_s rx) (destroy_range n) ;;; ret 0) Q r.
Proof.
  intros -> Hn Hy He HQ. assert (u64 (e + 1) = e + 1) as -> by (unfold ULONG_MAX in *; zlia).
  wp_step. rewrite Hy. apply destroy_until_spec; [done|]. wp_step. eapply (wp_set_s _ l); [done..|].
  wp_step. eapply (wp_get_range _ l); [done..|]. simpl. unfold rest_of in HQ. wp_step. wp_step; rewrite H in HQ.
  - eapply (wp_destroy _ l); [done..|]. by wp_step.
  - by wp_step.
Qed.

Lemma rest_of_set Y e z : rg_s Y <= e -> has (rest_of Y e) z <-> rg_s Y <= z <= rg_e Y /\ e < z.
Proof.
  intros H. unfold rest_of. case_if; bool_hyps; rewrite ?has_cons, has_nil; simpl; split; intuition lia.
Qed.

Lemma cut_set L m Y k s e z :
  (forall b, b ∈ L -> rg_e b < s) -> (forall b, b ∈ m -> s <= rg_s b /\ rg_e b <= e) -> s <= rg_s Y <= e ->
  (forall b, b ∈ k -> e < rg_s b) ->
  has (L ++ rest_of Y e ++ k) z <-> has (L ++ m ++ Y :: k) z /\ ~ (s <= z <= e).
Proof.
  intros HL Hm HY Hk. rewrite !has_app, has_cons, rest_of_set by lia.
  assert (has L z -> z < s) by (intros (b & Hb & ?); specialize (HL b Hb); lia).
  assert (has m z -> s <= z <= e) by (intros (b & Hb & ?); specialize (Hm b Hb); lia).
  assert (has k z -> e < z) by (intros (b & Hb & ?); specialize (Hk b Hb); lia).
  assert (s <= z <= e \/ z < s \/ e < z) by lia. assert (z < s -> e < z -> False) by lia.
  assert (s <= z <= e -> z < s -> False) by lia. assert (s <= z <= e -> e < z -> False) by lia.
  assert (z < s -> rg_s Y <= z <= rg_e Y -> False) by lia. tauto.
Qed.

Lemma cut_wf L m Y k e :
  rset_wf (L ++ m ++ Y :: k) -> rg_s Y <= e -> 0 <= e -> rset_wf (L ++ rest_of Y e ++ k).
Proof.
  intros Hwf HY He. assert (rset_wf (L ++ Y :: k)) as (HL & HYok & Hk & HLY & HYk)%wf_split.
  { apply wf_app in Hwf as (? & (? & ? & ?)%wf_app & [? ?]%all_before_app_r). by apply wf_app. }
  pose proof (all_before_trans L Y k HYok HLY HYk). unfold rest_of. unfold range_ok in HYok. case_if; bool_hyps; simpl.
  - by apply wf_app.
  - apply wf_app. rewrite wf_cons, all_before_cons_r. split_and!; try done.
    + unfold range_ok. simpl. lia.
    + by eapply all_before_end.
    + eapply all_before_start; [done|]. simpl. lia.
Qed.

(** When the code removes what it should: the ranges found for [s] and [e] are the same, or
    [e] is not the largest number and [s] is in the set or below all of it. *)
Definition removable (s e : Z) (r : rset) : Prop :=
  (forall b, b ∈ r -> ~ (s < rg_s b <= e))
  \/ (e < ULONG_MAX /\ (has r s \/ forall b, b ∈ r -> s <= rg_s b)).

Lemma removable_cross s e r Y : removable s e r -> Y ∈ r -> s < rg_s Y <= e ->
  e < ULONG_MAX /\ (has r s \/ forall b, b ∈ r -> s <= rg_s b).
Proof. intros [H|H] HY Hs; [|done]. by destruct (H Y HY). Qed.

(** A range that starts at most at [s] in a set that has [s], all later ones starting above. *)
Lemma has_last l x k s :
  rset_wf (l ++ x :: k) -> rg_s x <= s -> (forall b, b ∈ k -> s < rg_s b) ->
  has (l ++ x :: k) s \/ (forall b, b ∈ l ++ x :: k -> s <= rg_s b) -> s <= rg_e x.
Proof.
  intros (_ & Hx & _ & Hlx & _)%wf_split Hs Hk [(b & Hb & Hbs)|H]; unfold range_ok in Hx.
  - apply elem_of_app in Hb as [Hb|[->|Hb]%elem_of_cons]; [|lia|specialize (Hk b Hb); lia].
    pose proof (Hlx b x Hb ltac:(by left)). unfold before in *. lia.
  - specialize (H x ltac:(set_solver)). lia.
Qed.

Lemma all_before_below l x s : range_ok x -> all_before l [x] -> rg_s x <= s -> forall b, b ∈ l -> rg_e b < s.
Proof. intros Hx H Hs b Hb. pose proof (H b x Hb ltac:(by left)). unfold before, range_ok in *. lia. Qed.

Lemma below_end l' m Y k s e :
  rset_wf (l' ++ m ++ Y :: k) -> rg_s Y <= e -> (forall b, b ∈ m ++ [Y] -> s < rg_s b) ->
  forall b, b ∈ m -> s <= rg_s b /\ rg_e b <= e.
Proof.
  intros (_ & (_ & _ & _ & HmY & _)%wf_split & _)%wf_app HY Hm b Hb.
  pose proof (HmY b Y Hb ltac:(by left)). specialize (Hm b ltac:(set_solver)). unfold before in *. lia.
Qed.

(** Removing from one range [x] only. *)
Lemma replaced_removes l x k mid s e :
  rset_wf (l ++ x :: k) -> rg_s x <= s <= e -> (forall b, b ∈ k -> e < rg_s b) ->
  rset_wf mid -> (forall b, b ∈ mid -> rg_s x <= rg_s b /\ rg_e b <= rg_e x) ->
  (forall z, has mid z <-> rg_s x <= z <= rg_e x /\ ~ (s <= z <= e)) ->
  removes s e (l ++ x :: k) (l ++ mid ++ k).
Proof.
  intros Hwf Hx Hk Hmid Hin Hset. pose proof Hwf as (Hl & Hxok & Hwk & Hlx & Hxk)%wf_split. split.
  - rewrite !wf_app, all_before_app_r. pose proof (all_before_trans l x k Hxok Hlx Hxk). split_and!; try done.
    + intros a b Ha Hb. pose proof (Hin a Ha). pose proof (Hxk x b ltac:(by left) Hb). unfold before in *. lia.
    + intros a b Ha Hb. pose proof (Hin b Hb). pose proof (Hlx a x Ha ltac:(by left)). unfold before in *. lia.
  - intros z. rewrite !has_app, has_cons, Hset.
    assert (has l z -> z < s).
    { intros (b & Hb & Hz). pose proof (all_before_below l x s Hxok Hlx ltac:(lia) b Hb). lia. }
    assert (has k z -> e < z) by (intros (b & Hb & Hz); specialize (Hk b Hb); lia).
    assert (z < s -> ~ s <= z <= e) by lia. assert (e < z -> ~ s <= z <= e) by lia. tauto.
Qed.

Lemma remove_within_some mem l x k s e (Q : Z -> rset -> Prop) :
  rset_wf (l ++ x :: k) -> 0 <= s <= e -> e <= ULONG_MAX -> rg_s x <= s -> (forall b, b ∈ k -> e < rg_s b) ->
  (forall r', removes s e (l ++ x :: k) r' -> Q 0 r') -> (mem = false -> Q (- ENOMEM) (l ++ x :: k)) ->
  wp no_error (remove_within mem (Some (length l)) s e) Q (l ++ x :: k).
Proof.
  intros Hwf Hse He Hx Hk HQ HQ'. pose proof Hwf as (_ & Hxok & _)%wf_split.
  assert (forall mid r', r' = l ++ mid ++ k -> rset_wf mid -> (forall b, b ∈ mid -> rg_s x <= rg_s b /\ rg_e b <= rg_e x) ->
    (forall z, has mid z <-> rg_s x <= z <= rg_e x /\ ~ (s <= z <= e)) -> Q 0 r') as G.
  { intros mid r' -> H1 H2 H3. apply HQ, replaced_removes; try done; lia. }
  assert (forall a b r', r' = l ++ Range a b :: k -> rg_s x <= a <= b -> b <= rg_e x ->
    (forall z, a <= z <= b <-> rg_s x <= z <= rg_e x /\ ~ (s <= z <= e)) -> Q 0 r') as G1.
  { intros a b r' -> H1 H2 H3. unfold range_ok in Hxok. apply (G [Range a b]); [done| | |].
    - apply wf_single. unfold range_ok. simpl. lia.
    - intros c ->%list_elem_of_singleton. simpl. lia.
    - intros z. rewrite has_cons, has_nil, <- H3. simpl. lia. }
  unfold remove_within. wp_step. eapply (wp_get_range _ l); [done..|]. unfold range_ok, ULONG_MAX in Hxok.
  wp_step; bool_hyps; [|wp_step; bool_hyps; [|wp_step; bool_hyps; [|wp_step; bool_hyps; [|wp_step; bool_hyps]]]].
  - wp_step. apply (G [x]); [done|by apply wf_single|set_solver|]. intros z. rewrite has_cons, has_nil. lia.
  - destruct mem; [|wp_step; auto]. wp_step. eapply (wp_set_e _ l); [done..|]. wp_step.
    eapply (wp_insert_after _ _ l); [done..|]. wp_step.
    assert (u64 (s - 1) = s - 1) as -> by zlia. assert (u64 (e + 1) = e + 1) as -> by zlia.
    apply (G [Range (rg_s x) (s - 1); Range (e + 1) (rg_e x)]); [done| | |].
    + apply (wf_app [_]). rewrite !wf_single, all_before_singles. unfold range_ok, before, ULONG_MAX. simpl. lia.
    + intros b [->| ->%list_elem_of_singleton]%elem_of_cons; simpl; lia.
    + intros z. rewrite !has_cons, has_nil. simpl. lia.
  - wp_step. eapply (wp_destroy _ l); [done..|]. wp_step. apply (G []); [done|apply wf_nil|set_solver|].
    intros z. rewrite has_nil. lia.
  - destruct Heqb1; [lia|]. wp_step. eapply (wp_set_s _ l); [done..|]. wp_step. assert (u64 (e + 1) = e + 1) as -> by zlia.
    apply (G1 (e + 1) (rg_e x)); [done|lia..].
  - wp_step. eapply (wp_set_e _ l); [done..|]. wp_step. assert (u64 (s - 1) = s - 1) as -> by zlia.
    apply (G1 (rg_s x) (s - 1)); [done|lia..].
  - destruct Heqb0; lia.
Qed.

Lemma remove_across_none m Y k s e r (Q : Z -> rset -> Prop) :
  r = m ++ Y :: k -> rset_wf r -> 0 <= s <= e -> e < ULONG_MAX ->
  (forall b, b ∈ m ++ [Y] -> s < rg_s b) -> rg_s Y <= e -> (forall b, b ∈ k -> e < rg_s b) ->
  (forall r', removes s e r r' -> Q 0 r') ->
  wp no_error (remove_across r None (Some (length m)) s e) Q r.
Proof.
  intros Hr Hwf Hse He Hm HY Hk HQ. unfold remove_across.
  assert (first_range r = Some 0%nat) as -> by (rewrite Hr; by destruct m).
  assert (exists x k', r = x :: k' /\ x ∈ m ++ [Y]) as (x & k' & Ex & Hx).
  { destruct m as [|x m]; [by exists Y, k; set_solver|]. exists x, (m ++ Y :: k). set_solver. }
  wp_step. eapply wp_of_option; [done|]. wp_step. eapply (wp_get_range _ [] x k'); [done..|].
  specialize (Hm x Hx) as Hxs. replace (rg_s x <? s) with false by lia. wp_step. wp_step. wp_step. eapply wp_of_option; [done|].
  apply (cut_spec [] m Y k); [done|done|lia|lia|]. apply HQ. split.
  - eapply (cut_wf []); [|done|lia]. simpl. by rewrite <- Hr.
  - intros z. rewrite Hr. apply (cut_set []); [set_solver|eapply (below_end [] m Y k); [by rewrite <- Hr|done..]| |done].
    split; [specialize (Hm Y ltac:(set_solver)); lia|done].
Qed.

Lemma remove_across_some l x m Y k s e r (Q : Z -> rset -> Prop) :
  r = l ++ x :: m ++ Y :: k -> rset_wf r -> 0 <= s <= e -> e < ULONG_MAX -> rg_s x <= s <= rg_e x ->
  (forall b, b ∈ m ++ [Y] -> s < rg_s b) -> rg_s Y <= e -> (forall b, b ∈ k -> e < rg_s b) ->
  (forall r', removes s e r r' -> Q 0 r') ->
  wp no_error (remove_across r (Some (length l)) (Some (S (length l + length m))) s e) Q r.
Proof.
  intros Hr Hwf Hse He Hx Hm HY Hk HQ. pose proof Hwf as Hwf'. rewrite Hr in Hwf'.
  pose proof Hwf' as (Hl & Hxok & Hwk & Hlx & Hxk)%wf_split. pose proof (all_before_below l x s Hxok Hlx ltac:(lia)) as Hls.
  assert (s <= rg_s Y <= e) as HsY by (split; [specialize (Hm Y ltac:(set_solver)); lia|done]).
  pose proof (Hxk x Y ltac:(by left) ltac:(set_solver)) as HxY. unfold before in HxY.
  unfold remove_across. wp_step. wp_step. wp_step. eapply (wp_get_range _ l); [done..|]. wp_step. wp_step; bool_hyps.
  - assert (next_range r (length l) = Some (S (length l))) as -> by (rewrite Hr, next_mid; by destruct m).
    assert (u64 (s - 1) = s - 1) as -> by (unfold range_ok, ULONG_MAX in *; zlia).
    wp_step. eapply (wp_set_e _ l); [done..|]. eapply wp_of_option; [done|]. wp_step. eapply wp_of_option; [done|].
    set (x' := Range (rg_s x) (s - 1)). assert (rset_wf ((l ++ [x']) ++ m ++ Y :: k)) as Hwf2.
    { rewrite <- app_assoc. apply wf_app. simpl. rewrite wf_cons, all_before_cons_r. split_and!; try done.
      - unfold range_ok in *. simpl. lia.
      - eapply all_before_end; [done|]. simpl. lia.
      - by eapply all_before_start.
      - eapply all_before_trans; [exact Hxok|done..]. }
    apply (cut_spec (l ++ [x']) m Y k); [pos|pos|lia|lia|]. apply HQ. split.
    + eapply cut_wf; [done|done|lia].
    + intros z. rewrite (cut_set (l ++ [x']) m Y k s e z); [|intros b [Hb| ->%list_elem_of_singleton]%elem_of_app; [by apply Hls|simpl; lia]|by eapply below_end|done|done].
      rewrite Hr, <- app_assoc, !has_app, !has_cons, !has_app, !has_cons, !has_nil. simpl.
      assert (rg_s x <= z <= s - 1 <-> rg_s x <= z <= rg_e x /\ ~ s <= z <= e) by lia. tauto.
  - wp_step. wp_step. eapply wp_of_option; [done|]. apply (cut_spec l (x :: m) Y k); [done|done|simpl; lia|lia|].
    apply HQ. split.
    + apply (cut_wf l (x :: m)); [done|done|lia].
    + intros z. rewrite Hr. apply (cut_set l (x :: m)); [done| |done|done].
      intros b [->|Hb]%elem_of_cons; [lia|]. by eapply (below_end [] m Y k).
Qed.

(** [rangeset_remove_range], on the inputs described by [removable]. *)
Lemma rangeset_remove_range_spec mem s e r :
  rset_wf r -> 0 <= s <= e -> e <= ULONG_MAX -> removable s e r ->
  wp no_error (rangeset_remove_range mem s e)
    (fun rc r' => (rc = 0 /\ removes s e r r') \/ (mem = false /\ rc = - ENOMEM /\ r' = r)) r.
Proof.
  intros Hwf Hse He Hrm. unfold rangeset_remove_range. wp_step. apply wp_assert; [lia|]. wp_step. cbn beta. wp_step. unfold id.
  destruct (find_two r s e Hwf) as [-> -> Hr|l x k Hr -> -> Hx Hk|m Y k Hr -> -> Hm HY Hk|l x m Y k Hr -> -> Hx Hm HY Hk]; [lia|..].
  - rewrite decide_True by done. simpl. wp_step. left. split; [done|]. split; [done|]. intros z. split; [|tauto].
    intros (b & Hb & Hz). split; [by exists b|]. specialize (Hr b Hb). lia.
  - rewrite decide_True by done. subst r. apply remove_within_some; auto.
  - rewrite decide_False by done. specialize (Hm Y ltac:(set_solver)) as HsY.
    destruct (removable_cross s e r Y Hrm) as [He1 _]; [set_solver|done|]. eapply remove_across_none; eauto.
  - rewrite decide_False by (intros [=]; lia). specialize (Hm Y ltac:(set_solver)) as HsY.
    destruct (removable_cross s e r Y Hrm) as [He1 Hs]; [set_solver|done|]. eapply remove_across_some; eauto. split; [done|].
    subst r. eapply has_last; try done. intros b. rewrite cons_middle, app_assoc.
    intros [Hb|Hb]%elem_of_app; [by apply Hm|]. specialize (Hk b Hb). lia.
Qed.

(** ** Queries *)

Lemma wp_find E r s (Q : bool -> rset -> Prop) (f : range -> bool) :
  rset_wf r -> ((forall b, b ∈ r -> s < rg_s b) -> Q false r) ->
  (forall l x k, r = l ++ x :: k -> rg_s x <= s -> (forall b, b ∈ k -> s < rg_s b) -> Q (f x) r) ->
  wp E (match find_range r s with
        | None => ret false
        | Some x => let! rx := get_range x in ret (f rx)
        end) Q r.
Proof.
  intros Hwf HN HS. destruct (find_range_spec r s Hwf) as [[-> Hr]|(l & x & k & Hr & -> & Hx & Hk)].
  - wp_step. apply HN. by apply Forall_forall.
  - wp_step. eapply wp_get_range; [done..|]. wp_step. eapply HS; [done..|]. by apply Forall_forall.
Qed.

Lemma contains_spec s e r :
  rset_wf r -> 0 <= s <= e ->
  wp no_error (rangeset_contains_range s e)
    (fun b r' => r' = r /\ (b = true <-> forall z, s <= z <= e -> has r z)) r.
Proof.
  intros Hwf Hse. unfold rangeset_contains_range. wp_step. apply wp_assert; [lia|]. wp_step. wp_step. unfold id.
  apply (wp_find _ _ _ _ (fun rx => e <=? rg_e rx)); [done|intros Hr|intros l x k -> Hx Hk]; (split; [done|]).
  - split; [done|]. intros H. destruct (H s ltac:(lia)) as (b & Hb & Hbs). specialize (Hr b Hb). lia.
  - rewrite Z.leb_le. pose proof Hwf as (_ & Hxok & _ & Hlx & Hxk)%wf_split. unfold range_ok in Hxok. split.
    + intros He z Hz. exists x. split; [set_solver|lia].
    + intros H. destruct (Z.le_gt_cases e (rg_e x)); [done|]. exfalso.
      destruct (H (Z.max s (rg_e x + 1)) ltac:(lia)) as (b & [Hb|[->|Hb]%elem_of_cons]%elem_of_app & Hbz); [|lia|].
      * pose proof (Hlx b x Hb ltac:(by left)). unfold before in *. lia.
      * pose proof (Hxk x b ltac:(by left) Hb). specialize (Hk b Hb). unfold before in *. lia.
Qed.

Lemma overlaps_spec s e r :
  rset_wf r -> 0 <= s <= e ->
  wp no_error (rangeset_overlaps_range s e)
    (fun b r' => r' = r /\ (b = true <-> exists z, s <= z <= e /\ has r z)) r.
Proof.
  intros Hwf Hse. unfold rangeset_overlaps_range. wp_step. apply wp_assert; [lia|]. wp_step. wp_step. unfold id.
  apply (wp_find _ _ _ _ (fun rx => s <=? rg_e rx)); [done|intros Hr|intros l x k -> Hx Hk]; (split; [done|]).
  - split; [done|]. intros (z & Hz & b & Hb & Hbz). specialize (Hr b Hb). lia.
  - rewrite Z.leb_le. pose proof Hwf as (_ & Hxok & _ & Hlx & Hxk)%wf_split. unfold range_ok in Hxok. split.
    + intros He. exists (Z.max s (rg_s x)). split; [lia|]. exists x. split; [set_solver|lia].
    + intros (z & Hz & b & [Hb|[->|Hb]%elem_of_cons]%elem_of_app & Hbz); [|lia|specialize (Hk b Hb); lia].
      pose proof (Hlx b x Hb ltac:(by left)). unfold before in *. lia.
Qed.

(** The parts of the ranges inside [s, e], in ascending order. *)
Definition clips (s e : Z) (r : rset) : list (Z * Z) :=
  (fun x => (Z.max (rg_s x) s, Z.min (rg_e x) e)) <$> filter (fun x => rg_s x <= e /\ s <= rg_e x) r.

(** Calls the callback until it returns nonzero. *)
Fixpoint call_each {C} (cb : Z -> Z -> C -> Z * C) (l : list (Z * Z)) (c : C) : Z * C :=
  match l with
  | [] => (0, c)
  | (a, b) :: l => let rc := cb a b c in if rc.1 =? 0 then call_each cb l rc.2 else rc
  end.

Lemma report_loop_spec {C} (cb : Z -> Z -> C -> Z * C) r s e c :
  rset_wf r -> report_loop cb r s e c = call_each cb (clips s e r) c.
Proof.
  revert c. induction r as [|x r IH]; intros c Hwf; [done|]. simpl. unfold clips.
  apply wf_cons in Hwf as (Hx & Hwf & Hb). destruct (Z.leb_spec (rg_s x) e).
  - rewrite filter_cons. destruct (Z.leb_spec s (rg_e x)).
    + rewrite decide_True by lia. simpl. case_if; [|done]. by apply IH.
    + rewrite decide_False by lia. simpl. by apply IH.
  - rewrite filter_none; [done|]. intros b Hin [Hbe _].
    apply elem_of_cons in Hin as [->|Hin]; [lia|]. pose proof (Hb x b ltac:(by left) Hin). unfold before, range_ok in *. lia.
Qed.

Lemma report_spec {C} (cb : Z -> Z -> C -> Z * C) r s e c :
  rset_wf r -> 0 <= s <= e -> (exists b, b ∈ r /\ rg_s b <= s) ->
  rangeset_report_ranges cb r s e c = call_each cb (clips s e r) c.
Proof.
  intros Hwf Hse (b & Hb & Hbs). unfold rangeset_report_ranges.
  destruct (find_range_spec r s Hwf) as [[-> Hr]|(l & x & k & -> & -> & Hx & Hk)].
  { rewrite Forall_forall in Hr. specialize (Hr b Hb). lia. }
  pose proof Hwf as (Hl & Hxok & Hwk & Hlx & Hxk)%wf_split.
  rewrite drop_app_length, report_loop_spec by (by apply wf_cons). f_equal. unfold clips. rewrite filter_app, (filter_none _ l); [done|].
  intros a Ha [_ Hs]. pose proof (all_before_below l x s Hxok Hlx Hx a Ha). lia.
Qed.

(** Nothing is reported if no range starts at or below [s], whatever lies between [s] and [e]. *)
Lemma report_nothing {C} (cb : Z -> Z -> C -> Z * C) r s e c :
  rset_wf r -> (forall b, b ∈ r -> s < rg_s b) -> rangeset_report_ranges cb r s e c = (0, c).
Proof.
  intros Hwf Hr. unfold rangeset_report_ranges. destruct (find_range_spec r s Hwf) as [[-> _]|(l & x & k & -> & _ & Hx & _)]; [done|].
  specialize (Hr x ltac:(set_solver)). lia.
Qed.

Lemma clips_set r s e z :
  (exists a b, (a, b) ∈ clips s e r /\ a <= z <= b) <-> has r z /\ s <= z <= e.
Proof.
  unfold clips, has. setoid_rewrite list_elem_of_fmap. setoid_rewrite list_elem_of_filter. split.
  - intros (a & b & (x & [= -> ->] & ? & Hx) & Hz). split; [exists x; split; [done|lia]|lia].
  - intros ((x & Hx & Hz) & Hse). eexists _, _. split; [exists x; split; [done|split; [lia|done]]|lia].
Qed.

(** ** The refinement *)

Inductive rs_op : Type :=
| OpAdd (s e : Z) | OpRemove (s e : Z) | OpContains (s e : Z) | OpOverlaps (s e : Z)
| OpReport (s e : Z) | OpIsEmpty.

Inductive rs_out : Type :=
| ORc (rc : Z) | OBool (b : bool) | ORanges (l : list (Z * Z)).

(** A callback that notes what it is called with. *)
Definition note (a b : Z) (c : list (Z * Z)) : Z * list (Z * Z) := (0, c ++ [(a, b)]).

(** What the code does; [mem] is the outcome of an allocation. *)
Definition rs_exec (mem : bool) (op : rs_op) : M rset rs_out :=
  match op with
  | OpAdd s e => let! rc := rangeset_add_range mem s e in ret (ORc rc)
  | OpRemove s e => let! rc := rangeset_remove_range mem s e in ret (ORc rc)
  | OpContains s e => let! b := rangeset_contains_range s e in ret (OBool b)
  | OpOverlaps s e => let! b := rangeset_overlaps_range s e in ret (OBool b)
  | OpReport s e => let! r := gets id in ret (ORanges (rangeset_report_ranges note r s e []).2)
  | OpIsEmpty => let! r := gets id in ret (OBool (rangeset_is_empty r))
  end.

(** What it means for a set [P] of integers that becomes [P']. *)
Definition set_step (mem : bool) (op : rs_op) (P P' : Z -> Prop) (out : rs_out) : Prop :=
  match op, out with
  | OpAdd s e, ORc rc =>
      (rc = 0 /\ forall z, P' z <-> P z \/ s <= z <= e)
      \/ (mem = false /\ rc = - ENOMEM /\ forall z, P' z <-> P z)
  | OpRemove s e, ORc rc =>
      (rc = 0 /\ forall z, P' z <-> P z /\ ~ (s <= z <= e))
      \/ (mem = false /\ rc = - ENOMEM /\ forall z, P' z <-> P z)
  | OpContains s e, OBool b => (forall z, P' z <-> P z) /\ (b = true <-> forall z, s <= z <= e -> P z)
  | OpOverlaps s e, OBool b => (forall z, P' z <-> P z) /\ (b = true <-> exists z, s <= z <= e /\ P z)
  | OpReport s e, ORanges l =>
      (forall z, P' z <-> P z)
      /\ (forall z, (exists a b, (a, b) ∈ l /\ a <= z <= b) <-> P z /\ s <= z <= e)
      /\ StronglySorted (fun x y => x.2 + 1 < y.1) l
  | OpIsEmpty, OBool b => (forall z, P' z <-> P z) /\ (b = true <-> forall z, ~ P z)
  | _, _ => False
  end.

(** The arguments each operation is right for: a range of unsigned numbers; for a removal
    moreover that no block of the set begins strictly inside the range, or that its end is
    not the largest number and its start is in the set or below all of it; for a report,
    that the set has an element up to [s]. *)
Definition op_ok (op : rs_op) (P : Z -> Prop) : Prop :=
  match op with
  | OpAdd s e => 0 <= s <= e /\ e <= ULONG_MAX
  | OpRemove s e =>
      0 <= s <= e /\ e <= ULONG_MAX
      /\ ((forall z, s < z <= e -> P z -> P (z - 1)) \/ (e < ULONG_MAX /\ (P s \/ forall z, z < s -> ~ P z)))
  | OpContains s e | OpOverlaps s e => 0 <= s <= e
  | OpReport s e => 0 <= s <= e /\ exists z, z <= s /\ P z
  | OpIsEmpty => True
  end.

Lemma removable_of_set s e r : rset_wf r -> op_ok (OpRemove s e) (has r) -> removable s e r.
Proof.
  intros [Hok Hsrt] (Hse & He & [H|[He' H]]).
  - left. intros b Hb Hbs. pose proof Hok as Hok'. rewrite Forall_forall in Hok'. specialize (Hok' b Hb) as Hbok. unfold range_ok in Hbok.
    destruct (H (rg_s b) Hbs) as (c & Hc & Hcz); [by exists b; split; [|lia]|].
    destruct (sorted_compare before r b c Hsrt Hb Hc) as [->|[H1|H1]]; unfold before in *; lia.
  - right. split; [done|]. destruct H as [H|H]; [by left|]. right. intros b Hb.
    rewrite Forall_forall in Hok. specialize (Hok b Hb) as Hbok. unfold range_ok in Hbok.
    destruct (Z.le_gt_cases s (rg_s b)); [done|]. destruct (H (rg_s b)); [lia|]. by exists b; split; [|lia].
Qed.

Lemma call_each_note l c : call_each note l c = (0, c ++ l).
Proof.
  revert c. induction l as [|[a b] l IH]; intros c; simpl; [by rewrite app_nil_r|]. by rewrite IH, <- app_assoc.
Qed.

Lemma clips_sorted s e r : rset_wf r -> StronglySorted (fun x y => x.2 + 1 < y.1) (clips s e r).
Proof.
  intros [_ Hs]. apply (sorted_fmap before); [|by apply sorted_filter]. intros x y _ _ H. unfold before in H. simpl. lia.
Qed.

Lemma is_empty_spec r : rset_wf r -> rangeset_is_empty r = true <-> forall z, ~ has r z.
Proof.
  intros [Hok _]. destruct r as [|x r]; simpl; split; try done.
  - intros _ z. by intros H%has_nil.
  - intros H. inversion Hok as [|? ? Hx]; subst. destruct (H (rg_s x)). rewrite has_cons. unfold range_ok in Hx. lia.
Qed.

(** C24: range sets are sets. Under the invariant that the ranges are ascending, disjoint and
    not adjacent, every operation terminates without an error, keeps the invariant, and does
    to the set of integers the list stands for what its name says, or reports that memory
    ran out and changes nothing; queries give the exact answer, and a report gives disjoint
    ascending ranges that are exactly the part of the set inside the interval. *)
Theorem rangeset_refines_set mem op r :
  rset_wf r -> op_ok op (has r) ->
  exists out r', rs_exec mem op r = Ok (out, r') /\ rset_wf r' /\ set_step mem op (has r) (has r') out.
Proof.
  intros Hwf Hok. apply wp_total. unfold rs_exec. destruct op as [s e|s e|s e|s e|s e|]; simpl in Hok; wp_step.
  - eapply wp_mono; [apply rangeset_add_range_spec; tauto|]. intros rc r' [(-> & Hwf' & Hset)|(-> & -> & ->)]; wp_step; (split; [done|]);
      [by left|right; by split_and!].
  - eapply wp_mono; [apply rangeset_remove_range_spec; [tauto..|by apply removable_of_set]|].
    intros rc r' [(-> & Hwf' & Hset)|(-> & -> & ->)]; wp_step; (split; [done|]); [by left|right; by split_and!].
  - eapply wp_mono; [by apply contains_spec|]. intros b r' [-> Hb]. by wp_step.
  - eapply wp_mono; [by apply overlaps_spec|]. intros b r' [-> Hb]. by wp_step.
  - wp_step. wp_step. destruct Hok as (Hse & z & Hz & b & Hb & Hbz). split; [done|]. unfold id. split; [done|].
    rewrite report_spec, call_each_note; [|done|done|by exists b; split; [|lia]]. split; [apply clips_set|by apply clips_sorted].
  - wp_step. wp_step. split; [done|]. split; [done|]. by apply is_empty_spec.
Qed.

Definition sim_rset : rset := [Range 0 31; Range 34 95].

Lemma rangeset_refines_set_witness :
  rs_exec true (OpRemove 20 40) sim_rset = Ok (ORc 0, [Range 0 19; Range 41 95])
  /\ exists out r', rs_exec true (OpRemove 20 40) sim_rset = Ok (out, r') /\ rset_wf r'
       /\ set_step true (OpRemove 20 40) (has sim_rset) (has r') out.
Proof.
  split; [reflexivity|]. apply (rangeset_refines_set true (OpRemove 20 40) sim_rset).
  - unfold sim_rset, rset_wf, range_ok, ULONG_MAX. split; repeat constructor; simpl; lia.
  - unfold ULONG_MAX. simpl. unfold ULONG_MAX. split_and!; [lia..|]. right. split; [lia|]. left.
    exists (Range 0 31). split; [by left|simpl; lia].
Defined.

(** ** Owners *)

(** The lists of the domains hold, without repetition, exactly the rangesets they own. *)
Definition owners_wf (w : rs_world) : Prop :=
  forall d l, w_rangesets w !! d = Some l ->
    NoDup l /\ forall p, p ∈ l <-> exists o, w_sets w !! p = Some o /\ rs_domain o = Some d.

(** The loop of [rangeset_domain_destroy] on what is left of the list. *)
Lemma domain_destroy_frees d w l :
  owners_wf w -> w_rangesets w !! d = Some l ->
  wp no_error (rangeset_domain_destroy d) (fun _ w' =>
    w_rangesets w' = <[d := []]> (w_rangesets w) /\ forall p, w_sets w' !! p = if decide (p ∈ l) then None else w_sets w !! p) w.
Proof.
  intros Hwf Hl. destruct (Hwf d l Hl) as [Hnd Hown]. unfold rangeset_domain_destroy. wp_step. cbn beta. wp_step. unfold id. rewrite Hl. simpl.
  apply (wp_for_each _ (fun pre w' => exists post, l = pre ++ post /\ w_rangesets w' = <[d := post]> (w_rangesets w)
    /\ forall p, w_sets w' !! p = if decide (p ∈ pre) then None else w_sets w !! p)).
  - exists l. split_and!; [done| |done]. symmetry. by apply insert_id.
  - intros pre p post w1 -> (post' & E & Hr & Hs). apply app_inv_head in E as <-.
    apply NoDup_app in Hnd as (_ & Hdis & [Hp Hnd]%NoDup_cons). assert (p ∉ pre) as Hpre by set_solver.
    destruct (proj1 (Hown p)) as (o & Ho & Hd); [set_solver|].
    wp_step. wp_step. wp_step. eapply wp_of_option; [unfold id; rewrite Hs, decide_False by done; done|].
    rewrite decide_True by done. wp_step. wp_step. wp_step. wp_step. unfold rangeset_destroy. wp_step. wp_step.
    wp_step. eapply wp_of_option; [apply lookup_insert_eq|]. wp_step. exists post. simpl. split_and!.
    + by rewrite <- app_assoc.
    + rewrite Hr, alter_insert_eq. f_equal. unfold list_del. rewrite filter_cons_False by tauto.
      apply filter_all. intros q Hq ->. done.
    + intros q. destruct (decide (q = p)) as [->|Hq].
      * rewrite lookup_delete_eq, decide_True by set_solver. done.
      * rewrite lookup_delete_ne, lookup_insert_ne, Hs by done. by destruct (decide (q ∈ pre)), (decide (q ∈ pre ++ [p])); set_solver.
  - intros w' (post & E & Hr & Hs). assert (post = []) as -> by (apply (app_inv_head l); by rewrite app_nil_r). done.
Qed.

(** ** Removals and reports the code gets wrong *)

(** When the range found for [s] ends below [s] and another one starts before [e], the first
    is extended up to [s - 1]: the removal adds numbers to the set. *)
Lemma remove_range_adds :
  rangeset_remove_range true 33 40 [Range 0 31; Range 34 95] = Ok (0, [Range 0 32; Range 41 95]).
Proof. reflexivity. Qed.

(** A removal up to the largest number wraps: the last range is extended down to 0. *)
Lemma remove_range_wraps :
  rangeset_remove_range true 10 ULONG_MAX [Range 10 31; Range 34 95] = Ok (0, [Range 0 95]).
Proof. reflexivity. Qed.
