(* ===== verification/Heap.v ===== *)
(** * Heaps in arrays

    Exchanges of two elements of a list, and the order of a binary heap in which the children
    of [p] are [2p] and [2p + 1], with an element that sinks or rises to its place. Used by
    the sort, where the root is 0, and by the timers, where it is 1. *)

From S2P Require Import Prelude.

(** A total preorder: [ge x y] is the order of a parent and its child. *)
Class HeapOrder {A} (ge : A -> A -> Prop) : Prop := {
  ge_refl x : ge x x;
  ge_trans x y z : ge x y -> ge y z -> ge x z;
  ge_total x y : ~ ge x y -> ge y x
}.

Section Exchange.
Context {A : Type} `{Inhabited A}.
Implicit Types l : list A.

Definition exchange l (i j : nat) : list A := <[j := l !!! i]> (<[i := l !!! j]> l).

Lemma exchange_length l i j : length (exchange l i j) = length l.
Proof. unfold exchange. by rewrite !length_insert. Qed.

Lemma exchange_perm l i j : (i < length l)%nat -> (j < length l)%nat -> exchange l i j ≡ₚ l.
Proof. intros Hi Hj. apply Permutation_insert_swap; apply list_lookup_lookup_total_lt; lia. Qed.

Lemma exchange_at l i j k :
  (i < length l)%nat -> (j < length l)%nat ->
  exchange l i j !!! k = if decide (k = j) then l !!! i else if decide (k = i) then l !!! j else l !!! k.
Proof.
  intros Hi Hj. unfold exchange. destruct (decide (k = j)) as [->|].
  { by rewrite list_lookup_total_insert_eq by (rewrite length_insert; lia). }
  rewrite list_lookup_total_insert_ne by done. destruct (decide (k = i)) as [->|].
  - by rewrite list_lookup_total_insert_eq.
  - by rewrite list_lookup_total_insert_ne.
Qed.

Lemma exchange_above l i j n : (i < n)%nat -> (j < n)%nat -> drop n (exchange l i j) = drop n l.
Proof. intros. unfold exchange. by rewrite !drop_insert_lt by lia. Qed.

End Exchange.

Section Heap.
Context {A : Type} `{Inhabited A} (ge : A -> A -> Prop) {HO : HeapOrder ge}.
Implicit Types l : list A.

Definition child (p c : nat) : Prop := (c = 2 * p \/ c = 2 * p + 1)%nat /\ (0 < c)%nat.

(** The elements from [k] on are not smaller than their children below [n]. *)
Definition heap (k n : nat) l : Prop :=
  forall p c, (k <= p)%nat -> child p c -> (c < n)%nat -> ge (l !!! p) (l !!! c).

(** A heap except at [p], whose children fit under its parent. *)
Record sinking (k n p : nat) l : Prop := {
  sk_from : (k <= p)%nat;
  sk_heap q c : (k <= q)%nat -> q <> p -> child q c -> (c < n)%nat -> ge (l !!! q) (l !!! c);
  sk_grand q c : (k <= q)%nat -> child q p -> child p c -> (c < n)%nat -> ge (l !!! q) (l !!! c)
}.

Lemma heap_sinking k n l : heap (S k) n l -> sinking k n k l.
Proof.
  intros Hh. split; [done| |].
  - intros q c Hq Hne. apply Hh. lia.
  - intros q c Hq [Hqk Hk] Hc Hn. destruct (decide (q = k)) as [->|]; [|by unfold child in *; lia].
    unfold child in *. lia.
Qed.

(** One round: the largest child [c] of [p] is exchanged with [p]. *)
Lemma sinking_step k n p c l :
  (n <= length l)%nat -> sinking k n p l -> child p c -> (c < n)%nat ->
  (forall d, child p d -> (d < n)%nat -> ge (l !!! c) (l !!! d)) -> ge (l !!! c) (l !!! p) ->
  sinking k n c (exchange l p c).
Proof.
  intros Hn [Hkp Hh Hg] Hpc Hc Hmax Hlt. assert (p < c)%nat by (unfold child in *; lia).
  split; [lia| |]; intros q d Hkq.
  - intros Hqc Hqd Hd. rewrite !exchange_at by lia. repeat case_decide; subst; try done; try by (unfold child in *; lia).
    + by apply Hmax.
    + by apply Hg.
    + by apply Hh.
  - intros Hqc Hcd Hd. assert (q = p) as -> by (unfold child in *; lia). rewrite !exchange_at by lia.
    rewrite !(decide_False (P := _ = c)), (decide_False (P := d = p)), decide_True by (unfold child in *; lia || done).
    apply Hh; [lia|unfold child in *; lia|done..].
Qed.

(** Nothing more to do at [p]. *)
Lemma sinking_done k n p l :
  sinking k n p l -> (forall c, child p c -> (c < n)%nat -> ge (l !!! p) (l !!! c)) -> heap k n l.
Proof. intros [Hkp Hh _] Hp q c Hq Hqc Hc. destruct (decide (q = p)) as [->|]; [by apply Hp|by apply Hh]. Qed.

(** A heap except between [p] and its parent, with the children of [p] under its parent. *)
Record rising (k n p : nat) l : Prop := {
  rs_from : (k <= p)%nat;
  rs_heap q c : (k <= q)%nat -> child q c -> c <> p -> (c < n)%nat -> ge (l !!! q) (l !!! c);
  rs_grand q c : (k <= q)%nat -> child q p -> child p c -> (c < n)%nat -> ge (l !!! q) (l !!! c)
}.

Lemma rising_step k n p q l :
  (n <= length l)%nat -> (p < n)%nat -> rising k n p l -> (k <= q)%nat -> child q p -> ~ ge (l !!! q) (l !!! p) ->
  rising k n q (exchange l p q).
Proof.
  intros Hn Hp [Hkp Hh Hg] Hkq Hqp Hlt. assert (q < p)%nat by (unfold child in *; lia).
  split; [done| |]; intros r c Hkr.
  - intros Hrc Hcq Hc. rewrite !exchange_at by lia. repeat case_decide; subst; try done; try by (unfold child in *; lia).
    + by apply ge_total.
    + eapply ge_trans; [by apply ge_total|]. by apply Hh.
    + by apply Hg.
    + by apply Hh.
  - intros Hrq Hqc Hc. rewrite !exchange_at by lia. assert (r <> q /\ r <> p /\ c <> q) as (? & ? & ?) by (unfold child in *; lia).
    rewrite !(decide_False (P := _ = q)), (decide_False (P := r = p)) by done.
    assert (ge (l !!! r) (l !!! q)) by (apply Hh; try done; lia).
    case_decide; [done|]. eapply ge_trans; [done|]. by apply Hh.
Qed.

Lemma rising_done k n p l :
  rising k n p l -> (forall q, (k <= q)%nat -> child q p -> ge (l !!! q) (l !!! p)) -> heap k n l.
Proof. intros [Hkp Hh _] Hp q c Hq Hqc Hc. destruct (decide (c = p)) as [->|]; [by apply Hp|by apply Hh]. Qed.

(** A new last element rises. *)
Lemma heap_rising k n l : (k <= n)%nat -> heap k n l -> rising k (S n) n l.
Proof.
  intros Hk Hh. split; [done| |].
  - intros q c Hq Hqc Hcn Hc. apply Hh; try done. lia.
  - intros q c Hq Hqp Hpc Hc. unfold child in *. lia.
Qed.

(** Replacing an element of a heap: it rises or sinks. *)
Lemma heap_replace k n p x l :
  (p < n)%nat -> (n <= length l)%nat -> (k <= p)%nat -> heap k n l ->
  (forall q, (k <= q)%nat -> child q p -> ge (l !!! q) x) -> sinking k n p (<[p := x]> l).
Proof.
  intros Hp Hn Hk Hh Hx. split; [done| |]; intros q c Hq.
  - intros Hqp Hqc Hc. rewrite (list_lookup_total_insert_ne _ p q) by done. destruct (decide (c = p)) as [->|].
    + rewrite list_lookup_total_insert_eq by lia. by apply Hx.
    + rewrite list_lookup_total_insert_ne by done. by apply Hh.
  - intros Hqp Hpc Hc. rewrite !list_lookup_total_insert_ne by (unfold child in *; lia).
    eapply ge_trans; [apply Hh; try done; lia|by apply Hh].
Qed.
Lemma heap_replace_up k n p q x l :
  (p < n)%nat -> (n <= length l)%nat -> (k <= q)%nat -> child q p -> heap k n l -> ge x (l !!! q) ->
  rising k n p (<[p := x]> l).
Proof.
  intros Hp Hn Hk Hqp Hh Hx. assert (q < p)%nat by (unfold child in *; lia). split; [lia| |]; intros r c Hr.
  - intros Hrc Hcp Hc. rewrite (list_lookup_total_insert_ne _ p c) by done. destruct (decide (r = p)) as [->|].
    + rewrite list_lookup_total_insert_eq by lia. eapply ge_trans; [done|]. eapply ge_trans; [apply (Hh q p); try done; lia|by apply Hh].
    + rewrite list_lookup_total_insert_ne by done. by apply Hh.
  - intros Hrp Hpc Hc. rewrite !list_lookup_total_insert_ne by (unfold child in *; lia).
    eapply ge_trans; [apply (Hh r p); try done; lia|apply Hh; try done; lia].
Qed.

(** A heap without its last element. *)
Lemma heap_shorter k n m l : (m <= n)%nat -> heap k n l -> heap k m l.
Proof. intros Hm Hh p c Hp Hc Hcm. apply Hh; try done. lia. Qed.

(** The first element is the largest. *)
Lemma top_max k n l i : (k <= 1)%nat -> (k <= i)%nat -> heap k n l -> (i < n)%nat -> ge (l !!! k) (l !!! i).
Proof.
  intros Hk Hki Hh. revert Hki. induction (lt_wf i) as [i _ IH]. intros Hki Hi. destruct (decide (i = k)%nat) as [->|Hi0]; [apply ge_refl|].
  pose proof (Nat.div_mod_eq i 2). pose proof (Nat.mod_upper_bound i 2).
  eapply ge_trans; [apply (IH (i / 2)%nat); lia|]. apply Hh; [lia|unfold child; lia|done].
Qed.
End Heap.
