(* ===== verification/Sort.v ===== *)
(** * The sort of the hypervisor

    [src/xen/common/sort.c]: a heapsort on an array of elements of [size] bytes, with a
    comparison function of the caller. The counters are byte offsets, multiples of [size];
    the children of the element [r] are [2r] and [2r + 1] with the first element at 0, so the
    root has one child besides itself. *)

From S2P Require Import Prelude.
From S2P Require Import Xen.
From S2P Require Import Heap.

(** [int] arithmetic. *)
Definition s32 (x : Z) : Z := (x + 2147483648) mod 4294967296 - 2147483648.

Lemma s32_small x : -2147483648 <= x < 2147483648 -> s32 x = x.
Proof. unfold s32. zlia. Qed.

(** ** Swapping

    [u32_swap] exchanges two words, [generic_swap] exchanges [size] bytes one by one. *)

Definition u32_swap (a b : Z) : Z * Z := let t := a in let a := b in let b := t in (a, b).

(** The bytes from [a] and [b] on; [k] more rounds follow the first one. *)
Fixpoint generic_swap (k : nat) (a b : list Z) : option (list Z * list Z) :=
  match a, b with
  | x :: a, y :: b =>
      r ← match k with O => Some (a, b) | S k => generic_swap k a b end;
      Some (y :: r.1, x :: r.2)
  | _, _ => None
  end.

(** ** Sorting

    The state is the array; an element is known by its offset. *)

Section Sort.
Context {A : Type} (size : Z) (cmp : A -> A -> Z).

Definition elem_at (off : Z) : M (list A) A :=
  fun l => of_option OutOfBounds (if 0 <=? off then l !! Z.to_nat (off / size) else None) l.

Definition swap (a b : Z) : M (list A) unit :=
  let! x := elem_at a in
  let! y := elem_at b in
  modify (fun l => <[Z.to_nat (b / size) := x]> (<[Z.to_nat (a / size) := y]> l)).

(** The inner loop: [for (; r * 2 < n; r = c)]. Every round but those that stay at the root
    doubles [r], so [fuel] can be the number of elements. *)
Fixpoint sift (fuel : nat) (n r : Z) : M (list A) unit :=
  match fuel with
  | O => fail OutOfFuel
  | S fuel =>
      if s32 (r * 2) <? n then
        let c := s32 (r * 2) in
        let! less :=
          (if c <? n - size then
             let! x := elem_at c in let! y := elem_at (c + size) in ret (cmp x y <? 0)
           else ret false) in
        let c := if less : bool then c + size else c in
        let! x := elem_at r in
        let! y := elem_at c in
        if 0 <=? cmp x y then ret tt else swap r c ;;; sift fuel n c
      else ret tt
  end.

(** [for (; i >= 0; i -= size)] from [i = k * size]. *)
Fixpoint heapify (fuel : nat) (n : Z) (k : nat) : M (list A) unit :=
  sift fuel n (Z.of_nat k * size) ;;;
  match k with O => ret tt | S k => heapify fuel n k end.

(** The same from [i = (k - 1) * size]; no round for [k = 0]. *)
Fixpoint extract (fuel : nat) (k : nat) : M (list A) unit :=
  match k with
  | O => ret tt
  | S k =>
      let i := Z.of_nat k * size in
      swap 0 i ;;; sift fuel i 0 ;;; extract fuel k
  end.

Definition sort (num : nat) : M (list A) unit :=
  let n := s32 (Z.of_nat num * size) in
  heapify (S num) n (num / 2) ;;;
  extract (S num) num.

End Sort.

(** ** The swaps exchange *)

Lemma generic_swap_spec k a b ra rb :
  length a = S k -> length b = S k -> generic_swap k (a ++ ra) (b ++ rb) = Some (b ++ ra, a ++ rb).
Proof.
  revert a b. induction k as [|k IH]; intros [|x a] [|y b] Ha Hb; simplify_eq/=.
  - by destruct a, b.
  - by rewrite IH.
Qed.

(** ** The array by index *)

Section Correct.
Context {A : Type} `{Inhabited A} (size : Z) (cmp : A -> A -> Z) (Hsize : 0 < size).
Implicit Types l : list A.

(** What a comparison function promises: a total preorder. *)
Class Comparison : Prop := {
  cmp_total x y : cmp x y < 0 -> 0 <= cmp y x;
  cmp_trans x y z : 0 <= cmp x y -> 0 <= cmp y z -> 0 <= cmp x z
}.
Context {HC : Comparison}.

Definition ge (x y : A) : Prop := 0 <= cmp x y.

#[local] Instance ge_order : HeapOrder ge.
Proof.
  split; unfold ge.
  - intros x. pose proof (cmp_total x x). lia.
  - apply cmp_trans.
  - intros x y. pose proof (cmp_total x y). lia.
Qed.

Lemma offset_index i : Z.to_nat (Z.of_nat i * size / size) = i.
Proof. rewrite Z.div_mul by lia. apply Nat2Z.id. Qed.

Lemma wp_elem_at i off l (Q : A -> list A -> Prop) :
  off = Z.of_nat i * size -> (i < length l)%nat -> Q (l !!! i) l -> wp no_error (elem_at size off) Q l.
Proof.
  intros -> Hi HQ. unfold wp, elem_at, of_option. destruct (Z.leb_spec 0 (Z.of_nat i * size)); [|lia].
  rewrite offset_index. by rewrite (list_lookup_lookup_total_lt l i).
Qed.

Lemma wp_swap i j a b l (Q : unit -> list A -> Prop) :
  a = Z.of_nat i * size -> b = Z.of_nat j * size -> (i < length l)%nat -> (j < length l)%nat ->
  Q tt (exchange l i j) -> wp no_error (swap size a b) Q l.
Proof.
  intros -> -> Hi Hj HQ. unfold swap. wp_step. eapply wp_elem_at; [done..|]. wp_step. eapply wp_elem_at; [done..|].
  wp_step. by rewrite !offset_index.
Qed.

Lemma sift_spec fuel k n p l :
  (n <= length l)%nat -> Z.of_nat n * size < 2 ^ 30 -> (p <= n)%nat -> (n - p < fuel)%nat -> sinking ge k n p l ->
  wp no_error (sift size cmp fuel (Z.of_nat n * size) (Z.of_nat p * size))
    (fun _ l' => heap ge k n l' /\ l' ≡ₚ l /\ drop n l' = drop n l) l.
Proof.
  revert p l. induction fuel as [|fuel IH]; intros p l Hn Hsz Hp Hf Hs; [lia|]. cbn [sift].
  assert (s32 (Z.of_nat p * size * 2) = Z.of_nat (2 * p) * size) as ->.
  { rewrite s32_small by (pow2; nia). nia. }
  destruct (Z.ltb_spec (Z.of_nat (2 * p) * size) (Z.of_nat n * size)) as [Hlt|Hge].
  2: { wp_step. split_and!; try done. apply (sinking_done ge k n p); [done|]. intros c Hc Hcn.
       assert (n <= 2 * p)%nat by nia. unfold child in Hc. lia. }
  assert (2 * p < n)%nat as H2p by nia. wp_step. cbv zeta.
  apply (wp_mono _ _ (fun less l' => l' = l /\ let c := (if less : bool then 2 * p + 1 else 2 * p)%nat in
    (c < n)%nat /\ forall d, child p d -> (d < n)%nat -> ge (l !!! c) (l !!! d))).
  - destruct (Z.ltb_spec (Z.of_nat (2 * p) * size) (Z.of_nat n * size - size)).
    + assert (2 * p + 1 < n)%nat by nia. wp_step. apply (wp_elem_at (2 * p)); [done|lia|]. wp_step.
      apply (wp_elem_at (2 * p + 1)); [nia|lia|]. wp_step. split; [done|].
      pose proof (cmp_total (l !!! (2 * p)%nat) (l !!! (2 * p + 1)%nat)).
      case_if; bool_hyps; (split; [lia|]); intros d [[->| ->] _] _; try apply ge_refl; unfold ge; auto with lia.
    + wp_step. split; [done|]. split; [done|]. intros d [[->| ->] _] Hd; [apply ge_refl|nia].
  - intros less l' [-> [Hc Hmax]]. cbv zeta. set (c := (if less then 2 * p + 1 else 2 * p)%nat) in *.
    replace (if less then Z.of_nat (2 * p) * size + size else Z.of_nat (2 * p) * size) with (Z.of_nat c * size)
      by (unfold c; destruct less; nia).
    wp_step. apply (wp_elem_at p); [done|lia|]. wp_step. apply (wp_elem_at c); [done|lia|]. wp_step; bool_hyps.
    + wp_step. split_and!; try done. apply (sinking_done ge k n p); [done|]. intros d Hd Hdn. eapply ge_trans; [done|by apply Hmax].
    + assert (~ ge (l !!! p) (l !!! c)) as Hnge by (unfold ge; lia).
      assert (c <> p) as Hcp by (intros E; apply Hnge; rewrite E; apply ge_refl).
      assert (child p c) as Hpc by (unfold child, c in *; destruct less; lia).
      wp_step. apply (wp_swap p c); [done|done|lia|lia|].
      eapply wp_mono; [apply (IH c); rewrite ?exchange_length; [done|done|lia|unfold child in Hpc; lia|by apply (sinking_step ge); try apply ge_total]|].
      intros [] l' (Hh & Hperm & Hdrop). split_and!; [done| |].
      * rewrite Hperm. apply exchange_perm; lia.
      * rewrite Hdrop. apply exchange_above; lia.
Qed.

Lemma heapify_spec fuel k n l :
  (n <= length l)%nat -> Z.of_nat n * size < 2 ^ 30 -> (k <= n)%nat -> (n < fuel)%nat -> heap ge (S k) n l ->
  wp no_error (heapify size cmp fuel (Z.of_nat n * size) k) (fun _ l' => heap ge 0 n l' /\ l' ≡ₚ l) l.
Proof.
  revert l. induction k as [|k IH]; intros l Hn Hsz Hk Hf Hh; cbn [heapify]; wp_step.
  - eapply wp_mono; [apply (sift_spec fuel 0 n 0); [done..|lia|lia|by apply heap_sinking]|].
    intros [] l' (H1 & H2 & _). by wp_step.
  - eapply wp_mono; [apply (sift_spec fuel (S k) n (S k)); [done..|lia|by apply heap_sinking]|].
    intros [] l1 (H1 & H2 & _). eapply wp_mono; [apply IH; [by rewrite H2|done|lia|done..]|].
    intros [] l' [H3 H4]. split; [done|]. by rewrite H4.
Qed.

Lemma perm_take n l l' : l' ≡ₚ l -> drop n l' = drop n l -> take n l' ≡ₚ take n l.
Proof.
  intros Hp Hd. rewrite <- (take_drop n l), <- (take_drop n l'), Hd in Hp. by apply Permutation_app_inv_r in Hp.
Qed.

(** The last [length l - k] elements are in place. *)
Record sorted_from (k : nat) l : Prop := {
  sf_sorted : StronglySorted (fun x y => ge y x) (drop k l);
  sf_above x y : x ∈ take k l -> y ∈ drop k l -> ge y x
}.

Lemma extract_step k l l1 l2 :
  (k < length l)%nat -> heap ge 0 (S k) l -> sorted_from (S k) l ->
  l1 = exchange l 0 k -> l2 ≡ₚ l1 -> drop k l2 = drop k l1 -> sorted_from k l2.
Proof.
  intros Hk Hh [Hs Ha] -> Hp Hd.
  assert (drop k (exchange l 0 k) = (l !!! 0%nat) :: drop (S k) l) as Hk1.
  { rewrite (drop_S _ (l !!! 0%nat)); [by rewrite exchange_above by lia|].
    rewrite list_lookup_lookup_total_lt by (rewrite exchange_length; lia). rewrite exchange_at, decide_True by (done || lia). done. }
  assert (l !!! 0%nat ∈ take (S k) l) as H0.
  { apply list_elem_of_lookup. exists 0%nat. rewrite lookup_take_lt by lia. apply list_lookup_lookup_total_lt. lia. }
  assert (forall x, x ∈ take k l2 -> x ∈ take (S k) l) as Hin.
  { intros x Hx. rewrite (perm_take k _ _ Hp Hd) in Hx. apply list_elem_of_lookup in Hx as (i & Hi).
    apply lookup_take_Some in Hi as [Hi Hik]. apply list_lookup_total_correct in Hi. subst x. rewrite exchange_at by lia.
    rewrite decide_False by lia. apply list_elem_of_lookup. case_decide.
    - exists k. rewrite lookup_take_lt by lia. apply list_lookup_lookup_total_lt. lia.
    - exists i. rewrite lookup_take_lt by lia. apply list_lookup_lookup_total_lt. lia. }
  split; rewrite Hd, Hk1.
  - apply sorted_cons. split; [done|]. intros y Hy. by apply Ha.
  - intros x y Hx%Hin [->|Hy]%elem_of_cons; [|by apply Ha]. apply list_elem_of_lookup in Hx as (i & Hi).
    apply lookup_take_Some in Hi as [Hi Hik]. apply list_lookup_total_correct in Hi. subst x. eapply (top_max ge 0 (S k)); try done; lia.
Qed.

Lemma extract_spec fuel k l :
  (k <= length l)%nat -> Z.of_nat k * size < 2 ^ 30 -> (k < fuel)%nat -> heap ge 0 k l -> sorted_from k l ->
  wp no_error (extract size cmp fuel k) (fun _ l' => sorted_from 0 l' /\ l' ≡ₚ l) l.
Proof.
  revert l. induction k as [|k IH]; intros l Hk Hsz Hf Hh Hs; cbn [extract]; [by wp_step|]. cbv zeta.
  wp_step. apply (wp_swap 0 k); [lia|done|lia|lia|]. wp_step.
  assert (heap ge 1 k (exchange l 0 k)) as Hh1.
  { intros p c Hp Hc Hck. rewrite !exchange_at by lia. unfold child in Hc.
    rewrite !decide_False by lia. apply Hh; [lia|done|lia]. }
  eapply wp_mono; [apply (sift_spec fuel 0 k 0); rewrite ?exchange_length; [lia|nia|lia|lia|by apply heap_sinking]|].
  intros [] l2 (H1 & H2 & H3). assert (l2 ≡ₚ l) as Hp by (rewrite H2; apply exchange_perm; lia).
  eapply wp_mono; [apply IH; [rewrite Hp; lia|nia|lia|done|by eapply extract_step; try done; lia]|].
  intros [] l' [H4 H5]. split; [done|]. by rewrite H5.
Qed.

(** C40: the sort sorts. For an array of less than 2{^30} bytes, for which the counters do not
    overflow, and a comparison function that is a total preorder, [sort] terminates without
    an access outside the array; the result is an ascending permutation of the array. *)
Theorem sort_sorts l :
  Z.of_nat (length l) * size < 2 ^ 30 ->
  exists l', sort size cmp (length l) l = Ok (tt, l') /\ l' ≡ₚ l /\ StronglySorted (fun x y => ge y x) l'.
Proof.
  intros Hsz. cut (wp no_error (sort size cmp (length l)) (fun _ l' => l' ≡ₚ l /\ StronglySorted (fun x y => ge y x) l') l).
  { intros Hwp. destruct (wp_total _ _ _ Hwp) as ([] & l' & E & ? & ?). by exists l'. }
  unfold sort. cbv zeta. rewrite s32_small by (pow2; nia). wp_step. pose proof (Nat.div_mod_eq (length l) 2).
  pose proof (Nat.mod_upper_bound (length l) 2).
  eapply wp_mono; [apply heapify_spec; [done..|lia|lia|]|].
  { intros p c Hp Hc Hcn. unfold child in Hc. lia. }
  intros [] l1 [Hh Hp]. eapply wp_mono; [apply extract_spec; rewrite ?Hp; [lia|done|lia|done|]|].
  { rewrite <- Hp. split; rewrite drop_all; [constructor|]. intros x y _ Hy. by apply elem_of_nil in Hy. }
  intros [] l2 [[Hs _] Hp2]. rewrite drop_0 in Hs. split; [by rewrite Hp2|done].
Qed.
End Correct.

(** Words of four bytes, compared as integers. *)
Definition sim_cmp (x y : Z) : Z := x - y.

#[local] Instance sim_comparison : Comparison sim_cmp.
Proof. split; unfold sim_cmp; lia. Qed.

Lemma sort_sorts_witness :
  sort 4 sim_cmp 5 [4; 1; 3; 1; 5] = Ok (tt, [1; 1; 3; 4; 5])
  /\ exists l', sort 4 sim_cmp 5 [4; 1; 3; 1; 5] = Ok (tt, l') /\ l' ≡ₚ [4; 1; 3; 1; 5]
       /\ StronglySorted (fun x y => ge sim_cmp y x) l'.
Proof. split; [reflexivity|]. apply (sort_sorts 4 sim_cmp ltac:(lia) [4; 1; 3; 1; 5]). reflexivity. Defined.
