(* ===== verification/Timer.v ===== *)
(** * Timers of the hypervisor

    [src/xen/common/timer.c]: every processor keeps its active timers in a heap ordered by
    expiry time and, when the heap is full, in a sorted list. The file has the operations and
    the state; [TimerHeap], [TimerFacts] and [TimerOps] have the invariant and the lemmas on each
    operation, [TimerSoftirq] and [TimerCpu] the theorems. *)

From S2P Require Import Prelude.
From S2P Require Import Xen.

(** [s_time_t] arithmetic. *)
Definition s64 (x : Z) : Z := (x + 9223372036854775808) mod 18446744073709551616 - 9223372036854775808.

(** ** State *)

Inductive timer_status : Type :=
| TIMER_STATUS_invalid | TIMER_STATUS_inactive | TIMER_STATUS_killed
| TIMER_STATUS_in_heap | TIMER_STATUS_in_list.

#[export] Instance timer_status_eq_dec : EqDecision timer_status.
Proof. solve_decision. Defined.

Definition TIMER_CPU_status_killed : Z := 0xffff.
Definition STIME_MAX : Z := 9223372036854775807.

(** [struct timer]; [function] stands for the function pointer and its data. The members of
    the union other than [heap_offset] link the timer into [ts_list] and [ts_inactive]. *)
Record timer : Type := Timer {
  expires : Z;
  heap_offset : Z;
  function : Z;
  t_cpu : Z;
  status : timer_status
}.

(** [struct timers] of a processor. [ts_heap] is the used part of the array: its first
    element stands for the word with the size and the limit, and is never a timer, so the
    size is one less than the length. *)
Record timers : Type := Timers {
  ts_heap : list Z;
  heap_limit : Z;
  ts_list : list Z;
  running : option Z;
  ts_inactive : list Z
}.

(** All timers by address, the per-processor structures, the processors with a pending
    [TIMER_SOFTIRQ], the programmed deadlines. *)
Record tworld : Type := TWorld {
  tm : gmap Z timer;
  per_cpu : gmap Z timers;
  softirqs : gset Z;
  timer_deadline : gmap Z Z
}.

Definition set_expires (e : Z) (t : timer) : timer := Timer e (heap_offset t) (function t) (t_cpu t) (status t).
Definition set_offset (o : Z) (t : timer) : timer := Timer (expires t) o (function t) (t_cpu t) (status t).
Definition set_cpu (c : Z) (t : timer) : timer := Timer (expires t) (heap_offset t) (function t) c (status t).
Definition set_status (s : timer_status) (t : timer) : timer := Timer (expires t) (heap_offset t) (function t) (t_cpu t) s.

Definition set_heap (h : list Z) (ts : timers) : timers := Timers h (heap_limit ts) (ts_list ts) (running ts) (ts_inactive ts).
Definition set_limit (n : Z) (ts : timers) : timers := Timers (ts_heap ts) n (ts_list ts) (running ts) (ts_inactive ts).
Definition set_list (l : list Z) (ts : timers) : timers := Timers (ts_heap ts) (heap_limit ts) l (running ts) (ts_inactive ts).
Definition set_running (r : option Z) (ts : timers) : timers := Timers (ts_heap ts) (heap_limit ts) (ts_list ts) r (ts_inactive ts).
Definition set_inactive (l : list Z) (ts : timers) : timers := Timers (ts_heap ts) (heap_limit ts) (ts_list ts) (running ts) l.

Definition set_tm (m : gmap Z timer) (w : tworld) : tworld := TWorld m (per_cpu w) (softirqs w) (timer_deadline w).
Definition set_per_cpu (p : gmap Z timers) (w : tworld) : tworld := TWorld (tm w) p (softirqs w) (timer_deadline w).

(** ** The heap

    The heap operations work on the array of one processor and on the timers. *)

Record hstate : Type := HState { hs_heap : list Z; hs_tm : gmap Z timer }.

Definition heap_size (h : list Z) : nat := pred (length h).

(** [heap[pos]] for a position with a timer. *)
Definition heap_get (pos : nat) : M hstate Z :=
  fun s => of_option OutOfBounds (if (pos =? 0)%nat then None else hs_heap s !! pos) s.
Definition timer_get (t : Z) : M hstate timer := fun s => of_option UseAfterFree (hs_tm s !! t) s.
Definition expires_at (pos : nat) : M hstate Z :=
  let! t := heap_get pos in let! x := timer_get t in ret (expires x).

(** [heap[pos] = t; t->heap_offset = pos] *)
Definition heap_put (pos : nat) (t : Z) : M hstate unit :=
  let! h := gets hs_heap in
  (if decide (0 < pos < length h)%nat then ret tt else fail OutOfBounds) ;;;
  let! x := timer_get t in
  modify (fun s => HState (<[pos := t]> (hs_heap s)) (<[t := set_offset (Z.of_nat pos) x]> (hs_tm s))).

(** The loop doubles [pos], so the size of the heap bounds the rounds. *)
Fixpoint down_loop (fuel : nat) (sz pos : nat) (t : Z) : M hstate unit :=
  match fuel with
  | O => fail OutOfFuel
  | S fuel =>
      if (2 * pos <=? sz)%nat then
        let nxt := (2 * pos)%nat in
        let! right_less :=
          (if (nxt + 1 <=? sz)%nat then
             let! r := expires_at (nxt + 1) in let! l := expires_at nxt in ret (r <? l)
           else ret false) in
        let nxt := if right_less : bool then S nxt else nxt in
        let! e := expires_at nxt in
        let! x := timer_get t in
        if expires x <? e then heap_put pos t
        else let! c := heap_get nxt in heap_put pos c ;;; down_loop fuel sz nxt t
      else heap_put pos t
  end.
Definition down_heap (pos : nat) : M hstate unit :=
  let! h := gets hs_heap in
  let! t := heap_get pos in
  down_loop (length h) (heap_size h) pos t.

(** [pos] is halved in every round. *)
Fixpoint up_loop (fuel : nat) (pos : nat) (t : Z) : M hstate unit :=
  match fuel with
  | O => fail OutOfFuel
  | S fuel =>
      let! up :=
        (if (1 <? pos)%nat then
           let! x := timer_get t in let! e := expires_at (Nat.div2 pos) in ret (expires x <? e)
         else ret false) in
      if up : bool then let! p := heap_get (Nat.div2 pos) in heap_put pos p ;;; up_loop fuel (Nat.div2 pos) t
      else heap_put pos t
  end.
Definition up_heap (pos : nat) : M hstate unit :=
  let! t := heap_get pos in
  up_loop (S pos) pos t.

Definition remove_from_heap (t : Z) : M hstate bool :=
  let! h := gets hs_heap in
  let! x := timer_get t in
  let sz := heap_size h in
  let pos := Z.to_nat (heap_offset x) in
  if (pos =? sz)%nat then
    modify (fun s => HState (take sz (hs_heap s)) (hs_tm s)) ;;; ret (pos =? 1)%nat
  else
    let! last := heap_get sz in
    heap_put pos last ;;;
    modify (fun s => HState (take sz (hs_heap s)) (hs_tm s)) ;;;
    let! up :=
      (if (1 <? pos)%nat then
         let! e := expires_at pos in let! p := expires_at (Nat.div2 pos) in ret (e <? p)
       else ret false) in
    (if up : bool then up_heap pos else down_heap pos) ;;;
    ret (pos =? 1)%nat.

Definition add_to_heap (limit : Z) (t : Z) : M hstate bool :=
  let! h := gets hs_heap in
  let sz := heap_size h in
  if Z.of_nat sz =? limit then ret false
  else
    modify (fun s => HState (hs_heap s ++ [t]) (hs_tm s)) ;;;
    heap_put (S sz) t ;;;
    up_heap (S sz) ;;;
    let! x := timer_get t in
    ret (heap_offset x =? 1).

(** ** The processor's structures *)

Definition get_timer (t : Z) : M tworld timer := fun w => of_option UseAfterFree (tm w !! t) w.
Definition mod_timer (t : Z) (f : timer -> timer) : M tworld unit :=
  let! x := get_timer t in modify (fun w => set_tm (<[t := f x]> (tm w)) w).
Definition get_ts (cpu : Z) : M tworld timers := fun w => of_option NullDeref (per_cpu w !! cpu) w.
Definition mod_ts (cpu : Z) (f : timers -> timers) : M tworld unit :=
  let! ts := get_ts cpu in modify (fun w => set_per_cpu (<[cpu := f ts]> (per_cpu w)) w).

(** A heap operation on the heap of [cpu]. *)
Definition on_heap {A} (cpu : Z) (m : M hstate A) : M tworld A :=
  let! ts := get_ts cpu in
  zoom (fun w => HState (ts_heap ts) (tm w))
       (fun s w => set_tm (hs_tm s) (set_per_cpu (<[cpu := set_heap (hs_heap s) ts]> (per_cpu w)) w)) m.

(** ** The linked list *)

(** The search of [t]; the end of the list would be a null dereference. *)
Fixpoint list_remove (l : list Z) (t : Z) : option (list Z) :=
  match l with
  | [] => None
  | c :: l => if decide (c = t) then Some l else (c ::.) <$> list_remove l t
  end.
Definition remove_from_list (cpu t : Z) : M tworld bool :=
  let! ts := get_ts cpu in
  let! l := of_option NullDeref (list_remove (ts_list ts) t) in
  mod_ts cpu (set_list l) ;;;
  ret (bool_decide (head (ts_list ts) = Some t)).

(** [t] goes before the first timer that expires later. *)
Fixpoint list_insert (m : gmap Z timer) (e : Z) (t : Z) (l : list Z) : option (list Z) :=
  match l with
  | [] => Some [t]
  | c :: l' => x ← m !! c; if expires x <=? e then (c ::.) <$> list_insert m e t l' else Some (t :: l)
  end.
Definition add_to_list (cpu t : Z) : M tworld bool :=
  let! ts := get_ts cpu in
  let! x := get_timer t in
  let! l := (fun w => of_option UseAfterFree (list_insert (tm w) (expires x) t (ts_list ts)) w) in
  mod_ts cpu (set_list l) ;;;
  ret (bool_decide (head l = Some t)).

Definition list_del_ (t : Z) (l : list Z) : list Z := filter (fun u => u <> t) l.

(** ** Operations on timers *)

Definition remove_entry (t : Z) : M tworld bool :=
  let! x := get_timer t in
  let! rc := match status x with
             | TIMER_STATUS_in_heap => on_heap (t_cpu x) (remove_from_heap t)
             | TIMER_STATUS_in_list => remove_from_list (t_cpu x) t
             | _ => fail Abort
             end in
  mod_timer t (set_status TIMER_STATUS_invalid) ;;;
  ret rc.

Definition add_entry (t : Z) : M tworld bool :=
  let! x := get_timer t in
  assert_ (bool_decide (status x = TIMER_STATUS_invalid)) ;;;
  mod_timer t (fun x => set_status TIMER_STATUS_in_heap (set_offset 0 x)) ;;;
  let! ts := get_ts (t_cpu x) in
  let! rc := on_heap (t_cpu x) (add_to_heap (heap_limit ts) t) in
  let! x := get_timer t in
  if negb (heap_offset x =? 0) then ret rc
  else mod_timer t (set_status TIMER_STATUS_in_list) ;;; add_to_list (t_cpu x) t.

Definition cpu_raise_softirq (cpu : Z) : M tworld unit :=
  modify (fun w => TWorld (tm w) (per_cpu w) ({[cpu]} ∪ softirqs w) (timer_deadline w)).

Definition add_inactive (cpu t : Z) : M tworld unit :=
  mod_ts cpu (fun ts => set_inactive (t :: ts_inactive ts) ts).
Definition del_inactive (cpu t : Z) : M tworld unit :=
  mod_ts cpu (fun ts => set_inactive (list_del_ t (ts_inactive ts)) ts).

Definition activate_timer (t : Z) : M tworld unit :=
  let! x := get_timer t in
  assert_ (bool_decide (status x = TIMER_STATUS_inactive)) ;;;
  mod_timer t (set_status TIMER_STATUS_invalid) ;;;
  del_inactive (t_cpu x) t ;;;
  let! rc := add_entry t in
  when rc (cpu_raise_softirq (t_cpu x)).

Definition deactivate_timer (t : Z) : M tworld unit :=
  let! x := get_timer t in
  let! rc := remove_entry t in
  when rc (cpu_raise_softirq (t_cpu x)) ;;;
  mod_timer t (set_status TIMER_STATUS_inactive) ;;;
  add_inactive (t_cpu x) t.

(** [timer_lock] fails for a killed timer. *)
Definition timer_lock (t : Z) : M tworld bool :=
  let! x := get_timer t in ret (negb (t_cpu x =? TIMER_CPU_status_killed)).

Definition active_timer (t : Z) : M tworld bool :=
  let! x := get_timer t in
  match status x with
  | TIMER_STATUS_in_heap | TIMER_STATUS_in_list => ret true
  | TIMER_STATUS_inactive | TIMER_STATUS_killed => ret false
  | TIMER_STATUS_invalid => fail AssertFail
  end.

(** The timer gets the address [t]. *)
Definition init_timer (t fn cpu : Z) : M tworld unit :=
  modify (fun w => set_tm (<[t := Timer 0 0 fn cpu TIMER_STATUS_inactive]> (tm w)) w) ;;;
  let! locked := timer_lock t in
  (if locked : bool then ret tt else fail Abort) ;;;
  add_inactive cpu t.

Definition stop_timer (t : Z) : M tworld unit :=
  let! locked := timer_lock t in
  when locked (let! active := active_timer t in when active (deactivate_timer t)).

Definition set_timer (t e : Z) : M tworld unit :=
  let! locked := timer_lock t in
  when locked (
    (let! active := active_timer t in when active (deactivate_timer t)) ;;;
    mod_timer t (set_expires e) ;;;
    activate_timer t).

Definition migrate_timer (t new_cpu : Z) : M tworld unit :=
  let! x := get_timer t in
  let old_cpu := t_cpu x in
  when (negb ((old_cpu =? new_cpu) || (old_cpu =? TIMER_CPU_status_killed))) (
    let! active := active_timer t in
    when active (deactivate_timer t) ;;;
    del_inactive old_cpu t ;;;
    mod_timer t (set_cpu new_cpu) ;;;
    add_inactive new_cpu t ;;;
    when active (activate_timer t)).

(** [this] is the processor that runs the operation. The final loop waits until no processor
    runs the handler of [t]; it does not end if one does. *)
Definition kill_timer (this t : Z) : M tworld unit :=
  let! ts := get_ts this in
  (if decide (running ts = Some t) then fail Abort else ret tt) ;;;
  let! locked := timer_lock t in
  when locked (
    (let! active := active_timer t in when active (deactivate_timer t)) ;;;
    let! x := get_timer t in
    del_inactive (t_cpu x) t ;;;
    mod_timer t (fun x => set_cpu TIMER_CPU_status_killed (set_status TIMER_STATUS_killed x)) ;;;
    let! w := gets id in
    if forallb (fun ts => negb (bool_decide (running ts = Some t))) (map snd (map_to_list (per_cpu w)))
    then ret tt else fail OutOfFuel).

(** ** Expiry *)

(** Calls of the interface. *)
Inductive timer_op : Type :=
| OpInit (t fn cpu : Z) | OpSet (t e : Z) | OpStop (t : Z) | OpMigrate (t cpu : Z) | OpKill (this t : Z).

Definition run_op (o : timer_op) : M tworld unit :=
  match o with
  | OpInit t fn cpu => init_timer t fn cpu
  | OpSet t e => set_timer t e
  | OpStop t => stop_timer t
  | OpMigrate t cpu => migrate_timer t cpu
  | OpKill this t => kill_timer this t
  end.

Section Softirq.
(** [callback fn w]: the calls made, by the handler [fn] and by other processors, from the
    time the lock is dropped until it is taken again. *)
Context (callback : Z -> tworld -> list timer_op).

Definition execute_timer (cpu t : Z) : M tworld unit :=
  let! x := get_timer t in
  mod_timer t (set_status TIMER_STATUS_inactive) ;;;
  add_inactive cpu t ;;;
  mod_ts cpu (set_running (Some t)) ;;;
  let! w := gets id in
  for_each (callback (function x) w) run_op ;;;
  mod_ts cpu (set_running None).

(** The loops end when nothing is due; [fuel] bounds the number of handlers run. *)
Fixpoint run_heap (fuel : nat) (cpu now : Z) : M tworld unit :=
  match fuel with
  | O => fail OutOfFuel
  | S fuel =>
      let! ts := get_ts cpu in
      match ts_heap ts !! 1%nat with
      | None => ret tt
      | Some t =>
          let! x := get_timer t in
          if expires x <? now then
            on_heap cpu (remove_from_heap t) ;;; execute_timer cpu t ;;; run_heap fuel cpu now
          else ret tt
      end
  end.

Fixpoint run_list (fuel : nat) (cpu now : Z) : M tworld unit :=
  match fuel with
  | O => fail OutOfFuel
  | S fuel =>
      let! ts := get_ts cpu in
      match ts_list ts with
      | [] => ret tt
      | t :: l =>
          let! x := get_timer t in
          if expires x <? now then
            mod_ts cpu (set_list l) ;;; execute_timer cpu t ;;; run_list fuel cpu now
          else ret tt
      end
  end.

(** The list is moved to the heap as far as it has room. *)
Definition refill_heap (cpu : Z) : M tworld unit :=
  let! ts := get_ts cpu in
  mod_ts cpu (set_list []) ;;;
  for_each (ts_list ts) (fun t =>
    mod_timer t (set_status TIMER_STATUS_invalid) ;;; let! _ := add_entry t in ret tt).

Definition timer_slop : Z := 50000.

Definition next_deadline (cpu : Z) : M tworld Z :=
  let! ts := get_ts cpu in
  let! d := match ts_heap ts !! 1%nat with
            | None => ret STIME_MAX
            | Some t => let! x := get_timer t in ret (expires x)
            end in
  match ts_list ts with
  | [] => ret d
  | t :: _ => let! x := get_timer t in ret (if expires x <? d then expires x else d)
  end.

(** A larger heap for a processor that overflowed it; [mem] is the outcome of the
    allocation. The limits are 2{^n} - 1, kept in 16 bits. *)
Definition grow_heap (mem : bool) (cpu : Z) : M tworld unit :=
  let! ts := get_ts cpu in
  match ts_list ts with
  | [] => ret tt
  | _ :: _ => when mem (mod_ts cpu (set_limit (u16 (Z.shiftl (heap_limit ts + 1) 4 - 1))))
  end.

(** [programmed] is the result of [reprogram_timer]. *)
Definition timer_softirq_action (fuel : nat) (cpu now : Z) (mem programmed : bool) : M tworld unit :=
  grow_heap mem cpu ;;;
  run_heap fuel cpu now ;;;
  run_list fuel cpu now ;;;
  refill_heap cpu ;;;
  let! deadline := next_deadline cpu in
  let next := if deadline =? STIME_MAX then 0 else s64 (deadline + timer_slop) in
  modify (fun w => TWorld (tm w) (per_cpu w) (softirqs w) (<[cpu := next]> (timer_deadline w))) ;;;
  when (negb programmed) (cpu_raise_softirq cpu).
End Softirq.

(** ** Periodic timers *)

(** The operands are converted to [uint64_t]. *)
Definition align_timer (firsttick period : Z) : Z :=
  if period =? 0 then firsttick
  else s64 (u64 (u64 firsttick + u64 (period - 1) - u64 (firsttick - 1) mod period)).

(** ** Processors that come and go *)

(** Moves the active timers, the earliest of the heap first; each round takes one away. *)
Fixpoint migrate_active (fuel : nat) (old_cpu new_cpu : Z) (notify : bool) : M tworld bool :=
  match fuel with
  | O => fail OutOfFuel
  | S fuel =>
      let! ts := get_ts old_cpu in
      match (match ts_heap ts !! 1%nat with Some t => Some t | None => head (ts_list ts) end) with
      | None => ret notify
      | Some t =>
          let! _ := remove_entry t in
          mod_timer t (set_cpu new_cpu) ;;;
          let! rc := add_entry t in
          migrate_active fuel old_cpu new_cpu (notify || rc)
      end
  end.

Definition migrate_timers_from_cpu (old_cpu new_cpu : Z) : M tworld unit :=
  let! ts := get_ts old_cpu in
  let! notify := migrate_active (length (ts_heap ts) + length (ts_list ts)) old_cpu new_cpu false in
  let! ts := get_ts old_cpu in
  for_each (ts_inactive ts) (fun t =>
    del_inactive old_cpu t ;;; mod_timer t (set_cpu new_cpu) ;;; add_inactive new_cpu t) ;;;
  when notify (cpu_raise_softirq new_cpu).

Inductive cpu_action : Type := CPU_UP_PREPARE | CPU_UP_CANCELED | CPU_DEAD | CPU_OTHER.

(** A processor comes up with the shared dummy heap, of size and limit 0. [new_cpu] is the
    processor the timers of a dead one move to. *)
Definition cpu_callback (action : cpu_action) (cpu new_cpu : Z) : M tworld unit :=
  match action with
  | CPU_UP_PREPARE =>
      modify (fun w =>
        let old := default (Timers [] 0 [] None []) (per_cpu w !! cpu) in
        set_per_cpu (<[cpu := Timers [0] 0 (ts_list old) (running old) []]> (per_cpu w)) w)
  | CPU_UP_CANCELED | CPU_DEAD => migrate_timers_from_cpu cpu new_cpu
  | CPU_OTHER => ret tt
  end.

(** The state before the boot processor is prepared. *)
Definition no_timers : tworld := TWorld ∅ ∅ ∅ ∅.
Definition timer_init (cpu : Z) : result (unit * tworld) := cpu_callback CPU_UP_PREPARE cpu cpu no_timers.
