(* ===== verification/TimerHeap.v ===== *)
(** * The timer heap

    The heap operations of [Timer] keep the order of the heap and the offsets stored in the
    timers; adding and removing change the contents of the heap by one timer. *)

From S2P Require Import Prelude.
From S2P Require Import Xen.
From S2P Require Import Heap.
From S2P Require Import Timer.

(** ** Order and invariant *)

(** The expiry time of a timer by address. *)
Definition key (m : gmap Z timer) (t : Z) : Z := default 0 (expires <$> m !! t).
Definition earlier (m : gmap Z timer) (t u : Z) : Prop := key m t <= key m u.

#[export] Instance earlier_order m : HeapOrder (earlier m).
Proof. split; unfold earlier; intros; lia. Qed.

(** The timer at each position knows its position, and no parent expires later than a child. *)
Record heap_ok (h : list Z) (m : gmap Z timer) : Prop := HeapOk {
  ho_word : (0 < length h)%nat;
  ho_known i : (0 < i < length h)%nat -> exists x, m !! (h !!! i) = Some x /\ heap_offset x = Z.of_nat i;
  ho_order : heap (earlier m) 1 (length h) h
}.

(** The timers of a heap. *)
Definition members (h : list Z) : list Z := tail h.

Lemma members_at h t : t ∈ members h <-> exists i, (0 < i < length h)%nat /\ h !!! i = t.
Proof.
  unfold members. rewrite list_elem_of_lookup. destruct h as [|d h]; simpl.
  - split; [intros (i & Hi); done|intros (i & Hi & _); simpl in Hi; lia].
  - split.
    + intros (i & Hi). exists (S i). split; [apply lookup_lt_Some in Hi; lia|]. by apply list_lookup_total_correct.
    + intros (i & Hi & <-). exists (pred i). destruct i as [|i]; [lia|]. change ((d :: h) !!! S i) with (h !!! i).
      apply list_lookup_lookup_total_lt. simpl. lia.
Qed.

Lemma members_perm (h h' : list Z) :
  (0 < length h)%nat -> h' ≡ₚ h -> h' !! 0%nat = h !! 0%nat -> members h' ≡ₚ members h.
Proof.
  intros Hl Hp H0. destruct h as [|d h]; simpl in *; [lia|]. destruct h' as [|d' h']; simplify_eq/=.
  by apply Permutation_cons_inv in Hp.
Qed.

(** [m'] differs from [m] at most in the offsets of the timers in [s]. *)
Record offsets_only (s : list Z) (m m' : gmap Z timer) : Prop := {
  oo_same t : t ∉ s -> m' !! t = m !! t;
  oo_offset t x : m !! t = Some x -> exists o, m' !! t = Some (set_offset o x);
  oo_none t : m !! t = None -> m' !! t = None
}.

Lemma offsets_only_refl s m : offsets_only s m m.
Proof. split; [done| |done]. intros t [e o f c st] ->. by exists o. Qed.

Lemma offsets_only_trans s m1 m2 m3 : offsets_only s m1 m2 -> offsets_only s m2 m3 -> offsets_only s m1 m3.
Proof.
  intros [A1 A2 A3] [B1 B2 B3]. split; [|intros t x Hx|auto].
  - intros t Ht. by rewrite B1, A1.
  - destruct (A2 t x Hx) as (o & Ho). destruct (B2 t _ Ho) as (o' & ->). by exists o'.
Qed.

Lemma offsets_only_sub s s' m m' : (forall t, t ∈ s -> t ∈ s') -> offsets_only s m m' -> offsets_only s' m m'.
Proof. intros H [A1 A2 A3]. split; [|done|done]. intros t Ht. apply A1. auto. Qed.

Lemma offsets_only_key s m m' t : offsets_only s m m' -> key m' t = key m t.
Proof.
  intros [_ A2 A3]. unfold key. destruct (m !! t) as [x|] eqn:E; [|by rewrite A3].
  by destruct (A2 t x E) as (o & ->).
Qed.

Lemma offsets_only_put s m t x o : t ∈ s -> m !! t = Some x -> offsets_only s m (<[t := set_offset o x]> m).
Proof.
  intros Ht Hx. split.
  - intros u Hu. rewrite lookup_insert_ne; [done|]. by intros ->.
  - intros u y Hy. destruct (decide (u = t)) as [->|Hne].
    + exists o. rewrite lookup_insert_eq. congruence.
    + rewrite lookup_insert_ne by done. destruct y as [e o' f c st]. by exists o'.
  - intros u Hu. rewrite lookup_insert_ne; [done|]. intros ->. congruence.
Qed.

(** The order depends on the keys only. *)
Lemma heap_keys m m' k n (h : list Z) : (forall t, key m' t = key m t) -> heap (earlier m) k n h -> heap (earlier m') k n h.
Proof. intros Hk Hh p c Hp Hc Hn. unfold earlier. rewrite !Hk. by apply Hh. Qed.
Lemma sinking_keys m m' k n p (h : list Z) :
  (forall t, key m' t = key m t) -> sinking (earlier m) k n p h -> sinking (earlier m') k n p h.
Proof. intros Hk [A B C]. split; [done| |]; intros q c; unfold earlier; rewrite !Hk; [apply B|apply C]. Qed.
Lemma rising_keys m m' k n p (h : list Z) :
  (forall t, key m' t = key m t) -> rising (earlier m) k n p h -> rising (earlier m') k n p h.
Proof. intros Hk [A B C]. split; [done| |]; intros q c; unfold earlier; rewrite !Hk; [apply B|apply C]. Qed.

(** ** Placing a timer

    During the loops [t] is not in the array: the position [pos] is a hole. *)
Record placing (pos : nat) (t : Z) (h : list Z) (m : gmap Z timer) : Prop := Placing {
  pl_pos : (0 < pos < length h)%nat;
  pl_known : exists x, m !! t = Some x;
  pl_other i : (0 < i < length h)%nat -> i <> pos -> h !!! i <> t;
  pl_offset i : (0 < i < length h)%nat -> i <> pos -> exists x, m !! (h !!! i) = Some x /\ heap_offset x = Z.of_nat i
}.

(** The result of placing: the array with [t] in the hole, rearranged. *)
Definition placed (pos : nat) (t : Z) (h : list Z) (m : gmap Z timer) (s : hstate) : Prop :=
  heap_ok (hs_heap s) (hs_tm s) /\ hs_heap s ≡ₚ <[pos := t]> h /\ length (hs_heap s) = length h
  /\ hs_heap s !! 0%nat = h !! 0%nat /\ offsets_only (members (<[pos := t]> h)) m (hs_tm s).

Lemma wp_heap_get i h m (Q : Z -> hstate -> Prop) :
  (0 < i < length h)%nat -> Q (h !!! i) (HState h m) -> wp no_error (heap_get i) Q (HState h m).
Proof.
  intros Hi HQ. unfold wp, heap_get, of_option. destruct (Nat.eqb_spec i 0); [lia|]. simpl.
  by rewrite (list_lookup_lookup_total_lt h i) by lia.
Qed.

Lemma wp_timer_get t x h m (Q : timer -> hstate -> Prop) :
  m !! t = Some x -> Q x (HState h m) -> wp no_error (timer_get t) Q (HState h m).
Proof. intros Hx HQ. unfold wp, timer_get, of_option. simpl. by rewrite Hx. Qed.

Lemma wp_heap_put i t x h m (Q : unit -> hstate -> Prop) :
  (0 < i < length h)%nat -> m !! t = Some x ->
  Q tt (HState (<[i := t]> h) (<[t := set_offset (Z.of_nat i) x]> m)) -> wp no_error (heap_put i t) Q (HState h m).
Proof.
  intros Hi Hx HQ. unfold heap_put. wp_step. cbn beta. wp_step. wp_step. simpl. rewrite decide_True by done. wp_step.
  wp_step. eapply wp_timer_get; [done|]. by wp_step.
Qed.

Lemma wp_expires_at i x h m (Q : Z -> hstate -> Prop) :
  (0 < i < length h)%nat -> m !! (h !!! i) = Some x -> Q (key m (h !!! i)) (HState h m) -> wp no_error (expires_at i) Q (HState h m).
Proof.
  intros Hi Hx HQ. unfold expires_at. wp_step. apply wp_heap_get; [done|]. wp_step. eapply wp_timer_get; [done|]. wp_step.
  unfold key in HQ. by rewrite Hx in HQ.
Qed.

Section Placing.
Context (pos : nat) (t : Z) (h : list Z) (m : gmap Z timer) (HP : placing pos t h m).

Lemma placing_elem : t ∈ members (<[pos := t]> h).
Proof.
  destruct HP as [? _ _ _]. apply members_at. exists pos. rewrite length_insert. split; [lia|].
  apply list_lookup_total_insert_eq. lia.
Qed.

(** The hole is filled. *)
Lemma placing_finish (Q : unit -> hstate -> Prop) :
  heap (earlier m) 1 (length h) (<[pos := t]> h) -> (forall s, placed pos t h m s -> Q tt s) ->
  wp no_error (heap_put pos t) Q (HState h m).
Proof.
  destruct HP as [Hpos [x Hx] Hother Hoff]. intros Hh HQ. eapply wp_heap_put; [done..|]. apply HQ.
  assert (offsets_only (members (<[pos := t]> h)) m (<[t := set_offset (Z.of_nat pos) x]> m)) as Hoo
    by (apply offsets_only_put; [apply placing_elem|done]).
  split_and!; simpl; [|done|apply length_insert|by rewrite list_lookup_insert_ne by lia|done]. split.
  - rewrite length_insert. lia.
  - intros i. rewrite length_insert. intros Hi. destruct (decide (i = pos)) as [->|Hne].
    + rewrite list_lookup_total_insert_eq by lia. exists (set_offset (Z.of_nat pos) x). by rewrite lookup_insert_eq.
    + rewrite list_lookup_total_insert_ne by done. rewrite lookup_insert_ne; [by apply Hoff|]. intros E. by apply (Hother i).
  - rewrite length_insert. eapply heap_keys; [|done]. intros u. by eapply offsets_only_key.
Qed.

(** The timer at [nxt] moves into the hole. *)
Lemma placing_move nxt x :
  (0 < nxt < length h)%nat -> nxt <> pos -> m !! (h !!! nxt) = Some x ->
  let c := h !!! nxt in
  let h1 := <[pos := c]> h in
  let m1 := <[c := set_offset (Z.of_nat pos) x]> m in
  placing nxt t h1 m1 /\ <[nxt := t]> h1 = exchange (<[pos := t]> h) pos nxt /\ offsets_only (members (<[pos := t]> h)) m m1
  /\ (forall s, placed nxt t h1 m1 s -> placed pos t h m s).
Proof.
  destruct HP as [Hpos Hknown Hother Hoff]. intros Hn Hne Hx c h1 m1.
  assert (<[nxt := t]> h1 = exchange (<[pos := t]> h) pos nxt) as Hex.
  { unfold exchange. rewrite list_lookup_total_insert_eq, (list_lookup_total_insert_ne _ pos nxt) by (done || lia).
    unfold h1. by rewrite list_insert_insert_eq. }
  assert (c ∈ members (<[pos := t]> h)) as Hc.
  { apply members_at. exists nxt. rewrite length_insert. split; [lia|]. by apply list_lookup_total_insert_ne. }
  assert (offsets_only (members (<[pos := t]> h)) m m1) as Hoo by by apply offsets_only_put.
  assert (c <> t) as Hct by by apply Hother.
  split_and!; [|done|done|].
  - split; unfold h1; rewrite ?length_insert; [done| | |].
    + destruct Hknown as [y Hy]. exists y. unfold m1. by rewrite lookup_insert_ne.
    + intros i Hi Hin. destruct (decide (i = pos)) as [->|]; [by rewrite list_lookup_total_insert_eq by lia|].
      rewrite list_lookup_total_insert_ne by done. by apply Hother.
    + intros i Hi Hin. unfold m1. destruct (decide (i = pos)) as [->|].
      * rewrite list_lookup_total_insert_eq by lia. exists (set_offset (Z.of_nat pos) x). by rewrite lookup_insert_eq.
      * rewrite list_lookup_total_insert_ne by done. destruct (Hoff i Hi) as (y & Hy & Ho); [done|].
        exists y. rewrite lookup_insert_ne; [done|]. intros E. fold c in Hx. rewrite <- E in Hy.
        destruct (Hoff nxt Hn Hne) as (z & Hz & Hz'). fold c in Hz. assert (y = z) as -> by congruence. lia.
  - intros s (A & B & C & D & E). assert (<[nxt := t]> h1 ≡ₚ <[pos := t]> h) as Hp.
    { rewrite Hex. apply exchange_perm; rewrite length_insert; lia. }
    split_and!; [done|by rewrite B|by rewrite C; apply length_insert| |].
    + rewrite D. unfold h1. by rewrite list_lookup_insert_ne by lia.
    + eapply offsets_only_trans; [done|]. eapply offsets_only_sub; [|done]. intros u.
      rewrite (members_perm (<[pos := t]> h) (<[nxt := t]> h1)); [done|rewrite length_insert; lia|done|].
      unfold h1. by rewrite !list_lookup_insert_ne by lia.
Qed.
End Placing.

Lemma down_loop_spec fuel pos t h m sz (Q : unit -> hstate -> Prop) :
  placing pos t h m -> sz = heap_size h -> (length h - pos < fuel)%nat ->
  sinking (earlier m) 1 (length h) pos (<[pos := t]> h) -> (forall s, placed pos t h m s -> Q tt s) ->
  wp no_error (down_loop fuel sz pos t) Q (HState h m).
Proof.
  intros HP ->. revert pos h m HP Q. induction fuel as [|fuel IH]; intros pos h m HP Q Hf Hs HQ; [lia|].
  pose proof HP as [Hpos [x Hx] Hother Hoff]. cbn [down_loop]. unfold heap_size in *.
  destruct (Nat.leb_spec (2 * pos) (pred (length h))) as [H2|H2].
  2: { apply placing_finish; [done| |done]. eapply sinking_done; [done|]. intros c Hc Hcn. unfold child in Hc. lia. }
  cbv zeta. wp_step.
  apply (wp_mono _ _ (fun b s => s = HState h m /\ let c := (if b : bool then S (2 * pos) else 2 * pos)%nat in
    (c < length h)%nat /\ forall d, child pos d -> (d < length h)%nat -> earlier m (h !!! c) (h !!! d))).
  - destruct (Nat.leb_spec (2 * pos + 1) (pred (length h))).
    + destruct (Hoff (2 * pos)%nat) as (y & Hy & _); [lia..|]. destruct (Hoff (2 * pos + 1)%nat) as (z & Hz & _); [lia..|].
      wp_step. eapply wp_expires_at; [lia|done|]. wp_step. eapply wp_expires_at; [lia|done|]. wp_step. split; [done|].
      replace (S (2 * pos)) with (2 * pos + 1)%nat by lia.
      case_if; bool_hyps; (split; [lia|]); intros d [[->| ->] _] _; unfold earlier; lia.
    + wp_step. split; [done|]. cbv iota zeta. split; [lia|]. intros d [[->| ->] _] Hd; [unfold earlier; lia|lia].
  - intros b s [-> [Hc Hmax]]. cbv zeta. set (c := (if b then S (2 * pos) else 2 * pos)%nat) in *.
    assert (child pos c) as Hpc by (unfold child, c; destruct b; lia).
    assert (c <> pos /\ 0 < c)%nat as [Hcp Hc0] by (unfold child in Hpc; lia). destruct (Hoff c) as (y & Hy & _); [lia..|].
    wp_step. eapply wp_expires_at; [lia|done|]. wp_step. eapply wp_timer_get; [done|].
    assert (expires x = key m t) as -> by (unfold key; by rewrite Hx).
    assert (forall d, d <> pos -> (<[pos := t]> h) !!! d = h !!! d) as Hne by (intros d Hd; by rewrite list_lookup_total_insert_ne).
    assert ((<[pos := t]> h) !!! pos = t) as Heq by (apply list_lookup_total_insert_eq; lia).
    wp_step; bool_hyps.
    + apply placing_finish; [done| |done]. eapply sinking_done; [done|]. intros d Hd Hdn.
      rewrite Heq, Hne by (unfold child in Hd; lia). specialize (Hmax d Hd Hdn). unfold earlier in *. lia.
    + wp_step. apply wp_heap_get; [lia|]. wp_step. eapply wp_heap_put; [done..|].
      destruct (placing_move pos t h m HP c y) as (HP1 & Hex & Hoo & Hpl); [lia|done|done|].
      assert (pred (length h) = pred (length (<[pos := h !!! c]> h))) as -> by by rewrite length_insert.
      apply IH; [done|rewrite length_insert; unfold child in Hpc; lia| |intros s Hs'; by apply HQ, Hpl].
      rewrite Hex, length_insert. eapply sinking_keys; [intros u; by eapply offsets_only_key|].
      apply sinking_step; rewrite ?length_insert; try done.
      * intros d Hd Hdn. rewrite !Hne by (unfold child in *; lia). by apply Hmax.
      * rewrite Heq, Hne by done. unfold earlier. lia.
Qed.

Lemma up_loop_spec fuel pos t h m (Q : unit -> hstate -> Prop) :
  placing pos t h m -> (pos < fuel)%nat ->
  rising (earlier m) 1 (length h) pos (<[pos := t]> h) -> (forall s, placed pos t h m s -> Q tt s) ->
  wp no_error (up_loop fuel pos t) Q (HState h m).
Proof.
  intros HP. revert pos h m HP Q. induction fuel as [|fuel IH]; intros pos h m HP Q Hf Hs HQ; [lia|].
  pose proof HP as [Hpos [x Hx] Hother Hoff]. cbn [up_loop]. set (q := Nat.div2 pos).
  assert (forall p, (1 <= p)%nat -> child p pos -> p = q /\ (1 < pos)%nat) as Hq.
  { intros p Hp Hc. pose proof (Nat.div2_odd pos). unfold child, q in *. destruct (Nat.odd pos); simpl in *; lia. }
  assert (forall d, d <> pos -> (<[pos := t]> h) !!! d = h !!! d) as Hne by (intros d Hd; by rewrite list_lookup_total_insert_ne).
  assert ((<[pos := t]> h) !!! pos = t) as Heq by (apply list_lookup_total_insert_eq; lia).
  wp_step. destruct (Nat.ltb_spec 1 pos) as [H1|H1].
  2: { wp_step. apply placing_finish; [done| |done]. eapply rising_done; [done|]. intros p Hp Hc.
       specialize (Hq p Hp Hc). lia. }
  assert (child q pos /\ q <> pos /\ 0 < q)%nat as (Hqp & Hqne & Hq0).
  { pose proof (Nat.div2_odd pos). unfold child, q in *. destruct (Nat.odd pos); simpl in *; lia. }
  destruct (Hoff q) as (y & Hy & _); [unfold child in Hqp; lia|done|].
  wp_step. eapply wp_timer_get; [done|]. wp_step. eapply wp_expires_at; [unfold child in Hqp; lia|done|]. wp_step.
  assert (expires x = key m t) as -> by (unfold key; by rewrite Hx). wp_step; bool_hyps.
  - wp_step. apply wp_heap_get; [unfold child in Hqp; lia|]. wp_step. eapply wp_heap_put; [done..|].
    destruct (placing_move pos t h m HP q y) as (HP1 & Hex & Hoo & Hpl); [unfold child in Hqp; lia|done|done|].
    apply IH; [done|unfold child in Hqp; lia| |intros s Hs'; by apply HQ, Hpl].
    rewrite Hex, length_insert. eapply rising_keys; [intros u; by eapply offsets_only_key|].
    apply rising_step; rewrite ?length_insert; try done; try lia; try apply _. rewrite Heq, Hne by done. unfold earlier. lia.
  - apply placing_finish; [done| |done]. eapply rising_done; [done|]. intros p Hp Hc.
    destruct (Hq p Hp Hc) as [-> _]. rewrite Heq, Hne by done. unfold earlier. lia.
Qed.

(** ** Adding and removing *)

Lemma heap_ok_unique h m i j :
  heap_ok h m -> (0 < i < length h)%nat -> (0 < j < length h)%nat -> h !!! i = h !!! j -> i = j.
Proof.
  intros Hok Hi Hj E. destruct (ho_known _ _ Hok i Hi) as (x & Hx & Ho). destruct (ho_known _ _ Hok j Hj) as (y & Hy & Ho').
  rewrite E in Hx. assert (x = y) as -> by congruence. lia.
Qed.

Lemma heap_nodup h m : heap_ok h m -> NoDup (members h).
Proof.
  intros Hok. apply NoDup_alt. intros i j t Hi Hj. unfold members in *. destruct h as [|d h]; simpl in *; [done|].
  assert (S i = S j); [|lia]. pose proof (lookup_lt_Some _ _ _ Hi). pose proof (lookup_lt_Some _ _ _ Hj).
  eapply heap_ok_unique; [done|simpl; lia..|]. change (h !!! i = h !!! j).
  by rewrite (list_lookup_total_correct _ _ _ Hi), (list_lookup_total_correct _ _ _ Hj).
Qed.

Lemma heap_ok_offset h m t x :
  heap_ok h m -> t ∈ members h -> m !! t = Some x ->
  exists i, (0 < i < length h)%nat /\ heap_offset x = Z.of_nat i /\ h !!! i = t.
Proof.
  intros Hok (i & Hi & <-)%members_at Hx. destruct (ho_known _ _ Hok i Hi) as (y & Hy & Ho). exists i.
  split_and!; [lia..| |done]. congruence.
Qed.

Lemma heap_ok_top h m t : heap_ok h m -> t ∈ members h -> key m (h !!! 1%nat) <= key m t.
Proof.
  intros Hok (i & Hi & <-)%members_at. eapply (top_max (earlier m) 1 (length h)); [lia..|apply Hok|lia].
Qed.

Lemma up_heap_spec pos t h m (Q : unit -> hstate -> Prop) :
  placing pos t h m -> h !!! pos = t -> rising (earlier m) 1 (length h) pos h ->
  (forall s, placed pos t h m s -> Q tt s) -> wp no_error (up_heap pos) Q (HState h m).
Proof.
  intros HP Ht Hr HQ. pose proof (pl_pos _ _ _ _ HP). unfold up_heap. wp_step. apply wp_heap_get; [done|]. rewrite Ht.
  apply up_loop_spec; [done|lia| |done]. subst t. by rewrite list_insert_id by (apply list_lookup_lookup_total_lt; lia).
Qed.

Lemma down_heap_spec pos t h m (Q : unit -> hstate -> Prop) :
  placing pos t h m -> h !!! pos = t -> sinking (earlier m) 1 (length h) pos h ->
  (forall s, placed pos t h m s -> Q tt s) -> wp no_error (down_heap pos) Q (HState h m).
Proof.
  intros HP Ht Hr HQ. pose proof (pl_pos _ _ _ _ HP). unfold down_heap. wp_step. cbn beta. wp_step. wp_step. apply wp_heap_get; [done|].
  rewrite Ht. simpl. apply down_loop_spec; [done|done|lia| |done]. subst t.
  by rewrite list_insert_id by (apply list_lookup_lookup_total_lt; lia).
Qed.

Lemma add_to_heap_spec limit t x h m (Q : bool -> hstate -> Prop) :
  heap_ok h m -> m !! t = Some x -> t ∉ members h ->
  (Z.of_nat (heap_size h) = limit -> Q false (HState h m)) ->
  (forall h' m' o, Z.of_nat (heap_size h) <> limit -> heap_ok h' m' -> members h' ≡ₚ t :: members h ->
     offsets_only (t :: members h) m m' -> m' !! t = Some (set_offset o x) -> 0 < o -> length h' = S (length h) ->
     Q (o =? 1) (HState h' m')) ->
  wp no_error (add_to_heap limit t) Q (HState h m).
Proof.
  intros Hok Hx Ht HQ1 HQ2. unfold add_to_heap. wp_step. cbn beta. wp_step. simpl. cbv zeta.
  pose proof (ho_word _ _ Hok) as Hw. destruct (Z.eqb_spec (Z.of_nat (heap_size h)) limit) as [E|E]; [by wp_step; auto|].
  assert (S (heap_size h) = length h) as -> by (unfold heap_size; lia).
  wp_step. wp_step. wp_step. eapply wp_heap_put; simpl; [rewrite length_app; simpl; lia|done|].
  rewrite insert_app_r_alt, Nat.sub_diag by lia. simpl. set (m1 := <[t := set_offset (Z.of_nat (length h)) x]> m).
  assert (offsets_only (t :: members h) m m1) as Hoo by (apply offsets_only_put; [by left|done]).
  assert (forall i, (0 < i < length h)%nat -> (h ++ [t]) !!! i = h !!! i) as Hi by (intros i Hi; by rewrite lookup_total_app_l by lia).
  assert (placing (length h) t (h ++ [t]) m1) as HP.
  { split; [rewrite length_app; simpl; lia|by exists (set_offset (Z.of_nat (length h)) x); unfold m1; rewrite lookup_insert_eq| |];
      intros i; rewrite length_app; simpl; intros Hi1 Hi2; rewrite Hi by lia.
    - intros <-. apply Ht, members_at. exists i. split; [lia|done].
    - destruct (ho_known _ _ Hok i) as (y & Hy & Ho); [lia|]. exists y. split; [|done]. unfold m1. rewrite lookup_insert_ne; [done|].
      intros ->. apply Ht, members_at. exists i. split; [lia|done]. }
  wp_step. eapply up_heap_spec; [done|by rewrite lookup_total_app_r, Nat.sub_diag by lia| |].
  { rewrite length_app, Nat.add_1_r. apply heap_rising; [lia|]. eapply heap_keys; [intros u; by eapply offsets_only_key|].
    intros p c Hp Hc Hcn. rewrite !Hi by (unfold child in Hc; lia). by apply (ho_order _ _ Hok). }
  intros [h' m'] (Hok' & Hperm & Hlen & H0 & Hoo'). cbn [hs_heap hs_tm] in *.
  rewrite insert_app_r_alt, Nat.sub_diag in Hperm, Hoo' by lia. cbn in Hperm, Hoo'. rewrite length_app, Nat.add_1_r in Hlen.
  assert (members (h ++ [t]) ≡ₚ t :: members h) as Hsnoc.
  { destruct h as [|d h]; simpl in *; [lia|]. by rewrite Permutation_app_comm. }
  assert (members h' ≡ₚ t :: members h) as Hmem.
  { rewrite (members_perm (h ++ [t]) h'); [done|rewrite length_app; simpl; lia|done|done]. }
  assert (offsets_only (t :: members h) m m') as Hall.
  { eapply offsets_only_trans; [exact Hoo|]. eapply offsets_only_sub; [|exact Hoo']. intros u. by rewrite Hsnoc. }
  destruct (oo_offset _ _ _ Hall t x Hx) as (o & Ho). wp_step. eapply wp_timer_get; [done|]. wp_step. simpl.
  destruct (heap_ok_offset h' m' t (set_offset o x)) as (i & Hi' & Hoi & _); [done|by rewrite Hmem; left|done|].
  simpl in Hoi. eapply HQ2; try done; lia.
Qed.

(** The array without its last element is a heap. *)
Lemma heap_ok_take h m n : (0 < n <= length h)%nat -> heap_ok h m -> heap_ok (take n h) m.
Proof.
  intros Hn [Hw Hk Hh]. assert (length (take n h) = n) as Hl by (rewrite length_take; lia).
  assert (forall i, (i < n)%nat -> take n h !!! i = h !!! i) as Hi by (intros i Hi; by rewrite lookup_total_take_lt).
  split; rewrite ?Hl; [lia| |].
  - intros i Hi'. rewrite Hi by lia. apply Hk. lia.
  - intros p c Hp Hc Hcn. rewrite !Hi by (unfold child in Hc; lia). apply Hh; try done. lia.
Qed.

(** Taking [t] away from position [pos] and putting the last timer there instead. *)
Lemma replace_last h m pos x :
  heap_ok h m -> (0 < pos)%nat -> (pos < heap_size h)%nat -> m !! (h !!! heap_size h) = Some x ->
  let sz := heap_size h in
  let last := h !!! sz in
  let h1 := take sz (<[pos := last]> h) in
  let m1 := <[last := set_offset (Z.of_nat pos) x]> m in
  placing pos last h1 m1 /\ h1 = <[pos := last]> (take sz h) /\ length h1 = sz
  /\ members h ≡ₚ (h !!! pos) :: members h1 /\ (forall i, (i < sz)%nat -> i <> pos -> h1 !!! i = h !!! i) /\ h1 !!! pos = last
  /\ (forall u, key m1 u = key m u) /\ offsets_only (members h) m m1.
Proof.
  intros Hok Hp Hps Hx sz last h1 m1. assert (sz < length h)%nat as Hsz by (unfold sz, heap_size in *; lia).
  assert (h1 = <[pos := last]> (take sz h)) as E1 by (unfold h1; by rewrite take_insert_lt by lia).
  assert (length h1 = sz) as El by (rewrite E1, length_insert, length_take; lia).
  assert (forall i, (i < sz)%nat -> i <> pos -> h1 !!! i = h !!! i) as Hi.
  { intros i Hi Hne. rewrite E1, list_lookup_total_insert_ne by done. by rewrite lookup_total_take_lt. }
  assert (h1 !!! pos = last) as Hpos by (rewrite E1; apply list_lookup_total_insert_eq; rewrite length_take; lia).
  assert (offsets_only (members h) m m1) as Hoo.
  { apply offsets_only_put; [|done]. apply members_at. exists sz. split; [lia|done]. }
  assert (forall i, (0 < i < sz)%nat -> h !!! i <> last) as Hlast.
  { intros i Hi' E. assert (i = sz); [|lia]. by eapply heap_ok_unique; [done|lia|lia|]. }
  split_and!; try done.
  - split; rewrite ?El; [lia| | |].
    + exists (set_offset (Z.of_nat pos) x). unfold m1. by rewrite lookup_insert_eq.
    + intros i Hi1 Hi2. rewrite Hi by lia. by apply Hlast.
    + intros i Hi1 Hi2. rewrite Hi by lia. destruct (ho_known _ _ Hok i) as (y & Hy & Ho); [lia|].
      exists y. split; [|done]. unfold m1. rewrite lookup_insert_ne; [done|]. intros E. by apply (Hlast i).
  - assert (exchange h pos sz = h1 ++ [h !!! pos]) as Ex.
    { unfold exchange. fold last. rewrite insert_take_drop by (rewrite length_insert; lia). fold h1. f_equal.
      rewrite drop_ge by (rewrite length_insert; unfold sz, heap_size; lia). done. }
    assert (members (h1 ++ [h !!! pos]) ≡ₚ (h !!! pos) :: members h1) as <-.
    { destruct h1 as [|d h1']; simpl in *; [lia|]. by rewrite Permutation_app_comm. }
    rewrite <- Ex. symmetry. apply members_perm; [lia|apply exchange_perm; lia|].
    unfold exchange. by rewrite !list_lookup_insert_ne by lia.
  - intros u. by eapply offsets_only_key.
Qed.

Lemma div2_child pos : (1 < pos)%nat -> child (Nat.div2 pos) pos /\ (0 < Nat.div2 pos)%nat.
Proof. intros H1. pose proof (Nat.div2_odd pos). unfold child. destruct (Nat.odd pos); simpl in *; lia. Qed.

Lemma child_div2 p pos : child p pos -> (1 <= p)%nat -> p = Nat.div2 pos /\ (1 < pos)%nat.
Proof. intros Hc Hp. pose proof (Nat.div2_odd pos). unfold child in *. destruct (Nat.odd pos); simpl in *; lia. Qed.

(** The direction in which the timer put at [pos] moves. *)
Lemma replace_order h m pos h1 m1 last :
  heap_ok h m -> (0 < pos)%nat -> (pos < heap_size h)%nat ->
  h1 = <[pos := last]> (take (heap_size h) h) -> length h1 = heap_size h -> (forall u, key m1 u = key m u) ->
  (forall i, (i < heap_size h)%nat -> i <> pos -> h1 !!! i = h !!! i) ->
  ((1 <? pos)%nat && (key m1 last <? key m1 (h1 !!! Nat.div2 pos)) = true -> rising (earlier m1) 1 (length h1) pos h1)
  /\ ((1 <? pos)%nat && (key m1 last <? key m1 (h1 !!! Nat.div2 pos)) = false -> sinking (earlier m1) 1 (length h1) pos h1).
Proof.
  intros Hok Hp Hsz E1 El Hkey Hi. assert (heap_ok (take (heap_size h) h) m) as Hok' by (apply heap_ok_take; [unfold heap_size in *; lia|done]).
  assert (length (take (heap_size h) h) = heap_size h) as Et by (rewrite length_take; unfold heap_size; lia).
  pose proof (ho_order _ _ Hok') as Hh. rewrite Et in Hh. rewrite El. rewrite !Hkey.
  assert (forall q, child q pos -> take (heap_size h) h !!! q = h1 !!! q) as Hq.
  { intros q Hq. unfold child in Hq. rewrite Hi by lia. by rewrite lookup_total_take_lt by lia. }
  split; intros Hb; bool_hyps.
  - apply Nat.ltb_lt in H. destruct (div2_child pos H) as [Hc Hc0]. apply (rising_keys m); [done|]. rewrite E1.
    eapply (heap_replace_up _ 1 _ _ (Nat.div2 pos)); try done; try lia. rewrite Hq by done. unfold earlier. lia.
  - apply (sinking_keys m); [done|]. rewrite E1. apply (heap_replace (earlier m)); try done; try lia. intros q Hq1 Hc. rewrite Hq by done.
    destruct (child_div2 q pos Hc Hq1) as [-> H1]. destruct Hb as [Hb|Hb]; [apply Nat.ltb_ge in Hb; lia|]. bool_hyps. unfold earlier. lia.
Qed.

Lemma remove_from_heap_spec t h m (Q : bool -> hstate -> Prop) :
  heap_ok h m -> t ∈ members h ->
  (forall h' m', heap_ok h' m' -> members h ≡ₚ t :: members h' -> offsets_only (members h) m m' ->
     length h = S (length h') -> Q (bool_decide (h !!! 1%nat = t)) (HState h' m')) ->
  wp no_error (remove_from_heap t) Q (HState h m).
Proof.
  intros Hok Ht HQ. pose proof Ht as (pos & Hpos & Et)%members_at. destruct (ho_known _ _ Hok pos Hpos) as (x & Hx & Ho).
  rewrite Et in Hx. unfold remove_from_heap. wp_step. cbn beta. wp_step. wp_step. eapply wp_timer_get; [done|]. cbv zeta. simpl.
  rewrite Ho, Nat2Z.id.
  assert ((pos =? 1)%nat = bool_decide (h !!! 1%nat = t)) as ->.
  { destruct (Nat.eqb_spec pos 1) as [->|Hne]; symmetry; [by apply bool_decide_eq_true|apply bool_decide_eq_false].
    intros E. apply Hne. rewrite <- Et in E. symmetry. eapply heap_ok_unique; [done|lia|lia|done]. }
  assert (heap_size h < length h)%nat as Hsz by (unfold heap_size; lia).
  destruct (Nat.eqb_spec pos (heap_size h)) as [->|Hne].
  - wp_step. wp_step. simpl. apply HQ; [apply heap_ok_take; [lia|done]| |apply offsets_only_refl|rewrite length_take; unfold heap_size; lia].
    rewrite <- (take_drop (heap_size h) h) at 1. rewrite (drop_S _ t) by (rewrite <- Et; by apply list_lookup_lookup_total_lt).
    rewrite (drop_ge _ (S _)) by (unfold heap_size; lia). destruct (take (heap_size h) h) eqn:E.
    { apply (f_equal length) in E. rewrite length_take in E. simpl in E. lia. }
    simpl. by rewrite Permutation_app_comm.
  - assert (pos < heap_size h)%nat as Hlt by (unfold heap_size in *; lia).
    destruct (ho_known _ _ Hok (heap_size h)) as (y & Hy & _); [lia|].
    destruct (replace_last h m pos y) as (HP & E1 & El & Hmem & Hi & Hlast & Hkey & Hoo); [done|lia|done|done|].
    set (last := h !!! heap_size h) in *. set (h1 := take (heap_size h) (<[pos := last]> h)) in *.
    set (m1 := <[last := set_offset (Z.of_nat pos) y]> m) in *.
    wp_step. apply wp_heap_get; [lia|]. wp_step. eapply wp_heap_put; [lia|done|]. wp_step. wp_step. simpl.
    fold last h1 m1.
    assert (forall s, placed pos last h1 m1 s -> Q (bool_decide (h !!! 1%nat = t)) s) as HQ'.
    { intros [h' m'] (A & B & C & D & F). cbn [hs_heap hs_tm] in *.
      rewrite list_insert_id in B, F by (rewrite <- Hlast; apply list_lookup_lookup_total_lt; lia).
      assert (members h' ≡ₚ members h1) as Hm' by (apply members_perm; [lia|done|done]).
      apply HQ; [done|by rewrite Hm', <- Et| |unfold heap_size in *; lia]. eapply offsets_only_trans; [exact Hoo|].
      eapply offsets_only_sub; [|exact F]. intros u Hu. rewrite Hmem. by right. }
    wp_step. apply (wp_mono _ _ (fun up s => s = HState h1 m1 /\ up = (1 <? pos)%nat && (key m1 last <? key m1 (h1 !!! Nat.div2 pos)))).
    { destruct (Nat.ltb_spec 1 pos) as [H1|H1]; [|by wp_step].
      destruct (pl_known _ _ _ _ HP) as (z & Hz). pose proof (div2_child pos H1) as [Hq Hq0].
      destruct (pl_offset _ _ _ _ HP (Nat.div2 pos)) as (v & Hv & _); [unfold child in Hq; lia..|].
      wp_step. eapply wp_expires_at; [lia|by rewrite Hlast|]. wp_step. eapply wp_expires_at; [unfold child in Hq; lia|done|].
      wp_step. by rewrite Hlast. }
    intros up s [-> ->]. wp_step. destruct (replace_order h m pos h1 m1 last) as [Hup Hdown]; [done || lia..|].
    case_if; [eapply up_heap_spec|eapply down_heap_spec]; try done; auto; intros s Hs; wp_step; by apply HQ'.
Qed.
