(* ===== verification/TimerFacts.v ===== *)
(** * Timers: the invariant and what the operations mean

    An active timer is in the heap or in the list of its processor, an inactive one in its
    list of inactive timers; the heap is ordered, the list sorted. All operations keep this,
    and do to the timers seen as a map from addresses to phases what their names say. The
    softirq handler leaves no due timer behind and programs the earliest deadline. *)

From S2P Require Import Prelude.
From S2P Require Import Xen.
From S2P Require Import Heap.
From S2P Require Import Timer.
From S2P Require Import TimerHeap.

(** ** The invariant *)

Definition in_phase (m : gmap Z timer) (t : Z) (st : timer_status) (c : Z) : Prop :=
  exists x, m !! t = Some x /\ status x = st /\ t_cpu x = c.

Record cpu_ok (m : gmap Z timer) (c : Z) (ts : timers) : Prop := CpuOk {
  ck_heap : heap_ok (ts_heap ts) m;
  ck_members t : t ∈ members (ts_heap ts) -> in_phase m t TIMER_STATUS_in_heap c;
  ck_list t : t ∈ ts_list ts -> in_phase m t TIMER_STATUS_in_list c;
  ck_list_nodup : NoDup (ts_list ts);
  ck_sorted : StronglySorted (earlier m) (ts_list ts);
  ck_inactive t : t ∈ ts_inactive ts -> in_phase m t TIMER_STATUS_inactive c;
  ck_inactive_nodup : NoDup (ts_inactive ts);
  ck_limit : Z.of_nat (heap_size (ts_heap ts)) <= heap_limit ts < 65536
}.

(** Where the status of a timer says it is. *)
Definition located (p : gmap Z timers) (t : Z) (x : timer) : Prop :=
  match status x with
  | TIMER_STATUS_in_heap => exists ts, p !! t_cpu x = Some ts /\ t ∈ members (ts_heap ts)
  | TIMER_STATUS_in_list => exists ts, p !! t_cpu x = Some ts /\ t ∈ ts_list ts
  | TIMER_STATUS_inactive => exists ts, p !! t_cpu x = Some ts /\ t ∈ ts_inactive ts
  | TIMER_STATUS_killed => t_cpu x = TIMER_CPU_status_killed
  | TIMER_STATUS_invalid => False
  end.

Definition absent (t : Z) (ts : timers) : Prop :=
  t ∉ members (ts_heap ts) /\ t ∉ ts_list ts /\ t ∉ ts_inactive ts.

(** The timers of [off] are being moved, in no structure. *)
Record tinv (off : list Z) (w : tworld) : Prop := TInv {
  ti_cpu c ts : per_cpu w !! c = Some ts -> cpu_ok (tm w) c ts;
  ti_located t x : tm w !! t = Some x -> t ∉ off -> located (per_cpu w) t x;
  ti_off t : t ∈ off -> (exists x, tm w !! t = Some x) /\ forall c ts, per_cpu w !! c = Some ts -> absent t ts;
  ti_killed : per_cpu w !! TIMER_CPU_status_killed = None
}.

Definition present (t : Z) (ts : timers) : Prop :=
  t ∈ members (ts_heap ts) \/ t ∈ ts_list ts \/ t ∈ ts_inactive ts.

Lemma absent_present t ts : absent t ts -> present t ts -> False.
Proof. unfold absent, present. tauto. Qed.

(** A processor's structures depend on the timers in them only. *)
Lemma cpu_ok_ext m m' c ts :
  (forall t, present t ts -> m' !! t = m !! t) -> cpu_ok m c ts -> cpu_ok m' c ts.
Proof.
  intros Hm [H1 H2 H3 H4 H5 H6 H7 H8].
  assert (forall t st, present t ts -> in_phase m t st c -> in_phase m' t st c) as Hp.
  { intros t st Ht (x & Hx & ?). exists x. by rewrite (Hm t Ht). }
  assert (forall t, present t ts -> key m' t = key m t) as Hk by (intros t Ht; unfold key; by rewrite (Hm t Ht)).
  assert (forall i, (0 < i < length (ts_heap ts))%nat -> present (ts_heap ts !!! i) ts) as Hi.
  { intros i Hi. left. apply members_at. by exists i. }
  split; try done; try (intros t Ht; apply Hp; [unfold present; tauto|auto]).
  - destruct H1 as [A B C]. split; [done| |].
    + intros i Hi'. rewrite Hm by auto. by apply B.
    + intros p d Hp' Hd Hn. unfold earlier. rewrite !Hk by (apply Hi; unfold child in Hd; lia). by apply C.
  - apply (sorted_ext (earlier m)); [|done]. intros u v Hu Hv. unfold earlier. rewrite !Hk by (unfold present; tauto). done.
Qed.

Lemma cpu_ok_present m c ts t : cpu_ok m c ts -> present t ts -> exists x, m !! t = Some x /\ t_cpu x = c.
Proof. intros [_ H2 H3 _ _ H6 _ _] [Ht|[Ht|Ht]]; [destruct (H2 t Ht) as (x & ? & ? & ?)|destruct (H3 t Ht) as (x & ? & ? & ?)|destruct (H6 t Ht) as (x & ? & ? & ?)]; by exists x. Qed.

(** A step that changes the structures [ts] of one processor and one timer [t]; the other
    timers change at most the offsets of those in the heap of [c]. *)
Lemma tinv_update off off' w w' c ts ts' t :
  tinv off w -> per_cpu w !! c = Some ts -> per_cpu w' = <[c := ts']> (per_cpu w) ->
  (forall u, u <> t -> u ∈ off <-> u ∈ off') ->
  (forall u, u <> t -> tm w' !! u = tm w !! u
     \/ exists x o, tm w !! u = Some x /\ tm w' !! u = Some (set_offset o x) /\ status x = TIMER_STATUS_in_heap /\ t_cpu x = c) ->
  (forall c2 ts2, c2 <> c -> per_cpu w !! c2 = Some ts2 -> absent t ts2) ->
  cpu_ok (tm w') c ts' ->
  (forall u, u <> t -> u ∈ members (ts_heap ts) -> u ∈ members (ts_heap ts')) ->
  (forall u, u <> t -> u ∈ ts_list ts -> u ∈ ts_list ts') ->
  (forall u, u <> t -> u ∈ ts_inactive ts -> u ∈ ts_inactive ts') ->
  (forall u, u <> t -> present u ts' -> present u ts) ->
  (t ∈ off' -> (exists x, tm w' !! t = Some x) /\ absent t ts') ->
  (t ∉ off' -> forall x, tm w' !! t = Some x -> located (per_cpu w') t x) ->
  tinv off' w'.
Proof.
  intros [I1 I2 I3 I4] Hts Hp Hoff Hm Hab Hok Hmem Hlst Hina Hpr H1 H2.
  assert (c <> TIMER_CPU_status_killed) as Hck by (intros ->; congruence).
  split.
  - intros c2 ts2. rewrite Hp. destruct (decide (c2 = c)) as [->|Hc2].
    { rewrite lookup_insert_eq. by intros [= <-]. }
    rewrite lookup_insert_ne by done. intros Hts2. pose proof (I1 c2 ts2 Hts2) as Hok2.
    eapply cpu_ok_ext; [|done]. intros u Hu. destruct (cpu_ok_present _ _ _ _ Hok2 Hu) as (x & Hx & Hcx).
    destruct (Hm u) as [E|(y & o & Hy & _ & _ & Hcy)]; [|done|].
    + intros ->. by eapply absent_present; [apply (Hab c2 ts2)|].
    + assert (x = y) as -> by congruence. congruence.
  - intros u x' Hx' Hoffu. destruct (decide (u = t)) as [->|Hut]; [by apply H2|].
    assert (u ∉ off) as Hou by (by rewrite (Hoff u Hut)).
    assert (exists x, tm w !! u = Some x /\ status x' = status x /\ t_cpu x' = t_cpu x) as (x & Hx & Es & Ec).
    { destruct (Hm u Hut) as [E|(x & o & Hx & Hx2 & _)]; [exists x'; by rewrite <- E|].
      exists x. assert (x' = set_offset o x) as -> by congruence. done. }
    pose proof (I2 u x Hx Hou) as Hloc. unfold located in *. rewrite Es, Ec, Hp.
    destruct (decide (t_cpu x = c)) as [Ecx|Hne]; [|by rewrite lookup_insert_ne by done].
    rewrite Ecx in *. rewrite lookup_insert_eq. destruct (status x); try done;
      destruct Hloc as (ts0 & E0 & Hin); (assert (ts0 = ts) as -> by congruence); exists ts'; auto.
  - intros u Hu. destruct (decide (u = t)) as [->|Hut].
    + destruct (H1 Hu) as [Hx Habs]. split; [done|].
      intros c2 ts2. rewrite Hp. destruct (decide (c2 = c)) as [->|Hc2]; [rewrite lookup_insert_eq; by intros [= <-]|].
      rewrite lookup_insert_ne by done. by apply Hab.
    + apply (Hoff u Hut) in Hu. destruct (I3 u Hu) as [[x Hx] Habs]. split.
      * destruct (Hm u Hut) as [E|(y & o & _ & Hy & _)]; [exists x; by rewrite E|by eexists].
      * intros c2 ts2. rewrite Hp. destruct (decide (c2 = c)) as [->|Hc2]; [rewrite lookup_insert_eq|rewrite lookup_insert_ne by done; apply Habs].
        intros [= <-]. pose proof (Habs c ts Hts) as Ha. assert (~ present u ts') as Hn by (intros Hpu; by eapply absent_present; [|apply Hpr]).
        unfold absent, present in *. tauto.
  - rewrite Hp. by rewrite lookup_insert_ne.
Qed.

(** The three ways [t] changes. *)
Section Update.
Context (w w' : tworld) (c : Z) (ts ts' : timers) (t : Z).
Hypothesis Hts : per_cpu w !! c = Some ts.
Hypothesis Hp : per_cpu w' = <[c := ts']> (per_cpu w).
Hypothesis Hm : forall u, u <> t -> tm w' !! u = tm w !! u
  \/ exists x o, tm w !! u = Some x /\ tm w' !! u = Some (set_offset o x) /\ status x = TIMER_STATUS_in_heap /\ t_cpu x = c.
Hypothesis Hab : forall c2 ts2, c2 <> c -> per_cpu w !! c2 = Some ts2 -> absent t ts2.
Hypothesis Hok : cpu_ok (tm w') c ts'.
Hypothesis Hmem : forall u, u <> t -> u ∈ members (ts_heap ts) <-> u ∈ members (ts_heap ts').
Hypothesis Hlst : forall u, u <> t -> u ∈ ts_list ts <-> u ∈ ts_list ts'.
Hypothesis Hina : forall u, u <> t -> u ∈ ts_inactive ts <-> u ∈ ts_inactive ts'.

Lemma present_kept u : u <> t -> present u ts' -> present u ts.
Proof using Hmem Hlst Hina. intros Hu. unfold present. by rewrite Hmem, Hlst, Hina. Qed.

Lemma tinv_leave off : tinv off w -> (exists x, tm w' !! t = Some x) -> absent t ts' -> tinv (t :: off) w'.
Proof using All.
  intros Hi Hx Ha. apply (tinv_update off (t :: off) w w' c ts ts' t); try done; try (intros u Hu; first [apply Hmem|apply Hlst|apply Hina]; done).
  - intros u Hu. rewrite elem_of_cons. tauto.
  - apply present_kept.
  - intros []. by left.
Qed.

Lemma tinv_enter off : tinv (t :: off) w -> t ∉ off -> (forall x, tm w' !! t = Some x -> located (per_cpu w') t x) -> tinv off w'.
Proof using All.
  intros Hi Ht Hl. apply (tinv_update (t :: off) off w w' c ts ts' t); try done; try (intros u Hu; first [apply Hmem|apply Hlst|apply Hina]; done).
  - intros u Hu. rewrite elem_of_cons. tauto.
  - apply present_kept.
Qed.

Lemma tinv_stay : tinv [] w -> (forall x, tm w' !! t = Some x -> located (per_cpu w') t x) -> tinv [] w'.
Proof using All.
  intros Hi Hl. apply (tinv_update [] [] w w' c ts ts' t); try done; try (intros u Hu; first [apply Hmem|apply Hlst|apply Hina]; done).
  - apply present_kept.
  - by intros ?%elem_of_nil.
Qed.
End Update.

(** ** Steps of the state *)

Lemma tinv_same off w w' : tm w' = tm w -> per_cpu w' = per_cpu w -> tinv off w -> tinv off w'.
Proof. intros E1 E2 [H1 H2 H3 H4]. by split; rewrite ?E1, ?E2. Qed.

(** A timer is present only at its processor, in the structure of its status. *)
Lemma present_phase off w c ts t x :
  tinv off w -> per_cpu w !! c = Some ts -> present t ts -> tm w !! t = Some x ->
  t_cpu x = c /\ status x <> TIMER_STATUS_invalid /\ status x <> TIMER_STATUS_killed.
Proof.
  intros Hi Hts Hp Hx. destruct (ti_cpu _ _ Hi c ts Hts) as [_ H2 H3 _ _ H6 _ _].
  destruct Hp as [Ht|[Ht|Ht]]; [destruct (H2 t Ht) as (y & ? & ? & ?)|destruct (H3 t Ht) as (y & ? & ? & ?)|destruct (H6 t Ht) as (y & ? & ? & ?)];
    (assert (x = y) as -> by congruence); split_and!; congruence.
Qed.

Lemma absent_elsewhere off w t x c ts :
  tinv off w -> tm w !! t = Some x -> c <> t_cpu x -> per_cpu w !! c = Some ts -> absent t ts.
Proof.
  intros Hi Hx Hc Hts. unfold absent. split_and!; intros Ht; apply Hc; symmetry;
    eapply present_phase; [done|done|left; done|done|done|done|right; left; done|done|done|done|right; right; done|done].
Qed.

(** The structures of the processor of a timer in one phase. *)
Lemma only_in m c ts t x : cpu_ok m c ts -> m !! t = Some x ->
  (t ∈ members (ts_heap ts) -> status x = TIMER_STATUS_in_heap)
  /\ (t ∈ ts_list ts -> status x = TIMER_STATUS_in_list) /\ (t ∈ ts_inactive ts -> status x = TIMER_STATUS_inactive).
Proof.
  intros [_ H2 H3 _ _ H6 _ _] Hx. split_and!; intros Ht;
    [destruct (H2 t Ht) as (y & ? & ? & ?)|destruct (H3 t Ht) as (y & ? & ? & ?)|destruct (H6 t Ht) as (y & ? & ? & ?)]; congruence.
Qed.

Lemma list_del_elem t u l : u ∈ list_del_ t l <-> u <> t /\ u ∈ l.
Proof. unfold list_del_. by rewrite list_elem_of_filter. Qed.

(** A timer in no structure may change. *)
Lemma tinv_off_change off w t y : t ∈ off -> tinv off w -> tinv off (set_tm (<[t := y]> (tm w)) w).
Proof.
  intros Ht [H1 H2 H3 H4]. destruct (H3 t Ht) as [_ Hab]. split; simpl.
  - intros c ts Hts. eapply cpu_ok_ext; [|by apply H1]. intros u Hu. rewrite lookup_insert_ne; [done|]. intros ->.
    by eapply absent_present; [by apply (Hab c ts)|].
  - intros u x. destruct (decide (u = t)) as [->|Hne]; [done|]. rewrite lookup_insert_ne by done. apply H2.
  - intros u Hu. destruct (H3 u Hu) as [Hx Ha]. split; [|done].
    destruct (decide (u = t)) as [->|Hne]; [exists y; by rewrite lookup_insert_eq|by rewrite lookup_insert_ne].
  - done.
Qed.

(** A new timer, or one that was killed. *)
Lemma tinv_new w t y :
  tinv [] w -> (forall x, tm w !! t = Some x -> status x = TIMER_STATUS_killed) ->
  tinv [t] (set_tm (<[t := y]> (tm w)) w).
Proof.
  intros Hi Hk. assert (forall c ts, per_cpu w !! c = Some ts -> present t ts -> False) as Hab.
  { intros c ts Hts Hp. destruct (cpu_ok_present _ _ _ _ (ti_cpu _ _ Hi c ts Hts) Hp) as (x & Hx & _).
    destruct (present_phase [] w c ts t x) as (_ & _ & Hn); [done..|]. by apply Hn, Hk. }
  destruct Hi as [H1 H2 H3 H4]. split; simpl.
  - intros c ts Hts. eapply cpu_ok_ext; [|by apply H1]. intros u Hu. rewrite lookup_insert_ne; [done|]. intros ->. by eapply Hab.
  - intros u x. destruct (decide (u = t)) as [->|Hne]; [intros _ []; by left|]. rewrite lookup_insert_ne by done. intros Hx _. by apply H2; [|apply not_elem_of_nil].
  - intros u ->%list_elem_of_singleton. split; [exists y; by rewrite lookup_insert_eq|]. intros c ts Hts. unfold absent.
    split_and!; intros Ht; eapply Hab; try done; [by left|by right; left|by right; right].
  - done.
Qed.

(** A timer in no structure is killed. *)
Lemma tinv_kill w t y :
  tinv [t] w -> status y = TIMER_STATUS_killed -> t_cpu y = TIMER_CPU_status_killed ->
  tinv [] (set_tm (<[t := y]> (tm w)) w).
Proof.
  intros Hi Hs Hc. destruct (tinv_off_change [t] w t y ltac:(by left) Hi) as [H1 H2 H3 H4]. split; [done| |by intros u ?%elem_of_nil|done].
  intros u x Hx _. destruct (decide (u = t)) as [->|Hne]; [|apply H2; [done|by rewrite list_elem_of_singleton]].
  simpl in Hx. rewrite lookup_insert_eq in Hx. unfold located. assert (x = y) as -> by congruence. by rewrite Hs.
Qed.

Lemma cpu_ok_inactive m c ts l :
  cpu_ok m c ts -> NoDup l -> (forall t, t ∈ l -> in_phase m t TIMER_STATUS_inactive c) -> cpu_ok m c (set_inactive l ts).
Proof. intros [H1 H2 H3 H4 H5 H6 H7 H8] Hn Hl. by split. Qed.

(** A timer in no structure becomes inactive. *)
Lemma tinv_park w t y ts si dl :
  tinv [t] w -> status y = TIMER_STATUS_inactive -> per_cpu w !! t_cpu y = Some ts ->
  tinv [] (TWorld (<[t := y]> (tm w)) (<[t_cpu y := set_inactive (t :: ts_inactive ts) ts]> (per_cpu w)) si dl).
Proof.
  intros Hi Hs Hts. pose proof (tinv_off_change [t] w t y ltac:(by left) Hi) as Hi'. destruct (ti_off _ _ Hi t ltac:(by left)) as [[x Hx] Hab].
  apply (tinv_enter (set_tm (<[t := y]> (tm w)) w) _ (t_cpu y) ts (set_inactive (t :: ts_inactive ts) ts) t);
    try done; simpl; auto using not_elem_of_nil.
  - intros c2 ts2 _. by apply Hab.
  - pose proof (ti_cpu _ _ Hi' _ _ Hts) as Hok. apply cpu_ok_inactive; [done| |].
    + apply NoDup_cons. split; [apply (Hab _ _ Hts)|apply Hok].
    + intros u [->|Hu]%elem_of_cons; [exists y; by rewrite lookup_insert_eq|by apply Hok].
  - intros u Hu. rewrite elem_of_cons. tauto.
  - intros x'. rewrite lookup_insert_eq. intros [= <-]. unfold located. rewrite Hs. simpl. rewrite lookup_insert_eq.
    eexists. split; [done|]. simpl. by left.
Qed.

(** An inactive timer leaves its list. *)
Lemma tinv_unpark w t x y ts si dl :
  tinv [] w -> tm w !! t = Some x -> status x = TIMER_STATUS_inactive -> per_cpu w !! t_cpu x = Some ts ->
  tinv [t] (TWorld (<[t := y]> (tm w)) (<[t_cpu x := set_inactive (list_del_ t (ts_inactive ts)) ts]> (per_cpu w)) si dl).
Proof.
  intros Hi Hx Hs Hts. pose proof (ti_cpu _ _ Hi _ _ Hts) as Hok. destruct (only_in _ _ _ _ _ Hok Hx) as (O1 & O2 & _).
  assert (absent t (set_inactive (list_del_ t (ts_inactive ts)) ts)) as Hab.
  { unfold absent. simpl. rewrite list_del_elem. split_and!; [intros ?%O1; congruence|intros ?%O2; congruence|tauto]. }
  apply (tinv_leave w _ (t_cpu x) ts (set_inactive (list_del_ t (ts_inactive ts)) ts) t); try done; simpl; auto.
  - intros u Hu. left. by rewrite lookup_insert_ne.
  - intros c2 ts2 Hc2. by eapply absent_elsewhere.
  - eapply (cpu_ok_ext (tm w)).
    + intros u Hu. rewrite lookup_insert_ne; [done|]. intros ->. by eapply absent_present.
    + apply cpu_ok_inactive; [done| |].
      * unfold list_del_. apply NoDup_filter, Hok.
      * intros u [_ Hu]%list_del_elem. by apply Hok.
  - intros u Hu. rewrite list_del_elem. tauto.
  - exists y. by rewrite lookup_insert_eq.
Qed.

(** The expiry time of an inactive timer does not matter. *)
Lemma tinv_inactive_change w t x y :
  tinv [] w -> tm w !! t = Some x -> status x = TIMER_STATUS_inactive ->
  status y = TIMER_STATUS_inactive -> t_cpu y = t_cpu x -> tinv [] (set_tm (<[t := y]> (tm w)) w).
Proof.
  intros Hi Hx Hs Hsy Hcy. pose proof (ti_located _ _ Hi t x Hx (not_elem_of_nil _)) as Hloc. unfold located in Hloc. rewrite Hs in Hloc.
  destruct Hloc as (ts & Hts & Hin). pose proof (ti_cpu _ _ Hi _ _ Hts) as Hok. destruct (only_in _ _ _ _ _ Hok Hx) as (O1 & O2 & _).
  assert (t ∉ members (ts_heap ts) /\ t ∉ ts_list ts) as [N1 N2] by (split; [intros ?%O1; congruence|intros ?%O2; congruence]).
  apply (tinv_stay w _ (t_cpu x) ts ts t); try done; simpl; auto.
  - by rewrite insert_id.
  - intros u Hu. left. by rewrite lookup_insert_ne.
  - intros c2 ts2 Hc2. by eapply absent_elsewhere.
  - assert (cpu_ok (<[t := y]> (tm w)) (t_cpu x) (set_inactive [] ts)) as Hok'.
    { eapply (cpu_ok_ext (tm w)); [|apply cpu_ok_inactive; [done|constructor|by intros u Hu%elem_of_nil]].
      intros u Hu. rewrite lookup_insert_ne; [done|]. intros ->. destruct Hu as [Hu|[Hu|Hu]]; simpl in Hu; [done|done|by apply elem_of_nil in Hu]. }
    replace ts with (set_inactive (ts_inactive ts) (set_inactive [] ts)) by by destruct ts.
    apply cpu_ok_inactive; [done|apply Hok|]. intros u Hu. destruct (decide (u = t)) as [->|Hne].
    + exists y. by rewrite lookup_insert_eq.
    + destruct (ck_inactive _ _ _ Hok u Hu) as (z & Hz & ?). exists z. by rewrite lookup_insert_ne.
  - intros x'. rewrite lookup_insert_eq. intros [= <-]. unfold located. rewrite Hsy, Hcy. by exists ts.
Qed.

(** The other structures when the heap and the offsets in it change. *)
Lemma cpu_ok_heap m m' c ts h :
  cpu_ok m c ts -> heap_ok h m' -> (forall t, t ∈ members h -> in_phase m' t TIMER_STATUS_in_heap c) ->
  (forall t, t ∈ ts_list ts \/ t ∈ ts_inactive ts -> m' !! t = m !! t) ->
  Z.of_nat (heap_size h) <= heap_limit ts -> cpu_ok m' c (set_heap h ts).
Proof.
  intros Hok Hh Hm Hs Hl. assert (cpu_ok m' c (set_heap [0] ts)) as [_ _ H3 H4 H5 H6 H7 _].
  { eapply (cpu_ok_ext m).
    - intros t [Ht|[Ht|Ht]]; simpl in Ht; [by apply elem_of_nil in Ht|apply Hs; tauto..].
    - destruct Hok. split; try done; simpl; [|by intros t Ht%elem_of_nil|unfold heap_size in *; simpl; lia].
      split; [simpl; lia|simpl; lia|]. intros p d Hp Hd Hn. unfold child in Hd. simpl in Hn. lia. }
  split; try done. simpl. destruct Hok. lia.
Qed.

Lemma cpu_ok_list m c ts l :
  cpu_ok m c ts -> NoDup l -> StronglySorted (earlier m) l -> (forall t, t ∈ l -> in_phase m t TIMER_STATUS_in_list c) ->
  cpu_ok m c (set_list l ts).
Proof. intros [H1 H2 H3 H4 H5 H6 H7 H8] Hn Hs Hl. by split. Qed.

(** The top timer or any other leaves the heap. *)
Lemma tinv_unheap w t x y ts h' m' si dl :
  tinv [] w -> tm w !! t = Some x -> status x = TIMER_STATUS_in_heap -> per_cpu w !! t_cpu x = Some ts ->
  heap_ok h' m' -> members (ts_heap ts) ≡ₚ t :: members h' -> offsets_only (members (ts_heap ts)) (tm w) m' ->
  length (ts_heap ts) = S (length h') ->
  tinv [t] (TWorld (<[t := y]> m') (<[t_cpu x := set_heap h' ts]> (per_cpu w)) si dl).
Proof.
  intros Hi Hx Hs Hts Hok' Hmem Hoo Hlen. pose proof (ti_cpu _ _ Hi _ _ Hts) as Hok. destruct (only_in _ _ _ _ _ Hok Hx) as (_ & O2 & O3).
  assert (t ∉ members h') as Ht'.
  { intros Ht. pose proof (ho_word _ _ Hok'). assert (NoDup (t :: members h')) as [Hnd _]%NoDup_cons; [|done].
    rewrite <- Hmem. apply (heap_nodup _ (tm w)), Hok. }
  assert (absent t (set_heap h' ts)) as Hab by (unfold absent; simpl; split_and!; [done|intros ?%O2; congruence|intros ?%O3; congruence]).
  assert (forall u, u ∉ members (ts_heap ts) -> m' !! u = tm w !! u) as Hout by apply Hoo.
  assert (forall u, u ∈ members (ts_heap ts) -> exists z o, tm w !! u = Some z /\ m' !! u = Some (set_offset o z) /\ status z = TIMER_STATUS_in_heap /\ t_cpu z = t_cpu x) as Hin.
  { intros u Hu. destruct (ck_members _ _ _ Hok u Hu) as (z & Hz & ? & ?). destruct (oo_offset _ _ _ Hoo u z Hz) as (o & Ho). by exists z, o. }
  apply (tinv_leave w _ (t_cpu x) ts (set_heap h' ts) t); try done; simpl; auto.
  - intros u Hu. rewrite lookup_insert_ne by done. destruct (decide (u ∈ members (ts_heap ts))) as [Hm|Hm]; [right; by apply Hin|left; by apply Hout].
  - intros c2 ts2 Hc2. by eapply absent_elsewhere.
  - eapply (cpu_ok_ext m').
    + intros u Hu. rewrite lookup_insert_ne; [done|]. intros ->. by eapply absent_present.
    + apply (cpu_ok_heap (tm w)); [done|done| | |].
      * intros u Hu. destruct (Hin u) as (z & o & _ & Hz & ? & ?); [rewrite Hmem; by right|]. by exists (set_offset o z).
      * intros u Hu. apply Hout. intros Hm. destruct (ck_members _ _ _ Hok u Hm) as (z & Hz & Hsz & _).
        destruct (only_in _ _ _ _ _ Hok Hz) as (_ & P2 & P3). destruct Hu as [?%P2|?%P3]; congruence.
      * destruct (ck_limit _ _ _ Hok). unfold heap_size in *. lia.
  - intros u Hu. rewrite Hmem, elem_of_cons. tauto.
  - exists y. by rewrite lookup_insert_eq.
Qed.

(** A timer leaves the overflow list. *)
Lemma tinv_unlist w t x y ts l si dl :
  tinv [] w -> tm w !! t = Some x -> status x = TIMER_STATUS_in_list -> per_cpu w !! t_cpu x = Some ts ->
  StronglySorted (earlier (tm w)) l -> ts_list ts ≡ₚ t :: l ->
  tinv [t] (TWorld (<[t := y]> (tm w)) (<[t_cpu x := set_list l ts]> (per_cpu w)) si dl).
Proof.
  intros Hi Hx Hs Hts Hsrt Hp. pose proof (ti_cpu _ _ Hi _ _ Hts) as Hok. destruct (only_in _ _ _ _ _ Hok Hx) as (O1 & _ & O3).
  pose proof (ck_list_nodup _ _ _ Hok) as Hnd. rewrite Hp in Hnd. apply NoDup_cons in Hnd as [Ht Hnd].
  assert (absent t (set_list l ts)) as Hab by (unfold absent; simpl; split_and!; [intros ?%O1; congruence|done|intros ?%O3; congruence]).
  apply (tinv_leave w _ (t_cpu x) ts (set_list l ts) t); try done; simpl; auto.
  - intros u Hu. left. by rewrite lookup_insert_ne.
  - intros c2 ts2 Hc2. by eapply absent_elsewhere.
  - eapply (cpu_ok_ext (tm w)).
    + intros u Hu. rewrite lookup_insert_ne; [done|]. intros ->. by eapply absent_present.
    + apply cpu_ok_list; [done..|]. intros u Hu. apply Hok. rewrite Hp. by right.
  - intros u Hu. rewrite Hp, elem_of_cons. tauto.
  - exists y. by rewrite lookup_insert_eq.
Qed.

(** A timer in no structure enters the heap. *)
Lemma tinv_enheap off w t x x' ts h' m' si dl :
  tinv (t :: off) w -> t ∉ off -> tm w !! t = Some x -> per_cpu w !! t_cpu x = Some ts -> status x = TIMER_STATUS_in_heap ->
  heap_ok h' m' -> members h' ≡ₚ t :: members (ts_heap ts) -> offsets_only (t :: members (ts_heap ts)) (tm w) m' ->
  m' !! t = Some x' -> Z.of_nat (heap_size h') <= heap_limit ts ->
  tinv off (TWorld m' (<[t_cpu x := set_heap h' ts]> (per_cpu w)) si dl).
Proof.
  intros Hi Hoff Hx Hts Hs Hok' Hmem Hoo Hx' Hlim. pose proof (ti_cpu _ _ Hi _ _ Hts) as Hok.
  destruct (ti_off _ _ Hi t ltac:(by left)) as [_ Hab]. destruct (Hab _ _ Hts) as (A1 & A2 & A3).
  assert (x' = set_offset (heap_offset x') x) as Ex'. { destruct (oo_offset _ _ _ Hoo t x Hx) as (o & Ho). assert (x' = set_offset o x) as -> by congruence. done. }
  assert (forall u, u ∈ members (ts_heap ts) -> exists z o, tm w !! u = Some z /\ m' !! u = Some (set_offset o z) /\ status z = TIMER_STATUS_in_heap /\ t_cpu z = t_cpu x) as Hin.
  { intros u Hu. destruct (ck_members _ _ _ Hok u Hu) as (z & Hz & ? & ?). destruct (oo_offset _ _ _ Hoo u z Hz) as (o & Ho). by exists z, o. }
  apply (tinv_enter w _ (t_cpu x) ts (set_heap h' ts) t); try done; simpl; auto.
  - intros u Hu. destruct (decide (u ∈ members (ts_heap ts))) as [Hm|Hm]; [right; by apply Hin|].
    left. apply Hoo. intros [?|?]%elem_of_cons; done.
  - intros c2 ts2 _. by apply Hab.
  - apply (cpu_ok_heap (tm w)); [done|done| | |done].
    + intros u Hu. rewrite Hmem in Hu. apply elem_of_cons in Hu as [->|Hu].
      * exists x'. rewrite Ex'. simpl. split_and!; [by rewrite Hx', Ex'|done|done].
      * destruct (Hin u Hu) as (z & o & _ & Hz & ? & ?). by exists (set_offset o z).
    + intros u Hu. apply Hoo. intros [->|Hm]%elem_of_cons; [tauto|]. destruct (ck_members _ _ _ Hok u Hm) as (z & Hz & Hsz & _).
      destruct (only_in _ _ _ _ _ Hok Hz) as (_ & P2 & P3). destruct Hu as [?%P2|?%P3]; congruence.
  - intros u Hu. rewrite Hmem, elem_of_cons. tauto.
  - intros x2 Hx2. assert (x2 = x') as -> by congruence. unfold located. rewrite Ex'. simpl. rewrite Hs, lookup_insert_eq.
    eexists. split; [done|]. simpl. rewrite Hmem. by left.
Qed.

(** A timer in no structure enters the overflow list. *)
Lemma tinv_enlist off w t y ts l si dl :
  tinv (t :: off) w -> t ∉ off -> per_cpu w !! t_cpu y = Some ts -> status y = TIMER_STATUS_in_list ->
  l ≡ₚ t :: ts_list ts -> StronglySorted (earlier (<[t := y]> (tm w))) l ->
  tinv off (TWorld (<[t := y]> (tm w)) (<[t_cpu y := set_list l ts]> (per_cpu w)) si dl).
Proof.
  intros Hi Hoff Hts Hs Hp Hsrt. pose proof (tinv_off_change (t :: off) w t y ltac:(by left) Hi) as Hi'. pose proof (ti_cpu _ _ Hi' _ _ Hts) as Hok. simpl in Hok.
  destruct (ti_off _ _ Hi t ltac:(by left)) as [_ Hab]. destruct (Hab _ _ Hts) as (A1 & A2 & A3).
  apply (tinv_enter (set_tm (<[t := y]> (tm w)) w) _ (t_cpu y) ts (set_list l ts) t); try done; simpl; auto.
  - intros c2 ts2 _. by apply Hab.
  - apply cpu_ok_list; [done| |done|].
    + rewrite Hp. apply NoDup_cons. split; [done|apply Hok].
    + intros u Hu. rewrite Hp in Hu. apply elem_of_cons in Hu as [->|Hu]; [exists y; by rewrite lookup_insert_eq|by apply Hok].
  - intros u Hu. rewrite Hp, elem_of_cons. tauto.
  - intros x2. rewrite lookup_insert_eq. intros [= <-]. unfold located. rewrite Hs. simpl. rewrite lookup_insert_eq.
    eexists. split; [done|]. simpl. rewrite Hp. by left.
Qed.

(** ** The list operations *)

Lemma list_remove_spec l t : t ∈ l -> exists l', list_remove l t = Some l' /\ l ≡ₚ t :: l' /\ sublist l' l.
Proof.
  induction l as [|c l IH]; intros Ht; [by apply elem_of_nil in Ht|]. simpl. case_decide as E.
  - subst. exists l. split_and!; [done|done|by apply sublist_cons].
  - apply elem_of_cons in Ht as [->|Ht]; [done|]. destruct (IH Ht) as (l' & -> & Hp & Hsub). exists (c :: l'). split_and!; [done| |by apply sublist_skip].
    rewrite Hp. apply Permutation_swap.
Qed.

Lemma sorted_sublist {A} (R : A -> A -> Prop) l l' : sublist l' l -> StronglySorted R l -> StronglySorted R l'.
Proof.
  induction 1 as [|x l1 l2 Hsub IH|x l1 l2 Hsub IH]; intros Hs; [constructor| |]; apply sorted_cons in Hs as [Hs Hx]; [|auto].
  apply sorted_cons. split; [auto|]. intros y Hy. apply Hx. by eapply elem_of_sublist.
Qed.

Lemma list_insert_spec m t e l :
  (forall u, u ∈ l -> exists x, m !! u = Some x) -> StronglySorted (earlier m) l -> key m t = e ->
  exists l', list_insert m e t l = Some l' /\ l' ≡ₚ t :: l /\ StronglySorted (earlier m) l'.
Proof.
  intros Hk Hs Ht. induction l as [|c l IH]; simpl.
  - exists [t]. split_and!; [done|done|repeat constructor].
  - destruct (Hk c ltac:(by left)) as (x & Hx). rewrite Hx. simpl. apply sorted_cons in Hs as [Hs Hc].
    assert (expires x = key m c) as -> by (unfold key; by rewrite Hx). destruct (Z.leb_spec (key m c) e) as [Hle|Hgt].
    + destruct IH as (l' & -> & Hp & Hs'); [intros u Hu; apply Hk; by right|done|]. exists (c :: l'). split_and!; [done| |].
      * rewrite Hp. apply Permutation_swap.
      * apply sorted_cons. split; [done|]. intros u Hu. rewrite Hp in Hu. apply elem_of_cons in Hu as [->|Hu]; [unfold earlier; lia|by apply Hc].
    + exists (t :: c :: l). split_and!; [done|done|]. apply sorted_cons. split; [by apply sorted_cons|].
      intros u [->|Hu]%elem_of_cons; unfold earlier; [lia|]. specialize (Hc u Hu). unfold earlier in Hc. lia.
Qed.

(** ** Periodic timers *)

(** The first tick is rounded up to a multiple of the period. *)
Lemma align_timer_spec firsttick period :
  1 <= firsttick -> 0 < period -> firsttick + period <= STIME_MAX ->
  align_timer firsttick period mod period = 0 /\ firsttick <= align_timer firsttick period < firsttick + period.
Proof.
  intros Hf Hp Hm. unfold STIME_MAX in Hm. unfold align_timer. destruct (Z.eqb_spec period 0); [lia|].
  pose proof (Z.mod_pos_bound (firsttick - 1) period Hp) as Hb. pose proof (Z.div_mod (firsttick - 1) period ltac:(lia)) as Hd.
  set (q := (firsttick - 1) / period) in *. set (r := (firsttick - 1) mod period) in *.
  unfold u64. rewrite !(Z.mod_small firsttick), !(Z.mod_small (period - 1)), !(Z.mod_small (firsttick - 1)) by lia. fold r.
  rewrite (Z.mod_small (_ - r)) by lia. unfold s64. rewrite (Z.mod_small (_ + 9223372036854775808)) by lia.
  replace (firsttick + (period - 1) - r + 9223372036854775808 - 9223372036854775808) with ((q + 1) * period) by lia.
  rewrite Z.mod_mul by lia. nia.
Qed.
