(* ===== verification/TimerOps.v ===== *)
(** * Timers: what the operations do

    The timers seen as a map from addresses to phases, the calls of the interface as changes
    of that map, and the softirq handler. *)

From S2P Require Import Prelude.
From S2P Require Import Xen.
From S2P Require Import Timer.
From S2P Require Import TimerHeap.
From S2P Require Import TimerFacts.

(** ** The abstract view *)

Inductive phase : Type := PActive (e : Z) | PInactive | PKilled | PMoving.

Record atimer : Type := ATimer { a_phase : phase; a_cpu : Z; a_fn : Z }.

(** Heap and list are not distinguished; the expiry time matters for active timers only. *)
Definition phase_of (x : timer) : phase :=
  match status x with
  | TIMER_STATUS_in_heap | TIMER_STATUS_in_list => PActive (expires x)
  | TIMER_STATUS_inactive => PInactive
  | TIMER_STATUS_killed => PKilled
  | TIMER_STATUS_invalid => PMoving
  end.
Definition abs_timer (x : timer) : atimer := ATimer (phase_of x) (t_cpu x) (function x).
Definition abs (w : tworld) : gmap Z atimer := abs_timer <$> tm w.

(** What an operation may not touch: the processors, their limits and running timers. *)
Definition cpu_frame (ts : timers) : Z * option Z := (heap_limit ts, running ts).
Definition frame (w : tworld) : gmap Z (Z * option Z) := cpu_frame <$> per_cpu w.

Lemma frame_lookup w w' c ts : frame w' = frame w -> per_cpu w !! c = Some ts -> exists ts', per_cpu w' !! c = Some ts' /\ cpu_frame ts' = cpu_frame ts.
Proof.
  intros E Hts. assert (frame w' !! c = Some (cpu_frame ts)) as H by (rewrite E; unfold frame; by rewrite lookup_fmap, Hts).
  unfold frame in H. rewrite lookup_fmap in H. destruct (per_cpu w' !! c) as [ts'|]; [|done]. exists ts'. split; [done|]. simpl in H. congruence.
Qed.

Lemma frame_insert w w' c ts ts' :
  per_cpu w !! c = Some ts -> per_cpu w' = <[c := ts']> (per_cpu w) -> cpu_frame ts' = cpu_frame ts -> frame w' = frame w.
Proof.
  intros Hts E Hf. unfold frame. rewrite E, fmap_insert, Hf. apply insert_id. by rewrite lookup_fmap, Hts.
Qed.

(** Only [t] changes, to [a]. *)
Record updated (t : Z) (a : atimer) (w w' : tworld) : Prop := Updated {
  up_abs : abs w' = <[t := a]> (abs w);
  up_frame : frame w' = frame w;
  up_softirqs : softirqs w ⊆ softirqs w';
  up_deadline : timer_deadline w' = timer_deadline w;
  (** The others stay in the structure they are in. *)
  up_status u : u <> t -> status <$> tm w' !! u = status <$> tm w !! u
}.

Lemma updated_trans t a b w1 w2 w3 : updated t a w1 w2 -> updated t b w2 w3 -> updated t b w1 w3.
Proof.
  intros [A1 A2 A3 A4 A5] [B1 B2 B3 B4 B5]. split; [|congruence|set_solver|congruence|].
  - by rewrite B1, A1, insert_insert_eq.
  - intros u Hu. by rewrite B5, A5.
Qed.

(** An active timer of processor [c] that expires no later than [e]. *)
Definition due_before (w : tworld) (c e : Z) (u : Z) : Prop :=
  exists e' f, abs w !! u = Some (ATimer (PActive e') c f) /\ e' <= e.

Lemma abs_lookup w t x : tm w !! t = Some x -> abs w !! t = Some (abs_timer x).
Proof. intros Hx. unfold abs. by rewrite lookup_fmap, Hx. Qed.

Lemma abs_inv w t a : abs w !! t = Some a -> exists x, tm w !! t = Some x /\ abs_timer x = a.
Proof. unfold abs. rewrite lookup_fmap. destruct (tm w !! t) as [x|]; [|done]. intros [= <-]. by exists x. Qed.

Lemma abs_offsets s m m' t y :
  offsets_only s m m' -> abs_timer <$> <[t := y]> m' = <[t := abs_timer y]> (abs_timer <$> m).
Proof.
  intros Hoo. rewrite fmap_insert. f_equal. apply map_eq. intros u. rewrite !lookup_fmap.
  destruct (m !! u) as [z|] eqn:E; [|by rewrite (oo_none _ _ _ Hoo u E)]. by destruct (oo_offset _ _ _ Hoo u z E) as (o & ->).
Qed.

Lemma status_offsets s m m' u : offsets_only s m m' -> status <$> m' !! u = status <$> m !! u.
Proof.
  intros Hoo. destruct (m !! u) as [z|] eqn:E; [|by rewrite (oo_none _ _ _ Hoo u E)]. by destruct (oo_offset _ _ _ Hoo u z E) as (o & ->).
Qed.

(** The last field of [updated] where only [t] is written. *)
Ltac others := intros ? ?; simpl; by rewrite ?lookup_insert_ne by done.

(** ** Evaluating the accessors *)

Section Access.
Context (E : error -> Prop).

Lemma wp_get_timer t x w (Q : timer -> tworld -> Prop) : tm w !! t = Some x -> Q x w -> wp E (get_timer t) Q w.
Proof. intros Hx HQ. unfold wp, get_timer, of_option. by rewrite Hx. Qed.

Lemma wp_get_ts c ts w (Q : timers -> tworld -> Prop) : per_cpu w !! c = Some ts -> Q ts w -> wp E (get_ts c) Q w.
Proof. intros Hx HQ. unfold wp, get_ts, of_option. by rewrite Hx. Qed.

Lemma wp_mod_timer t f x w (Q : unit -> tworld -> Prop) :
  tm w !! t = Some x -> Q tt (set_tm (<[t := f x]> (tm w)) w) -> wp E (mod_timer t f) Q w.
Proof. intros Hx HQ. unfold mod_timer. apply wp_bind. eapply wp_get_timer; [done|]. by apply wp_modify. Qed.

Lemma wp_mod_ts c f ts w (Q : unit -> tworld -> Prop) :
  per_cpu w !! c = Some ts -> Q tt (set_per_cpu (<[c := f ts]> (per_cpu w)) w) -> wp E (mod_ts c f) Q w.
Proof. intros Hx HQ. unfold mod_ts. apply wp_bind. eapply wp_get_ts; [done|]. by apply wp_modify. Qed.

Lemma wp_on_heap {A} c (p : M hstate A) ts w (Q : A -> tworld -> Prop) :
  per_cpu w !! c = Some ts ->
  wp E p (fun a s => Q a (set_tm (hs_tm s) (set_per_cpu (<[c := set_heap (hs_heap s) ts]> (per_cpu w)) w))) (HState (ts_heap ts) (tm w)) ->
  wp E (on_heap c p) Q w.
Proof. intros Hts HQ. unfold on_heap. apply wp_bind. eapply wp_get_ts; [done|]. by apply wp_zoom. Qed.

Lemma wp_state_option {A} e (f : tworld -> option A) a w (Q : A -> tworld -> Prop) :
  f w = Some a -> Q a w -> wp E (fun w => of_option e (f w) w) Q w.
Proof. intros Hf HQ. unfold wp, of_option. by rewrite Hf. Qed.
End Access.

(** ** Removing and adding *)

Lemma located_active off w t x : tinv off w -> t ∉ off -> tm w !! t = Some x -> status x <> TIMER_STATUS_killed -> exists ts, per_cpu w !! t_cpu x = Some ts.
Proof.
  intros Hi Ho Hx Hs. pose proof (ti_located _ _ Hi t x Hx Ho) as Hl. unfold located in Hl.
  destruct (status x); try done; destruct Hl as (ts & ? & _); by exists ts.
Qed.

Lemma remove_entry_spec t x w (Q : bool -> tworld -> Prop) :
  tinv [] w -> tm w !! t = Some x -> (exists e, phase_of x = PActive e) ->
  (forall rc w' y, tinv [t] w' -> updated t (ATimer PMoving (t_cpu x) (function x)) w w' ->
     tm w' !! t = Some y -> status y = TIMER_STATUS_invalid -> expires y = expires x -> Q rc w') ->
  wp no_error (remove_entry t) Q w.
Proof.
  intros Hi Hx [e Hph] HQ. unfold remove_entry. wp_step. eapply wp_get_timer; [done|]. wp_step.
  pose proof (ti_located _ _ Hi t x Hx (not_elem_of_nil _)) as Hloc. unfold located in Hloc. unfold phase_of in Hph.
  destruct (status x) eqn:Hs; try done; destruct Hloc as (ts & Hts & Hin); pose proof (ti_cpu _ _ Hi _ _ Hts) as Hok.
  - eapply wp_on_heap; [done|]. apply remove_from_heap_spec; [apply Hok|done|]. intros h' m' Hok' Hmem Hoo Hlen. simpl.
    destruct (oo_offset _ _ _ Hoo t x Hx) as (o & Ho). wp_step. eapply wp_mod_timer; [done|]. wp_step.
    eapply HQ; [by eapply (tinv_unheap w t x _ ts h' m')| |simpl; apply lookup_insert_eq|done|done].
    split; [unfold abs; simpl; by rewrite (abs_offsets _ _ _ _ _ Hoo)|by eapply frame_insert|done|done|].
    intros u Hu. simpl. rewrite lookup_insert_ne by done. by eapply status_offsets.
  - unfold remove_from_list. wp_step. eapply wp_get_ts; [done|]. destruct (list_remove_spec _ _ Hin) as (l & El & Hp & Hsub).
    wp_step. eapply wp_of_option; [done|]. wp_step. eapply wp_mod_ts; [done|]. wp_step. wp_step. eapply wp_mod_timer; [done|]. wp_step.
    eapply HQ; [eapply (tinv_unlist w t x _ ts l); try done; by eapply sorted_sublist, Hok| |simpl; apply lookup_insert_eq|done|done].
    split; [unfold abs; simpl; by rewrite fmap_insert|by eapply frame_insert|done|done|others].
Qed.

(** The timers of the structures are active. *)
Lemma due_from_list off w c ts u e :
  tinv off w -> per_cpu w !! c = Some ts -> u ∈ ts_list ts \/ u ∈ members (ts_heap ts) -> key (tm w) u <= e ->
  due_before w c e u.
Proof.
  intros Hi Hts Hu Hk. pose proof (ti_cpu _ _ Hi _ _ Hts) as Hok.
  assert (exists x, tm w !! u = Some x /\ t_cpu x = c /\ phase_of x = PActive (expires x)) as (x & Hx & Hc & Hp).
  { unfold phase_of. destruct Hu as [H|H]; [destruct (ck_list _ _ _ Hok u H) as (x & Hx & Hs & Hc)|destruct (ck_members _ _ _ Hok u H) as (x & Hx & Hs & Hc)];
      exists x; by rewrite Hs. }
  exists (expires x), (function x). rewrite (abs_lookup _ _ _ Hx). unfold abs_timer. rewrite Hp, Hc. split; [done|].
  unfold key in Hk. by rewrite Hx in Hk.
Qed.

Lemma add_entry_spec off t x w ts (Q : bool -> tworld -> Prop) :
  tinv (t :: off) w -> t ∉ off -> tm w !! t = Some x -> status x = TIMER_STATUS_invalid -> per_cpu w !! t_cpu x = Some ts ->
  (forall rc w', tinv off w' -> updated t (ATimer (PActive (expires x)) (t_cpu x) (function x)) w w' ->
     (rc = false -> exists u, u <> t /\ due_before w (t_cpu x) (expires x) u) -> Q rc w') ->
  wp no_error (add_entry t) Q w.
Proof.
  intros Hi Hoff Hx Hs Hts HQ. unfold add_entry. wp_step. eapply wp_get_timer; [done|]. wp_step.
  apply wp_assert; [by apply bool_decide_eq_true|]. wp_step. eapply wp_mod_timer; [done|].
  set (x1 := set_status TIMER_STATUS_in_heap (set_offset 0 x)). set (w1 := set_tm (<[t := x1]> (tm w)) w).
  assert (tinv (t :: off) w1) as Hi1 by (apply tinv_off_change; [by left|done]). assert (tm w1 !! t = Some x1) as Hx1 by (simpl; apply lookup_insert_eq).
  assert (per_cpu w1 !! t_cpu x1 = Some ts) as Hts1 by done. pose proof (ti_cpu _ _ Hi1 _ _ Hts1) as Hok.
  destruct (ti_off _ _ Hi1 t ltac:(by left)) as [_ Hab]. destruct (Hab _ _ Hts1) as (A1 & A2 & A3).
  wp_step. eapply wp_get_ts; [done|]. wp_step. eapply wp_on_heap; [done|]. apply (add_to_heap_spec _ t x1); [apply Hok|done|done| |].
  - intros _. simpl. wp_step. eapply wp_get_timer; [simpl; apply lookup_insert_eq|]. simpl. wp_step.
    eapply wp_mod_timer; [simpl; apply lookup_insert_eq|]. set (x2 := set_status TIMER_STATUS_in_list x1).
    unfold add_to_list. wp_step. eapply wp_get_ts; [simpl; apply lookup_insert_eq|]. wp_step.
    eapply wp_get_timer; [simpl; apply lookup_insert_eq|]. simpl. rewrite insert_insert_eq. fold x2.
    assert (tinv (t :: off) (set_tm (<[t := x2]> (tm w)) w)) as Hi2 by (apply tinv_off_change; [by left|done]). pose proof (ti_cpu _ _ Hi2 _ _ Hts) as Hok2.
    destruct (list_insert_spec (<[t := x2]> (tm w)) t (expires x) (ts_list ts)) as (l & El & Hp & Hsrt).
    { intros u Hu. destruct (ck_list _ _ _ Hok2 u Hu) as (z & Hz & _). by exists z. }
    { apply Hok2. }
    { unfold key. by rewrite lookup_insert_eq. }
    wp_step. eapply (wp_state_option _ _ (fun w => list_insert (tm w) _ _ _)); [exact El|]. wp_step. eapply wp_mod_ts; [simpl; apply lookup_insert_eq|]. wp_step.
    unfold set_per_cpu, set_tm. simpl. rewrite insert_insert_eq. apply HQ.
    + by eapply (tinv_enlist off w t x2 ts l).
    + split; [unfold abs; simpl; by rewrite fmap_insert|eapply frame_insert; done|done|done|others].
    + intros Hh%bool_decide_eq_false. destruct l as [|u l]; [by apply Permutation_nil_cons in Hp|].
      assert (u <> t) as Hut by (intros ->; by apply Hh). exists u. split; [done|].
      assert (u ∈ ts_list ts) as Hu by (assert (u ∈ t :: ts_list ts) as Hu by (rewrite <- Hp; by left); by apply elem_of_cons in Hu as [->|Hu]).
      assert (key (<[t := x2]> (tm w)) u <= key (<[t := x2]> (tm w)) t) as Hk.
      { apply sorted_cons in Hsrt as [_ Hsrt]. apply Hsrt. assert (t ∈ u :: l) as Ht by (rewrite Hp; by left).
        by apply elem_of_cons in Ht as [->|Ht]. }
      eapply (due_from_list (t :: off) w _ ts); [done|done|by left|]. unfold key in *. rewrite lookup_insert_eq, lookup_insert_ne in Hk by done. done.
  - intros h' m' o Hne Hok' Hmem Hoo Ho Hopos Hlen. wp_step. eapply wp_get_timer; [done|]. simpl.
    destruct (Z.eqb_spec o 0); [lia|]. simpl. wp_step. apply HQ.
    + eapply (tinv_enheap off w1 t x1 _ ts h' m'); try done. destruct (ck_limit _ _ _ Hok). unfold heap_size in *. lia.
    + split; [|eapply frame_insert; done|done|done|].
      * unfold abs. simpl. rewrite <- (insert_id m' t _ Ho), (abs_offsets _ _ _ _ _ Hoo). simpl. by rewrite fmap_insert, insert_insert_eq.
      * intros u Hu. simpl. rewrite (status_offsets _ _ _ _ Hoo). simpl. by rewrite lookup_insert_ne.
    + intros Ho1%Z.eqb_neq. destruct (heap_ok_offset h' m' t _ Hok' ltac:(rewrite Hmem; by left) Ho) as (i & Hi' & Hoi & Hit). simpl in Hoi.
      assert (h' !!! 1%nat ∈ members h') as Hu by (apply members_at; exists 1%nat; split; [lia|done]).
      assert (h' !!! 1%nat <> t) as Hut.
      { intros E. assert (1%nat = i); [|lia]. eapply heap_ok_unique; [done|lia|lia|congruence]. }
      exists (h' !!! 1%nat). split; [done|]. eapply (due_from_list (t :: off) w _ ts); [done|done| |].
      { right. rewrite Hmem in Hu. by apply elem_of_cons in Hu as [E|Hu]. }
      pose proof (heap_ok_top h' m' t Hok' ltac:(rewrite Hmem; by left)) as Hk. rewrite !(offsets_only_key _ _ _ _ Hoo) in Hk.
      unfold key in *. simpl in Hk. by rewrite lookup_insert_eq, lookup_insert_ne in Hk by done.
Qed.

(** ** The interface *)

Lemma wp_raise (rc : bool) c w (Q : unit -> tworld -> Prop) :
  (forall si, softirqs w ⊆ si -> (rc = true -> c ∈ si) -> Q tt (TWorld (tm w) (per_cpu w) si (timer_deadline w))) ->
  wp no_error (when rc (cpu_raise_softirq c)) Q w.
Proof.
  intros HQ. wp_step.
  - apply wp_modify. apply HQ; set_solver.
  - specialize (HQ (softirqs w) ltac:(done) ltac:(congruence)). by destruct w.
Qed.

Lemma deactivate_spec t x w (Q : unit -> tworld -> Prop) :
  tinv [] w -> tm w !! t = Some x -> (exists e, phase_of x = PActive e) ->
  (forall w' y, tinv [] w' -> updated t (ATimer PInactive (t_cpu x) (function x)) w w' ->
     tm w' !! t = Some y -> status y = TIMER_STATUS_inactive -> expires y = expires x -> Q tt w') ->
  wp no_error (deactivate_timer t) Q w.
Proof.
  intros Hi Hx Hph HQ. unfold deactivate_timer. wp_step. eapply wp_get_timer; [done|]. wp_step.
  eapply remove_entry_spec; [done..|]. intros rc w1 y Hi1 [U1 U2 U3 U4 U5] Hy Hsy Hey. wp_step. apply wp_raise. intros si Hsi _.
  assert (t_cpu y = t_cpu x /\ function y = function x) as [Ec Ef].
  { pose proof (abs_lookup _ _ _ Hy) as E. rewrite U1, lookup_insert_eq in E. unfold abs_timer in E. by simplify_eq. }
  destruct (located_active [] w t x) as (ts & Hts); [done|by apply not_elem_of_nil|done| |].
  { destruct Hph as [e He]. unfold phase_of in He. by intros E; rewrite E in He. }
  destruct (frame_lookup w w1 _ _ U2 Hts) as (ts1 & Hts1 & _).
  wp_step. eapply wp_mod_timer; [done|]. unfold add_inactive. eapply wp_mod_ts; [done|]. simpl. unfold set_per_cpu, set_tm. simpl.
  eapply HQ; [|split|simpl; apply lookup_insert_eq|done|done].
  - rewrite <- Ec in *. by apply (tinv_park w1 t (set_status TIMER_STATUS_inactive y) ts1).
  - unfold abs. simpl. rewrite fmap_insert. fold (abs w1). rewrite U1, insert_insert_eq. unfold abs_timer, phase_of. simpl. by rewrite Ec, Ef.
  - rewrite <- U2. by eapply frame_insert.
  - simpl. set_solver.
  - done.
  - intros u Hu. simpl. rewrite lookup_insert_ne by done. by apply U5.
Qed.

Lemma activate_spec t x w (Q : unit -> tworld -> Prop) :
  tinv [] w -> tm w !! t = Some x -> status x = TIMER_STATUS_inactive ->
  (forall w', tinv [] w' -> updated t (ATimer (PActive (expires x)) (t_cpu x) (function x)) w w' ->
     (t_cpu x ∈ softirqs w' \/ exists u, u <> t /\ due_before w (t_cpu x) (expires x) u) -> Q tt w') ->
  wp no_error (activate_timer t) Q w.
Proof.
  intros Hi Hx Hs HQ. destruct (located_active [] w t x) as (ts & Hts); [done|by apply not_elem_of_nil|done|congruence|].
  unfold activate_timer. wp_step. eapply wp_get_timer; [done|]. wp_step. apply wp_assert; [by apply bool_decide_eq_true|].
  wp_step. eapply wp_mod_timer; [done|]. wp_step. unfold del_inactive. eapply wp_mod_ts; [done|]. simpl. unfold set_per_cpu, set_tm. simpl.
  set (x1 := set_status TIMER_STATUS_invalid x). set (w1 := TWorld (<[t := x1]> (tm w)) _ _ _).
  assert (tinv [t] w1) as Hi1 by by apply (tinv_unpark w t x x1 ts).
  assert (updated t (abs_timer x1) w w1) as U0.
  { split; [unfold abs; simpl; by rewrite fmap_insert|by eapply frame_insert|done|done|others]. }
  wp_step. eapply (add_entry_spec [] t x1); [done|by apply not_elem_of_nil|simpl; apply lookup_insert_eq|done|simpl; apply lookup_insert_eq|].
  intros rc w2 Hi2 U2 Hrc. apply wp_raise. intros si Hsi Hrc'. apply HQ.
  - by eapply tinv_same, Hi2.
  - eapply updated_trans; [exact U0|]. destruct U2 as [A B C D F]. split; try done. simpl. set_solver.
  - destruct rc; [left; simpl; by apply Hrc'|]. right. destruct (Hrc eq_refl) as (u & Hut & e & f & Hu & He). exists u. split; [done|].
    exists e, f. split; [|done]. rewrite (up_abs _ _ _ _ U0), lookup_insert_ne in Hu by done. done.
Qed.

(** The part that [set_timer], [stop_timer] and [kill_timer] share. *)
Lemma settle_spec t x w (Q : unit -> tworld -> Prop) :
  tinv [] w -> tm w !! t = Some x -> status x <> TIMER_STATUS_killed ->
  (forall w' y, tinv [] w' -> updated t (ATimer PInactive (t_cpu x) (function x)) w w' ->
     tm w' !! t = Some y -> status y = TIMER_STATUS_inactive -> Q tt w') ->
  wp no_error (let! active := active_timer t in when active (deactivate_timer t)) Q w.
Proof.
  intros Hi Hx Hk HQ. wp_step. unfold active_timer. wp_step. eapply wp_get_timer; [done|].
  pose proof (ti_located _ _ Hi t x Hx (not_elem_of_nil _)) as Hloc. unfold located in Hloc.
  destruct (status x) eqn:Hs; try done; wp_step; cbn [when].
  - wp_step. eapply HQ; [done| |done|done]. split; try done.
    symmetry. apply insert_id. rewrite (abs_lookup _ _ _ Hx). unfold abs_timer, phase_of. by rewrite Hs.
  - eapply deactivate_spec; [done|done|unfold phase_of; rewrite Hs; by eexists|naive_solver].
  - eapply deactivate_spec; [done|done|unfold phase_of; rewrite Hs; by eexists|naive_solver].
Qed.

Lemma abs_fields w t y a : abs w !! t = Some a -> tm w !! t = Some y -> phase_of y = a_phase a /\ t_cpu y = a_cpu a /\ function y = a_fn a.
Proof. intros Ha Hy. rewrite (abs_lookup _ _ _ Hy) in Ha. by simplify_eq. Qed.

(** What the calls mean. *)
Definition a_op (o : timer_op) (a : gmap Z atimer) : gmap Z atimer :=
  match o with
  | OpInit t fn cpu => <[t := ATimer PInactive cpu fn]> a
  | OpSet t e => alter (fun x => match a_phase x with PKilled => x | _ => ATimer (PActive e) (a_cpu x) (a_fn x) end) t a
  | OpStop t => alter (fun x => match a_phase x with PActive _ => ATimer PInactive (a_cpu x) (a_fn x) | _ => x end) t a
  | OpMigrate t cpu => alter (fun x => match a_phase x with PKilled => x | _ => ATimer (a_phase x) cpu (a_fn x) end) t a
  | OpKill _ t => alter (fun x => ATimer PKilled TIMER_CPU_status_killed (a_fn x)) t a
  end.

Definition subject (o : timer_op) : Z := match o with OpInit t _ _ | OpSet t _ | OpStop t | OpMigrate t _ | OpKill _ t => t end.

(** What the callers guarantee: the timer exists (a new one may reuse a killed one), the
    processor too, and a timer is not killed while its handler runs. *)
Definition call_ok (w : tworld) (o : timer_op) : Prop :=
  match o with
  | OpInit t _ cpu => (forall x, tm w !! t = Some x -> status x = TIMER_STATUS_killed) /\ is_Some (per_cpu w !! cpu)
  | OpSet t _ | OpStop t => is_Some (tm w !! t)
  | OpMigrate t cpu => is_Some (tm w !! t) /\ is_Some (per_cpu w !! cpu)
  | OpKill this t => is_Some (tm w !! t) /\ is_Some (per_cpu w !! this) /\ forall c ts, per_cpu w !! c = Some ts -> running ts <> Some t
  end.

Record op_post (o : timer_op) (w w' : tworld) : Prop := OpPost {
  op_inv : tinv [] w';
  op_abs : abs w' = a_op o (abs w);
  op_frame : frame w' = frame w;
  op_softirqs : softirqs w ⊆ softirqs w';
  op_deadline : timer_deadline w' = timer_deadline w;
  op_status u : u <> subject o -> status <$> tm w' !! u = status <$> tm w !! u;
  (** A timer that is now active was so before, or wakes its processor, or is not the first. *)
  op_wakes t e c f : abs w' !! t = Some (ATimer (PActive e) c f) ->
    abs w !! t = Some (ATimer (PActive e) c f) \/ c ∈ softirqs w' \/ exists u, u <> t /\ due_before w c e u
}.

Lemma alter_insert_lookup (f : atimer -> atimer) t a (m : gmap Z atimer) : m !! t = Some a -> alter f t m = <[t := f a]> m.
Proof.
  intros H. apply map_eq. intros u. destruct (decide (u = t)) as [->|].
  - by rewrite lookup_alter_eq, lookup_insert_eq, H.
  - by rewrite lookup_alter_ne, lookup_insert_ne.
Qed.

(** An operation that makes one timer inactive or killed. *)
Lemma op_post_quiet o t a w w' :
  subject o = t -> tinv [] w' -> updated t a w w' -> a_op o (abs w) = <[t := a]> (abs w) ->
  (forall e, a_phase a = PActive e -> abs w !! t = Some a) -> op_post o w w'.
Proof.
  intros <- Hi [U1 U2 U3 U4 U5] Ho Ha. set (t := subject o) in *. split; try done; [congruence|]. intros u e c f. rewrite U1.
  destruct (decide (u = t)) as [->|Hne]; [rewrite lookup_insert_eq|rewrite lookup_insert_ne by done; by left].
  intros [= ->]. left. by apply (Ha e).
Qed.

Lemma killed_cpu w t x : tinv [] w -> tm w !! t = Some x -> (t_cpu x =? TIMER_CPU_status_killed) = bool_decide (status x = TIMER_STATUS_killed).
Proof.
  intros Hi Hx. pose proof (ti_located _ _ Hi t x Hx (not_elem_of_nil _)) as Hl. unfold located in Hl. pose proof (ti_killed _ _ Hi) as Hk.
  destruct (status x); try done; try (destruct Hl as (ts & Hts & _)).
  - destruct (Z.eqb_spec (t_cpu x) TIMER_CPU_status_killed) as [E|E]; [rewrite E in Hts; congruence|done].
  - by rewrite Hl.
  - destruct (Z.eqb_spec (t_cpu x) TIMER_CPU_status_killed) as [E|E]; [rewrite E in Hts; congruence|done].
  - destruct (Z.eqb_spec (t_cpu x) TIMER_CPU_status_killed) as [E|E]; [rewrite E in Hts; congruence|done].
Qed.

(** [timer_lock]: the operation goes on unless the timer is killed. *)
Lemma wp_locked t x w (m : M tworld unit) (Q : unit -> tworld -> Prop) :
  tinv [] w -> tm w !! t = Some x ->
  (status x = TIMER_STATUS_killed -> Q tt w) -> (status x <> TIMER_STATUS_killed -> wp no_error m Q w) ->
  wp no_error (let! locked := timer_lock t in when locked m) Q w.
Proof.
  intros Hi Hx H1 H2. wp_step. unfold timer_lock. wp_step. eapply wp_get_timer; [done|]. wp_step. rewrite (killed_cpu w t x) by done.
  case_bool_decide; simpl; [wp_step; auto|auto].
Qed.

Lemma op_post_refl o w t a : subject o = t -> tinv [] w -> abs w !! t = Some a -> a_op o (abs w) = <[t := a]> (abs w) -> op_post o w w.
Proof. intros Hs Hi Ha Ho. eapply (op_post_quiet o t a); [done|done| |done|done]. split; try done. by rewrite insert_id. Qed.

Lemma phase_killed x : status x = TIMER_STATUS_killed -> phase_of x = PKilled.
Proof. unfold phase_of. by intros ->. Qed.

Lemma stop_timer_spec t w :
  tinv [] w -> call_ok w (OpStop t) -> wp no_error (stop_timer t) (fun _ w' => op_post (OpStop t) w w') w.
Proof.
  intros Hi [x Hx]. unfold stop_timer. pose proof (abs_lookup _ _ _ Hx) as Ha. eapply wp_locked; [done|done| |].
  - intros Hk. eapply op_post_refl; [done|done|done|]. simpl. rewrite (alter_insert_lookup _ _ _ _ Ha). simpl. by rewrite phase_killed.
  - intros Hk. eapply settle_spec; [done..|]. intros w' y Hi' U Hy Hsy. eapply op_post_quiet; [done|done|done| |done].
    simpl. rewrite (alter_insert_lookup _ _ _ _ Ha). f_equal. simpl. pose proof (ti_located _ _ Hi t x Hx (not_elem_of_nil _)) as Hl.
    unfold located, phase_of, abs_timer, phase_of in *. by destruct (status x).
Qed.

Lemma set_timer_spec t e w :
  tinv [] w -> call_ok w (OpSet t e) -> wp no_error (set_timer t e) (fun _ w' => op_post (OpSet t e) w w') w.
Proof.
  intros Hi [x Hx]. unfold set_timer. pose proof (abs_lookup _ _ _ Hx) as Ha. eapply wp_locked; [done|done| |].
  - intros Hk. eapply op_post_refl; [done|done|done|]. simpl. rewrite (alter_insert_lookup _ _ _ _ Ha). simpl. by rewrite phase_killed.
  - intros Hk. wp_step. eapply settle_spec; [done..|]. intros w1 y Hi1 U1 Hy Hsy.
    destruct (abs_fields w1 t y _ ltac:(rewrite (up_abs _ _ _ _ U1); apply lookup_insert_eq) Hy) as (_ & Ec & Ef). simpl in Ec, Ef.
    wp_step. eapply wp_mod_timer; [done|]. set (w2 := set_tm (<[t := set_expires e y]> (tm w1)) w1).
    assert (tinv [] w2) as Hi2 by (eapply tinv_inactive_change; try done).
    assert (updated t (ATimer PInactive (t_cpu x) (function x)) w1 w2) as U2.
    { split; try done; [|others]. unfold abs. simpl. rewrite fmap_insert. unfold abs_timer at 1, phase_of. simpl. by rewrite Hsy, Ec, Ef. }
    pose proof (updated_trans _ _ _ _ _ _ U1 U2) as U12.
    eapply (activate_spec t (set_expires e y)); [done|simpl; apply lookup_insert_eq|done|]. simpl. rewrite Ec, Ef.
    intros w3 Hi3 U3 Hw. destruct (updated_trans _ _ _ _ _ _ U12 U3) as [A B C D F].
    assert (a_op (OpSet t e) (abs w) = <[t := ATimer (PActive e) (t_cpu x) (function x)]> (abs w)) as Ho.
    { simpl. rewrite (alter_insert_lookup _ _ _ _ Ha). f_equal. simpl. pose proof (ti_located _ _ Hi t x Hx (not_elem_of_nil _)) as Hl.
      unfold located, phase_of in *. by destruct (status x). }
    split; try done; [congruence|]. intros u e' c f. rewrite A. destruct (decide (u = t)) as [->|Hne].
    + rewrite lookup_insert_eq. intros [= <- <- <-]. right. destruct Hw as [Hw|(u & Hut & e' & f & Hu & He)]; [by left|]. right.
      exists u. split; [done|]. exists e', f. split; [|done]. by rewrite (up_abs _ _ _ _ U12), lookup_insert_ne in Hu by done.
    + rewrite lookup_insert_ne by done. by left.
Qed.

Lemma init_timer_spec t fn cpu w :
  tinv [] w -> call_ok w (OpInit t fn cpu) -> wp no_error (init_timer t fn cpu) (fun _ w' => op_post (OpInit t fn cpu) w w') w.
Proof.
  intros Hi [Hx [ts Hts]]. unfold init_timer. wp_step. wp_step. set (y := Timer 0 0 fn cpu TIMER_STATUS_inactive).
  assert (tinv [t] (set_tm (<[t := y]> (tm w)) w)) as Hi1 by by apply tinv_new.
  assert (cpu <> TIMER_CPU_status_killed) as Hc by (intros ->; pose proof (ti_killed _ _ Hi); congruence).
  wp_step. unfold timer_lock. wp_step. eapply wp_get_timer; [simpl; apply lookup_insert_eq|]. wp_step. wp_step. simpl.
  destruct (Z.eqb_spec cpu TIMER_CPU_status_killed); [done|]. simpl. wp_step.
  unfold add_inactive. eapply wp_mod_ts; [done|]. eapply (op_post_quiet _ t (abs_timer y)); [done| | |done|done].
  - pose proof (tinv_park _ t y ts (softirqs w) (timer_deadline w) Hi1 eq_refl Hts) as Hp. simpl in Hp. by rewrite insert_insert_eq in Hp.
  - split; try done; [unfold abs; simpl; by rewrite fmap_insert|by eapply frame_insert|others].
Qed.

Lemma nobody_runs t (p : gmap Z timers) :
  (forall c ts, p !! c = Some ts -> running ts <> Some t) ->
  forallb (fun ts => negb (bool_decide (running ts = Some t))) (map snd (map_to_list p)) = true.
Proof.
  intros H. apply forallb_forall. intros ts Hts. apply in_map_iff in Hts as ([c ts'] & E & Hin). simpl in E. subst ts'.
  apply list_elem_of_In, elem_of_map_to_list in Hin. apply negb_true_iff, bool_decide_eq_false. by eapply H.
Qed.

Lemma frame_running w w' c ts t :
  frame w' = frame w -> per_cpu w' !! c = Some ts ->
  (forall c ts, per_cpu w !! c = Some ts -> running ts <> Some t) -> running ts <> Some t.
Proof.
  intros E Hts H. destruct (frame_lookup w' w c ts (eq_sym E) Hts) as (ts0 & H0 & Ef). unfold cpu_frame in Ef. injection Ef as _ <-. by eapply H.
Qed.

Lemma kill_timer_spec this t w :
  tinv [] w -> call_ok w (OpKill this t) -> wp no_error (kill_timer this t) (fun _ w' => op_post (OpKill this t) w w') w.
Proof.
  intros Hi ([x Hx] & [ts0 Hts0] & Hrun). unfold kill_timer. pose proof (abs_lookup _ _ _ Hx) as Ha.
  wp_step. eapply wp_get_ts; [done|]. wp_step. rewrite decide_False by by eapply Hrun. wp_step. eapply wp_locked; [done|done| |].
  - intros Hk. eapply op_post_refl; [done|done|done|]. simpl. rewrite (alter_insert_lookup _ _ _ _ Ha). f_equal. unfold abs_timer. simpl.
    rewrite phase_killed by done. f_equal. pose proof (ti_located _ _ Hi t x Hx (not_elem_of_nil _)) as Hl. unfold located in Hl. by rewrite Hk in Hl.
  - intros Hk. wp_step. eapply settle_spec; [done..|]. intros w1 y Hi1 U1 Hy Hsy.
    destruct (abs_fields w1 t y _ ltac:(rewrite (up_abs _ _ _ _ U1); apply lookup_insert_eq) Hy) as (_ & Ec & Ef). simpl in Ec, Ef.
    wp_step. eapply wp_get_timer; [done|]. destruct (located_active [] w1 t y) as (ts & Hts); [done|by apply not_elem_of_nil|done|congruence|].
    wp_step. unfold del_inactive. eapply wp_mod_ts; [done|]. wp_step. eapply wp_mod_timer; [done|]. wp_step. wp_step. unfold set_tm, set_per_cpu, id. simpl.
    set (y' := set_cpu TIMER_CPU_status_killed (set_status TIMER_STATUS_killed y)).
    set (ts' := set_inactive (list_del_ t (ts_inactive ts)) ts).
    assert (frame (TWorld (tm w1) (<[t_cpu y := ts']> (per_cpu w1)) (softirqs w1) (timer_deadline w1)) = frame w) as Hf.
    { rewrite <- (up_frame _ _ _ _ U1). by eapply frame_insert. }
    rewrite (nobody_runs t) by (intros c ts2 Hc; eapply frame_running; [exact Hf|exact Hc|done]). wp_step.
    assert (tinv [t] (TWorld (<[t := y]> (tm w1)) (<[t_cpu y := ts']> (per_cpu w1)) (softirqs w1) (timer_deadline w1))) as Hi2
      by by apply (tinv_unpark w1 t y y ts).
    pose proof (tinv_kill _ t y' Hi2 eq_refl eq_refl) as Hi3. unfold set_tm in Hi3. simpl in Hi3. rewrite insert_insert_eq in Hi3.
    eapply (op_post_quiet _ t (ATimer PKilled TIMER_CPU_status_killed (function x))); [done|done| | |done].
    + destruct U1 as [A B C D F]. split; [|done|done|done|].
      * unfold abs. simpl. rewrite fmap_insert. fold (abs w1). rewrite A, insert_insert_eq. unfold abs_timer, phase_of. simpl. by rewrite Ef.
      * intros u Hu. simpl. rewrite lookup_insert_ne by done. by apply F.
    + simpl. by rewrite (alter_insert_lookup _ _ _ _ Ha).
Qed.

Lemma wp_seq3 (a b c k : M tworld unit) (Q : unit -> tworld -> Prop) w :
  wp no_error (a ;;; b ;;; c) (fun _ w' => wp no_error k Q w') w -> wp no_error (a ;;; b ;;; c ;;; k) Q w.
Proof.
  unfold wp, bind. destruct (a w) as [[[] w1]|]; [|done]. destruct (b w1) as [[[] w2]|]; [|done]. by destruct (c w2) as [[[] w3]|].
Qed.

(** An inactive timer changes its processor. *)
Lemma move_spec t y cpu w (Q : unit -> tworld -> Prop) :
  tinv [] w -> tm w !! t = Some y -> status y = TIMER_STATUS_inactive -> t_cpu y <> cpu -> is_Some (per_cpu w !! cpu) ->
  (forall w', tinv [] w' -> updated t (ATimer PInactive cpu (function y)) w w' -> tm w' !! t = Some (set_cpu cpu y) -> Q tt w') ->
  wp no_error (del_inactive (t_cpu y) t ;;; mod_timer t (set_cpu cpu) ;;; add_inactive cpu t) Q w.
Proof.
  intros Hi Hy Hs Hne [tsn Htsn] HQ. destruct (located_active [] w t y) as (ts & Hts); [done|by apply not_elem_of_nil|done|congruence|].
  wp_step. unfold del_inactive. eapply wp_mod_ts; [done|]. wp_step. eapply wp_mod_timer; [done|]. unfold add_inactive.
  eapply wp_mod_ts; [simpl; by rewrite lookup_insert_ne|]. unfold set_per_cpu, set_tm. simpl.
  set (ts' := set_inactive (list_del_ t (ts_inactive ts)) ts).
  assert (tinv [t] (TWorld (<[t := y]> (tm w)) (<[t_cpu y := ts']> (per_cpu w)) (softirqs w) (timer_deadline w))) as Hi1
    by by apply (tinv_unpark w t y y ts).
  assert (<[t_cpu y := ts']> (per_cpu w) !! cpu = Some tsn) as Hn by by rewrite lookup_insert_ne.
  pose proof (tinv_park _ t (set_cpu cpu y) tsn (softirqs w) (timer_deadline w) Hi1 Hs Hn) as Hi2. simpl in Hi2. rewrite insert_insert_eq in Hi2.
  apply HQ; [done| |simpl; apply lookup_insert_eq]. split; try done.
  - unfold abs. simpl. rewrite fmap_insert. unfold abs_timer at 1, phase_of. simpl. by rewrite Hs.
  - assert (frame (TWorld (tm w) (<[t_cpu y := ts']> (per_cpu w)) (softirqs w) (timer_deadline w)) = frame w) as <- by by eapply frame_insert.
    by eapply frame_insert.
  - others.
Qed.

Lemma migrate_timer_spec t cpu w :
  tinv [] w -> call_ok w (OpMigrate t cpu) -> wp no_error (migrate_timer t cpu) (fun _ w' => op_post (OpMigrate t cpu) w w') w.
Proof.
  intros Hi ([x Hx] & Hcpu). unfold migrate_timer. pose proof (abs_lookup _ _ _ Hx) as Ha.
  wp_step. eapply wp_get_timer; [done|]. cbv zeta. rewrite (killed_cpu w t x) by done.
  destruct (Z.eqb_spec (t_cpu x) cpu) as [E|E]; simpl.
  { wp_step. eapply op_post_refl; [done|done|done|]. simpl. rewrite (alter_insert_lookup _ _ _ _ Ha). f_equal. unfold abs_timer. simpl.
    destruct (phase_of x); by rewrite E. }
  case_bool_decide as Hk; simpl.
  { wp_step. eapply op_post_refl; [done|done|done|]. simpl. rewrite (alter_insert_lookup _ _ _ _ Ha). f_equal. simpl. by rewrite phase_killed. }
  wp_step. unfold active_timer. wp_step. eapply wp_get_timer; [done|].
  pose proof (ti_located _ _ Hi t x Hx (not_elem_of_nil _)) as Hloc. unfold located in Hloc.
  assert (forall e, phase_of x = PActive e -> wp no_error (deactivate_timer t ;;; del_inactive (t_cpu x) t ;;; mod_timer t (set_cpu cpu) ;;;
    add_inactive cpu t ;;; activate_timer t) (fun _ w' => op_post (OpMigrate t cpu) w w') w) as Hact.
  { intros e He. wp_step. eapply deactivate_spec; [done|done|by eexists|]. intros w1 y Hi1 U1 Hy Hsy Hey.
    destruct (abs_fields w1 t y _ ltac:(rewrite (up_abs _ _ _ _ U1); apply lookup_insert_eq) Hy) as (_ & Ec & Ef). simpl in Ec, Ef.
    rewrite <- Ec. apply wp_seq3, move_spec; [done|done|done|congruence|by destruct Hcpu as [tsn Htsn]; destruct (frame_lookup w w1 _ _ (up_frame _ _ _ _ U1) Htsn) as (ts' & ? & _); exists ts'|].
    intros w2 Hi2 U2 Hy2. eapply (activate_spec t (set_cpu cpu y)); [done|done|done|]. simpl. intros w3 Hi3 U3 Hw.
    pose proof (updated_trans _ _ _ _ _ _ U1 U2) as U12. destruct (updated_trans _ _ _ _ _ _ U12 U3) as [A B C D F].
    assert (expires y = e) as Ee by (unfold phase_of in He; destruct (status x); congruence). rewrite Ee in *. rewrite Ef in A.
    split; try done.
    - rewrite A. simpl. rewrite (alter_insert_lookup _ _ _ _ Ha). simpl. by rewrite He.
    - intros u e' c f. rewrite A. destruct (decide (u = t)) as [->|Hne].
      + rewrite lookup_insert_eq. intros [= <- <- <-]. right. destruct Hw as [Hw|(u & Hut & e' & f & Hu & Hle)]; [by left|]. right.
        exists u. split; [done|]. exists e', f. split; [|done]. by rewrite (up_abs _ _ _ _ U12), lookup_insert_ne in Hu by done.
      + rewrite lookup_insert_ne by done. by left. }
  destruct (status x) eqn:Hs; try done; wp_step; cbn [when].
  - wp_step. wp_step. apply wp_seq3, move_spec; [done|done|done|done|done|]. intros w2 Hi2 U2 Hy2. wp_step.
    eapply op_post_quiet; [done|done|done| |done]. simpl. rewrite (alter_insert_lookup _ _ _ _ Ha). simpl. unfold phase_of. by rewrite Hs.
  - apply (Hact (expires x)). unfold phase_of. by rewrite Hs.
  - apply (Hact (expires x)). unfold phase_of. by rewrite Hs.
Qed.

Lemma run_op_spec o w : tinv [] w -> call_ok w o -> wp no_error (run_op o) (fun _ w' => op_post o w w') w.
Proof.
  intros Hi Hc. destruct o; simpl;
    [by apply init_timer_spec|by apply set_timer_spec|by apply stop_timer_spec|by apply migrate_timer_spec|by apply kill_timer_spec].
Qed.
