(* ===== verification/TimerSoftirq.v ===== *)
(** * Timers: the softirq handler and the invariants of the whole

    The handlers run, the deadline programmed, timers that are never forgotten. *)

From S2P Require Import Prelude.
From S2P Require Import Xen.
From S2P Require Import Heap.
From S2P Require Import Timer.
From S2P Require Import TimerHeap.
From S2P Require Import TimerFacts.
From S2P Require Import TimerOps.

(** ** Timers that are due *)

Definition is_due (cpu now : Z) (a : atimer) : bool :=
  match a_phase a with PActive e => (a_cpu a =? cpu) && (e <? now) | _ => false end.

Definition due (cpu now : Z) (w : tworld) : gset Z := dom (filter (fun p : Z * atimer => is_due cpu now p.2 = true) (abs w)).

Lemma elem_of_due cpu now w t : t ∈ due cpu now w <-> exists a, abs w !! t = Some a /\ is_due cpu now a = true.
Proof.
  unfold due. rewrite elem_of_dom. split.
  - intros [a Ha]. apply map_lookup_filter_Some in Ha. by exists a.
  - intros (a & Ha & Hd). exists a. by apply map_lookup_filter_Some.
Qed.

(** A part of the handler: no timer becomes due, those that stay due stay where they are. *)
Record less_due (cpu now : Z) (w w' : tworld) : Prop := LessDue {
  ld_due : due cpu now w' ⊆ due cpu now w;
  ld_status u : u ∈ due cpu now w' -> status <$> tm w' !! u = status <$> tm w !! u
}.

Lemma less_due_refl cpu now w : less_due cpu now w w.
Proof. by split. Qed.

Lemma less_due_trans cpu now w1 w2 w3 : less_due cpu now w1 w2 -> less_due cpu now w2 w3 -> less_due cpu now w1 w3.
Proof. intros [A1 A2] [B1 B2]. split; [set_solver|]. intros u Hu. rewrite B2 by done. apply A2. set_solver. Qed.

Lemma less_due_subject cpu now t w w' :
  (forall u, u <> t -> abs w' !! u = abs w !! u /\ status <$> tm w' !! u = status <$> tm w !! u) -> t ∉ due cpu now w' ->
  less_due cpu now w w'.
Proof.
  intros H Ht. assert (forall u, u ∈ due cpu now w' -> u <> t) as Hne by (intros u Hu ->; done). split.
  - intros u Hu. pose proof (Hne u Hu) as Hn. apply elem_of_due in Hu as (a & Ha & Hd). apply elem_of_due. exists a. by rewrite <- (proj1 (H u Hn)).
  - intros u Hu. by apply H, Hne.
Qed.

(** A call that makes nothing due: timers are set to times that have not passed, and a due
    timer is not moved to the processor. *)
Definition not_due_op (cpu now : Z) (w : tworld) (o : timer_op) : Prop :=
  match o with
  | OpSet _ e => now <= e
  | OpMigrate t c => c = cpu -> forall e c' f, abs w !! t = Some (ATimer (PActive e) c' f) -> now <= e
  | _ => True
  end.

Lemma a_op_others o a u : u <> subject o -> a_op o a !! u = a !! u.
Proof. intros Hu. destruct o; simpl in *; by rewrite ?lookup_insert_ne, ?lookup_alter_ne by done. Qed.

Lemma op_less_due cpu now o w w' : op_post o w w' -> not_due_op cpu now w o -> less_due cpu now w w'.
Proof.
  intros Hp Hn. apply (less_due_subject _ _ (subject o)).
  - intros u Hu. split; [|by apply (op_status _ _ _ Hp)]. rewrite (op_abs _ _ _ Hp). by apply a_op_others.
  - intros (a & Ha & Hd)%elem_of_due. rewrite (op_abs _ _ _ Hp) in Ha. unfold is_due in Hd.
    destruct o; simpl in *; rewrite ?lookup_insert_eq, ?lookup_alter_eq in Ha; [by simplify_eq|..];
      destruct (abs w !! t) as [[ph c f]|] eqn:Ea; simpl in Ha; try done; injection Ha as <-; destruct ph; simpl in *; bool_hyps; try done; try lia.
    pose proof (Hn ltac:(done) _ _ _ eq_refl). lia.
Qed.

(** ** Timers that are never forgotten *)

Definition times_ok (w : tworld) : Prop := forall t e c f, abs w !! t = Some (ATimer (PActive e) c f) -> 0 <= e.

(** Every active timer of the processor has its softirq pending or a deadline programmed that
    is no later than the time it expires and the slop. *)
Definition armed (w : tworld) (c : Z) : Prop :=
  forall t e f, abs w !! t = Some (ATimer (PActive e) c f) -> e + timer_slop < STIME_MAX ->
  c ∈ softirqs w \/ exists d, timer_deadline w !! c = Some d /\ 0 < d <= e + timer_slop.

Lemma op_times o w w' : op_post o w w' -> times_ok w -> (forall t e, o = OpSet t e -> 0 <= e) -> times_ok w'.
Proof.
  intros Hp Ht Ho u e c f. rewrite (op_abs _ _ _ Hp). destruct (decide (u = subject o)) as [->|Hu]; [|rewrite a_op_others by done; by apply Ht].
  pose proof (Ht (subject o)) as Hs. destruct o; simpl; rewrite ?lookup_insert_eq, ?lookup_alter_eq; [done|..]; simpl in Hs;
    destruct (abs w !! t) as [[ph c' f']|]; simpl; try done; destruct ph; simpl; intros [= <- <- <-]; try (by eapply Hs); by eapply Ho.
Qed.

Lemma op_armed o w w' c : op_post o w w' -> armed w c -> armed w' c.
Proof.
  intros Hp Ha t e f Ht He. rewrite (op_deadline _ _ _ Hp). pose proof (op_softirqs _ _ _ Hp) as Hs.
  destruct (op_wakes _ _ _ Hp t e c f Ht) as [H|[H|(u & _ & e' & f' & Hu & Hle)]]; [|by left|].
  - destruct (Ha t e f H He) as [Hc|Hd]; [left; set_solver|by right].
  - destruct (Ha u e' f' Hu ltac:(lia)) as [Hc|(d & Hd & Hr)]; [left; set_solver|]. right. exists d. split; [done|lia].
Qed.

(** ** A part of the softirq handler of [cpu] at time [now] *)

Record soft (cpu now : Z) (w w' : tworld) : Prop := Soft {
  so_inv : tinv [] w';
  so_times : times_ok w';
  so_frame : frame w' = frame w;
  so_less : less_due cpu now w w';
  so_armed c : c <> cpu -> armed w c -> armed w' c
}.

Lemma soft_refl cpu now w : tinv [] w -> times_ok w -> soft cpu now w w.
Proof. intros Hi Ht. by split; [..|apply less_due_refl|]. Qed.

Lemma soft_trans cpu now w1 w2 w3 : soft cpu now w1 w2 -> soft cpu now w2 w3 -> soft cpu now w1 w3.
Proof.
  intros [A1 A2 A3 A4 A5] [B1 B2 B3 B4 B5]. split; [done|done|congruence|by eapply less_due_trans|]. intros c Hc Ha. by apply B5, A5.
Qed.

(** What the handlers of the timers and the other processors may call. *)
Definition op_ok (cpu now : Z) (w : tworld) (o : timer_op) : Prop := call_ok w o /\ not_due_op cpu now w o.

Fixpoint calls_ok (P : tworld -> timer_op -> Prop) (os : list timer_op) (w : tworld) : Prop :=
  match os with
  | [] => True
  | o :: os => P w o /\ forall w', run_op o w = Ok (tt, w') -> calls_ok P os w'
  end.

Lemma op_soft cpu now o w w' : 0 <= now -> times_ok w -> op_post o w w' -> not_due_op cpu now w o -> soft cpu now w w'.
Proof.
  intros Hn Ht Hp Ho. split; [apply Hp| |apply Hp|by eapply op_less_due|].
  - eapply op_times; [done|done|]. intros t e ->. simpl in Ho. lia.
  - intros c _. by eapply op_armed.
Qed.

Lemma calls_soft cpu now os w :
  0 <= now -> tinv [] w -> times_ok w -> calls_ok (op_ok cpu now) os w -> wp no_error (for_each os run_op) (fun _ w' => soft cpu now w w') w.
Proof.
  intros Hn. revert w. induction os as [|o os IH]; intros w Hi Ht Hc; simpl.
  - wp_step. by apply soft_refl.
  - destruct Hc as [[Ho Hn'] Hc]. wp_step. pose proof (run_op_spec o w Hi Ho) as Hrun. unfold wp in Hrun |- *.
    destruct (run_op o w) as [[[] w1]|] eqn:E; [|done]. pose proof (op_soft cpu now o w w1 Hn Ht Hrun Hn') as Hs.
    eapply wp_mono; [by apply IH; [apply Hs|apply Hs|apply Hc]|]. intros [] w2 H2. by eapply soft_trans.
Qed.

(** ** Running a handler *)

(** The limit and the running timer of a processor change. *)
Lemma tinv_reframe off w c ts lim r si dl :
  tinv off w -> per_cpu w !! c = Some ts -> heap_limit ts <= lim < 65536 ->
  tinv off (TWorld (tm w) (<[c := Timers (ts_heap ts) lim (ts_list ts) r (ts_inactive ts)]> (per_cpu w)) si dl).
Proof.
  intros [H1 H2 H3 H4] Hts Hl. split; simpl.
  - intros c2 ts2. destruct (decide (c2 = c)) as [->|Hne]; [rewrite lookup_insert_eq|rewrite lookup_insert_ne by done; apply H1].
    intros [= <-]. destruct (H1 _ _ Hts) as [A1 A2 A3 A4 A5 A6 A7 A8]. split; simpl; try done. lia.
  - intros t x Hx Ho. pose proof (H2 t x Hx Ho) as Hloc. unfold located in *. destruct (decide (t_cpu x = c)) as [E|Hne].
    + rewrite E in *. rewrite Hts in Hloc. rewrite lookup_insert_eq.
      destruct (status x); try done; destruct Hloc as (ts2 & [= <-] & Hin); by eexists.
    + by rewrite lookup_insert_ne.
  - intros t Ht. destruct (H3 t Ht) as [Hx Hab]. split; [done|]. intros c2 ts2.
    destruct (decide (c2 = c)) as [->|Hne]; [rewrite lookup_insert_eq|rewrite lookup_insert_ne by done; apply Hab].
    intros [= <-]. by apply (Hab c ts).
  - destruct (decide (c = TIMER_CPU_status_killed)) as [->|Hne]; [congruence|by rewrite lookup_insert_ne].
Qed.

(** [t] of processor [cpu] has been taken out of the heap or the list. *)
Record taken (cpu t fn : Z) (w w1 : tworld) : Prop := Taken {
  tk_inv : tinv [t] w1;
  tk_timer : exists x, tm w1 !! t = Some x /\ t_cpu x = cpu /\ function x = fn;
  tk_others u : u <> t -> abs w1 !! u = abs w !! u /\ status <$> tm w1 !! u = status <$> tm w !! u;
  tk_frame : frame w1 = frame w;
  tk_softirqs : softirqs w1 = softirqs w;
  tk_deadline : timer_deadline w1 = timer_deadline w
}.

(** [t] becomes inactive; the rest is as before, but for the running timer of [cpu]. *)
Lemma inactive_soft cpu now t w w' :
  times_ok w -> (forall u, u <> t -> abs w' !! u = abs w !! u /\ status <$> tm w' !! u = status <$> tm w !! u) ->
  (exists x, tm w' !! t = Some x /\ status x = TIMER_STATUS_inactive) -> softirqs w' = softirqs w -> timer_deadline w' = timer_deadline w ->
  times_ok w' /\ less_due cpu now w w' /\ t ∉ due cpu now w' /\ forall c, armed w c -> armed w' c.
Proof.
  intros Ht Ho (x & Hx & Hs) Esi Edl.
  assert (forall u e c f, abs w' !! u = Some (ATimer (PActive e) c f) -> abs w !! u = Some (ATimer (PActive e) c f)) as Hact.
  { intros u e c f Hu. destruct (decide (u = t)) as [->|Hne]; [|by rewrite <- (proj1 (Ho u Hne))].
    rewrite (abs_lookup _ _ _ Hx) in Hu. unfold abs_timer, phase_of in Hu. by rewrite Hs in Hu. }
  assert (t ∉ due cpu now w') as Hd.
  { intros (a & Ha & Hd)%elem_of_due. rewrite (abs_lookup _ _ _ Hx) in Ha. injection Ha as <-. unfold is_due, abs_timer, phase_of in Hd. by rewrite Hs in Hd. }
  split_and!; [|by eapply less_due_subject|done|].
  - intros u e c f Hu. by eapply Ht, Hact.
  - intros c Ha u e f Hu He. rewrite Esi, Edl. by eapply Ha; [apply Hact|].
Qed.

Section Handler.
Context (callback : Z -> tworld -> list timer_op) (cpu now : Z).
Hypothesis now_pos : 0 <= now.
Hypothesis callback_ok : forall fn w, tinv [] w -> calls_ok (op_ok cpu now) (callback fn w) w.

Lemma execute_timer_spec t fn lim w w1 :
  times_ok w -> frame w !! cpu = Some (lim, None) -> taken cpu t fn w w1 ->
  wp no_error (execute_timer callback cpu t) (fun _ w' => soft cpu now w w' /\ t ∉ due cpu now w') w1.
Proof.
  intros Ht Hf [T1 (x & Hx & Hc & Hfn) T3 T4 T5 T6]. unfold execute_timer. wp_step. eapply wp_get_timer; [done|].
  assert (exists ts, per_cpu w1 !! cpu = Some ts /\ cpu_frame ts = (lim, None)) as (ts & Hts & Ef).
  { rewrite <- T4 in Hf. unfold frame in Hf. rewrite lookup_fmap in Hf. destruct (per_cpu w1 !! cpu) as [ts|]; [|done]. exists ts. split; [done|]. simpl in Hf. congruence. }
  unfold cpu_frame in Ef. injection Ef as El Er.
  wp_step. eapply wp_mod_timer; [done|]. wp_step. unfold add_inactive. eapply wp_mod_ts; [done|]. wp_step.
  eapply wp_mod_ts; [simpl; apply lookup_insert_eq|]. unfold set_per_cpu, set_tm. simpl. rewrite insert_insert_eq. wp_step. wp_step.
  set (w3 := TWorld _ _ _ _).
  assert (tinv [] w3) as Hi3.
  { pose proof (tinv_park w1 t (set_status TIMER_STATUS_inactive x) ts (softirqs w1) (timer_deadline w1) T1 eq_refl ltac:(simpl; by rewrite Hc)) as Hp.
    simpl in Hp. rewrite Hc in Hp. pose proof (ck_limit _ _ _ (ti_cpu _ _ T1 _ _ Hts)) as Hlim.
    pose proof (tinv_reframe _ _ cpu _ lim (Some t) (softirqs w1) (timer_deadline w1) Hp (lookup_insert_eq _ _ _)) as Hr. simpl in Hr.
    rewrite insert_insert_eq in Hr. unfold w3, set_running, set_inactive. simpl. rewrite El. apply Hr. lia. }
  destruct (inactive_soft cpu now t w w3) as (B1 & B2 & B3 & B4); [done| |by eexists; split; [apply lookup_insert_eq|]|done|done|].
  { intros u Hu. destruct (T3 u Hu) as [E1 E2]. unfold w3, abs. simpl. rewrite lookup_fmap, lookup_insert_ne by done. rewrite <- lookup_fmap. done. }
  wp_step. eapply wp_mono; [apply calls_soft; [done|done|done|by apply callback_ok]|]. intros [] w4 [C1 C2 C3 C4 C5].
  assert (exists ts4, per_cpu w4 !! cpu = Some ts4 /\ heap_limit ts4 = lim) as (ts4 & Hts4 & El4).
  { destruct (frame_lookup w3 w4 cpu _ C3 (lookup_insert_eq _ _ _)) as (ts4 & H4 & E4). exists ts4. split; [done|]. unfold cpu_frame in E4. simpl in E4. congruence. }
  eapply wp_mod_ts; [done|]. split; [split|].
  - pose proof (ck_limit _ _ _ (ti_cpu _ _ C1 _ _ Hts4)) as Hlim. unfold set_per_cpu, set_running. apply tinv_reframe; [done|done|lia].
  - done.
  - unfold frame. simpl. rewrite fmap_insert. fold (frame w4). rewrite C3. unfold frame at 1, w3. simpl. rewrite fmap_insert, insert_insert_eq.
    fold (frame w1). rewrite T4. apply insert_id. unfold cpu_frame. simpl. by rewrite El4.
  - destruct (less_due_trans _ _ _ _ _ B2 C4) as [D1 D2]. split; [exact D1|exact D2].
  - intros c Hne Ha. apply C5; [done|]. by apply B4.
  - pose proof (ld_due _ _ _ _ C4) as Hd. intros Hin. apply B3, Hd, Hin.
Qed.

(** No due timer has the status. *)
Definition none_due (st : timer_status) (w : tworld) : Prop := forall u, u ∈ due cpu now w -> status <$> tm w !! u <> Some st.

Lemma due_timer w u : u ∈ due cpu now w <-> exists x, tm w !! u = Some x /\ t_cpu x = cpu /\ expires x < now /\ (status x = TIMER_STATUS_in_heap \/ status x = TIMER_STATUS_in_list).
Proof.
  rewrite elem_of_due. split.
  - intros (a & Ha & Hd). apply abs_inv in Ha as (x & Hx & <-). exists x. split; [done|]. unfold is_due, abs_timer, phase_of in Hd. simpl in Hd.
    destruct (status x); bool_hyps; auto with lia.
  - intros (x & Hx & Hc & He & Hs). exists (abs_timer x). split; [by apply abs_lookup|]. unfold is_due, abs_timer, phase_of. simpl.
    destruct Hs as [-> | ->]; apply andb_true_intro; (split; [by apply Z.eqb_eq|by apply Z.ltb_lt]).
Qed.

Lemma due_shrinks w w' t : t ∈ due cpu now w -> t ∉ due cpu now w' -> less_due cpu now w w' -> (size (due cpu now w') < size (due cpu now w))%nat.
Proof. intros H1 H2 [H3 _]. apply subset_size. set_solver. Qed.

Lemma frame_cpu w lim r : frame w !! cpu = Some (lim, r) -> exists ts, per_cpu w !! cpu = Some ts /\ heap_limit ts = lim /\ running ts = r.
Proof.
  unfold frame. rewrite lookup_fmap. destruct (per_cpu w !! cpu) as [ts|]; [|done]. unfold cpu_frame. intros [= <- <-]. by exists ts.
Qed.

Lemma run_heap_spec lim fuel w :
  tinv [] w -> times_ok w -> frame w !! cpu = Some (lim, None) -> (size (due cpu now w) < fuel)%nat ->
  wp no_error (run_heap callback fuel cpu now) (fun _ w' => soft cpu now w w' /\ none_due TIMER_STATUS_in_heap w') w.
Proof.
  revert w. induction fuel as [|fuel IH]; intros w Hi Ht Hf Hfuel; [lia|]. simpl. destruct (frame_cpu _ _ _ Hf) as (ts & Hts & El & Er).
  pose proof (ti_cpu _ _ Hi _ _ Hts) as Hok. wp_step. eapply wp_get_ts; [done|].
  assert (forall u, u ∈ due cpu now w -> status <$> tm w !! u = Some TIMER_STATUS_in_heap -> u ∈ members (ts_heap ts) /\ key (tm w) u < now) as Hin.
  { intros u (x & Hx & Hc & He & _)%due_timer Hs. rewrite Hx in Hs. injection Hs as Hs. pose proof (ti_located _ _ Hi u x Hx (not_elem_of_nil _)) as Hl.
    unfold located in Hl. rewrite Hs, Hc, Hts in Hl. destruct Hl as (ts' & [= <-] & Hm). unfold key. by rewrite Hx. }
  destruct (ts_heap ts !! 1%nat) as [t|] eqn:Et.
  - assert (t ∈ members (ts_heap ts)) as Hm.
    { apply members_at. exists 1%nat. split; [|by apply list_lookup_total_correct]. apply lookup_lt_Some in Et. lia. }
    destruct (ck_members _ _ _ Hok t Hm) as (x & Hx & Hs & Hc). wp_step. eapply wp_get_timer; [done|]. destruct (Z.ltb_spec (expires x) now) as [He|He].
    + wp_step. eapply wp_on_heap; [done|]. apply remove_from_heap_spec; [apply Hok|done|]. intros h' m' Hok' Hmem Hoo Hlen. cbn [hs_tm hs_heap].
      destruct (oo_offset _ _ _ Hoo t x Hx) as (o & Ho). set (w1 := set_tm _ _).
      assert (taken cpu t (function x) w w1) as Htk.
      { split; try done.
        - pose proof (tinv_unheap w t x (set_offset o x) ts h' m' (softirqs w) (timer_deadline w) Hi Hx Hs ltac:(by rewrite Hc) Hok' Hmem Hoo Hlen) as Hu.
          rewrite (insert_id _ _ _ Ho), Hc in Hu. exact Hu.
        - by exists (set_offset o x).
        - intros u Hu. split; [|by eapply status_offsets]. unfold abs, w1. simpl. rewrite <- (insert_id _ _ _ Ho), (abs_offsets _ _ _ _ _ Hoo).
          by rewrite lookup_insert_ne.
        - by eapply frame_insert. }
      wp_step. eapply wp_mono; [by eapply execute_timer_spec|]. intros [] w2 [Hs2 Hd2]. assert (t ∈ due cpu now w) as Hd by (apply due_timer; exists x; auto).
      pose proof (due_shrinks _ _ _ Hd Hd2 (so_less _ _ _ _ Hs2)).
      eapply wp_mono; [apply IH; [apply Hs2|apply Hs2|by rewrite (so_frame _ _ _ _ Hs2)|lia]|]. intros [] w3 [Hs3 Hn3].
      split; [by eapply soft_trans|done].
    + wp_step. split; [by apply soft_refl|]. intros u Hu Hsu. destruct (Hin u Hu Hsu) as [Hum Huk].
      pose proof (heap_ok_top _ _ u (ck_heap _ _ _ Hok) Hum) as Hk. rewrite (list_lookup_total_correct _ _ _ Et) in Hk. assert (key (tm w) t = expires x) by (unfold key; by rewrite Hx). lia.
  - wp_step. split; [by apply soft_refl|]. intros u Hu Hsu. destruct (Hin u Hu Hsu) as [Hum _]. apply members_at in Hum as (i & Hi' & _).
    apply lookup_ge_None in Et. lia.
Qed.

Lemma run_list_spec lim fuel w :
  tinv [] w -> times_ok w -> frame w !! cpu = Some (lim, None) -> (size (due cpu now w) < fuel)%nat ->
  wp no_error (run_list callback fuel cpu now) (fun _ w' => soft cpu now w w' /\ none_due TIMER_STATUS_in_list w') w.
Proof.
  revert w. induction fuel as [|fuel IH]; intros w Hi Ht Hf Hfuel; [lia|]. simpl. destruct (frame_cpu _ _ _ Hf) as (ts & Hts & El & Er).
  pose proof (ti_cpu _ _ Hi _ _ Hts) as Hok. wp_step. eapply wp_get_ts; [done|].
  assert (forall u, u ∈ due cpu now w -> status <$> tm w !! u = Some TIMER_STATUS_in_list -> u ∈ ts_list ts /\ key (tm w) u < now) as Hin.
  { intros u (x & Hx & Hc & He & _)%due_timer Hs. rewrite Hx in Hs. injection Hs as Hs. pose proof (ti_located _ _ Hi u x Hx (not_elem_of_nil _)) as Hl.
    unfold located in Hl. rewrite Hs, Hc, Hts in Hl. destruct Hl as (ts' & [= <-] & Hm). unfold key. by rewrite Hx. }
  pose proof (ck_sorted _ _ _ Hok) as Hsrt. destruct (ts_list ts) as [|t l] eqn:Et.
  { wp_step. split; [by apply soft_refl|]. intros u Hu Hsu. by destruct (Hin u Hu Hsu) as [?%elem_of_nil _]. }
  apply sorted_cons in Hsrt as [Hsrt Hle]. destruct (ck_list _ _ _ Hok t ltac:(rewrite Et; by left)) as (x & Hx & Hs & Hc).
  assert (key (tm w) t = expires x) as Hkt by (unfold key; by rewrite Hx).
  wp_step. eapply wp_get_timer; [done|]. destruct (Z.ltb_spec (expires x) now) as [He|He].
  - wp_step. eapply wp_mod_ts; [done|]. set (w1 := set_per_cpu _ _).
    assert (taken cpu t (function x) w w1) as Htk.
    { split; try done.
      - pose proof (tinv_unlist w t x x ts l (softirqs w) (timer_deadline w) Hi Hx Hs ltac:(by rewrite Hc) Hsrt ltac:(by rewrite Et)) as Hu.
        rewrite (insert_id _ _ _ Hx), Hc in Hu. exact Hu.
      - by exists x.
      - by eapply frame_insert. }
    wp_step. eapply wp_mono; [by eapply execute_timer_spec|]. intros [] w2 [Hs2 Hd2]. assert (t ∈ due cpu now w) as Hd by (apply due_timer; exists x; auto).
    pose proof (due_shrinks _ _ _ Hd Hd2 (so_less _ _ _ _ Hs2)).
    eapply wp_mono; [apply IH; [apply Hs2|apply Hs2|by rewrite (so_frame _ _ _ _ Hs2)|lia]|]. intros [] w3 [Hs3 Hn3].
    split; [by eapply soft_trans|done].
  - wp_step. split; [by apply soft_refl|]. intros u Hu Hsu. destruct (Hin u Hu Hsu) as [[->|Hul]%elem_of_cons Huk]; [lia|].
    specialize (Hle u Hul). unfold earlier in Hle. lia.
Qed.
End Handler.

(** ** Refilling the heap *)

(** All of the overflow list is taken. *)
Lemma tinv_unlist_all w c ts si dl :
  tinv [] w -> per_cpu w !! c = Some ts -> tinv (ts_list ts) (TWorld (tm w) (<[c := set_list [] ts]> (per_cpu w)) si dl).
Proof.
  intros Hi Hts. pose proof Hi as [H1 H2 _ H4]. pose proof (H1 _ _ Hts) as Hok. split; simpl.
  - intros c2 ts2. destruct (decide (c2 = c)) as [->|Hne]; [rewrite lookup_insert_eq|rewrite lookup_insert_ne by done; apply H1].
    intros [= <-]. apply cpu_ok_list; [done|constructor|constructor|by intros t ?%elem_of_nil].
  - intros t x Hx Ho. pose proof (H2 t x Hx (not_elem_of_nil _)) as Hloc. unfold located in *.
    destruct (decide (t_cpu x = c)) as [E|Hne]; [|by rewrite lookup_insert_ne].
    rewrite E in *. rewrite lookup_insert_eq. rewrite Hts in Hloc.
    destruct (status x); try done; destruct Hloc as (ts2 & [= <-] & Hin); [by eexists|by eexists|done].
  - intros t Ht. destruct (ck_list _ _ _ Hok t Ht) as (x & Hx & Hs & Hc). split; [by exists x|]. intros c2 ts2.
    destruct (decide (c2 = c)) as [->|Hne].
    + rewrite lookup_insert_eq. intros [= <-]. destruct (only_in _ _ _ _ _ Hok Hx) as (O1 & _ & O3). unfold absent. simpl.
      split_and!; [intros ?%O1; congruence|by apply not_elem_of_nil|intros ?%O3; congruence].
    + rewrite lookup_insert_ne by done. intros Hts2. eapply (absent_elsewhere [] w t x c2); [done|done|congruence|done].
  - destruct (decide (c = TIMER_CPU_status_killed)) as [->|Hne]; [congruence|by rewrite lookup_insert_ne].
Qed.

(** Nothing changes but the structures the timers are in. *)
Record rearranged (w w' : tworld) : Prop := Rearranged {
  re_abs : abs w' = abs w;
  re_frame : frame w' = frame w;
  re_softirqs : softirqs w ⊆ softirqs w';
  re_deadline : timer_deadline w' = timer_deadline w
}.

Lemma rearranged_trans w1 w2 w3 : rearranged w1 w2 -> rearranged w2 w3 -> rearranged w1 w3.
Proof. intros [A1 A2 A3 A4] [B1 B2 B3 B4]. split; [congruence|congruence|set_solver|congruence]. Qed.

Lemma refill_loop cpu rest w :
  tinv rest w -> NoDup rest -> is_Some (per_cpu w !! cpu) ->
  (forall t, t ∈ rest -> exists e f, abs w !! t = Some (ATimer (PActive e) cpu f)) ->
  wp no_error (for_each rest (fun t => mod_timer t (set_status TIMER_STATUS_invalid) ;;; let! _ := add_entry t in ret tt))
    (fun _ w' => tinv [] w' /\ rearranged w w') w.
Proof.
  revert w. induction rest as [|t rest IH]; intros w Hi Hnd [ts Hts] Ha; simpl; [wp_step; by split|].
  apply NoDup_cons in Hnd as [Ht Hnd]. destruct (Ha t ltac:(by left)) as (e & f & Hat). destruct (abs_inv _ _ _ Hat) as (x & Hx & Ex).
  unfold abs_timer in Ex. injection Ex as Ep Ec Ef. assert (expires x = e) as Ee by (unfold phase_of in Ep; destruct (status x); congruence).
  wp_step. wp_step. eapply wp_mod_timer; [done|]. set (x1 := set_status TIMER_STATUS_invalid x). set (w1 := set_tm _ _). wp_step.
  eapply (add_entry_spec rest t x1); [by apply tinv_off_change; [left|]|done|simpl; apply lookup_insert_eq|done|simpl; by rewrite Ec|].
  intros rc w2 Hi2 [U1 U2 U3 U4 _] _. wp_step.
  assert (abs w2 = abs w) as E2.
  { rewrite U1. unfold x1. simpl. rewrite Ee, Ec, Ef. unfold abs, w1. simpl. rewrite fmap_insert, insert_insert_eq. by apply insert_id. }
  assert (is_Some (per_cpu w2 !! cpu)) as Hs2 by (destruct (frame_lookup w w2 cpu ts U2 Hts) as (ts2 & ? & _); by exists ts2).
  eapply wp_mono; [apply IH; [done|done|done|]|].
  - intros u Hu. rewrite E2. apply Ha. by right.
  - intros [] w3 [Hi3 Hr]. split; [done|]. eapply rearranged_trans; [|exact Hr]. by split.
Qed.

Lemma refill_heap_spec cpu ts w :
  tinv [] w -> per_cpu w !! cpu = Some ts -> wp no_error (refill_heap cpu) (fun _ w' => tinv [] w' /\ rearranged w w') w.
Proof.
  intros Hi Hts. pose proof (ti_cpu _ _ Hi _ _ Hts) as Hok. unfold refill_heap. wp_step. eapply wp_get_ts; [done|]. wp_step. eapply wp_mod_ts; [done|].
  eapply wp_mono; [apply (refill_loop cpu)|].
  - by apply tinv_unlist_all.
  - apply Hok.
  - simpl. rewrite lookup_insert_eq. by eexists.
  - intros t Ht. destruct (ck_list _ _ _ Hok t Ht) as (x & Hx & Hs & Hc). exists (expires x), (function x).
    change (abs w !! t = Some (ATimer (PActive (expires x)) cpu (function x))). rewrite (abs_lookup _ _ _ Hx). unfold abs_timer, phase_of. by rewrite Hs, Hc.
  - intros [] w' [Hi' [A B C D]]. split; [done|]. split; [done| |done|done]. rewrite B. by eapply frame_insert.
Qed.

(** ** The next deadline *)

Definition earliest (w : tworld) (cpu d : Z) : Prop :=
  (forall t e f, abs w !! t = Some (ATimer (PActive e) cpu f) -> d <= e)
  /\ (d = STIME_MAX \/ exists t f, abs w !! t = Some (ATimer (PActive d) cpu f)).

(** The active timers of a processor are those of its heap and its list. *)
Lemma active_where w cpu ts t e f :
  tinv [] w -> per_cpu w !! cpu = Some ts ->
  abs w !! t = Some (ATimer (PActive e) cpu f) -> (t ∈ members (ts_heap ts) \/ t ∈ ts_list ts) /\ key (tm w) t = e.
Proof.
  intros Hi Hts Ha. apply abs_inv in Ha as (x & Hx & Ex). unfold abs_timer, phase_of in Ex. pose proof (ti_located _ _ Hi t x Hx (not_elem_of_nil _)) as Hl.
  unfold located in Hl. unfold key. rewrite Hx. destruct (status x); try done; injection Ex as Ee Ec Ef; rewrite Ec, Hts in Hl;
    destruct Hl as (ts2 & [= <-] & Hin); auto.
Qed.

Lemma next_deadline_spec cpu ts w (Q : Z -> tworld -> Prop) :
  tinv [] w -> per_cpu w !! cpu = Some ts -> (forall d, earliest w cpu d -> Q d w) -> wp no_error (next_deadline cpu) Q w.
Proof.
  intros Hi Hts HQ. pose proof (ti_cpu _ _ Hi _ _ Hts) as Hok. unfold next_deadline. wp_step. eapply wp_get_ts; [done|].
  set (reached d := d = STIME_MAX \/ exists t f, abs w !! t = Some (ATimer (PActive d) cpu f)).
  assert (forall t x st, tm w !! t = Some x -> st = TIMER_STATUS_in_heap \/ st = TIMER_STATUS_in_list -> status x = st -> t_cpu x = cpu -> reached (expires x)) as Hr.
  { intros t x st Hx Hst Hs Hc. right. exists t, (function x). rewrite (abs_lookup _ _ _ Hx). unfold abs_timer, phase_of. rewrite Hs, Hc. by destruct Hst as [-> | ->]. }
  wp_step.
  assert (forall d, (forall t, t ∈ members (ts_heap ts) -> d <= key (tm w) t) -> reached d ->
    wp no_error (match ts_list ts with [] => ret d | t :: _ => let! x := get_timer t in ret (if expires x <? d then expires x else d) end) Q w) as Hlist.
  { intros d Hd Hrd. pose proof (ck_sorted _ _ _ Hok) as Hsrt. destruct (ts_list ts) as [|t l] eqn:El.
    - wp_step. apply HQ. split; [|done]. intros u e f Hu. destruct (active_where _ _ _ _ _ _ Hi Hts Hu) as [[Hm|Hm] <-]; [by apply Hd|].
      rewrite El in Hm. by apply elem_of_nil in Hm.
    - apply sorted_cons in Hsrt as [_ Hle]. destruct (ck_list _ _ _ Hok t ltac:(rewrite El; by left)) as (x & Hx & Hs & Hc).
      wp_step. eapply wp_get_timer; [done|]. wp_step. apply HQ. assert (key (tm w) t = expires x) as Hk by (unfold key; by rewrite Hx). split.
      + intros u e f Hu. destruct (active_where _ _ _ _ _ _ Hi Hts Hu) as [[Hm|Hm] <-].
        * specialize (Hd u Hm). destruct (Z.ltb_spec (expires x) d); lia.
        * rewrite El in Hm. assert (expires x <= key (tm w) u).
          { apply elem_of_cons in Hm as [->|Hm]; [lia|]. specialize (Hle u Hm). unfold earlier in Hle. lia. }
          destruct (Z.ltb_spec (expires x) d); lia.
      + destruct (expires x <? d); [|done]. by eapply Hr; [done|by right|done|done]. }
  destruct (ts_heap ts !! 1%nat) as [t|] eqn:Et.
  - assert (t ∈ members (ts_heap ts)) as Hm.
    { apply members_at. exists 1%nat. split; [|by apply list_lookup_total_correct]. apply lookup_lt_Some in Et. lia. }
    destruct (ck_members _ _ _ Hok t Hm) as (x & Hx & Hs & Hc). wp_step. eapply wp_get_timer; [done|]. wp_step. apply Hlist.
    + intros u Hu. pose proof (heap_ok_top _ _ u (ck_heap _ _ _ Hok) Hu) as Hk. rewrite (list_lookup_total_correct _ _ _ Et) in Hk.
      assert (key (tm w) t = expires x) by (unfold key; by rewrite Hx). lia.
    + by eapply Hr; [done|by left|done|done].
  - wp_step. apply Hlist; [|by left]. intros u (i & Hi' & _)%members_at. apply lookup_ge_None in Et. lia.
Qed.

(** ** The heap limits *)

(** 2{^n} - 1 with [n] a multiple of 4, up to what 16 bits hold. *)
Definition limit_ok (lim : Z) : Prop := lim ∈ [0; 15; 255; 4095; 65535].

Lemma limit_grows lim : limit_ok lim -> limit_ok (u16 (Z.shiftl (lim + 1) 4 - 1)) /\ lim <= u16 (Z.shiftl (lim + 1) 4 - 1) < 65536.
Proof.
  unfold limit_ok. intros H. repeat (apply elem_of_cons in H as [->|H]; [vm_compute; split; [|done]; by repeat constructor|]). by apply elem_of_nil in H.
Qed.

Lemma grow_heap_spec cpu lim r mem w :
  tinv [] w -> frame w !! cpu = Some (lim, r) -> limit_ok lim ->
  wp no_error (grow_heap mem cpu) (fun _ w' => tinv [] w' /\ tm w' = tm w /\ softirqs w' = softirqs w /\ timer_deadline w' = timer_deadline w
    /\ exists lim', limit_ok lim' /\ frame w' = <[cpu := (lim', r)]> (frame w)) w.
Proof.
  intros Hi Hf Hl. destruct (frame_cpu _ _ _ _ Hf) as (ts & Hts & El & Er). unfold grow_heap. wp_step. eapply wp_get_ts; [done|].
  assert (frame w = <[cpu := (lim, r)]> (frame w)) as Hid by (symmetry; by apply insert_id).
  destruct (ts_list ts); [wp_step; split_and!; try done; by exists lim|]. destruct mem; cbn [when]; [|wp_step; split_and!; try done; by exists lim].
  eapply wp_mod_ts; [done|]. rewrite El. destruct (limit_grows lim Hl) as [Hl' Hb]. split_and!; try done.
  - unfold set_per_cpu, set_limit. apply tinv_reframe; [done|done|lia].
  - exists (u16 (Z.shiftl (lim + 1) 4 - 1)). split; [done|]. unfold frame. simpl. rewrite fmap_insert. unfold cpu_frame at 1. simpl. by rewrite Er.
Qed.

(** ** The interface and the handler *)

Lemma none_due_all cpu now w :
  none_due cpu now TIMER_STATUS_in_heap w -> none_due cpu now TIMER_STATUS_in_list w -> due cpu now w = ∅.
Proof.
  intros H1 H2. apply set_eq. intros u. split; [|set_solver]. intros Hu. exfalso. pose proof (H1 u Hu) as N1. pose proof (H2 u Hu) as N2.
  apply due_timer in Hu as (x & Hx & _ & _ & Hs). rewrite Hx in N1, N2. simpl in N1, N2. destruct Hs; congruence.
Qed.

(** The part of the handler that runs the handlers of the timers. *)
Lemma run_due_spec callback cpu now lim fuel w (k : M tworld unit) (Q : unit -> tworld -> Prop) :
  0 <= now -> (forall fn w, tinv [] w -> calls_ok (op_ok cpu now) (callback fn w) w) ->
  tinv [] w -> times_ok w -> frame w !! cpu = Some (lim, None) -> (size (due cpu now w) < fuel)%nat ->
  (forall w', soft cpu now w w' -> due cpu now w' = ∅ -> wp no_error k Q w') ->
  wp no_error (run_heap callback fuel cpu now ;;; run_list callback fuel cpu now ;;; k) Q w.
Proof.
  intros Hn Hcb Hi Ht Hf Hfuel HQ. wp_step. eapply wp_mono; [by eapply run_heap_spec|]. intros [] w1 [S1 N1].
  wp_step. eapply wp_mono; [eapply (run_list_spec callback cpu now Hn Hcb lim); [apply S1|apply S1|by rewrite (so_frame _ _ _ _ S1)|]|].
  - pose proof (subseteq_size _ _ (ld_due _ _ _ _ (so_less _ _ _ _ S1))). lia.
  - intros [] w2 [S2 N2]. apply HQ; [by eapply soft_trans|]. apply none_due_all; [|done].
    intros u Hu. rewrite (ld_status _ _ _ _ (so_less _ _ _ _ S2) u Hu). apply N1. by apply (ld_due _ _ _ _ (so_less _ _ _ _ S2)).
Qed.

Lemma s64_id x : -9223372036854775808 <= x < 9223372036854775808 -> s64 x = x.
Proof. intros H. unfold s64. rewrite Z.mod_small by lia. lia. Qed.

(** The deadline programmed arms the processor. *)
Lemma deadline_arms cpu d w si :
  times_ok w -> earliest w cpu d ->
  armed (TWorld (tm w) (per_cpu w) si (<[cpu := if d =? STIME_MAX then 0 else s64 (d + timer_slop)]> (timer_deadline w))) cpu.
Proof.
  intros Ht [Hmin Hd] t e f Hat He. change (abs w !! t = Some (ATimer (PActive e) cpu f)) in Hat. right. simpl. rewrite lookup_insert_eq.
  eexists. split; [done|]. pose proof (Hmin t e f Hat) as Hde. unfold timer_slop, STIME_MAX in *. destruct (Z.eqb_spec d 9223372036854775807); [lia|].
  destruct Hd as [?|(t' & f' & Ht')]; [lia|]. pose proof (Ht _ _ _ _ Ht'). rewrite s64_id by lia. lia.
Qed.

(** *** A state with two processors *)

(** Timer 100 is active, timer 101 is not. *)
Definition sample : tworld :=
  TWorld (<[100 := Timer 500 1 7 0 TIMER_STATUS_in_heap]> {[101 := Timer 0 0 8 0 TIMER_STATUS_inactive]})
    (<[0 := Timers [0; 100] 15 [] None [101]]> {[1 := Timers [0] 0 [] None []]}) {[0]} ∅.

Lemma lookup_two {A} (m : gmap Z A) a b x y k z :
  m = <[a := x]> {[b := y]} -> m !! k = Some z -> (k = a /\ z = x) \/ (k = b /\ z = y).
Proof.
  intros ->. destruct (decide (k = a)) as [->|Hne]; [rewrite lookup_insert_eq; left; by simplify_eq|].
  rewrite lookup_insert_ne by done. intros [-> ->]%lookup_singleton_Some. by right.
Qed.

Lemma sample_inv : tinv [] sample.
Proof.
  split.
  - intros c ts Hts. destruct (lookup_two _ 0 1 _ _ c ts eq_refl Hts) as [[-> ->]|[-> ->]]; split; simpl;
      try (by intros t ?%elem_of_nil); try (intros t ->%list_elem_of_singleton; by eexists); try (repeat constructor; set_solver); try done.
    + split; simpl; [lia| |].
      * intros i Hi. destruct i as [|[|i]]; [lia| |lia]. by eexists.
      * intros p d Hp Hd Hn. unfold child in Hd. simpl in Hn. lia.
    + split; simpl; [lia|lia|]. intros p d Hp Hd Hn. unfold child in Hd. simpl in Hn. lia.
  - intros t x Hx _. destruct (lookup_two _ 100 101 _ _ t x eq_refl Hx) as [[-> ->]|[-> ->]]; unfold located; simpl;
      (eexists; split; [by vm_compute|by left]).
  - by intros t ?%elem_of_nil.
  - done.
Qed.

Lemma sample_active t e c f : abs sample !! t = Some (ATimer (PActive e) c f) -> e = 500 /\ c = 0.
Proof.
  intros (x & Hx & E)%abs_inv. destruct (lookup_two _ 100 101 _ _ t x eq_refl Hx) as [[-> ->]|[-> ->]]; [|done].
  unfold abs_timer, phase_of in E. simpl in E. by simplify_eq.
Qed.

Lemma sample_times : times_ok sample.
Proof. intros t e c f [-> _]%sample_active. lia. Qed.

Lemma sample_armed c : armed sample c.
Proof. intros t e f [-> ->]%sample_active _. left. simpl. set_solver. Qed.

(** C15: Every call of the timer interface, on an invariant state and under the conditions its
    callers guarantee, returns; it changes exactly the timer it is about, as specified (set
    replaces the expiry time, stop deactivates, migrate keeps the expiry time and changes the
    processor, kill is final and every later call ignores the timer), keeps the heaps ordered
    with every timer in the structure of its status, and never leaves a timer without a
    pending softirq or a deadline that covers it. *)
Theorem timer_ops_refine o w :
  tinv [] w -> call_ok w o -> times_ok w -> (forall t e, o = OpSet t e -> 0 <= e) -> (forall c, armed w c) ->
  exists w', run_op o w = Ok (tt, w') /\ tinv [] w' /\ abs w' = a_op o (abs w) /\ frame w' = frame w
    /\ times_ok w' /\ forall c, armed w' c.
Proof.
  intros Hi Hc Ht Ho Ha. destruct (wp_total _ _ _ (run_op_spec o w Hi Hc)) as ([] & w' & E & Hp). exists w'.
  split_and!; [done|apply Hp|apply Hp|apply Hp|by eapply op_times|]. intros c. by eapply op_armed.
Qed.

Lemma timer_ops_refine_witness : exists w', run_op (OpSet 101 200) sample = Ok (tt, w') /\ abs w' !! 101 = Some (ATimer (PActive 200) 0 8) /\ armed w' 0.
Proof.
  destruct (timer_ops_refine (OpSet 101 200) sample sample_inv ltac:(by eexists) sample_times ltac:(intros t e [= _ <-]; lia) sample_armed)
    as (w' & E & _ & Ea & _ & _ & Har). exists w'. split_and!; [done|by rewrite Ea|done].
Defined.

(** C16: The softirq handler terminates: with handlers that set timers to times not yet past,
    one round per due timer is enough. Afterwards no timer of the processor is due, every
    timer is in the structure of its status, the heap limit has grown at most to the next
    size, and every processor that was armed, and the one the handler ran on, is armed. *)
Theorem softirq_terminates callback fuel cpu now mem programmed lim w :
  0 <= now -> (forall fn w, tinv [] w -> calls_ok (op_ok cpu now) (callback fn w) w) ->
  tinv [] w -> times_ok w -> frame w !! cpu = Some (lim, None) -> limit_ok lim -> (size (due cpu now w) < fuel)%nat ->
  exists w', timer_softirq_action callback fuel cpu now mem programmed w = Ok (tt, w')
    /\ tinv [] w' /\ due cpu now w' = ∅ /\ (exists lim', limit_ok lim' /\ frame w' = <[cpu := (lim', None)]> (frame w))
    /\ forall c, c = cpu \/ armed w c -> armed w' c.
Proof.
  intros Hn Hcb Hi Ht Hf Hl Hfuel.
  assert (wp no_error (timer_softirq_action callback fuel cpu now mem programmed) (fun _ w' => tinv [] w' /\ due cpu now w' = ∅
    /\ (exists lim', limit_ok lim' /\ frame w' = <[cpu := (lim', None)]> (frame w)) /\ forall c, c = cpu \/ armed w c -> armed w' c) w) as H.
  { unfold timer_softirq_action. wp_step. eapply wp_mono; [by eapply grow_heap_spec|]. intros [] w1 (Hi1 & Etm & Esi & Edl & lim' & Hl' & Ef1).
    assert (abs w1 = abs w) as Ea by (unfold abs; by rewrite Etm).
    apply (run_due_spec callback cpu now lim'); [done|done|done|unfold times_ok; by rewrite Ea|rewrite Ef1; apply lookup_insert_eq|unfold due; by rewrite Ea|].
    intros w2 S2 D2. destruct (frame_cpu cpu w2 lim' None) as (ts2 & Hts2 & _); [rewrite (so_frame _ _ _ _ S2), Ef1; apply lookup_insert_eq|].
    wp_step. eapply wp_mono; [apply (refill_heap_spec cpu ts2); [apply S2|done]|]. intros [] w3 [Hi3 R3].
    destruct (frame_lookup w2 w3 cpu ts2 (re_frame _ _ R3) Hts2) as (ts3 & Hts3 & _).
    wp_step. apply (next_deadline_spec cpu ts3); [done|done|]. intros d Hd. wp_step. wp_step.
    apply wp_raise. intros si Hsi _. simpl in *.
    assert (times_ok w3) as Ht3 by (unfold times_ok; rewrite (re_abs _ _ R3); apply S2).
    split_and!.
    - by eapply tinv_same, Hi3.
    - rewrite <- D2. unfold due. by rewrite <- (re_abs _ _ R3).
    - exists lim'. split; [done|]. transitivity (frame w3); [done|]. by rewrite (re_frame _ _ R3), (so_frame _ _ _ _ S2).
    - intros c Hc. destruct (decide (c = cpu)) as [->|Hne]; [by apply deadline_arms|]. destruct Hc as [?|Hc]; [done|].
      assert (armed w1 c) as Hc1 by (unfold armed; by rewrite Ea, Esi, Edl). pose proof (so_armed _ _ _ _ S2 c Hne Hc1) as Hc2.
      intros t e f Hat He. change (abs w3 !! t = Some (ATimer (PActive e) c f)) in Hat. rewrite (re_abs _ _ R3) in Hat. simpl.
      rewrite lookup_insert_ne, (re_deadline _ _ R3) by done. destruct (Hc2 t e f Hat He) as [Hs|Hs]; [left|by right].
      apply Hsi, (re_softirqs _ _ R3), Hs. }
  destruct (wp_total _ _ _ H) as ([] & w' & E & Hp). by exists w'.
Qed.

(** A handler that sets timer 100 again, a millisecond later. *)
Definition again (fn : Z) (w : tworld) : list timer_op :=
  match tm w !! 100 with Some _ => [OpSet 100 2000000] | None => [] end.

Lemma softirq_terminates_witness :
  exists w', timer_softirq_action again 2 0 1000 true true sample = Ok (tt, w') /\ due 0 1000 w' = ∅ /\ timer_deadline w' !! 0 = Some 2050000.
Proof.
  destruct (softirq_terminates again 2 0 1000 true true 15 sample) as (w' & E & _ & Hd & _).
  - lia.
  - intros fn w Hi. unfold again. destruct (tm w !! 100) as [x|] eqn:Hx; simpl; [|done]. split; [|done]. split; [by exists x|]. simpl. lia.
  - apply sample_inv.
  - apply sample_times.
  - reflexivity.
  - by right; left.
  - vm_compute. lia.
  - exists w'. split_and!; [done|done|]. vm_compute in E. injection E as <-. reflexivity.
Defined.
