(* ===== verification/TimerCpu.v ===== *)
(** * Timers: processors that come and go

    The timers of a processor that goes away move to another one. *)

From S2P Require Import Prelude.
From S2P Require Import Xen.
From S2P Require Import Heap.
From S2P Require Import Timer.
From S2P Require Import TimerHeap.
From S2P Require Import TimerFacts.
From S2P Require Import TimerOps.
From S2P Require Import TimerSoftirq.

Lemma size_list_to_set_le (l : list Z) : (size (list_to_set l : gset Z) <= length l)%nat.
Proof.
  induction l as [|x l IH]; simpl; [done|]. rewrite size_union_alt, size_singleton.
  pose proof (subseteq_size (list_to_set l ∖ {[x]} : gset Z) (list_to_set l) ltac:(set_solver)). lia.
Qed.

Section Migrate.
Context (old new : Z).
Hypothesis different : old <> new.

Definition moved (a : atimer) : atimer := if a_cpu a =? old then ATimer (a_phase a) new (a_fn a) else a.

(** One timer has moved: the rest of the work is the same as before. *)
Lemma moved_step (m : gmap Z atimer) t p f :
  m !! t = Some (ATimer p old f) -> moved <$> <[t := ATimer p new f]> m = moved <$> m.
Proof using different.
  intros Ht. rewrite fmap_insert. apply insert_id. rewrite lookup_fmap, Ht. simpl. unfold moved. simpl.
  by destruct (Z.eqb_spec old old), (Z.eqb_spec new old).
Qed.

Lemma moved_done (m : gmap Z atimer) : (forall t a, m !! t = Some a -> a_cpu a <> old) -> moved <$> m = m.
Proof.
  intros H. apply map_eq. intros t. rewrite lookup_fmap. destruct (m !! t) as [a|] eqn:E; [|done]. simpl. f_equal. unfold moved.
  destruct (Z.eqb_spec (a_cpu a) old) as [Hc|]; [|done]. by destruct (H t a E).
Qed.

(** The active timers of the processor that goes away. *)
Definition is_active (a : atimer) : bool := match a_phase a with PActive _ => a_cpu a =? old | _ => false end.
Definition actives (w : tworld) : gset Z := dom (filter (fun p : Z * atimer => is_active p.2 = true) (abs w)).

Lemma elem_of_actives w t : t ∈ actives w <-> exists e f, abs w !! t = Some (ATimer (PActive e) old f).
Proof.
  unfold actives. rewrite elem_of_dom. split.
  - intros [[p c f] Ha]. apply map_lookup_filter_Some in Ha as [Ha Hp]. unfold is_active in Hp. simpl in Hp. destruct p; try done.
    apply Z.eqb_eq in Hp as ->. by exists e, f.
  - intros (e & f & Ha). exists (ATimer (PActive e) old f). apply map_lookup_filter_Some. split; [done|]. unfold is_active. simpl. by apply Z.eqb_eq.
Qed.

(** A part of the move; the processors other than the new one stay armed. *)
Record moving (w w' : tworld) : Prop := Moving {
  mo_inv : tinv [] w';
  mo_times : times_ok w';
  mo_moved : moved <$> abs w' = moved <$> abs w;
  mo_frame : frame w' = frame w;
  mo_armed c : c <> new -> armed w c -> armed w' c
}.

Lemma moving_refl w : tinv [] w -> times_ok w -> moving w w.
Proof. by split. Qed.

Lemma moving_trans w1 w2 w3 : moving w1 w2 -> moving w2 w3 -> moving w1 w3.
Proof. intros [A1 A2 A3 A4 A5] [B1 B2 B3 B4 B5]. split; [done|done|congruence|congruence|auto]. Qed.

Lemma updated_armed t a w w' c :
  updated t a w w' -> (forall e, a_phase a = PActive e -> a_cpu a <> c) -> armed w c -> armed w' c.
Proof.
  intros U Ha Hc u e f Hu He. rewrite (up_deadline _ _ _ _ U). rewrite (up_abs _ _ _ _ U) in Hu. pose proof (up_softirqs _ _ _ _ U).
  destruct (decide (u = t)) as [->|Hne].
  - rewrite lookup_insert_eq in Hu. injection Hu as ->. by destruct (Ha e).
  - rewrite lookup_insert_ne in Hu by done. destruct (Hc u e f Hu He) as [Hs|Hd]; [left; set_solver|by right].
Qed.

(** One active timer is moved: it wakes the new processor unless another one is due before. *)
Lemma move_active_spec t e f w (Q : bool -> tworld -> Prop) :
  tinv [] w -> times_ok w -> abs w !! t = Some (ATimer (PActive e) old f) -> is_Some (per_cpu w !! new) ->
  (forall rc w', moving w w' -> abs w' = <[t := ATimer (PActive e) new f]> (abs w) -> (armed w new -> rc = true \/ armed w' new) ->
     softirqs w ⊆ softirqs w' -> Q rc w') ->
  wp no_error (let! _ := remove_entry t in mod_timer t (set_cpu new) ;;; add_entry t) Q w.
Proof using different.
  intros Hi Ht Ha [tsn Htsn] HQ. destruct (abs_inv _ _ _ Ha) as (x & Hx & Ex). unfold abs_timer in Ex. injection Ex as Ep Ec Ef.
  wp_step. eapply remove_entry_spec; [done|done|by eexists|]. intros _ w1 y Hi1 U1 Hy Hsy Hey.
  destruct (abs_fields w1 t y _ ltac:(rewrite (up_abs _ _ _ _ U1); apply lookup_insert_eq) Hy) as (_ & Ecy & Efy). simpl in Ecy, Efy.
  wp_step. eapply wp_mod_timer; [done|]. set (y1 := set_cpu new y). set (w2 := set_tm _ _).
  assert (updated t (abs_timer y1) w1 w2) as U2 by (split; try done; [unfold abs; simpl; by rewrite fmap_insert|others]).
  destruct (frame_lookup w w1 new tsn (up_frame _ _ _ _ U1) Htsn) as (ts1 & Hts1 & _).
  eapply (add_entry_spec [] t y1); [by apply tinv_off_change; [left|]|by apply not_elem_of_nil|simpl; apply lookup_insert_eq|done|exact Hts1|].
  intros rc w3 Hi3 U3 Hrc. pose proof (updated_trans _ _ _ _ _ _ U1 U2) as U12. pose proof (updated_trans _ _ _ _ _ _ U12 U3) as U.
  assert (expires x = e) as Ee by (unfold phase_of in Ep; destruct (status x); congruence).
  replace (expires y1) with e in * by (simpl; congruence). replace (function y1) with f in * by (simpl; congruence). replace (t_cpu y1) with new in * by done.
  pose proof (up_abs _ _ _ _ U) as Ea. apply HQ; [split|done| |apply U].
  - done.
  - intros u e' c f' Hu. rewrite Ea in Hu. destruct (decide (u = t)) as [->|Hne].
    + rewrite lookup_insert_eq in Hu. injection Hu as <- <- <-. by eapply Ht.
    + rewrite lookup_insert_ne in Hu by done. by eapply Ht.
  - rewrite Ea. by apply moved_step.
  - apply U.
  - intros c Hc. eapply updated_armed; [done|]. simpl. congruence.
  - intros Hn. destruct rc; [by left|right]. destruct (Hrc eq_refl) as (u & Hut & e' & f' & Hu & Hle).
    rewrite (up_abs _ _ _ _ U12), lookup_insert_ne in Hu by done.
    intros v ev fv Hv Hev. rewrite (up_deadline _ _ _ _ U). pose proof (up_softirqs _ _ _ _ U) as Hsi. rewrite Ea in Hv.
    assert (exists v' ev' fv', abs w !! v' = Some (ATimer (PActive ev') new fv') /\ ev' <= ev) as (v' & ev' & fv' & Hv' & Hle').
    { destruct (decide (v = t)) as [->|Hne]; [rewrite lookup_insert_eq in Hv; injection Hv as <- <-; by exists u, e', f'|].
      rewrite lookup_insert_ne in Hv by done. by exists v, ev, fv. }
    destruct (Hn v' ev' fv' Hv' ltac:(lia)) as [Hs|(d & Hd & Hr)]; [left; set_solver|right]. exists d. split; [done|lia].
Qed.

Lemma migrate_active_spec fuel notify w :
  tinv [] w -> times_ok w -> is_Some (per_cpu w !! old) -> is_Some (per_cpu w !! new) -> (size (actives w) < fuel)%nat ->
  notify = true \/ armed w new ->
  wp no_error (migrate_active fuel old new notify) (fun notify' w' => moving w w' /\ actives w' = ∅ /\ (notify' = true \/ armed w' new)) w.
Proof using different.
  revert notify w. induction fuel as [|fuel IH]; intros notify w Hi Ht [ts Hts] Hnew Hfuel Hn; [lia|]. simpl.
  pose proof (ti_cpu _ _ Hi _ _ Hts) as Hok. wp_step. eapply wp_get_ts; [done|].
  assert (forall u, u ∈ actives w -> u ∈ members (ts_heap ts) \/ u ∈ ts_list ts) as Hin.
  { intros u (e & f & Hu)%elem_of_actives. by destruct (active_where _ _ _ _ _ _ Hi Hts Hu). }
  assert (forall u, u ∈ members (ts_heap ts) \/ u ∈ ts_list ts -> u ∈ actives w) as Hact.
  { intros u Hu. apply elem_of_actives.
    destruct Hu as [Hu|Hu]; [destruct (ck_members _ _ _ Hok u Hu) as (x & Hx & Hs & Hc)|destruct (ck_list _ _ _ Hok u Hu) as (x & Hx & Hs & Hc)];
      exists (expires x), (function x); rewrite (abs_lookup _ _ _ Hx); unfold abs_timer, phase_of; by rewrite Hs, Hc. }
  destruct (match ts_heap ts !! 1%nat with Some t => Some t | None => head (ts_list ts) end) as [t|] eqn:Et.
  - assert (t ∈ actives w) as Hta.
    { apply Hact. destruct (ts_heap ts !! 1%nat) as [t'|] eqn:E1.
      - left. injection Et as ->. apply members_at. exists 1%nat. split; [|by apply list_lookup_total_correct]. apply lookup_lt_Some in E1. lia.
      - right. destruct (ts_list ts); [done|]. injection Et as ->. by left. }
    pose proof Hta as (e & f & Ha)%elem_of_actives.
    assert (wp no_error (let! rc := (let! _ := remove_entry t in mod_timer t (set_cpu new) ;;; add_entry t) in migrate_active fuel old new (notify || rc))
      (fun notify' w' => moving w w' /\ actives w' = ∅ /\ (notify' = true \/ armed w' new)) w) as H.
    { wp_step. eapply (move_active_spec t e f); [done|done|done|done|]. intros rc w1 M1 E1 Hrc Hsi.
      assert (actives w1 = actives w ∖ {[t]}) as Eact.
      { apply set_eq. intros u. rewrite elem_of_difference, elem_of_singleton, !elem_of_actives, E1. destruct (decide (u = t)) as [->|Hne].
        - rewrite lookup_insert_eq. split; [intros (? & ? & [= _ E _]); done|tauto].
        - rewrite lookup_insert_ne by done. tauto. }
      destruct (frame_lookup w w1 old ts (mo_frame _ _ M1) Hts) as (ts1 & Hts1 & _). destruct Hnew as [tsn Htsn].
      destruct (frame_lookup w w1 new tsn (mo_frame _ _ M1) Htsn) as (ts2 & Hts2 & _).
      eapply wp_mono; [apply IH|].
      - apply M1.
      - apply M1.
      - by exists ts1.
      - by exists ts2.
      - assert (size (actives w1) < size (actives w))%nat; [|lia]. apply subset_size. rewrite Eact. set_solver.
      - destruct Hn as [->|Hn]; [by left|]. destruct (Hrc Hn) as [->|Hn']; [left; apply orb_true_r|by right].
      - intros n' w2 (M2 & A2 & N2). split; [by eapply moving_trans|done]. }
    unfold wp, bind in *. destruct (remove_entry t w) as [[rc w1]|]; [|done]. by destruct (mod_timer t (set_cpu new) w1) as [[[] w2]|].
  - wp_step. split_and!; [by apply moving_refl| |done]. apply set_eq. intros u. split; [|set_solver]. intros Hu.
    destruct (ts_heap ts !! 1%nat) eqn:E1; [done|]. apply lookup_ge_None in E1. destruct (Hin u Hu) as [(i & Hi' & _)%members_at|Hl]; [lia|].
    destruct (ts_list ts); [by apply elem_of_nil in Hl|done].
Qed.

(** The inactive timers, one after the other. *)
Lemma move_inactive_spec l w :
  NoDup l -> tinv [] w -> times_ok w -> is_Some (per_cpu w !! new) ->
  (forall t, t ∈ l -> exists f, abs w !! t = Some (ATimer PInactive old f)) ->
  wp no_error (for_each l (fun t => del_inactive old t ;;; mod_timer t (set_cpu new) ;;; add_inactive new t))
    (fun _ w' => moving w w' /\ (armed w new -> armed w' new) /\
       forall u, abs w' !! u = if decide (u ∈ l) then moved <$> abs w !! u else abs w !! u) w.
Proof using different.
  revert w. induction l as [|t l IH]; intros w Hnd Hi Ht [tsn Htsn] Hl; simpl.
  { wp_step. split_and!; [by apply moving_refl|done|done]. }
  apply NoDup_cons in Hnd as [Htl Hnd]. destruct (Hl t ltac:(by left)) as (f & Ha). destruct (abs_inv _ _ _ Ha) as (x & Hx & Ex).
  unfold abs_timer in Ex. injection Ex as Ep Ec Ef. assert (status x = TIMER_STATUS_inactive) as Hs by (unfold phase_of in Ep; by destruct (status x)).
  wp_step. rewrite <- Ec. apply move_spec; [done|done|done|congruence|by exists tsn|]. intros w1 Hi1 U1 Hy. rewrite Ef, Ec in *.
  pose proof (up_abs _ _ _ _ U1) as Ea. assert (forall c, armed w c -> armed w1 c) as Harm by (intros c; by eapply updated_armed).
  assert (moving w w1) as M1.
  { split; [done| |rewrite Ea; by apply moved_step|apply U1|auto]. intros u e c f' Hu. rewrite Ea in Hu.
    destruct (decide (u = t)) as [->|Hne]; [by rewrite lookup_insert_eq in Hu|rewrite lookup_insert_ne in Hu by done; by eapply Ht]. }
  destruct (frame_lookup w w1 new tsn (up_frame _ _ _ _ U1) Htsn) as (ts1 & Hts1 & _).
  eapply wp_mono; [apply IH; [done|done|apply M1|by exists ts1|]|].
  - intros u Hu. rewrite Ea, lookup_insert_ne by (intros ->; done). apply Hl. by right.
  - intros [] w2 (M2 & A2 & E2). split_and!; [by eapply moving_trans|auto|]. intros u. rewrite E2, Ea. destruct (decide (u = t)) as [->|Hne].
    + rewrite lookup_insert_eq. rewrite (decide_False (P := t ∈ l)), decide_True by (done || by left). rewrite Ha. unfold moved. simpl.
      by destruct (Z.eqb_spec old old).
    + rewrite lookup_insert_ne by done. destruct (decide (u ∈ l)); [rewrite decide_True by (by right); done|].
      rewrite decide_False; [done|]. by intros [?|?]%elem_of_cons.
Qed.

Lemma actives_bound w ts : tinv [] w -> per_cpu w !! old = Some ts -> (size (actives w) < length (ts_heap ts) + length (ts_list ts))%nat.
Proof.
  intros Hi Hts. pose proof (ho_word _ _ (ck_heap _ _ _ (ti_cpu _ _ Hi _ _ Hts))) as Hw.
  assert (actives w ⊆ list_to_set (members (ts_heap ts) ++ ts_list ts)) as Hsub.
  { intros u (e & f & Hu)%elem_of_actives. apply elem_of_list_to_set, elem_of_app. by destruct (active_where _ _ _ _ _ _ Hi Hts Hu). }
  apply subseteq_size in Hsub. pose proof (size_list_to_set_le (members (ts_heap ts) ++ ts_list ts)) as Hle. rewrite length_app in Hle.
  unfold members in *. destruct (ts_heap ts); simpl in *; lia.
Qed.

(** Nothing is left at the old processor. *)
Lemma migrate_timers_spec w :
  tinv [] w -> times_ok w -> is_Some (per_cpu w !! old) -> is_Some (per_cpu w !! new) -> (forall c, armed w c) ->
  wp no_error (migrate_timers_from_cpu old new) (fun _ w' => tinv [] w' /\ times_ok w' /\ abs w' = moved <$> abs w /\ frame w' = frame w
    /\ (forall c, armed w' c) /\ forall t a, abs w' !! t = Some a -> a_cpu a <> old) w.
Proof using different.
  intros Hi Ht [ts Hts] [tsn Htsn] Harm. unfold migrate_timers_from_cpu. wp_step. eapply wp_get_ts; [done|]. wp_step.
  eapply wp_mono; [apply migrate_active_spec; [done|done|by exists ts|by exists tsn|by apply actives_bound|by right]|].
  intros notify w1 (M1 & A1 & N1). destruct (frame_lookup w w1 old ts (mo_frame _ _ M1) Hts) as (ts1 & Hts1 & _).
  destruct (frame_lookup w w1 new tsn (mo_frame _ _ M1) Htsn) as (tsn1 & Htsn1 & _). pose proof (mo_inv _ _ M1) as Hi1.
  pose proof (ti_cpu _ _ Hi1 _ _ Hts1) as Hok. wp_step. eapply wp_get_ts; [done|]. wp_step.
  eapply wp_mono; [apply move_inactive_spec; [apply Hok|done|apply M1|by exists tsn1|]|].
  - intros t Hin. destruct (ck_inactive _ _ _ Hok t Hin) as (x & Hx & Hs & Hc). exists (function x). rewrite (abs_lookup _ _ _ Hx). unfold abs_timer, phase_of. by rewrite Hs, Hc.
  - intros [] w2 (M2 & A2 & E2). pose proof (moving_trans _ _ _ M1 M2) as M.
    assert (forall t a, abs w2 !! t = Some a -> a_cpu a <> old) as Hgone.
    { intros t a Hta. rewrite E2 in Hta. case_decide as Hin.
      - destruct (abs w1 !! t) as [b|]; [|done]. injection Hta as <-. unfold moved. destruct (Z.eqb_spec (a_cpu b) old); simpl; congruence.
      - intros Hc. apply abs_inv in Hta as (x & Hx & <-). pose proof (ti_located _ _ Hi1 t x Hx (not_elem_of_nil _)) as Hl. unfold located in Hl. simpl in Hc.
        assert (forall e, phase_of x = PActive e -> False) as Hna.
        { intros e He. assert (t ∈ actives w1) as Hact; [|rewrite A1 in Hact; set_solver]. apply elem_of_actives. exists e, (function x).
          rewrite (abs_lookup _ _ _ Hx). unfold abs_timer. by rewrite He, Hc. }
        unfold phase_of in Hna. rewrite Hc, Hts1 in Hl. destruct (status x); [done| | |by eapply Hna|by eapply Hna].
        + by destruct Hl as (ts2 & [= <-] & ?).
        + rewrite Hl in Hts1. pose proof (ti_killed _ _ Hi1). congruence. }
    apply wp_raise. intros si Hsi Hn. split_and!; [by eapply tinv_same, (mo_inv _ _ M)|apply M| |apply M| |exact Hgone].
    + rewrite <- (mo_moved _ _ M). symmetry. by apply moved_done.
    + intros c u e f Hu He. destruct (decide (c = new)) as [->|Hne].
      * destruct N1 as [->|N1]; [left; by apply Hn|]. destruct (A2 N1 u e f Hu He) as [Hs|Hd]; [left; by apply Hsi|by right].
      * destruct (mo_armed _ _ M c Hne (Harm c) u e f Hu He) as [Hs|Hd]; [left; by apply Hsi|by right].
Qed.
End Migrate.

(** A processor without timers is prepared. *)
Lemma up_prepare_spec cpu w :
  cpu <> TIMER_CPU_status_killed -> tinv [] w -> (forall t a, abs w !! t = Some a -> a_cpu a <> cpu) ->
  wp no_error (cpu_callback CPU_UP_PREPARE cpu cpu) (fun _ w' => tinv [] w' /\ tm w' = tm w /\ softirqs w' = softirqs w
    /\ timer_deadline w' = timer_deadline w /\ exists r, frame w' = <[cpu := (0, r)]> (frame w)) w.
Proof.
  intros Hk Hi Hno. simpl. wp_step. set (o := default _ _). unfold set_per_cpu.
  assert (ts_list o = []) as El.
  { unfold o. destruct (per_cpu w !! cpu) as [ts|] eqn:Hts; [|done]. simpl. destruct (ts_list ts) as [|t l] eqn:E; [done|].
    destruct (ck_list _ _ _ (ti_cpu _ _ Hi _ _ Hts) t ltac:(rewrite E; by left)) as (x & Hx & _ & Hc).
    by destruct (Hno t _ (abs_lookup _ _ _ Hx)). }
  rewrite El. destruct Hi as [H1 H2 _ H4]. split_and!; try done; [split; simpl|].
  - intros c ts. destruct (decide (c = cpu)) as [->|Hne]; [rewrite lookup_insert_eq|rewrite lookup_insert_ne by done; apply H1].
    intros [= <-]. split; simpl; try (by intros t ?%elem_of_nil); try constructor; try done.
    + simpl. lia.
    + simpl. lia.
    + intros p d Hp Hd Hn. unfold child in Hd. simpl in Hn. lia.
  - intros t x Hx _. pose proof (H2 t x Hx (not_elem_of_nil _)) as Hl. pose proof (Hno t _ (abs_lookup _ _ _ Hx)) as Hc. simpl in Hc.
    unfold located in *. by rewrite lookup_insert_ne.
  - by intros t ?%elem_of_nil.
  - by rewrite lookup_insert_ne.
  - exists (running o). unfold frame. simpl. by rewrite fmap_insert.
Qed.

(** When a processor goes away, its timers survive: the notifier moves every one of them,
    active or not, to the other processor with its expiry time, nothing is left behind, and
    the new processor is woken when one of them is due before its deadline; the processor can
    then be prepared again, with an empty heap, without disturbing any timer. *)
Theorem hotplug_keeps_timers old new w :
  old <> new -> tinv [] w -> times_ok w -> is_Some (per_cpu w !! old) -> is_Some (per_cpu w !! new) -> (forall c, armed w c) ->
  exists w1 w2 r,
    cpu_callback CPU_DEAD old new w = Ok (tt, w1) /\ tinv [] w1 /\ abs w1 = moved old new <$> abs w /\ frame w1 = frame w /\ (forall c, armed w1 c)
    /\ cpu_callback CPU_UP_PREPARE old old w1 = Ok (tt, w2) /\ tinv [] w2 /\ abs w2 = abs w1 /\ frame w2 = <[old := (0, r)]> (frame w) /\ forall c, armed w2 c.
Proof.
  intros Hne Hi Ht Ho Hn Ha. assert (old <> TIMER_CPU_status_killed) as Hk by (intros ->; destruct Ho; pose proof (ti_killed _ _ Hi); congruence).
  destruct (wp_total _ _ _ (migrate_timers_spec old new Hne w Hi Ht Ho Hn Ha)) as ([] & w1 & E1 & I1 & T1 & A1 & F1 & R1 & N1).
  destruct (wp_total _ _ _ (up_prepare_spec old w1 Hk I1 N1)) as ([] & w2 & E2 & I2 & Tm & Si & Dl & r & F2).
  exists w1, w2, r. assert (abs w2 = abs w1) as Ea by (unfold abs; by rewrite Tm).
  split_and!; try done; [by rewrite F2, F1|]. intros c. unfold armed. rewrite Ea, Si, Dl. apply R1.
Qed.

Lemma hotplug_keeps_timers_witness :
  exists w1, cpu_callback CPU_DEAD 0 1 sample = Ok (tt, w1) /\ abs w1 !! 100 = Some (ATimer (PActive 500) 1 7) /\ 1 ∈ softirqs w1.
Proof.
  destruct (hotplug_keeps_timers 0 1 sample ltac:(done) sample_inv sample_times ltac:(by eexists) ltac:(by eexists) sample_armed)
    as (w1 & w2 & r & E & _ & Ea & _). exists w1. split_and!; [done|by rewrite Ea|].
  vm_compute in E. injection E as <-. vm_compute. by repeat constructor.
Defined.
