(* ===== verification/Evtchn.v ===== *)
(** * Event channels

    [src/xen/common/event_channel.c]: the ports of the domains, their bindings to other
    domains, to virtual and physical interrupts, and the delivery of events. The file has the
    operations and the state; [EvtchnFacts] to [EvtchnLife] have the invariant and the lemmas on each operation,
    [EvtchnMain] the theorems. *)

From S2P Require Import Prelude.
From S2P Require Import Xen.
From S2P Require Import Rangeset.

Definition NR_VIRQS : Z := 24.
Definition EVTCHNS_PER_BUCKET : Z := 128.
Definition DOMID_SELF : Z := 0x7ff0.
Definition DOMID_INVALID : Z := 0x7ff4.

(** ** State *)

(** [state] and the member of the union that belongs to it. *)
Inductive ecs : Type :=
| ECS_FREE | ECS_RESERVED
| ECS_UNBOUND (remote_domid : Z)
| ECS_INTERDOMAIN (remote_dom remote_port : Z)
| ECS_PIRQ (irq next_port prev_port : Z)
| ECS_VIRQ (virq : Z)
| ECS_IPI.

#[export] Instance ecs_eq_dec : EqDecision ecs.
Proof. solve_decision. Defined.

Record evtchn : Type := Evtchn { state : ecs; xen_consumer : Z; notify_vcpu_id : Z }.

(** A bucket of ports; the memory of one may have been freed while the domain points to it. *)
Inductive bucket : Type := Live (chn : list evtchn) | Freed.

Record vcpu : Type := Vcpu {
  virq_to_evtchn : gmap Z Z;
  pirq_evtchn_head : Z;
  evtchn_pending_sel : gset Z;
  evtchn_upcall_pending : bool;
  poll_evtchn : Z;
  blocked_in_xen : bool
}.

(** [struct domain], what the event channels use of it: [word] is the number of bits of a
    word of the guest, [pirqs] the tree of interrupts with their ports. *)
Record domain : Type := Domain {
  is_dying : bool;
  is_hvm : bool;
  word : Z;
  max_vcpus : Z;
  vcpus : gmap Z vcpu;
  buckets : gmap Z bucket;
  evtchn_pending : gset Z;
  evtchn_mask : gset Z;
  poll_mask : gset Z;
  nr_pirqs : Z;
  pirqs : gmap Z Z;
  irq_caps : rset
}.

(** What is asked of the rest of the hypervisor. *)
Inductive xen_event : Type :=
| VcpuKick (d v : Z) | VcpuUnblock (d v : Z) | VcpuWake (d v : Z)
| XenNotify (fn d v port : Z)
| PirqUnbind (d pirq : Z) | PirqAffinity (d pirq v : Z) | MapEmuirq (d pirq : Z) | UnmapEmuirq (d pirq : Z)
| GetDomain (d : Z) | PutDomain (d : Z).

(** The domains by number, the notification functions in use, the domains that handle the
    global interrupts, the requests in order. *)
Record eworld : Type := EWorld {
  doms : gmap Z domain;
  xen_consumers : list Z;
  global_virq_handlers : gmap Z Z;
  requests : list xen_event
}.

(** The parts outside the model: the addresses of the domain structures, memory, security
    modules, privileges, the interrupt code of the architecture; and what the other processors
    do while a lock is dropped. *)
Class XenEnv := {
  dom_addr : Z -> Z;
  evtchn_alloc_ok : eworld -> bool;
  alloc_security_fails : bool;
  xsm_unbound : Z -> Z -> Z -> Z;
  xsm_interdomain : Z -> Z -> Z -> Z -> Z;
  xsm_send : Z -> Z -> Z;
  xsm_status : Z -> Z -> Z;
  xsm_reset : Z -> Z -> Z;
  is_priv_for : Z -> Z -> bool;
  pirq_alloc_ok : eworld -> bool;
  pirq_bind_rc : Z -> Z -> Z;
  pirq_is_mapped : Z -> Z -> bool;
  others : eworld -> eworld
}.

Definition set_state (s : ecs) (c : evtchn) : evtchn := Evtchn s (xen_consumer c) (notify_vcpu_id c).
Definition set_consumer (x : Z) (c : evtchn) : evtchn := Evtchn (state c) x (notify_vcpu_id c).
Definition set_notify (v : Z) (c : evtchn) : evtchn := Evtchn (state c) (xen_consumer c) v.

Definition set_virq (virq port : Z) (v : vcpu) : vcpu :=
  Vcpu (<[virq := port]> (virq_to_evtchn v)) (pirq_evtchn_head v) (evtchn_pending_sel v) (evtchn_upcall_pending v) (poll_evtchn v) (blocked_in_xen v).
Definition set_head (p : Z) (v : vcpu) : vcpu :=
  Vcpu (virq_to_evtchn v) p (evtchn_pending_sel v) (evtchn_upcall_pending v) (poll_evtchn v) (blocked_in_xen v).
Definition set_sel (s : gset Z) (v : vcpu) : vcpu :=
  Vcpu (virq_to_evtchn v) (pirq_evtchn_head v) s (evtchn_upcall_pending v) (poll_evtchn v) (blocked_in_xen v).
Definition set_upcall (v : vcpu) : vcpu :=
  Vcpu (virq_to_evtchn v) (pirq_evtchn_head v) (evtchn_pending_sel v) true (poll_evtchn v) (blocked_in_xen v).
Definition set_poll (p : Z) (v : vcpu) : vcpu :=
  Vcpu (virq_to_evtchn v) (pirq_evtchn_head v) (evtchn_pending_sel v) (evtchn_upcall_pending v) p (blocked_in_xen v).
Definition set_unblocked (v : vcpu) : vcpu :=
  Vcpu (virq_to_evtchn v) (pirq_evtchn_head v) (evtchn_pending_sel v) (evtchn_upcall_pending v) (poll_evtchn v) false.

Definition set_vcpus (m : gmap Z vcpu) (d : domain) : domain :=
  Domain (is_dying d) (is_hvm d) (word d) (max_vcpus d) m (buckets d) (evtchn_pending d) (evtchn_mask d) (poll_mask d) (nr_pirqs d) (pirqs d) (irq_caps d).
Definition set_buckets (m : gmap Z bucket) (d : domain) : domain :=
  Domain (is_dying d) (is_hvm d) (word d) (max_vcpus d) (vcpus d) m (evtchn_pending d) (evtchn_mask d) (poll_mask d) (nr_pirqs d) (pirqs d) (irq_caps d).
Definition set_pending (s : gset Z) (d : domain) : domain :=
  Domain (is_dying d) (is_hvm d) (word d) (max_vcpus d) (vcpus d) (buckets d) s (evtchn_mask d) (poll_mask d) (nr_pirqs d) (pirqs d) (irq_caps d).
Definition set_mask (s : gset Z) (d : domain) : domain :=
  Domain (is_dying d) (is_hvm d) (word d) (max_vcpus d) (vcpus d) (buckets d) (evtchn_pending d) s (poll_mask d) (nr_pirqs d) (pirqs d) (irq_caps d).
Definition set_poll_mask (s : gset Z) (d : domain) : domain :=
  Domain (is_dying d) (is_hvm d) (word d) (max_vcpus d) (vcpus d) (buckets d) (evtchn_pending d) (evtchn_mask d) s (nr_pirqs d) (pirqs d) (irq_caps d).
Definition set_pirqs (m : gmap Z Z) (d : domain) : domain :=
  Domain (is_dying d) (is_hvm d) (word d) (max_vcpus d) (vcpus d) (buckets d) (evtchn_pending d) (evtchn_mask d) (poll_mask d) (nr_pirqs d) m (irq_caps d).

Definition set_doms (m : gmap Z domain) (w : eworld) : eworld := EWorld m (xen_consumers w) (global_virq_handlers w) (requests w).
Definition set_consumers (l : list Z) (w : eworld) : eworld := EWorld (doms w) l (global_virq_handlers w) (requests w).
Definition set_handlers (m : gmap Z Z) (w : eworld) : eworld := EWorld (doms w) (xen_consumers w) m (requests w).

(** ** Access *)

Definition get_dom (d : Z) : M eworld domain := fun w => of_option NullDeref (doms w !! d) w.
Definition mod_dom (d : Z) (f : domain -> domain) : M eworld unit :=
  let! x := get_dom d in modify (fun w => set_doms (<[d := f x]> (doms w)) w).

Definition get_vcpu (d v : Z) : M eworld vcpu := let! x := get_dom d in of_option NullDeref (vcpus x !! v).
Definition mod_vcpu (d v : Z) (f : vcpu -> vcpu) : M eworld unit :=
  let! x := get_vcpu d v in mod_dom d (fun y => set_vcpus (<[v := f x]> (vcpus y)) y).

Definition request (e : xen_event) : M eworld unit :=
  modify (fun w => EWorld (doms w) (xen_consumers w) (global_virq_handlers w) (requests w ++ [e])).

Definition MAX_EVTCHNS (d : domain) : Z := word d * word d.
Definition port_is_valid (d : domain) (p : Z) : bool :=
  (0 <=? p) && (p <? MAX_EVTCHNS d) && bool_decide (is_Some (buckets d !! (p / EVTCHNS_PER_BUCKET))).

Definition evtchn_from_port (d : domain) (p : Z) : result evtchn :=
  match buckets d !! (p / EVTCHNS_PER_BUCKET) with
  | None => Err NullDeref
  | Some Freed => Err UseAfterFree
  | Some (Live l) => match l !! Z.to_nat (Z.land p 127) with None => Err OutOfBounds | Some c => Ok c end
  end.

Definition get_chn (d p : Z) : M eworld evtchn :=
  let! x := get_dom d in fun w => match evtchn_from_port x p with Ok c => Ok (c, w) | Err e => Err e end.

Definition put_chn (p : Z) (c : evtchn) (d : domain) : domain :=
  match buckets d !! (p / EVTCHNS_PER_BUCKET) with
  | Some (Live l) => set_buckets (<[p / EVTCHNS_PER_BUCKET := Live (<[Z.to_nat (Z.land p 127) := c]> l)]> (buckets d)) d
  | _ => d
  end.

Definition mod_chn (d p : Z) (f : evtchn -> evtchn) : M eworld unit :=
  let! c := get_chn d p in mod_dom d (put_chn p (f c)).

(** ** Delivery *)

(** The architecture's part: the guest is told once. *)
Definition vcpu_mark_events_pending (d v : Z) : M eworld unit :=
  let! x := get_vcpu d v in
  if evtchn_upcall_pending x then ret tt
  else mod_vcpu d v set_upcall ;;; request (VcpuKick d v).

(** [test_and_set_bit] on the selector of the words of pending bits. *)
Definition test_and_set_sel (d v word_index : Z) : M eworld bool :=
  let! x := get_vcpu d v in
  mod_vcpu d v (set_sel ({[word_index]} ∪ evtchn_pending_sel x)) ;;;
  ret (bool_decide (word_index ∈ evtchn_pending_sel x)).

(** A virtual processor that polls for this port, or for any, is woken. *)
Definition wake_poller (d port vcpuid : Z) : M eworld unit :=
  let! x := get_dom d in
  when (bool_decide (vcpuid ∈ poll_mask x))
    (let! v := get_vcpu d vcpuid in
     when ((poll_evtchn v <=? 0) || (poll_evtchn v =? port))
       (mod_dom d (fun x => set_poll_mask (poll_mask x ∖ {[vcpuid]}) x) ;;;
        mod_vcpu d vcpuid (set_poll 0) ;;;
        request (VcpuUnblock d vcpuid))).

Definition evtchn_set_pending (d v port : Z) : M eworld unit :=
  let! x := get_dom d in
  if bool_decide (port ∈ evtchn_pending x) then ret tt
  else
    mod_dom d (set_pending ({[port]} ∪ evtchn_pending x)) ;;;
    when (negb (bool_decide (port ∈ evtchn_mask x)))
      (let! old := test_and_set_sel d v (port / word x) in
       when (negb old) (vcpu_mark_events_pending d v)) ;;;
    for_ (Z.to_nat (max_vcpus x)) 0 (wake_poller d port).

(** ** Consumers in the hypervisor *)

Definition default_fn : Z := 1.
Definition NR_CONSUMERS : nat := 8.

(** The default notification wakes a virtual processor that waits in the hypervisor. *)
Definition default_xen_notification_fn (d v : Z) : M eworld unit :=
  let! x := get_vcpu d v in
  when (blocked_in_xen x) (mod_vcpu d v set_unblocked ;;; request (VcpuWake d v)).

(** The slots in use are a prefix of the array. *)
Fixpoint find_consumer (l : list Z) (fn : Z) : nat :=
  match l with
  | [] => 0
  | f :: l => if f =? fn then 0 else S (find_consumer l fn)
  end.

Definition get_xen_consumer (fn : Z) : M eworld Z :=
  let fn := if fn =? 0 then default_fn else fn in
  let! l := gets xen_consumers in
  let i := find_consumer l fn in
  if bool_decide (i < NR_CONSUMERS)%nat then
    modify (set_consumers (if bool_decide (i < length l)%nat then l else l ++ [fn])) ;;;
    ret (Z.of_nat i + 1)
  else fail Abort.

Definition consumer_is_xen (c : evtchn) : bool := negb (xen_consumer c =? 0).

Definition xen_notification (c : evtchn) (d v port : Z) : M eworld unit :=
  let! l := gets xen_consumers in
  let! fn := of_option NullDeref (l !! Z.to_nat (xen_consumer c - 1)) in
  request (XenNotify fn d v port) ;;;
  when (fn =? default_fn) (default_xen_notification_fn d v).

Definition VIRQ_TIMER : Z := 0.
Definition VIRQ_DEBUG : Z := 1.
Definition VIRQ_XENOPROF : Z := 7.

(** The architecture's interrupts are global on x86. The assertion that [virq] is in range is
    with the callers that do not check it. *)
Definition virq_is_global (virq : Z) : bool :=
  negb ((virq =? VIRQ_TIMER) || (virq =? VIRQ_DEBUG) || (virq =? VIRQ_XENOPROF)).

Section Ops.
Context `{XenEnv}.

(** ** Ports *)

(** The first free port, or the first port without a bucket. *)
Fixpoint find_port (fuel : nat) (x : domain) (port : Z) : result (Z * bool) :=
  match fuel with
  | O => Err OutOfFuel
  | S fuel =>
      if port_is_valid x port then
        match evtchn_from_port x port with
        | Err e => Err e
        | Ok c => if bool_decide (state c = ECS_FREE) then Ok (port, true) else find_port fuel x (port + 1)
        end
      else Ok (port, false)
  end.

Definition free_evtchn : evtchn := Evtchn ECS_FREE 0 0.

Definition get_free_port (d : Z) : M eworld Z :=
  let! x := get_dom d in
  if is_dying x then ret (- EINVAL)
  else
    let! r := (fun w => match find_port (S (Z.to_nat (MAX_EVTCHNS x))) x 0 with Ok r => Ok (r, w) | Err e => Err e end) in
    let '(port, found) := r in
    if found : bool then ret port
    else if port =? MAX_EVTCHNS x then ret (- ENOSPC)
    else
      let! ok := gets evtchn_alloc_ok in
      if negb ok then ret (- ENOMEM)
      else
        let i := port / EVTCHNS_PER_BUCKET in
        mod_dom d (fun x => set_buckets (<[i := Live (replicate 128 free_evtchn)]> (buckets x)) x) ;;;
        if alloc_security_fails then
          mod_dom d (fun x => set_buckets (<[i := Freed]> (buckets x)) x) ;;; ret (- ENOMEM)
        else ret port.

(** ** Binding: the result is the error number and the port *)

Definition rcu_lock_target (cur dom : Z) : M eworld (Z * Z) :=
  if dom =? DOMID_SELF then ret (0, cur)
  else
    let! ds := gets doms in
    match ds !! dom with
    | None => ret (- ESRCH, 0)
    | Some _ => if is_priv_for cur dom then ret (0, dom) else ret (- EPERM, 0)
    end.

Definition evtchn_alloc_unbound (cur dom remote_dom : Z) : M eworld (Z * Z) :=
  let! r := rcu_lock_target cur dom in
  let '(rc, d) := r in
  if negb (rc =? 0) then ret (rc, 0)
  else
    let! port := get_free_port d in
    if port <? 0 then ret (port, 0)
    else
      let rc := xsm_unbound d port remote_dom in
      if negb (rc =? 0) then ret (rc, 0)
      else
        mod_chn d port (set_state (ECS_UNBOUND (if remote_dom =? DOMID_SELF then cur else remote_dom))) ;;;
        ret (0, port).

Definition evtchn_bind_interdomain (cur remote_dom rport : Z) : M eworld (Z * Z) :=
  let rd := if remote_dom =? DOMID_SELF then cur else remote_dom in
  let! ds := gets doms in
  match ds !! rd with
  | None => ret (- ESRCH, 0)
  | Some _ =>
      let! lport := get_free_port cur in
      if lport <? 0 then ret (lport, 0)
      else
        let! lchn := get_chn cur lport in
        let! y := get_dom rd in
        if negb (port_is_valid y rport) then ret (- EINVAL, 0)
        else
          let! rchn := get_chn rd rport in
          if negb (bool_decide (state rchn = ECS_UNBOUND cur)) then ret (- EINVAL, 0)
          else
            let rc := xsm_interdomain cur lport rd rport in
            if negb (rc =? 0) then ret (rc, 0)
            else
              mod_chn cur lport (set_state (ECS_INTERDOMAIN rd (u16 rport))) ;;;
              mod_chn rd rport (set_state (ECS_INTERDOMAIN cur (u16 lport))) ;;;
              evtchn_set_pending cur (notify_vcpu_id lchn) lport ;;;
              ret (0, lport)
  end.

Definition vcpu_exists (x : domain) (v : Z) : bool :=
  (0 <=? v) && (v <? max_vcpus x) && bool_decide (is_Some (vcpus x !! v)).

Definition virq_port (v : vcpu) (virq : Z) : Z := default 0 (virq_to_evtchn v !! virq).

Definition evtchn_bind_virq (cur virq v : Z) : M eworld (Z * Z) :=
  if (virq <? 0) || (NR_VIRQS <=? virq) then ret (- EINVAL, 0)
  else if virq_is_global virq && negb (v =? 0) then ret (- EINVAL, 0)
  else
    let! x := get_dom cur in
    if negb (vcpu_exists x v) then ret (- ENOENT, 0)
    else
      let! y := get_vcpu cur v in
      if negb (virq_port y virq =? 0) then ret (- EEXIST, 0)
      else
        let! port := get_free_port cur in
        if port <? 0 then ret (port, 0)
        else
          mod_chn cur port (fun c => Evtchn (ECS_VIRQ virq) (xen_consumer c) v) ;;;
          mod_vcpu cur v (set_virq virq port) ;;;
          ret (0, port).

Definition evtchn_bind_ipi (cur v : Z) : M eworld (Z * Z) :=
  let! x := get_dom cur in
  if negb (vcpu_exists x v) then ret (- ENOENT, 0)
  else
    let! port := get_free_port cur in
    if port <? 0 then ret (port, 0)
    else
      mod_chn cur port (fun c => Evtchn ECS_IPI (xen_consumer c) v) ;;;
      ret (0, port).

(** ** Physical interrupts: the ports of a virtual processor are a doubly linked list *)

Definition set_prev (prev : Z) (c : evtchn) : option evtchn :=
  match state c with ECS_PIRQ irq next _ => Some (set_state (ECS_PIRQ irq next prev) c) | _ => None end.
Definition set_next (next : Z) (c : evtchn) : option evtchn :=
  match state c with ECS_PIRQ irq _ prev => Some (set_state (ECS_PIRQ irq next prev) c) | _ => None end.

(** Writes a link of a channel, which must be bound to an interrupt. *)
Definition mod_link (d p : Z) (f : evtchn -> option evtchn) : M eworld unit :=
  let! c := get_chn d p in
  let! c' := of_option Abort (f c) in
  mod_chn d p (fun _ => c').

Definition link_pirq_port (d port v : Z) : M eworld unit :=
  let! x := get_vcpu d v in
  let head := pirq_evtchn_head x in
  mod_link d port (set_prev 0) ;;;
  mod_link d port (set_next head) ;;;
  when (negb (head =? 0)) (mod_link d head (set_prev port)) ;;;
  mod_vcpu d v (set_head port).

Definition unlink_pirq_port (d port v : Z) : M eworld unit :=
  let! c := get_chn d port in
  match state c with
  | ECS_PIRQ _ next prev =>
      (if negb (prev =? 0) then mod_link d prev (set_next next) else mod_vcpu d v (set_head next)) ;;;
      when (negb (next =? 0)) (mod_link d next (set_prev prev))
  | _ => fail Abort
  end.

Definition pirq_to_evtchn (x : domain) (pirq : Z) : Z := default 0 (pirqs x !! pirq).

Definition irq_access_permitted (x : domain) (pirq : Z) : M eworld bool :=
  fun w => match rangeset_contains_singleton pirq (irq_caps x) with Ok (b, _) => Ok (b, w) | Err e => Err e end.

Definition evtchn_bind_pirq (cur pirq : Z) : M eworld (Z * Z) :=
  let! x := get_dom cur in
  if (pirq <? 0) || (nr_pirqs x <=? pirq) then ret (- EINVAL, 0)
  else
    let! permitted := if is_hvm x then ret true else irq_access_permitted x pirq in
    if negb permitted then ret (- EPERM, 0)
    else if negb (pirq_to_evtchn x pirq =? 0) then ret (- EEXIST, 0)
    else
    let! port := get_free_port cur in
    if port <? 0 then ret (port, 0)
    else
      let! ok := gets pirq_alloc_ok in
      if bool_decide (pirqs x !! pirq = None) && negb ok then ret (- ENOMEM, 0)
      else
        mod_dom cur (fun x => set_pirqs (<[pirq := port]> (pirqs x)) x) ;;;
        let rc := if negb (is_hvm x) then pirq_bind_rc cur pirq else 0 in
        if negb (rc =? 0) then
          mod_dom cur (fun x => set_pirqs (<[pirq := 0]> (pirqs x)) x) ;;; ret (rc, 0)
        else
          mod_chn cur port (set_state (ECS_PIRQ pirq 0 0)) ;;;
          link_pirq_port cur port 0 ;;;
          when (is_hvm x && pirq_is_mapped cur pirq) (request (MapEmuirq cur pirq)) ;;;
          ret (0, port).

(** ** Closing *)

Inductive close_result : Type := Closed (rc : Z) | Again (d2 : Z).

(** The channel becomes free; it notifies virtual processor 0 again. *)
Definition close_chn (d port : Z) : M eworld unit :=
  mod_dom d (fun x => set_pending (evtchn_pending x ∖ {[port]}) x) ;;;
  mod_chn d port (fun c => Evtchn ECS_FREE (xen_consumer c) 0).

(** [pirq_cleanup_check] does nothing once [evtchn] is 0: its condition is reversed. *)
Definition close_pirq (d port irq : Z) (c : evtchn) : M eworld unit :=
  let! x := get_dom d in
  match pirqs x !! irq with
  | None => ret tt
  | Some _ =>
      when (negb (is_hvm x)) (request (PirqUnbind d irq)) ;;;
      mod_dom d (fun x => set_pirqs (<[irq := 0]> (pirqs x)) x) ;;;
      unlink_pirq_port d port (notify_vcpu_id c) ;;;
      when (is_hvm x && pirq_is_mapped d irq) (request (UnmapEmuirq d irq))
  end.

Definition close_virq (port virq : Z) (v : vcpu) : vcpu :=
  if virq_port v virq =? port then set_virq virq 0 v else v.

(** The other end waits for the domain to bind again. *)
Definition close_remote (d1 d2 port2 : Z) : M eworld unit :=
  let! y := get_dom d2 in
  (if port_is_valid y port2 then ret tt else fail Abort) ;;;
  let! c := get_chn d2 port2 in
  match state c with
  | ECS_INTERDOMAIN rd _ =>
      if rd =? d1 then mod_chn d2 port2 (set_state (ECS_UNBOUND d1)) else fail Abort
  | _ => fail Abort
  end.

(** One pass of [__evtchn_close], with the lock of [d2] held when it is given. The domain
    with the lower address is locked first. *)
Definition close_pass (d1 port1 : Z) (d2 : option Z) : M eworld close_result :=
  let! x := get_dom d1 in
  if negb (port_is_valid x port1) then ret (Closed (- EINVAL))
  else
    let! c := get_chn d1 port1 in
    if consumer_is_xen c then ret (Closed (- EINVAL))
    else
      match state c with
      | ECS_FREE | ECS_RESERVED => ret (Closed (- EINVAL))
      | ECS_UNBOUND _ | ECS_IPI => close_chn d1 port1 ;;; ret (Closed 0)
      | ECS_PIRQ irq _ _ => close_pirq d1 port1 irq c ;;; close_chn d1 port1 ;;; ret (Closed 0)
      | ECS_VIRQ virq =>
          mod_dom d1 (fun x => set_vcpus (close_virq port1 virq <$> vcpus x) x) ;;; close_chn d1 port1 ;;; ret (Closed 0)
      | ECS_INTERDOMAIN rd port2 =>
          match d2 with
          | None =>
              request (GetDomain rd) ;;;
              if dom_addr rd <? dom_addr d1 then ret (Again rd)
              else close_remote d1 rd port2 ;;; close_chn d1 port1 ;;; request (PutDomain rd) ;;; ret (Closed 0)
          | Some d2 =>
              if negb (d2 =? rd) then ret (Closed (- EINVAL))
              else close_remote d1 rd port2 ;;; close_chn d1 port1 ;;; ret (Closed 0)
          end
      end.

(** The lock of [d1] is dropped before that of [d2] is taken: the others may run. *)
Definition __evtchn_close (d1 port1 : Z) : M eworld Z :=
  let! r := close_pass d1 port1 None in
  match r with
  | Closed rc => ret rc
  | Again d2 =>
      modify others ;;;
      let! r := close_pass d1 port1 (Some d2) in
      request (PutDomain d2) ;;;
      match r with Closed rc => ret rc | Again _ => fail Abort end
  end.

(** ** Sending *)

Definition evtchn_send (d lport : Z) : M eworld Z :=
  let! x := get_dom d in
  if negb (port_is_valid x lport) then ret (- EINVAL)
  else
    let! lchn := get_chn d lport in
    if consumer_is_xen lchn then ret (- EINVAL)
    else
      let rc := xsm_send d lport in
      if negb (rc =? 0) then ret rc
      else
        match state lchn with
        | ECS_INTERDOMAIN rd rport =>
            let! rchn := get_chn rd rport in
            (if consumer_is_xen rchn then xen_notification rchn rd (notify_vcpu_id rchn) rport
             else evtchn_set_pending rd (notify_vcpu_id rchn) rport) ;;; ret 0
        | ECS_IPI => evtchn_set_pending d (notify_vcpu_id lchn) lport ;;; ret 0
        | ECS_UNBOUND _ => ret 0
        | _ => ret (- EINVAL)
        end.

(** [v] is [NULL] when there is no such virtual processor. *)
Definition guest_enabled_event (v : option vcpu) (virq : Z) : bool :=
  match v with Some v => negb (virq_port v virq =? 0) | None => false end.

Definition send_guest_vcpu_virq (d v virq : Z) : M eworld unit :=
  assert_ (virq <? NR_VIRQS) ;;;
  assert_ (negb (virq_is_global virq)) ;;;
  let! x := get_vcpu d v in
  let port := virq_port x virq in
  if port =? 0 then ret tt else evtchn_set_pending d v port.

Definition send_guest_global_virq (d virq : Z) : M eworld unit :=
  assert_ (virq <? NR_VIRQS) ;;;
  assert_ (virq_is_global virq) ;;;
  let! ds := gets doms in
  match ds !! d with
  | None => ret tt
  | Some x =>
      match vcpus x !! 0 with
      | None => ret tt
      | Some v =>
          let port := virq_port v virq in
          if port =? 0 then ret tt
          else let! c := get_chn d port in evtchn_set_pending d (notify_vcpu_id c) port
      end
  end.

Definition send_guest_pirq (d pirq : Z) : M eworld unit :=
  let! x := get_dom d in
  let port := pirq_to_evtchn x pirq in
  if port =? 0 then (if is_hvm x then ret tt else fail Abort)
  else let! c := get_chn d port in evtchn_set_pending d (notify_vcpu_id c) port.

Definition send_global_virq (virq : Z) : M eworld unit :=
  assert_ (virq <? NR_VIRQS) ;;;
  assert_ (virq_is_global virq) ;;;
  let! h := gets global_virq_handlers in
  send_guest_global_virq (default 0 (h !! virq)) virq.

(** ** Handlers of the global interrupts *)

(** [live] is the result of [get_domain]. *)
Definition set_global_virq_handler (live : bool) (d virq : Z) : M eworld Z :=
  if NR_VIRQS <=? virq then ret (- EINVAL)
  else if negb (virq_is_global virq) then ret (- EINVAL)
  else
    let! h := gets global_virq_handlers in
    if bool_decide (h !! virq = Some d) then ret 0
    else if negb live then ret (- EINVAL)
    else
      request (GetDomain d) ;;;
      modify (set_handlers (<[virq := d]> h)) ;;;
      match h !! virq with Some old => request (PutDomain old) | None => ret tt end ;;;
      ret 0.

Definition clear_global_virq_handlers (d : Z) : M eworld unit :=
  let! h := gets global_virq_handlers in
  modify (set_handlers (filter (fun p : Z * Z => p.2 <> d) h)) ;;;
  for_each (map fst (map_to_list (filter (fun p : Z * Z => p.2 = d) h))) (fun _ => request (PutDomain d)).

(** ** Queries and changes *)

Inductive evtchn_stat : Type :=
| EVTCHNSTAT_closed | EVTCHNSTAT_unbound (dom : Z) | EVTCHNSTAT_interdomain (dom port : Z)
| EVTCHNSTAT_pirq (pirq : Z) | EVTCHNSTAT_virq (virq : Z) | EVTCHNSTAT_ipi.

Definition stat_of (s : ecs) : evtchn_stat :=
  match s with
  | ECS_FREE | ECS_RESERVED => EVTCHNSTAT_closed
  | ECS_UNBOUND d => EVTCHNSTAT_unbound d
  | ECS_INTERDOMAIN d p => EVTCHNSTAT_interdomain d p
  | ECS_PIRQ irq _ _ => EVTCHNSTAT_pirq irq
  | ECS_VIRQ virq => EVTCHNSTAT_virq virq
  | ECS_IPI => EVTCHNSTAT_ipi
  end.

(** The error number, and the status with the virtual processor notified. *)
Definition evtchn_status (cur dom port : Z) : M eworld (Z * option (evtchn_stat * Z)) :=
  let! r := rcu_lock_target cur dom in
  let '(rc, d) := r in
  if negb (rc =? 0) then ret (rc, None)
  else
    let! x := get_dom d in
    if negb (port_is_valid x port) then ret (- EINVAL, None)
    else
      let! c := get_chn d port in
      let rc := xsm_status d port in
      if negb (rc =? 0) then ret (rc, None) else ret (0, Some (stat_of (state c), notify_vcpu_id c)).

Definition evtchn_bind_vcpu (cur port v : Z) : M eworld Z :=
  let! x := get_dom cur in
  if negb (vcpu_exists x v) then ret (- ENOENT)
  else if negb (port_is_valid x port) then ret (- EINVAL)
  else
    let! c := get_chn cur port in
    if consumer_is_xen c then ret (- EINVAL)
    else
      match state c with
      | ECS_VIRQ virq => if virq_is_global virq then mod_chn cur port (set_notify v) ;;; ret 0 else ret (- EINVAL)
      | ECS_UNBOUND _ | ECS_INTERDOMAIN _ _ => mod_chn cur port (set_notify v) ;;; ret 0
      | ECS_PIRQ irq _ _ =>
          if notify_vcpu_id c =? v then ret 0
          else
            unlink_pirq_port cur port (notify_vcpu_id c) ;;;
            mod_chn cur port (set_notify v) ;;;
            request (PirqAffinity cur irq v) ;;;
            link_pirq_port cur port v ;;;
            ret 0
      | _ => ret (- EINVAL)
      end.

Definition evtchn_unmask (cur port : Z) : M eworld Z :=
  let! x := get_dom cur in
  if negb (port_is_valid x port) then ret (- EINVAL)
  else
    let! c := get_chn cur port in
    mod_dom cur (fun x => set_mask (evtchn_mask x ∖ {[port]}) x) ;;;
    when (bool_decide (port ∈ evtchn_mask x) && bool_decide (port ∈ evtchn_pending x))
      (let! old := test_and_set_sel cur (notify_vcpu_id c) (port / word x) in
       when (negb old) (vcpu_mark_events_pending cur (notify_vcpu_id c))) ;;;
    ret 0.

(** Closes every port up to the first one without a bucket. *)
Fixpoint close_all (fuel : nat) (clear : bool) (d port : Z) : M eworld unit :=
  match fuel with
  | O => fail OutOfFuel
  | S fuel =>
      let! x := get_dom d in
      if negb (port_is_valid x port) then ret tt
      else
        when clear (mod_chn d port (set_consumer 0)) ;;;
        let! _ := __evtchn_close d port in
        close_all fuel clear d (port + 1)
  end.

Definition evtchn_reset (cur dom : Z) : M eworld Z :=
  let! r := rcu_lock_target cur dom in
  let '(rc, d) := r in
  if negb (rc =? 0) then ret rc
  else
    let rc := xsm_reset cur d in
    if negb (rc =? 0) then ret rc
    else
      let! x := get_dom d in
      close_all (S (Z.to_nat (MAX_EVTCHNS x))) false d 0 ;;;
      ret 0.

(** ** The hypercall *)

Inductive evtchn_op : Type :=
| EVTCHNOP_alloc_unbound (dom remote_dom : Z)
| EVTCHNOP_bind_interdomain (remote_dom remote_port : Z)
| EVTCHNOP_bind_virq (virq vcpu : Z)
| EVTCHNOP_bind_ipi (vcpu : Z)
| EVTCHNOP_bind_pirq (pirq : Z)
| EVTCHNOP_close (port : Z)
| EVTCHNOP_send (port : Z)
| EVTCHNOP_status (dom port : Z)
| EVTCHNOP_bind_vcpu (port vcpu : Z)
| EVTCHNOP_unmask (port : Z)
| EVTCHNOP_reset (dom : Z)
| EVTCHNOP_other.

(** What is copied back to the guest. *)
Inductive evtchn_out : Type := OutNone | OutPort (port : Z) | OutStatus (s : evtchn_stat) (vcpu : Z).

(** The calls that return a port copy it back when they succeed. *)
Definition with_port (copy_out : bool) (m : M eworld (Z * Z)) : M eworld (Z * evtchn_out) :=
  let! r := m in
  let '(rc, port) := r in
  if negb (rc =? 0) then ret (rc, OutNone)
  else if copy_out then ret (0, OutPort port) else ret (- EFAULT, OutNone).

Definition with_rc (m : M eworld Z) : M eworld (Z * evtchn_out) := let! rc := m in ret (rc, OutNone).

(** [copy_in], [copy_out]: whether the memory of the guest can be accessed. *)
Definition do_event_channel_op (copy_in copy_out : bool) (cur : Z) (op : evtchn_op) : M eworld (Z * evtchn_out) :=
  match op with
  | EVTCHNOP_other => ret (- ENOSYS, OutNone)
  | _ =>
      if negb copy_in then ret (- EFAULT, OutNone)
      else
        match op with
        | EVTCHNOP_alloc_unbound dom rdom => with_port copy_out (evtchn_alloc_unbound cur dom rdom)
        | EVTCHNOP_bind_interdomain rdom rport => with_port copy_out (evtchn_bind_interdomain cur rdom rport)
        | EVTCHNOP_bind_virq virq v => with_port copy_out (evtchn_bind_virq cur virq v)
        | EVTCHNOP_bind_ipi v => with_port copy_out (evtchn_bind_ipi cur v)
        | EVTCHNOP_bind_pirq pirq => with_port copy_out (evtchn_bind_pirq cur pirq)
        | EVTCHNOP_close port => with_rc (__evtchn_close cur port)
        | EVTCHNOP_send port => with_rc (evtchn_send cur port)
        | EVTCHNOP_status dom port =>
            let! r := evtchn_status cur dom port in
            match r with
            | (rc, None) => ret (rc, OutNone)
            | (_, Some (s, v)) => if copy_out then ret (0, OutStatus s v) else ret (- EFAULT, OutNone)
            end
        | EVTCHNOP_bind_vcpu port v => with_rc (evtchn_bind_vcpu cur port v)
        | EVTCHNOP_unmask port => with_rc (evtchn_unmask cur port)
        | EVTCHNOP_reset dom => with_rc (evtchn_reset cur dom)
        | EVTCHNOP_other => ret (- ENOSYS, OutNone)
        end
  end.

(** ** Channels of the hypervisor *)

Definition alloc_unbound_xen_event_channel (d v remote_domid fn : Z) : M eworld Z :=
  let! port := get_free_port d in
  if port <? 0 then ret port
  else
    let! i := get_xen_consumer fn in
    mod_chn d port (fun _ => Evtchn (ECS_UNBOUND (if xsm_unbound d port remote_domid =? 0 then remote_domid else DOMID_INVALID)) i v) ;;;
    ret port.

Definition free_xen_event_channel (d port : Z) : M eworld unit :=
  let! x := get_dom d in
  if is_dying x then ret tt
  else
    (if port_is_valid x port then ret tt else fail Abort) ;;;
    let! c := get_chn d port in
    (if consumer_is_xen c then ret tt else fail Abort) ;;;
    mod_chn d port (set_consumer 0) ;;;
    let! _ := __evtchn_close d port in
    ret tt.

Definition notify_via_xen_event_channel (d lport : Z) : M eworld unit :=
  let! x := get_dom d in
  if is_dying x then ret tt
  else
    assert_ (port_is_valid x lport) ;;;
    let! lchn := get_chn d lport in
    assert_ (consumer_is_xen lchn) ;;;
    match state lchn with
    | ECS_INTERDOMAIN rd rport =>
        let! rchn := get_chn rd rport in
        evtchn_set_pending rd (notify_vcpu_id rchn) rport
    | _ => ret tt
    end.

(** ** Life cycle *)

(** [poll_mask_ok]: the memory for the mask of a domain with many virtual processors. *)
Definition evtchn_init (poll_mask_ok : bool) (d : Z) : M eworld Z :=
  let! port := get_free_port d in
  if negb (port =? 0) then ret (- EINVAL)
  else
    mod_chn d 0 (set_state ECS_RESERVED) ;;;
    if negb poll_mask_ok then ret (- ENOMEM)
    else mod_dom d (set_poll_mask ∅) ;;; ret 0.

Definition evtchn_destroy (d : Z) : M eworld unit :=
  let! x := get_dom d in
  (if is_dying x then ret tt else fail Abort) ;;;
  close_all (S (Z.to_nat (MAX_EVTCHNS x))) true d 0 ;;;
  mod_dom d (set_buckets ∅) ;;;
  clear_global_virq_handlers d.

(** Follows the list of the interrupts of a virtual processor that has moved. *)
Fixpoint move_pirqs_from (fuel : nat) (d v port : Z) : M eworld unit :=
  match fuel with
  | O => fail OutOfFuel
  | S fuel =>
      if port =? 0 then ret tt
      else
        let! c := get_chn d port in
        match state c with
        | ECS_PIRQ irq next _ => request (PirqAffinity d irq v) ;;; move_pirqs_from fuel d v next
        | _ => fail Abort
        end
  end.

Definition evtchn_move_pirqs (d v : Z) : M eworld unit :=
  let! x := get_vcpu d v in
  let! y := get_dom d in
  move_pirqs_from (S (Z.to_nat (MAX_EVTCHNS y))) d v (pirq_evtchn_head x).
End Ops.
