(* ===== verification/EvtchnFacts.v ===== *)
(** * Event channels: the invariant

    What holds of the ports of the domains between two operations, and how the elementary
    changes keep it. *)

From S2P Require Import Prelude.
From S2P Require Import Xen.
From S2P Require Import Evtchn.

(** ** Ports *)

Definition chn_at (x : domain) (p : Z) : option evtchn :=
  if bool_decide (0 <= p < MAX_EVTCHNS x) then
    match evtchn_from_port x p with Ok c => Some c | Err _ => None end
  else None.

(** The buckets are the first [n] of the array, each of full size. *)
Record ports_ok (x : domain) : Prop := PortsOk {
  po_word : word x = 32 \/ word x = 64;
  po_buckets : exists n, 0 <= n <= MAX_EVTCHNS x / 128 /\
    (forall i, (exists l, buckets x !! i = Some (Live l) /\ length l = 128%nat) <-> 0 <= i < n) /\
    (forall i, is_Some (buckets x !! i) -> 0 <= i < n)
}.

Lemma max_evtchns x : ports_ok x -> MAX_EVTCHNS x = 1024 \/ MAX_EVTCHNS x = 4096.
Proof. intros [Hw _]. unfold MAX_EVTCHNS. destruct Hw as [-> | ->]; lia. Qed.

Lemma port_index p : 0 <= p -> Z.land p 127 = p mod 128.
Proof. intros _. by apply (Z.land_ones p 7). Qed.

Lemma port_bucket x p : ports_ok x -> port_is_valid x p = true -> exists l c,
  buckets x !! (p / 128) = Some (Live l) /\ length l = 128%nat /\ l !! Z.to_nat (Z.land p 127) = Some c /\ chn_at x p = Some c /\ 0 <= p < MAX_EVTCHNS x.
Proof.
  intros [Hw (n & Hn & Hb & Hb')] Hv. unfold port_is_valid in Hv. apply andb_prop in Hv as [Hv Hs]. apply andb_prop in Hv as [H1 H2].
  apply Z.leb_le in H1. apply Z.ltb_lt in H2. apply bool_decide_eq_true in Hs. unfold EVTCHNS_PER_BUCKET in *.
  destruct (proj2 (Hb _) (Hb' _ Hs)) as (l & Hl & Hlen). rewrite port_index by done.
  assert (Z.to_nat (p mod 128) < length l)%nat as Hlt by (rewrite Hlen; pose proof (Z.mod_pos_bound p 128); lia).
  destruct (lookup_lt_is_Some_2 l _ Hlt) as [c Hc]. exists l, c. split_and!; try done.
  unfold chn_at, evtchn_from_port, EVTCHNS_PER_BUCKET. rewrite bool_decide_eq_true_2, Hl, port_index, Hc by done. done.
Qed.

Lemma chn_at_valid x p c : chn_at x p = Some c -> port_is_valid x p = true /\ evtchn_from_port x p = Ok c.
Proof.
  unfold chn_at. case_bool_decide as Hp; [|done]. destruct (evtchn_from_port x p) as [c'|] eqn:E; [|done]. intros [= ->]. split; [|done].
  unfold port_is_valid. unfold evtchn_from_port in E. destruct Hp as [H1 H2].
  apply andb_true_intro. split; [apply andb_true_intro; split; [by apply Z.leb_le|by apply Z.ltb_lt]|].
  apply bool_decide_eq_true. destruct (buckets x !! (p / EVTCHNS_PER_BUCKET)); [by eexists|done].
Qed.

Lemma valid_chn_at x p : ports_ok x -> port_is_valid x p = true <-> is_Some (chn_at x p).
Proof.
  intros Hx. split.
  - intros Hv. destruct (port_bucket x p Hx Hv) as (l & c & _ & _ & _ & Hc & _). by exists c.
  - intros [c Hc]. by apply (chn_at_valid x p c).
Qed.

Lemma chn_at_range x p c : chn_at x p = Some c -> 0 <= p < MAX_EVTCHNS x.
Proof. unfold chn_at. by case_bool_decide. Qed.

(** Only the buckets and the word size matter. *)
Lemma chn_at_ext x x' p : buckets x' = buckets x -> word x' = word x -> chn_at x' p = chn_at x p.
Proof. intros E1 E2. unfold chn_at, evtchn_from_port, MAX_EVTCHNS. by rewrite E1, E2. Qed.

Lemma ports_ok_ext x x' : buckets x' = buckets x -> word x' = word x -> ports_ok x -> ports_ok x'.
Proof. intros E1 E2 [H1 H2]. split; unfold MAX_EVTCHNS; by rewrite ?E1, ?E2. Qed.

(** ** Writing a port *)

Lemma put_chn_buckets p c x l : buckets x !! (p / 128) = Some (Live l) ->
  put_chn p c x = set_buckets (<[p / 128 := Live (<[Z.to_nat (Z.land p 127) := c]> l)]> (buckets x)) x.
Proof. intros Hl. unfold put_chn, EVTCHNS_PER_BUCKET. by rewrite Hl. Qed.

Lemma put_chn_at x p c q :
  ports_ok x -> port_is_valid x p = true -> chn_at (put_chn p c x) q = if decide (q = p) then Some c else chn_at x q.
Proof.
  intros Hx Hv. destruct (port_bucket x p Hx Hv) as (l & c0 & Hl & Hlen & Hc0 & Hat & Hr). rewrite (put_chn_buckets p c x l Hl).
  unfold chn_at, evtchn_from_port, MAX_EVTCHNS in *. simpl. unfold EVTCHNS_PER_BUCKET.
  destruct (bool_decide (0 <= q < word x * word x)) eqn:Hq.
  2:{ apply bool_decide_eq_false in Hq. rewrite decide_False; [done|]. by intros ->. }
  apply bool_decide_eq_true in Hq. destruct (decide (q / 128 = p / 128)) as [E|E].
  - rewrite E, lookup_insert_eq. destruct (decide (q = p)) as [->|Hne].
    + rewrite list_lookup_insert_eq by (apply lookup_lt_Some in Hc0; done). done.
    + rewrite list_lookup_insert_ne, Hl; [done|]. rewrite !port_index by lia. pose proof (Z.div_mod p 128). pose proof (Z.div_mod q 128).
      pose proof (Z.mod_pos_bound p 128). pose proof (Z.mod_pos_bound q 128). lia.
  - rewrite lookup_insert_ne by congruence. rewrite decide_False; [done|]. by intros ->.
Qed.

Lemma put_chn_ok x p c : ports_ok x -> ports_ok (put_chn p c x).
Proof.
  intros [Hw (n & Hn & Hb & Hb')]. unfold put_chn, EVTCHNS_PER_BUCKET. destruct (buckets x !! (p / 128)) as [[l|]|] eqn:Hl; [|by split; [|exists n]|by split; [|exists n]].
  assert (0 <= p / 128 < n) as Hpn by (apply Hb'; by eexists). destruct (proj2 (Hb _) Hpn) as (l' & Hl' & Hlen). rewrite Hl in Hl'. injection Hl' as <-.
  split; [done|]. exists n. split; [done|]. simpl. split; intros i; destruct (decide (i = p / 128)) as [->|Hne].
  - rewrite lookup_insert_eq. split; [done|]. intros _. eexists. split; [done|]. by rewrite length_insert.
  - rewrite lookup_insert_ne by done. apply Hb.
  - done.
  - rewrite lookup_insert_ne by done. apply Hb'.
Qed.

(** The rest of the domain is untouched. *)
Lemma put_chn_rest x p c : exists m, put_chn p c x = set_buckets m x.
Proof. unfold put_chn. destruct (buckets x !! _) as [[l|]|]; [by eexists|exists (buckets x); by destruct x..]. Qed.

(** ** The invariant of a domain *)

(** The channels bound to interrupts, as the rest of the domain sees them. *)
Definition virq_view (x : domain) (p : Z) : option (Z * Z) :=
  match chn_at x p with
  | Some c => match state c with ECS_VIRQ i => Some (i, notify_vcpu_id c) | _ => None end
  | None => None
  end.

Definition pirq_view (x : domain) (p : Z) : option (Z * Z * Z * Z) :=
  match chn_at x p with
  | Some c => match state c with ECS_PIRQ irq next prev => Some (irq, next, prev, notify_vcpu_id c) | _ => None end
  | None => None
  end.

(** What a port looks like on its own. *)
Record chan_ok (nc : nat) (vs : gmap Z vcpu) (p : Z) (c : evtchn) : Prop := ChanOk {
  co_notify : is_Some (vs !! notify_vcpu_id c);
  co_free : state c = ECS_FREE -> notify_vcpu_id c = 0 /\ xen_consumer c = 0;
  co_consumer : 0 <= xen_consumer c <= Z.of_nat nc;
  co_zero : p = 0 -> state c = ECS_RESERVED
}.

Record base_ok (nc : nat) (x : domain) : Prop := BaseOk {
  bo_ports : ports_ok x;
  bo_vcpu0 : is_Some (vcpus x !! 0);
  bo_vcpus v : is_Some (vcpus x !! v) -> 0 <= v < max_vcpus x;
  bo_poll v : v ∈ poll_mask x -> is_Some (vcpus x !! v);
  bo_init : is_dying x = false -> is_Some (chn_at x 0);
  bo_chans p c : chn_at x p = Some c -> chan_ok nc (vcpus x) p c
}.

(** Virtual interrupts: the table of a virtual processor and the channels agree. *)
Record virq_ok (view : Z -> option (Z * Z)) (vs : gmap Z vcpu) : Prop := VirqOk {
  vo_port v y i : vs !! v = Some y -> virq_port y i <> 0 -> 0 <= i < NR_VIRQS /\
    exists n, view (virq_port y i) = Some (i, n) /\ (if virq_is_global i then v = 0 else n = v);
  vo_back p i n : view p = Some (i, n) -> p <> 0 /\ exists v y, vs !! v = Some y /\ virq_port y i = p
}.

(** A doubly linked list of ports. *)
Fixpoint dll (view : Z -> option (Z * Z * Z * Z)) (prev p : Z) (l : list Z) : Prop :=
  match l with
  | [] => p = 0
  | q :: l => p = q /\ q <> 0 /\ exists irq next n, view q = Some (irq, next, prev, n) /\ dll view q next l
  end.

(** Physical interrupts: the tree and the channels agree, and the channels that notify a
    virtual processor are its list. *)
Record pirq_ok (view : Z -> option (Z * Z * Z * Z)) (vs : gmap Z vcpu) (ps : gmap Z Z) : Prop := PirqOk {
  pk_port irq p : ps !! irq = Some p -> p <> 0 -> exists next prev n, view p = Some (irq, next, prev, n);
  pk_back p irq next prev n : view p = Some (irq, next, prev, n) -> p <> 0 /\ ps !! irq = Some p /\ is_Some (vs !! n);
  pk_list v y : vs !! v = Some y -> exists l, dll view 0 (pirq_evtchn_head y) l /\ NoDup l /\
    forall p, p ∈ l <-> exists irq next prev, view p = Some (irq, next, prev, v)
}.

Record dom_ok (nc : nat) (x : domain) : Prop := DomOk {
  do_base : base_ok nc x;
  do_virq : virq_ok (virq_view x) (vcpus x);
  do_pirq : pirq_ok (pirq_view x) (vcpus x) (pirqs x)
}.

(** ** The invariant of the system *)

Definition chan (w : eworld) (d p : Z) : option evtchn := doms w !! d ≫= fun x => chn_at x p.

(** The other end of a channel. *)
Definition link (w : eworld) (d p : Z) : option (Z * Z) :=
  match chan w d p with
  | Some c => match state c with ECS_INTERDOMAIN d2 p2 => Some (d2, p2) | _ => None end
  | None => None
  end.

Record winv (w : eworld) : Prop := WInv {
  wi_dom d x : doms w !! d = Some x -> dom_ok (length (xen_consumers w)) x;
  wi_link d p d2 p2 : link w d p = Some (d2, p2) -> link w d2 p2 = Some (d, p);
  wi_consumers : (length (xen_consumers w) <= NR_CONSUMERS)%nat
}.

(** ** Views that do not change *)

Lemma dll_ext view view' prev p l : (forall q, q ∈ l -> view' q = view q) -> dll view prev p l -> dll view' prev p l.
Proof.
  revert prev p. induction l as [|q l IH]; intros prev p Hv Hl; simpl in *; [done|].
  destruct Hl as (E & Hq & irq & next & n & Hview & Hl). split_and!; [done|done|]. exists irq, next, n. rewrite Hv by by left.
  split; [done|]. apply IH; [|done]. intros r Hr. apply Hv. by right.
Qed.

(** Two maps with the same images. *)
Lemma fmap_eq_lookup {A B} (f : A -> B) (m m' : gmap Z A) v y :
  f <$> m' = f <$> m -> m' !! v = Some y -> exists y0, m !! v = Some y0 /\ f y0 = f y.
Proof.
  intros E Hy. assert ((f <$> m) !! v = Some (f y)) as H by (by rewrite <- E, lookup_fmap, Hy). rewrite lookup_fmap in H.
  destruct (m !! v) as [y0|]; [|done]. exists y0. split; [done|]. simpl in H. congruence.
Qed.

Lemma virq_ok_ext view view' vs vs' :
  (forall p, view' p = view p) -> virq_to_evtchn <$> vs' = virq_to_evtchn <$> vs -> virq_ok view vs -> virq_ok view' vs'.
Proof.
  intros Hv Hm [H1 H2]. split.
  - intros v y i Hy Hi. destruct (fmap_eq_lookup _ _ _ _ _ Hm Hy) as (y0 & Hy0 & E). unfold virq_port in *. rewrite <- E in *. rewrite Hv. by apply H1.
  - intros p i n Hp. rewrite Hv in Hp. destruct (H2 p i n Hp) as (Hp0 & v & y & Hy & E). split; [done|]. exists v.
    destruct (fmap_eq_lookup _ _ _ _ _ (eq_sym Hm) Hy) as (y' & Hy' & E'). exists y'. split; [done|]. unfold virq_port in *. by rewrite E'.
Qed.

Lemma pirq_ok_ext view view' vs vs' ps :
  (forall p, view' p = view p) -> pirq_evtchn_head <$> vs' = pirq_evtchn_head <$> vs -> pirq_ok view vs ps -> pirq_ok view' vs' ps.
Proof.
  intros Hv Hm [H1 H2 H3]. split.
  - intros irq p Hp Hne. rewrite Hv. by apply H1.
  - intros p irq next prev n Hp. rewrite Hv in Hp. destruct (H2 _ _ _ _ _ Hp) as (A & B & [y Hy]). split_and!; [done|done|].
    destruct (fmap_eq_lookup _ _ _ _ _ (eq_sym Hm) Hy) as (y' & Hy' & _). by exists y'.
  - intros v y Hy. destruct (fmap_eq_lookup _ _ _ _ _ Hm Hy) as (y0 & Hy0 & <-). destruct (H3 v y0 Hy0) as (l & Hl & Hnd & Hin).
    exists l. split_and!; [by eapply dll_ext; [|done]|done|]. intros p. rewrite Hin. by setoid_rewrite Hv.
Qed.

(** ** Changes that only deliver events *)

Definition core_vcpu (y : vcpu) : gmap Z Z * Z := (virq_to_evtchn y, pirq_evtchn_head y).

(** All but the bits shared with the guest and who polls. *)
Record quiet (x x' : domain) : Prop := Quiet {
  q_dying : is_dying x' = is_dying x;
  q_hvm : is_hvm x' = is_hvm x;
  q_word : word x' = word x;
  q_max : max_vcpus x' = max_vcpus x;
  q_vcpus : core_vcpu <$> vcpus x' = core_vcpu <$> vcpus x;
  q_buckets : buckets x' = buckets x;
  q_poll : poll_mask x' ⊆ poll_mask x;
  q_nr : nr_pirqs x' = nr_pirqs x;
  q_pirqs : pirqs x' = pirqs x;
  q_caps : irq_caps x' = irq_caps x
}.

Lemma domain_quiet_refl x : quiet x x.
Proof. by split. Qed.

Lemma domain_quiet_trans x y z : quiet x y -> quiet y z -> quiet x z.
Proof. intros [] []. split; try congruence. set_solver. Qed.

Lemma quiet_chn_at x x' p : quiet x x' -> chn_at x' p = chn_at x p.
Proof. intros []. by apply chn_at_ext. Qed.

Lemma quiet_vcpu x x' v : quiet x x' -> is_Some (vcpus x' !! v) <-> is_Some (vcpus x !! v).
Proof.
  intros Hq. pose proof (q_vcpus _ _ Hq) as E.
  split; intros [y Hy]; [destruct (fmap_eq_lookup _ _ _ _ _ E Hy) as (y' & ? & _)|destruct (fmap_eq_lookup _ _ _ _ _ (eq_sym E) Hy) as (y' & ? & _)]; by exists y'.
Qed.

Lemma core_split (vs vs' : gmap Z vcpu) : core_vcpu <$> vs' = core_vcpu <$> vs ->
  virq_to_evtchn <$> vs' = virq_to_evtchn <$> vs /\ pirq_evtchn_head <$> vs' = pirq_evtchn_head <$> vs.
Proof.
  intros E. split.
  - assert (fst <$> (core_vcpu <$> vs') = fst <$> (core_vcpu <$> vs)) as H by by rewrite E. by rewrite <- !map_fmap_compose in H.
  - assert (snd <$> (core_vcpu <$> vs') = snd <$> (core_vcpu <$> vs)) as H by by rewrite E. by rewrite <- !map_fmap_compose in H.
Qed.

Lemma base_ok_quiet nc x x' : quiet x x' -> base_ok nc x -> base_ok nc x'.
Proof.
  intros Hq [H1 H2 H3 H4 H5 H6]. pose proof (fun p => quiet_chn_at x x' p Hq) as Hc. pose proof (fun v => quiet_vcpu x x' v Hq) as Hv. split.
  - eapply ports_ok_ext; [apply Hq|apply Hq|done].
  - by apply Hv.
  - intros v Hs. rewrite (q_max _ _ Hq). by apply H3, Hv.
  - intros v Hp. apply Hv, H4. by apply (q_poll _ _ Hq).
  - rewrite (q_dying _ _ Hq), Hc. apply H5.
  - intros p c Hp. rewrite Hc in Hp. destruct (H6 p c Hp) as [A B C D]. split; try done. by apply Hv.
Qed.

Lemma dom_ok_quiet nc x x' : quiet x x' -> dom_ok nc x -> dom_ok nc x'.
Proof.
  intros Hq [H1 H2 H3]. destruct (core_split _ _ (q_vcpus _ _ Hq)) as [E1 E2]. split.
  - by eapply base_ok_quiet.
  - eapply virq_ok_ext; [|done|done]. intros p. unfold virq_view. by rewrite (quiet_chn_at x x').
  - rewrite (q_pirqs _ _ Hq). eapply pirq_ok_ext; [|done|done]. intros p. unfold pirq_view. by rewrite (quiet_chn_at x x').
Qed.

(** The same for the system. *)
Record still (w w' : eworld) : Prop := Still {
  sl_doms d : option_Forall2 quiet (doms w !! d) (doms w' !! d);
  sl_consumers : xen_consumers w' = xen_consumers w;
  sl_handlers : global_virq_handlers w' = global_virq_handlers w
}.

Lemma still_refl w : still w w.
Proof. split; [|done|done]. intros d. destruct (doms w !! d); constructor. apply domain_quiet_refl. Qed.

Lemma still_trans w1 w2 w3 : still w1 w2 -> still w2 w3 -> still w1 w3.
Proof.
  intros [A1 A2 A3] [B1 B2 B3]. split; [|congruence|congruence]. intros d. specialize (A1 d). specialize (B1 d).
  destruct A1 as [x y Hxy|]; inversion B1; subst; constructor. by eapply domain_quiet_trans.
Qed.

Lemma still_lookup w w' d x : still w w' -> doms w !! d = Some x -> exists x', doms w' !! d = Some x' /\ quiet x x'.
Proof. intros Hs Hx. pose proof (sl_doms _ _ Hs d) as H. rewrite Hx in H. inversion H; subst. eauto. Qed.

Lemma still_chan w w' d p : still w w' -> chan w' d p = chan w d p.
Proof.
  intros Hs. pose proof (sl_doms _ _ Hs d) as H. unfold chan. inversion H as [x x' Hq E1 E2|E1 E2]; [|done]. simpl. by apply quiet_chn_at.
Qed.

Lemma winv_still w w' : still w w' -> winv w -> winv w'.
Proof.
  intros Hs [H1 H2 H3]. split.
  - intros d x' Hx'. pose proof (sl_doms _ _ Hs d) as H. rewrite Hx' in H. inversion H as [x y Hq E1 E2|]; subst. rewrite (sl_consumers _ _ Hs).
    eapply dom_ok_quiet; [done|]. by apply (H1 d).
  - unfold link. intros d p d2 p2. rewrite !(still_chan w w' _ _ Hs). apply H2.
  - by rewrite (sl_consumers _ _ Hs).
Qed.
