(* ===== verification/EvtchnOps.v ===== *)
(** * Event channels: the operations

    Every operation returns, keeps the invariant, and what it does to the channels. *)

From S2P Require Import Prelude.
From S2P Require Import Xen.
From S2P Require Import Evtchn.
From S2P Require Import EvtchnFacts.

(** ** Evaluating the accessors *)

Section Access.
Context (E : error -> Prop).

Lemma wp_get_dom d x w (Q : domain -> eworld -> Prop) : doms w !! d = Some x -> Q x w -> wp E (get_dom d) Q w.
Proof. intros Hx HQ. unfold wp, get_dom, of_option. by rewrite Hx. Qed.

Lemma wp_mod_dom d f x w (Q : unit -> eworld -> Prop) :
  doms w !! d = Some x -> Q tt (set_doms (<[d := f x]> (doms w)) w) -> wp E (mod_dom d f) Q w.
Proof. intros Hx HQ. unfold mod_dom. apply wp_bind. eapply wp_get_dom; [done|]. by apply wp_modify. Qed.

Lemma wp_get_vcpu d v x y w (Q : vcpu -> eworld -> Prop) :
  doms w !! d = Some x -> vcpus x !! v = Some y -> Q y w -> wp E (get_vcpu d v) Q w.
Proof. intros Hx Hy HQ. unfold get_vcpu. apply wp_bind. eapply wp_get_dom; [done|]. by eapply wp_of_option. Qed.

Lemma wp_mod_vcpu d v f x y w (Q : unit -> eworld -> Prop) :
  doms w !! d = Some x -> vcpus x !! v = Some y ->
  Q tt (set_doms (<[d := set_vcpus (<[v := f y]> (vcpus x)) x]> (doms w)) w) -> wp E (mod_vcpu d v f) Q w.
Proof. intros Hx Hy HQ. unfold mod_vcpu. apply wp_bind. eapply wp_get_vcpu; [done|done|]. by eapply wp_mod_dom. Qed.

Lemma wp_get_chn d p x c w (Q : evtchn -> eworld -> Prop) :
  doms w !! d = Some x -> chn_at x p = Some c -> Q c w -> wp E (get_chn d p) Q w.
Proof.
  intros Hx Hc HQ. unfold get_chn. apply wp_bind. eapply wp_get_dom; [done|]. destruct (chn_at_valid _ _ _ Hc) as [_ Hp]. unfold wp. by rewrite Hp.
Qed.

Lemma wp_mod_chn d p f x c w (Q : unit -> eworld -> Prop) :
  doms w !! d = Some x -> chn_at x p = Some c -> Q tt (set_doms (<[d := put_chn p (f c) x]> (doms w)) w) -> wp E (mod_chn d p f) Q w.
Proof. intros Hx Hc HQ. unfold mod_chn. apply wp_bind. eapply wp_get_chn; [done|done|]. by eapply wp_mod_dom. Qed.

Lemma wp_request e w (Q : unit -> eworld -> Prop) :
  Q tt (EWorld (doms w) (xen_consumers w) (global_virq_handlers w) (requests w ++ [e])) -> wp E (request e) Q w.
Proof. intros HQ. by apply wp_modify. Qed.
End Access.

(** ** Delivery *)

Lemma still_mod w d x x' rq :
  doms w !! d = Some x -> quiet x x' -> still w (EWorld (<[d := x']> (doms w)) (xen_consumers w) (global_virq_handlers w) rq).
Proof.
  intros Hx Hq. split; [|done|done]. intros d2. simpl. destruct (decide (d2 = d)) as [->|Hne].
  - rewrite lookup_insert_eq, Hx. by constructor.
  - rewrite lookup_insert_ne by done. destruct (doms w !! d2); constructor. apply domain_quiet_refl.
Qed.

Ltac still_step := unfold set_doms; cbn [doms xen_consumers global_virq_handlers requests]; eapply still_mod.

Lemma still_request w e : still w (EWorld (doms w) (xen_consumers w) (global_virq_handlers w) (requests w ++ [e])).
Proof. split; [|done|done]. intros d. simpl. destruct (doms w !! d); constructor. apply domain_quiet_refl. Qed.

Lemma quiet_mod_vcpu x v y y' : vcpus x !! v = Some y -> core_vcpu y' = core_vcpu y -> quiet x (set_vcpus (<[v := y']> (vcpus x)) x).
Proof. intros Hy E. split; try done. simpl. rewrite fmap_insert, E. apply insert_id. by rewrite lookup_fmap, Hy. Qed.

(** The bits through which the guest learns of events. *)
Definition vcpu_bits (y : vcpu) : gset Z * bool := (evtchn_pending_sel y, evtchn_upcall_pending y).
Definition bits (x : domain) : gset Z * gset Z * gmap Z (gset Z * bool) := (evtchn_pending x, evtchn_mask x, vcpu_bits <$> vcpus x).

(** The virtual processors below [n] that still poll do so for other ports. *)
Definition polls_other (port n : Z) (x : domain) : Prop :=
  forall u y, u < n -> u ∈ poll_mask x -> vcpus x !! u = Some y -> 0 < poll_evtchn y /\ poll_evtchn y <> port.

Lemma mark_spec d v x y w (Q : unit -> eworld -> Prop) :
  doms w !! d = Some x -> vcpus x !! v = Some y ->
  (forall w' y', still w w' -> doms w' !! d = Some (set_vcpus (<[v := y']> (vcpus x)) x) -> y' = set_upcall y ->
     Q tt w') ->
  wp no_error (vcpu_mark_events_pending d v) Q w.
Proof.
  intros Hx Hy HQ. unfold vcpu_mark_events_pending. wp_step. eapply wp_get_vcpu; [done|done|]. destruct (evtchn_upcall_pending y) eqn:Eu.
  - wp_step. eapply HQ; [apply still_refl| |done]. rewrite Hx. f_equal. assert (set_upcall y = y) as -> by (destruct y; simpl in *; by subst).
    rewrite insert_id by done. by destruct x.
  - wp_step. eapply wp_mod_vcpu; [done|done|]. apply wp_request.
    eapply HQ; [|simpl; apply lookup_insert_eq|done]. still_step; [done|]. by eapply quiet_mod_vcpu.
Qed.

Lemma wake_poller_spec d port u x w :
  doms w !! d = Some x -> (u ∈ poll_mask x -> is_Some (vcpus x !! u)) -> polls_other port u x ->
  wp no_error (wake_poller d port u) (fun _ w' => still w w' /\ exists x', doms w' !! d = Some x' /\ bits x' = bits x /\ polls_other port (u + 1) x') w.
Proof.
  intros Hx Hv Hp. unfold wake_poller. wp_step. eapply wp_get_dom; [done|].
  case_bool_decide as Hu; cbn [when].
  2:{ wp_step. split; [apply still_refl|]. exists x. split_and!; [done|done|]. intros u' y' Hlt Hin Hy'. apply (Hp u' y'); [|done|done]. assert (u' <> u) by congruence. lia. }
  destruct (Hv Hu) as [y Hy]. wp_step. eapply wp_get_vcpu; [done|done|]. destruct ((poll_evtchn y <=? 0) || (poll_evtchn y =? port)) eqn:Et; cbn [when].
  - wp_step. eapply wp_mod_dom; [done|]. wp_step. eapply wp_mod_vcpu; [simpl; apply lookup_insert_eq|exact Hy|]. apply wp_request.
    set (x1 := set_poll_mask _ x). set (x2 := set_vcpus _ x1). simpl. rewrite insert_insert_eq. split.
    + still_step; [done|].
      eapply domain_quiet_trans; [|by apply (quiet_mod_vcpu x1 u y)]. split; try done. simpl. set_solver.
    + exists x2. split_and!; [simpl; apply lookup_insert_eq| |].
      * unfold bits. simpl. f_equal. rewrite fmap_insert. apply insert_id. by rewrite lookup_fmap, Hy.
      * intros u' y' Hlt Hin Hy'. simpl in Hin, Hy'. assert (u' <> u) as Hne by set_solver. rewrite lookup_insert_ne in Hy' by done.
        apply (Hp u' y'); [lia|set_solver|done].
  - apply orb_false_iff in Et as [E1%Z.leb_gt E2%Z.eqb_neq]. wp_step. split; [apply still_refl|]. exists x. split_and!; [done|done|]. intros u' y' Hlt Hin Hy'.
    destruct (decide (u' = u)) as [->|Hne]; [|apply (Hp u' y'); [lia|done|done]]. assert (y' = y) as -> by congruence. lia.
Qed.

(** What the guest sees after an event on [port] for its virtual processor [v]. *)
Record delivered (d v port : Z) (w w' : eworld) : Prop := Delivered {
  dl_still : still w w';
  dl_pending : exists x', doms w' !! d = Some x' /\ port ∈ evtchn_pending x';
  (** An event that was neither pending nor masked raises an upcall, unless another port of
      the same word has done so already. *)
  dl_upcall x y : doms w !! d = Some x -> vcpus x !! v = Some y -> port ∉ evtchn_pending x -> port ∉ evtchn_mask x ->
    exists x' y', doms w' !! d = Some x' /\ vcpus x' !! v = Some y' /\ port / word x ∈ evtchn_pending_sel y'
      /\ (port / word x ∉ evtchn_pending_sel y -> evtchn_upcall_pending y' = true);
  (** Nobody polls for it any more. *)
  dl_poll x x' u y : doms w !! d = Some x -> port ∉ evtchn_pending x -> doms w' !! d = Some x' ->
    u ∈ poll_mask x' -> vcpus x' !! u = Some y -> 0 < poll_evtchn y /\ poll_evtchn y <> port
}.

Lemma wake_pollers_spec d port x w :
  doms w !! d = Some x -> (forall v, v ∈ poll_mask x -> is_Some (vcpus x !! v)) -> (forall v, is_Some (vcpus x !! v) -> 0 <= v < max_vcpus x) ->
  wp no_error (for_ (Z.to_nat (max_vcpus x)) 0 (wake_poller d port))
    (fun _ w' => still w w' /\ exists x', doms w' !! d = Some x' /\ bits x' = bits x /\ forall n, polls_other port n x') w.
Proof.
  intros Hx Hv Hmax. apply (wp_for _ (fun i w' => still w w' /\ exists x', doms w' !! d = Some x' /\ bits x' = bits x /\ polls_other port i x')).
  - split; [apply still_refl|]. exists x. split_and!; [done|done|]. intros u y Hlt Hin Hy. specialize (Hmax u ltac:(by eexists)). lia.
  - intros i w1 Hi (S1 & x1 & Hx1 & B1 & P1). destruct (still_lookup _ _ _ _ S1 Hx) as (x1' & Hx1' & Q1). assert (x1' = x1) as -> by congruence.
    eapply wp_mono; [apply (wake_poller_spec d port i x1 w1); [done| |done]|].
    + intros Hin. apply (quiet_vcpu _ _ _ Q1), Hv. by apply (q_poll _ _ Q1).
    + intros [] w2 (S2 & x2 & Hx2 & B2 & P2). split; [by eapply still_trans|]. exists x2. split_and!; [done|congruence|done].
  - intros w1 (S1 & x1 & Hx1 & B1 & P1). split; [done|]. exists x1. split_and!; [done|done|]. intros n u y _ Hin Hy. apply (P1 u y); [|done|done].
    destruct (still_lookup _ _ _ _ S1 Hx) as (x1' & Hx1' & Q1). assert (x1' = x1) as -> by congruence.
    assert (is_Some (vcpus x !! u)) as Hu by (apply (quiet_vcpu _ _ _ Q1); by eexists). specialize (Hmax u Hu). lia.
Qed.

Lemma set_pending_spec d v port nc x w :
  doms w !! d = Some x -> base_ok nc x -> is_Some (vcpus x !! v) ->
  wp no_error (evtchn_set_pending d v port) (fun _ w' => delivered d v port w w') w.
Proof.
  intros Hx Hb [y Hy]. unfold evtchn_set_pending. wp_step. eapply wp_get_dom; [done|]. case_bool_decide as Hin.
  { wp_step. split; [apply still_refl|by exists x| |]; intros; simplify_eq; done. }
  wp_step. eapply wp_mod_dom; [done|]. set (x1 := set_pending _ x). set (w1 := set_doms _ w).
  assert (still w w1) as S1 by (still_step; [done|by split]). assert (doms w1 !! d = Some x1) as Hx1 by (simpl; apply lookup_insert_eq).
  assert (forall k : M eworld unit, (forall w2 x2 y2, still w1 w2 -> doms w2 !! d = Some x2 -> x2 = set_vcpus (<[v := y2]> (vcpus x1)) x1 -> core_vcpu y2 = core_vcpu y ->
    (port ∉ evtchn_mask x -> port / word x ∈ evtchn_pending_sel y2 /\ (port / word x ∉ evtchn_pending_sel y -> evtchn_upcall_pending y2 = true)) ->
    wp no_error k (fun _ w' => delivered d v port w w') w2) ->
    wp no_error (when (negb (bool_decide (port ∈ evtchn_mask x))) (let! old := test_and_set_sel d v (port / word x) in when (negb old) (vcpu_mark_events_pending d v)) ;;; k)
      (fun _ w' => delivered d v port w w') w1) as Hsel.
  { intros k Hk. wp_step. case_bool_decide as Hm; cbn [negb when].
    { wp_step. eapply (Hk _ x1 y); [apply still_refl|done| |done|done]. rewrite (insert_id (vcpus x1)) by done. by destruct x1. }
    unfold test_and_set_sel. wp_step. wp_step. eapply wp_get_vcpu; [done|exact Hy|]. wp_step. eapply wp_mod_vcpu; [done|exact Hy|]. wp_step.
    set (y1 := set_sel _ y). set (x2 := set_vcpus _ x1). set (w2 := set_doms _ w1).
    assert (still w1 w2) as S2 by (still_step; [done|]; by eapply quiet_mod_vcpu). assert (doms w2 !! d = Some x2) as Hx2 by (simpl; apply lookup_insert_eq).
    assert (port / word x ∈ evtchn_pending_sel y1) as Hs1 by (simpl; set_solver). case_bool_decide as Hold; cbn [negb when].
    - wp_step. by eapply (Hk w2 x2 y1).
    - eapply (mark_spec d v x2 y1); [done|simpl; apply lookup_insert_eq|]. intros w3 y3 S3 Hx3 ->.
      eapply (Hk w3 _ (set_upcall y1)); [by eapply still_trans|done| |done|done]. unfold x2. simpl. by rewrite insert_insert_eq. }
  apply Hsel. intros w2 x2 y2 S2 Hx2 E2 Ec Hup. assert (still w w2) as S12 by by eapply still_trans.
  destruct (still_lookup _ _ _ _ S12 Hx) as (x2' & Hx2' & Q2). assert (x2' = x2) as -> by congruence.
  pose proof (base_ok_quiet _ _ _ Q2 Hb) as Hb2. rewrite <- (q_max _ _ Q2).
  eapply wp_mono; [apply (wake_pollers_spec d port x2); [done|apply Hb2|apply Hb2]|]. intros [] w3 (S3 & x3 & Hx3 & B3 & P3).
  unfold bits in B3. split; [by eapply still_trans| | |].
  - exists x3. split; [done|]. injection B3 as Ep _ _. rewrite Ep, E2. simpl. set_solver.
  - intros x' y' Hx' Hy' _ Hm. assert (x' = x) as -> by congruence. assert (y' = y) as -> by congruence. injection B3 as _ _ Ev. rewrite E2 in Ev. exists x3.
    assert (exists y3, vcpus x3 !! v = Some y3 /\ vcpu_bits y3 = vcpu_bits y2) as (y3 & Hy3 & Ey).
    { destruct (fmap_eq_lookup vcpu_bits (vcpus x3) (<[v := y2]> (vcpus x1)) v y2 (eq_sym Ev) ltac:(apply lookup_insert_eq)) as (y3 & ? & ?). by exists y3. }
    exists y3. destruct (Hup Hm) as [U1 U2]. unfold vcpu_bits in Ey. injection Ey as -> ->. done.
  - intros x' x'' u y' Hx' _ Hx'' Hin' Hy'. simplify_eq. by apply (P3 (u + 1) u y'); [lia|..].
Qed.

(** ** Free ports *)

(** The ports are those of the first [n] buckets. *)
Lemma ports_range x : ports_ok x -> exists n, 0 <= n <= MAX_EVTCHNS x / 128 /\
  (forall i, (exists l, buckets x !! i = Some (Live l) /\ length l = 128%nat) <-> 0 <= i < n) /\
  (forall i, is_Some (buckets x !! i) -> 0 <= i < n) /\ forall p, port_is_valid x p = true <-> 0 <= p < 128 * n.
Proof.
  intros Hx. pose proof (max_evtchns _ Hx) as Hm. destruct (po_buckets _ Hx) as (n & Hn & Hb & Hb'). exists n. split_and!; try done; [lia|lia|].
  intros p. unfold port_is_valid, EVTCHNS_PER_BUCKET. rewrite !andb_true_iff, Z.leb_le, Z.ltb_lt, bool_decide_eq_true. split.
  - intros [[H1 H2] Hs]. apply Hb' in Hs. pose proof (Z.div_mod p 128). pose proof (Z.mod_pos_bound p 128). lia.
  - intros Hp. assert (p < MAX_EVTCHNS x) by (destruct Hm as [E|E]; rewrite E in *; change (1024 / 128) with 8 in *; change (4096 / 128) with 32 in *; lia).
    split; [lia|]. assert (0 <= p / 128 < n) as Hi by (pose proof (Z.div_mod p 128); pose proof (Z.mod_pos_bound p 128); lia).
    apply Hb in Hi as (l & Hl & _). by exists (Live l).
Qed.

Lemma find_port_spec x fuel p :
  ports_ok x -> 0 <= p <= MAX_EVTCHNS x -> MAX_EVTCHNS x - p < Z.of_nat fuel ->
  (forall q, 0 <= q < p -> exists c, chn_at x q = Some c /\ state c <> ECS_FREE) ->
  exists r found, find_port fuel x p = Ok (r, found) /\ 0 <= r <= MAX_EVTCHNS x /\
    (forall q, 0 <= q < r -> exists c, chn_at x q = Some c /\ state c <> ECS_FREE) /\
    (if found : bool then exists c, chn_at x r = Some c /\ state c = ECS_FREE else port_is_valid x r = false).
Proof.
  intros Hx. revert p. induction fuel as [|fuel IH]; intros p Hp Hf Hlow; [lia|]. simpl. destruct (port_is_valid x p) eqn:Hv.
  - apply (valid_chn_at x p Hx) in Hv as [c Hc]. destruct (chn_at_valid _ _ _ Hc) as [_ ->]. pose proof (chn_at_range _ _ _ Hc) as Hr. case_bool_decide as Hs.
    + exists p, true. split_and!; try done; try lia. by exists c.
    + apply IH; [lia|lia|]. intros q Hq. destruct (decide (q = p)) as [->|Hne]; [by exists c|apply Hlow; lia].
  - exists p, false. split_and!; try done; lia.
Qed.

(** A new bucket may appear; its ports are free. *)
Record grown (x x' : domain) : Prop := Grown {
  gr_rest : exists m, x' = set_buckets m x;
  gr_ports : ports_ok x';
  gr_chans p : chn_at x' p = chn_at x p \/ (chn_at x p = None /\ chn_at x' p = Some free_evtchn /\ p <> 0)
}.

Lemma grown_refl x : ports_ok x -> grown x x.
Proof. intros Hx. split; [exists (buckets x); by destruct x|done|by left]. Qed.

Lemma grown_chan x x' p c : grown x x' -> chn_at x p = Some c -> chn_at x' p = Some c.
Proof. intros Hg Hc. destruct (gr_chans _ _ Hg p) as [-> |(E & _)]; [done|congruence]. Qed.

Lemma dom_ok_grown nc x x' : dom_ok nc x -> grown x x' -> dom_ok nc x'.
Proof.
  intros [[H1 H2 H3 H4 H5 H6] Hv Hp] [(m & ->) Hports Hc]. split.
  - split; try done.
    + intros Hd. destruct (Hc 0) as [->|(_ & _ & ?)]; [by apply H5|done].
    + intros p c Hpc. destruct (Hc p) as [E|(E & E' & Hne)]; [rewrite E in Hpc; by apply H6|].
      rewrite E' in Hpc. injection Hpc as <-. split; simpl; try done. lia.
  - eapply virq_ok_ext; [|done|done]. intros p. unfold virq_view. destruct (Hc p) as [->|(-> & -> & _)]; done.
  - eapply pirq_ok_ext; [|done|done]. intros p. unfold pirq_view. destruct (Hc p) as [->|(-> & -> & _)]; done.
Qed.

(** A full bucket after the others. *)
Lemma new_bucket x n :
  ports_ok x -> 0 < n -> 128 * n < MAX_EVTCHNS x ->
  (forall i, (exists l, buckets x !! i = Some (Live l) /\ length l = 128%nat) <-> 0 <= i < n) ->
  (forall i, is_Some (buckets x !! i) -> 0 <= i < n) -> 
  grown x (set_buckets (<[n := Live (replicate 128 free_evtchn)]> (buckets x)) x) /\
  chn_at (set_buckets (<[n := Live (replicate 128 free_evtchn)]> (buckets x)) x) (128 * n) = Some free_evtchn.
Proof.
  intros Hx Hn Hmax Hb Hb'. set (x' := set_buckets _ x).
  assert (forall p, 0 <= p < MAX_EVTCHNS x -> p / 128 = n -> chn_at x p = None /\ chn_at x' p = Some free_evtchn) as Hnew.
  { intros p Hr E. unfold chn_at, evtchn_from_port, EVTCHNS_PER_BUCKET. change (MAX_EVTCHNS x') with (MAX_EVTCHNS x). rewrite !bool_decide_eq_true_2 by done.
    unfold x'. cbn [buckets set_buckets]. rewrite E, lookup_insert_eq. split.
    - destruct (buckets x !! n) as [b|] eqn:Eb; [|done]. specialize (Hb' n ltac:(by exists b)). lia.
    - rewrite lookup_replicate_2; [done|]. rewrite port_index by lia. pose proof (Z.mod_pos_bound p 128). lia. }
  split; [split|].
  - by eexists.
  - split; [apply Hx|]. exists (n + 1). change (MAX_EVTCHNS x') with (MAX_EVTCHNS x). pose proof (max_evtchns _ Hx) as Hm. split_and!.
    + lia.
    + destruct Hm as [E|E]; rewrite E in *; change (1024 / 128) with 8 in *; change (4096 / 128) with 32 in *; lia.
    + intros i. simpl. destruct (decide (i = n)) as [->|Hne].
      * rewrite lookup_insert_eq. split; [lia|]. intros _. by eexists.
      * rewrite lookup_insert_ne, Hb by done. lia.
    + intros i. simpl. destruct (decide (i = n)) as [->|Hne]; [lia|]. rewrite lookup_insert_ne by done. intros Hs. apply Hb' in Hs. lia.
  - intros p. destruct (decide (0 <= p < MAX_EVTCHNS x)) as [Hr|Hr].
    + destruct (decide (p / 128 = n)) as [E|E].
      * right. destruct (Hnew p Hr E) as [A B]. split_and!; [done|done|]. intros ->. change (0 / 128) with 0 in E. lia.
      * left. unfold chn_at, evtchn_from_port, EVTCHNS_PER_BUCKET. change (MAX_EVTCHNS x') with (MAX_EVTCHNS x). simpl. by rewrite lookup_insert_ne.
    + left. unfold chn_at. change (MAX_EVTCHNS x') with (MAX_EVTCHNS x). by rewrite bool_decide_eq_false_2.
  - apply Hnew; [lia|]. rewrite Z.mul_comm. by apply Z.div_mul.
Qed.

Lemma free_chan nc vs p c : chan_ok nc vs p c -> state c = ECS_FREE -> c = free_evtchn.
Proof. intros H Hs. destruct (co_free _ _ _ _ H Hs) as [E1 E2]. destruct c. simpl in *. by subst. Qed.

(** A world in which one domain has changed. *)
Definition upd (d : Z) (x : domain) (w : eworld) : eworld := set_doms (<[d := x]> (doms w)) w.

Lemma upd_lookup d x w : doms (upd d x w) !! d = Some x.
Proof. apply lookup_insert_eq. Qed.

Lemma chan_upd d x w d2 p : chan (upd d x w) d2 p = if decide (d2 = d) then chn_at x p else chan w d2 p.
Proof. unfold chan. simpl. case_decide as E; [subst; by rewrite lookup_insert_eq|by rewrite lookup_insert_ne]. Qed.

Lemma chan_dom d x w p : doms w !! d = Some x -> chan w d p = chn_at x p.
Proof. intros Hx. unfold chan. by rewrite Hx. Qed.

(** The links of the domain stay. *)
Definition link_of (c : option evtchn) : option (Z * Z) :=
  match c with Some c => match state c with ECS_INTERDOMAIN d2 p2 => Some (d2, p2) | _ => None end | None => None end.

Lemma winv_upd w d x x' :
  winv w -> doms w !! d = Some x -> dom_ok (length (xen_consumers w)) x' ->
  (forall p, link_of (chn_at x' p) = link_of (chn_at x p)) -> winv (upd d x' w).
Proof.
  intros [H1 H2 H3] Hx Hok Hl. split; [| |done].
  - intros d2 x2. simpl. destruct (decide (d2 = d)) as [->|Hne]; [rewrite lookup_insert_eq; by intros [= <-]|rewrite lookup_insert_ne by done; apply H1].
  - assert (forall d2 p, link (upd d x' w) d2 p = link w d2 p) as E.
    { intros d2 p. unfold link. rewrite chan_upd. case_decide as Ed; [|done]. subst. rewrite (chan_dom d x w p Hx). apply Hl. }
    intros d1 p1 d2 p2. rewrite !E. apply H2.
Qed.

(** ** Changing one channel *)

Definition virq_of (c : evtchn) : option (Z * Z) := match state c with ECS_VIRQ i => Some (i, notify_vcpu_id c) | _ => None end.
Definition pirq_of (c : evtchn) : option (Z * Z * Z * Z) :=
  match state c with ECS_PIRQ irq next prev => Some (irq, next, prev, notify_vcpu_id c) | _ => None end.

(** The part of the invariant about each domain on its own. *)
Record local (w : eworld) : Prop := Local {
  lo_dom d x : doms w !! d = Some x -> dom_ok (length (xen_consumers w)) x;
  lo_consumers : (length (xen_consumers w) <= NR_CONSUMERS)%nat
}.

Definition linked (w : eworld) : Prop := forall d p d2 p2, link w d p = Some (d2, p2) -> link w d2 p2 = Some (d, p).

Lemma winv_local w : winv w <-> local w /\ linked w.
Proof. split; [intros [H1 H2 H3]; by split|intros [[H1 H3] H2]; by split]. Qed.

Definition set_chan (d p : Z) (c : evtchn) (w : eworld) : eworld :=
  match doms w !! d with Some x => upd d (put_chn p c x) w | None => w end.

Lemma chan_inv w d p c : chan w d p = Some c -> exists x, doms w !! d = Some x /\ chn_at x p = Some c.
Proof. unfold chan. destruct (doms w !! d) as [x|]; [|done]. intros Hc. by exists x. Qed.

Lemma local_ports w d x : local w -> doms w !! d = Some x -> ports_ok x.
Proof. intros Hl Hx. apply (do_base _ _ (lo_dom _ Hl d x Hx)). Qed.

Lemma local_chan w d p c : local w -> chan w d p = Some c ->
  exists x, doms w !! d = Some x /\ chn_at x p = Some c /\ chan_ok (length (xen_consumers w)) (vcpus x) p c /\ 0 <= p < MAX_EVTCHNS x.
Proof.
  intros Hl Hc. apply chan_inv in Hc as (x & Hx & Hc). exists x. split_and!; try done; [|by eapply chn_at_range..].
  apply (bo_chans _ _ (do_base _ _ (lo_dom _ Hl d x Hx)) p c Hc).
Qed.

Lemma chan_set_chan w d p c c' d2 p2 :
  local w -> chan w d p = Some c -> chan (set_chan d p c' w) d2 p2 = if decide (d2 = d /\ p2 = p) then Some c' else chan w d2 p2.
Proof.
  intros Hl Hc. apply chan_inv in Hc as (x & Hx & Hc). unfold set_chan. rewrite Hx, chan_upd. destruct (chn_at_valid _ _ _ Hc) as [Hv _].
  destruct (decide (d2 = d)) as [->|Hne]; [|rewrite decide_False by tauto; done].
  rewrite put_chn_at by (done || by eapply local_ports). rewrite (chan_dom d x w p2 Hx).
  destruct (decide (p2 = p)) as [->|Hp]; [by rewrite decide_True|by rewrite decide_False by tauto].
Qed.

Lemma base_ok_put nc x p c c' : base_ok nc x -> chn_at x p = Some c -> chan_ok nc (vcpus x) p c' -> base_ok nc (put_chn p c' x).
Proof.
  intros [H1 H2 H3 H4 H5 H6] Hc Hco. destruct (chn_at_valid _ _ _ Hc) as [Hval _]. pose proof (fun q => put_chn_at x p c' q H1 Hval) as Hat.
  pose proof (put_chn_ok x p c' H1) as Hpo. destruct (put_chn_rest x p c') as [m E]. rewrite E in *. split; try done.
  - intros Hd. rewrite Hat. case_decide; [by eexists|by apply H5].
  - intros q d. rewrite Hat. case_decide as Eq; [|apply H6]. intros [= <-]. by subst.
Qed.

Lemma put_views x p c c' : ports_ok x -> chn_at x p = Some c ->
  (forall q, virq_view (put_chn p c' x) q = if decide (q = p) then virq_of c' else virq_view x q) /\
  (forall q, pirq_view (put_chn p c' x) q = if decide (q = p) then pirq_of c' else pirq_view x q).
Proof.
  intros Hx Hc. destruct (chn_at_valid _ _ _ Hc) as [Hval _]. split; intros q; unfold virq_view, pirq_view; rewrite (put_chn_at x p c' q Hx Hval); by case_decide.
Qed.

Lemma dom_ok_put nc x p c c' :
  dom_ok nc x -> chn_at x p = Some c -> virq_of c' = virq_of c -> pirq_of c' = pirq_of c -> chan_ok nc (vcpus x) p c' -> dom_ok nc (put_chn p c' x).
Proof.
  intros [Hb Hv Hp] Hc Ev Ep Hco. destruct (put_views x p c c' (bo_ports _ _ Hb) Hc) as [V P]. pose proof (base_ok_put nc x p c c' Hb Hc Hco) as Hb'.
  destruct (put_chn_rest x p c') as [m E]. rewrite E in *. split; [done| |].
  - eapply virq_ok_ext; [|done|exact Hv]. intros q. rewrite V. case_decide as Eq; [|done]. subst. unfold virq_view. rewrite Hc. exact Ev.
  - eapply pirq_ok_ext; [|done|exact Hp]. intros q. rewrite P. case_decide as Eq; [|done]. subst. unfold pirq_view. rewrite Hc. exact Ep.
Qed.

Lemma local_set_chan w d p c c' :
  local w -> chan w d p = Some c -> virq_of c' = virq_of c -> pirq_of c' = pirq_of c ->
  (forall x, doms w !! d = Some x -> chan_ok (length (xen_consumers w)) (vcpus x) p c') -> local (set_chan d p c' w).
Proof.
  intros Hl Hc Ev Ep Hco. apply chan_inv in Hc as (x & Hx & Hc). unfold set_chan. rewrite Hx. split; [|apply Hl]. simpl. intros d2 x2.
  destruct (decide (d2 = d)) as [->|Hne]; [rewrite lookup_insert_eq; intros [= <-]|rewrite lookup_insert_ne by done; apply Hl].
  eapply dom_ok_put; try done; [by eapply lo_dom|by apply Hco].
Qed.

Lemma wp_get_chan d p c w (Q : evtchn -> eworld -> Prop) : chan w d p = Some c -> Q c w -> wp no_error (get_chn d p) Q w.
Proof. intros (x & Hx & Hc)%chan_inv HQ. by eapply wp_get_chn. Qed.

Lemma wp_mod_chan d p f c w (Q : unit -> eworld -> Prop) : chan w d p = Some c -> Q tt (set_chan d p (f c) w) -> wp no_error (mod_chn d p f) Q w.
Proof. intros (x & Hx & Hc)%chan_inv HQ. eapply wp_mod_chn; [done|done|]. unfold set_chan in HQ. rewrite Hx in HQ. done. Qed.

(** ** What other operations can do in between *)

Definition same_kind (s s' : ecs) : Prop :=
  match s, s' with
  | ECS_FREE, ECS_FREE | ECS_RESERVED, ECS_RESERVED | ECS_IPI, ECS_IPI => True
  | (ECS_UNBOUND r | ECS_INTERDOMAIN r _), (ECS_UNBOUND r' | ECS_INTERDOMAIN r' _) => r = r'
  | ECS_PIRQ i _ _, ECS_PIRQ i' _ _ | ECS_VIRQ i, ECS_VIRQ i' => i = i'
  | _, _ => False
  end.

(** A channel of a dying domain is only closed, or bound again by the same domain. *)
Record kin (c c' : evtchn) : Prop := Kin {
  ki_state : state c' = ECS_FREE \/ same_kind (state c) (state c');
  ki_consumer : xen_consumer c' = xen_consumer c \/ xen_consumer c' = 0
}.

Lemma same_kind_refl s : same_kind s s.
Proof. by destruct s. Qed.

Lemma kin_refl c : kin c c.
Proof. split; [right; apply same_kind_refl|by left]. Qed.

Lemma kin_trans c1 c2 c3 : kin c1 c2 -> kin c2 c3 -> kin c1 c3.
Proof.
  intros [[A1|A1] A2] [[B1|B1] B2]; split; try (left; done); try (destruct A2, B2; first [left; congruence|right; congruence]).
  - left. rewrite A1 in B1. by destruct (state c3).
  - right. destruct (state c1), (state c2), (state c3); simpl in *; try done; congruence.
Qed.

Definition dying (w : eworld) (d : Z) : Prop := exists x, doms w !! d = Some x /\ is_dying x = true.

(** Domains and ports stay. *)
Record stable (w w' : eworld) : Prop := Stable {
  sb_dom d x : doms w !! d = Some x -> exists x', doms w' !! d = Some x' /\ is_dying x' = is_dying x /\ word x' = word x;
  sb_chan d p c : chan w d p = Some c -> exists c', chan w' d p = Some c' /\ (dying w d -> kin c c')
}.

Lemma stable_refl w : stable w w.
Proof. split; [intros d x Hx; by exists x|]. intros d p c Hc. exists c. split; [done|]. intros _. apply kin_refl. Qed.

Lemma stable_dying w w' d : stable w w' -> dying w d -> dying w' d.
Proof. intros Hs (x & Hx & Hd). destruct (sb_dom _ _ Hs d x Hx) as (x' & Hx' & E & _). exists x'. split; [done|congruence]. Qed.

Lemma stable_trans w1 w2 w3 : stable w1 w2 -> stable w2 w3 -> stable w1 w3.
Proof.
  intros A B. split.
  - intros d x Hx. destruct (sb_dom _ _ A d x Hx) as (x2 & Hx2 & ? & ?). destruct (sb_dom _ _ B d x2 Hx2) as (x3 & Hx3 & ? & ?).
    exists x3. split_and!; [done|congruence|congruence].
  - intros d p c Hc. destruct (sb_chan _ _ A d p c Hc) as (c2 & Hc2 & K2). destruct (sb_chan _ _ B d p c2 Hc2) as (c3 & Hc3 & K3).
    exists c3. split; [done|]. intros Hd. eapply kin_trans; [by apply K2|]. apply K3. by eapply stable_dying.
Qed.

Lemma still_stable w w' : still w w' -> stable w w'.
Proof.
  intros Hs. split.
  - intros d x Hx. destruct (still_lookup _ _ _ _ Hs Hx) as (x' & Hx' & Q). exists x'. split_and!; [done|apply Q|apply Q].
  - intros d p c Hc. exists c. rewrite (still_chan w w' _ _ Hs). split; [done|]. intros _. apply kin_refl.
Qed.

Lemma set_chan_stable w d p c c' : local w -> chan w d p = Some c -> (dying w d -> kin c c') -> stable w (set_chan d p c' w).
Proof.
  intros Hl Hc Hk. split.
  - intros d2 x2 Hx2. destruct (chan_inv _ _ _ _ Hc) as (x & Hx & _). unfold set_chan. rewrite Hx. simpl. destruct (decide (d2 = d)) as [->|Hne].
    + assert (x2 = x) as -> by congruence. rewrite lookup_insert_eq. destruct (put_chn_rest x p c') as [m ->]. by eexists.
    + rewrite lookup_insert_ne by done. by exists x2.
  - intros d2 p2 c2 Hc2. rewrite (chan_set_chan w d p c c' d2 p2 Hl Hc). case_decide as E.
    + destruct E as [-> ->]. assert (c2 = c) as -> by congruence. by exists c'.
    + exists c2. split; [done|]. intros _. apply kin_refl.
Qed.

Lemma upd_stable w d x x' :
  doms w !! d = Some x -> is_dying x' = is_dying x -> word x' = word x ->
  (forall p c, chn_at x p = Some c -> exists c', chn_at x' p = Some c' /\ (is_dying x = true -> kin c c')) -> stable w (upd d x' w).
Proof.
  intros Hx Ed Ew Hc. split.
  - intros d2 x2 Hx2. simpl. destruct (decide (d2 = d)) as [->|Hne]; [|rewrite lookup_insert_ne by done; by exists x2].
    assert (x2 = x) as -> by congruence. rewrite lookup_insert_eq. by exists x'.
  - intros d2 p c Hc2. rewrite chan_upd. case_decide as E; [|exists c; split; [done|]; intros _; apply kin_refl]. subst. rewrite (chan_dom d x w p Hx) in Hc2.
    destruct (Hc p c Hc2) as (c' & Hc' & Hk). exists c'. split; [done|]. intros (x2 & Hx2 & Hd). apply Hk. congruence.
Qed.

Section Ops.
Context `{XenEnv}.
Hypothesis no_failure : alloc_security_fails = false.

Lemma get_free_port_spec d x w (Q : Z -> eworld -> Prop) :
  winv w -> doms w !! d = Some x ->
  (forall rc, rc < 0 -> Q rc w) ->
  (forall port x', 0 < port < MAX_EVTCHNS x -> is_dying x = false -> grown x x' -> chn_at x' port = Some free_evtchn -> winv (upd d x' w) -> Q port (upd d x' w)) ->
  wp no_error (get_free_port d) Q w.
Proof using no_failure.
  intros Hw Hx Herr HQ. pose proof (wi_dom _ Hw d x Hx) as Hok. pose proof (bo_ports _ _ (do_base _ _ Hok)) as Hp. unfold get_free_port.
  wp_step. eapply wp_get_dom; [done|]. destruct (is_dying x) eqn:Hd; [wp_step; apply Herr; unfold EINVAL; lia|].
  destruct (bo_init _ _ (do_base _ _ Hok) Hd) as [c0 Hc0]. pose proof (max_evtchns _ Hp) as Hm.
  destruct (find_port_spec x (S (Z.to_nat (MAX_EVTCHNS x))) 0 Hp ltac:(lia) ltac:(lia) ltac:(lia)) as (r & found & E & Hr & Hlow & Hf).
  assert (winv (upd d x w)) as Hw' by by eapply winv_upd.
  assert (forall port x', 0 < port < MAX_EVTCHNS x -> grown x x' -> chn_at x' port = Some free_evtchn -> Q port (upd d x' w)) as HQ'.
  { intros port x' Hport Hg Hc. apply HQ; [done|done|done|done|]. eapply winv_upd; [done|done|by eapply dom_ok_grown|].
    intros p. destruct (gr_chans _ _ Hg p) as [->|(-> & -> & _)]; done. }
  wp_step. unfold wp at 1. rewrite E. destruct found.
  - destruct Hf as (c & Hc & Hs). pose proof (bo_chans _ _ (do_base _ _ Hok) r c Hc) as Hco. rewrite (free_chan _ _ _ _ Hco Hs) in Hc.
    assert (r <> 0) as Hr0 by (intros ->; pose proof (co_zero _ _ _ _ Hco eq_refl); congruence). pose proof (chn_at_range _ _ _ Hc) as Hrange. wp_step.
    replace w with (upd d x w); [apply HQ'; [lia|by apply grown_refl|done]|].
    destruct w as [ds cs hs rs]. unfold upd, set_doms. simpl in *. by rewrite insert_id.
  - destruct (ports_range x Hp) as (n & Hn & Hb & Hb' & Hvalid). assert (r = 128 * n) as ->.
    { assert (~ 0 <= r < 128 * n) by (intros Hlt%Hvalid; congruence). destruct (decide (0 <= 128 * n < r)) as [Hlt|]; [|lia].
      destruct (Hlow (128 * n) Hlt) as (c & Hc & _). destruct (chn_at_valid _ _ _ Hc) as [Hv _]. apply Hvalid in Hv. lia. }
    destruct (Z.eqb_spec (128 * n) (MAX_EVTCHNS x)) as [Emax|Emax]; [wp_step; apply Herr; unfold ENOSPC; lia|].
    wp_step. wp_step. destruct (evtchn_alloc_ok w); cbn [negb]; [|wp_step; apply Herr; unfold ENOMEM; lia].
    assert (0 < n) as Hn0 by (destruct (chn_at_valid _ _ _ Hc0) as [Hv _]; apply Hvalid in Hv; lia).
    unfold EVTCHNS_PER_BUCKET. rewrite (Z.mul_comm 128 n), Z.div_mul by lia. rewrite (Z.mul_comm n 128).
    wp_step. eapply wp_mod_dom; [done|]. rewrite no_failure. wp_step.
    destruct (new_bucket x n Hp Hn0 ltac:(lia) Hb Hb') as [Hg Hc]. apply HQ'; [lia|done|done].
Qed.
End Ops.
