(* ===== verification/EvtchnBind.v ===== *)
(** * Event channels: binding, closing, delivering

    The operations on channels other than those of physical interrupts. *)

From S2P Require Import Prelude.
From S2P Require Import Xen.
From S2P Require Import Evtchn.
From S2P Require Import EvtchnFacts.
From S2P Require Import EvtchnOps.

(** ** Links *)

Lemma link_chan w d p : link w d p = link_of (chan w d p).
Proof. done. Qed.

Lemma linked_same w w' : (forall d p, link w' d p = link w d p) -> linked w -> linked w'.
Proof. intros E Hl d p d2 p2. rewrite !E. apply Hl. Qed.

Lemma linked_set_chan w d p c c' :
  local w -> chan w d p = Some c -> link_of (Some c') = link_of (Some c) -> linked w -> linked (set_chan d p c' w).
Proof.
  intros Hl Hc E. apply linked_same. intros d2 p2. rewrite !link_chan, (chan_set_chan w d p c c' d2 p2 Hl Hc). case_decide as Ed; [|done].
  destruct Ed as [-> ->]. by rewrite Hc.
Qed.

(** A change that concerns neither links nor interrupts. *)
Lemma winv_set_chan w d p c c' :
  winv w -> chan w d p = Some c -> virq_of c' = virq_of c -> pirq_of c' = pirq_of c -> link_of (Some c') = link_of (Some c) ->
  (forall x, doms w !! d = Some x -> chan_ok (length (xen_consumers w)) (vcpus x) p c') -> winv (set_chan d p c' w).
Proof.
  rewrite !winv_local. intros [Hl Hk] Hc Ev Ep El Hco. split; [by eapply local_set_chan|by eapply linked_set_chan].
Qed.

(** Two free ends are linked. *)
Lemma winv_bind w d p c d2 p2 c2 k k2 :
  winv w -> chan w d p = Some c -> chan w d2 p2 = Some c2 -> (d, p) <> (d2, p2) ->
  link_of (Some c) = None -> link_of (Some c2) = None ->
  state k = ECS_INTERDOMAIN d2 p2 -> state k2 = ECS_INTERDOMAIN d p ->
  virq_of c = None -> pirq_of c = None -> virq_of c2 = None -> pirq_of c2 = None ->
  (forall x, doms w !! d = Some x -> chan_ok (length (xen_consumers w)) (vcpus x) p k) ->
  (forall x, doms w !! d2 = Some x -> chan_ok (length (xen_consumers w)) (vcpus x) p2 k2) ->
  chan (set_chan d p k w) d2 p2 = Some c2 /\ winv (set_chan d2 p2 k2 (set_chan d p k w)) /\
  (forall e q, chan (set_chan d2 p2 k2 (set_chan d p k w)) e q =
     if decide (e = d2 /\ q = p2) then Some k2 else if decide (e = d /\ q = p) then Some k else chan w e q).
Proof.
  intros Hw Hc Hc2 Hne El El2 Ek Ek2 V P V2 P2 Hco Hco2. apply winv_local in Hw as [Hl Hk].
  assert (local (set_chan d p k w)) as Hl1.
  { eapply local_set_chan; try done; [rewrite V|rewrite P]; unfold virq_of, pirq_of; by rewrite Ek. }
  assert (chan (set_chan d p k w) d2 p2 = Some c2) as Hc2'.
  { rewrite (chan_set_chan w d p c k d2 p2 Hl Hc), decide_False; [done|]. intros [-> ->]. done. }
  assert (local (set_chan d2 p2 k2 (set_chan d p k w))) as Hl2.
  { eapply local_set_chan; try done; [rewrite V2; unfold virq_of; by rewrite Ek2|rewrite P2; unfold pirq_of; by rewrite Ek2|].
    intros x2 Hx2. destruct (chan_inv _ _ _ _ Hc) as (x & Hx & _). unfold set_chan in Hx2 |- *. rewrite Hx in *. simpl in Hx2. simpl.
    destruct (decide (d2 = d)) as [->|Hd]; [rewrite lookup_insert_eq in Hx2; injection Hx2 as <-|rewrite lookup_insert_ne in Hx2 by done; by apply Hco2].
    destruct (put_chn_rest x p k) as [m ->]. exact (Hco2 x Hx). }
  assert (forall e q, chan (set_chan d2 p2 k2 (set_chan d p k w)) e q =
     if decide (e = d2 /\ q = p2) then Some k2 else if decide (e = d /\ q = p) then Some k else chan w e q) as Hch.
  { intros e q. rewrite (chan_set_chan _ _ _ _ _ e q Hl1 Hc2'). case_decide; [done|]. apply (chan_set_chan w d p c k e q Hl Hc). }
  split_and!; [done| |done]. apply winv_local. split; [done|].
  assert (forall e q, link w e q <> Some (d, p)) as N1 by (intros e q H; apply Hk in H; rewrite link_chan, Hc, El in H; done).
  assert (forall e q, link w e q <> Some (d2, p2)) as N2 by (intros e q H; apply Hk in H; rewrite link_chan, Hc2, El2 in H; done).
  intros e q e2 q2. rewrite !link_chan, !Hch.
  destruct (decide (e = d2 /\ q = p2)) as [[-> ->]|E1].
  { unfold link_of at 1. rewrite Ek2. intros [= <- <-]. rewrite decide_False by (intros [-> ->]; done). rewrite decide_True by done. unfold link_of. by rewrite Ek. }
  destruct (decide (e = d /\ q = p)) as [[-> ->]|E2].
  { unfold link_of at 1. rewrite Ek. intros [= <- <-]. rewrite decide_True by done. unfold link_of. by rewrite Ek2. }
  rewrite <- !link_chan. intros Hlk. pose proof (Hk _ _ _ _ Hlk) as Hback.
  rewrite decide_False by (intros [-> ->]; by apply (N2 e q)). rewrite decide_False by (intros [-> ->]; by apply (N1 e q)). done.
Qed.

(** ** Virtual interrupts *)

Lemma virq_port_set y i p j : virq_port (set_virq i p y) j = if decide (j = i) then p else virq_port y j.
Proof. unfold virq_port. simpl. case_decide as E; [subst; by rewrite lookup_insert_eq|by rewrite lookup_insert_ne]. Qed.

Lemma virq_ok_bind view view' vs v y i p :
  virq_ok view vs -> vs !! v = Some y -> view p = None -> p <> 0 -> virq_port y i = 0 -> 0 <= i < NR_VIRQS -> (virq_is_global i = true -> v = 0) ->
  view' p = Some (i, v) -> (forall q, q <> p -> view' q = view q) -> virq_ok view' (<[v := set_virq i p y]> vs).
Proof.
  intros [H1 H2] Hy Hp Hp0 Hi Hr Hg Hvp Hvo. split.
  - intros v' y' j. destruct (decide (v' = v)) as [->|Hne].
    + rewrite lookup_insert_eq. intros [= <-]. rewrite virq_port_set. case_decide as Ej.
      * intros _. subst j. split; [done|]. exists v. split; [done|]. destruct (virq_is_global i); [by apply Hg|done].
      * intros Hj. destruct (H1 v y j Hy Hj) as (Hj' & n & Hn & Hv). split; [done|]. exists n. rewrite Hvo; [done|]. intros E. rewrite E in Hn. congruence.
    + rewrite lookup_insert_ne by done. intros Hy' Hj. destruct (H1 v' y' j Hy' Hj) as (Hj' & n & Hn & Hv). split; [done|]. exists n.
      rewrite Hvo; [done|]. intros E. rewrite E in Hn. congruence.
  - intros q j n. destruct (decide (q = p)) as [->|Hq].
    + rewrite Hvp. intros [= <- <-]. split; [done|]. exists v, (set_virq i p y). rewrite lookup_insert_eq. split; [done|]. by rewrite virq_port_set, decide_True.
    + rewrite Hvo by done. intros Hv. destruct (H2 q j n Hv) as (Hq0 & v' & y' & Hy' & E). split; [done|]. exists v'. destruct (decide (v' = v)) as [->|Hne].
      * assert (y' = y) as -> by congruence. exists (set_virq i p y). rewrite lookup_insert_eq, virq_port_set. split; [done|].
        rewrite decide_False; [done|]. intros ->. congruence.
      * exists y'. by rewrite lookup_insert_ne.
Qed.

Lemma virq_port_close p i y j : virq_port (close_virq p i y) j = if decide (j = i /\ virq_port y i = p) then 0 else virq_port y j.
Proof.
  unfold close_virq. destruct (Z.eqb_spec (virq_port y i) p) as [E|E].
  - rewrite virq_port_set. case_decide as Ej; [by rewrite decide_True|by rewrite decide_False by tauto].
  - by rewrite decide_False by tauto.
Qed.

Lemma virq_ok_close view view' vs i n p :
  virq_ok view vs -> view p = Some (i, n) -> view' p = None -> (forall q, q <> p -> view' q = view q) -> virq_ok view' (close_virq p i <$> vs).
Proof.
  intros [H1 H2] Hp Hp' Hvo. split.
  - intros v y' j Hy'. rewrite lookup_fmap in Hy'. destruct (vs !! v) as [y|] eqn:Hy; [|done]. injection Hy' as <-. rewrite virq_port_close.
    case_decide as Ec; [done|]. intros Hj. destruct (H1 v y j Hy Hj) as (Hr & m & Hm & Hv). split; [done|]. exists m. rewrite Hvo; [done|].
    intros E. apply Ec. rewrite E, Hp in Hm. injection Hm as -> ->. done.
  - intros q j m Hq. destruct (decide (q = p)) as [->|Hne]; [congruence|]. rewrite Hvo in Hq by done. destruct (H2 q j m Hq) as (Hq0 & v & y & Hy & E).
    split; [done|]. exists v, (close_virq p i y). rewrite lookup_fmap, Hy, virq_port_close. split; [done|]. rewrite decide_False; [done|]. intros [-> ?]. congruence.
Qed.

(** The list heads and the existence of the virtual processors do not change. *)
Lemma close_virq_head p i (vs : gmap Z vcpu) : pirq_evtchn_head <$> (close_virq p i <$> vs) = pirq_evtchn_head <$> vs.
Proof. rewrite <- map_fmap_compose. apply map_fmap_ext. intros v y _. simpl. unfold close_virq. by destruct (_ =? _). Qed.

Lemma close_virq_some p i (vs : gmap Z vcpu) v : is_Some ((close_virq p i <$> vs) !! v) <-> is_Some (vs !! v).
Proof. rewrite lookup_fmap. by rewrite fmap_is_Some. Qed.

Lemma set_virq_head i p (vs : gmap Z vcpu) v y : vs !! v = Some y -> pirq_evtchn_head <$> <[v := set_virq i p y]> vs = pirq_evtchn_head <$> vs.
Proof. intros Hy. rewrite fmap_insert. apply insert_id. by rewrite lookup_fmap, Hy. Qed.

(** The virtual processors of a domain change, but not which exist. *)
Lemma base_ok_vcpus nc x vs : base_ok nc x -> (forall v, is_Some (vs !! v) <-> is_Some (vcpus x !! v)) -> base_ok nc (set_vcpus vs x).
Proof.
  intros [H1 H2 H3 H4 H5 H6] Hv. split; simpl.
  - by apply (ports_ok_ext x).
  - by apply Hv.
  - intros v Hs. by apply H3, Hv.
  - intros v Hp. by apply Hv, H4.
  - exact H5.
  - intros p c Hc. destruct (H6 p c Hc) as [A B C D]. split; try done. by apply Hv.
Qed.

(** ** Binding *)

(** A free port of [d], after [w]. *)
Record fresh_port (d port : Z) (w w1 : eworld) : Prop := FreshPort {
  fp_inv : winv w1;
  fp_stable : stable w w1;
  fp_alive : ~ dying w1 d;
  fp_chan : chan w1 d port = Some free_evtchn;
  fp_port : 0 < port < 4096;
  fp_dom : exists x m, doms w !! d = Some x /\ w1 = upd d (set_buckets m x) w;
  fp_keep e q c : chan w e q = Some c -> chan w1 e q = Some c;
  fp_new e q c : chan w1 e q = Some c -> chan w e q = Some c \/ c = free_evtchn
}.

Section Ops.
Context `{XenEnv}.
Hypothesis no_failure : alloc_security_fails = false.

Lemma get_fresh_port d w (Q : Z -> eworld -> Prop) :
  winv w -> is_Some (doms w !! d) -> (forall rc, rc < 0 -> Q rc w) -> (forall port w1, fresh_port d port w w1 -> Q port w1) ->
  wp no_error (get_free_port d) Q w.
Proof using no_failure.
  intros Hw [x Hx] Herr HQ. eapply get_free_port_spec; [done|done|done|done|]. intros port x' Hport Hal Hg Hc Hw'. apply HQ.
  pose proof (gr_rest _ _ Hg) as [m Em]. pose proof (max_evtchns _ (bo_ports _ _ (do_base _ _ (wi_dom _ Hw d x Hx)))) as Hmax.
  assert (forall e q c, chan w e q = Some c -> chan (upd d x' w) e q = Some c) as Hkeep.
  { intros e q c He. rewrite chan_upd. case_decide as Ed; [|done]. subst e. rewrite (chan_dom d x w q Hx) in He. by eapply grown_chan. }
  split; try done.
  - split.
    + intros d2 x2 Hx2. simpl. destruct (decide (d2 = d)) as [->|Hne]; [|rewrite lookup_insert_ne by done; by exists x2].
      assert (x2 = x) as -> by congruence. rewrite lookup_insert_eq, Em. by eexists.
    + intros e q c He. exists c. split; [by apply Hkeep|]. intros _. apply kin_refl.
  - intros (x2 & Hx2 & Hd). rewrite upd_lookup in Hx2. injection Hx2 as <-. rewrite Em in Hd. simpl in Hd. congruence.
  - by rewrite chan_upd, decide_True.
  - lia.
  - exists x, m. by rewrite Em.
  - intros e q c. rewrite chan_upd. case_decide as Ed; [|by left]. subst e. rewrite (chan_dom d x w q Hx).
    destruct (gr_chans _ _ Hg q) as [->|(_ & -> & _)]; [by left|intros [= <-]; by right].
Qed.

Lemma fresh_vcpu d port w w1 x1 v x : fresh_port d port w w1 -> doms w1 !! d = Some x1 -> doms w !! d = Some x -> vcpus x1 !! v = vcpus x !! v.
Proof.
  intros F Hx1 Hx. destruct (fp_dom _ _ _ _ F) as (x0 & m & Hx0 & ->). rewrite upd_lookup in Hx1. injection Hx1 as <-.
  assert (x0 = x) as -> by congruence. done.
Qed.

(** A port that was free is given a state that is neither a link nor an interrupt. *)
Lemma fresh_plain d port w w1 c' :
  fresh_port d port w w1 -> virq_of c' = None -> pirq_of c' = None -> link_of (Some c') = None -> state c' <> ECS_FREE ->
  0 <= xen_consumer c' <= Z.of_nat (length (xen_consumers w1)) -> (forall x, doms w1 !! d = Some x -> is_Some (vcpus x !! notify_vcpu_id c')) ->
  winv (set_chan d port c' w1) /\ stable w (set_chan d port c' w1).
Proof.
  intros F V P L Hs Hcons Hv. pose proof (fp_inv _ _ _ _ F) as Hw1. pose proof (fp_chan _ _ _ _ F) as Hc. split.
  - eapply winv_set_chan; try done. intros x Hx. split; [by apply Hv|done|done|]. pose proof (fp_port _ _ _ _ F). lia.
  - eapply stable_trans; [apply F|]. eapply set_chan_stable; [by apply winv_local|done|]. intros Hd. by destruct (fp_alive _ _ _ _ F).
Qed.

Lemma vcpu0 w d x : winv w -> doms w !! d = Some x -> is_Some (vcpus x !! 0).
Proof. intros Hw Hx. apply (do_base _ _ (wi_dom _ Hw d x Hx)). Qed.

Definition safe {A} (m : M eworld A) (w : eworld) : Prop := wp no_error m (fun _ w' => winv w' /\ stable w w') w.

Lemma rcu_lock_spec cur dom w (Q : Z * Z -> eworld -> Prop) :
  is_Some (doms w !! cur) -> (forall rc, rc <> 0 -> Q (rc, 0) w) -> (forall d, is_Some (doms w !! d) -> Q (0, d) w) -> wp no_error (rcu_lock_target cur dom) Q w.
Proof.
  intros Hc Herr HQ. unfold rcu_lock_target. destruct (dom =? DOMID_SELF); [wp_step; by apply HQ|]. wp_step. wp_step.
  destruct (doms w !! dom) eqn:E; [|wp_step; apply Herr; done]. destruct (is_priv_for cur dom); wp_step; [apply HQ; by rewrite E|by apply Herr].
Qed.

Lemma alloc_unbound_safe cur dom rdom w : winv w -> is_Some (doms w !! cur) -> safe (evtchn_alloc_unbound cur dom rdom) w.
Proof using no_failure.
  intros Hw Hc. unfold evtchn_alloc_unbound, safe. wp_step. apply rcu_lock_spec; [done| |].
  { intros rc Hrc. destruct (Z.eqb_spec rc 0); [done|]. simpl. wp_step. split; [done|apply stable_refl]. }
  intros d Hd. simpl. wp_step. apply get_fresh_port; [done|done| |].
  { intros rc Hrc. destruct (Z.ltb_spec rc 0); [|lia]. wp_step. split; [done|apply stable_refl]. }
  intros port w1 F. destruct (Z.ltb_spec port 0); [pose proof (fp_port _ _ _ _ F); lia|].
  destruct (Z.eqb_spec (xsm_unbound d port rdom) 0); simpl; [|wp_step; split; [apply F|apply F]].
  wp_step. eapply wp_mod_chan; [apply F|]. wp_step. eapply fresh_plain; try done; simpl; [lia|]. intros x Hx. eapply vcpu0; [apply F|done].
Qed.

Lemma bind_ipi_safe cur v w : winv w -> is_Some (doms w !! cur) -> safe (evtchn_bind_ipi cur v) w.
Proof using no_failure.
  intros Hw [x Hx]. unfold evtchn_bind_ipi, safe. wp_step. eapply wp_get_dom; [done|].
  destruct (vcpu_exists x v) eqn:Hv; simpl; [|wp_step; split; [done|apply stable_refl]].
  wp_step. apply get_fresh_port; [done|by eexists| |].
  { intros rc Hrc. destruct (Z.ltb_spec rc 0); [|lia]. wp_step. split; [done|apply stable_refl]. }
  intros port w1 F. destruct (Z.ltb_spec port 0); [pose proof (fp_port _ _ _ _ F); lia|].
  wp_step. eapply wp_mod_chan; [apply F|]. wp_step. eapply fresh_plain; try done; simpl; [lia|]. intros x1 Hx1. rewrite (fresh_vcpu _ _ _ _ _ v _ F Hx1 Hx).
  unfold vcpu_exists in Hv. by apply andb_prop in Hv as [_ Hv%bool_decide_eq_true].
Qed.

(** The two ends of a new connection. *)
Definition connected (cur rd rport lport : Z) (w w' : eworld) : Prop :=
  exists c, chan w rd rport = Some c /\ state c = ECS_UNBOUND cur /\
    chan w' cur lport = Some (Evtchn (ECS_INTERDOMAIN rd rport) 0 0) /\ chan w' rd rport = Some (set_state (ECS_INTERDOMAIN cur lport) c).

Definition remote (cur remote_dom : Z) : Z := if remote_dom =? DOMID_SELF then cur else remote_dom.

Lemma bind_interdomain_spec cur rdom rport w : winv w -> is_Some (doms w !! cur) ->
  wp no_error (evtchn_bind_interdomain cur rdom rport) (fun r w' => winv w' /\ stable w w' /\ (r.1 = 0 -> connected cur (remote cur rdom) rport r.2 w w')) w.
Proof using no_failure.
  intros Hw Hc. unfold evtchn_bind_interdomain. cbv zeta. fold (remote cur rdom). generalize (remote cur rdom) as rd. intros rd.
  assert (forall rc w', winv w' -> stable w w' -> rc <> 0 -> winv w' /\ stable w w' /\ ((rc, 0).1 = 0 -> connected cur rd rport (rc, 0).2 w w')) as Herr by done.
  wp_step. wp_step. destruct (doms w !! rd) as [y|] eqn:Hrd; [|wp_step; by apply Herr; [|apply stable_refl|]].
  wp_step. apply get_fresh_port; [done|done| |].
  { intros rc Hrc. destruct (Z.ltb_spec rc 0); [|lia]. wp_step. apply Herr; [done|apply stable_refl|lia]. }
  intros lport w1 F. pose proof (fp_port _ _ _ _ F) as Hlp. destruct (Z.ltb_spec lport 0); [lia|]. pose proof (fp_inv _ _ _ _ F) as Hw1. pose proof (fp_chan _ _ _ _ F) as Hl.
  wp_step. eapply wp_get_chan; [done|]. destruct (sb_dom _ _ (fp_stable _ _ _ _ F) rd y Hrd) as (y1 & Hy1 & _). wp_step. eapply wp_get_dom; [done|].
  destruct (port_is_valid y1 rport) eqn:Hv; simpl; [|wp_step; by apply Herr; [apply F|apply F|]].
  pose proof (wi_dom _ Hw1 rd y1 Hy1) as Hok1. apply (valid_chn_at y1 rport (bo_ports _ _ (do_base _ _ Hok1))) in Hv as [rchn Hr].
  assert (chan w1 rd rport = Some rchn) as Hrc by by rewrite (chan_dom rd y1 w1 rport Hy1).
  wp_step. eapply wp_get_chan; [done|]. case_bool_decide as Hst; simpl; [|wp_step; by apply Herr; [apply F|apply F|]].
  destruct (Z.eqb_spec (xsm_interdomain cur lport rd rport) 0); simpl; [|wp_step; by apply Herr; [apply F|apply F|]].
  assert (u16 rport = rport) as Eru. { pose proof (chn_at_range _ _ _ Hr). pose proof (max_evtchns _ (bo_ports _ _ (do_base _ _ Hok1))). unfold u16. rewrite Z.mod_small; lia. }
  assert (u16 lport = lport) as Elu by (unfold u16; rewrite Z.mod_small; lia). rewrite Eru, Elu.
  set (k := set_state (ECS_INTERDOMAIN rd rport) free_evtchn). set (k2 := set_state (ECS_INTERDOMAIN cur lport) rchn).
  pose proof (bo_chans _ _ (do_base _ _ Hok1) rport rchn Hr) as Hcr.
  destruct (winv_bind w1 cur lport free_evtchn rd rport rchn k k2) as (H1 & H2 & H3); try done.
  - intros [= -> ->]. assert (rchn = free_evtchn) as -> by congruence. done.
  - unfold link_of. by rewrite Hst.
  - unfold virq_of. by rewrite Hst.
  - unfold pirq_of. by rewrite Hst.
  - intros x1 Hx1. split; simpl; [by eapply vcpu0|done|lia|lia].
  - intros x1 Hx1. assert (x1 = y1) as -> by congruence. destruct Hcr as [A B C D]. split; simpl; [done|done|done|]. intros E0. specialize (D E0). congruence.
  - wp_step. eapply wp_mod_chan; [done|]. wp_step. eapply wp_mod_chan; [done|]. fold k k2. set (w2 := set_chan rd rport k2 _) in *.
    assert (stable w1 w2) as S2.
    { eapply stable_trans; [eapply (set_chan_stable w1 cur lport); [by apply winv_local|done|]; intros Hd; by destruct (fp_alive _ _ _ _ F)|].
      assert (local (set_chan cur lport k w1)) as Hl1.
      { eapply local_set_chan; try done; [by apply winv_local|]. intros x1 Hx1. split; simpl; [by eapply (vcpu0 w1)|done|lia|lia]. }
      eapply set_chan_stable; [done|done|]. intros _. split; [right|by left]. unfold k2. rewrite Hst. simpl. done. }
    destruct Hc as [x Hx]. destruct (sb_dom _ _ (stable_trans _ _ _ (fp_stable _ _ _ _ F) S2) cur x Hx) as (x2 & Hx2 & _).
    wp_step. eapply wp_mono; [eapply (set_pending_spec cur _ lport _ x2 w2); [done|apply (wi_dom _ H2 cur x2 Hx2)|by eapply vcpu0]|].
    intros [] w3 D. wp_step. split_and!; [eapply winv_still; [apply D|done]| |].
    + eapply stable_trans; [apply F|]. eapply stable_trans; [exact S2|]. apply still_stable, D.
    + intros _. exists rchn. destruct (fp_new _ _ _ _ F rd rport rchn Hrc) as [Hrw| ->]; [|done]. rewrite !(still_chan w2 w3 _ _ (dl_still _ _ _ _ _ D)), !H3.
      rewrite (decide_True (P := rd = rd /\ rport = rport)) by done. rewrite decide_False; [by rewrite decide_True|].
      intros [E1 E2]. simpl in E2. rewrite E1, E2, Hrc in Hl. injection Hl as ->. done.
Qed.

Lemma upd_upd d x y w : upd d x (upd d y w) = upd d x w.
Proof. unfold upd, set_doms. simpl. by rewrite insert_insert_eq. Qed.

Lemma bind_virq_safe cur virq v w : winv w -> is_Some (doms w !! cur) -> safe (evtchn_bind_virq cur virq v) w.
Proof using no_failure.
  intros Hw [x Hx]. unfold evtchn_bind_virq, safe. destruct ((virq <? 0) || (NR_VIRQS <=? virq)) eqn:Hr; [wp_step; split; [done|apply stable_refl]|].
  apply orb_false_iff in Hr as [Hr1%Z.ltb_ge Hr2%Z.leb_gt]. destruct (virq_is_global virq && negb (v =? 0)) eqn:Hg; [wp_step; split; [done|apply stable_refl]|].
  assert (virq_is_global virq = true -> v = 0) as Hg' by (intros Eg; rewrite Eg in Hg; simpl in Hg; by apply negb_false_iff, Z.eqb_eq in Hg).
  wp_step. eapply wp_get_dom; [done|]. destruct (vcpu_exists x v) eqn:Hv; cbn [negb]; [|wp_step; split; [done|apply stable_refl]].
  unfold vcpu_exists in Hv. apply andb_prop in Hv as [_ [y Hy]%bool_decide_eq_true].
  wp_step. eapply wp_get_vcpu; [done|done|]. destruct (Z.eqb_spec (virq_port y virq) 0) as [Hvp|]; cbn [negb]; [|wp_step; split; [done|apply stable_refl]].
  wp_step. apply get_fresh_port; [done|by eexists| |].
  { intros rc Hrc. destruct (Z.ltb_spec rc 0); [|lia]. wp_step. split; [done|apply stable_refl]. }
  intros port w1 F. pose proof (fp_port _ _ _ _ F) as Hp. destruct (Z.ltb_spec port 0); [lia|]. pose proof (fp_inv _ _ _ _ F) as Hw1.
  destruct (chan_inv _ _ _ _ (fp_chan _ _ _ _ F)) as (x1 & Hx1 & Hc). pose proof (wi_dom _ Hw1 cur x1 Hx1) as [Hb1 Hv1 Hp1].
  assert (vcpus x1 !! v = Some y) as Hy1 by by rewrite (fresh_vcpu _ _ _ _ _ v _ F Hx1 Hx).
  wp_step. eapply wp_mod_chn; [done|done|]. cbn [xen_consumer free_evtchn]. set (c' := Evtchn (ECS_VIRQ virq) 0 v). set (x2 := put_chn port c' x1). fold (upd cur x2 w1).
  destruct (put_views x1 port free_evtchn c' (bo_ports _ _ Hb1) Hc) as [V P].
  assert (base_ok (length (xen_consumers w1)) x2) as Hb2 by (eapply base_ok_put; [done|done|]; split; simpl; [by eexists|done|lia|lia]).
  destruct (put_chn_rest x1 port c') as [m Em]. assert (vcpus x2 = vcpus x1) as Ev by (unfold x2; by rewrite Em).
  wp_step. eapply wp_mod_vcpu; [apply upd_lookup|rewrite Ev; exact Hy1|]. rewrite Ev. set (x3 := set_vcpus _ x2). fold (upd cur x3 (upd cur x2 w1)). rewrite upd_upd. wp_step.
  assert (forall q, chn_at x3 q = if decide (q = port) then Some c' else chn_at x1 q) as Hat.
  { intros q. change (chn_at x3 q) with (chn_at x2 q). apply put_chn_at; [apply Hb1|by eapply chn_at_valid]. }
  split.
  - eapply winv_upd; [done|done| |].
    + split.
      * apply base_ok_vcpus; [done|]. intros u. rewrite Ev. destruct (decide (u = v)) as [->|Hne]; [rewrite lookup_insert_eq, Hy1; split; by eexists|by rewrite lookup_insert_ne].
      * simpl. eapply (virq_ok_bind (virq_view x1)); try done; [unfold virq_view; by rewrite Hc|lia| |].
        -- change (virq_view x3 port) with (virq_view x2 port). by rewrite V, decide_True.
        -- intros q Hq. change (virq_view x3 q) with (virq_view x2 q). by rewrite V, decide_False.
      * replace (pirqs x3) with (pirqs x1) by (simpl; unfold x2; by rewrite Em). eapply pirq_ok_ext; [|by apply set_virq_head|exact Hp1].
        intros q. change (pirq_view x3 q) with (pirq_view x2 q). rewrite P. case_decide as Eq; [|done]. subst. unfold pirq_view. by rewrite Hc.
    + intros q. rewrite Hat. case_decide as Eq; [|done]. subst. by rewrite Hc.
  - eapply stable_trans; [apply F|]. apply (upd_stable w1 cur x1); [done|simpl; unfold x2; by rewrite Em|simpl; unfold x2; by rewrite Em|].
    intros q c Hq. rewrite Hat. case_decide as Eq.
    + exists c'. split; [done|]. intros Hd. destruct (fp_alive _ _ _ _ F). by exists x1.
    + exists c. split; [done|]. intros _. apply kin_refl.
Qed.
End Ops.
