(* ===== verification/EvtchnPirq.v ===== *)
(** * Event channels: physical interrupts

    The lists of the ports bound to physical interrupts, and the operations on them. *)

From S2P Require Import Prelude.
From S2P Require Import Xen.
From S2P Require Import Evtchn.
From S2P Require Import EvtchnFacts.
From S2P Require Import EvtchnOps.
From S2P Require Import EvtchnBind.

Notation pview := (Z -> option (Z * Z * Z * Z)).

Definition upd_next (view : pview) (a b : Z) : pview :=
  fun q => if decide (q = a) then (match view q with Some (irq, _, prev, n) => Some (irq, b, prev, n) | None => None end) else view q.
Definition upd_prev (view : pview) (a b : Z) : pview :=
  fun q => if decide (q = a) then (match view q with Some (irq, next, _, n) => Some (irq, next, b, n) | None => None end) else view q.
Definition minus (p : Z) (view : pview) : pview := fun q => if decide (q = p) then None else view q.
Definition plus (p : Z) (e : Z * Z * Z * Z) (view : pview) : pview := fun q => if decide (q = p) then Some e else view q.

(** ** Doubly linked lists *)

Lemma dll_nonzero view prev h l q : dll view prev h l -> q ∈ l -> q <> 0.
Proof.
  revert prev h. induction l as [|a l IH]; intros prev h Hl Hq; [by apply elem_of_nil in Hq|]. destruct Hl as (_ & Ha & irq & next & n & _ & Hl).
  apply elem_of_cons in Hq as [->|Hq]; [done|by eapply IH].
Qed.

Lemma dll_head view prev h l : dll view prev h l -> (l = [] /\ h = 0) \/ h ∈ l.
Proof. destruct l as [|a l]; [by left|]. intros (-> & _). right. by left. Qed.

Lemma dll_unlink view prev h l1 p l2 irq next pv n :
  dll view prev h (l1 ++ p :: l2) -> NoDup (l1 ++ p :: l2) -> prev ∉ l1 ++ p :: l2 -> view p = Some (irq, next, pv, n) ->
  dll (upd_prev (upd_next view pv next) next pv) prev (match l1 with [] => next | _ => h end) (l1 ++ l2)
  /\ (match l1 with [] => pv = prev | _ => pv ∈ l1 end) /\ (next = 0 \/ next ∈ l2).
Proof.
  revert prev h. induction l1 as [|a l1 IH]; intros prev h Hl Hnd Hprev Hp; simpl in *.
  - destruct Hl as (-> & Hp0 & irq' & next' & n' & Hp' & Hl). rewrite Hp in Hp'. injection Hp' as <- <- -> <-. apply NoDup_cons in Hnd as [Hpl Hnd].
    split_and!; [|done|destruct (dll_head _ _ _ _ Hl) as [[_ ?]|?]; auto].
    destruct l2 as [|r l2]; [done|]. destruct Hl as (-> & Hr & irq2 & next2 & n2 & Hr' & Hl). apply NoDup_cons in Hnd as [Hrl Hnd].
    simpl. split_and!; [done|done|]. exists irq2, next2, n2. split.
    + unfold upd_prev, upd_next. rewrite decide_True by done. rewrite decide_False, Hr'; [done|]. intros ->. apply Hprev. right. by left.
    + eapply dll_ext; [|exact Hl]. intros q Hq. unfold upd_prev, upd_next. rewrite decide_False by (intros ->; done). rewrite decide_False; [done|].
      intros ->. apply Hprev. right. by right.
  - destruct Hl as (-> & Ha & irq_a & nx & n_a & Hva & Hl). apply NoDup_cons in Hnd as [Hal Hnd].
    destruct (IH a nx Hl Hnd Hal Hp) as (Hd & Hpv & Hnext).
    assert (a <> next) as Han by (destruct Hnext as [->|Hn]; [done|]; intros ->; apply Hal, elem_of_app; right; by right).
    split_and!; [done|done| | |done].
    + exists irq_a, (match l1 with [] => next | _ :: _ => nx end), n_a. split; [|done]. unfold upd_prev, upd_next. rewrite decide_False by done.
      destruct l1 as [|b l1]; [subst pv; by rewrite decide_True, Hva|]. rewrite decide_False, Hva; [done|]. intros ->. apply Hal, elem_of_app. by left.
    + destruct l1 as [|b l1]; [subst; by left|by right].
Qed.

Lemma dll_push view h l p irq v :
  dll view 0 h l -> NoDup l -> p ∉ l -> p <> 0 -> dll (upd_prev (plus p (irq, h, 0, v) view) h p) 0 p (p :: l).
Proof.
  intros Hl Hnd Hp Hp0. assert (h <> p) as Hhp by (destruct (dll_head _ _ _ _ Hl) as [[_ ->]|Hh]; [done|by intros ->]).
  simpl. split_and!; [done|done|]. exists irq, h, v. split.
  - unfold upd_prev, plus. rewrite decide_False by done. by rewrite decide_True.
  - destruct l as [|r l]; [done|]. destruct Hl as (-> & Hr & irq2 & next2 & n2 & Hr' & Hl). apply NoDup_cons in Hnd as [Hrl Hnd].
    split_and!; [done|done|]. exists irq2, next2, n2. split.
    + unfold upd_prev, plus. rewrite decide_True by done. by rewrite decide_False, Hr'.
    + eapply dll_ext; [|exact Hl]. intros q Hq. unfold upd_prev, plus. rewrite decide_False by (intros ->; done). rewrite decide_False; [done|].
      intros ->. apply Hp. by right.
Qed.

(** The notified virtual processor and the interrupt of a port do not change. *)
Lemma upd_links view a b a' b' q : (exists irq next prev n, view q = Some (irq, next, prev, n) /\
    exists next' prev', upd_prev (upd_next view a b) a' b' q = Some (irq, next', prev', n))
  \/ (view q = None /\ upd_prev (upd_next view a b) a' b' q = None).
Proof.
  unfold upd_prev, upd_next. destruct (view q) as [[[[irq next] prev] n]|].
  - left. exists irq, next, prev, n. split; [done|]. repeat case_decide; by eexists _, _.
  - right. repeat case_decide; done.
Qed.

(** ** The lists of a domain *)

Lemma head_some (vs : gmap Z vcpu) n y h v : vs !! n = Some y -> is_Some (<[n := set_head h y]> vs !! v) <-> is_Some (vs !! v).
Proof. intros Hy. destruct (decide (v = n)) as [->|Hne]; [rewrite lookup_insert_eq, Hy; split; by eexists|by rewrite lookup_insert_ne]. Qed.

(** A port leaves its list. *)
Lemma pirq_ok_unlink view vs ps p irq next pv n y :
  pirq_ok view vs ps -> view p = Some (irq, next, pv, n) -> vs !! n = Some y ->
  pirq_ok (minus p (upd_prev (upd_next view pv next) next pv)) (if decide (pv = 0) then <[n := set_head next y]> vs else vs) (<[irq := 0]> ps).
Proof.
  intros [H1 H2 H3] Hp Hy. destruct (H3 n y Hy) as (l & Hl & Hnd & Hin).
  assert (p ∈ l) as Hpl by (apply Hin; by eexists _, _, _). apply list_elem_of_split in Hpl as (l1 & l2 & ->).
  pose proof (fun q => dll_nonzero _ _ _ _ q Hl) as Hnz. assert (0 ∉ l1 ++ p :: l2) as H0 by (intros Hq; by apply (Hnz 0)).
  destruct (dll_unlink _ _ _ _ _ _ _ _ _ _ Hl Hnd H0 Hp) as (Hd & Hpv & Hnext).
  assert (p ∉ l1 ++ l2) as Hpn by (rewrite <- Permutation_middle in Hnd; by apply NoDup_cons in Hnd as [? _]).
  set (view' := upd_prev _ next pv) in *. set (vs' := if decide _ then _ else _).
  assert (forall v, is_Some (vs' !! v) <-> is_Some (vs !! v)) as Hvs by (intros v; unfold vs'; case_decide; [by apply head_some|done]).
  destruct (H2 _ _ _ _ _ Hp) as (Hp0 & Hirq & _). split.
  - intros i q. destruct (decide (i = irq)) as [->|Hi]; [rewrite lookup_insert_eq; by intros [= <-]|]. rewrite lookup_insert_ne by done. intros Hq Hq0.
    destruct (H1 i q Hq Hq0) as (nx & pr & m & Hv). assert (q <> p) as Hqp by (intros ->; congruence). unfold minus. rewrite decide_False by done.
    destruct (upd_links view pv next next pv q) as [(i' & nx' & pr' & m' & E & nx2 & pr2 & E2)|[E _]]; [|congruence]. fold view' in E2. rewrite E2. simplify_eq. by eexists _, _, _.
  - intros q i nx pr m. unfold minus. case_decide as Eq; [done|]. intros Hv.
    destruct (upd_links view pv next next pv q) as [(i' & nx' & pr' & m' & E & nx2 & pr2 & E2)|[_ E]]; [fold view' in E2|fold view' in E; congruence].
    rewrite Hv in E2. injection E2 as -> _ _ ->. destruct (H2 _ _ _ _ _ E) as (A & B & C). split_and!; [done| |by apply Hvs].
    rewrite lookup_insert_ne; [done|]. intros <-. congruence.
  - intros v yv Hyv. destruct (decide (v = n)) as [->|Hne].
    + exists (l1 ++ l2). split_and!.
      * eapply dll_ext; [intros q Hq; unfold minus; rewrite decide_False; [done|by intros ->]|].
        replace (pirq_evtchn_head yv) with (match l1 with [] => next | _ => pirq_evtchn_head y end); [exact Hd|]. unfold vs' in Hyv. destruct l1 as [|a l1].
        -- rewrite decide_True, lookup_insert_eq in Hyv by done. by injection Hyv as <-.
        -- rewrite decide_False in Hyv; [congruence|]. intros E0. apply (Hnz pv); [|done]. apply elem_of_app. by left.
      * rewrite <- Permutation_middle in Hnd. by apply NoDup_cons in Hnd as [_ ?].
      * intros q. assert (q ∈ l1 ++ l2 <-> q <> p /\ q ∈ l1 ++ p :: l2) as ->.
        { rewrite !elem_of_app, elem_of_cons in *. split; [|naive_solver]. intros Hq. split; [intros ->; tauto|tauto]. }
        rewrite Hin. unfold minus. destruct (upd_links view pv next next pv q) as [(i' & nx' & pr' & m' & E & nx2 & pr2 & E2)|[E E2]]; fold view' in E2; rewrite E, E2.
        -- case_decide as Eq; [split; [tauto|intros (? & ? & ? & ?); done]|]. split; [intros [_ (? & ? & ? & [= -> -> -> ->])]; by eexists _, _, _|].
           intros (? & ? & ? & [= -> -> -> ->]). split; [done|]. by eexists _, _, _.
        -- split; [intros [_ (? & ? & ? & ?)]; done|]. intros (? & ? & ? & ?). by case_decide.
    + assert (vs !! v = Some yv) as Hyv' by (unfold vs' in Hyv; case_decide; [by rewrite lookup_insert_ne in Hyv|done]).
      destruct (H3 v yv Hyv') as (k & Hk & Hkn & Hkin). exists k.
      assert (forall q, q ∈ k -> q ∉ l1 ++ p :: l2) as Hdis by (intros q (? & ? & ? & E)%Hkin (? & ? & ? & E2)%Hin; congruence).
      assert (forall q, q ∈ k -> minus p view' q = view q) as Hsame.
      { intros q Hq. pose proof (Hdis q Hq) as Hd'. pose proof (dll_nonzero _ _ _ _ q Hk Hq) as Hq0. unfold minus, view', upd_prev, upd_next.
        rewrite decide_False by (intros ->; apply Hd', elem_of_app; right; by left).
        rewrite decide_False by (intros ->; destruct Hnext as [?|?]; [done|]; apply Hd', elem_of_app; right; by right).
        rewrite decide_False; [done|]. intros ->. destruct l1; [done|]. apply Hd', elem_of_app. by left. }
      split_and!; [by eapply dll_ext|done|]. intros q. rewrite Hkin. split.
      * intros Hq. rewrite Hsame; [done|]. by apply Hkin.
      * intros (i & nx & pr & E). unfold minus in E. case_decide; [done|].
        destruct (upd_links view pv next next pv q) as [(i' & nx' & pr' & m' & E1 & nx2 & pr2 & E2)|[_ E2]]; fold view' in E2; [|congruence].
        rewrite E in E2. injection E2 as -> _ _ ->. by eexists _, _, _.
Qed.

(** A port enters the list of a virtual processor. *)
Lemma pirq_ok_link view vs ps p irq v y :
  pirq_ok view vs ps -> view p = None -> p <> 0 -> vs !! v = Some y -> (forall q, ps !! irq = Some q -> q = 0) ->
  pirq_ok (upd_prev (plus p (irq, pirq_evtchn_head y, 0, v) view) (pirq_evtchn_head y) p) (<[v := set_head p y]> vs) (<[irq := p]> ps).
Proof.
  intros [H1 H2 H3] Hp Hp0 Hy Hirq. destruct (H3 v y Hy) as (l & Hl & Hnd & Hin). set (h := pirq_evtchn_head y) in *.
  assert (p ∉ l) as Hpl by (intros (? & ? & ? & E)%Hin; congruence).
  assert (h <> p) as Hhp by (destruct (dll_head _ _ _ _ Hl) as [[_ ->]|Hh]; [done|by intros ->]).
  set (view' := upd_prev _ h p).
  assert (forall q, q <> p -> (exists i nx pr m, view q = Some (i, nx, pr, m) /\ exists pr', view' q = Some (i, nx, pr', m)) \/ (view q = None /\ view' q = None)) as Hold.
  { intros q Hq. unfold view', upd_prev, plus. destruct (decide (q = p)); [done|]. destruct (view q) as [[[[i nx] pr] m]|].
    - left. exists i, nx, pr, m. split; [done|]. case_decide; by eexists.
    - right. by case_decide. }
  assert (view' p = Some (irq, h, 0, v)) as Hvp by (unfold view', upd_prev, plus; rewrite decide_False by done; by rewrite decide_True).
  split.
  - intros i q. destruct (decide (i = irq)) as [->|Hi]; [rewrite lookup_insert_eq; intros [= <-] _; by eexists _, _, _|].
    rewrite lookup_insert_ne by done. intros Hq Hq0. destruct (H1 i q Hq Hq0) as (nx & pr & m & E). assert (q <> p) as Hqp by congruence.
    destruct (Hold q Hqp) as [(? & ? & ? & ? & E1 & pr' & E2)|[E1 _]]; [|congruence]. rewrite E2. simplify_eq. by eexists _, _, _.
  - intros q i nx pr m Hq. destruct (decide (q = p)) as [->|Hqp].
    + rewrite Hvp in Hq. injection Hq as <- <- <- <-. split_and!; [done|apply lookup_insert_eq|]. apply head_some; [done|by eexists].
    + destruct (Hold q Hqp) as [(? & ? & ? & ? & E1 & pr' & E2)|[_ E2]]; [|congruence]. rewrite Hq in E2. simplify_eq.
      destruct (H2 _ _ _ _ _ E1) as (A & B & C). split_and!; [done| |by apply head_some]. rewrite lookup_insert_ne; [done|]. intros <-. by apply A, Hirq.
  - intros u yu. destruct (decide (u = v)) as [->|Hne].
    + rewrite lookup_insert_eq. intros [= <-]. exists (p :: l). split_and!; [by apply dll_push|by apply NoDup_cons|]. intros q. rewrite elem_of_cons, Hin.
      destruct (decide (q = p)) as [->|Hqp]; [rewrite Hvp; split; [by eexists _, _, _|by left]|].
      destruct (Hold q Hqp) as [(? & ? & ? & ? & E1 & pr' & E2)|[E1 E2]]; rewrite E1, E2.
      * split; [intros [?|(? & ? & ? & E)]; [done|]; simplify_eq; by eexists _, _, _|]. intros (? & ? & ? & E). right. simplify_eq. by eexists _, _, _.
      * split; [intros [?|(? & ? & ? & ?)]; done|intros (? & ? & ? & ?); done].
    + rewrite lookup_insert_ne by done. intros Hyu. destruct (H3 u yu Hyu) as (k & Hk & Hkn & Hkin). exists k.
      assert (forall q, q ∈ k -> view' q = view q) as Hsame.
      { intros q Hq. pose proof (dll_nonzero _ _ _ _ q Hk Hq) as Hq0. apply Hkin in Hq as (i & nx & pr & E). unfold view', upd_prev, plus.
        rewrite decide_False; [rewrite decide_False; [done|congruence]|]. intros ->. destruct (dll_head _ _ _ _ Hl) as [[_ ?]|Hh]; [done|].
        apply Hin in Hh as (? & ? & ? & E2). congruence. }
      split_and!; [by eapply dll_ext|done|]. intros q. rewrite Hkin. split.
      * intros Hq. rewrite Hsame; [done|]. by apply Hkin.
      * intros (i & nx & pr & E). destruct (decide (q = p)) as [->|Hqp]; [rewrite Hvp in E; congruence|].
        destruct (Hold q Hqp) as [(? & ? & ? & ? & E1 & pr' & E2)|[_ E2]]; [|congruence]. rewrite E in E2. simplify_eq. by eexists _, _, _.
Qed.

(** ** The operations on the lists *)

(** A domain whose links are being changed, with the links it has. *)
Record inter (nc : nat) (x0 x : domain) (view : pview) : Prop := Inter {
  in_base : base_ok nc x;
  in_virq : virq_ok (virq_view x) (vcpus x);
  in_links p : link_of (chn_at x p) = link_of (chn_at x0 p);
  in_view q : pirq_view x q = view q;
  in_chan p c : chn_at x0 p = Some c -> exists c', chn_at x p = Some c' /\ xen_consumer c' = xen_consumer c /\ same_kind (state c) (state c');
  in_dying : is_dying x = is_dying x0;
  in_word : word x = word x0
}.

Lemma inter_refl nc x : dom_ok nc x -> inter nc x x (pirq_view x).
Proof. intros [H1 H2 _]. split; try done. intros p c Hc. exists c. split_and!; [done|done|apply same_kind_refl]. Qed.

Lemma inter_ext nc x0 x view view' : inter nc x0 x view -> (forall q, view' q = view q) -> inter nc x0 x view'.
Proof. intros [] E. split; try done. intros q. by rewrite E. Qed.

Lemma pirq_view_chn x p irq next prev n :
  pirq_view x p = Some (irq, next, prev, n) -> exists c, chn_at x p = Some c /\ state c = ECS_PIRQ irq next prev /\ notify_vcpu_id c = n.
Proof.
  unfold pirq_view. destruct (chn_at x p) as [c|]; [|done]. destruct (state c) eqn:E; try done. intros [= -> -> -> <-]. by exists c.
Qed.

(** The channel [p] is written, and stays bound to its interrupt. *)
Lemma inter_put nc x0 x view p c c' irq nx pv nx' pv' :
  inter nc x0 x view -> chn_at x p = Some c -> state c = ECS_PIRQ irq nx pv -> state c' = ECS_PIRQ irq nx' pv' -> xen_consumer c' = xen_consumer c ->
  is_Some (vcpus x !! notify_vcpu_id c') -> inter nc x0 (put_chn p c' x) (plus p (irq, nx', pv', notify_vcpu_id c') view).
Proof.
  intros [I1 I2 I3 I4 I5 I6 I7] Hc Hs Hs' Ec Hn. pose proof (bo_ports _ _ I1) as Hpo. destruct (put_views x p c c' Hpo Hc) as [V P].
  destruct (chn_at_valid _ _ _ Hc) as [Hval _]. pose proof (fun q => put_chn_at x p c' q Hpo Hval) as Hat. pose proof (bo_chans _ _ I1 p c Hc) as [C1 C2 C3 C4].
  assert (base_ok nc (put_chn p c' x)) as Hb.
  { eapply base_ok_put; [done|done|]. split; [done|by rewrite Hs'|by rewrite Ec|]. intros E. specialize (C4 E). congruence. }
  destruct (put_chn_rest x p c') as [m Em]. split; try (rewrite Em; done); [done| | | |].
  - rewrite Em at 2. simpl. eapply virq_ok_ext; [|done|exact I2]. intros q. rewrite V. case_decide as Eq; [|done]. subst. unfold virq_of, virq_view. by rewrite Hs', Hc, Hs.
  - intros q. rewrite Hat. case_decide as Eq; [|done]. subst. rewrite <- I3, Hc. simpl. by rewrite Hs, Hs'.
  - intros q. rewrite P. unfold plus. case_decide as Eq; [|done]. unfold pirq_of. by rewrite Hs'.
  - intros q k Hk. rewrite Hat. destruct (I5 q k Hk) as (k' & Hk' & E1 & E2). case_decide as Eq; [|by exists k'].
    subst. assert (k' = c) as -> by congruence. exists c'. split_and!; [done|congruence|]. rewrite Hs in E2. rewrite Hs'. by destruct (state k).
Qed.

Lemma inter_vcpus nc x0 x view vs :
  inter nc x0 x view -> (forall v, is_Some (vs !! v) <-> is_Some (vcpus x !! v)) -> virq_to_evtchn <$> vs = virq_to_evtchn <$> vcpus x ->
  inter nc x0 (set_vcpus vs x) view.
Proof.
  intros [I1 I2 I3 I4 I5 I6 I7] Hv Ev. split; try done; [by apply base_ok_vcpus|]. simpl. by eapply virq_ok_ext; [|exact Ev|exact I2].
Qed.

Lemma inter_head nc x0 x view v y h :
  inter nc x0 x view -> vcpus x !! v = Some y -> inter nc x0 (set_vcpus (<[v := set_head h y]> (vcpus x)) x) view.
Proof.
  intros Hi Hy. apply inter_vcpus; [done|intros u; by apply head_some|]. rewrite fmap_insert. apply insert_id. by rewrite lookup_fmap, Hy.
Qed.

Section Steps.
Context (nc : nat) (x0 : domain) (d : Z) (w : eworld).

Lemma mod_link_step f x view p irq nx pv n nx' pv' (Q : unit -> eworld -> Prop) :
  inter nc x0 x view -> doms w !! d = Some x -> view p = Some (irq, nx, pv, n) ->
  (forall c, state c = ECS_PIRQ irq nx pv -> f c = Some (set_state (ECS_PIRQ irq nx' pv') c)) ->
  (forall x', inter nc x0 x' (plus p (irq, nx', pv', n) view) -> vcpus x' = vcpus x -> pirqs x' = pirqs x -> Q tt (upd d x' w)) ->
  wp no_error (mod_link d p f) Q w.
Proof.
  intros Hi Hx Hp Hf HQ. rewrite <- (in_view _ _ _ _ Hi) in Hp. destruct (pirq_view_chn _ _ _ _ _ _ Hp) as (c & Hc & Hs & Hn).
  unfold mod_link. wp_step. eapply wp_get_chn; [done|done|]. wp_step. eapply wp_of_option; [by apply Hf|]. eapply wp_mod_chn; [done|done|].
  destruct (put_chn_rest x p (set_state (ECS_PIRQ irq nx' pv') c)) as [m Em]. apply HQ; [|by rewrite Em|by rewrite Em].
  rewrite <- Hn. eapply (inter_put nc x0 x view p c (set_state (ECS_PIRQ irq nx' pv') c)); try done. apply (bo_chans _ _ (in_base _ _ _ _ Hi) p c Hc).
Qed.

Lemma set_next_step b x view p irq nx pv n (Q : unit -> eworld -> Prop) :
  inter nc x0 x view -> doms w !! d = Some x -> view p = Some (irq, nx, pv, n) ->
  (forall x', inter nc x0 x' (upd_next view p b) -> vcpus x' = vcpus x -> pirqs x' = pirqs x -> Q tt (upd d x' w)) ->
  wp no_error (mod_link d p (set_next b)) Q w.
Proof.
  intros Hi Hx Hp HQ. eapply (mod_link_step _ x view p irq nx pv n b pv); [done|done|done| |].
  - intros c Hs. unfold set_next. by rewrite Hs.
  - intros x' Hi' E1 E2. apply HQ; [|done|done]. eapply inter_ext; [done|]. intros q. unfold upd_next, plus. case_decide as E; [|done]. subst. by rewrite Hp.
Qed.

Lemma set_prev_step b x view p irq nx pv n (Q : unit -> eworld -> Prop) :
  inter nc x0 x view -> doms w !! d = Some x -> view p = Some (irq, nx, pv, n) ->
  (forall x', inter nc x0 x' (upd_prev view p b) -> vcpus x' = vcpus x -> pirqs x' = pirqs x -> Q tt (upd d x' w)) ->
  wp no_error (mod_link d p (set_prev b)) Q w.
Proof.
  intros Hi Hx Hp HQ. eapply (mod_link_step _ x view p irq nx pv n nx b); [done|done|done| |].
  - intros c Hs. unfold set_prev. by rewrite Hs.
  - intros x' Hi' E1 E2. apply HQ; [|done|done]. eapply inter_ext; [done|]. intros q. unfold upd_prev, plus. case_decide as E; [|done]. subst. by rewrite Hp.
Qed.
End Steps.

Lemma dll_view view prev h l q : dll view prev h l -> q ∈ l -> is_Some (view q).
Proof.
  revert prev h. induction l as [|a l IH]; intros prev h Hl Hq; [by apply elem_of_nil in Hq|]. destruct Hl as (_ & Ha & irq & next & n & Hv & Hl).
  apply elem_of_cons in Hq as [->|Hq]; [by eexists|by eapply IH].
Qed.

(** The neighbours of a port in its list. *)
Lemma pirq_neighbours view vs ps p irq next pv n :
  pirq_ok view vs ps -> view p = Some (irq, next, pv, n) ->
  (pv = 0 \/ is_Some (view pv)) /\ (next = 0 \/ is_Some (view next)) /\ view 0 = None.
Proof.
  intros Hok Hp. destruct (pk_back _ _ _ Hok _ _ _ _ _ Hp) as (_ & _ & [y Hy]). destruct (pk_list _ _ _ Hok n y Hy) as (l & Hl & Hnd & Hin).
  assert (p ∈ l) as Hpl by (apply Hin; by eexists _, _, _). apply list_elem_of_split in Hpl as (l1 & l2 & ->).
  assert (0 ∉ l1 ++ p :: l2) as H0 by (intros Hq; by apply (dll_nonzero _ _ _ _ 0 Hl)).
  destruct (dll_unlink _ _ _ _ _ _ _ _ _ _ Hl Hnd H0 Hp) as (_ & Hpv & Hnext). split_and!.
  - destruct l1 as [|a l1]; [by left|right]. eapply dll_view; [exact Hl|]. apply elem_of_app. by left.
  - destruct Hnext as [->|Hn]; [by left|right]. eapply dll_view; [exact Hl|]. apply elem_of_app. right. by right.
  - destruct (view 0) as [[[[i a] b] m]|] eqn:E; [|done]. by destruct (pk_back _ _ _ Hok _ _ _ _ _ E).
Qed.

Lemma upd_next_zero view b q : view 0 = None -> upd_next view 0 b q = view q.
Proof. intros H0. unfold upd_next. case_decide as E; [|done]. subst. by rewrite H0. Qed.
Lemma upd_prev_zero view b q : view 0 = None -> upd_prev view 0 b q = view q.
Proof. intros H0. unfold upd_prev. case_decide as E; [|done]. subst. by rewrite H0. Qed.
Lemma upd_next_some view a b q : is_Some (upd_next view a b q) <-> is_Some (view q).
Proof. unfold upd_next. case_decide; [|done]. destruct (view q) as [[[[? ?] ?] ?]|]; split; intros [? ?]; by eexists. Qed.

Lemma unlink_spec nc x0 x view d w p v y irq next pv n (Q : unit -> eworld -> Prop) :
  inter nc x0 x view -> doms w !! d = Some x -> view p = Some (irq, next, pv, n) ->
  (pv = 0 \/ is_Some (view pv)) -> (next = 0 \/ is_Some (view next)) -> view 0 = None -> vcpus x !! v = Some y ->
  (forall x', inter nc x0 x' (upd_prev (upd_next view pv next) next pv) ->
     vcpus x' = (if decide (pv = 0) then <[v := set_head next y]> (vcpus x) else vcpus x) -> pirqs x' = pirqs x -> Q tt (upd d x' w)) ->
  wp no_error (unlink_pirq_port d p v) Q w.
Proof.
  intros Hi Hx Hp Hpv Hnext H0 Hy HQ. pose proof Hp as Hp'. rewrite <- (in_view _ _ _ _ Hi) in Hp'. destruct (pirq_view_chn _ _ _ _ _ _ Hp') as (c & Hc & Hs & _).
  unfold unlink_pirq_port. wp_step. eapply wp_get_chn; [done|done|]. rewrite Hs.
  assert (forall x1, inter nc x0 x1 (upd_next view pv next) -> vcpus x1 = (if decide (pv = 0) then <[v := set_head next y]> (vcpus x) else vcpus x) -> pirqs x1 = pirqs x ->
    wp no_error (when (negb (next =? 0)) (mod_link d next (set_prev pv))) Q (upd d x1 w)) as Hrest.
  { intros x1 Hi1 Ev Ep. destruct (Z.eqb_spec next 0) as [->|Hne]; cbn [negb when].
    - wp_step. apply HQ; [|done|done]. eapply inter_ext; [done|]. intros q. apply upd_prev_zero. destruct (upd_next view pv 0 0) eqn:E; [|done]. assert (is_Some (view 0)) as [? E0] by (apply (upd_next_some view pv 0); by eexists). congruence.
    - destruct Hnext as [?|Hnext]; [done|]. destruct (proj2 (upd_next_some view pv next next) Hnext) as [[[[i a] b] m] E].
      eapply (set_prev_step nc x0); [done|apply upd_lookup|exact E|]. intros x2 Hi2 Ev2 Ep2. rewrite upd_upd. apply HQ; [done|congruence|congruence]. }
  wp_step. destruct (Z.eqb_spec pv 0) as [->|Hne]; cbn [negb].
  - eapply wp_mod_vcpu; [done|done|]. eapply Hrest; [|by rewrite decide_True|done]. apply inter_head; [|done].
    eapply inter_ext; [done|]. intros q. by apply upd_next_zero.
  - destruct Hpv as [?|[[[[i a] b] m] E]]; [done|]. eapply (set_next_step nc x0); [done|done|exact E|]. intros x1 Hi1 Ev1 Ep1.
    apply Hrest; [done|by rewrite decide_False|done].
Qed.

Lemma link_spec nc x0 x view d w p v y irq a b n (Q : unit -> eworld -> Prop) :
  inter nc x0 x view -> doms w !! d = Some x -> view p = Some (irq, a, b, n) -> vcpus x !! v = Some y ->
  (pirq_evtchn_head y = 0 \/ is_Some (view (pirq_evtchn_head y))) -> view 0 = None -> pirq_evtchn_head y <> p ->
  (forall x', inter nc x0 x' (upd_prev (plus p (irq, pirq_evtchn_head y, 0, n) view) (pirq_evtchn_head y) p) ->
     vcpus x' = <[v := set_head p y]> (vcpus x) -> pirqs x' = pirqs x -> Q tt (upd d x' w)) ->
  wp no_error (link_pirq_port d p v) Q w.
Proof.
  intros Hi Hx Hp Hy Hh H0 Hne HQ. unfold link_pirq_port. wp_step. eapply wp_get_vcpu; [done|done|]. set (h := pirq_evtchn_head y) in *. cbv zeta.
  wp_step. eapply (set_prev_step nc x0); [done|done|exact Hp|]. intros x1 Hi1 Ev1 Ep1. wp_step.
  assert (upd_prev view p 0 p = Some (irq, a, 0, n)) as Hp1 by (unfold upd_prev; by rewrite decide_True, Hp).
  eapply (set_next_step nc x0); [done|apply upd_lookup|exact Hp1|]. intros x2 Hi2 Ev2 Ep2. rewrite upd_upd.
  assert (inter nc x0 x2 (plus p (irq, h, 0, n) view)) as Hi2'.
  { eapply inter_ext; [done|]. intros q. unfold plus, upd_next, upd_prev. case_decide as E; [|done]. subst. by rewrite Hp. }
  assert (vcpus x2 = vcpus x) as Ev by congruence. assert (p <> 0) as Hp0 by (intros ->; congruence).
  assert (forall x3, inter nc x0 x3 (upd_prev (plus p (irq, h, 0, n) view) h p) -> vcpus x3 = vcpus x -> pirqs x3 = pirqs x ->
    wp no_error (mod_vcpu d v (set_head p)) Q (upd d x3 w)) as Hrest.
  { intros x3 Hi3 Ev3 Ep3. eapply wp_mod_vcpu; [apply upd_lookup|by rewrite Ev3|]. fold (upd d (set_vcpus (<[v := set_head p y]> (vcpus x3)) x3) (upd d x3 w)). rewrite upd_upd.
    apply HQ; [|simpl; by rewrite Ev3|done]. apply inter_head; [done|by rewrite Ev3]. }
  wp_step. destruct (Z.eqb_spec h 0) as [E|Hh0]; cbn [negb when].
  - wp_step. rewrite E in *. apply Hrest; [|done|congruence]. eapply inter_ext; [done|]. intros q. apply upd_prev_zero. unfold plus. by rewrite decide_False.
  - destruct Hh as [?|[[[[i e] g] m] Eh]]; [done|]. eapply (set_prev_step nc x0); [done|apply upd_lookup|unfold plus; rewrite decide_False by done; exact Eh|].
    intros x3 Hi3 Ev3 Ep3. rewrite upd_upd. apply Hrest; [done|congruence|congruence].
Qed.

(** ** Binding an interrupt *)

Lemma base_ok_same nc x x' :
  base_ok nc x -> is_dying x' = is_dying x -> word x' = word x -> max_vcpus x' = max_vcpus x -> vcpus x' = vcpus x -> buckets x' = buckets x ->
  poll_mask x' = poll_mask x -> base_ok nc x'.
Proof.
  intros [H1 H2 H3 H4 H5 H6] Ed Ew Em Ev Eb Ep. pose proof (fun p => chn_at_ext x x' p Eb Ew) as Hc. split.
  - by apply (ports_ok_ext x).
  - by rewrite Ev.
  - rewrite Ev, Em. apply H3.
  - rewrite Ev, Ep. apply H4.
  - rewrite Ed, Hc. apply H5.
  - intros p c. rewrite Hc, Ev. apply H6.
Qed.

(** The lists are in order again. *)
Lemma inter_done nc x0 x view : inter nc x0 x view -> pirq_ok view (vcpus x) (pirqs x) -> dom_ok nc x.
Proof. intros Hi Hp. split; [apply Hi|apply Hi|]. eapply pirq_ok_ext; [apply Hi|done|done]. Qed.

Lemma pirq_head view vs ps v y : pirq_ok view vs ps -> vs !! v = Some y -> (pirq_evtchn_head y = 0 \/ is_Some (view (pirq_evtchn_head y))).
Proof.
  intros Hok Hy. destruct (pk_list _ _ _ Hok v y Hy) as (l & Hl & _). destruct (dll_head _ _ _ _ Hl) as [[_ ?]|Hh]; [by left|right]. by eapply dll_view.
Qed.

Lemma pirq_view_zero nc x : dom_ok nc x -> pirq_view x 0 = None.
Proof.
  intros Hok. destruct (pirq_view x 0) as [[[[i a] b] m]|] eqn:E; [|done]. by destruct (pk_back _ _ _ (do_pirq _ _ Hok) _ _ _ _ _ E).
Qed.

(** An entry of the tree without a port does not matter. *)
Lemma pirq_ok_unset view vs ps irq : pirq_ok view vs ps -> (forall q, ps !! irq = Some q -> q = 0) -> pirq_ok view vs (<[irq := 0]> ps).
Proof.
  intros [H1 H2 H3] Hirq. split; [| |done].
  - intros i q. destruct (decide (i = irq)) as [->|Hi]; [rewrite lookup_insert_eq; by intros [= <-]|rewrite lookup_insert_ne by done; apply H1].
  - intros p i nx pr m Hv. destruct (H2 _ _ _ _ _ Hv) as (A & B & C). split_and!; [done| |done].
    rewrite lookup_insert_ne; [done|]. intros <-. by apply A, Hirq.
Qed.

Lemma find_range_lt r s k : Rangeset.find_range r s = Some k -> (k < length r)%nat.
Proof.
  assert (forall l x i, (forall j, x = Some j -> (j < i)%nat) -> Rangeset.find_range_loop x i l s = Some k -> (k < i + length l)%nat) as H.
  { induction l as [|y l IH]; intros x i Hx E; simpl in *; [specialize (Hx k E); lia|]. destruct (s <? Rangeset.rg_s y); [specialize (Hx k E); lia|].
    assert (k < S i + length l)%nat; [|lia]. eapply IH; [|done]. intros j [= ->]. lia. }
  intros E. by apply (H r None 0%nat).
Qed.

Section Ops.
Context `{XenEnv}.
Hypothesis no_failure : alloc_security_fails = false.

Lemma irq_access_spec x pirq w (Q : bool -> eworld -> Prop) : (forall b, Q b w) -> wp no_error (irq_access_permitted x pirq) Q w.
Proof.
  intros HQ. unfold wp, irq_access_permitted, Rangeset.rangeset_contains_singleton, Rangeset.rangeset_contains_range, bind, assert_, gets, ret, id.
  destruct (Z.leb_spec pirq pirq); [|lia]. destruct (Rangeset.find_range (irq_caps x) pirq) as [k|] eqn:E; [|apply HQ].
  apply find_range_lt in E. destruct (lookup_lt_is_Some_2 _ _ E) as [r Hr]. unfold Rangeset.get_range, of_option. rewrite Hr. apply HQ.
Qed.

(** The new port becomes the head of the list of the first processor. *)
Lemma bind_link_spec cur pirq port x1 w1 (Q : unit -> eworld -> Prop) :
  winv w1 -> doms w1 !! cur = Some x1 -> chn_at x1 port = Some free_evtchn -> 0 < port -> (forall q, pirqs x1 !! pirq = Some q -> q = 0) ->
  (forall x', dom_ok (length (xen_consumers w1)) x' -> (forall q, link_of (chn_at x' q) = link_of (chn_at x1 q)) -> is_dying x' = is_dying x1 -> word x' = word x1 ->
    (forall q c, chn_at x1 q = Some c -> is_Some (chn_at x' q)) -> Q tt (upd cur x' w1)) ->
  wp no_error (mod_chn cur port (set_state (ECS_PIRQ pirq 0 0))) (fun _ w => wp no_error (link_pirq_port cur port 0) Q w) (upd cur (set_pirqs (<[pirq := port]> (pirqs x1)) x1) w1).
Proof using no_failure.
  intros Hw1 Hx1 Hc Hp Hirq HQ. pose proof (wi_dom _ Hw1 cur x1 Hx1) as Hok1. pose proof Hok1 as [Hb1 Hv1 Hp1]. set (x2 := set_pirqs _ x1).
  set (c' := set_state (ECS_PIRQ pirq 0 0) free_evtchn). eapply wp_mod_chn; [apply upd_lookup|exact Hc|]. fold c'. fold (upd cur (put_chn port c' x2) (upd cur x2 w1)). rewrite upd_upd.
  set (x3 := put_chn port c' x2). destruct (put_chn_rest x2 port c') as [m Em].
  assert (base_ok (length (xen_consumers w1)) x2) as Hb2 by by apply (base_ok_same _ x1).
  destruct (put_views x2 port free_evtchn c' (bo_ports _ _ Hb2) Hc) as [V P].
  assert (base_ok (length (xen_consumers w1)) x3) as Hb3 by (eapply base_ok_put; [done|exact Hc|]; split; simpl; [apply Hb1|done|lia|lia]).
  assert (forall q, chn_at x3 q = if decide (q = port) then Some c' else chn_at x1 q) as Hat by (intros q; apply (put_chn_at x2); [apply Hb2|by eapply chn_at_valid]).
  assert (vcpus x3 = vcpus x1) as Ev3 by (unfold x3; by rewrite Em). assert (pirqs x3 = <[pirq := port]> (pirqs x1)) as Ep3 by (unfold x3; by rewrite Em).
  assert (inter (length (xen_consumers w1)) x3 x3 (plus port (pirq, 0, 0, 0) (pirq_view x1))) as Hi3.
  { split; try done.
    - rewrite Ev3. eapply virq_ok_ext; [|done|exact Hv1]. intros q. unfold x3. rewrite V. case_decide as Eq; [|done]. subst. unfold virq_view. by rewrite Hc.
    - intros q k Hk. exists k. split_and!; [done|done|apply same_kind_refl]. }
  destruct (bo_vcpu0 _ _ Hb1) as [y Hy]. assert (pirq_view x1 port = None) as Hpv by (unfold pirq_view; by rewrite Hc).
  pose proof (pirq_view_zero _ _ Hok1) as Hz. pose proof (pirq_head _ _ _ _ _ Hp1 Hy) as Hh.
  assert (pirq_evtchn_head y <> port) as Hhp by (intros E; destruct Hh as [?|[? ?]]; [lia|congruence]).
  eapply (link_spec _ x3 x3); [exact Hi3|apply upd_lookup|unfold plus; by rewrite decide_True|by rewrite Ev3| | |done|].
  { unfold plus. by rewrite decide_False. }
  { unfold plus. rewrite decide_False by lia. done. }
  intros x4 Hi4 Ev4 Ep4. rewrite upd_upd.
  apply HQ.
  - eapply inter_done; [exact Hi4|]. rewrite Ev4, Ep4, Ev3, Ep3. eapply pirq_ok_ext; [|reflexivity|apply (pirq_ok_link (pirq_view x1)); try done; lia].
    intros q. unfold upd_prev, plus. case_decide as E1; [|by case_decide]. by case_decide.
  - intros q. rewrite (in_links _ _ _ _ Hi4), Hat. case_decide as Eq; [|done]. subst. by rewrite Hc.
  - rewrite (in_dying _ _ _ _ Hi4). unfold x3. by rewrite Em.
  - rewrite (in_word _ _ _ _ Hi4). unfold x3. by rewrite Em.
  - intros q k Hk. assert (is_Some (chn_at x3 q)) as [k3 Hk3] by (rewrite Hat; case_decide; by eexists).
    destruct (in_chan _ _ _ _ Hi4 q k3 Hk3) as (k4 & Hk4 & _). by exists k4.
Qed.

Lemma bind_pirq_safe cur pirq w : winv w -> is_Some (doms w !! cur) -> safe (evtchn_bind_pirq cur pirq) w.
Proof using no_failure.
  intros Hw [x Hx]. assert (winv w /\ stable w w) as Hid by (split; [done|apply stable_refl]). unfold evtchn_bind_pirq, safe. wp_step. eapply wp_get_dom; [done|].
  destruct ((pirq <? 0) || (nr_pirqs x <=? pirq)); [by wp_step|]. wp_step.
  assert (forall permitted, wp no_error (if negb permitted then ret (- EPERM, 0)
    else if negb (pirq_to_evtchn x pirq =? 0) then ret (- EEXIST, 0)
    else let! port := get_free_port cur in
    if port <? 0 then ret (port, 0)
    else let! ok := gets pirq_alloc_ok in
      if bool_decide (pirqs x !! pirq = None) && negb ok then ret (- ENOMEM, 0)
      else mod_dom cur (fun x => set_pirqs (<[pirq := port]> (pirqs x)) x) ;;;
        let rc := if negb (is_hvm x) then pirq_bind_rc cur pirq else 0 in
        if negb (rc =? 0) then mod_dom cur (fun x => set_pirqs (<[pirq := 0]> (pirqs x)) x) ;;; ret (rc, 0)
        else mod_chn cur port (set_state (ECS_PIRQ pirq 0 0)) ;;; link_pirq_port cur port 0 ;;;
          when (is_hvm x && pirq_is_mapped cur pirq) (request (MapEmuirq cur pirq)) ;;; ret (0, port))
    (fun _ w' => winv w' /\ stable w w') w) as Hmain; [|destruct (is_hvm x); [wp_step; apply Hmain|apply irq_access_spec; intros b; apply Hmain]].
  intros permitted. destruct permitted; cbn [negb]; [|by wp_step]. destruct (Z.eqb_spec (pirq_to_evtchn x pirq) 0) as [Hpe|]; cbn [negb]; [|by wp_step].
  assert (forall q, pirqs x !! pirq = Some q -> q = 0) as Hirq by (intros q Hq; unfold pirq_to_evtchn in Hpe; by rewrite Hq in Hpe).
  wp_step. apply get_fresh_port; [done|done|by eexists| |].
  { intros rc Hrc. destruct (Z.ltb_spec rc 0); [|lia]. by wp_step. }
  intros port w1 F. pose proof (fp_port _ _ _ _ F) as Hp. destruct (Z.ltb_spec port 0); [lia|]. pose proof (fp_inv _ _ _ _ F) as Hw1.
  destruct (chan_inv _ _ _ _ (fp_chan _ _ _ _ F)) as (x1 & Hx1 & Hc). pose proof (wi_dom _ Hw1 cur x1 Hx1) as Hok1. pose proof Hok1 as [Hb1 Hv1 Hp1].
  assert (pirqs x1 = pirqs x) as Eps.
  { destruct (fp_dom _ _ _ _ F) as (x' & m & Hx' & ->). rewrite upd_lookup in Hx1. injection Hx1 as <-. assert (x' = x) as -> by congruence. done. }
  assert (~ dying w1 cur) as Hal by apply F.
  assert (forall x', dom_ok (length (xen_consumers w1)) x' -> (forall q, link_of (chn_at x' q) = link_of (chn_at x1 q)) -> is_dying x' = is_dying x1 -> word x' = word x1 ->
    (forall q c, chn_at x1 q = Some c -> is_Some (chn_at x' q)) -> winv (upd cur x' w1) /\ stable w (upd cur x' w1)) as Hfin.
  { intros x' Hok' Hl Ed Ew Hch. split; [by eapply winv_upd|]. eapply stable_trans; [apply F|]. apply (upd_stable w1 cur x1); try done. intros q c Hq.
    destruct (Hch q c Hq) as [c' Hc']. exists c'. split; [done|]. intros Hd. destruct Hal. by exists x1. }
  wp_step. wp_step. destruct (bool_decide (pirqs x !! pirq = None) && negb (pirq_alloc_ok w1)); [wp_step; split; apply F|].
  wp_step. eapply wp_mod_dom; [done|]. fold (upd cur (set_pirqs (<[pirq := port]> (pirqs x1)) x1) w1). set (x2 := set_pirqs _ x1). cbv zeta.
  destruct (negb ((if negb (is_hvm x) then pirq_bind_rc cur pirq else 0) =? 0)).
  { wp_step. eapply wp_mod_dom; [apply upd_lookup|]. wp_step. set (x3 := set_pirqs _ x2). fold (upd cur x3 (upd cur x2 w1)). rewrite upd_upd.
    apply Hfin; try done. split; [by apply (base_ok_same _ x1)|exact Hv1|]. simpl. rewrite insert_insert_eq. apply pirq_ok_unset; [exact Hp1|]. by rewrite Eps. }
  wp_step. eapply wp_mono; [eapply (bind_link_spec cur pirq port x1 w1 (fun _ w' => winv w' /\ stable w w')); [done|done|done|lia|by rewrite Eps|exact Hfin]|].
  intros [] w2 Hl. wp_step. eapply wp_mono; [exact Hl|]. intros [] w3 Hend.
  wp_step. destruct (is_hvm x && pirq_is_mapped cur pirq); cbn [when].
  - apply wp_request. wp_step. destruct Hend as [A B]. split; [eapply winv_still; [apply still_request|done]|].
    eapply stable_trans; [done|apply still_stable, still_request].
  - wp_step. by wp_step.
Qed.
End Ops.
