(* ===== verification/EvtchnClose.v ===== *)
(** * Event channels: closing

    A channel is closed in one or two passes; domains are destroyed by closing all. *)

From S2P Require Import Prelude.
From S2P Require Import Xen.
From S2P Require Import Evtchn.
From S2P Require Import EvtchnFacts.
From S2P Require Import EvtchnOps.
From S2P Require Import EvtchnBind.
From S2P Require Import EvtchnPirq.

(** The channel [p] of [d] is free; the other channels of dying domains are as before. *)
Definition freed (w : eworld) (d p : Z) : Prop := exists c, chan w d p = Some c /\ state c = ECS_FREE.

Definition closed_chn (c : evtchn) : evtchn := Evtchn ECS_FREE (xen_consumer c) 0.

Lemma closed_kin c : kin c (closed_chn c).
Proof. split; [by left|by left]. Qed.

(** The pending bit is cleared and the channel written. *)
Lemma close_chn_spec d p x c w (Q : unit -> eworld -> Prop) :
  doms w !! d = Some x -> chn_at x p = Some c ->
  (forall w1 x1, still w w1 -> w1 = upd d x1 w -> quiet x x1 -> Q tt (upd d (put_chn p (closed_chn c) x1) w1)) -> wp no_error (close_chn d p) Q w.
Proof.
  intros Hx Hc HQ. unfold close_chn. wp_step. eapply wp_mod_dom; [done|]. set (x1 := set_pending _ x). fold (upd d x1 w).
  eapply wp_mod_chn; [apply upd_lookup|exact Hc|]. assert (quiet x x1) as Hq by by split. apply HQ; [|done|done]. unfold upd. by still_step.
Qed.

(** A channel without consumer that is neither an interrupt nor a link becomes free. *)
Lemma close_plain d p c w (Q : unit -> eworld -> Prop) :
  winv w -> chan w d p = Some c -> xen_consumer c = 0 -> p <> 0 -> virq_of c = None -> pirq_of c = None -> link_of (Some c) = None ->
  (forall w', winv w' -> stable w w' -> freed w' d p -> Q tt w') -> wp no_error (close_chn d p) Q w.
Proof.
  intros Hw Hch Hcons Hp0 V P L HQ. destruct (chan_inv _ _ _ _ Hch) as (x & Hx & Hc). eapply close_chn_spec; [done|done|]. intros w1 x1 S1 E1 Hq1.
  pose proof (winv_still _ _ S1 Hw) as Hw1. assert (chan w1 d p = Some c) as Hch1 by by rewrite (still_chan w w1).
  assert (doms w1 !! d = Some x1) as Hx1 by (rewrite E1; apply upd_lookup).
  assert (upd d (put_chn p (closed_chn c) x1) w1 = set_chan d p (closed_chn c) w1) as -> by (unfold set_chan; by rewrite Hx1).
  assert (winv (set_chan d p (closed_chn c) w1)) as Hw2.
  { eapply winv_set_chan; try done. intros x2 Hx2. split; simpl; [by eapply vcpu0|done| |done]. lia. }
  apply HQ; [done| |].
  - eapply stable_trans; [by apply still_stable|]. eapply set_chan_stable; [by apply winv_local|done|]. intros _. apply closed_kin.
  - exists (closed_chn c). split; [|done]. rewrite (chan_set_chan w1 d p c); [by rewrite decide_True|by apply winv_local|done].
Qed.

(** ** Closing a link *)

Lemma winv_unbind w d p c d2 p2 c2 k2 :
  winv w -> chan w d p = Some c -> state c = ECS_INTERDOMAIN d2 p2 -> chan w d2 p2 = Some c2 -> k2 = set_state (ECS_UNBOUND d) c2 -> p2 <> 0 ->
  local (set_chan d2 p2 k2 w) /\ stable w (set_chan d2 p2 k2 w) /\
  forall e q, chan (set_chan d2 p2 k2 w) e q = if decide (e = d2 /\ q = p2) then Some k2 else chan w e q.
Proof.
  intros Hw Hc Hs Hc2 -> Hp2. apply winv_local in Hw as [Hl Hk]. assert (link w d p = Some (d2, p2)) as Hlk by (rewrite link_chan, Hc; simpl; by rewrite Hs).
  apply Hk in Hlk. rewrite link_chan, Hc2 in Hlk. simpl in Hlk. destruct (state c2) as [| | |rd rp| | |] eqn:Hs2; try done. injection Hlk as -> ->.
  destruct (local_chan _ _ _ _ Hl Hc2) as (x2 & Hx2 & _ & [C1 C2 C3 C4] & _). split_and!.
  - eapply local_set_chan; [done|done|unfold virq_of; simpl; by rewrite Hs2|unfold pirq_of; simpl; by rewrite Hs2|]. intros x Hx.
    assert (x = x2) as -> by congruence. split; simpl; try done.
  - eapply set_chan_stable; [done|done|]. intros _. split; [right|by left]. simpl. by rewrite Hs2.
  - intros e q. by apply (chan_set_chan w d2 p2 c2).
Qed.

Lemma link_nonzero w d p d2 p2 c : winv w -> chan w d p = Some c -> state c = ECS_INTERDOMAIN d2 p2 ->
  p <> 0 /\ p2 <> 0 /\ exists c2 x2, doms w !! d2 = Some x2 /\ chn_at x2 p2 = Some c2 /\ state c2 = ECS_INTERDOMAIN d p.
Proof.
  intros Hw Hc Hs. apply winv_local in Hw as [Hl Hk]. assert (link w d p = Some (d2, p2)) as Hlk by (rewrite link_chan, Hc; simpl; by rewrite Hs).
  apply Hk in Hlk. rewrite link_chan in Hlk. destruct (chan w d2 p2) as [c2|] eqn:Hc2; [|done]. simpl in Hlk.
  destruct (state c2) as [| | |rd rp| | |] eqn:Hs2; try done. injection Hlk as -> ->.
  destruct (local_chan _ _ _ _ Hl Hc) as (x & _ & _ & [_ _ _ Z1] & _). destruct (local_chan _ _ _ _ Hl Hc2) as (x2 & Hx2 & Hc2' & [_ _ _ Z2] & _).
  split_and!; [intros E; specialize (Z1 E); congruence|intros E; specialize (Z2 E); congruence|]. by exists c2, x2.
Qed.

Lemma close_link_spec d1 p1 c d2 p2 w (Q : unit -> eworld -> Prop) :
  winv w -> chan w d1 p1 = Some c -> xen_consumer c = 0 -> state c = ECS_INTERDOMAIN d2 p2 ->
  (forall w', winv w' -> stable w w' -> freed w' d1 p1 -> Q tt w') -> wp no_error (close_remote d1 d2 p2 ;;; close_chn d1 p1) Q w.
Proof.
  intros Hw Hc Hcons Hs HQ. destruct (link_nonzero _ _ _ _ _ _ Hw Hc Hs) as (Hp1 & Hp2 & c2 & x2 & Hx2 & Hc2 & Hs2).
  assert (chan w d2 p2 = Some c2) as Hch2 by by rewrite (chan_dom d2 x2 w p2 Hx2).
  destruct (winv_unbind w d1 p1 c d2 p2 c2 _ Hw Hc Hs Hch2 eq_refl Hp2) as (Hl1 & S1 & Hat). set (k2 := set_state (ECS_UNBOUND d1) c2) in *.
  unfold close_remote. wp_step. wp_step. eapply wp_get_dom; [done|]. destruct (chn_at_valid _ _ _ Hc2) as [-> _]. wp_step. wp_step. wp_step.
  eapply wp_get_chan; [done|]. rewrite Hs2, Z.eqb_refl. eapply wp_mod_chan; [done|]. fold k2. set (w1 := set_chan d2 p2 k2 w) in *.
  assert (exists k1, chan w1 d1 p1 = Some k1 /\ xen_consumer k1 = 0 /\ virq_of k1 = None /\ pirq_of k1 = None) as (k1 & Hk1 & Ek1 & V1 & P1).
  { rewrite Hat. case_decide as E; [|exists c; unfold virq_of, pirq_of; by rewrite Hs]. destruct E as [-> ->]. assert (c2 = c) as -> by congruence. by exists k2. }
  destruct (chan_inv _ _ _ _ Hk1) as (x1 & Hx1 & Hc1). eapply close_chn_spec; [done|done|]. intros w2 x3 S2 E2 Hq2.
  assert (doms w2 !! d1 = Some x3) as Hx3 by (rewrite E2; apply upd_lookup).
  assert (upd d1 (put_chn p1 (closed_chn k1) x3) w2 = set_chan d1 p1 (closed_chn k1) w2) as -> by (unfold set_chan; by rewrite Hx3).
  assert (local w2) as Hl2.
  { destruct Hl1 as [A B]. split; [|by rewrite (sl_consumers _ _ S2)]. intros d x Hx. pose proof (sl_doms _ _ S2 d) as H. rewrite Hx in H.
    inversion H as [y y' Hq Ey Ey'|]; subst y'. rewrite (sl_consumers _ _ S2). eapply dom_ok_quiet; [done|]. by apply (A d). }
  assert (chan w2 d1 p1 = Some k1) as Hk2 by by rewrite (still_chan w1 w2).
  assert (forall e q, chan (set_chan d1 p1 (closed_chn k1) w2) e q = if decide (e = d1 /\ q = p1) then Some (closed_chn k1) else chan w1 e q) as Hat2.
  { intros e q. rewrite (chan_set_chan w2 d1 p1 k1 _ e q Hl2 Hk2). case_decide; [done|]. by apply still_chan. }
  apply HQ.
  - apply winv_local. split.
    + eapply local_set_chan; try done. intros x Hx. pose proof (lo_dom _ Hl2 d1 x Hx) as Hok. split; simpl; [apply Hok|done|lia|done].
    + apply winv_local in Hw as [Hl Hk]. assert (link w d1 p1 = Some (d2, p2)) as Hlk by (rewrite link_chan, Hc; simpl; by rewrite Hs).
      assert (forall e q, link (set_chan d1 p1 (closed_chn k1) w2) e q = if decide ((e = d1 /\ q = p1) \/ (e = d2 /\ q = p2)) then None else link w e q) as El.
      { intros e q. rewrite !link_chan, Hat2, Hat. destruct (decide (e = d1 /\ q = p1)); [by rewrite decide_True by tauto|].
        destruct (decide (e = d2 /\ q = p2)); [by rewrite decide_True by tauto|]. by rewrite decide_False by tauto. }
      intros e q e2 q2. rewrite !El. case_decide as D1; [done|]. intros Hlq. pose proof (Hk _ _ _ _ Hlq) as Hback. rewrite decide_False; [done|].
      intros [[-> ->]|[-> ->]]; apply D1; [rewrite Hlk in Hback; right; by simplify_eq|]. rewrite (Hk _ _ _ _ Hlk) in Hback. left. by simplify_eq.
  - eapply stable_trans; [exact S1|]. eapply stable_trans; [by apply still_stable|]. eapply set_chan_stable; [done|done|]. intros _. apply closed_kin.
  - exists (closed_chn k1). by rewrite Hat2, decide_True.
Qed.

(** ** Closing an interrupt *)

(** What remains once the tables of the interrupt no longer name the channel [p] of [x0]. *)
Lemma close_last d p x0 x c c0 w w0 :
  winv w0 -> doms w0 !! d = Some x0 -> chn_at x0 p = Some c0 -> xen_consumer c = 0 -> p <> 0 ->
  base_ok (length (xen_consumers w0)) x -> chn_at x p = Some c ->
  virq_ok (fun q => if decide (q = p) then None else virq_view x q) (vcpus x) ->
  pirq_ok (minus p (pirq_view x)) (vcpus x) (pirqs x) ->
  (forall q, q <> p -> link_of (chn_at x q) = link_of (chn_at x0 q)) -> link_of (Some c0) = None ->
  is_dying x = is_dying x0 -> word x = word x0 ->
  (forall q k, q <> p -> chn_at x0 q = Some k -> exists k', chn_at x q = Some k' /\ kin k k') -> xen_consumer c0 = 0 ->
  w = upd d x w0 -> wp no_error (close_chn d p) (fun _ w' => winv w' /\ stable w0 w' /\ freed w' d p) w.
Proof.
  intros Hw0 Hx0 Hc0 Hcons Hp0 Hb Hc Hv Hp Hl Hl0 Ed Ew Hk Hcons0 ->. eapply close_chn_spec; [apply upd_lookup|done|]. intros w1 x1 S1 E1 Hq. subst w1. rewrite !upd_upd.
  pose proof (base_ok_quiet _ _ _ Hq Hb) as Hb1. assert (chn_at x1 p = Some c) as Hc1 by by rewrite (quiet_chn_at x x1).
  destruct (put_views x1 p c (closed_chn c) (bo_ports _ _ Hb1) Hc1) as [V P]. destruct (chn_at_valid _ _ _ Hc1) as [Hval _].
  pose proof (fun q => put_chn_at x1 p (closed_chn c) q (bo_ports _ _ Hb1) Hval) as Hat.
  destruct (core_split _ _ (q_vcpus _ _ Hq)) as [Ec1 Ec2].
  assert (base_ok (length (xen_consumers w0)) (put_chn p (closed_chn c) x1)) as Hb2.
  { eapply base_ok_put; [done|done|]. split; simpl; [apply Hb1|done|lia|done]. }
  destruct (put_chn_rest x1 p (closed_chn c)) as [m Em]. set (x2 := put_chn p (closed_chn c) x1) in *.
  assert (forall q, q <> p -> chn_at x2 q = chn_at x q) as Hat' by (intros q Hqp; rewrite Hat, decide_False by done; by apply quiet_chn_at).
  split_and!.
  - eapply winv_upd; [done|done| |].
    + split; [done| |].
      * rewrite Em at 2. simpl. eapply virq_ok_ext; [|exact Ec1|exact Hv]. intros q. rewrite V. case_decide; [done|]. unfold virq_view. by rewrite (quiet_chn_at x x1).
      * rewrite Em at 2 3. simpl. rewrite (q_pirqs _ _ Hq). eapply pirq_ok_ext; [|exact Ec2|exact Hp]. intros q. rewrite P. unfold minus. case_decide; [done|].
        unfold pirq_view. by rewrite (quiet_chn_at x x1).
    + intros q. rewrite Hat. case_decide as E; [subst; by rewrite Hc0, Hl0|]. rewrite (quiet_chn_at x x1) by done. by apply Hl.
  - apply (upd_stable w0 d x0); [done|rewrite Em; simpl; rewrite (q_dying _ _ Hq); done|rewrite Em; simpl; rewrite (q_word _ _ Hq); done|].
    intros q k Hqk. destruct (decide (q = p)) as [->|Hqp].
    + exists (closed_chn c). rewrite Hat, decide_True by done. split; [done|]. intros _. split; [by left|]. right. exact Hcons.
    + destruct (Hk q k Hqp Hqk) as (k' & Hk' & Hkin). exists k'. by rewrite Hat'.
  - exists (closed_chn c). rewrite chan_upd, decide_True, Hat, decide_True by done. done.
Qed.

Lemma close_virq_spec d p x c i w :
  winv w -> doms w !! d = Some x -> chn_at x p = Some c -> xen_consumer c = 0 -> state c = ECS_VIRQ i ->
  wp no_error (mod_dom d (fun x => set_vcpus (close_virq p i <$> vcpus x) x) ;;; close_chn d p)
    (fun _ w' => winv w' /\ stable w w' /\ freed w' d p) w.
Proof.
  intros Hw Hx Hc Hcons Hs. pose proof (wi_dom _ Hw d x Hx) as [Hb Hv Hp]. wp_step. eapply wp_mod_dom; [done|].
  assert (virq_view x p = Some (i, notify_vcpu_id c)) as Hvp by (unfold virq_view; by rewrite Hc, Hs).
  destruct (vo_back _ _ Hv _ _ _ Hvp) as [Hp0 _]. assert (pirq_view x p = None) as Hpp by (unfold pirq_view; by rewrite Hc, Hs).
  eapply (close_last d p x (set_vcpus (close_virq p i <$> vcpus x) x) c c _ w); try done.
  - apply base_ok_vcpus; [done|]. intros v. apply close_virq_some.
  - simpl. eapply virq_ok_close; [exact Hv|exact Hvp|by rewrite decide_True|]. intros q Hq. rewrite decide_False by done. done.
  - simpl. eapply pirq_ok_ext; [|by apply close_virq_head|exact Hp]. intros q. unfold minus. case_decide as E; [by subst|done].
  - simpl. by rewrite Hs.
  - intros q k Hq Hk. exists k. split; [exact Hk|apply kin_refl].
Qed.

Section Ops.
Context `{XenEnv}.

Lemma close_pirq_spec d p x c irq nx pv w :
  winv w -> doms w !! d = Some x -> chn_at x p = Some c -> xen_consumer c = 0 -> state c = ECS_PIRQ irq nx pv ->
  wp no_error (close_pirq d p irq c ;;; close_chn d p) (fun _ w' => winv w' /\ stable w w' /\ freed w' d p) w.
Proof.
  intros Hw Hx Hc Hcons Hs. pose proof (wi_dom _ Hw d x Hx) as Hok. pose proof Hok as [Hb Hv Hp].
  assert (pirq_view x p = Some (irq, nx, pv, notify_vcpu_id c)) as Hpv by (unfold pirq_view; by rewrite Hc, Hs).
  destruct (pk_back _ _ _ Hp _ _ _ _ _ Hpv) as (Hp0 & Hirq & [y Hy]). destruct (pirq_neighbours _ _ _ _ _ _ _ _ Hp Hpv) as (N1 & N2 & N3).
  unfold close_pirq. wp_step. wp_step. eapply wp_get_dom; [done|]. rewrite Hirq. wp_step.
  assert (forall w1, doms w1 = doms w -> xen_consumers w1 = xen_consumers w -> winv w1 -> stable w w1 ->
    wp no_error (mod_dom d (fun x => set_pirqs (<[irq := 0]> (pirqs x)) x) ;;; unlink_pirq_port d p (notify_vcpu_id c) ;;;
      when (is_hvm x && pirq_is_mapped d irq) (request (UnmapEmuirq d irq)))
      (fun _ w' => wp no_error (close_chn d p) (fun _ w' => winv w' /\ stable w w' /\ freed w' d p) w') w1) as Hmain.
  { intros w1 Ed Ec Hw1 S1. assert (doms w1 !! d = Some x) as Hx1 by by rewrite Ed. wp_step. eapply wp_mod_dom; [done|]. set (x1 := set_pirqs _ x). fold (upd d x1 w1).
    assert (inter (length (xen_consumers w1)) x x1 (pirq_view x)) as Hi1.
    { destruct (inter_refl (length (xen_consumers w1)) x) as [I1 I2 I3 I4 I5 I6 I7]; [by rewrite Ec|]. split; try done. by apply (base_ok_same _ x). }
    wp_step. eapply (unlink_spec _ x x1); [done|apply upd_lookup|done|done|done|done|exact Hy|]. intros x2 Hi2 Ev2 Ep2. rewrite upd_upd.
    destruct (in_chan _ _ _ _ Hi2 p c Hc) as (c2 & Hc2 & Ec2 & Ek2). rewrite Hs in Ek2. destruct (state c2) as [| | | |irq2 nx2 pv2| |] eqn:Hs2; try done. simpl in Ek2. subst irq2.
    pose proof (pirq_ok_unlink _ _ _ _ _ _ _ _ y Hp Hpv Hy) as Hun.
    assert (forall rq, wp no_error (close_chn d p) (fun _ w' => winv w' /\ stable w w' /\ freed w' d p) (EWorld (doms (upd d x2 w1)) (xen_consumers w1) (global_virq_handlers w1) rq)) as Hlast.
    { intros rq. set (w2 := EWorld (doms w1) (xen_consumers w1) (global_virq_handlers w1) rq).
      assert (still w1 w2) as S2 by (split; [|done|done]; intros e; simpl; destruct (doms w1 !! e); constructor; apply domain_quiet_refl).
      eapply wp_mono; [eapply (close_last d p x x2 c2 c _ w2)|]; try done.
      - by eapply winv_still.
      - congruence.
      - apply Hi2.
      - eapply virq_ok_ext; [|reflexivity|apply (in_virq _ _ _ _ Hi2)]. intros q. cbv beta. destruct (decide (q = p)) as [->|]; [|done]. unfold virq_view. by rewrite Hc2, Hs2.
      - rewrite Ev2, Ep2. eapply pirq_ok_ext; [|reflexivity|exact Hun]. intros q. unfold minus. destruct (decide (q = p)); [done|]. apply (in_view _ _ _ _ Hi2).
      - intros q Hq. apply (in_links _ _ _ _ Hi2).
      - simpl. by rewrite Hs.
      - apply Hi2.
      - apply Hi2.
      - intros q k Hq Hk. destruct (in_chan _ _ _ _ Hi2 q k Hk) as (k' & Hk' & E1 & E2). exists k'. split; [done|]. split; [by right|by left].
      - intros [] w3 (A & B & C). split_and!; [done| |done]. eapply stable_trans; [exact S1|]. eapply stable_trans; [by apply still_stable|done]. }
    destruct (is_hvm x && pirq_is_mapped d irq); cbn [when].
    - apply wp_request. apply Hlast.
    - wp_step. replace (upd d x2 w1) with (EWorld (doms (upd d x2 w1)) (xen_consumers w1) (global_virq_handlers w1) (requests w1)) by done. apply Hlast. }
  destruct (is_hvm x); cbn [negb when].
  - wp_step. by apply (Hmain w); [..|apply stable_refl].
  - apply wp_request. apply Hmain; [done|done|eapply winv_still; [apply still_request|done]|apply still_stable, still_request].
Qed.

Lemma wp_seq2 {A} (a b : M eworld unit) (k : M eworld A) (Q : A -> eworld -> Prop) w :
  wp no_error (a ;;; b) (fun _ w' => wp no_error k Q w') w -> wp no_error (a ;;; b ;;; k) Q w.
Proof. unfold wp, bind. destruct (a w) as [[[] w1]|]; [|done]. by destruct (b w1) as [[[] w2]|]. Qed.

(** Why a pass refuses to close. *)
Definition refused (w : eworld) (d1 p1 : Z) (d2 : option Z) : Prop :=
  forall c, chan w d1 p1 = Some c -> xen_consumer c = 0 ->
  state c = ECS_FREE \/ state c = ECS_RESERVED \/ exists rd p2 e, state c = ECS_INTERDOMAIN rd p2 /\ d2 = Some e /\ e <> rd.

Definition pass_post (w : eworld) (d1 p1 : Z) (d2 : option Z) (r : close_result) (w' : eworld) : Prop :=
  winv w' /\ stable w w' /\
  match r with
  | Closed rc => (rc = 0 /\ freed w' d1 p1) \/ (rc = - EINVAL /\ w' = w /\ refused w d1 p1 d2)
  | Again rd => d2 = None /\ still w w' /\ exists c p2, chan w d1 p1 = Some c /\ xen_consumer c = 0 /\ state c = ECS_INTERDOMAIN rd p2
  end.

Lemma close_pass_spec d1 p1 d2 w :
  winv w -> is_Some (doms w !! d1) -> wp no_error (close_pass d1 p1 d2) (pass_post w d1 p1 d2) w.
Proof.
  intros Hw [x Hx]. pose proof (wi_dom _ Hw d1 x Hx) as Hok. unfold close_pass. wp_step. eapply wp_get_dom; [done|].
  assert (refused w d1 p1 d2 -> pass_post w d1 p1 d2 (Closed (- EINVAL)) w) as Hno by (intros Hr; split_and!; [done|apply stable_refl|by right]).
  destruct (port_is_valid x p1) eqn:Hval; cbn [negb].
  2:{ wp_step. apply Hno. intros c Hc. rewrite (chan_dom d1 x w p1 Hx) in Hc. apply chn_at_valid in Hc as [Hc _]. congruence. }
  apply (valid_chn_at x p1 (bo_ports _ _ (do_base _ _ Hok))) in Hval as [c Hc]. assert (chan w d1 p1 = Some c) as Hch by by rewrite (chan_dom d1 x w p1 Hx).
  wp_step. eapply wp_get_chan; [done|]. unfold consumer_is_xen. destruct (Z.eqb_spec (xen_consumer c) 0) as [Hcons|Hcons]; cbn [negb].
  2:{ wp_step. apply Hno. intros c' Hc' ?. congruence. }
  assert (forall s, state c = s -> s = ECS_FREE \/ s = ECS_RESERVED -> pass_post w d1 p1 d2 (Closed (- EINVAL)) w) as Hno'.
  { intros s Es Hs. apply Hno. intros c' Hc' _. assert (c' = c) as -> by congruence. rewrite Es. tauto. }
  assert (forall w', winv w' /\ stable w w' /\ freed w' d1 p1 -> pass_post w d1 p1 d2 (Closed 0) w') as Hyes by (intros w' (A & B & C); split_and!; auto).
  assert (p1 = 0 -> state c = ECS_RESERVED) as Hz by apply (bo_chans _ _ (do_base _ _ Hok) p1 c Hc).
  destruct (state c) as [| |r|rd p2|irq nx pv|i|] eqn:Hs.
  - wp_step. by eapply Hno'; [|left].
  - wp_step. by eapply Hno'; [|right].
  - wp_step. eapply close_plain; try done; [intros E; specialize (Hz E); done|unfold virq_of; by rewrite Hs|unfold pirq_of; by rewrite Hs|simpl; by rewrite Hs|].
    intros w' A B C. wp_step. by apply Hyes.
  - assert (forall w0, doms w0 = doms w -> winv w0 -> stable w w0 -> forall Q : unit -> eworld -> Prop,
      (forall w', winv w' /\ stable w w' /\ freed w' d1 p1 -> Q tt w') -> wp no_error (close_remote d1 rd p2 ;;; close_chn d1 p1) Q w0) as Hlink.
    { intros w0 Ed Hw0 S0 Q HQ. eapply close_link_spec; [done|unfold chan; rewrite Ed; exact Hch|done|done|]. intros w' A B C. apply HQ. split_and!; [done|by eapply stable_trans|done]. }
    destruct d2 as [e|].
    + destruct (Z.eqb_spec e rd) as [->|Hne]; cbn [negb].
      * apply wp_seq2. apply (Hlink w); [done|done|apply stable_refl|]. intros w' H'. wp_step. by apply Hyes.
      * wp_step. apply Hno. intros c' Hc' _. assert (c' = c) as -> by congruence. right. right. by exists rd, p2, e.
    + wp_step. apply wp_request. set (w0 := EWorld _ _ _ _). pose proof (still_request w (GetDomain rd)) as S0. fold w0 in S0.
      destruct (dom_addr rd <? dom_addr d1).
      * wp_step. split_and!; [by eapply winv_still|by apply still_stable|done|done|]. by exists c, p2.
      * apply wp_seq2. apply (Hlink w0); [done|by eapply winv_still|by apply still_stable|]. intros w' (A & B & C). wp_step. apply wp_request. wp_step.
        apply Hyes. pose proof (still_request w' (PutDomain rd)) as S1. split_and!; [by eapply winv_still|eapply stable_trans; [done|by apply still_stable]|].
        destruct C as (k & Hk & Hks). exists k. by rewrite (still_chan _ _ _ _ S1).
  - apply wp_seq2. eapply wp_mono; [by eapply close_pirq_spec|]. intros [] w' H'. wp_step. by apply Hyes.
  - apply wp_seq2. eapply wp_mono; [by eapply close_virq_spec|]. intros [] w' H'. wp_step. by apply Hyes.
  - wp_step. eapply close_plain; try done; [intros E; specialize (Hz E); done|unfold virq_of; by rewrite Hs|unfold pirq_of; by rewrite Hs|simpl; by rewrite Hs|].
    intros w' A B C. wp_step. by apply Hyes.
Qed.

Hypothesis others_ok : forall w, winv w -> winv (others w) /\ stable w (others w).

(** Closing keeps the invariant; a channel of a dying domain is gone afterwards. *)
Lemma close_spec d1 p1 w :
  winv w -> is_Some (doms w !! d1) ->
  wp no_error (__evtchn_close d1 p1) (fun rc w' => winv w' /\ stable w w' /\ (rc = 0 -> freed w' d1 p1) /\
    (dying w d1 -> forall c, chan w d1 p1 = Some c -> xen_consumer c = 0 -> state c = ECS_RESERVED \/ freed w' d1 p1)) w.
Proof using others_ok.
  intros Hw Hd. unfold __evtchn_close. wp_step. eapply wp_mono; [by apply close_pass_spec|]. intros r w1 (Hw1 & S1 & Hr). destruct r as [rc|rd].
  - wp_step. split_and!; [done|done| |].
    + intros ->. by destruct Hr as [[_ ?]|[? _]].
    + intros Hdy c Hc Hcons. destruct Hr as [[_ ?]|(_ & -> & Href)]; [by right|]. destruct (Href c Hc Hcons) as [E|[E|(? & ? & ? & _ & ? & _)]]; [right; by exists c|by left|done].
  - destruct Hr as (_ & St & c & p2 & Hc & Hcons & Hs). wp_step. wp_step. destruct (others_ok w1 Hw1) as [Hw2 S2].
    assert (stable w (others w1)) as S12 by by eapply stable_trans. destruct Hd as [x Hx]. destruct (sb_dom _ _ S12 d1 x Hx) as (x2 & Hx2 & _).
    wp_step. eapply wp_mono; [apply (close_pass_spec d1 p1 (Some rd) (others w1)); [done|by eexists]|]. intros r w3 (Hw3 & S3 & Hr).
    wp_step. apply wp_request. set (w4 := EWorld _ _ _ _). pose proof (still_request w3 (PutDomain rd)) as S4. fold w4 in S4.
    assert (winv w4 /\ stable w w4) as [Hw4 S14].
    { split; [by eapply winv_still|]. eapply stable_trans; [done|]. eapply stable_trans; [done|]. by apply still_stable. }
    assert (freed w3 d1 p1 -> freed w4 d1 p1) as Hf by (intros (k & Hk & Hks); exists k; by rewrite (still_chan _ _ _ _ S4)).
    destruct r as [rc|]; [|by destruct Hr]. wp_step. split_and!; [done|done| |].
    + intros ->. destruct Hr as [[_ ?]|[? _]]; [by apply Hf|done].
    + intros Hdy c' Hc' _. assert (c' = c) as -> by congruence. right. apply Hf.
      destruct Hr as [[_ ?]|(_ & -> & Href)]; [done|]. destruct (sb_chan _ _ S12 d1 p1 c Hc) as (c2 & Hc2 & Hk). destruct (Hk Hdy) as [[E|E] Ec].
      * by exists c2.
      * rewrite Hs in E. destruct (Href c2 Hc2) as [E2|[E2|(rd' & p2' & e & E2 & [= <-] & Hne)]]; [destruct Ec; congruence|by exists c2|by rewrite E2 in E|].
        rewrite E2 in E. by simpl in E.
Qed.
End Ops.
