(* ===== verification/EvtchnSafe.v ===== *)
(** * Event channels: the hypercall

    No call of a guest crashes the hypervisor or breaks the invariant; domains can be
    destroyed; events arrive. *)

From S2P Require Import Prelude.
From S2P Require Import Xen.
From S2P Require Import Evtchn.
From S2P Require Import EvtchnFacts.
From S2P Require Import EvtchnOps.
From S2P Require Import EvtchnBind.
From S2P Require Import EvtchnPirq.
From S2P Require Import EvtchnClose.

(** ** Changing the virtual processor of a channel *)

Lemma virq_ok_notify view view' vs p i n n' :
  virq_ok view vs -> view p = Some (i, n) -> virq_is_global i = true -> view' p = Some (i, n') -> (forall q, q <> p -> view' q = view q) -> virq_ok view' vs.
Proof.
  intros [H1 H2] Hp Hg Hp' Ho. split.
  - intros v y j Hy Hj. destruct (H1 v y j Hy Hj) as (Hr & m & Hm & Hv). split; [done|]. destruct (decide (virq_port y j = p)) as [E|E].
    + rewrite E in *. assert (j = i) as -> by congruence. exists n'. split; [done|]. by rewrite Hg in *.
    + exists m. by rewrite Ho.
  - intros q j m. destruct (decide (q = p)) as [->|E]; [rewrite Hp'; intros [= <- <-]; by apply (H2 p i n)|rewrite Ho by done; apply H2].
Qed.

Lemma rebind_virq_safe d p x c i v w :
  winv w -> doms w !! d = Some x -> chn_at x p = Some c -> state c = ECS_VIRQ i -> virq_is_global i = true -> is_Some (vcpus x !! v) -> safe (mod_chn d p (set_notify v)) w.
Proof.
  intros Hw Hx Hc Hs Hg Hv. pose proof (wi_dom _ Hw d x Hx) as [Hb Hvi Hp]. pose proof (bo_chans _ _ Hb p c Hc) as [C1 C2 C3 C4].
  unfold safe. eapply wp_mod_chn; [done|done|]. set (c' := set_notify v c). fold (upd d (put_chn p c' x) w).
  destruct (put_views x p c c' (bo_ports _ _ Hb) Hc) as [V P]. destruct (chn_at_valid _ _ _ Hc) as [Hval _].
  pose proof (fun q => put_chn_at x p c' q (bo_ports _ _ Hb) Hval) as Hat.
  assert (base_ok (length (xen_consumers w)) (put_chn p c' x)) as Hb' by (eapply base_ok_put; [done|done|]; split; simpl; try done; by rewrite Hs).
  destruct (put_chn_rest x p c') as [m Em]. split.
  - eapply winv_upd; [done|done| |].
    + split; [done| |].
      * rewrite Em at 2. simpl. eapply (virq_ok_notify (virq_view x) _ _ p i (notify_vcpu_id c) v); [done|unfold virq_view; by rewrite Hc, Hs|done| |].
        -- rewrite V, decide_True by done. unfold virq_of. simpl. by rewrite Hs.
        -- intros q Hq. by rewrite V, decide_False.
      * rewrite Em at 2 3. simpl. eapply pirq_ok_ext; [|done|exact Hp]. intros q. rewrite P. destruct (decide (q = p)) as [->|]; [|done].
        unfold pirq_of, pirq_view. simpl. by rewrite Hc, Hs.
    + intros q. rewrite Hat. destruct (decide (q = p)) as [->|]; [|done]. rewrite Hc. simpl. done.
  - apply (upd_stable w d x); [done|by rewrite Em|by rewrite Em|]. intros q k Hk. rewrite Hat. destruct (decide (q = p)) as [->|]; [|exists k; split; [done|]; intros _; apply kin_refl].
    assert (k = c) as -> by congruence. exists c'. split; [done|]. intros _. split; [right; apply same_kind_refl|by left].
Qed.

Section Ops.
Context `{XenEnv}.

(** A port bound to a physical interrupt moves from the list of one virtual processor to
    that of another. *)
Lemma rebind_pirq_safe d p x c irq nx pv v w :
  winv w -> doms w !! d = Some x -> chn_at x p = Some c -> state c = ECS_PIRQ irq nx pv -> is_Some (vcpus x !! v) ->
  safe (unlink_pirq_port d p (notify_vcpu_id c) ;;; mod_chn d p (set_notify v) ;;; request (PirqAffinity d irq v) ;;; link_pirq_port d p v) w.
Proof.
  intros Hw Hx Hc Hs Hv. pose proof (wi_dom _ Hw d x Hx) as Hok. pose proof Hok as [Hb Hvi Hp]. set (n := notify_vcpu_id c). set (nc := length (xen_consumers w)).
  assert (pirq_view x p = Some (irq, nx, pv, n)) as Hpv by (unfold pirq_view; by rewrite Hc, Hs).
  destruct (pk_back _ _ _ Hp _ _ _ _ _ Hpv) as (Hp0 & Hirq & [y Hy]). destruct (pirq_neighbours _ _ _ _ _ _ _ _ Hp Hpv) as (N1 & N2 & N3).
  pose proof (pirq_ok_unlink _ _ _ _ _ _ _ _ y Hp Hpv Hy) as Hun.
  unfold safe. wp_step. eapply (unlink_spec nc x x (pirq_view x)); [by apply inter_refl|done|done|done|done|done|done|]. intros x1 Hi1 Ev1 Ep1.
  set (view1 := upd_prev _ nx pv) in *. rewrite <- Ev1 in Hun.
  destruct (upd_links (pirq_view x) pv nx nx pv p) as [(i' & nx0 & pv0 & n' & E & nx1 & pv1 & E1)|[E _]]; [|congruence].
  rewrite Hpv in E. injection E as <- _ _ <-. fold view1 in E1. pose proof E1 as E1'. rewrite <- (in_view _ _ _ _ Hi1) in E1'.
  destruct (pirq_view_chn _ _ _ _ _ _ E1') as (c1 & Hc1 & Hs1 & _).
  assert (forall u, is_Some (vcpus x1 !! u) <-> is_Some (vcpus x !! u)) as Hvs by (intros u; rewrite Ev1; case_decide; [by apply head_some|done]).
  wp_step. eapply wp_mod_chn; [apply upd_lookup|done|]. set (c2 := set_notify v c1). fold (upd d (put_chn p c2 x1) (upd d x1 w)). rewrite upd_upd.
  assert (inter nc x (put_chn p c2 x1) (plus p (irq, nx1, pv1, v) view1)) as Hi2 by (eapply (inter_put nc x x1 view1 p c1 c2); try done; by apply Hvs).
  set (x2 := put_chn p c2 x1) in *. destruct (put_chn_rest x1 p c2) as [m Em]. assert (vcpus x2 = vcpus x1) as Ev2 by (unfold x2; by rewrite Em).
  assert (pirqs x2 = pirqs x) as Ep2 by (unfold x2; rewrite Em; exact Ep1).
  wp_step. apply wp_request. set (wr := EWorld (doms w) (xen_consumers w) (global_virq_handlers w) (requests w ++ [PirqAffinity d irq v])).
  change (EWorld _ _ _ _) with (upd d x2 wr). destruct (proj2 (Hvs v) Hv) as [y1 Hy1].
  pose proof (pirq_head _ _ _ _ _ Hun Hy1) as Hh. unfold minus in Hh.
  assert (pirq_evtchn_head y1 <> p) as Hhp by (intros E; rewrite E in Hh; rewrite decide_True in Hh by done; destruct Hh as [?|[? ?]]; done).
  assert (view1 0 = None) as Hz.
  { destruct (upd_links (pirq_view x) pv nx nx pv 0) as [(? & ? & ? & ? & E & _)|[_ E]]; [congruence|exact E]. }
  eapply (link_spec nc x x2); [exact Hi2|apply upd_lookup|unfold plus; by rewrite decide_True|by rewrite Ev2| | |done|].
  { unfold plus. rewrite decide_False in Hh by done. by rewrite decide_False. }
  { unfold plus. by rewrite decide_False. }
  intros x3 Hi3 Ev3 Ep3. rewrite upd_upd. assert (still w wr) as Sr by apply still_request.
  assert (dom_ok nc x3) as Hok3.
  { eapply inter_done; [exact Hi3|]. rewrite Ev3, Ep3, Ev2, Ep2. eapply pirq_ok_ext; [|reflexivity|].
    2:{ replace (pirqs x) with (<[irq := p]> (<[irq := 0]> (pirqs x))) by (rewrite insert_insert_eq; by apply insert_id).
        apply (pirq_ok_link (minus p view1)); [exact Hun|unfold minus; by rewrite decide_True|done|done|]. intros q. rewrite lookup_insert_eq. by intros [= <-]. }
    intros q. unfold upd_prev, plus, minus. destruct (decide (q = p)); [done|]. done. }
  split.
  - eapply (winv_upd wr d x x3); [by eapply winv_still|done|exact Hok3|]. intros q. apply (in_links _ _ _ _ Hi3).
  - eapply stable_trans; [by apply still_stable|]. apply (upd_stable wr d x); [done|apply Hi3|apply Hi3|]. intros q k Hk.
    destruct (in_chan _ _ _ _ Hi3 q k Hk) as (k' & Hk' & E2 & E3). exists k'. split; [done|]. intros _. split; [by right|by left].
Qed.

Lemma bind_vcpu_safe cur p v w : winv w -> is_Some (doms w !! cur) -> safe (evtchn_bind_vcpu cur p v) w.
Proof.
  intros Hw [x Hx]. assert (winv w /\ stable w w) as Hid by (split; [done|apply stable_refl]). pose proof (wi_dom _ Hw cur x Hx) as Hok.
  unfold evtchn_bind_vcpu, safe. wp_step. eapply wp_get_dom; [done|]. destruct (vcpu_exists x v) eqn:Hv; cbn [negb]; [|by wp_step].
  unfold vcpu_exists in Hv. apply andb_prop in Hv as [_ Hv%bool_decide_eq_true]. destruct (port_is_valid x p) eqn:Hval; cbn [negb]; [|by wp_step].
  apply (valid_chn_at x p (bo_ports _ _ (do_base _ _ Hok))) in Hval as [c Hc]. assert (chan w cur p = Some c) as Hch by by rewrite (chan_dom cur x w p Hx).
  wp_step. eapply wp_get_chan; [done|]. destruct (consumer_is_xen c); [by wp_step|]. pose proof (bo_chans _ _ (do_base _ _ Hok) p c Hc) as [C1 C2 C3 C4].
  assert (forall Q : unit -> eworld -> Prop, state c <> ECS_FREE -> virq_of (set_notify v c) = virq_of c -> pirq_of (set_notify v c) = pirq_of c ->
    (forall w', winv w' /\ stable w w' -> Q tt w') -> wp no_error (mod_chn cur p (set_notify v)) Q w) as Hset.
  { intros Q Hnf V P HQ. eapply wp_mod_chan; [done|]. apply HQ. split.
    - eapply winv_set_chan; try done. intros x' Hx'. assert (x' = x) as -> by congruence. by split.
    - eapply set_chan_stable; [by apply winv_local|done|]. intros _. split; [right; apply same_kind_refl|by left]. }
  destruct (state c) as [| |r|rd p2|irq nx pv|i|] eqn:Hs; try by wp_step.
  - wp_step. apply Hset; [congruence|unfold virq_of; simpl; by rewrite Hs|unfold pirq_of; simpl; by rewrite Hs|]. intros w' Hw'. by wp_step.
  - wp_step. apply Hset; [congruence|unfold virq_of; simpl; by rewrite Hs|unfold pirq_of; simpl; by rewrite Hs|]. intros w' Hw'. by wp_step.
  - destruct (notify_vcpu_id c =? v); [by wp_step|]. pose proof (rebind_pirq_safe cur p x c irq nx pv v w Hw Hx Hc Hs Hv) as Hr. unfold safe, wp, bind in *.
    destruct (unlink_pirq_port _ _ _ w) as [[[] w1]|]; [|done]. destruct (mod_chn _ _ _ w1) as [[[] w2]|]; [|done]. destruct (request _ w2) as [[[] w3]|]; [|done].
    by destruct (link_pirq_port _ _ _ w3) as [[[] w4]|].
  - destruct (virq_is_global i) eqn:Hg; [|by wp_step]. wp_step. eapply wp_mono; [by eapply rebind_virq_safe|]. intros [] w' Hw'. by wp_step.
Qed.

(** ** Sending *)

(** What a send on a channel does. *)
Definition sent (d p : Z) (w w' : eworld) : Prop :=
  match chan w d p with
  | Some c =>
      match state c with
      | ECS_INTERDOMAIN rd rp =>
          exists rc, chan w rd rp = Some rc /\
            (if consumer_is_xen rc then exists fn, XenNotify fn rd (notify_vcpu_id rc) rp ∈ requests w' else delivered rd (notify_vcpu_id rc) rp w w')
      | ECS_IPI => delivered d (notify_vcpu_id c) p w w'
      | _ => True
      end
  | None => True
  end.

Lemma still_safe w w' : winv w -> still w w' -> winv w' /\ stable w w'.
Proof. intros Hw Hs. split; [by eapply winv_still|by apply still_stable]. Qed.

Lemma notify_consumer_spec c d x v p w (Q : unit -> eworld -> Prop) :
  winv w -> doms w !! d = Some x -> is_Some (vcpus x !! v) -> consumer_is_xen c = true -> 0 <= xen_consumer c <= Z.of_nat (length (xen_consumers w)) ->
  (forall w' fn, still w w' -> XenNotify fn d v p ∈ requests w' -> Q tt w') -> wp no_error (xen_notification c d v p) Q w.
Proof.
  intros Hw Hx [y Hy] Hcx Hc HQ. unfold consumer_is_xen in Hcx. apply negb_true_iff, Z.eqb_neq in Hcx.
  destruct (lookup_lt_is_Some_2 (xen_consumers w) (Z.to_nat (xen_consumer c - 1)) ltac:(lia)) as [fn Hfn].
  unfold xen_notification. wp_step. wp_step. wp_step. eapply wp_of_option; [done|]. wp_step. apply wp_request. set (w1 := EWorld _ _ _ _).
  assert (still w w1) as S1 by apply still_request. assert (XenNotify fn d v p ∈ requests w1) as Hin by (simpl; apply elem_of_app; right; by left).
  destruct (fn =? default_fn); cbn [when]; [|wp_step; by eapply HQ]. unfold default_xen_notification_fn. wp_step. eapply wp_get_vcpu; [exact Hx|done|].
  destruct (blocked_in_xen y); cbn [when]; [|wp_step; by eapply HQ]. wp_step. eapply wp_mod_vcpu; [exact Hx|done|]. apply wp_request. eapply (HQ _ fn).
  - eapply still_trans; [exact S1|]. still_step; [exact Hx|]. by eapply quiet_mod_vcpu.
  - simpl. apply elem_of_app. left. exact Hin.
Qed.

Lemma send_spec d p w :
  winv w -> is_Some (doms w !! d) ->
  wp no_error (evtchn_send d p) (fun rc w' => winv w' /\ stable w w' /\ (rc = 0 -> sent d p w w')) w.
Proof.
  intros Hw [x Hx]. pose proof (wi_dom _ Hw d x Hx) as Hok. assert (forall rc, rc <> 0 -> winv w /\ stable w w /\ (rc = 0 -> sent d p w w)) as Hid.
  { intros rc Hrc. split_and!; [done|apply stable_refl|done]. }
  unfold evtchn_send. wp_step. eapply wp_get_dom; [done|]. destruct (port_is_valid x p) eqn:Hval; cbn [negb]; [|wp_step; by apply Hid].
  apply (valid_chn_at x p (bo_ports _ _ (do_base _ _ Hok))) in Hval as [c Hc]. assert (chan w d p = Some c) as Hch by by rewrite (chan_dom d x w p Hx).
  wp_step. eapply wp_get_chan; [done|]. destruct (consumer_is_xen c); [wp_step; by apply Hid|]. destruct (Z.eqb_spec (xsm_send d p) 0); cbn [negb]; [|wp_step; by apply Hid].
  unfold sent. rewrite Hch. pose proof (bo_chans _ _ (do_base _ _ Hok) p c Hc) as [C1 _ _ _]. destruct (state c) as [| |r|rd p2|irq nx pv|i|] eqn:Hs.
  - wp_step. split_and!; [done|apply stable_refl|done].
  - wp_step. split_and!; [done|apply stable_refl|done].
  - wp_step. split_and!; [done|apply stable_refl|done].
  - destruct (link_nonzero _ _ _ _ _ _ Hw Hch Hs) as (_ & _ & c2 & x2 & Hx2 & Hc2 & Hs2). assert (chan w rd p2 = Some c2) as Hch2 by by rewrite (chan_dom rd x2 w p2 Hx2).
    pose proof (wi_dom _ Hw rd x2 Hx2) as Hok2. pose proof (bo_chans _ _ (do_base _ _ Hok2) p2 c2 Hc2) as [D1 _ D3 _].
    wp_step. eapply wp_get_chan; [done|]. wp_step. destruct (consumer_is_xen c2) eqn:Hcx.
    + eapply notify_consumer_spec; [done|done|done|done|done|]. intros w' fn S Hin. wp_step. destruct (still_safe _ _ Hw S). split_and!; [done|done|]. intros _.
      exists c2. split; [done|]. rewrite Hcx. by exists fn.
    + eapply wp_mono; [by eapply set_pending_spec; [|apply Hok2|]|]. intros [] w' D. wp_step. destruct (still_safe _ _ Hw (dl_still _ _ _ _ _ D)). split_and!; [done|done|].
      intros _. exists c2. split; [done|]. by rewrite Hcx.
  - wp_step. split_and!; [done|apply stable_refl|done].
  - wp_step. split_and!; [done|apply stable_refl|done].
  - wp_step. eapply wp_mono; [by eapply set_pending_spec; [|apply Hok|]|]. intros [] w' D. wp_step. destruct (still_safe _ _ Hw (dl_still _ _ _ _ _ D)). by split_and!.
Qed.

Lemma unmask_safe cur p w : winv w -> is_Some (doms w !! cur) -> safe (evtchn_unmask cur p) w.
Proof.
  intros Hw [x Hx]. pose proof (wi_dom _ Hw cur x Hx) as Hok. unfold evtchn_unmask, safe. wp_step. eapply wp_get_dom; [done|].
  destruct (port_is_valid x p) eqn:Hval; cbn [negb]; [|wp_step; split; [done|apply stable_refl]].
  apply (valid_chn_at x p (bo_ports _ _ (do_base _ _ Hok))) in Hval as [c Hc]. assert (chan w cur p = Some c) as Hch by by rewrite (chan_dom cur x w p Hx).
  destruct (co_notify _ _ _ _ (bo_chans _ _ (do_base _ _ Hok) p c Hc)) as [y Hy].
  wp_step. eapply wp_get_chan; [done|]. wp_step. eapply wp_mod_dom; [done|]. set (x1 := set_mask _ x). fold (upd cur x1 w).
  assert (still w (upd cur x1 w)) as S1 by (unfold upd; still_step; [done|by split]). wp_step.
  destruct (bool_decide (p ∈ evtchn_mask x) && bool_decide (p ∈ evtchn_pending x)); cbn [when]; [|wp_step; wp_step; by apply still_safe].
  unfold test_and_set_sel. wp_step. wp_step. eapply wp_get_vcpu; [apply upd_lookup|exact Hy|]. wp_step. eapply wp_mod_vcpu; [apply upd_lookup|exact Hy|]. wp_step.
  set (x2 := set_vcpus _ x1). fold (upd cur x2 (upd cur x1 w)). rewrite upd_upd.
  assert (still w (upd cur x2 w)) as S2.
  { unfold upd. still_step; [done|]. eapply domain_quiet_trans; [|by eapply quiet_mod_vcpu]. by split. }
  destruct (bool_decide _); cbn [negb when]; [wp_step; wp_step; by apply still_safe|].
  eapply mark_spec; [apply upd_lookup|simpl; apply lookup_insert_eq|]. intros w3 y3 S3 _ _. wp_step. apply still_safe; [done|]. by eapply still_trans.
Qed.

Lemma status_safe cur dom p w : winv w -> is_Some (doms w !! cur) -> safe (evtchn_status cur dom p) w.
Proof.
  intros Hw Hc. assert (winv w /\ stable w w) as Hid by (split; [done|apply stable_refl]). unfold evtchn_status, safe. wp_step. apply rcu_lock_spec; [done| |].
  { intros rc Hrc. destruct (Z.eqb_spec rc 0); [done|]. simpl. by wp_step. }
  intros d [x Hx]. simpl. pose proof (wi_dom _ Hw d x Hx) as Hok. wp_step. eapply wp_get_dom; [done|]. destruct (port_is_valid x p) eqn:Hval; cbn [negb]; [|by wp_step].
  apply (valid_chn_at x p (bo_ports _ _ (do_base _ _ Hok))) in Hval as [c Hch]. wp_step. eapply wp_get_chn; [done|done|].
  destruct (negb (xsm_status d p =? 0)); by wp_step.
Qed.

(** ** Closing all ports *)

Hypothesis others_ok : forall w, winv w -> winv (others w) /\ stable w (others w).

Definition gone (w : eworld) (d p : Z) : Prop := forall c, chan w d p = Some c -> state c = ECS_FREE \/ state c = ECS_RESERVED.

Lemma gone_stable w w' d p : stable w w' -> dying w d -> is_Some (chan w d p) -> gone w d p -> gone w' d p.
Proof.
  intros Hs Hd [c Hc] Hg c' Hc'. destruct (sb_chan _ _ Hs d p c Hc) as (c2 & Hc2 & Hk). assert (c2 = c') as -> by congruence.
  destruct (ki_state _ _ (Hk Hd)) as [E|E]; [by left|]. destruct (Hg c Hc) as [E2|E2]; rewrite E2 in E; destruct (state c'); simpl in E; try done; auto.
Qed.

(** Clears the consumer, as the destruction of a domain does. *)
Lemma clear_consumer_safe (clear : bool) d p c w (Q : unit -> eworld -> Prop) :
  winv w -> chan w d p = Some c ->
  (forall w' c', winv w' -> stable w w' -> chan w' d p = Some c' -> state c' = state c -> (clear = true -> xen_consumer c' = 0) -> Q tt w') ->
  wp no_error (when clear (mod_chn d p (set_consumer 0))) Q w.
Proof.
  intros Hw Hc HQ. destruct clear; cbn [when]; [|wp_step; by eapply HQ; [|apply stable_refl|..]]. eapply wp_mod_chan; [done|].
  destruct (local_chan _ _ _ _ (proj1 (proj1 (winv_local w) Hw)) Hc) as (x & Hx & _ & [C1 C2 C3 C4] & _).
  eapply (HQ _ (set_consumer 0 c)); [| | |done|done].
  - eapply winv_set_chan; try done. intros x' Hx'. assert (x' = x) as -> by congruence. split; simpl; try done; [|lia]. intros E. split; [by apply C2|done].
  - eapply set_chan_stable; [by apply winv_local|done|]. intros _. split; [right; apply same_kind_refl|by right].
  - rewrite (chan_set_chan w d p c); [by rewrite decide_True|by apply winv_local|done].
Qed.

Lemma close_all_spec fuel (clear : bool) d p x w :
  winv w -> doms w !! d = Some x -> 0 <= p <= MAX_EVTCHNS x -> MAX_EVTCHNS x - p < Z.of_nat fuel ->
  (clear = true -> dying w d -> forall q, 0 <= q < p -> is_Some (chan w d q) /\ gone w d q) ->
  wp no_error (close_all fuel clear d p) (fun _ w' => winv w' /\ stable w w' /\ (clear = true -> dying w d -> forall q, gone w' d q)) w.
Proof using others_ok.
  revert p x w. induction fuel as [|fuel IH]; intros p x w Hw Hx Hp Hf Hlow.
  { lia. }
  simpl. pose proof (wi_dom _ Hw d x Hx) as Hok. pose proof (bo_ports _ _ (do_base _ _ Hok)) as Hpo. wp_step. eapply wp_get_dom; [done|].
  destruct (port_is_valid x p) eqn:Hval; cbn [negb].
  - pose proof (proj1 (valid_chn_at x p Hpo) Hval) as [c Hc]. assert (chan w d p = Some c) as Hch by by rewrite (chan_dom d x w p Hx).
    pose proof (chn_at_range _ _ _ Hc) as Hr. wp_step. eapply clear_consumer_safe; [done|done|]. intros w1 c1 Hw1 S1 Hc1 Es1 Hcons1.
    destruct (sb_dom _ _ S1 d x Hx) as (x1 & Hx1 & Ed1 & Ew1).
    wp_step. eapply wp_mono; [apply (close_spec others_ok d p w1 Hw1 ltac:(by eexists))|]. intros rc w2 (Hw2 & S2 & _ & Hgone). pose proof (stable_trans _ _ _ S1 S2) as S12.
    destruct (sb_dom _ _ S12 d x Hx) as (x2 & Hx2 & Ed2 & Ew2).
    eapply wp_mono; [apply (IH (p + 1) x2 w2); [done|done|unfold MAX_EVTCHNS in *; rewrite Ew2; lia|unfold MAX_EVTCHNS in *; rewrite Ew2; lia|]|].
    + intros Hcl Hd2 q Hq. assert (dying w d) as Hd by (destruct Hd2 as (x' & Hx' & Hd'); exists x; split; [done|]; congruence).
      assert (forall q c0, chan w d q = Some c0 -> is_Some (chan w2 d q)) as Hstay by (intros q' c0 Hq'; destruct (sb_chan _ _ S12 d q' c0 Hq') as (c3 & ? & _); by exists c3).
      destruct (decide (q = p)) as [->|Hne].
      * split; [by eapply Hstay|]. intros c2 Hc2. destruct (Hgone (stable_dying _ _ _ S1 Hd) c1 Hc1 (Hcons1 Hcl)) as [E|(k & Hk & Hks)].
        -- destruct (sb_chan _ _ S2 d p c1 Hc1) as (c3 & Hc3 & Hk). assert (c3 = c2) as -> by congruence.
           destruct (ki_state _ _ (Hk (stable_dying _ _ _ S1 Hd))) as [?|E2]; [by left|]. rewrite E in E2. destruct (state c2); simpl in E2; try done. by right.
        -- left. congruence.
      * destruct (Hlow Hcl Hd q ltac:(lia)) as [[c0 Hc0] Hg]. split; [by eapply Hstay|]. by eapply gone_stable.
    + intros [] w3 (Hw3 & S3 & Hg3). split_and!; [done|by eapply stable_trans|]. intros Hcl Hd. apply Hg3; [done|]. by eapply stable_dying.
  - wp_step. split_and!; [done|apply stable_refl|]. intros Hcl Hd q c Hc. destruct (decide (q < p)) as [Hlt|Hge].
    + rewrite (chan_dom d x w q Hx) in Hc. pose proof (chn_at_range _ _ _ Hc). apply (Hlow Hcl Hd q ltac:(lia)). by rewrite (chan_dom d x w q Hx).
    + rewrite (chan_dom d x w q Hx) in Hc. destruct (chn_at_valid _ _ _ Hc) as [Hv _]. destruct (ports_range x Hpo) as (n & _ & _ & _ & Hrange). apply Hrange in Hv.
      assert (port_is_valid x p = true) by (apply Hrange; lia). congruence.
Qed.

Lemma reset_safe cur dom w : winv w -> is_Some (doms w !! cur) -> safe (evtchn_reset cur dom) w.
Proof using others_ok.
  intros Hw Hc. assert (winv w /\ stable w w) as Hid by (split; [done|apply stable_refl]). unfold evtchn_reset, safe. wp_step. apply rcu_lock_spec; [done| |].
  { intros rc Hrc. destruct (Z.eqb_spec rc 0); [done|]. simpl. by wp_step. }
  intros d [x Hx]. cbn [negb Z.eqb]. destruct (negb (xsm_reset cur d =? 0)); [by wp_step|]. wp_step. eapply wp_get_dom; [done|].
  pose proof (max_evtchns _ (bo_ports _ _ (do_base _ _ (wi_dom _ Hw d x Hx)))).
  wp_step. eapply wp_mono; [apply (close_all_spec _ false d 0 x); [done|done|lia|lia|done]|]. intros [] w' (A & B & _). by wp_step.
Qed.

Hypothesis no_failure : alloc_security_fails = false.

Lemma with_port_safe copy_out (m : M eworld (Z * Z)) w : safe m w -> safe (with_port copy_out m) w.
Proof.
  intros Hm. unfold safe, with_port. wp_step. eapply wp_mono; [exact Hm|]. intros [rc port] w' Hw'. destruct (negb (rc =? 0)); [by wp_step|]. destruct copy_out; by wp_step.
Qed.

Lemma with_rc_safe (m : M eworld Z) w : safe m w -> safe (with_rc m) w.
Proof. intros Hm. unfold safe, with_rc. wp_step. eapply wp_mono; [exact Hm|]. intros rc w' Hw'. by wp_step. Qed.

Lemma op_safe copy_in copy_out cur op w : winv w -> is_Some (doms w !! cur) -> safe (do_event_channel_op copy_in copy_out cur op) w.
Proof using others_ok no_failure.
  intros Hw Hc. assert (winv w /\ stable w w) as Hid by (split; [done|apply stable_refl]). unfold do_event_channel_op.
  destruct op; try (destruct copy_in; cbn [negb]; [|unfold safe; by wp_step]).
  - by apply with_port_safe, alloc_unbound_safe.
  - apply with_port_safe. eapply wp_mono; [by apply bind_interdomain_spec|]. intros r w' (A & B & _). done.
  - by apply with_port_safe, bind_virq_safe.
  - by apply with_port_safe, bind_ipi_safe.
  - by apply with_port_safe, bind_pirq_safe.
  - apply with_rc_safe. eapply wp_mono; [by apply close_spec|]. intros rc w' (A & B & _). done.
  - apply with_rc_safe. eapply wp_mono; [by apply send_spec|]. intros rc w' (A & B & _). done.
  - unfold safe. wp_step. eapply wp_mono; [by apply status_safe|]. intros [rc [[st v]|]] w' Hw'; [destruct copy_out; by wp_step|by wp_step].
  - by apply with_rc_safe, bind_vcpu_safe.
  - by apply with_rc_safe, unmask_safe.
  - by apply with_rc_safe, reset_safe.
  - unfold safe. by wp_step.
Qed.
End Ops.
