(* ===== verification/EvtchnLife.v ===== *)
(** * Event channels: the hypervisor's own calls and the life of a domain *)

From S2P Require Import Prelude.
From S2P Require Import Xen.
From S2P Require Import Evtchn.
From S2P Require Import EvtchnFacts.
From S2P Require Import EvtchnOps.
From S2P Require Import EvtchnBind.
From S2P Require Import EvtchnPirq.
From S2P Require Import EvtchnClose.
From S2P Require Import EvtchnSafe.

Lemma winv_same w w' : doms w' = doms w -> xen_consumers w' = xen_consumers w -> winv w -> winv w'.
Proof. intros E1 E2 [H1 H2 H3]. unfold link, chan in *. split; unfold link, chan; rewrite ?E1, ?E2; done. Qed.

(** ** Notification functions *)

Lemma find_consumer_le l fn : (find_consumer l fn <= length l)%nat.
Proof. induction l as [|f l IH]; simpl; [done|]. destruct (f =? fn); lia. Qed.

Lemma dom_ok_more nc nc' x : (nc <= nc')%nat -> dom_ok nc x -> dom_ok nc' x.
Proof.
  intros Hle [[H1 H2 H3 H4 H5 H6] Hv Hp]. split; [|done|done]. split; try done. intros p c Hc. destruct (H6 p c Hc) as [A B C D]. split; try done. lia.
Qed.

(** More functions may be in use. *)
Lemma winv_more w l : winv w -> (length (xen_consumers w) <= length l <= NR_CONSUMERS)%nat -> winv (set_consumers l w).
Proof. intros [H1 H2 H3] Hl. split; [|done|simpl; lia]. intros d x Hx. eapply dom_ok_more; [|by apply (H1 d)]. simpl. lia. Qed.

Definition fn_of (fn : Z) : Z := if fn =? 0 then default_fn else fn.

(** There is a slot for the function. *)
Definition has_slot (w : eworld) (fn : Z) : Prop := (find_consumer (xen_consumers w) (fn_of fn) < NR_CONSUMERS)%nat.

Lemma get_consumer_spec fn w (Q : Z -> eworld -> Prop) :
  winv w -> has_slot w fn ->
  (forall i l, 1 <= i <= Z.of_nat (length l) -> (length (xen_consumers w) <= length l <= NR_CONSUMERS)%nat -> Q i (set_consumers l w)) -> wp no_error (get_xen_consumer fn) Q w.
Proof.
  intros Hw Hs HQ. unfold get_xen_consumer. wp_step. wp_step. fold (fn_of fn). unfold has_slot in Hs. rewrite bool_decide_eq_true_2 by done.
  pose proof (find_consumer_le (xen_consumers w) (fn_of fn)). pose proof (wi_consumers _ Hw). wp_step. wp_step. wp_step. apply HQ; case_bool_decide; rewrite ?length_app; simpl; lia.
Qed.

(** ** The lists are finite *)

Lemma ports_length (l : list Z) n : NoDup l -> (forall p, p ∈ l -> 0 <= p < n) -> Z.of_nat (length l) <= Z.max n 0.
Proof.
  intros Hnd Hin. assert (l ⊆+ seqZ 0 n) as Hs.
  { apply NoDup_submseteq; [done|]. intros p Hp. apply elem_of_seqZ. specialize (Hin p Hp). lia. }
  apply submseteq_length in Hs. rewrite length_seqZ in Hs. lia.
Qed.

Section Ops.
Context `{XenEnv}.
Hypothesis others_ok : forall w, winv w -> winv (others w) /\ stable w (others w).
Hypothesis no_failure : alloc_security_fails = false.

Lemma move_pirqs_spec fuel d v x l prev p w w0 :
  still w0 w -> doms w !! d = Some x -> dll (pirq_view x) prev p l -> (length l < fuel)%nat ->
  wp no_error (move_pirqs_from fuel d v p) (fun _ w' => still w0 w') w.
Proof.
  revert prev p l w. induction fuel as [|fuel IH]; intros prev p l w Hs Hx Hl Hf; [lia|]. simpl. destruct l as [|q l]; simpl in Hl, Hf.
  - subst p. rewrite Z.eqb_refl. by wp_step.
  - destruct Hl as (-> & Hq & irq & next & n & Hv & Hl). destruct (Z.eqb_spec q 0); [done|]. destruct (pirq_view_chn _ _ _ _ _ _ Hv) as (c & Hc & Hst & _).
    wp_step. eapply wp_get_chn; [done|done|]. rewrite Hst. wp_step. apply wp_request. eapply IH; [|exact Hx|exact Hl|lia].
    eapply still_trans; [exact Hs|apply still_request].
Qed.

Lemma move_pirqs_safe d v x w : winv w -> doms w !! d = Some x -> is_Some (vcpus x !! v) -> safe (evtchn_move_pirqs d v) w.
Proof.
  intros Hw Hx [y Hy]. pose proof (wi_dom _ Hw d x Hx) as Hok. destruct (pk_list _ _ _ (do_pirq _ _ Hok) v y Hy) as (l & Hl & Hnd & Hin).
  assert (forall p, p ∈ l -> 0 <= p < MAX_EVTCHNS x) as Hr.
  { intros p (i & a & b & Hv)%Hin. destruct (pirq_view_chn _ _ _ _ _ _ Hv) as (c & Hc & _). by eapply chn_at_range. }
  pose proof (ports_length l _ Hnd Hr). pose proof (max_evtchns _ (bo_ports _ _ (do_base _ _ Hok))).
  unfold evtchn_move_pirqs, safe. wp_step. eapply wp_get_vcpu; [done|done|]. wp_step. eapply wp_get_dom; [done|].
  eapply wp_mono; [eapply (move_pirqs_spec _ d v x l 0); [apply still_refl|done|exact Hl|lia]|]. intros [] w' Hs. by apply still_safe.
Qed.

(** ** Channels of the hypervisor *)

Lemma alloc_xen_safe d v rdom fn x w :
  winv w -> doms w !! d = Some x -> is_Some (vcpus x !! v) -> has_slot w fn -> safe (alloc_unbound_xen_event_channel d v rdom fn) w.
Proof using no_failure.
  intros Hw Hx Hv Hs. unfold alloc_unbound_xen_event_channel, safe. wp_step. apply get_fresh_port; [done|done|by eexists| |].
  { intros rc Hrc. destruct (Z.ltb_spec rc 0); [|lia]. wp_step. split; [done|apply stable_refl]. }
  intros port w1 F. pose proof (fp_port _ _ _ _ F) as Hp. destruct (Z.ltb_spec port 0); [lia|]. destruct (fp_dom _ _ _ _ F) as (x' & m & Hx' & E1).
  pose proof (fp_inv _ _ _ _ F) as Hw1. assert (x' = x) as -> by congruence.
  wp_step. eapply get_consumer_spec; [done|by subst w1|]. intros i l Hi Hl. set (w2 := set_consumers l w1).
  assert (winv w2) as Hw2 by by apply winv_more.
  assert (stable w1 w2) as S2.
  { split; [intros e y Hy; by exists y|]. intros e q c Hc. exists c. split; [exact Hc|]. intros _. apply kin_refl. }
  assert (chan w2 d port = Some free_evtchn) as Hc by apply F.
  wp_step. eapply wp_mod_chan; [done|]. wp_step. split.
  - eapply winv_set_chan; try done. intros y Hy. assert (y = set_buckets m x) as -> by (subst w1; unfold w2 in Hy; simpl in Hy; rewrite lookup_insert_eq in Hy; congruence).
    split; simpl; [done|done|lia|lia].
  - eapply stable_trans; [apply F|]. eapply stable_trans; [exact S2|]. eapply set_chan_stable; [by apply winv_local|done|].
    intros (y & Hy & Hd). destruct (fp_alive _ _ _ _ F). by exists y.
Qed.

Lemma free_xen_safe d p c w :
  winv w -> chan w d p = Some c -> consumer_is_xen c = true -> safe (free_xen_event_channel d p) w.
Proof using others_ok.
  intros Hw Hch Hcx. destruct (chan_inv _ _ _ _ Hch) as (x & Hx & Hc). unfold free_xen_event_channel, safe. wp_step. eapply wp_get_dom; [done|].
  destruct (is_dying x); [wp_step; split; [done|apply stable_refl]|]. destruct (chn_at_valid _ _ _ Hc) as [-> _]. wp_step. wp_step. wp_step.
  eapply wp_get_chan; [done|]. rewrite Hcx. wp_step. wp_step. wp_step.
  pose proof (clear_consumer_safe true d p c w) as Hclear. cbn [when] in Hclear. apply Hclear; [done|done|]. intros w1 c1 Hw1 S1 Hc1 _ _.
  destruct (chan_inv _ _ _ _ Hc1) as (x1 & Hx1 & _). wp_step. eapply wp_mono; [apply (close_spec others_ok d p w1 Hw1 ltac:(by eexists))|].
  intros rc w2 (Hw2 & S2 & _). wp_step. split; [done|by eapply stable_trans].
Qed.

Lemma set_pending_safe d v p x w : winv w -> doms w !! d = Some x -> is_Some (vcpus x !! v) -> safe (evtchn_set_pending d v p) w.
Proof.
  intros Hw Hx Hv. unfold safe. eapply wp_mono; [eapply set_pending_spec; [done|apply (wi_dom _ Hw d x Hx)|done]|]. intros [] w' D. apply still_safe; [done|]. apply D.
Qed.

Lemma notify_via_safe d p c w : winv w -> chan w d p = Some c -> consumer_is_xen c = true -> safe (notify_via_xen_event_channel d p) w.
Proof.
  intros Hw Hch Hcx. destruct (chan_inv _ _ _ _ Hch) as (x & Hx & Hc). unfold notify_via_xen_event_channel, safe. wp_step. eapply wp_get_dom; [done|].
  destruct (is_dying x); [wp_step; split; [done|apply stable_refl]|]. destruct (chn_at_valid _ _ _ Hc) as [-> _]. wp_step. apply wp_assert; [done|]. wp_step.
  eapply wp_get_chan; [done|]. rewrite Hcx. wp_step. apply wp_assert; [done|]. destruct (state c) as [| |r|rd p2|irq nx pv|i|] eqn:Hs; try (wp_step; split; [done|apply stable_refl]).
  destruct (link_nonzero _ _ _ _ _ _ Hw Hch Hs) as (_ & _ & c2 & x2 & Hx2 & Hc2 & Hs2). wp_step. eapply wp_get_chn; [done|done|].
  eapply set_pending_safe; [done|done|]. apply (bo_chans _ _ (do_base _ _ (wi_dom _ Hw rd x2 Hx2)) p2 c2 Hc2).
Qed.

(** ** Interrupts *)

Lemma virq_local virq : virq_is_global virq = false -> virq = VIRQ_TIMER \/ virq = VIRQ_DEBUG \/ virq = VIRQ_XENOPROF.
Proof. unfold virq_is_global. intros H'. apply negb_false_iff in H'. bool_hyps. naive_solver lia. Qed.

Lemma vcpu_virq_safe d v virq x w :
  winv w -> doms w !! d = Some x -> is_Some (vcpus x !! v) -> virq_is_global virq = false -> safe (send_guest_vcpu_virq d v virq) w.
Proof.
  intros Hw Hx [y Hy] Hg. unfold send_guest_vcpu_virq, safe. wp_step. apply wp_assert; [by destruct (virq_local _ Hg) as [-> |[-> | ->]]|]. wp_step. apply wp_assert; [by rewrite Hg|]. wp_step. eapply wp_get_vcpu; [done|done|].
  destruct (virq_port y virq =? 0); [wp_step; split; [done|apply stable_refl]|]. by eapply set_pending_safe; [| |eexists].
Qed.

Lemma global_virq_safe virq w : winv w -> 0 <= virq < NR_VIRQS -> virq_is_global virq = true -> safe (send_global_virq virq) w.
Proof.
  intros Hw Hr Hg. assert (winv w /\ stable w w) as Hid by (split; [done|apply stable_refl]).
  unfold send_global_virq, send_guest_global_virq, safe. wp_step. apply wp_assert; [apply Z.ltb_lt; lia|]. wp_step. apply wp_assert; [done|].
  wp_step. wp_step. wp_step. apply wp_assert; [apply Z.ltb_lt; lia|]. wp_step. apply wp_assert; [done|]. wp_step. wp_step. set (d := default 0 _).
  destruct (doms w !! d) as [x|] eqn:Hx; [|by wp_step]. destruct (vcpus x !! 0) as [y|] eqn:Hy; [|by wp_step]. destruct (Z.eqb_spec (virq_port y virq) 0) as [|Hne]; [by wp_step|].
  pose proof (wi_dom _ Hw d x Hx) as Hok. destruct (vo_port _ _ (do_virq _ _ Hok) 0 y virq Hy Hne) as (_ & n & Hv & _). unfold virq_view in Hv.
  destruct (chn_at x (virq_port y virq)) as [c|] eqn:Hc; [|done]. wp_step. eapply wp_get_chn; [done|done|].
  eapply set_pending_safe; [done|done|]. apply (bo_chans _ _ (do_base _ _ Hok) _ c Hc).
Qed.

Lemma pirq_safe d pirq x w :
  winv w -> doms w !! d = Some x -> is_hvm x = true \/ pirq_to_evtchn x pirq <> 0 -> safe (send_guest_pirq d pirq) w.
Proof.
  intros Hw Hx Hp. unfold send_guest_pirq, safe. wp_step. eapply wp_get_dom; [done|]. destruct (Z.eqb_spec (pirq_to_evtchn x pirq) 0) as [E|Hne].
  - destruct Hp as [->|?]; [wp_step; split; [done|apply stable_refl]|done].
  - unfold pirq_to_evtchn in *. destruct (pirqs x !! pirq) as [p|] eqn:Hpp; [|done]. simpl in *. pose proof (wi_dom _ Hw d x Hx) as Hok.
    destruct (pk_port _ _ _ (do_pirq _ _ Hok) pirq p Hpp Hne) as (a & b & n & Hv). destruct (pirq_view_chn _ _ _ _ _ _ Hv) as (c & Hc & _).
    wp_step. eapply wp_get_chn; [done|done|]. eapply set_pending_safe; [done|done|]. apply (bo_chans _ _ (do_base _ _ Hok) _ c Hc).
Qed.

(** ** Destroying a domain *)

(** A domain without ports; nothing is bound any more. *)
Lemma dom_ok_empty nc x :
  dom_ok nc x -> is_dying x = true -> (forall p c, chn_at x p = Some c -> state c = ECS_FREE \/ state c = ECS_RESERVED) -> dom_ok nc (set_buckets ∅ x).
Proof.
  intros [[H1 H2 H3 H4 H5 H6] Hv Hp] Hd Hg.
  assert (forall p, chn_at (set_buckets ∅ x) p = None) as Hn.
  { intros p. unfold chn_at, evtchn_from_port. simpl. rewrite lookup_empty. by case_bool_decide. }
  split.
  - split; try done; simpl.
    + split; [apply H1|]. exists 0. pose proof (max_evtchns _ H1). change (MAX_EVTCHNS (set_buckets ∅ x)) with (MAX_EVTCHNS x). split_and!; [done|apply Z.div_pos; lia| |].
      * intros i. simpl. rewrite lookup_empty. split; [by intros (l & ? & _)|lia].
      * intros i. simpl. rewrite lookup_empty. by intros [? ?].
    + congruence.
    + intros p c. by rewrite Hn.
  - eapply virq_ok_ext; [|done|exact Hv]. intros p. unfold virq_view. rewrite Hn. destruct (chn_at x p) as [c|] eqn:Hc; [|done]. by destruct (Hg p c Hc) as [-> | ->].
  - eapply pirq_ok_ext; [|done|exact Hp]. intros p. unfold pirq_view. rewrite Hn. destruct (chn_at x p) as [c|] eqn:Hc; [|done]. by destruct (Hg p c Hc) as [-> | ->].
Qed.

Lemma put_domains_spec {A} (l : list A) d w (Q : unit -> eworld -> Prop) :
  (forall rq, Q tt (EWorld (doms w) (xen_consumers w) (global_virq_handlers w) rq)) -> wp no_error (for_each l (fun _ => request (PutDomain d))) Q w.
Proof.
  revert w. induction l as [|a l IH]; intros w HQ; simpl; [wp_step; specialize (HQ (requests w)); by destruct w|]. wp_step. apply wp_request. apply IH. intros rq. apply HQ.
Qed.

Record destroyed (d : Z) (w w' : eworld) : Prop := Destroyed {
  ds_inv : winv w';
  ds_ports p : chan w' d p = None;
  ds_links e q p : link w' e q <> Some (d, p);
  ds_handlers v : global_virq_handlers w' !! v <> Some d;
  ds_others e p c : e <> d -> chan w e p = Some c -> is_Some (chan w' e p)
}.

Lemma destroy_spec d w : winv w -> dying w d -> wp no_error (evtchn_destroy d) (fun _ w' => destroyed d w w') w.
Proof using others_ok.
  intros Hw Hdy. pose proof Hdy as (x & Hx & Hd). pose proof (max_evtchns _ (bo_ports _ _ (do_base _ _ (wi_dom _ Hw d x Hx)))) as Hm.
  unfold evtchn_destroy. wp_step. eapply wp_get_dom; [done|]. rewrite Hd. wp_step. wp_step. wp_step.
  eapply wp_mono; [apply (close_all_spec others_ok _ true d 0 x); [done|done|lia|lia|intros _ _ q Hq; lia]|]. intros [] w1 (Hw1 & S1 & Hg).
  specialize (Hg eq_refl Hdy). destruct (sb_dom _ _ S1 d x Hx) as (x1 & Hx1 & Ed1 & _).
  assert (forall p c, chn_at x1 p = Some c -> state c = ECS_FREE \/ state c = ECS_RESERVED) as Hg1.
  { intros p c Hc. apply (Hg p c). by rewrite (chan_dom d x1 w1 p Hx1). }
  wp_step. eapply wp_mod_dom; [done|]. fold (upd d (set_buckets ∅ x1) w1). set (w2 := upd d _ w1).
  assert (forall p, chn_at (set_buckets ∅ x1) p = None) as Hn.
  { intros p. unfold chn_at, evtchn_from_port. simpl. rewrite lookup_empty. by case_bool_decide. }
  assert (winv w2) as Hw2.
  { eapply winv_upd; [done|done|apply dom_ok_empty; [by apply (wi_dom _ Hw1 d)|congruence|done]|]. intros p. rewrite Hn. simpl.
    destruct (chn_at x1 p) as [c|] eqn:Hc; [|done]. simpl. by destruct (Hg1 p c Hc) as [-> | ->]. }
  assert (forall p, chan w2 d p = None) as Hp2 by (intros p; unfold w2; rewrite chan_upd, decide_True by done; apply Hn).
  unfold clear_global_virq_handlers. wp_step. wp_step. wp_step. wp_step. apply put_domains_spec. intros rq. simpl. split.
  - by eapply (winv_same w2).
  - exact Hp2.
  - intros e q p Hl. change (link w2 e q = Some (d, p)) in Hl. apply (wi_link _ Hw2) in Hl. rewrite link_chan, Hp2 in Hl. done.
  - simpl. intros v Hv. apply map_lookup_filter_Some in Hv as [_ Hv]. by apply Hv.
  - intros e p c He Hc. change (is_Some (chan w2 e p)). unfold w2. rewrite chan_upd, decide_False by done. destruct (sb_chan _ _ S1 e p c Hc) as (c' & Hc' & _). by exists c'.
Qed.
End Ops.

(** ** A new domain *)

(** No port yet, and nothing bound. *)
Record new_domain (x : domain) : Prop := NewDomain {
  nd_alive : is_dying x = false;
  nd_word : word x = 32 \/ word x = 64;
  nd_buckets : buckets x = ∅;
  nd_pirqs irq p : pirqs x !! irq = Some p -> p = 0
}.

(** Virtual processors that have just been created. *)
Definition new_vcpus (n : Z) (vs : gmap Z vcpu) : Prop :=
  is_Some (vs !! 0) /\ forall v y, vs !! v = Some y -> 0 <= v < n /\ (forall i, virq_port y i = 0) /\ pirq_evtchn_head y = 0.

Definition with_vcpus (n : Z) (vs : gmap Z vcpu) (x : domain) : domain :=
  Domain (is_dying x) (is_hvm x) (word x) n vs (buckets x) (evtchn_pending x) (evtchn_mask x) (poll_mask x) (nr_pirqs x) (pirqs x) (irq_caps x).

Definition first_bucket : list evtchn := <[0%nat := Evtchn ECS_RESERVED 0 0]> (replicate 128 free_evtchn).

Lemma first_bucket_at x p :
  word x = 32 \/ word x = 64 -> buckets x = {[0 := Live first_bucket]} ->
  chn_at x p = if decide (0 <= p < 128) then Some (if decide (p = 0) then Evtchn ECS_RESERVED 0 0 else free_evtchn) else None.
Proof.
  intros Hw Hb. assert (MAX_EVTCHNS x = 1024 \/ MAX_EVTCHNS x = 4096) as Hm by (unfold MAX_EVTCHNS; destruct Hw as [-> | ->]; lia).
  unfold chn_at, evtchn_from_port, EVTCHNS_PER_BUCKET. rewrite Hb. case_bool_decide as Hr; [|rewrite decide_False by lia; done].
  destruct (decide (0 <= p < 128)) as [Hp|Hp].
  - rewrite Z.div_small by lia. rewrite lookup_singleton_eq. rewrite port_index, Z.mod_small by lia. unfold first_bucket. case_decide as E.
    + subst. by rewrite list_lookup_insert_eq by (rewrite length_replicate; lia).
    + rewrite list_lookup_insert_ne by lia. rewrite lookup_replicate_2 by lia. done.
  - rewrite lookup_singleton_ne; [done|]. intros E. symmetry in E. apply Z.div_small_iff in E; lia.
Qed.

Section Init.
Context `{XenEnv}.
Hypothesis no_failure : alloc_security_fails = false.

Lemma init_spec d x w :
  doms w !! d = Some x -> new_domain x -> evtchn_alloc_ok w = true ->
  wp no_error (evtchn_init true d) (fun rc w' => rc = 0 /\ w' = upd d (set_poll_mask ∅ (set_buckets {[0 := Live first_bucket]} x)) w) w.
Proof using no_failure.
  intros Hx [N1 N2 N3 N4] Hal. assert (MAX_EVTCHNS x = 1024 \/ MAX_EVTCHNS x = 4096) as Hm by (unfold MAX_EVTCHNS; destruct N2 as [-> | ->]; lia).
  unfold evtchn_init, get_free_port. wp_step. wp_step. eapply wp_get_dom; [done|]. rewrite N1. wp_step. unfold wp at 1. cbn [find_port].
  assert (port_is_valid x 0 = false) as -> by (unfold port_is_valid; rewrite N3, lookup_empty, andb_false_r; done).
  destruct (Z.eqb_spec 0 (MAX_EVTCHNS x)); [lia|]. wp_step. wp_step. rewrite Hal. cbn [negb]. wp_step. eapply wp_mod_dom; [done|]. rewrite no_failure. wp_step. cbn [negb Z.eqb].
  rewrite N3. change (0 / EVTCHNS_PER_BUCKET) with 0. set (x1 := set_buckets (<[0 := Live (replicate 128 free_evtchn)]> ∅) x). fold (upd d x1 w).
  assert (chn_at x1 0 = Some free_evtchn) as Hc.
  { unfold chn_at, evtchn_from_port. rewrite bool_decide_eq_true_2; [reflexivity|]. unfold MAX_EVTCHNS in *. simpl. lia. }
  wp_step. eapply wp_mod_chn; [apply upd_lookup|exact Hc|]. fold (upd d (put_chn 0 (set_state ECS_RESERVED free_evtchn) x1) (upd d x1 w)). rewrite upd_upd.
  wp_step. eapply wp_mod_dom; [apply upd_lookup|]. wp_step. split; [done|]. fold (upd d (set_poll_mask ∅ (put_chn 0 (set_state ECS_RESERVED free_evtchn) x1)) (upd d (put_chn 0 (set_state ECS_RESERVED free_evtchn) x1) w)).
  rewrite upd_upd. reflexivity.
Qed.
End Init.

Lemma init_dom_ok nc n vs x :
  new_domain x -> new_vcpus n vs -> dom_ok nc (with_vcpus n vs (set_poll_mask ∅ (set_buckets {[0 := Live first_bucket]} x))).
Proof.
  intros [N1 N2 N3 N4] [V0 V1]. set (x' := with_vcpus _ _ _). pose proof (fun p => first_bucket_at x' p N2 eq_refl) as Hat.
  assert (MAX_EVTCHNS x' = 1024 \/ MAX_EVTCHNS x' = 4096) as Hm by (unfold MAX_EVTCHNS; simpl; destruct N2 as [-> | ->]; lia).
  assert (forall p c, chn_at x' p = Some c -> (p = 0 /\ c = Evtchn ECS_RESERVED 0 0) \/ (p <> 0 /\ c = free_evtchn)) as Hc.
  { intros p c. rewrite Hat. case_decide; [|done]. intros [= <-]. case_decide; auto. }
  split.
  - split.
    + split; [done|]. exists 1. split_and!; [lia|apply Z.div_le_lower_bound; lia| |].
      * intros i. simpl. destruct (decide (i = 0)) as [->|Hi]; [rewrite lookup_singleton_eq; split; [lia|intros _; by eexists]|].
        rewrite lookup_singleton_ne by done. split; [by intros (l & ? & _)|lia].
      * intros i. simpl. destruct (decide (i = 0)) as [->|Hi]; [lia|]. rewrite lookup_singleton_ne by done. by intros [? ?].
    + done.
    + intros v [y Hy]. by apply (V1 v y).
    + simpl. intros v Hv. set_solver.
    + intros _. rewrite Hat. by eexists.
    + intros p c Hp. destruct (Hc p c Hp) as [[-> ->]|[Hp0 ->]]; split; simpl; try done; lia.
  - split.
    + intros v y i Hy Hi. destruct (V1 v y Hy) as (_ & E & _). by rewrite E in Hi.
    + intros p i m. unfold virq_view. destruct (chn_at x' p) as [c|] eqn:E; [|done]. by destruct (Hc p c E) as [[_ ->]|[_ ->]].
  - assert (forall p, pirq_view x' p = None) as Hn.
    { intros p. unfold pirq_view. destruct (chn_at x' p) as [c|] eqn:E; [|done]. by destruct (Hc p c E) as [[_ ->]|[_ ->]]. }
    split.
    + intros irq p Hp Hp0. by apply N4 in Hp.
    + intros p irq nx pv m. by rewrite Hn.
    + intros v y Hy. exists []. destruct (V1 v y Hy) as (_ & _ & E). split_and!; [exact E|constructor|]. intros p. rewrite Hn. split; [by intros ?%elem_of_nil|]. by intros (? & ? & ? & ?).
Qed.
