(* ===== verification/EvtchnMain.v ===== *)
(** * Event channels: what the guests can rely on *)

From S2P Require Import Prelude.
From S2P Require Import Xen.
From S2P Require Import Evtchn.
From S2P Require Import EvtchnFacts.
From S2P Require Import EvtchnOps.
From S2P Require Import EvtchnBind.
From S2P Require Import EvtchnClose.
From S2P Require Import EvtchnSafe.
From S2P Require Import EvtchnLife.

(** ** Sequences of calls *)

(** A hypercall of a domain, and whether its memory can be read and written. *)
Record call : Type := Call { ca_in : bool; ca_out : bool; ca_dom : Z; ca_op : evtchn_op }.

Definition hypercalls `{XenEnv} (l : list call) : M eworld unit :=
  for_each l (fun c => let! _ := do_event_channel_op (ca_in c) (ca_out c) (ca_dom c) (ca_op c) in ret tt).

Lemma hypercalls_safe `{XenEnv} l w :
  (forall w, winv w -> winv (others w) /\ stable w (others w)) -> alloc_security_fails = false ->
  winv w -> (forall c, c ∈ l -> is_Some (doms w !! ca_dom c)) -> safe (hypercalls l) w.
Proof.
  intros Ho Hf. revert w. induction l as [|c l IH]; intros w Hw Hd; unfold safe, hypercalls; simpl; [wp_step; split; [done|apply stable_refl]|].
  wp_step. wp_step. eapply wp_mono; [apply (op_safe Ho Hf _ _ _ _ w Hw); apply Hd; by left|]. intros r w1 [Hw1 S1]. wp_step.
  eapply wp_mono; [apply (IH w1 Hw1)|].
  - intros c' Hc'. destruct (Hd c' ltac:(by right)) as [x Hx]. destruct (sb_dom _ _ S1 _ _ Hx) as (x1 & Hx1 & _). by exists x1.
  - intros [] w2 [Hw2 S2]. split; [done|by eapply stable_trans].
Qed.

(** ** The hypervisor's own calls *)

Inductive xen_call : Type :=
| XAlloc (d v remote_domid fn : Z) | XFree (d port : Z) | XNotify (d port : Z)
| XVcpuVirq (d v virq : Z) | XGlobalVirq (virq : Z) | XPirq (d pirq : Z) | XMovePirqs (d v : Z) | XHandler (live : bool) (d virq : Z).

Definition run_xen_call `{XenEnv} (c : xen_call) : M eworld unit :=
  match c with
  | XAlloc d v r fn => let! _ := alloc_unbound_xen_event_channel d v r fn in ret tt
  | XFree d p => free_xen_event_channel d p
  | XNotify d p => notify_via_xen_event_channel d p
  | XVcpuVirq d v virq => send_guest_vcpu_virq d v virq
  | XGlobalVirq virq => send_global_virq virq
  | XPirq d pirq => send_guest_pirq d pirq
  | XMovePirqs d v => evtchn_move_pirqs d v
  | XHandler live d virq => let! _ := set_global_virq_handler live d virq in ret tt
  end.

(** What the callers in the hypervisor guarantee: their assertions. *)
Definition xen_pre (w : eworld) (c : xen_call) : Prop :=
  match c with
  | XAlloc d v _ fn => (exists x, doms w !! d = Some x /\ is_Some (vcpus x !! v)) /\ has_slot w fn
  | XFree d p | XNotify d p => exists c, chan w d p = Some c /\ consumer_is_xen c = true
  | XVcpuVirq d v virq => (exists x, doms w !! d = Some x /\ is_Some (vcpus x !! v)) /\ virq_is_global virq = false
  | XGlobalVirq virq => 0 <= virq < NR_VIRQS /\ virq_is_global virq = true
  | XPirq d pirq => exists x, doms w !! d = Some x /\ (is_hvm x = true \/ pirq_to_evtchn x pirq <> 0)
  | XMovePirqs d v => exists x, doms w !! d = Some x /\ is_Some (vcpus x !! v)
  | XHandler _ _ _ => True
  end.

Lemma handler_safe live d virq w : winv w -> safe (set_global_virq_handler live d virq) w.
Proof.
  intros Hw. assert (forall w', doms w' = doms w -> xen_consumers w' = xen_consumers w -> winv w' /\ stable w w') as Hend.
  { intros w' E1 E2. split; [by eapply winv_same|]. split; unfold chan; rewrite E1; [intros e x Hx; by exists x|]. intros e p c Hc. exists c. split; [done|]. intros _. apply kin_refl. }
  unfold set_global_virq_handler, safe. destruct (NR_VIRQS <=? virq); [wp_step; by apply Hend|]. destruct (virq_is_global virq); cbn [negb]; [|wp_step; by apply Hend].
  wp_step. wp_step. case_bool_decide; [wp_step; by apply Hend|]. destruct live; cbn [negb]; [|wp_step; by apply Hend].
  wp_step. apply wp_request. wp_step. wp_step. wp_step. destruct (global_virq_handlers w !! virq); [apply wp_request|wp_step]; wp_step; by apply Hend.
Qed.

Lemma xen_call_safe `{XenEnv} c w :
  (forall w, winv w -> winv (others w) /\ stable w (others w)) -> alloc_security_fails = false -> winv w -> xen_pre w c -> safe (run_xen_call c) w.
Proof.
  intros Ho Hf Hw Hp. destruct c; simpl in *.
  - destruct Hp as [(x & Hx & Hv) Hs]. unfold safe. wp_step. eapply wp_mono; [by eapply alloc_xen_safe|]. intros r w' Hw'. by wp_step.
  - destruct Hp as (c & Hc & Hx). by eapply free_xen_safe.
  - destruct Hp as (c & Hc & Hx). by eapply notify_via_safe.
  - destruct Hp as [(x & Hx & Hv) Hg]. by eapply vcpu_virq_safe.
  - destruct Hp as [Hr Hg]. by apply global_virq_safe.
  - destruct Hp as (x & Hx & Hp). by eapply pirq_safe.
  - destruct Hp as (x & Hx & Hv). by eapply move_pirqs_safe.
  - unfold safe. wp_step. eapply wp_mono; [by apply handler_safe|]. intros r w' Hw'. by wp_step.
Qed.

(** ** Two domains *)

Definition plain_env : XenEnv := {|
  dom_addr d := - d; evtchn_alloc_ok _ := true; alloc_security_fails := false; xsm_unbound _ _ _ := 0; xsm_interdomain _ _ _ _ := 0;
  xsm_send _ _ := 0; xsm_status _ _ := 0; xsm_reset _ _ := 0; is_priv_for _ _ := false; pirq_alloc_ok _ := true; pirq_bind_rc _ _ := 0; pirq_is_mapped _ _ := false; others w := w |}.

Lemma plain_others w : winv w -> winv (others (XenEnv := plain_env) w) /\ stable w (others (XenEnv := plain_env) w).
Proof. intros Hw. split; [done|apply stable_refl]. Qed.

Definition vcpu_new : vcpu := Vcpu ∅ 0 ∅ false 0 false.
Definition domain_new : domain := Domain false false 64 0 ∅ ∅ ∅ ∅ ∅ 256 ∅ [].
Definition domain_ready : domain := with_vcpus 2 (<[0 := vcpu_new]> {[1 := vcpu_new]}) (set_poll_mask ∅ (set_buckets {[0 := Live first_bucket]} domain_new)).
Definition two_domains : eworld := EWorld (<[1 := domain_ready]> {[2 := domain_ready]}) [] ∅ [].

Lemma domain_ready_ok : dom_ok 0 domain_ready.
Proof.
  assert (new_domain domain_new) as Hn by (split; simpl; auto; intros irq p; by rewrite lookup_empty).
  apply (init_dom_ok _ _ _ _ Hn). split; [by eexists|]. intros v y Hy.
  assert ((v = 0 \/ v = 1) /\ y = vcpu_new) as [Hv ->].
  { destruct (decide (v = 0)) as [->|Hne]; [rewrite lookup_insert_eq in Hy; injection Hy as <-; auto|]. rewrite lookup_insert_ne in Hy by done.
    apply lookup_singleton_Some in Hy as [<- <-]. auto. }
  split_and!; [destruct Hv; lia|destruct Hv; lia| |done]. intros i. unfold virq_port. simpl. by rewrite lookup_empty.
Qed.

Lemma two_domains_lookup d x : doms two_domains !! d = Some x -> x = domain_ready.
Proof.
  simpl. destruct (decide (d = 1)) as [->|Hne]; [rewrite lookup_insert_eq; by intros [= <-]|]. rewrite lookup_insert_ne by done. by intros [_ <-]%lookup_singleton_Some.
Qed.

Lemma two_domains_ok : winv two_domains.
Proof.
  split; [|intros d p d2 p2|simpl; lia].
  - intros d x ->%two_domains_lookup. apply domain_ready_ok.
  - unfold link, chan. destruct (doms two_domains !! d) as [x|] eqn:Hx; [|done]. apply two_domains_lookup in Hx as ->. simpl.
    destruct (chn_at domain_ready p) as [c|] eqn:Hc; [|done]. rewrite first_bucket_at in Hc; [|by right|done]. case_decide; [|done]. injection Hc as <-. by case_decide.
Qed.

(** ** A send between connected ports *)

Lemma send_linked `{XenEnv} d p rd rp c rc w :
  winv w -> chan w d p = Some c -> state c = ECS_INTERDOMAIN rd rp -> chan w rd rp = Some rc ->
  consumer_is_xen c = false -> consumer_is_xen rc = false -> xsm_send d p = 0 ->
  wp no_error (evtchn_send d p) (fun r w' => r = 0 /\ delivered rd (notify_vcpu_id rc) rp w w') w.
Proof.
  intros Hw Hc Hs Hrc Hx Hrx Hxsm. destruct (chan_inv _ _ _ _ Hc) as (x & Hd & Hcx). destruct (chan_inv _ _ _ _ Hrc) as (y & Hrd & Hry).
  unfold evtchn_send. wp_step. eapply wp_get_dom; [done|]. rewrite (proj1 (chn_at_valid _ _ _ Hcx)). cbn [negb].
  wp_step. eapply wp_get_chan; [done|]. rewrite Hx, Hxsm, Hs. cbn [negb Z.eqb]. wp_step. eapply wp_get_chan; [done|]. rewrite Hrx. wp_step.
  pose proof (wi_dom _ Hw rd y Hrd) as Hok. pose proof (bo_chans _ _ (do_base _ _ Hok) rp rc Hry) as [D1 _ _ _].
  eapply wp_mono; [by eapply set_pending_spec; [|apply Hok|]|]. intros [] w' D. by wp_step.
Qed.

(** ** The theorems *)


(** C17: a connection carries events both ways: when a domain connects a port to a port that
    its peer left unbound for it, a send on the new port makes the peer's port pending and a send
    on the peer's port makes the new port pending; if the event was neither pending nor masked the
    virtual processor the port notifies gets its upcall, and nobody keeps polling for it. *)
Theorem evtchn_event_arrives `{XenEnv} cur rdom rport w :
  alloc_security_fails = false -> (forall d p, xsm_send d p = 0) -> winv w -> is_Some (doms w !! cur) ->
  exists rc lport w', evtchn_bind_interdomain cur rdom rport w = Ok (rc, lport, w') /\
    (rc = 0 -> forall c, chan w (remote cur rdom) rport = Some c -> consumer_is_xen c = false ->
      (exists w1, evtchn_send cur lport w' = Ok (0, w1) /\ delivered (remote cur rdom) (notify_vcpu_id c) rport w' w1) /\
      (exists w2, evtchn_send (remote cur rdom) rport w' = Ok (0, w2) /\ delivered cur 0 lport w' w2)).
Proof.
  intros Hf Hxsm Hw Hd. destruct (wp_total _ _ _ (bind_interdomain_spec Hf cur rdom rport w Hw Hd)) as ([rc lport] & w' & E & Hw' & _ & Hcon).
  exists rc, lport, w'. split; [done|]. intros Hrc c Hc Hx. destruct (Hcon Hrc) as (c' & Hc' & Hs & Hl & Hr). assert (c' = c) as -> by congruence. split.
  - destruct (wp_total _ _ _ (send_linked _ _ _ _ _ _ w' Hw' Hl eq_refl Hr eq_refl Hx (Hxsm _ _))) as (r & w1 & E1 & -> & D). by exists w1.
  - destruct (wp_total _ _ _ (send_linked _ _ _ _ _ _ w' Hw' Hr eq_refl Hl Hx eq_refl (Hxsm _ _))) as (r & w2 & E2 & -> & D). by exists w2.
Qed.

(** C23: nothing of a destroyed domain is left: when a dying domain's event channels are
    destroyed, it has no port afterwards, no port of any other domain is connected to
    one of its ports, it handles no global virtual interrupt, and the other domains keep theirs, in
    tables that agree. *)
Theorem evtchn_destroy_clears `{XenEnv} d w :
  (forall w, winv w -> winv (others w) /\ stable w (others w)) -> winv w -> dying w d ->
  exists w', evtchn_destroy d w = Ok (tt, w') /\ destroyed d w w'.
Proof. intros Ho Hw Hd. destruct (wp_total _ _ _ (destroy_spec Ho d w Hw Hd)) as ([] & w' & E & P). by exists w'. Qed.

(** The hypervisor's own uses of event channels keep the tables too: the channels a device
    model or another consumer inside the hypervisor allocates, frees and notifies, the virtual
    and physical interrupts it delivers, and the move of physical interrupts to the processor
    a virtual processor runs on, all return under the assertions their callers guarantee, and keep
    the agreement of the tables that the guests' calls rely on. *)
Theorem xen_calls_safe `{XenEnv} c w :
  (forall w, winv w -> winv (others w) /\ stable w (others w)) -> alloc_security_fails = false ->
  winv w -> xen_pre w c -> exists w', run_xen_call c w = Ok (tt, w') /\ winv w' /\ stable w w'.
Proof. intros Ho Hf Hw Hp. destruct (wp_total _ _ _ (xen_call_safe c w Ho Hf Hw Hp)) as ([] & w' & E & P). by exists w'. Qed.

(** ** The theorems at work *)

Definition after {A} (m : M eworld A) (w : eworld) : eworld := match m w with Ok (_, w') => w' | Err _ => w end.

Lemma after_safe {A} (m : M eworld A) w : safe m w -> winv (after m w).
Proof. unfold safe, wp, after. destruct (m w) as [[a w']|e]; [by intros [? _]|done]. Qed.

Definition calls (l : list (Z * evtchn_op)) : list call := (fun '(d, op) => Call true true d op) <$> l.

Lemma calls_ok l w : winv w -> forallb (fun '(d, _) => bool_decide (is_Some (doms w !! d))) l = true -> winv (after (hypercalls (H := plain_env) (calls l)) w).
Proof.
  intros Hw Hl. apply after_safe, hypercalls_safe; [apply plain_others|done|done|]. intros c. unfold calls. intros ([d op] & -> & Hin)%list_elem_of_fmap.
  rewrite forallb_forall in Hl. apply list_elem_of_In in Hin. specialize (Hl _ Hin). simpl in *. by apply bool_decide_eq_true in Hl.
Qed.

(** Domain 1 leaves its port 1 unbound for domain 2; then domain 2 connects to it. *)
Definition offered : eworld := after (hypercalls (H := plain_env) (calls [(1, EVTCHNOP_alloc_unbound DOMID_SELF 2)])) two_domains.
Definition joined : eworld := after (hypercalls (H := plain_env) (calls [(2, EVTCHNOP_bind_interdomain 1 1)])) offered.

Lemma offered_ok : winv offered.
Proof. apply calls_ok; [apply two_domains_ok|by vm_compute]. Qed.

Lemma joined_ok : winv joined.
Proof. apply calls_ok; [apply offered_ok|by vm_compute]. Qed.

(** Domain 1 is killed. *)
Definition killed (x : domain) : domain :=
  Domain true (is_hvm x) (word x) (max_vcpus x) (vcpus x) (buckets x) (evtchn_pending x) (evtchn_mask x) (poll_mask x) (nr_pirqs x) (pirqs x) (irq_caps x).
Definition kill (w : eworld) : eworld := set_doms (alter killed 1 (doms w)) w.

Lemma kill_chan w d p : chan (kill w) d p = chan w d p.
Proof. unfold chan, kill. simpl. destruct (decide (d = 1)) as [->|Hne]; [rewrite lookup_alter_eq; by destruct (doms w !! 1)|by rewrite lookup_alter_ne]. Qed.

Lemma killed_ok nc x : dom_ok nc x -> dom_ok nc (killed x).
Proof. intros [[B1 B2 B3 B4 B5 B6] V P]. split; [split|exact V|exact P]; try done. by apply (ports_ok_ext x). Qed.

Lemma kill_ok w : winv w -> winv (kill w).
Proof.
  intros [W1 W2 W3]. split; [|intros d p d2 p2; unfold link; rewrite !kill_chan; apply W2|done]. intros d x. simpl. destruct (decide (d = 1)) as [->|Hne].
  - rewrite lookup_alter_eq. destruct (doms w !! 1) as [y|] eqn:Hy; [|done]. intros [= <-]. by apply killed_ok, (W1 1).
  - rewrite lookup_alter_ne by done. apply W1.
Qed.

Definition script : list call := calls
  [(1, EVTCHNOP_alloc_unbound DOMID_SELF 2); (2, EVTCHNOP_bind_interdomain 1 1); (2, EVTCHNOP_send 1); (1, EVTCHNOP_bind_virq 0 1);
   (1, EVTCHNOP_bind_virq 0 1); (1, EVTCHNOP_bind_ipi 1); (1, EVTCHNOP_bind_ipi 7); (1, EVTCHNOP_bind_vcpu 1 1); (2, EVTCHNOP_close 1);
   (2, EVTCHNOP_close 99999); (1, EVTCHNOP_status DOMID_SELF 1); (1, EVTCHNOP_unmask 3); (1, EVTCHNOP_reset DOMID_SELF)].


Lemma evtchn_event_arrives_witness : exists w1,
  let w' := after (evtchn_bind_interdomain (H := plain_env) 2 1 1) offered in
  evtchn_send (H := plain_env) 2 1 w' = Ok (0, w1) /\ delivered 1 0 1 w' w1.
Proof.
  destruct (evtchn_event_arrives (H := plain_env) 2 1 1 offered eq_refl ltac:(done) offered_ok ltac:(by eexists)) as (rc & lport & w' & E & Hs).
  assert (rc = 0 /\ lport = 1) as [-> ->].
  { assert (match evtchn_bind_interdomain (H := plain_env) 2 1 1 offered with Ok (r, _) => r = (0, 1) | Err _ => False end) as Hr by by vm_compute.
    rewrite E in Hr. by injection Hr as -> ->. }
  destruct (Hs eq_refl (Evtchn (ECS_UNBOUND 2) 0 0)) as [(w1 & E1 & D1) _]; [by vm_compute|done|].
  exists w1. unfold after. rewrite E. split; [exact E1|exact D1].
Defined.

Lemma evtchn_destroy_clears_witness : exists w', evtchn_destroy (H := plain_env) 1 (kill joined) = Ok (tt, w') /\ destroyed 1 (kill joined) w'.
Proof.
  apply evtchn_destroy_clears; [apply plain_others|apply kill_ok, joined_ok|]. eexists. split; [by vm_compute|done].
Defined.

Lemma xen_calls_safe_witness : exists w', run_xen_call (H := plain_env) (XAlloc 1 1 2 5) two_domains = Ok (tt, w') /\ winv w' /\ stable two_domains w'.
Proof.
  apply xen_calls_safe; [apply plain_others|done|apply two_domains_ok|]. split; [eexists; split; [done|by eexists]|]. unfold has_slot. apply Nat.ltb_lt. by vm_compute.
Defined.

(** ** When the allocation of a security label fails *)

(** The new bucket is freed but stays in the domain's table. *)
Definition failing_env : XenEnv := {|
  dom_addr d := - d; evtchn_alloc_ok _ := true; alloc_security_fails := true; xsm_unbound _ _ _ := 0; xsm_interdomain _ _ _ _ := 0;
  xsm_send _ _ := 0; xsm_status _ _ := 0; xsm_reset _ _ := 0; is_priv_for _ _ := false; pirq_alloc_ok _ := true; pirq_bind_rc _ _ := 0; pirq_is_mapped _ _ := false; others w := w |}.

(** A domain whose first bucket is full of inter-processor interrupts. *)
Definition full_domain : eworld :=
  after (hypercalls (H := plain_env) (calls (replicate 127 (1, EVTCHNOP_bind_ipi 0)))) two_domains.

(** The next allocation reports that memory ran out, and then any call on a port of the
    bucket, here a close, reads freed memory. *)
Lemma alloc_failure_dangles :
  match evtchn_bind_ipi (H := failing_env) 1 0 full_domain with
  | Ok (r, w') => r.1 = - ENOMEM /\ winv full_domain /\ __evtchn_close (H := failing_env) 1 128 w' = Err UseAfterFree
  | Err _ => False
  end.
Proof.
  assert (winv full_domain) as Hw by (apply calls_ok; [apply two_domains_ok|by vm_compute]).
  assert (match evtchn_bind_ipi (H := failing_env) 1 0 full_domain with
    | Ok (r, w') => r.1 = - ENOMEM /\ __evtchn_close (H := failing_env) 1 128 w' = Err UseAfterFree | Err _ => False end) as Hr by by vm_compute.
  destruct (evtchn_bind_ipi (H := failing_env) 1 0 full_domain) as [[r w']|]; tauto.
Qed.
