(* ===== verification/PageAlloc.v ===== *)
(** * The allocator of machine pages

    [src/xen/common/page_alloc.c], the binary buddy allocator and the heap of the domains, as
    built for x86_64. Free pages are kept in blocks of [2^order] pages, in lists by memory
    node, zone and order. The file has the operations and the state; [PageFacts] and the files
    after it have the theorems.

    A page is known by its frame number, so [pg + i] is the frame [i] behind [pg]. *)

From S2P Require Import Prelude.
From S2P Require Import Xen.

Definition MAX_ORDER : Z := 18.
Definition NR_ZONES : Z := 40.
Definition MEMZONE_XEN : Z := 0.
Definition MAX_NUMNODES : Z := 64.
Definition NUMA_NO_NODE : Z := 0xff.
Definition PAGE_SHIFT : Z := 12.
Definition MIDSIZE_ALLOC_FRAC : Z := 128.

(** ** Flags *)

Definition PGC_allocated : Z := 2 ^ 63.
Definition PGC_xen_heap : Z := 2 ^ 62.
Definition PGC_broken : Z := 2 ^ 57.
Definition PGC_state : Z := 3 * 2 ^ 55.
Definition PGC_state_inuse : Z := 0.
Definition PGC_state_offlining : Z := 2 ^ 55.
Definition PGC_state_offlined : Z := 2 ^ 56.
Definition PGC_state_free : Z := 3 * 2 ^ 55.
Definition PGC_count_mask : Z := 2 ^ 55 - 1.
Definition PGT_count_mask : Z := 2 ^ 55 - 1.

Definition MEMF_no_refcount : Z := 1.
Definition MEMF_no_dma : Z := 8.
Definition MEMF_exact_node : Z := 16.

(** Some bit of the mask [m] is set in [x]. *)
Definition has_flag (x m : Z) : bool := negb (Z.land x m =? 0).

(** ** State *)

(** [struct page_info]. The two members of the union [v] share the field [v]: the owner of a
    page in use, zero for none, and the order of a free block in its first page. Of the union
    [u] the fields [need_tlbflush] and [type_info] are used at different times. *)
Record page_info : Type := Page {
  count_info : Z;
  v : Z;
  type_info : Z;
  need_tlbflush : bool;
  tlbflush_timestamp : Z
}.

(** [struct domain], what the allocator uses of it; its lists of pages, the one of pages to be
    relinquished included. *)
Record hdom : Type := HDom {
  hd_dying : bool;
  tot_pages : Z;
  max_pages : Z;
  xenheap_pages : Z;
  page_list : list Z;
  xenpage_list : list Z;
  relmem_list : list Z;
  last_alloc_node : Z;
  node_affinity : gset Z
}.

Inductive hevent : Type :=
| SendGlobalVirq | FlushTlb (cpus : gset Z) | Scrub (mfn : Z) | GetKnownAlive (d : Z) | PutDom (d : Z) | CrashDomain (d : Z) | PodReplace (mfn : Z) | NodeHeapAt (node mfn : Z)
| PhysmapAdd (d gpfn mfn order : Z) | PhysmapRemove (d gmfn mfn : Z) | PagingDrop (d gmfn : Z) | SharingEnomem (d gmfn : Z) | ExtentWrite (i mfn : Z).

(** [heap_nodes] are the nodes with a heap, those for which [avail] is not [NULL]. *)
Record hworld : Type := HWorld {
  pages : gmap Z page_info;
  heap : gmap (Z * Z * Z) (list Z);
  heap_nodes : gset Z;
  avail : gmap (Z * Z) Z;
  total_avail_pages : Z;
  midsize_alloc_zone_pages : Z;
  page_offlined_list : list Z;
  page_broken_list : list Z;
  low_mem_virq_high : Z;
  low_mem_virq_th : Z;
  low_mem_virq_orig : Z;
  low_mem_virq_th_order : Z;
  hdoms : gmap Z hdom;
  m2p : gmap Z Z;
  events : list hevent
}.

Definition set_pages m w := HWorld m (heap w) (heap_nodes w) (avail w) (total_avail_pages w) (midsize_alloc_zone_pages w) (page_offlined_list w) (page_broken_list w) (low_mem_virq_high w) (low_mem_virq_th w) (low_mem_virq_orig w) (low_mem_virq_th_order w) (hdoms w) (m2p w) (events w).
Definition set_heap m w := HWorld (pages w) m (heap_nodes w) (avail w) (total_avail_pages w) (midsize_alloc_zone_pages w) (page_offlined_list w) (page_broken_list w) (low_mem_virq_high w) (low_mem_virq_th w) (low_mem_virq_orig w) (low_mem_virq_th_order w) (hdoms w) (m2p w) (events w).
Definition set_counts a t w := HWorld (pages w) (heap w) (heap_nodes w) a t (midsize_alloc_zone_pages w) (page_offlined_list w) (page_broken_list w) (low_mem_virq_high w) (low_mem_virq_th w) (low_mem_virq_orig w) (low_mem_virq_th_order w) (hdoms w) (m2p w) (events w).
Definition set_midsize n w := HWorld (pages w) (heap w) (heap_nodes w) (avail w) (total_avail_pages w) n (page_offlined_list w) (page_broken_list w) (low_mem_virq_high w) (low_mem_virq_th w) (low_mem_virq_orig w) (low_mem_virq_th_order w) (hdoms w) (m2p w) (events w).
Definition set_off_lists o b w := HWorld (pages w) (heap w) (heap_nodes w) (avail w) (total_avail_pages w) (midsize_alloc_zone_pages w) o b (low_mem_virq_high w) (low_mem_virq_th w) (low_mem_virq_orig w) (low_mem_virq_th_order w) (hdoms w) (m2p w) (events w).
Definition set_low_mem h t o w := HWorld (pages w) (heap w) (heap_nodes w) (avail w) (total_avail_pages w) (midsize_alloc_zone_pages w) (page_offlined_list w) (page_broken_list w) h t (low_mem_virq_orig w) o (hdoms w) (m2p w) (events w).
Definition set_hdoms m w := HWorld (pages w) (heap w) (heap_nodes w) (avail w) (total_avail_pages w) (midsize_alloc_zone_pages w) (page_offlined_list w) (page_broken_list w) (low_mem_virq_high w) (low_mem_virq_th w) (low_mem_virq_orig w) (low_mem_virq_th_order w) m (m2p w) (events w).
Definition set_m2p m w := HWorld (pages w) (heap w) (heap_nodes w) (avail w) (total_avail_pages w) (midsize_alloc_zone_pages w) (page_offlined_list w) (page_broken_list w) (low_mem_virq_high w) (low_mem_virq_th w) (low_mem_virq_orig w) (low_mem_virq_th_order w) (hdoms w) m (events w).
Definition set_events l w := HWorld (pages w) (heap w) (heap_nodes w) (avail w) (total_avail_pages w) (midsize_alloc_zone_pages w) (page_offlined_list w) (page_broken_list w) (low_mem_virq_high w) (low_mem_virq_th w) (low_mem_virq_orig w) (low_mem_virq_th_order w) (hdoms w) (m2p w) l.

(** What is outside the model: the memory map of the machine, the processors, transcendent
    memory, the clamp on the addresses of a domain, populate-on-demand. *)
Class HeapEnv := {
  mfn_valid : Z -> bool;
  phys_to_nid : Z -> Z;
  node_online_map : gset Z;
  this_node : Z;
  cpu_online_map : gset Z;
  NEED_FLUSH : Z -> Z -> bool;
  tlbflush_current_time : Z;
  machine_to_phys_mapping_valid : bool;
  opt_tmem : bool;
  tmem_freeable_pages : hworld -> Z;
  tmem_relinquish_pages : Z -> Z -> hworld -> option Z;
  dma_bitsize : Z;
  domain_clamp_alloc_bitsize : option Z -> Z -> Z;
  dom_cow : Z;
  page_is_ram : Z -> bool;
  is_xen_fixed_mfn : Z -> bool;
  p2m_pod_hit : Z -> bool
}.

(** ** Access *)

Definition get_page (m : Z) : M hworld page_info := let! ps := gets pages in of_option OutOfBounds (ps !! m).
Definition mod_page (m : Z) (f : page_info -> page_info) : M hworld unit :=
  let! p := get_page m in modify (fun w => set_pages (<[m := f p]> (pages w)) w).
Definition event (e : hevent) : M hworld unit := modify (fun w => set_events (events w ++ [e]) w).

Definition set_count_info c p := Page c (v p) (type_info p) (need_tlbflush p) (tlbflush_timestamp p).
Definition set_v n p := Page (count_info p) n (type_info p) (need_tlbflush p) (tlbflush_timestamp p).
Definition set_type_info t p := Page (count_info p) (v p) t (need_tlbflush p) (tlbflush_timestamp p).
Definition set_flush b t p := Page (count_info p) (v p) (type_info p) b t.

Definition page_state_is (p : page_info) (st : Z) : bool := Z.land (count_info p) PGC_state =? st.
Definition PFN_ORDER (p : page_info) : Z := v p.
Definition page_get_owner (p : page_info) : option Z := if v p =? 0 then None else Some (v p).
Definition page_set_owner (d : option Z) : page_info -> page_info := set_v (default 0 d).

(** [fls(mfn) - 1] is the number of the highest bit. *)
Definition page_to_zone (m : Z) (p : page_info) : Z := if has_flag (count_info p) PGC_xen_heap then MEMZONE_XEN else Z.log2 m.
Definition bits_to_zone (b : Z) : Z := if b <? PAGE_SHIFT + 1 then 0 else b - PAGE_SHIFT - 1.

(** ** Lists of pages *)

Definition free_list (k : Z * Z * Z) (w : hworld) : list Z := default [] (heap w !! k).
Definition page_list_add_tail (m : Z) (k : Z * Z * Z) : M hworld unit :=
  modify (fun w => set_heap (<[k := free_list k w ++ [m]]> (heap w)) w).
(** The links of a page that is in no list are what was last stored there. *)
Definition page_list_del (m : Z) (k : Z * Z * Z) : M hworld unit :=
  let! l := gets (free_list k) in
  if bool_decide (m ∈ l) then modify (fun w => set_heap (<[k := filter (fun x => x <> m) l]> (heap w)) w)
  else fail Uninitialized.
Definition page_list_remove_head (k : Z * Z * Z) : M hworld (option Z) :=
  let! l := gets (free_list k) in
  match l with
  | [] => ret None
  | m :: l => modify (fun w => set_heap (<[k := l]> (heap w)) w) ;;; ret (Some m)
  end.

(** [avail[node][zone]]; the array of nodes has [MAX_NUMNODES] elements. *)
Definition avail_at (k : Z * Z) (w : hworld) : Z := default 0 (avail w !! k).
Definition get_avail (node zone : Z) : M hworld (option Z) :=
  if bool_decide (0 <= node < MAX_NUMNODES) then
    let! w := gets id in
    ret (if bool_decide (node ∈ heap_nodes w) then Some (avail_at (node, zone) w) else None)
  else fail OutOfBounds.
Definition add_avail (node zone n : Z) : M hworld unit :=
  let! a := get_avail node zone in
  match a with
  | None => fail NullDeref
  | Some a => modify (fun w => set_counts (<[(node, zone) := a + n]> (avail w)) (total_avail_pages w + n) w)
  end.

(** ** Sets of nodes *)

Definition find_from (n : Z) (mask : gset Z) : Z :=
  match list_find (fun i => i ∈ mask) (seqZ n (MAX_NUMNODES - n)) with Some (_, i) => i | None => MAX_NUMNODES end.
Definition first_node (mask : gset Z) : Z := find_from 0 mask.
Definition next_node (n : Z) (mask : gset Z) : Z := find_from (n + 1) mask.

(** ** Low memory *)

Definition check_low_mem_virq `{HeapEnv} : M hworld unit :=
  let! w := gets id in
  let avail_pages := total_avail_pages w + (if opt_tmem then tmem_freeable_pages w else 0) in
  if avail_pages <=? low_mem_virq_th w then
    event SendGlobalVirq ;;;
    let order := if 0 <? low_mem_virq_th_order w then low_mem_virq_th_order w - 1 else low_mem_virq_th_order w in
    modify (set_low_mem (u64 (Z.shiftl 1 (low_mem_virq_th_order w + 1))) (u64 (Z.shiftl 1 order)) order)
  else if low_mem_virq_high w <=? avail_pages then
    let order := low_mem_virq_th_order w + 1 in
    let th := u64 (Z.shiftl 1 order) in
    modify (set_low_mem (if th =? low_mem_virq_orig w then UINT64_MAX else u64 (Z.shiftl 1 (order + 2))) th order)
  else ret tt.

Section Heap.
Context `{HeapEnv}.

(** ** Allocation *)

(** The list of the smallest order that is not empty. *)
Fixpoint find_order (n : nat) (node zone j : Z) : M hworld (option (Z * Z)) :=
  match n with
  | O => ret None
  | S n =>
      let! r := page_list_remove_head (node, zone, j) in
      match r with
      | Some pg => ret (Some (pg, j))
      | None => find_order n node zone (j + 1)
      end
  end.

(** The zones from the highest down. *)
Fixpoint find_zone (n : nat) (node zone order : Z) : M hworld (option (Z * Z * Z)) :=
  match n with
  | O => ret None
  | S n =>
      let! a := get_avail node zone in
      let! r :=
        match a with
        | None => ret None
        | Some a => if a <? Z.shiftl 1 order then ret None else find_order (Z.to_nat (MAX_ORDER + 1 - order)) node zone order
        end in
      match r with
      | Some (pg, j) => ret (Some (zone, pg, j))
      | None => find_zone n node (zone - 1) order
      end
  end.

(** The nodes of the mask in turn, from the preferred one, then the others. *)
Fixpoint find_node {A} (fuel : nat) (try : Z -> M hworld (option A)) (exact : bool) (node first : Z) (mask : gset Z) (retry : bool) : M hworld (option (Z * A)) :=
  match fuel with
  | O => fail OutOfFuel
  | S fuel =>
      let! r := try node in
      let others :=
        if retry then ret None
        else
          let mask := node_online_map ∖ mask in
          let node := first_node mask in
          if MAX_NUMNODES <=? node then ret None else find_node fuel try exact node node mask true in
      match r with
      | Some a => ret (Some (node, a))
      | None =>
          if exact then ret None
          else if negb (bool_decide (node ∈ mask)) then
            assert_ (negb retry) ;;;
            let node := first_node mask in
            if node <? MAX_NUMNODES then find_node fuel try exact node node mask retry else others
          else
            let next := next_node node mask in
            let next := if MAX_NUMNODES <=? next then first_node mask else next in
            if next =? first then others else find_node fuel try exact next first mask retry
      end
  end.

(** The unused halves go back to the lists. *)
Fixpoint halve (n : nat) (node zone pg j : Z) : M hworld Z :=
  match n with
  | O => ret pg
  | S n =>
      let j := j - 1 in
      mod_page pg (set_v j) ;;;
      page_list_add_tail pg (node, zone, j) ;;;
      halve n node zone (pg + Z.shiftl 1 j) j
  end.

(** A page is taken into use; the processors whose TLB may still map it are collected. *)
Definition use_page (m : Z) (mask : gset Z) : M hworld (gset Z) :=
  let! p := get_page m in
  (if count_info p =? PGC_state_free then ret tt else fail Abort) ;;;
  mod_page m (fun p => page_set_owner None (set_type_info 0 (set_count_info PGC_state_inuse p))) ;;;
  ret (if need_tlbflush p then mask ∪ filter (fun c => NEED_FLUSH c (tlbflush_timestamp p) = true) (cpu_online_map ∖ mask) else mask).

(** [d] is the domain the pages are for, if any. *)
Definition start_node (node : Z) (d : option hdom) (mask : gset Z) : Z :=
  if node =? NUMA_NO_NODE then
    let node :=
      match d with
      | Some x => let n := next_node (last_alloc_node x) mask in if MAX_NUMNODES <=? n then first_node mask else n
      | None => node
      end in
    if MAX_NUMNODES <=? node then this_node else node
  else node.

Definition get_hdom (d : Z) : M hworld hdom := let! ds := gets hdoms in of_option NullDeref (ds !! d).
Definition mod_hdom (d : Z) (f : hdom -> hdom) : M hworld unit :=
  let! x := get_hdom d in modify (fun w => set_hdoms (<[d := f x]> (hdoms w)) w).
Definition set_last_node n x := HDom (hd_dying x) (tot_pages x) (max_pages x) (xenheap_pages x) (page_list x) (xenpage_list x) (relmem_list x) n (node_affinity x).

Definition opt_hdom (d : option Z) : M hworld (option hdom) :=
  match d with Some d => let! x := get_hdom d in ret (Some x) | None => ret None end.

(** Every node of a mask is tried once, the preferred one perhaps twice. *)
Definition node_fuel : nat := 130.

(** The counters, and the pages of the block. *)
Definition take_pages (node zone order pg : Z) (d : option Z) : M hworld unit :=
  let! a := get_avail node zone in
  assert_ (bool_decide (Z.shiftl 1 order <= default 0 a)) ;;;
  add_avail node zone (- Z.shiftl 1 order) ;;;
  let! t := gets total_avail_pages in
  assert_ (0 <=? t) ;;;
  check_low_mem_virq ;;;
  match d with Some d => mod_hdom d (set_last_node node) | None => ret tt end ;;;
  let! mask := for_acc (Z.to_nat (Z.shiftl 1 order)) pg use_page ∅ in
  when (negb (bool_decide (mask = ∅))) (event (FlushTlb mask)).

Definition alloc_from (zone_lo zone_hi order : Z) (exact : bool) (node : Z) (nodemask : gset Z) (d : option Z) : M hworld (option Z) :=
  let! r := find_node node_fuel (fun node => find_zone (Z.to_nat (zone_hi - zone_lo + 1)) node zone_hi order) exact node node nodemask false in
  match r with
  | None => ret None
  | Some (node, (zone, pg, j)) =>
      let! pg := halve (Z.to_nat (j - order)) node zone pg j in
      take_pages node zone order pg d ;;;
      ret (Some pg)
  end.

Definition alloc_heap_pages (zone_lo zone_hi order memflags : Z) (d : option Z) : M hworld (option Z) :=
  let! x := opt_hdom d in
  let nodemask := match x with Some x => node_affinity x | None => node_online_map end in
  let req := u8 (Z.shiftr memflags 8 - 1) in
  let memflags := if req =? NUMA_NO_NODE then Z.ldiff memflags MEMF_exact_node else memflags in
  let exact := has_flag memflags MEMF_exact_node in
  let node := start_node req x nodemask in
  assert_ (zone_lo <=? zone_hi) ;;;
  assert_ (zone_hi <? NR_ZONES) ;;;
  if MAX_ORDER <? order then ret None
  else
    let! w := gets id in
    if opt_tmem && ((order =? 0) || (9 <=? order)) && (total_avail_pages w <=? midsize_alloc_zone_pages w) && negb (tmem_freeable_pages w =? 0)
    then ret (tmem_relinquish_pages order memflags w)
    else
      alloc_from zone_lo zone_hi order exact node nodemask d.

(** ** Pages taken out of service *)

(** The pages from [m] on are not offlined. *)
Fixpoint none_offlined (n : nat) (m : Z) : M hworld bool :=
  match n with
  | O => ret true
  | S n => let! p := get_page m in if page_state_is p PGC_state_offlined then ret false else none_offlined n (m + 1)
  end.

(** The order of the block that starts at [cur], at most up to the end of the old block. *)
Fixpoint grow_order (n : nat) (cur finish cur_order head_order : Z) : M hworld Z :=
  match n with
  | O => fail OutOfFuel
  | S n =>
      if cur_order <? head_order then
        if finish <=? cur + Z.shiftl 1 (cur_order + 1) then ret cur_order
        else
          let! b := none_offlined (Z.to_nat (Z.shiftl 1 cur_order)) (cur + Z.shiftl 1 cur_order) in
          if b then grow_order n cur finish (cur_order + 1) head_order else ret cur_order
      else fail OutOfFuel
  end.

Fixpoint requeue (n : nat) (node zone cur finish head_order : Z) : M hworld unit :=
  match n with
  | O => if finish <=? cur then ret tt else fail OutOfFuel
  | S n =>
      if finish <=? cur then ret tt
      else
        let! p := get_page cur in
        if page_state_is p PGC_state_offlined then requeue n node zone (cur + 1) finish head_order
        else
          let! o := grow_order (S (Z.to_nat head_order)) cur finish 0 head_order in
          page_list_add_tail cur (node, zone, o) ;;;
          mod_page cur (set_v o) ;;;
          requeue n node zone (cur + Z.shiftl 1 o) finish head_order
  end.

Definition take_offlined (node zone m : Z) (count : Z) : M hworld Z :=
  let! p := get_page m in
  if negb (page_state_is p PGC_state_offlined) then ret count
  else
    add_avail node zone (- 1) ;;;
    let! t := gets total_avail_pages in
    assert_ (0 <=? t) ;;;
    modify (fun w => if has_flag (count_info p) PGC_broken then set_off_lists (page_offlined_list w) (page_broken_list w ++ [m]) w
                     else set_off_lists (page_offlined_list w ++ [m]) (page_broken_list w) w) ;;;
    ret (count + 1).

Definition reserve_offlined_page (head : Z) : M hworld Z :=
  let! p := get_page head in
  let node := phys_to_nid head in
  let zone := page_to_zone head p in
  let head_order := PFN_ORDER p in
  let finish := head + Z.shiftl 1 head_order in
  page_list_del head (node, zone, head_order) ;;;
  requeue (Z.to_nat (Z.shiftl 1 head_order)) node zone head finish head_order ;;;
  for_acc (Z.to_nat (Z.shiftl 1 head_order)) head (take_offlined node zone) 0.

(** ** Release *)

Definition SHARED_M2P_ENTRY : Z := 2 ^ 64 - 2.
Definition INVALID_M2P_ENTRY : Z := 2 ^ 64 - 1.

Definition set_gpfn_from_mfn (m pfn : Z) : M hworld unit :=
  when machine_to_phys_mapping_valid
    (let! p := get_page m in
     modify (fun w => set_m2p (<[m := if bool_decide (page_get_owner p = Some dom_cow) then SHARED_M2P_ENTRY else pfn]> (m2p w)) w)).

Definition release_page (m : Z) (tainted : bool) : M hworld bool :=
  let! p := get_page m in
  assert_ (negb (page_state_is p PGC_state_offlined)) ;;;
  let c := Z.lor (Z.land (count_info p) PGC_broken) (if page_state_is p PGC_state_offlining then PGC_state_offlined else PGC_state_free) in
  let flush := bool_decide (is_Some (page_get_owner p)) in
  mod_page m (fun p => page_set_owner None (set_flush flush (if flush then tlbflush_current_time else tlbflush_timestamp p) (set_count_info c p))) ;;;
  set_gpfn_from_mfn m INVALID_M2P_ENTRY ;;;
  ret (tainted || (Z.land c PGC_state =? PGC_state_offlined)).

(** The neighbour is the first page of a free block of the same order and node. *)
Definition mergeable (m order node : Z) : M hworld bool :=
  if negb (mfn_valid m) then ret false
  else
    let! p := get_page m in
    ret (page_state_is p PGC_state_free && (PFN_ORDER p =? order) && (phys_to_nid m =? node)).

Fixpoint merge (n : nat) (node zone pg order : Z) : M hworld (Z * Z) :=
  match n with
  | O => ret (pg, order)
  | S n =>
      let mask := Z.shiftl 1 order in
      if has_flag pg mask then
        let! b := mergeable (pg - mask) order node in
        if negb b then ret (pg, order)
        else page_list_del (pg - mask) (node, zone, order) ;;; merge n node zone (pg - mask) (order + 1)
      else
        let! b := mergeable (pg + mask) order node in
        if negb b then ret (pg, order)
        else page_list_del (pg + mask) (node, zone, order) ;;; merge n node zone pg (order + 1)
  end.

Definition free_heap_pages (pg order : Z) : M hworld unit :=
  let node := phys_to_nid pg in
  let! p := get_page pg in
  let zone := page_to_zone pg p in
  assert_ (order <=? MAX_ORDER) ;;;
  let! tainted := for_acc (Z.to_nat (Z.shiftl 1 order)) pg release_page false in
  add_avail node zone (Z.shiftl 1 order) ;;;
  when opt_tmem (modify (fun w => set_midsize (Z.max (midsize_alloc_zone_pages w) (Z.quot (total_avail_pages w) MIDSIZE_ALLOC_FRAC)) w)) ;;;
  let! r := merge (Z.to_nat (MAX_ORDER - order)) node zone pg order in
  let '(pg, order) := r in
  mod_page pg (set_v order) ;;;
  page_list_add_tail pg (node, zone, order) ;;;
  when tainted (let! _ := reserve_offlined_page pg in ret tt).

(** ** Offline and online *)

Definition PG_OFFLINE_OFFLINED : Z := 2.
Definition PG_OFFLINE_PENDING : Z := 4.
Definition PG_OFFLINE_FAILED : Z := 8.
Definition PG_OFFLINE_AGAIN : Z := 16.
Definition PG_OFFLINE_STATUS_OFFLINE_PENDING : Z := 8.
Definition PG_OFFLINE_STATUS_BROKEN : Z := 16.
Definition PG_OFFLINE_XENPAGE : Z := 256.
Definition PG_OFFLINE_ANONYMOUS : Z := 1024.
Definition PG_OFFLINE_NOT_CONV_RAM : Z := 2048.
Definition PG_OFFLINE_OWNED : Z := 4096.
Definition PG_OFFLINE_BROKEN : Z := 8192.
Definition DOMID_XEN : Z := 0x7ff2.
Definition DOMID_INVALID : Z := 0x7ff4.

(** The flags after marking. *)
Definition offline_info (x : Z) (broken : bool) : Z :=
  let nx :=
    if negb (Z.land x PGC_state =? PGC_state_offlined) && negb (Z.land x PGC_state =? PGC_state_offlining)
    then Z.lor (Z.ldiff x PGC_state) (if Z.land x PGC_state =? PGC_state_free then PGC_state_offlined else PGC_state_offlining)
    else x in
  if broken then Z.lor nx PGC_broken else nx.

Definition mark_page_offline (m : Z) (broken : bool) : M hworld Z :=
  assert_ (page_is_ram m) ;;;
  let! p := get_page m in
  mod_page m (set_count_info (offline_info (count_info p) broken)) ;;;
  ret (count_info p).

(** The block of order [i] or above that holds the page. *)
Fixpoint find_block (n : nat) (node zone pg i : Z) (w : hworld) : option Z :=
  match n with
  | O => None
  | S n =>
      match list_find (fun head => head <= pg /\ pg < head + Z.shiftl 1 i) (free_list (node, zone, i) w) with
      | Some (_, head) => Some head
      | None => find_block n node zone pg (i + 1) w
      end
  end.

Definition reserve_heap_page (pg : Z) : M hworld Z :=
  let! p := get_page pg in
  let! w := gets id in
  match find_block (Z.to_nat (MAX_ORDER + 1)) (phys_to_nid pg) (page_to_zone pg p) pg 0 w with
  | Some head => reserve_offlined_page head
  | None => ret (- EINVAL)
  end.

(** The reference is given back at once, so the count is the same afterwards. *)
Definition owner_and_reference (p : page_info) : option Z :=
  if Z.land (u64 (count_info p + 2)) PGC_count_mask <=? 2 then None else page_get_owner p.

(** [owner_id] is the number of the owner. *)
Definition offline_page (owner_id : Z -> Z) (mfn : Z) (broken : bool) : M hworld (Z * Z) :=
  if negb (mfn_valid mfn) then ret (- EINVAL, 0)
  else if is_xen_fixed_mfn mfn then ret (- EPERM, Z.lor (Z.lor PG_OFFLINE_XENPAGE PG_OFFLINE_FAILED) (Z.shiftl DOMID_XEN 16))
  else if negb (page_is_ram mfn) then ret (- EINVAL, Z.lor PG_OFFLINE_FAILED PG_OFFLINE_NOT_CONV_RAM)
  else
    let! p := get_page mfn in
    match (if has_flag (count_info p) PGC_broken then page_get_owner p else None) with
    | Some owner => event (CrashDomain owner) ;;; ret (0, PG_OFFLINE_AGAIN)
    | None =>
        let! old_info := mark_page_offline mfn broken in
        let! p := get_page mfn in
        let with_broken st := if broken then Z.lor st PG_OFFLINE_BROKEN else st in
        if page_state_is p PGC_state_offlined then
          let! _ := reserve_heap_page mfn in ret (0, with_broken PG_OFFLINE_OFFLINED)
        else
          match owner_and_reference p with
          | Some owner =>
              if p2m_pod_hit mfn then event (PodReplace mfn) ;;; ret (0, with_broken PG_OFFLINE_OFFLINED)
              else ret (0, with_broken (Z.lor (Z.lor PG_OFFLINE_OWNED PG_OFFLINE_PENDING) (u32 (Z.shiftl (owner_id owner) 16))))
          | None =>
              if has_flag old_info PGC_xen_heap then ret (0, with_broken (Z.lor (Z.lor PG_OFFLINE_XENPAGE PG_OFFLINE_PENDING) (Z.shiftl DOMID_XEN 16)))
              else ret (0, with_broken (Z.lor (Z.lor PG_OFFLINE_ANONYMOUS PG_OFFLINE_FAILED) (Z.shiftl DOMID_INVALID 16)))
          end
    end.

(** Deleting a page from the list of offlined pages. *)
Definition del_offlined (m : Z) : M hworld unit :=
  let! w := gets id in
  if bool_decide (m ∈ page_offlined_list w) then modify (set_off_lists (filter (fun x => x <> m) (page_offlined_list w)) (page_broken_list w))
  else fail Uninitialized.

Definition online_page (mfn : Z) : M hworld (Z * Z) :=
  if negb (mfn_valid mfn) then ret (- EINVAL, 0)
  else
    let! p := get_page mfn in
    let y := count_info p in
    let st := Z.land y PGC_state in
    let! r :=
      (if has_flag y PGC_broken then ret (- EINVAL, Z.lor PG_OFFLINE_FAILED PG_OFFLINE_BROKEN)
       else if st =? PGC_state_offlined then
         del_offlined mfn ;;; mod_page mfn (set_count_info (Z.lor (Z.ldiff y PGC_state) PGC_state_inuse)) ;;; ret (0, PG_OFFLINE_OFFLINED)
       else if st =? PGC_state_offlining then
         mod_page mfn (set_count_info (Z.lor (Z.ldiff y PGC_state) PGC_state_inuse)) ;;; ret (0, PG_OFFLINE_OFFLINED)
       else ret (0, 0)) in
    when (st =? PGC_state_offlined) (free_heap_pages mfn 0) ;;;
    ret r.

Definition query_page_offline (mfn : Z) : M hworld (Z * Z) :=
  if negb (mfn_valid mfn) || negb (page_is_ram mfn) then ret (- EINVAL, 0)
  else
    let! p := get_page mfn in
    ret (0, Z.lor (Z.lor (if page_state_is p PGC_state_offlining then PG_OFFLINE_STATUS_OFFLINE_PENDING else 0)
                         (if has_flag (count_info p) PGC_broken then PG_OFFLINE_STATUS_BROKEN else 0))
                  (if page_state_is p PGC_state_offlined then PG_OFFLINE_OFFLINED else 0)).

(** ** Queries *)

Definition avail_heap_pages (zone_lo zone_hi node : Z) (w : hworld) : Z :=
  let zone_hi := Z.min zone_hi (NR_ZONES - 1) in
  foldr Z.add 0 ((fun i =>
    if bool_decide (i ∈ heap_nodes w) && ((node =? -1) || (node =? i)) then
      foldr Z.add 0 ((fun zone => avail_at (i, zone) w) <$> seqZ zone_lo (zone_hi - zone_lo + 1)) else 0) <$> elements node_online_map).
Definition total_free_pages (w : hworld) : Z := total_avail_pages w - midsize_alloc_zone_pages w.

(** ** Pages of the hypervisor and of the domains *)

Definition set_dom_pages tot l x := HDom (hd_dying x) tot (max_pages x) (xenheap_pages x) l (xenpage_list x) (relmem_list x) (last_alloc_node x) (node_affinity x).
Definition set_dom_xenpages n l x := HDom (hd_dying x) (tot_pages x) (max_pages x) n (page_list x) l (relmem_list x) (last_alloc_node x) (node_affinity x).
Definition set_relmem l x := HDom (hd_dying x) (tot_pages x) (max_pages x) (xenheap_pages x) (page_list x) (xenpage_list x) l (last_alloc_node x) (node_affinity x).

Definition assign_page (d m : Z) : M hworld unit :=
  let! p := get_page m in
  assert_ (bool_decide (page_get_owner p = None)) ;;;
  assert_ (Z.ldiff (count_info p) (Z.lor PGC_allocated 1) =? 0) ;;;
  mod_page m (fun p => set_count_info (Z.lor PGC_allocated 1) (page_set_owner (Some d) p)) ;;;
  mod_hdom d (fun x => set_dom_pages (tot_pages x) (page_list x ++ [m]) x).

(** [true] is success. *)
Definition assign_pages (d pg order memflags : Z) : M hworld bool :=
  let! x := get_hdom d in
  if hd_dying x then ret false
  else
    let counted := negb (has_flag memflags MEMF_no_refcount) in
    if counted && (max_pages x <? u32 (tot_pages x + Z.shiftl 1 order)) then ret false
    else
      when counted
        (when (tot_pages x =? 0) (event (GetKnownAlive d)) ;;;
         mod_hdom d (fun x => set_dom_pages (u32 (tot_pages x + Z.shiftl 1 order)) (page_list x) x)) ;;;
      for_ (Z.to_nat (Z.shiftl 1 order)) pg (assign_page d) ;;;
      ret true.

Definition alloc_domheap_pages (d : option Z) (order memflags : Z) : M hworld (option Z) :=
  let bits := Z.shiftr memflags 24 in
  let bits := domain_clamp_alloc_bitsize d (if bits =? 0 then 64 + PAGE_SHIFT else bits) in
  let zone_hi := Z.min (bits_to_zone bits) (NR_ZONES - 1) in
  if zone_hi =? 0 then ret None
  else
    let dma_zone := bits_to_zone dma_bitsize in
    let! pg :=
      (if negb (dma_bitsize =? 0) && (dma_zone <? zone_hi) then alloc_heap_pages (dma_zone + 1) zone_hi order memflags d else ret None) in
    let! pg :=
      match pg with
      | Some pg => ret (Some pg)
      | None => if has_flag memflags MEMF_no_dma then ret None else alloc_heap_pages (MEMZONE_XEN + 1) zone_hi order memflags d
      end in
    match pg, d with
    | None, _ => ret None
    | Some pg, None => ret (Some pg)
    | Some pg, Some d =>
        let! ok := assign_pages d pg order memflags in
        if ok : bool then ret (Some pg) else free_heap_pages pg order ;;; ret None
    end.

(** [page_list_del2]: the page is in one of two lists. *)
Definition del_page (d m : Z) : M hworld unit :=
  let! x := get_hdom d in
  if bool_decide (m ∈ page_list x) then mod_hdom d (fun x => set_dom_pages (tot_pages x) (filter (fun y => y <> m) (page_list x)) x)
  else if bool_decide (m ∈ relmem_list x) then mod_hdom d (fun x => set_relmem (filter (fun y => y <> m) (relmem_list x)) x)
  else fail Uninitialized.
Definition del_xenpage (d m : Z) : M hworld unit :=
  let! x := get_hdom d in
  if bool_decide (m ∈ xenpage_list x) then mod_hdom d (fun x => set_dom_xenpages (xenheap_pages x) (filter (fun y => y <> m) (xenpage_list x)) x)
  else if bool_decide (m ∈ relmem_list x) then mod_hdom d (fun x => set_relmem (filter (fun y => y <> m) (relmem_list x)) x)
  else fail Uninitialized.

Definition free_domheap_pages (pg order : Z) : M hworld unit :=
  let! p := get_page pg in
  let n := Z.to_nat (Z.shiftl 1 order) in
  let drop d gone := when gone (event (PutDom d)) in
  if has_flag (count_info p) PGC_xen_heap then
    let! d := of_option NullDeref (page_get_owner p) in
    for_ n pg (del_xenpage d) ;;;
    mod_hdom d (fun x => set_dom_xenpages (u32 (xenheap_pages x - Z.shiftl 1 order)) (xenpage_list x) x) ;;;
    let! x := get_hdom d in
    drop d (xenheap_pages x =? 0)
  else
    match page_get_owner p with
    | Some d =>
        if d =? dom_cow then assert_ (order =? 0) ;;; event (Scrub pg) ;;; free_heap_pages pg 0
        else
          for_ n pg (fun m =>
            let! p := get_page m in
            (if has_flag (type_info p) PGT_count_mask then fail Abort else ret tt) ;;;
            del_page d m) ;;;
          mod_hdom d (fun x => set_dom_pages (u32 (tot_pages x - Z.shiftl 1 order)) (page_list x) x) ;;;
          let! x := get_hdom d in
          when (hd_dying x) (for_ n pg (fun m => event (Scrub m))) ;;;
          free_heap_pages pg order ;;;
          drop d (tot_pages x =? 0)
    | None => free_heap_pages pg order
    end.

(** On x86_64 the hypervisor's own pages come from the same heap. *)
Definition alloc_xenheap_pages (order memflags : Z) : M hworld (option Z) :=
  let! pg := alloc_domheap_pages None order memflags in
  match pg with
  | None => ret None
  | Some pg =>
      for_ (Z.to_nat (Z.shiftl 1 order)) pg (fun m => mod_page m (fun p => set_count_info (Z.lor (count_info p) PGC_xen_heap) p)) ;;;
      ret (Some pg)
  end.

Definition free_xenheap_pages (pg : option Z) (order : Z) : M hworld unit :=
  match pg with
  | None => ret tt
  | Some pg =>
      for_ (Z.to_nat (Z.shiftl 1 order)) pg (fun m => mod_page m (fun p => set_count_info (Z.ldiff (count_info p) PGC_xen_heap) p)) ;;;
      free_heap_pages pg order
  end.
End Heap.
