(* ===== verification/PageFacts.v ===== *)
(** * Machine pages: the invariant

    What holds of the blocks of free pages between two operations, and how the elementary
    steps of the allocator keep it. *)

From S2P Require Import Prelude.
From S2P Require Import Xen.
From S2P Require Import PageAlloc.

(** ** Blocks *)

Definition in_block (m k i : Z) : Prop := m <= i < m + 2 ^ k.
Definition aligned (m k : Z) : Prop := (2 ^ k | m).
(** The other half of the block of twice the size. *)
Definition buddy (m k : Z) : Z := if has_flag m (2 ^ k) then m - 2 ^ k else m + 2 ^ k.

Lemma shift_pow k : 0 <= k -> Z.shiftl 1 k = 2 ^ k.
Proof. intros Hk. by rewrite Z.shiftl_1_l. Qed.

Lemma pow_pos k : 0 < 2 ^ k \/ k < 0.
Proof. destruct (Z.lt_ge_cases k 0); [by right|left; by apply Z.pow_pos_nonneg]. Qed.

Lemma pow_succ k : 0 <= k -> 2 ^ (k + 1) = 2 * 2 ^ k.
Proof. intros Hk. rewrite Z.pow_add_r by lia. lia. Qed.

Lemma has_flag_pow m k : 0 <= k -> has_flag m (2 ^ k) = Z.testbit m k.
Proof.
  intros Hk. unfold has_flag. destruct (Z.testbit m k) eqn:Hb.
  - apply negb_true_iff, Z.eqb_neq. intros H0. assert (Z.testbit (Z.land m (2 ^ k)) k = false) as E by (rewrite H0; apply Z.testbit_0_l).
    rewrite Z.land_spec, Hb, Z.pow2_bits_true in E by lia. done.
  - apply negb_false_iff, Z.eqb_eq. apply Z.bits_inj'. intros i Hi. rewrite Z.land_spec, Z.testbit_0_l, Z.pow2_bits_eqb by lia.
    destruct (Z.eqb_spec k i) as [->|]; [by rewrite Hb|by rewrite andb_false_r].
Qed.

Lemma buddy_cases m k : 0 <= k -> aligned m k -> exists a, aligned a (k + 1) /\
  ((m = a /\ buddy m k = a + 2 ^ k /\ has_flag m (2 ^ k) = false) \/ (m = a + 2 ^ k /\ buddy m k = a /\ has_flag m (2 ^ k) = true)).
Proof.
  intros Hk [q ->]. unfold buddy. rewrite has_flag_pow by done. rewrite (Z.mul_comm q).
  assert (Z.testbit (2 ^ k * q) k = Z.odd q) as ->.
  { rewrite Z.mul_comm, <- Z.shiftl_mul_pow2, Z.shiftl_spec by lia. replace (k - k) with 0 by lia. apply Z.bit0_odd. }
  unfold aligned. rewrite pow_succ by done. destruct (Z.odd q) eqn:Ho.
  - exists (2 ^ k * (q - 1)). apply Z.odd_spec in Ho as [r ->]. split; [exists r; ring|]. right. split_and!; [ring|ring|done].
  - exists (2 ^ k * q). assert (Z.even q = true) as He by (rewrite <- Z.negb_odd; by rewrite Ho). apply Z.even_spec in He as [r ->].
    split; [exists r; ring|]. left. split_and!; [done|ring|done].
Qed.

Lemma half_odd d q q' : 0 < d -> q * (2 * d) + d <> q' * (2 * d).
Proof. intros Hd E. assert (2 * q + 1 = 2 * q') by (apply (Z.mul_reg_r _ _ d); lia). lia. Qed.

Lemma buddy_buddy m k : 0 <= k -> aligned m k -> buddy (buddy m k) k = m.
Proof.
  intros Hk Hm. destruct (buddy_cases m k Hk Hm) as (a & Ha & Hc). assert (aligned a k) as Hak by (destruct Ha as [q ->]; exists (q * 2); rewrite pow_succ by done; ring).
  assert (aligned (buddy m k) k) as Hb by (destruct Hc as [(-> & -> & _)|(-> & -> & _)]; [destruct Hak as [q ->]; exists (q + 1); ring|done]).
  destruct (buddy_cases _ k Hk Hb) as (a' & Ha' & Hc'). destruct Ha as [q ->], Ha' as [q' ->]. rewrite pow_succ in * by done.
  assert (0 < 2 ^ k) by by apply Z.pow_pos_nonneg. destruct Hc as [(-> & E & _)|(-> & E & _)], Hc' as [(E1 & E2 & _)|(E1 & E2 & _)]; rewrite E2; rewrite E in E1;
    try (exfalso; by eapply half_odd; [|exact E1 || (symmetry; exact E1)]); lia.
Qed.

Lemma buddy_ne m k : 0 <= k -> buddy m k <> m.
Proof. intros Hk. pose proof (Z.pow_pos_nonneg 2 k). unfold buddy. destruct (has_flag m (2 ^ k)); lia. Qed.

Lemma buddy_aligned m k : 0 <= k -> aligned m k -> aligned (buddy m k) k.
Proof. intros Hk [q ->]. unfold buddy. destruct (has_flag _ _); [exists (q - 1)|exists (q + 1)]; ring. Qed.

Lemma aligned_le m k j : 0 <= j <= k -> aligned m k -> aligned m j.
Proof. intros Hj [q ->]. exists (q * 2 ^ (k - j)). rewrite <- Z.mul_assoc, <- Z.pow_add_r by lia. f_equal. f_equal. lia. Qed.

(** An aligned block that meets a smaller aligned block holds all of it. *)
Lemma aligned_inside m k a j x : 0 <= j <= k -> aligned m k -> aligned a j -> in_block m k x -> in_block a j x -> m <= a /\ a + 2 ^ j <= m + 2 ^ k.
Proof.
  intros Hj Hm [r ->] Hx Hy. destruct (aligned_le m k j Hj Hm) as [u ->]. unfold in_block in *.
  assert (2 ^ k = 2 ^ (k - j) * 2 ^ j) as E by (rewrite <- Z.pow_add_r by lia; f_equal; lia). rewrite E in *.
  assert (0 < 2 ^ j) by (apply Z.pow_pos_nonneg; lia). set (d := 2 ^ j) in *. set (s := 2 ^ (k - j)) in *. clearbody d s. split.
  - assert (u < r + 1) by nia. nia.
  - assert (r < u + s) by nia. nia.
Qed.

(** All pages of an aligned block are in one zone. *)
Lemma zone_block a k i : 0 <= k -> 0 < a -> aligned a k -> in_block a k i -> Z.log2 i = Z.log2 a.
Proof.
  intros Hk Ha [r ->] Hi. assert (0 < 2 ^ k) by (apply Z.pow_pos_nonneg; lia). pose proof (Z.log2_spec _ Ha) as [L1 L2]. unfold in_block in Hi.
  assert (k <= Z.log2 (r * 2 ^ k)) as HL by (assert (1 <= r) by nia; apply Z.log2_le_pow2; [done|nia]).
  apply Z.log2_unique; [apply Z.log2_nonneg|]. split; [lia|].
  assert (2 ^ Z.succ (Z.log2 (r * 2 ^ k)) = 2 ^ (Z.succ (Z.log2 (r * 2 ^ k)) - k) * 2 ^ k) as E by (rewrite <- Z.pow_add_r by lia; f_equal; lia).
  rewrite E in L2 |- *. generalize dependent (2 ^ (Z.succ (Z.log2 (r * 2 ^ k)) - k)). intros s Hs _. assert (r < s) by nia. nia.
Qed.

(** ** The invariant *)

Definition is_free (w : hworld) (i : Z) : Prop := exists p, pages w !! i = Some p /\ page_state_is p PGC_state_free = true.
Definition listed (w : hworld) (n z k m : Z) : Prop := m ∈ free_list (n, z, k) w.

#[export] Instance is_free_dec w i : Decision (is_free w i).
Proof.
  destruct (pages w !! i) as [p|] eqn:E; [|right; intros (p & Hp & _); congruence].
  destruct (page_state_is p PGC_state_free) eqn:Hf; [left; by exists p|right; intros (q & Hq & Hfq); congruence].
Defined.

(** A free block: in a list, or one that the running operation has in hand. *)
Definition blk (loose : list (Z * Z * Z * Z)) (w : hworld) (n z k m : Z) : Prop := listed w n z k m \/ (n, z, k, m) ∈ loose.

Section Inv.
Context `{HeapEnv}.

(** [al]: the blocks are aligned and merged as far as possible. *)
Record hinv (al : bool) (loose : list (Z * Z * Z * Z)) (w : hworld) : Prop := HInv {
  hi_nodup key : NoDup (free_list key w);
  hi_block n z k m : blk loose w n z k m -> 0 <= k <= MAX_ORDER /\ 0 < m /\ (al = true -> aligned m k) /\
    forall i, in_block m k i -> is_free w i /\ phys_to_nid i = n /\ Z.log2 i = z;
  hi_order n z k m : listed w n z k m -> exists p, pages w !! m = Some p /\ v p = k;
  hi_disj n z k m n' z' k' m' i : blk loose w n z k m -> blk loose w n' z' k' m' -> in_block m k i -> in_block m' k' i -> n' = n /\ z' = z /\ k' = k /\ m' = m;
  hi_loose n z k m : (n, z, k, m) ∈ loose -> ~ listed w n z k m;
  hi_cover i : is_free w i -> exists n z k m, blk loose w n z k m /\ in_block m k i;
  hi_merged n z k m : al = true -> listed w n z k m -> k < MAX_ORDER -> ~ listed w n z k (buddy m k);
  hi_count i p : pages w !! i = Some p -> page_state_is p PGC_state_free = true -> count_info p = PGC_state_free;
  hi_valid i : mfn_valid i = true -> is_Some (pages w !! i);
  hi_free i : is_free w i -> mfn_valid i = true /\ phys_to_nid i ∈ heap_nodes w;
  hi_nodes n : n ∈ heap_nodes w -> 0 <= n < MAX_NUMNODES
}.

(** ** Lists of blocks *)

Lemma in_block_self m k : 0 <= k -> in_block m k m.
Proof. intros Hk. unfold in_block. pose proof (Z.pow_pos_nonneg 2 k). lia. Qed.

Lemma free_list_insert key key' l w : free_list key' (set_heap (<[key := l]> (heap w)) w) = if decide (key' = key) then l else free_list key' w.
Proof. unfold free_list. simpl. case_decide; [subst; by rewrite lookup_insert_eq|by rewrite lookup_insert_ne]. Qed.

(** The page table is the same. *)
Lemma is_free_ext w w' i : pages w' = pages w -> is_free w' i <-> is_free w i.
Proof. intros E. unfold is_free. by rewrite E. Qed.

(** Only the pages, the lists and the nodes matter. *)
Lemma hinv_ext al L w w' : pages w' = pages w -> heap w' = heap w -> heap_nodes w' = heap_nodes w -> hinv al L w -> hinv al L w'.
Proof. destruct w, w'. simpl. intros -> -> -> I. split; apply I. Qed.

(** Taking a block out of its list. *)
Lemma hinv_take al L n z k m l w w' :
  hinv al L w -> listed w n z k m -> NoDup l -> (forall x, x ∈ l <-> listed w n z k x /\ x <> m) ->
  w' = set_heap (<[(n, z, k) := l]> (heap w)) w -> hinv al ((n, z, k, m) :: L) w'.
Proof.
  intros I Hm Hl Hin ->. set (w' := set_heap _ w).
  assert (forall a b c x, listed w' a b c x <-> listed w a b c x /\ (a, b, c, x) <> (n, z, k, m)) as HL.
  { intros a b c x. unfold listed at 1, w'. rewrite free_list_insert. case_decide as E.
    - simplify_eq. rewrite Hin. naive_solver.
    - unfold listed. naive_solver. }
  assert (forall a b c x, blk ((n, z, k, m) :: L) w' a b c x <-> blk L w a b c x) as HB.
  { intros a b c x. unfold blk. rewrite HL, elem_of_cons. destruct (decide ((a, b, c, x) = (n, z, k, m))); naive_solver. }
  split.
  - intros key. unfold w'. rewrite free_list_insert. case_decide; [done|apply I].
  - intros a b c x Hb. apply HB in Hb. exact (hi_block _ _ _ I _ _ _ _ Hb).
  - intros a b c x Hb. apply HL in Hb as [Hb _]. exact (hi_order _ _ _ I _ _ _ _ Hb).
  - intros a b c x a' b' c' x' i H1 H2. apply HB in H1, H2. exact (hi_disj _ _ _ I _ _ _ _ _ _ _ _ _ H1 H2).
  - intros a b c x [E|Hx]%elem_of_cons; rewrite HL; [naive_solver|]. intros [Hx' _]. by apply (hi_loose _ _ _ I a b c x).
  - intros i Hi. destruct (hi_cover _ _ _ I i Hi) as (a & b & c & x & Hb & Hx). exists a, b, c, x. split; [by apply HB|done].
  - intros a b c x Ha Hb Hc. apply HL in Hb as [Hb _]. intros [Hb' _]%HL. by apply (hi_merged _ _ _ I a b c x).
  - apply I.
  - apply I.
  - apply I.
  - apply I.
Qed.

(** Putting a block in hand into a list. *)
Lemma hinv_put al L n z k m w p :
  hinv al ((n, z, k, m) :: L) w -> (n, z, k, m) ∉ L -> pages w !! m = Some p -> (al = true -> k < MAX_ORDER -> ~ listed w n z k (buddy m k)) ->
  hinv al L (set_heap (<[(n, z, k) := free_list (n, z, k) w ++ [m]]> (heap w)) (set_pages (<[m := set_v k p]> (pages w)) w)).
Proof.
  intros I HnL Hp Hb. set (w' := set_heap _ _).
  assert (forall a b c x, listed w' a b c x <-> listed w a b c x \/ (a, b, c, x) = (n, z, k, m)) as HL.
  { intros a b c x. unfold listed, w', free_list. simpl. destruct (decide ((a, b, c) = (n, z, k))) as [E|E].
    - simplify_eq. rewrite lookup_insert_eq. simpl. rewrite elem_of_app, list_elem_of_singleton. naive_solver.
    - rewrite lookup_insert_ne by done. naive_solver. }
  assert (forall a b c x, blk L w' a b c x <-> blk ((n, z, k, m) :: L) w a b c x) as HB.
  { intros a b c x. unfold blk. rewrite HL, elem_of_cons. naive_solver. }
  destruct (hi_block _ _ _ I n z k m ltac:(right; by left)) as (Hk & Hm & Hal & Hi).
  assert (forall i, is_free w' i <-> is_free w i) as HF.
  { intros i. unfold is_free, w'. simpl. destruct (decide (i = m)) as [->|Hne]; [|by rewrite lookup_insert_ne by done].
    rewrite lookup_insert_eq, Hp. unfold page_state_is. split; intros (q & [= <-] & Hq); by eexists. }
  split.
  - intros key. unfold free_list, w'. simpl. destruct (decide (key = (n, z, k))) as [->|E]; [|rewrite lookup_insert_ne by done; apply (hi_nodup _ _ _ I)].
    rewrite lookup_insert_eq. simpl. apply NoDup_app. split_and!; [apply (hi_nodup _ _ _ I)| |apply NoDup_singleton].
    intros x Hx ->%list_elem_of_singleton. by apply (hi_loose _ _ _ I n z k m); [left|].
  - intros a b c x Hx. apply HB, (hi_block _ _ _ I) in Hx as (? & ? & ? & Hx). split_and!; try done; try tauto. intros i Hi'. rewrite HF. by apply Hx.
  - intros a b c x Hx. apply HL in Hx as [Hx|[= -> -> -> ->]].
    + destruct (hi_order _ _ _ I _ _ _ _ Hx) as (q & Hq & Hv). unfold w'. simpl. destruct (decide (x = m)) as [->|Hne]; [|rewrite lookup_insert_ne by done; eauto].
      assert (0 <= c) by (apply (hi_block _ _ _ I a b c m); by left).
      destruct (hi_disj _ _ _ I n z k m a b c m m) as (-> & -> & -> & _); [right; by left|by left|by apply in_block_self; lia..|].
      by destruct (hi_loose _ _ _ I n z k m); [left|].
    + unfold w'. simpl. rewrite lookup_insert_eq. by eexists.
  - intros a b c x a' b' c' x' i H1 H2. apply HB in H1, H2. exact (hi_disj _ _ _ I _ _ _ _ _ _ _ _ _ H1 H2).
  - intros a b c x HxL [Hl|E]%HL; [|simplify_eq; done]. by apply (hi_loose _ _ _ I a b c x); [right|].
  - intros i Hf. apply HF in Hf. destruct (hi_cover _ _ _ I i Hf) as (a & b & c & x & Hx & Hix). exists a, b, c, x. split; [by apply HB|done].
  - intros a b c x Ha Hx Hc Hy. apply HL in Hx as [Hx|[= -> -> -> ->]]; apply HL in Hy as [Hy|Hy].
    + by apply (hi_merged _ _ _ I a b c x).
    + injection Hy as -> -> -> Hy. apply (Hb Ha Hc). destruct (hi_block _ _ _ I n z k x ltac:(by left)) as (Hc0 & _ & Hax & _).
      rewrite <- Hy, buddy_buddy by (try lia; auto). done.
    + by apply Hb.
    + injection Hy as Hy. by apply (buddy_ne m k ltac:(lia)).
  - intros i q. unfold w'. simpl. destruct (decide (i = m)) as [->|Hne]; [|rewrite lookup_insert_ne by done; apply (hi_count _ _ _ I)].
    rewrite lookup_insert_eq. intros [= <-]. apply (hi_count _ _ _ I m p Hp).
  - intros i Hv. unfold w'. simpl. apply (hi_valid _ _ _ I) in Hv. destruct (decide (i = m)) as [->|Hne]; [rewrite lookup_insert_eq|rewrite lookup_insert_ne by done]; eauto.
  - intros i Hf. apply HF, (hi_free _ _ _ I) in Hf. done.
  - apply I.
Qed.

(** ** Regrouping the blocks in hand *)

Lemma hinv_regroup al L L' w :
  hinv al L w ->
  (forall n z k m, (n, z, k, m) ∈ L' -> 0 <= k <= MAX_ORDER /\ 0 < m /\ (al = true -> aligned m k) /\
     forall i, in_block m k i -> exists k' m', (n, z, k', m') ∈ L /\ in_block m' k' i) ->
  (forall n z k m n' z' k' m' i, (n, z, k, m) ∈ L' -> (n', z', k', m') ∈ L' -> in_block m k i -> in_block m' k' i -> n' = n /\ z' = z /\ k' = k /\ m' = m) ->
  (forall n z k m i, (n, z, k, m) ∈ L -> in_block m k i -> exists n' z' k' m', (n', z', k', m') ∈ L' /\ in_block m' k' i) ->
  hinv al L' w.
Proof.
  intros I H1 H2 H3.
  assert (forall n z k m n' z' k' m' i, listed w n z k m -> (n', z', k', m') ∈ L' -> in_block m k i -> in_block m' k' i -> False) as Hapart.
  { intros n z k m n' z' k' m' i Hl Hin Hi Hi'. destruct (H1 _ _ _ _ Hin) as (_ & _ & _ & Hc). destruct (Hc i Hi') as (k1 & m1 & HL & Hi1).
    destruct (hi_disj _ _ _ I n z k m n' z' k1 m1 i) as (-> & -> & -> & ->); [by left|by right|done|done|]. by apply (hi_loose _ _ _ I n z k m). }
  split; try apply I.
  - intros n z k m [Hl|Hin]; [apply (hi_block _ _ _ I); by left|]. destruct (H1 _ _ _ _ Hin) as (? & ? & ? & Hc). split_and!; try done; try tauto.
    intros i Hi. destruct (Hc i Hi) as (k1 & m1 & HL & Hi1). apply (hi_block _ _ _ I n z k1 m1); [by right|done].
  - intros n z k m n' z' k' m' i [Hl|Hin] [Hl'|Hin'] Hi Hi'.
    + by apply (hi_disj _ _ _ I n z k m n' z' k' m' i); [left|left|..].
    + destruct (Hapart n z k m n' z' k' m' i); done.
    + destruct (Hapart n' z' k' m' n z k m i); done.
    + by apply (H2 n z k m n' z' k' m' i).
  - intros n z k m Hin Hl. destruct (H1 _ _ _ _ Hin) as (Hk & _). by apply (Hapart n z k m n z k m m); [| |apply in_block_self; lia..].
  - intros i Hi. destruct (hi_cover _ _ _ I i Hi) as (n & z & k & m & [Hl|Hin] & Hb); [exists n, z, k, m; split; [by left|done]|].
    destruct (H3 _ _ _ _ i Hin Hb) as (n' & z' & k' & m' & ? & ?). exists n', z', k', m'. split; [by right|done].
Qed.

(** A block in hand meets no other block. *)
Lemma loose_apart al L w n z k m n' z' k' m' i :
  hinv al ((n, z, k, m) :: L) w -> (n, z, k, m) ∉ L -> blk L w n' z' k' m' -> in_block m k i -> ~ in_block m' k' i.
Proof.
  intros I HL Hb Hi Hi'. destruct (hi_disj _ _ _ I n z k m n' z' k' m' i) as (-> & -> & -> & ->); [right; by left|destruct Hb; [by left|right; by right]|done|done|].
  destruct Hb as [Hb|Hb]; [|done]. by apply (hi_loose _ _ _ I n z k m); [left|].
Qed.

Lemma in_halves m k i : 0 <= k -> in_block m (k + 1) i <-> in_block m k i \/ in_block (m + 2 ^ k) k i.
Proof. intros Hk. unfold in_block. rewrite pow_succ by done. pose proof (Z.pow_pos_nonneg 2 k). lia. Qed.

Lemma hinv_split al L n z k m w :
  0 <= k -> hinv al ((n, z, k + 1, m) :: L) w -> (n, z, k + 1, m) ∉ L -> hinv al ((n, z, k, m) :: (n, z, k, m + 2 ^ k) :: L) w.
Proof.
  intros Hk I HnL. pose proof (Z.pow_pos_nonneg 2 k ltac:(lia) Hk) as Hpos. destruct (hi_block _ _ _ I n z (k + 1) m ltac:(right; by left)) as (Hk1 & Hm & Hal & _).
  assert (forall n' z' k' m' i, (n', z', k', m') ∈ L -> in_block m' k' i -> ~ in_block m (k + 1) i) as Hap.
  { intros n' z' k' m' i Hin Hi Hi'. by eapply (loose_apart al L w n z (k + 1) m n' z' k' m' i); [| |right| |]. }
  apply (hinv_regroup al ((n, z, k + 1, m) :: L)); [done| | |].
  - intros a b c x [E|[E|Hin]%elem_of_cons]%elem_of_cons.
    + simplify_eq. split_and!; [lia|lia|done| |]. { intros Ha. apply (aligned_le m (k + 1)); [lia|auto]. }
      intros i Hi. exists (k + 1), m. split; [by left|]. apply in_halves; auto.
    + simplify_eq. split_and!; [lia|lia|lia| |]. { intros Ha. destruct (Hal Ha) as [q ->]. rewrite pow_succ by done. exists (2 * q + 1). ring. }
      intros i Hi. exists (k + 1), m. split; [by left|]. apply in_halves; auto.
    + destruct (hi_block _ _ _ I a b c x ltac:(right; by right)) as (? & ? & ? & _). split_and!; [lia|lia|lia|done|]. intros i Hi. exists c, x. split; [by right|done].
  - intros a b c x a' b' c' x' i Hx Hx' Hi Hi'. rewrite !elem_of_cons in Hx, Hx'.
    assert (in_block m k i -> in_block m (k + 1) i) by (intros; apply in_halves; auto).
    assert (in_block (m + 2 ^ k) k i -> in_block m (k + 1) i) by (intros; apply in_halves; auto).
    destruct Hx as [E|[E|Hx]], Hx' as [E'|[E'|Hx']]; simplify_eq; try done; try (unfold in_block in *; lia); try (exfalso; eapply Hap; by eauto).
    apply (hi_disj _ _ _ I a b c x a' b' c' x' i); try done; right; by right.
  - intros a b c x i [E|Hin]%elem_of_cons Hi.
    + simplify_eq. apply in_halves in Hi as [Hi|Hi]; [exists n, z, k, m|exists n, z, k, (m + 2 ^ k)|done]; (split; [|done]); [by left|right; by left].
    + exists a, b, c, x. split; [by right; right|done].
Qed.

Lemma hinv_join al L n z k m w :
  0 <= k < MAX_ORDER -> (al = true -> aligned m (k + 1)) -> (n, z, k, m) ∉ L -> (n, z, k, m + 2 ^ k) ∉ L ->
  hinv al ((n, z, k, m) :: (n, z, k, m + 2 ^ k) :: L) w -> hinv al ((n, z, k + 1, m) :: L) w.
Proof.
  intros Hk Hal HnL HnL' I. pose proof (Z.pow_pos_nonneg 2 k ltac:(lia) ltac:(lia)) as Hpos. destruct (hi_block _ _ _ I n z k m ltac:(right; by left)) as (_ & Hm & _ & _).
  assert (forall n' z' k' m' i, (n', z', k', m') ∈ L -> in_block m' k' i -> ~ in_block m (k + 1) i) as Hap.
  { intros n' z' k' m' i Hin Hi [Hi'|Hi']%in_halves; [| |lia].
    - destruct (hi_disj _ _ _ I n z k m n' z' k' m' i) as (-> & -> & -> & ->); [right; by left|right; by right; right|done|done|done].
    - destruct (hi_disj _ _ _ I n z k (m + 2 ^ k) n' z' k' m' i) as (-> & -> & -> & ->); [right; by right; left|right; by right; right|done|done|done]. }
  apply (hinv_regroup al ((n, z, k, m) :: (n, z, k, m + 2 ^ k) :: L)); [done| | |].
  - intros a b c x [E|Hin]%elem_of_cons.
    + simplify_eq. split_and!; [lia|lia|lia|done|]. intros i [Hi|Hi]%in_halves; [exists k, m|exists k, (m + 2 ^ k)|lia]; (split; [|done]); [by left|right; by left].
    + destruct (hi_block _ _ _ I a b c x ltac:(right; by right; right)) as (? & ? & ? & _). split_and!; [lia|lia|lia|done|]. intros i Hi. exists c, x. split; [by right; right|done].
  - intros a b c x a' b' c' x' i [E|Hx]%elem_of_cons [E'|Hx']%elem_of_cons Hi Hi'; simplify_eq; try done; try (exfalso; eapply Hap; by eauto).
    apply (hi_disj _ _ _ I a b c x a' b' c' x' i); try done; right; by right; right.
  - intros a b c x i [E|[E|Hin]%elem_of_cons]%elem_of_cons Hi; simplify_eq.
    + exists n, z, (k + 1), m. split; [by left|]. apply in_halves; [lia|auto].
    + exists n, z, (k + 1), m. split; [by left|]. apply in_halves; [lia|auto].
    + exists a, b, c, x. split; [by right|done].
Qed.

(** ** Pages that change their state *)

(** A block in hand is taken into use. *)
Lemma hinv_use al L n z k m w w' :
  hinv al ((n, z, k, m) :: L) w -> (n, z, k, m) ∉ L -> heap w' = heap w -> heap_nodes w' = heap_nodes w ->
  (forall i, ~ in_block m k i -> pages w' !! i = pages w !! i) -> (forall i, in_block m k i -> is_Some (pages w' !! i) /\ ~ is_free w' i) -> hinv al L w'.
Proof.
  intros I HnL Eh En Hout Hin.
  assert (forall key, free_list key w' = free_list key w) as HL by (intros key; unfold free_list; by rewrite Eh).
  assert (forall i, is_free w' i -> ~ in_block m k i /\ is_free w i) as HF.
  { intros i Hf. destruct (decide (m <= i < m + 2 ^ k)) as [Hi|Hi]; [by destruct (Hin i Hi)|]. split; [done|]. unfold is_free in *. by rewrite <- Hout. }
  assert (forall a b c x, blk L w' a b c x -> blk L w a b c x /\ forall i, in_block x c i -> ~ in_block m k i) as HB.
  { intros a b c x Hx. unfold blk, listed in Hx. rewrite HL in Hx. split; [done|]. intros i Hi Hi'. by apply (loose_apart al L w n z k m a b c x i). }
  assert (forall a b c x, blk L w a b c x -> blk ((n, z, k, m) :: L) w a b c x) as HW by (intros a b c x [?|?]; [by left|right; by right]).
  split.
  - intros key. rewrite HL. apply I.
  - intros a b c x Hx. destruct (HB _ _ _ _ Hx) as [Hb Hd]. destruct (hi_block _ _ _ I a b c x (HW _ _ _ _ Hb)) as (? & ? & ? & Hi). split_and!; [lia|lia|lia|done|].
    intros i Hc. destruct (Hi i Hc) as ((q & Hq & Hf) & ? & ?). split; [|done]. exists q. by rewrite Hout by eauto.
  - intros a b c x Hx. destruct (HB a b c x ltac:(by left)) as [Hb Hd]. unfold listed in Hx. rewrite HL in Hx. destruct (hi_order _ _ _ I a b c x Hx) as (q & Hq & Hv).
    exists q. rewrite Hout; [done|]. apply Hd, in_block_self. apply (hi_block _ _ _ I a b c x). by left.
  - intros a b c x a' b' c' x' i H1 H2. apply HB in H1 as [H1 _], H2 as [H2 _]. apply (hi_disj _ _ _ I); auto.
  - intros a b c x Hx. unfold listed. rewrite HL. apply (hi_loose _ _ _ I). by right.
  - intros i Hf. destruct (HF i Hf) as [Hi Hf']. destruct (hi_cover _ _ _ I i Hf') as (a & b & c & x & Hb & Hx).
    exists a, b, c, x. split; [|done]. unfold blk, listed in *. rewrite HL. destruct Hb as [?|[E|?]%elem_of_cons]; [by left|simplify_eq; done|by right].
  - intros a b c x. unfold listed. rewrite !HL. apply I.
  - intros i q Hq Hf. destruct (HF i) as [Hi _]; [by exists q|]. rewrite Hout in Hq by done. by apply (hi_count _ _ _ I i).
  - intros i Hv. destruct (decide (m <= i < m + 2 ^ k)) as [Hi|Hi]; [by apply Hin|]. rewrite Hout by done. by apply (hi_valid _ _ _ I).
  - intros i [_ Hf]%HF. rewrite En. by apply (hi_free _ _ _ I).
  - intros a. rewrite En. apply I.
Qed.

(** The pages of a block become free. *)
Lemma hinv_free al L n z k m w w' :
  hinv al L w -> 0 <= k <= MAX_ORDER -> 0 < m -> (al = true -> aligned m k) -> n ∈ heap_nodes w -> heap w' = heap w -> heap_nodes w' = heap_nodes w ->
  (forall i, in_block m k i -> ~ is_free w i /\ mfn_valid i = true /\ phys_to_nid i = n /\ Z.log2 i = z) ->
  (forall i, ~ in_block m k i -> pages w' !! i = pages w !! i) ->
  (forall i, in_block m k i -> exists p, pages w' !! i = Some p /\ count_info p = PGC_state_free) -> hinv al ((n, z, k, m) :: L) w'.
Proof.
  intros I Hk Hm Hal Hn Eh En Hb Hout Hin.
  assert (forall key, free_list key w' = free_list key w) as HL by (intros key; unfold free_list; by rewrite Eh).
  assert (forall a b c x, blk ((n, z, k, m) :: L) w' a b c x <-> blk L w a b c x \/ (a, b, c, x) = (n, z, k, m)) as HB.
  { intros a b c x. unfold blk, listed. rewrite HL, elem_of_cons. tauto. }
  assert (forall a b c x i, blk L w a b c x -> in_block x c i -> ~ in_block m k i) as Hap.
  { intros a b c x i Hx Hi Hi'. destruct (hi_block _ _ _ I a b c x Hx) as (_ & _ & _ & Hf). by apply (Hb i Hi'), Hf. }
  assert (forall i, in_block m k i -> is_free w' i) as Hnew.
  { intros i Hi. destruct (Hin i Hi) as (q & Hq & Hc). exists q. split; [done|]. unfold page_state_is. by rewrite Hc. }
  assert (forall i, ~ in_block m k i -> is_free w' i <-> is_free w i) as Hold by (intros i Hi; unfold is_free; by rewrite Hout).
  split.
  - intros key. rewrite HL. apply I.
  - intros a b c x [Hx|E]%HB.
    + destruct (hi_block _ _ _ I a b c x Hx) as (? & ? & ? & Hi). split_and!; [lia|lia|lia|done|]. intros i Hc. rewrite Hold by eauto. by apply Hi.
    + simplify_eq. split_and!; [lia|lia|lia|done|]. intros i Hi. destruct (Hb i Hi) as (_ & _ & ? & ?). split_and!; auto.
  - intros a b c x Hx. unfold listed in Hx. rewrite HL in Hx. destruct (hi_order _ _ _ I a b c x Hx) as (q & Hq & Hv). exists q. rewrite Hout; [done|].
    apply (Hap a b c x); [by left|]. apply in_block_self. apply (hi_block _ _ _ I a b c x). by left.
  - intros a b c x a' b' c' x' i [H1|E1]%HB [H2|E2]%HB Hi Hi'; simplify_eq; [by apply (hi_disj _ _ _ I a b c x a' b' c' x' i)|exfalso; by eapply Hap..|done].
  - intros a b c x [E|Hx]%elem_of_cons; unfold listed; rewrite HL; [|by apply (hi_loose _ _ _ I)]. simplify_eq. intros Hl.
    apply (Hap n z k m m); [by left|by apply in_block_self; lia..].
  - intros i Hf. destruct (decide (m <= i < m + 2 ^ k)) as [Hi|Hi]; [exists n, z, k, m; split; [apply HB; by right|done]|].
    apply Hold in Hf; [|done]. destruct (hi_cover _ _ _ I i Hf) as (a & b & c & x & Hx & Hc). exists a, b, c, x. split; [apply HB; by left|done].
  - intros a b c x. unfold listed. rewrite !HL. apply I.
  - intros i q Hq Hf. destruct (decide (m <= i < m + 2 ^ k)) as [Hi|Hi]; [destruct (Hin i Hi) as (q' & ? & ?); congruence|]. rewrite Hout in Hq by done. by apply (hi_count _ _ _ I i).
  - intros i Hv. destruct (decide (m <= i < m + 2 ^ k)) as [Hi|Hi]; [destruct (Hin i Hi) as (q' & ? & ?); by exists q'|]. rewrite Hout by done. by apply (hi_valid _ _ _ I).
  - intros i Hf. rewrite En. destruct (decide (m <= i < m + 2 ^ k)) as [Hi|Hi]; [destruct (Hb i Hi) as (_ & ? & -> & _); done|]. apply (hi_free _ _ _ I). by apply Hold.
  - intros a. rewrite En. apply I.
Qed.

(** A free page of the right order at the place of the buddy is the buddy, in its list. *)
Lemma buddy_listed n z k m w p :
  hinv true [(n, z, k, m)] w -> k < MAX_ORDER -> pages w !! buddy m k = Some p -> page_state_is p PGC_state_free = true -> v p = k ->
  phys_to_nid (buddy m k) = n -> listed w n z k (buddy m k).
Proof.
  intros I Hk Hp Hf Hv Hn. destruct (hi_block _ _ _ I n z k m ltac:(right; by left)) as (Hk0 & Hm & Hal & Hi). specialize (Hal eq_refl).
  pose proof (Z.pow_pos_nonneg 2 k ltac:(lia) ltac:(lia)) as Hpos. destruct (buddy_cases m k ltac:(lia) Hal) as (a & Ha & Hc). set (b := buddy m k) in *.
  assert (in_block a (k + 1) m /\ in_block a (k + 1) b /\ ~ in_block m k b) as (Hma & Hba & Hmb).
  { unfold in_block. rewrite pow_succ by lia. destruct Hc as [(-> & -> & _)|(-> & -> & _)]; lia. }
  destruct (hi_cover _ _ _ I b ltac:(by exists p)) as (n' & z' & k' & m' & Hb & Hx). destruct Hb as [Hb|Hb]; [|apply list_elem_of_singleton in Hb; simplify_eq; done].
  destruct (hi_block _ _ _ I n' z' k' m' ltac:(by left)) as (Hk' & Hm' & Hal' & Hi'). specialize (Hal' eq_refl).
  destruct (Z.lt_ge_cases k k') as [Hlt|Hge].
  - exfalso. destruct (aligned_inside m' k' a (k + 1) b ltac:(lia) Hal' Ha Hx Hba) as [H1 H2].
    destruct (hi_disj _ _ _ I n z k m n' z' k' m' m) as (-> & -> & -> & ->); [right; by left|by left|by apply in_block_self; lia|unfold in_block in *; lia|lia].
  - pose proof (buddy_aligned m k ltac:(lia) Hal) as Hbal. fold b in Hbal.
    destruct (aligned_inside b k m' k' b ltac:(lia) Hbal Hal' ltac:(apply in_block_self; lia) Hx) as [H1 _]. assert (m' = b) as -> by (unfold in_block in Hx; lia).
    destruct (hi_order _ _ _ I n' z' k' b Hb) as (q & Hq & Hvq). assert (k' = k) as -> by congruence.
    destruct (Hi' b Hx) as (_ & En & Ez). destruct (Hi m ltac:(apply in_block_self; lia)) as (_ & _ & Ezm).
    assert (0 < a) as Ha0 by (destruct Hc as [(<- & _)|(_ & E & _)]; lia). assert (Z.log2 b = Z.log2 m) as E.
    { rewrite (zone_block a (k + 1) b), (zone_block a (k + 1) m) by (done || lia). done. }
    assert (n' = n) as -> by congruence. assert (z' = z) as -> by congruence. done.
Qed.
End Inv.
