(* ===== verification/PageCount.v ===== *)
(** * Machine pages: counting

    The numbers of free pages by node and zone, and the loops over the pages of a block. *)

From S2P Require Import Prelude.
From S2P Require Import Xen.
From S2P Require Import PageAlloc.
From S2P Require Import PageFacts.

(** ** Sets of pages *)

Definition free_all (w : hworld) : gset Z := dom (filter (fun kv : Z * page_info => page_state_is kv.2 PGC_state_free = true) (pages w)).
Definition block_set (m k : Z) : gset Z := list_to_set (seqZ m (2 ^ k)).

Lemma elem_of_free_all w i : i ∈ free_all w <-> is_free w i.
Proof.
  unfold free_all, is_free. rewrite elem_of_dom. split.
  - intros [p Hp]. apply map_lookup_filter_Some in Hp as [Hp Hf]. by exists p.
  - intros (p & Hp & Hf). exists p. by apply map_lookup_filter_Some.
Qed.

Lemma elem_of_block_set m k i : i ∈ block_set m k <-> in_block m k i.
Proof. unfold block_set, in_block. rewrite elem_of_list_to_set, elem_of_seqZ. done. Qed.

Lemma size_block_set m k : 0 <= k -> Z.of_nat (size (block_set m k)) = 2 ^ k.
Proof. intros Hk. pose proof (Z.pow_pos_nonneg 2 k). unfold block_set. rewrite size_list_to_set by apply NoDup_seqZ. rewrite length_seqZ. lia. Qed.

Section Count.
Context `{HeapEnv}.

Definition of_zone (n z : Z) (X : gset Z) : gset Z := filter (fun i => phys_to_nid i = n /\ Z.log2 i = z) X.

(** The counters are those of the set [F]. *)
Record counts (F : gset Z) (w : hworld) : Prop := Counts {
  ct_avail n z : avail_at (n, z) w = Z.of_nat (size (of_zone n z F));
  ct_total : total_avail_pages w = Z.of_nat (size F)
}.

Lemma of_zone_union n z X Y : of_zone n z (X ∪ Y) = of_zone n z X ∪ of_zone n z Y.
Proof. apply set_eq. intros i. unfold of_zone. rewrite elem_of_filter, !elem_of_union, !elem_of_filter. tauto. Qed.

Lemma of_zone_difference n z X Y : of_zone n z (X ∖ Y) = of_zone n z X ∖ of_zone n z Y.
Proof. apply set_eq. intros i. unfold of_zone. rewrite elem_of_filter, !elem_of_difference, !elem_of_filter. tauto. Qed.

Lemma of_zone_block n z n' z' k m :
  (forall i, in_block m k i -> phys_to_nid i = n /\ Z.log2 i = z) -> of_zone n' z' (block_set m k) = if decide ((n', z') = (n, z)) then block_set m k else ∅.
Proof.
  intros Hb. unfold of_zone. apply set_eq. intros i. rewrite elem_of_filter, elem_of_block_set. case_decide as E.
  - simplify_eq. rewrite elem_of_block_set. naive_solver.
  - split; [|set_solver]. intros [[<- <-] Hi]. destruct (Hb i Hi). congruence.
Qed.

Lemma counts_add F n z k m w : 0 <= k -> counts F w -> (forall i, in_block m k i -> i ∉ F /\ phys_to_nid i = n /\ Z.log2 i = z) ->
  counts (F ∪ block_set m k) (set_counts (<[(n, z) := avail_at (n, z) w + 2 ^ k]> (avail w)) (total_avail_pages w + 2 ^ k) w).
Proof.
  intros Hk [C1 C2] Hb. assert (F ## block_set m k) as Hd by (intros i Hi Hi'%elem_of_block_set; by apply (proj1 (Hb i Hi'))).
  assert (forall i, in_block m k i -> phys_to_nid i = n /\ Z.log2 i = z) as Hz by naive_solver. split.
  - intros n' z'. rewrite of_zone_union.
    rewrite size_union, Nat2Z.inj_add, <- C1, (of_zone_block n z) by (done || (unfold of_zone; set_solver)). unfold avail_at at 1. simpl.
    case_decide as E; [simplify_eq; rewrite lookup_insert_eq, size_block_set by done; done|]. rewrite lookup_insert_ne by done. rewrite size_empty. unfold avail_at. lia.
  - simpl. rewrite size_union, Nat2Z.inj_add, size_block_set by done. lia.
Qed.

Lemma counts_sub F n z k m w : 0 <= k -> counts F w -> (forall i, in_block m k i -> i ∈ F /\ phys_to_nid i = n /\ Z.log2 i = z) ->
  2 ^ k <= avail_at (n, z) w /\ 2 ^ k <= total_avail_pages w /\
  counts (F ∖ block_set m k) (set_counts (<[(n, z) := avail_at (n, z) w - 2 ^ k]> (avail w)) (total_avail_pages w - 2 ^ k) w).
Proof.
  intros Hk [C1 C2] Hb. assert (block_set m k ⊆ F) as Hs by (intros i Hi%elem_of_block_set; by apply Hb).
  assert (forall i, in_block m k i -> phys_to_nid i = n /\ Z.log2 i = z) as Hz by naive_solver.
  pose proof (subseteq_size _ _ Hs) as Hsz. pose proof (size_block_set m k Hk) as Hsb.
  assert (block_set m k ⊆ of_zone n z F) as Hs' by (intros i Hi; apply elem_of_filter; split; [by apply Hz, elem_of_block_set|by apply Hs]).
  pose proof (subseteq_size _ _ Hs') as Hsz'. rewrite C1, C2. split_and!; [lia|lia|]. split.
  - intros n' z'. rewrite of_zone_difference, (of_zone_block n z) by done.
    unfold avail_at at 1. simpl. case_decide as E.
    + simplify_eq. rewrite lookup_insert_eq. simpl. rewrite size_difference by done. lia.
    + rewrite lookup_insert_ne by done. rewrite difference_empty_L. apply C1.
  - simpl. rewrite size_difference by done. lia.
Qed.

(** A listed block is counted. *)
Lemma counts_listed al L w n z k m : hinv al L w -> counts (free_all w) w -> listed w n z k m -> 2 ^ k <= avail_at (n, z) w.
Proof.
  intros I C Hl. destruct (hi_block _ _ _ I n z k m ltac:(by left)) as (Hk & _ & _ & Hi).
  destruct (counts_sub (free_all w) n z k m w ltac:(lia) C) as [? _]; [|done]. intros i Hb. rewrite elem_of_free_all. naive_solver.
Qed.
End Count.

(** ** Loops over the pages of a block *)

(** The pages from [m] to [i] have been changed by [f]. *)
Definition changed (f : page_info -> page_info) (m i : Z) (w w' : hworld) : Prop :=
  forall j, pages w' !! j = if decide (m <= j < i) then f <$> pages w !! j else pages w !! j.

Lemma changed_refl f m w : changed f m m w w.
Proof. intros j. rewrite decide_False by lia. done. Qed.

Lemma changed_at f m i w w' : changed f m i w w' -> pages w' !! i = pages w !! i.
Proof. intros Hc. rewrite Hc. rewrite decide_False by lia. done. Qed.

Lemma changed_step f m i w w' w'' p :
  changed f m i w w' -> m <= i -> pages w !! i = Some p -> pages w'' = <[i := f p]> (pages w') -> changed f m (i + 1) w w''.
Proof.
  intros Hc Hi Hp E j. rewrite E. destruct (decide (j = i)) as [->|Hne].
  - rewrite lookup_insert_eq, decide_True by lia. by rewrite Hp.
  - rewrite lookup_insert_ne by done. rewrite Hc. destruct (decide (m <= j < i)); [rewrite decide_True by lia|rewrite decide_False by lia]; done.
Qed.

Lemma wp_get_page E m p (Q : page_info -> hworld -> Prop) w : pages w !! m = Some p -> Q p w -> wp E (get_page m) Q w.
Proof. intros Hp HQ. unfold get_page. wp_step. wp_step. by eapply wp_of_option. Qed.

Lemma wp_mod_page E m f p (Q : unit -> hworld -> Prop) w : pages w !! m = Some p -> Q tt (set_pages (<[m := f p]> (pages w)) w) -> wp E (mod_page m f) Q w.
Proof. intros Hp HQ. unfold mod_page. wp_step. eapply wp_get_page; [done|]. by wp_step. Qed.
