(* ===== verification/PageSearch.v ===== *)
(** * Machine pages: the search for a block

    The loops over nodes, zones and orders find a block when there is one. *)

From S2P Require Import Prelude.
From S2P Require Import Xen.
From S2P Require Import PageAlloc.
From S2P Require Import PageFacts.
From S2P Require Import PageCount.

(** ** Sets of nodes *)

Definition node_range (X : gset Z) : Prop := forall n, n ∈ X -> 0 <= n < MAX_NUMNODES.

Lemma find_from_spec n mask : 0 <= n <= MAX_NUMNODES ->
  n <= find_from n mask <= MAX_NUMNODES /\ (find_from n mask < MAX_NUMNODES -> find_from n mask ∈ mask) /\ (forall j, n <= j < find_from n mask -> j ∉ mask).
Proof.
  intros Hn. unfold find_from. destruct (list_find (fun i => i ∈ mask) (seqZ n (MAX_NUMNODES - n))) as [[i x]|] eqn:Hf.
  - apply list_find_Some in Hf as (Hi & Hx & Hlt). apply lookup_seqZ in Hi as [-> Hi]. split_and!; [lia|lia|done|]. intros j Hj.
    apply (Hlt (Z.to_nat (j - n)) j); [apply lookup_seqZ; lia|lia].
  - apply list_find_None in Hf. split_and!; [lia|lia|lia|]. intros j Hj. rewrite Forall_forall in Hf. apply Hf. apply elem_of_seqZ. lia.
Qed.

Lemma wp_if {S B} E (b : bool) (m m' : M S B) (Q : B -> S -> Prop) s :
  (b = true -> wp E m Q s) -> (b = false -> wp E m' Q s) -> wp E (if b then m else m') Q s.
Proof. destruct b; auto. Qed.

Section Nodes.
Context `{HeapEnv} {A : Type}.
Variables (try : Z -> M hworld (option A)) (exact : bool) (w : hworld) (fails : Z -> Prop) (gives : Z -> A -> hworld -> Prop) (Q : option (Z * A) -> hworld -> Prop).
Hypothesis try_ok : forall n, 0 <= n < MAX_NUMNODES -> wp no_error (try n) (fun r w' => match r with None => w' = w /\ fails n | Some a => gives n a w' end) w.
Hypothesis Q_some : forall n a w', gives n a w' -> Q (Some (n, a)) w'.
Hypothesis Q_exact : exact = true -> Q None w.

(** What is tried when the mask is exhausted. *)
Definition others (fuel : nat) (mask : gset Z) (retry : bool) : M hworld (option (Z * A)) :=
  if retry then ret None
  else
    let mask := node_online_map ∖ mask in
    let node := first_node mask in
    if MAX_NUMNODES <=? node then ret None else find_node fuel try exact node node mask true.

(** The number of nodes from [node] on until [first] comes again, at most. *)
Definition dist (node first : Z) : Z := if decide (first <= node) then MAX_NUMNODES - node + first else first - node.

(** A round through the nodes of the mask. *)
Lemma cycle mask retry first (extra : nat) :
  node_range mask -> first ∈ mask -> ((forall n, n ∈ mask -> fails n) -> forall fuel, (extra <= fuel)%nat -> wp no_error (others fuel mask retry) Q w) ->
  forall fuel node, node ∈ mask -> (forall n, n ∈ mask -> (if decide (first <= node) then first <= n < node else n < node \/ first <= n) -> fails n) ->
  dist node first + Z.of_nat extra <= Z.of_nat fuel -> wp no_error (find_node fuel try exact node first mask retry) Q w.
Proof using try_ok Q_some Q_exact.
  intros Hr Hfirst HO. pose proof (Hr _ Hfirst) as Hf. induction fuel as [|fuel IH]; intros node Hnode Hseen Hfuel; pose proof (Hr _ Hnode) as Hn.
  { exfalso. unfold dist in Hfuel. case_decide; lia. }
  cbn [find_node]. wp_step. eapply wp_mono; [by apply try_ok|]. intros [a|] w' Hr'; [wp_step; by apply Q_some|]. destruct Hr' as [-> Hfail].
  apply wp_if; intros Hex; [wp_step; by apply Q_exact|]. rewrite bool_decide_eq_true_2 by done. cbn [negb]. cbv zeta.
  destruct (find_from_spec (node + 1) mask ltac:(lia)) as (N1 & N2 & N3). fold (next_node node mask) in N1, N2, N3.
  destruct (find_from_spec 0 mask ltac:(lia)) as (F1 & F2 & F3). fold (first_node mask) in F1, F2, F3.
  set (next := if MAX_NUMNODES <=? next_node node mask then first_node mask else next_node node mask).
  assert (first_node mask <= node) as Hfn by (destruct (Z.le_gt_cases (first_node mask) node); [done|]; exfalso; apply (F3 node); [lia|done]).
  assert (next ∈ mask) as Hnext by (unfold next; destruct (Z.leb_spec MAX_NUMNODES (next_node node mask)); [apply F2; lia|apply N2; lia]).
  assert (forall n, n ∈ mask -> n <= node \/ next_node node mask <= n) as Hgap.
  { intros n Hin. destruct (Z.le_gt_cases n node); [by left|right]. destruct (Z.le_gt_cases (next_node node mask) n); [done|]. by destruct (N3 n ltac:(lia)). }
  assert (forall n, n ∈ mask -> first_node mask <= n) as Hlow.
  { intros n Hin. destruct (Z.le_gt_cases (first_node mask) n); [done|]. pose proof (Hr _ Hin). by destruct (F3 n ltac:(lia)). }
  destruct (Z.eqb_spec next first) as [E|E].
  - apply HO; [|unfold dist in Hfuel; case_decide; lia]. intros n Hin. pose proof (Hr _ Hin). destruct (decide (n = node)) as [->|Hne]; [done|]. apply Hseen; [done|].
    specialize (Hgap n Hin). specialize (Hlow n Hin). unfold next in E. destruct (Z.leb_spec MAX_NUMNODES (next_node node mask)); case_decide; lia.
  - apply IH; [done| |].
    + intros n Hin Hc. pose proof (Hr _ Hin). destruct (decide (n = node)) as [->|Hne]; [done|]. apply Hseen; [done|]. specialize (Hgap n Hin). specialize (Hlow n Hin).
      unfold next in Hc, E. destruct (Z.leb_spec MAX_NUMNODES (next_node node mask)); repeat case_decide; lia.
    + specialize (Hlow first Hfirst). specialize (Hgap first Hfirst). unfold dist in *. unfold next in *. destruct (Z.leb_spec MAX_NUMNODES (next_node node mask)); repeat case_decide; lia.
Qed.

Lemma others_spec mask fuel : node_range node_online_map -> (64 <= fuel)%nat -> (forall n, n ∈ mask -> fails n) ->
  ((forall n, n ∈ mask ∪ node_online_map -> fails n) -> Q None w) -> wp no_error (others fuel mask false) Q w.
Proof using try_ok Q_some Q_exact.
  intros Ho Hfuel Hm HQ. unfold others. set (mask' := node_online_map ∖ mask). destruct (find_from_spec 0 mask' ltac:(unfold MAX_NUMNODES; lia)) as (F1 & F2 & F3). fold (first_node mask') in F1, F2, F3.
  assert (node_range mask') as Hr by (intros n Hn; apply Ho; set_solver). cbv zeta. fold mask'. destruct (Z.leb_spec MAX_NUMNODES (first_node mask')).
  - wp_step. apply HQ. intros n Hn. destruct (decide (n ∈ mask)); [auto|]. destruct (F3 n); [|set_solver]. pose proof (Hr n ltac:(set_solver)). lia.
  - apply (cycle mask' true (first_node mask') 0%nat); [done|by apply F2| |by apply F2| |].
    + intros Hf fuel' _. unfold others. wp_step. apply HQ. intros n Hn. destruct (decide (n ∈ mask)); [auto|]. apply Hf. set_solver.
    + intros n Hn Hc. rewrite decide_True in Hc by lia. lia.
    + unfold dist. rewrite decide_True by lia. unfold MAX_NUMNODES. lia.
Qed.

Lemma find_node_spec fuel node mask :
  (node_fuel <= fuel)%nat -> 0 <= node < MAX_NUMNODES -> node_range mask -> node_range node_online_map ->
  ((forall n, n ∈ mask ∪ node_online_map -> fails n) -> Q None w) -> wp no_error (find_node fuel try exact node node mask false) Q w.
Proof using try_ok Q_some Q_exact.
  unfold node_fuel. intros Hfl Hn Hm Ho HQ. destruct (decide (node ∈ mask)) as [Hin|Hin].
  { apply (cycle mask false node 65%nat); [done|done| |done| |].
    - intros Hf fuel' Hfuel. apply others_spec; [done|lia|done|done].
    - intros n _ Hc. rewrite decide_True in Hc by lia. lia.
    - unfold dist. rewrite decide_True by lia. unfold MAX_NUMNODES. lia. }
  destruct fuel as [|fuel]; [lia|]. cbn [find_node]. wp_step. eapply wp_mono; [by apply try_ok|]. intros [a|] w' Hr'; [wp_step; by apply Q_some|]. destruct Hr' as [-> Hfail].
  apply wp_if; intros Hex; [wp_step; by apply Q_exact|]. rewrite bool_decide_eq_false_2 by done. cbn [negb]. wp_step. apply wp_assert; [done|]. cbv zeta.
  destruct (find_from_spec 0 mask ltac:(unfold MAX_NUMNODES; lia)) as (F1 & F2 & F3). fold (first_node mask) in F1, F2, F3. destruct (Z.ltb_spec (first_node mask) MAX_NUMNODES) as [Hlt|Hge].
  - apply (cycle mask false (first_node mask) 65%nat); [done|by apply F2| |by apply F2| |].
    + intros Hf fuel' Hfuel. apply others_spec; [done|lia|done|done].
    + intros n _ Hc. rewrite decide_True in Hc by lia. lia.
    + unfold dist. rewrite decide_True by lia. unfold MAX_NUMNODES. lia.
  - apply others_spec; [done|lia| |done]. intros n Hn'. pose proof (Hm n Hn'). by destruct (F3 n ltac:(lia)).
Qed.
End Nodes.

(** ** Orders and zones *)

Section Blocks.
Context `{HeapEnv}.

(** No block of at least the order in the zone. *)
Definition no_block (w : hworld) (n z order : Z) : Prop := forall k, order <= k -> free_list (n, z, k) w = [].

Lemma remove_head_spec al n z k w (Q : option Z -> hworld -> Prop) :
  hinv al [] w -> (free_list (n, z, k) w = [] -> Q None w) ->
  (forall m l, free_list (n, z, k) w = m :: l -> hinv al [(n, z, k, m)] (set_heap (<[(n, z, k) := l]> (heap w)) w) -> Q (Some m) (set_heap (<[(n, z, k) := l]> (heap w)) w)) ->
  wp no_error (page_list_remove_head (n, z, k)) Q w.
Proof.
  intros I HN HS. unfold page_list_remove_head. wp_step. wp_step. destruct (free_list (n, z, k) w) as [|m l] eqn:E; [wp_step; auto|]. wp_step. wp_step. wp_step. apply (HS m l); [done|].
  pose proof (hi_nodup _ _ _ I (n, z, k)) as Hnd. rewrite E in Hnd. apply NoDup_cons in Hnd as [Hm Hl].
  eapply (hinv_take al [] n z k m l); [done| |done| |done]; unfold listed; rewrite E; [by left|]. intros x. rewrite elem_of_cons. naive_solver.
Qed.

Lemma find_order_spec al n z w cnt j :
  hinv al [] w -> wp no_error (find_order cnt n z j) (fun r w' =>
    match r with
    | None => w' = w /\ forall k, j <= k < j + Z.of_nat cnt -> free_list (n, z, k) w = []
    | Some (pg, k) => j <= k < j + Z.of_nat cnt /\ listed w n z k pg /\ hinv al [(n, z, k, pg)] w' /\ w' = set_heap (heap w') w
    end) w.
Proof.
  intros I. revert j. induction cnt as [|cnt IH]; intros j; cbn [find_order]; [wp_step; split; [done|lia]|].
  wp_step. eapply remove_head_spec; [done| |].
  - intros E. eapply wp_mono; [apply IH|]. intros [[pg k]|] w' Hr; [destruct Hr as [? Hr]; split; [lia|done]|]. destruct Hr as [-> Hr]. split; [done|].
    intros k Hk. destruct (decide (k = j)) as [->|]; [done|apply Hr; lia].
  - intros m l E I'. wp_step. split_and!; [lia|lia|unfold listed; rewrite E; by left|done|done].
Qed.

Lemma find_zone_spec al n order w cnt zone :
  hinv al [] w -> counts (free_all w) w -> 0 <= n < MAX_NUMNODES -> 0 <= order <= MAX_ORDER ->
  wp no_error (find_zone cnt n zone order) (fun r w' =>
    match r with
    | None => w' = w /\ forall z, zone - Z.of_nat cnt < z <= zone -> no_block w n z order
    | Some (z, pg, j) => zone - Z.of_nat cnt < z <= zone /\ order <= j <= MAX_ORDER /\ hinv al [(n, z, j, pg)] w' /\ w' = set_heap (heap w') w
    end) w.
Proof.
  intros I C Hn Ho. revert zone. induction cnt as [|cnt IH]; intros zone; cbn [find_zone]; [wp_step; split; [done|lia]|].
  assert (forall k m, listed w n zone k m -> n ∈ heap_nodes w /\ k <= MAX_ORDER /\ 2 ^ k <= avail_at (n, zone) w) as Hl.
  { intros k m Hm. destruct (hi_block _ _ _ I n zone k m ltac:(by left)) as (Hk & _ & _ & Hi). destruct (Hi m ltac:(apply in_block_self; lia)) as (Hf & <- & _).
    split_and!; [by apply (hi_free _ _ _ I)|lia|by eapply counts_listed]. }
  assert (no_block w n zone order -> wp no_error (find_zone cnt n (zone - 1) order) (fun r w' =>
    match r with
    | None => w' = w /\ forall z, zone - Z.of_nat (S cnt) < z <= zone -> no_block w n z order
    | Some (z, pg, j) => zone - Z.of_nat (S cnt) < z <= zone /\ order <= j <= MAX_ORDER /\ hinv al [(n, z, j, pg)] w' /\ w' = set_heap (heap w') w
    end) w) as Hrec.
  { intros Hno. eapply wp_mono; [apply IH|]. intros [[[z pg] j]|] w' Hr; [destruct Hr as [? Hr]; split; [lia|done]|]. destruct Hr as [-> Hr]. split; [done|].
    intros z Hz. destruct (decide (z = zone)) as [->|]; [done|apply Hr; lia]. }
  wp_step. unfold get_avail. rewrite bool_decide_eq_true_2 by done. wp_step. wp_step. wp_step. wp_step. case_bool_decide as Hnode.
  2:{ wp_step. apply Hrec. intros k Hk. destruct (free_list (n, zone, k) w) as [|m l] eqn:E; [done|]. destruct (Hl k m) as [? _]; [unfold listed; rewrite E; by left|done]. }
  change (id w) with w. rewrite shift_pow by lia. destruct (Z.ltb_spec (avail_at (n, zone) w) (2 ^ order)).
  - wp_step. apply Hrec. intros k Hk. destruct (free_list (n, zone, k) w) as [|m l] eqn:E; [done|]. destruct (Hl k m) as (_ & _ & ?); [unfold listed; rewrite E; by left|].
    pose proof (Z.pow_le_mono_r 2 order k). lia.
  - eapply wp_mono; [by apply (find_order_spec al)|]. intros [[pg j]|] w' Hr.
    + wp_step. destruct Hr as (? & _ & ? & ?). split_and!; [lia|lia|lia|lia|done|done].
    + destruct Hr as [-> Hr]. apply Hrec. intros k Hk. destruct (decide (k <= MAX_ORDER)); [apply Hr; lia|]. destruct (free_list (n, zone, k) w) as [|m l] eqn:E; [done|].
      destruct (Hl k m) as (_ & ? & _); [unfold listed; rewrite E; by left|lia].
Qed.
End Blocks.
