(* ===== verification/PageOps.v ===== *)
(** * Machine pages: allocation and release *)

From S2P Require Import Prelude.
From S2P Require Import Xen.
From S2P Require Import PageAlloc.
From S2P Require Import PageFacts.
From S2P Require Import PageCount.
From S2P Require Import PageSearch.

(** ** Orders of free blocks *)

(** Only the order in the first page of free blocks has changed. *)
Definition relabelled (w w' : hworld) (i : Z) : Prop :=
  pages w' !! i = pages w !! i \/ (is_free w i /\ exists p x, pages w !! i = Some p /\ pages w' !! i = Some (set_v x p)).
Definition relabel (w w' : hworld) : Prop := forall i, relabelled w w' i.

Lemma relabelled_free w w' i : relabelled w w' i -> is_free w' i <-> is_free w i.
Proof.
  intros [E|(Hf & p & x & Hp & Hp')]; [unfold is_free; by rewrite E|]. split; [done|]. intros _. destruct Hf as (q & Hq & Hf). exists (set_v x p).
  split; [done|]. simplify_eq. done.
Qed.

Lemma relabelled_trans w1 w2 w3 i : relabelled w1 w2 i -> relabelled w2 w3 i -> relabelled w1 w3 i.
Proof.
  intros H1 H2. pose proof (relabelled_free _ _ _ H1) as Hf. destruct H2 as [E2|(F2 & p2 & x2 & P2 & P2')]; [unfold relabelled; by rewrite E2|].
  right. split; [by apply Hf|]. destruct H1 as [E1|(F1 & p1 & x1 & P1 & P1')]; [exists p2, x2; split; [congruence|done]|]. exists p1, x2. split; [done|]. rewrite P2'. f_equal.
  assert (p2 = set_v x1 p1) as -> by congruence. done.
Qed.

Lemma relabel_refl w : relabel w w.
Proof. intros i. by left. Qed.

Lemma relabel_trans w1 w2 w3 : relabel w1 w2 -> relabel w2 w3 -> relabel w1 w3.
Proof. intros H1 H2 i. by eapply relabelled_trans. Qed.

Lemma relabel_free_all w w' : relabel w w' -> free_all w' = free_all w.
Proof. intros Hr. apply set_eq. intros i. rewrite !elem_of_free_all. apply relabelled_free, Hr. Qed.

Lemma relabel_step w m p k w' : is_free w m -> pages w !! m = Some p -> pages w' = <[m := set_v k p]> (pages w) -> relabel w w'.
Proof.
  intros Hf Hp E i. unfold relabelled. rewrite E. destruct (decide (i = m)) as [->|Hne]; [|left; by rewrite lookup_insert_ne].
  right. split; [done|]. exists p, k. by rewrite lookup_insert_eq.
Qed.

Lemma buddy_low m k : 0 <= k -> aligned m (k + 1) -> buddy m k = m + 2 ^ k.
Proof.
  intros Hk Hm. destruct (buddy_cases m k Hk) as (a & Ha & [(-> & E & _)|(E1 & E2 & _)]); [by apply (aligned_le m (k + 1)); [lia|]|done|].
  exfalso. destruct Hm as [q Hq], Ha as [q' ->]. rewrite pow_succ in * by done. eapply (half_odd (2 ^ k) q' q); [by apply Z.pow_pos_nonneg|]. lia.
Qed.

Lemma land_ldiff_same a b : Z.land (Z.ldiff a b) b = 0.
Proof. apply Z.bits_inj'. intros i Hi. rewrite Z.land_spec, Z.ldiff_spec, Z.testbit_0_l. by destruct (Z.testbit a i), (Z.testbit b i). Qed.

Section Alloc.
Context `{HeapEnv}.

(** ** Splitting *)

Lemma halve_step al n z k pg w p :
  0 <= k -> hinv al [(n, z, k + 1, pg)] w -> pages w !! pg = Some p ->
  hinv al [(n, z, k, pg + 2 ^ k)] (set_heap (<[(n, z, k) := free_list (n, z, k) w ++ [pg]]> (heap w)) (set_pages (<[pg := set_v k p]> (pages w)) w)).
Proof.
  intros Hk I Hp. pose proof (Z.pow_pos_nonneg 2 k ltac:(lia) Hk) as Hpos. destruct (hi_block _ _ _ I n z (k + 1) pg ltac:(right; by left)) as (_ & _ & Hal & _).
  assert (hinv al [(n, z, k, pg); (n, z, k, pg + 2 ^ k)] w) as I' by (apply hinv_split; [done|done|by apply not_elem_of_nil]).
  apply hinv_put; [done| |done|].
  - intros E%list_elem_of_singleton. injection E as E. lia.
  - intros Ha _. rewrite buddy_low by auto. apply (hi_loose _ _ _ I'). right. by left.
Qed.

Lemma halve_spec al n z cnt pg j w :
  hinv al [(n, z, j, pg)] w -> Z.of_nat cnt <= j ->
  wp no_error (halve cnt n z pg j) (fun pg' w' => hinv al [(n, z, j - Z.of_nat cnt, pg')] w' /\ relabel w w' /\ w' = set_heap (heap w') (set_pages (pages w') w)
    /\ pg <= pg' /\ pg' + 2 ^ (j - Z.of_nat cnt) <= pg + 2 ^ j) w.
Proof.
  revert pg j w. induction cnt as [|cnt IH]; intros pg j w I Hj; cbn [halve].
  { wp_step. rewrite Z.sub_0_r. split_and!; [done|apply relabel_refl|by destruct w|lia|lia]. }
  pose proof (Z.pow_pos_nonneg 2 (j - 1) ltac:(lia) ltac:(lia)) as Hpos. destruct (hi_block _ _ _ I n z j pg ltac:(right; by left)) as (_ & _ & _ & Hi).
  destruct (Hi pg ltac:(apply in_block_self; lia)) as (Hf & _). pose proof Hf as (p & Hp & _).
  replace j with ((j - 1) + 1) in I by lia. pose proof (halve_step al n z (j - 1) pg w p ltac:(lia) I Hp) as I1.
  wp_step. eapply wp_mod_page; [done|]. wp_step. unfold page_list_add_tail. wp_step. rewrite shift_pow by lia. eapply wp_mono; [apply (IH _ _ _ I1); lia|].
  intros pg' w' (I' & R & Ew & H1 & H2). replace (j - Z.of_nat (S cnt)) with (j - 1 - Z.of_nat cnt) by lia. split_and!; [done| |by rewrite Ew|lia|].
  - eapply relabel_trans; [|exact R]. by eapply relabel_step.
  - replace (2 ^ j) with (2 ^ ((j - 1) + 1)) by (f_equal; lia). rewrite pow_succ by lia. lia.
Qed.

(** ** Taking pages into use *)

Definition used (p : page_info) : page_info := page_set_owner None (set_type_info 0 (set_count_info PGC_state_inuse p)).

Definition flushed (w : hworld) (mask : gset Z) (i : Z) : Prop :=
  forall p c, pages w !! i = Some p -> need_tlbflush p = true -> c ∈ cpu_online_map -> NEED_FLUSH c (tlbflush_timestamp p) = true -> c ∈ mask.

Lemma use_pages_spec pg n w :
  (forall i, pg <= i < pg + Z.of_nat n -> exists p, pages w !! i = Some p /\ count_info p = PGC_state_free) ->
  wp no_error (for_acc n pg use_page ∅) (fun mask w' => w' = set_pages (pages w') w /\ changed used pg (pg + Z.of_nat n) w w' /\
    forall i, pg <= i < pg + Z.of_nat n -> flushed w mask i) w.
Proof.
  intros Hp. apply (wp_for_acc _ (fun i mask w' => pg <= i /\ w' = set_pages (pages w') w /\ changed used pg i w w' /\ forall j, pg <= j < i -> flushed w mask j)).
  - split_and!; [lia|by destruct w|apply changed_refl|lia].
  - intros i mask w' Hi (Hge & Ew & Hc & Hf). destruct (Hp i Hi) as (p & Hpi & Hcnt). pose proof (changed_at _ _ _ _ _ Hc) as Hat. rewrite Hpi in Hat.
    unfold use_page. wp_step. eapply wp_get_page; [done|]. rewrite Hcnt, Z.eqb_refl. wp_step. wp_step. wp_step. eapply wp_mod_page; [done|]. wp_step.
    split_and!; [lia|by rewrite Ew|by eapply changed_step|]. intros j Hj q c Hq Hn Hcpu Hnf. destruct (decide (j = i)) as [->|Hne].
    + assert (q = p) as -> by congruence. rewrite Hn. apply elem_of_union. destruct (decide (c ∈ mask)); [by left|right]. apply elem_of_filter. set_solver.
    + pose proof (Hf j ltac:(lia) q c Hq Hn Hcpu Hnf). destruct (need_tlbflush p); [set_solver|done].
  - intros mask w' (_ & Ew & Hc & Hf). done.
Qed.

(** ** Allocation *)

Definition heap_ok (al : bool) (w : hworld) : Prop := hinv al [] w /\ counts (free_all w) w.

(** What a request gets; [lo] and [hi] are the zones it allows. *)
Record allocated (al : bool) (lo hi order pg : Z) (d : option Z) (w w' : hworld) : Prop := Allocated {
  al_ok : heap_ok al w';
  al_pos : 0 < pg;
  al_aligned : al = true -> aligned pg order;
  al_block i : in_block pg order i -> is_free w i /\ lo <= Z.log2 i <= hi /\ phys_to_nid i = phys_to_nid pg;
  al_page i : in_block pg order i -> exists p, pages w !! i = Some p /\ pages w' !! i = Some (used p);
  al_rest i : ~ in_block pg order i -> relabelled w w' i;
  (** A processor that may hold a stale mapping of a page is told to flush its TLB. *)
  al_flush i p c : in_block pg order i -> pages w !! i = Some p -> need_tlbflush p = true -> c ∈ cpu_online_map -> NEED_FLUSH c (tlbflush_timestamp p) = true ->
    exists mask, FlushTlb mask ∈ events w' /\ c ∈ mask;
  al_nodes : heap_nodes w' = heap_nodes w;
  al_doms : hdoms w' = match d with Some d => alter (set_last_node (phys_to_nid pg)) d (hdoms w) | None => hdoms w end;
  al_events e : e ∈ events w -> e ∈ events w'
}.

Lemma check_low_spec w : wp no_error check_low_mem_virq (fun _ w' => exists h t o ev, w' = set_events ev (set_low_mem h t o w) /\ forall e, e ∈ events w -> e ∈ ev) w.
Proof.
  unfold check_low_mem_virq. wp_step. wp_step. cbv zeta. apply wp_if; intros _; [|apply wp_if; intros _].
  - wp_step. unfold event. wp_step. wp_step. eexists _, _, _, (events w ++ [SendGlobalVirq]). split; [done|]. set_solver.
  - wp_step. eexists _, _, _, (events w). split; [reflexivity|done].
  - wp_step. exists (low_mem_virq_high w), (low_mem_virq_th w), (low_mem_virq_th_order w), (events w). split; [by destruct w|done].
Qed.

(** The pages of the block in hand are used, and the counters follow. *)
(** The pages of a listed block are taken into use. *)
Lemma block_used al n z order pg w w' :
  hinv al [(n, z, order, pg)] w -> heap w' = heap w -> heap_nodes w' = heap_nodes w ->
  (forall i, pages w' !! i = if decide (pg <= i < pg + 2 ^ order) then used <$> pages w !! i else pages w !! i) -> hinv al [] w' /\ free_all w' = free_all w ∖ block_set pg order.
Proof.
  intros I Eh En P'. destruct (hi_block _ _ _ I n z order pg ltac:(right; by left)) as (_ & _ & _ & Hi).
  assert (forall i, in_block pg order i -> is_Some (pages w' !! i) /\ ~ is_free w' i) as Hused.
  { intros i Hb. destruct (Hi i Hb) as ((p & Hp & _) & _). rewrite P', decide_True by done. rewrite Hp. split; [by eexists|]. intros (q & Hq & Hfq). rewrite P', decide_True, Hp in Hq by done.
    injection Hq as <-. done. }
  split.
  - apply (hinv_use al [] n z order pg w w'); [done|by apply not_elem_of_nil|done|done| |done]. intros i Hb. by rewrite P', decide_False.
  - apply set_eq. intros i. rewrite elem_of_difference, !elem_of_free_all, elem_of_block_set. destruct (decide (pg <= i < pg + 2 ^ order)) as [Hb|Hb].
    + split; [intros Hf4; by destruct (Hused i Hb)|intros [_ Hn']; by destruct Hn'].
    + unfold is_free. rewrite P', decide_False by done. unfold in_block. tauto.
Qed.

Lemma taken_allocated al lo hi order n z pg w0 w w' mask (d : option Z) :
  hinv al [(n, z, order, pg)] w -> relabel w0 w -> lo <= z <= hi -> heap_ok al w' ->
  (forall i, pages w' !! i = if decide (pg <= i < pg + 2 ^ order) then used <$> pages w !! i else pages w !! i) -> heap_nodes w' = heap_nodes w0 ->
  hdoms w' = match d with Some d => alter (set_last_node n) d (hdoms w0) | None => hdoms w0 end -> (forall e, e ∈ events w0 -> e ∈ events w') ->
  (forall i, in_block pg order i -> flushed w mask i) -> (mask <> ∅ -> FlushTlb mask ∈ events w') -> allocated al lo hi order pg d w0 w'.
Proof.
  intros I R Hz HO P' En Ed Hev Hf Hm. destruct (hi_block _ _ _ I n z order pg ltac:(right; by left)) as (Ho & Hpg & Hal & Hi). destruct (Hi pg ltac:(apply in_block_self; lia)) as (_ & Enpg & _). split; try done.
  - intros i Hb. destruct (Hi i Hb) as (? & ? & ?). split_and!; [by apply (relabelled_free w0 w)|lia|lia|congruence].
  - intros i Hb. destruct (Hi i Hb) as ((p & Hp & _) & _). destruct (R i) as [E|(_ & q & x & Hq & Hq')].
    + exists p. rewrite <- E, P', decide_True, Hp by done. done.
    + exists q. rewrite P', decide_True, Hq' by done. done.
  - intros i Hb. eapply relabelled_trans; [apply R|]. left. by rewrite P', decide_False.
  - intros i p c Hb Hp Hnf Hcpu Hneed. assert (c ∈ mask) as Hin.
    { destruct (R i) as [E|(_ & q & x & Hq & Hq')]; [apply (Hf i Hb p c); rewrite ?E; done|]. apply (Hf i Hb (set_v x q) c); [done|..]; assert (q = p) as -> by congruence; done. }
    exists mask. split; [|done]. apply Hm. intros Em. rewrite Em in Hin. by apply not_elem_of_empty in Hin.
  - by rewrite Ed, Enpg.
Qed.

Lemma take_block_spec al lo hi order n z pg w0 w (d : option Z) :
  hinv al [(n, z, order, pg)] w -> counts (free_all w) w -> relabel w0 w -> heap_nodes w = heap_nodes w0 -> events w = events w0 -> hdoms w = hdoms w0 -> lo <= z <= hi ->
  match d with Some d => is_Some (hdoms w !! d) | None => True end ->
  wp no_error (take_pages n z order pg d) (fun _ w' => allocated al lo hi order pg d w0 w') w.
Proof.
  intros I C R En Eev Edom Hz Hd. destruct (hi_block _ _ _ I n z order pg ltac:(right; by left)) as (Ho & Hpg & Hal & Hi).
  pose proof (Z.pow_pos_nonneg 2 order ltac:(lia) ltac:(lia)) as Hpos.
  destruct (Hi pg ltac:(apply in_block_self; lia)) as (Hfpg & Enpg & _). pose proof (hi_free _ _ _ I pg Hfpg) as [_ Hnode]. rewrite Enpg in Hnode.
  pose proof (hi_nodes _ _ _ I n Hnode) as Hn.
  destruct (counts_sub (free_all w) n z order pg w ltac:(lia) C) as (Ha & Ht & C').
  { intros i Hb. rewrite elem_of_free_all. naive_solver. }
  assert (forall w, n ∈ heap_nodes w -> forall Q, Q (Some (avail_at (n, z) w)) w -> wp no_error (get_avail n z) Q w) as Hget.
  { intros w1 Hw1 Q HQ. unfold get_avail. rewrite bool_decide_eq_true_2 by done. wp_step. wp_step. wp_step. change (id w1) with w1. by rewrite bool_decide_eq_true_2. }
  unfold take_pages. rewrite shift_pow by lia. wp_step. apply Hget; [done|]. wp_step. apply wp_assert; [by apply bool_decide_eq_true|]. wp_step. unfold add_avail. wp_step. apply Hget; [done|]. wp_step.
  replace (avail_at (n, z) w + - 2 ^ order) with (avail_at (n, z) w - 2 ^ order) by lia. replace (total_avail_pages w + - 2 ^ order) with (total_avail_pages w - 2 ^ order) by lia.
  set (w1 := set_counts _ _ w) in *. wp_step. wp_step. wp_step. apply wp_assert; [apply Z.leb_le; simpl; lia|]. wp_step.
  eapply wp_mono; [apply check_low_spec|]. intros [] w2 (h & t & o & ev & E2 & Hev). wp_step.
  assert (forall w3, pages w3 = pages w -> heap w3 = heap w -> heap_nodes w3 = heap_nodes w -> avail w3 = avail w1 -> total_avail_pages w3 = total_avail_pages w1 -> events w3 = ev ->
    hdoms w3 = match d with Some d => alter (set_last_node n) d (hdoms w) | None => hdoms w end ->
    wp no_error (let! mask := for_acc (Z.to_nat (2 ^ order)) pg use_page ∅ in when (negb (bool_decide (mask = ∅))) (event (FlushTlb mask)))
      (fun _ w' => allocated al lo hi order pg d w0 w') w3) as Hfin.
  2:{ destruct d as [d|]; [|wp_step; apply Hfin; by rewrite E2]. destruct Hd as [x Hx]. unfold mod_hdom, get_hdom. wp_step. wp_step. wp_step. rewrite E2. simpl.
      eapply wp_of_option; [exact Hx|]. wp_step. apply Hfin; try done. simpl. apply map_eq. intros e. destruct (decide (e = d)) as [->|]; [by rewrite lookup_insert_eq, lookup_alter_eq, Hx|by rewrite lookup_insert_ne, lookup_alter_ne]. }
  clear Hget w2 E2. intros w3 P3 H3 N3 A3 T3 V3 D3. wp_step. eapply wp_mono; [apply use_pages_spec|].
  { intros i Hb. destruct (Hi i) as ((p & Hp & Hf) & _); [unfold in_block; lia|]. exists p. rewrite P3. split; [done|]. by apply (hi_count _ _ _ I i). }
  intros mask w4 (E4 & Hc & Hf). replace (pg + Z.of_nat (Z.to_nat (2 ^ order))) with (pg + 2 ^ order) in * by lia.
  assert (forall i, pages w4 !! i = if decide (pg <= i < pg + 2 ^ order) then used <$> pages w !! i else pages w !! i) as P4 by (intros i; rewrite (Hc i), P3; done).
  destruct (block_used al n z order pg w w4 I) as [I4 EF]; [rewrite E4; simpl; congruence|rewrite E4; simpl; congruence|exact P4|].
  assert (counts (free_all w4) w4) as C4.
  { rewrite EF. destruct C' as [c1 c2]. split; [intros a b; rewrite <- c1|rewrite <- c2]; unfold avail_at; rewrite E4; simpl; [by rewrite A3|by rewrite T3]. }
  assert (forall w5, pages w5 = pages w4 -> heap w5 = heap w4 -> heap_nodes w5 = heap_nodes w4 -> avail w5 = avail w4 -> total_avail_pages w5 = total_avail_pages w4 -> hdoms w5 = hdoms w4 ->
    (forall e, e ∈ events w4 -> e ∈ events w5) -> (mask <> ∅ -> FlushTlb mask ∈ events w5) -> allocated al lo hi order pg d w0 w5) as Hend.
  2:{ apply wp_when; intros Hm; [unfold event; wp_step|]; apply Hend; try done; simpl.
      - intros e He. apply elem_of_app. by left.
      - intros _. apply elem_of_app. right. by left.
      - intros Hne. by rewrite bool_decide_eq_false_2 in Hm. }
  intros w5 P5 H5 N5 A5 T5 D5 V5 M5. assert (events w4 = ev) as Eev4 by (rewrite E4; simpl; done). apply (taken_allocated al lo hi order n z pg w0 w w5 mask d); try done.
  - split; [by apply (hinv_ext al [] w4)|]. assert (free_all w5 = free_all w4) as -> by (unfold free_all; by rewrite P5).
    destruct C4 as [c1 c2]. split; [intros a b; rewrite <- c1; unfold avail_at; by rewrite A5|by rewrite T5].
  - intros i. by rewrite P5.
  - rewrite N5, E4. simpl. congruence.
  - rewrite D5, E4. simpl. by rewrite D3, Edom.
  - intros e He. apply V5. rewrite Eev4. apply Hev. simpl. by rewrite Eev.
  - intros i Hb p c Hp. apply (Hf i Hb p c). by rewrite P3.
Qed.

(** The laws of the machine: node numbers are in range; there is no transcendent memory. *)
Definition machine_ok : Prop := node_range node_online_map /\ 0 <= this_node < MAX_NUMNODES /\ opt_tmem = false.

Definition dom_nodes_ok (x : hdom) : Prop := node_range (node_affinity x) /\ -1 <= last_alloc_node x < MAX_NUMNODES.

Definition requested_node (memflags : Z) : Z := u8 (Z.shiftr memflags 8 - 1).
(** The node a caller asks for exists, or it does not ask for one. *)
Definition node_flag_ok (memflags : Z) : Prop := requested_node memflags < MAX_NUMNODES \/ requested_node memflags = NUMA_NO_NODE.
Definition exact_node (memflags : Z) : bool := negb (requested_node memflags =? NUMA_NO_NODE) && has_flag memflags MEMF_exact_node.

Definition caller_ok (w : hworld) (d : option Z) : Prop :=
  match d with Some d => exists x, hdoms w !! d = Some x /\ dom_nodes_ok x | None => True end.

Lemma start_node_ok memflags x mask :
  machine_ok -> node_flag_ok memflags -> match x with Some x => dom_nodes_ok x | None => True end -> node_range mask -> 0 <= start_node (requested_node memflags) x mask < MAX_NUMNODES.
Proof.
  intros (_ & Ht & _) Hf Hx Hm. assert (0 <= requested_node memflags) as H0 by (unfold requested_node, u8; apply Z.mod_pos_bound; lia).
  unfold start_node. destruct (Z.eqb_spec (requested_node memflags) NUMA_NO_NODE) as [E|E]; [|destruct Hf; lia]. cbv zeta. destruct x as [x|].
  - destruct Hx as [_ Hl]. destruct (find_from_spec (last_alloc_node x + 1) mask ltac:(lia)) as (N1 & _). fold (next_node (last_alloc_node x) mask) in N1.
    destruct (find_from_spec 0 mask ltac:(unfold MAX_NUMNODES; lia)) as (F1 & _). fold (first_node mask) in F1.
    destruct (Z.leb_spec MAX_NUMNODES (next_node (last_alloc_node x) mask)); [destruct (Z.leb_spec MAX_NUMNODES (first_node mask))|destruct (Z.leb_spec MAX_NUMNODES (next_node (last_alloc_node x) mask))]; lia.
  - destruct (Z.leb_spec MAX_NUMNODES (requested_node memflags)); [lia|]. unfold MAX_NUMNODES, NUMA_NO_NODE in *. lia.
Qed.

(** The result of a request. *)
Definition alloc_post (al : bool) (lo hi order : Z) (exact : bool) (d : option Z) (w : hworld) (r : option Z) (w' : hworld) : Prop :=
  match r with
  | None => w' = w /\ (order <= MAX_ORDER -> exact = false -> forall n z, n ∈ node_online_map -> lo <= z <= hi -> no_block w n z order)
  | Some pg => order <= MAX_ORDER /\ allocated al lo hi order pg d w w'
  end.

Lemma alloc_from_spec al lo hi order exact node mask d w :
  machine_ok -> heap_ok al w -> node_range mask -> 0 <= node < MAX_NUMNODES -> match d with Some d => is_Some (hdoms w !! d) | None => True end ->
  0 <= order <= MAX_ORDER -> lo <= hi -> wp no_error (alloc_from lo hi order exact node mask d) (alloc_post al lo hi order exact d w) w.
Proof.
  intros (Hon & _ & _) [I C] Hmr Hst Hd Ho Hz. unfold alloc_from. wp_step.
  eapply (find_node_spec _ _ w (fun n => forall z, hi - Z.of_nat (Z.to_nat (hi - lo + 1)) < z <= hi -> no_block w n z order)
    (fun n '(z, pg, j) w' => hi - Z.of_nat (Z.to_nat (hi - lo + 1)) < z <= hi /\ order <= j <= MAX_ORDER /\ hinv al [(n, z, j, pg)] w' /\ w' = set_heap (heap w') w));
    [| | |apply le_n|exact Hst|exact Hmr|exact Hon|].
  - intros n Hn. eapply wp_mono; [apply (find_zone_spec al); [done|done|done|lia]|]. intros [[[z pg] j]|] w' Hr; exact Hr.
  - intros n [[z pg] j] w' (Hzr & Hj & I1 & E1). wp_step. eapply wp_mono; [apply (halve_spec al); [exact I1|lia]|].
    intros pg' w2 (I2 & R2 & E2 & _ & _). replace (j - Z.of_nat (Z.to_nat (j - order))) with order in I2 by lia.
    assert (relabel w w') as R1 by (rewrite E1; intros i; by left). assert (relabel w w2) as R by by eapply relabel_trans.
    wp_step. eapply wp_mono; [apply (take_block_spec al lo hi order n z pg' w w2 d I2); [|done|by rewrite E2, E1|by rewrite E2, E1|by rewrite E2, E1|lia|by rewrite E2, E1]|].
    + rewrite (relabel_free_all w w2 R), E2, E1. destruct C as [c1 c2]. split; [intros a b; apply c1|apply c2].
    + intros [] w3 A. wp_step. split; [lia|done].
  - intros Hex. wp_step. split; [done|]. congruence.
  - intros Hall. wp_step. split; [done|]. intros _ _ n z Hn Hzr. apply (Hall n); [set_solver|lia].
Qed.

Lemma alloc_heap_spec al lo hi order memflags d w :
  machine_ok -> heap_ok al w -> node_flag_ok memflags -> caller_ok w d -> 0 <= order -> lo <= hi < NR_ZONES ->
  wp no_error (alloc_heap_pages lo hi order memflags d) (alloc_post al lo hi order (exact_node memflags) d w) w.
Proof.
  intros Hmach Hok Hflag Hcall Ho Hz. pose proof Hmach as (Hon & _ & Htm). unfold alloc_heap_pages. fold (requested_node memflags).
  assert (has_flag (if requested_node memflags =? NUMA_NO_NODE then Z.ldiff memflags MEMF_exact_node else memflags) MEMF_exact_node = exact_node memflags) as ->.
  { unfold exact_node. destruct (requested_node memflags =? NUMA_NO_NODE); [|done]. unfold has_flag. rewrite land_ldiff_same. done. }
  wp_step. unfold opt_hdom. destruct d as [d|].
  - destruct Hcall as (x & Hx & Hxn). wp_step. unfold get_hdom. wp_step. wp_step. eapply wp_of_option; [done|]. wp_step.
    wp_step. apply wp_assert; [apply Z.leb_le; lia|]. wp_step. apply wp_assert; [apply Z.ltb_lt; lia|]. destruct (Z.ltb_spec MAX_ORDER order); [wp_step; split; [done|lia]|].
    wp_step. wp_step. rewrite Htm. cbn [andb]. apply alloc_from_spec; [done|done|apply Hxn|by apply start_node_ok; [| |done|apply Hxn]|by eexists|lia|lia].
  - wp_step. wp_step. apply wp_assert; [apply Z.leb_le; lia|]. wp_step. apply wp_assert; [apply Z.ltb_lt; lia|]. destruct (Z.ltb_spec MAX_ORDER order); [wp_step; split; [done|lia]|].
    wp_step. wp_step. rewrite Htm. cbn [andb]. apply alloc_from_spec; [done|done|done|by apply start_node_ok|done|lia|lia].
Qed.
End Alloc.
