(* ===== verification/PageFree.v ===== *)
(** * Machine pages: release

    Freeing a block of pages in use merges it with its free buddies. *)

From S2P Require Import Prelude.
From S2P Require Import Xen.
From S2P Require Import PageAlloc.
From S2P Require Import PageFacts.
From S2P Require Import PageCount.
From S2P Require Import PageSearch.
From S2P Require Import PageOps.

Section Free.
Context `{HeapEnv}.

(** ** Merging *)

Lemma hinv_same_blocks al L L' w : (forall b, b ∈ L' <-> b ∈ L) -> hinv al L w -> hinv al L' w.
Proof.
  intros E I. assert (forall n z k m, blk L' w n z k m <-> blk L w n z k m) as EB by (intros; unfold blk; by rewrite E). split; try apply I.
  - intros n z k m Hb. apply (hi_block _ _ _ I), EB, Hb.
  - intros n z k m n' z' k' m' i H1 H2. apply EB in H1, H2. exact (hi_disj _ _ _ I _ _ _ _ _ _ _ _ _ H1 H2).
  - intros n z k m Hb. apply (hi_loose _ _ _ I), E, Hb.
  - intros i Hi. destruct (hi_cover _ _ _ I i Hi) as (n & z & k & m & Hb & ?). exists n, z, k, m. split; [by apply EB|done].
Qed.

(** A neighbour that can be merged is the buddy, in its list. *)
Lemma mergeable_spec n z k m w (Q : bool -> hworld -> Prop) :
  hinv true [(n, z, k, m)] w -> k < MAX_ORDER -> (listed w n z k (buddy m k) -> Q true w) -> (~ listed w n z k (buddy m k) -> Q false w) ->
  wp no_error (mergeable (buddy m k) k n) Q w.
Proof.
  intros I Hk HT HF. unfold mergeable.
  assert (listed w n z k (buddy m k) -> exists p, mfn_valid (buddy m k) = true /\ pages w !! buddy m k = Some p /\ page_state_is p PGC_state_free = true /\ v p = k /\ phys_to_nid (buddy m k) = n) as HL.
  { intros Hl. destruct (hi_order _ _ _ I _ _ _ _ Hl) as (p & Hp & Hv). destruct (hi_block _ _ _ I n z k (buddy m k) ltac:(by left)) as (Hk0 & _ & _ & Hi).
    destruct (Hi _ ltac:(apply in_block_self; lia)) as (Hf & Hn & _). pose proof (hi_free _ _ _ I _ Hf) as [Hval _]. destruct Hf as (q & Hq & Hf). exists p. split_and!; try done. congruence. }
  destruct (mfn_valid (buddy m k)) eqn:Hval; cbn [negb]; [|wp_step; apply HF; intros (? & ? & _)%HL; congruence].
  destruct (hi_valid _ _ _ I _ Hval) as [p Hp]. wp_step. eapply wp_get_page; [done|]. wp_step. unfold PFN_ORDER.
  destruct (page_state_is p PGC_state_free) eqn:Hf; cbn [andb]; [|apply HF; intros (q & _ & ? & ? & _)%HL; congruence].
  destruct (Z.eqb_spec (v p) k) as [Hv|Hv]; cbn [andb]; [|apply HF; intros (q & _ & ? & _ & ? & _)%HL; congruence].
  destruct (Z.eqb_spec (phys_to_nid (buddy m k)) n) as [Hn|Hn]; [apply HT; by eapply buddy_listed|apply HF; intros (q & _ & _ & _ & _ & ?)%HL; congruence].
Qed.

Lemma list_del_spec al L n z k m w (Q : unit -> hworld -> Prop) :
  hinv al L w -> listed w n z k m -> (forall l, let w' := set_heap (<[(n, z, k) := l]> (heap w)) w in hinv al ((n, z, k, m) :: L) w' -> Q tt w') ->
  wp no_error (page_list_del m (n, z, k)) Q w.
Proof.
  intros I Hl HQ. unfold page_list_del. wp_step. wp_step. rewrite bool_decide_eq_true_2 by done. wp_step. apply HQ.
  eapply hinv_take; [done|exact Hl| | |done]; [apply NoDup_filter, I|]. intros x. rewrite list_elem_of_filter. unfold listed. tauto.
Qed.

Lemma merge_spec n z cnt m k w :
  hinv true [(n, z, k, m)] w -> k + Z.of_nat cnt = MAX_ORDER ->
  wp no_error (merge cnt n z m k) (fun r w' => hinv true [(n, z, r.2, r.1)] w' /\ w' = set_heap (heap w') w /\ (r.2 < MAX_ORDER -> ~ listed w' n z r.2 (buddy r.1 r.2))) w.
Proof.
  revert m k w. induction cnt as [|cnt IH]; intros m k w I Hcnt; cbn [merge].
  { wp_step. simpl. split_and!; [done|by destruct w|lia]. }
  destruct (hi_block _ _ _ I n z k m ltac:(right; by left)) as (Hk & Hm & Hal & _). pose proof (Z.pow_pos_nonneg 2 k ltac:(lia) ltac:(lia)) as Hpos.
  specialize (Hal eq_refl). destruct (buddy_cases m k ltac:(lia) Hal) as (a & Ha & Hc). cbv zeta. rewrite shift_pow by lia.
  assert (forall w', hinv true [(n, z, k + 1, a)] w' -> w' = set_heap (heap w') w ->
    wp no_error (merge cnt n z a (k + 1)) (fun r w'' => hinv true [(n, z, r.2, r.1)] w'' /\ w'' = set_heap (heap w'') w /\ (r.2 < MAX_ORDER -> ~ listed w'' n z r.2 (buddy r.1 r.2))) w') as Hrec.
  { intros w' I' E'. eapply wp_mono; [apply (IH a (k + 1) w' I'); lia|]. intros r w'' (I2 & E2 & Hb). split_and!; [done|by rewrite E2, E'|done]. }
  assert (forall l, let w' := set_heap (<[(n, z, k) := l]> (heap w)) w in hinv true [(n, z, k, buddy m k); (n, z, k, m)] w' -> hinv true [(n, z, k + 1, a)] w') as Hjoin.
  { intros l w' I'. apply hinv_join; [lia|done|by apply not_elem_of_nil|by apply not_elem_of_nil|]. revert I'. apply hinv_same_blocks. intros b.
    destruct Hc as [(E1 & E2 & _)|(E1 & E2 & _)]; rewrite E2, E1; rewrite !elem_of_cons; tauto. }
  destruct Hc as [(E1 & E2 & Ef)|(E1 & E2 & Ef)]; rewrite Ef.
  - subst a. rewrite <- E2. wp_step. eapply mergeable_spec; [done|lia| |]; intros Hl; cbn [negb]; [|wp_step; split_and!; [done|by destruct w|done]].
    wp_step. eapply list_del_spec; [done|done|]. intros l w' I'. apply Hrec; [by apply Hjoin|done].
  - replace (m - 2 ^ k) with (buddy m k) by lia. wp_step. eapply mergeable_spec; [done|lia| |]; intros Hl; cbn [negb]; [|wp_step; split_and!; [done|by destruct w|done]].
    wp_step. eapply list_del_spec; [done|done|]. intros l w' I'. rewrite E2. apply Hrec; [by apply Hjoin|done].
Qed.

(** ** Releasing the pages *)

Definition released (p : page_info) : page_info :=
  let flush := bool_decide (is_Some (page_get_owner p)) in
  page_set_owner None (set_flush flush (if flush then tlbflush_current_time else tlbflush_timestamp p) (set_count_info PGC_state_free p)).

(** A page in use, neither broken nor on its way out. *)
Definition in_use (p : page_info) : Prop := Z.land (count_info p) PGC_state = PGC_state_inuse /\ Z.land (count_info p) PGC_broken = 0.

Lemma release_pages_spec pg n w :
  (forall i, pg <= i < pg + Z.of_nat n -> exists p, pages w !! i = Some p /\ in_use p) ->
  wp no_error (for_acc n pg release_page false) (fun t w' => t = false /\ w' = set_m2p (m2p w') (set_pages (pages w') w) /\ changed released pg (pg + Z.of_nat n) w w') w.
Proof.
  intros Hp. apply (wp_for_acc _ (fun i t w' => pg <= i /\ t = false /\ w' = set_m2p (m2p w') (set_pages (pages w') w) /\ changed released pg i w w')).
  - split_and!; [lia|done|by destruct w|apply changed_refl].
  - intros i t w' Hi (Hge & -> & Ew & Hc). destruct (Hp i Hi) as (p & Hpi & Hst & Hbr). pose proof (changed_at _ _ _ _ _ Hc) as Hat. rewrite Hpi in Hat.
    unfold release_page. wp_step. eapply wp_get_page; [done|]. unfold page_state_is. rewrite Hst, Hbr. wp_step. apply wp_assert; [done|]. cbv zeta.
    wp_step. eapply wp_mod_page; [done|]. wp_step. unfold set_gpfn_from_mfn. apply wp_when; intros _.
    + wp_step. eapply wp_get_page; [simpl; by rewrite lookup_insert_eq|]. wp_step. wp_step. split_and!; [lia|done|by rewrite Ew|]. by eapply changed_step.
    + wp_step. split_and!; [lia|done|by rewrite Ew|]. by eapply changed_step.
  - intros t w' (_ & Ht & Ew & Hc). done.
Qed.

(** What a caller owns when it frees. *)
Record releasable (w : hworld) (pg order : Z) : Prop := Releasable {
  rl_order : 0 <= order <= MAX_ORDER;
  rl_pos : 0 < pg;
  rl_aligned : aligned pg order;
  rl_zone p : pages w !! pg = Some p -> has_flag (count_info p) PGC_xen_heap = false;
  rl_node : phys_to_nid pg ∈ heap_nodes w;
  rl_pages i : in_block pg order i -> (exists p, pages w !! i = Some p /\ in_use p) /\ mfn_valid i = true /\ phys_to_nid i = phys_to_nid pg
}.

Record freed (order pg : Z) (w w' : hworld) : Prop := Freed {
  fr_ok : heap_ok true w';
  fr_block i : in_block pg order i -> exists p x, pages w !! i = Some p /\ pages w' !! i = Some (set_v x (released p));
  fr_rest i : ~ in_block pg order i -> relabelled w w' i;
  fr_nodes : heap_nodes w' = heap_nodes w;
  fr_doms : hdoms w' = hdoms w;
  fr_events : events w' = events w
}.

Lemma in_use_not_free p : in_use p -> page_state_is p PGC_state_free = false.
Proof. intros [Hs _]. unfold page_state_is. by rewrite Hs. Qed.

Lemma free_heap_spec pg order w :
  machine_ok -> heap_ok true w -> releasable w pg order -> wp no_error (free_heap_pages pg order) (fun _ w' => freed order pg w w') w.
Proof.
  intros (_ & _ & Htm) [I C] [Ho Hpg Hal Hzone Hnode Hpages]. pose proof (Z.pow_pos_nonneg 2 order ltac:(lia) ltac:(lia)) as Hpos.
  destruct (Hpages pg ltac:(apply in_block_self; lia)) as ((p & Hp & _) & _). specialize (Hzone p Hp). set (n := phys_to_nid pg) in *. set (z := Z.log2 pg).
  unfold free_heap_pages. wp_step. eapply wp_get_page; [done|]. unfold page_to_zone. rewrite Hzone. fold z. fold n. wp_step. apply wp_assert; [apply Z.leb_le; lia|].
  rewrite shift_pow by lia. wp_step. eapply wp_mono; [apply release_pages_spec|]. { intros i Hi. apply (Hpages i). unfold in_block. lia. }
  intros t w1 (-> & E1 & Hc). replace (pg + Z.of_nat (Z.to_nat (2 ^ order))) with (pg + 2 ^ order) in Hc by lia.
  assert (forall i, in_block pg order i -> phys_to_nid i = n /\ Z.log2 i = z) as Hnz by (intros i Hi; split; [by apply Hpages|apply (zone_block pg order i); [lia|done..]]).
  assert (forall i, in_block pg order i -> ~ is_free w i) as Hnf.
  { intros i Hi (q & Hq & Hf). destruct (Hpages i Hi) as ((q' & Hq' & Hu) & _). assert (q' = q) as -> by congruence. apply in_use_not_free in Hu. congruence. }
  assert (hinv true [(n, z, order, pg)] w1) as I1.
  { apply (hinv_free true [] n z order pg w w1); [done|done|done|done|done|by rewrite E1|by rewrite E1| |intros i Hi; by rewrite (Hc i), decide_False|].
    - intros i Hi. destruct (Hnz i Hi). split_and!; [auto|by apply Hpages|done|done].
    - intros i Hi. destruct (Hpages i Hi) as ((q & Hq & _) & _). exists (released q). by rewrite (Hc i), decide_True, Hq. }
  assert (free_all w1 = free_all w ∪ block_set pg order) as EF.
  { apply set_eq. intros i. rewrite elem_of_union, !elem_of_free_all, elem_of_block_set. destruct (decide (pg <= i < pg + 2 ^ order)) as [Hb|Hb].
    - split; [intros _; by right|intros _]. apply (hi_block _ _ _ I1 n z order pg); [right; by left|done].
    - unfold is_free. rewrite (Hc i), decide_False by done. unfold in_block. tauto. }
  assert (counts (free_all w) w1) as C1 by (rewrite E1; destruct C as [c1 c2]; split; [exact c1|exact c2]).
  pose proof (counts_add (free_all w) n z order pg w1 ltac:(lia) C1) as C2.
  specialize (C2 ltac:(intros i Hi; rewrite elem_of_free_all; destruct (Hnz i Hi); auto)). rewrite <- EF in C2.
  wp_step. unfold add_avail, get_avail. pose proof (hi_nodes _ _ _ I n Hnode). wp_step. rewrite bool_decide_eq_true_2 by done. wp_step. wp_step. wp_step. change (id w1) with w1.
  rewrite bool_decide_eq_true_2 by by rewrite E1. wp_step. set (w2 := set_counts _ _ w1) in *. rewrite Htm. unfold when at 1. wp_step. wp_step. wp_step.
  assert (hinv true [(n, z, order, pg)] w2) as I2 by by apply (hinv_ext true _ w1).
  eapply wp_mono; [apply (merge_spec n z _ pg order w2 I2); lia|]. intros [m k] w3 (I3 & E3 & Hb). cbn [fst snd] in *.
  destruct (hi_block _ _ _ I3 n z k m ltac:(right; by left)) as (Hk & _ & _ & Hfree). destruct (Hfree m ltac:(apply in_block_self; lia)) as (Hfm & _). pose proof Hfm as (q & Hq & _).
  wp_step. eapply wp_mod_page; [done|]. wp_step. unfold page_list_add_tail. wp_step. unfold when.
  set (w4 := set_heap _ _). wp_step. assert (hinv true [] w4) as I4 by (apply (hinv_put true [] n z k m w3 q); [done|by apply not_elem_of_nil|done|auto]).
  assert (relabel w1 w4) as R by (intros i; apply (relabelled_trans w1 w3); [left; by rewrite E3|by apply (relabel_step w3 m q k w4)]).
  split.
  - split; [done|]. rewrite (relabel_free_all w1 w4 R). change (free_all w2) with (free_all w1) in C2. destruct C2 as [c1 c2].
    split; [intros a b; rewrite <- c1|rewrite <- c2]; unfold w4, avail_at; simpl; by rewrite E3.
  - intros i Hi. destruct (Hpages i Hi) as ((q' & Hq' & _) & _). assert (pages w1 !! i = Some (released q')) as P1 by by rewrite (Hc i), decide_True, Hq'.
    destruct (R i) as [E|(_ & r & x & Hr & Hr')]; [exists q', (v (released q')); split; [done|]; rewrite E, P1; by destruct (released q')|].
    exists q', x. split; [done|]. rewrite Hr'. congruence.
  - intros i Hi. eapply relabelled_trans; [|apply R]. left. by rewrite (Hc i), decide_False.
  - unfold w4. simpl. rewrite E3. simpl. by rewrite E1.
  - unfold w4. simpl. rewrite E3. simpl. by rewrite E1.
  - unfold w4. simpl. rewrite E3. simpl. by rewrite E1.
Qed.
End Free.
