(* ===== verification/PageDom.v ===== *)
(** * Machine pages: the pages of the domains

    The pages a domain gets from the heap and gives back to it. *)

From S2P Require Import Prelude.
From S2P Require Import Xen.
From S2P Require Import PageAlloc.
From S2P Require Import PageFacts.
From S2P Require Import PageCount.
From S2P Require Import PageSearch.
From S2P Require Import PageOps.
From S2P Require Import PageFree.

Section Dom.
Context `{HeapEnv}.

(** ** The invariant *)

(** Page [m] belongs to domain [d] and no mapping of it has a type any more. *)
Record owned (w : hworld) (d m : Z) : Prop := Owned {
  ow_page : exists p, pages w !! m = Some p /\ v p = d /\ in_use p /\ has_flag (count_info p) PGC_xen_heap = false;
  ow_pos : 0 < m;
  ow_valid : mfn_valid m = true;
  ow_node : phys_to_nid m ∈ heap_nodes w
}.

Record dom_ok (w : hworld) (d : Z) (x : hdom) : Prop := DomOk {
  do_id : 0 < d /\ d <> dom_cow;
  do_nodes : dom_nodes_ok x;
  do_nodup : NoDup (page_list x);
  do_relmem : relmem_list x = [];
  do_tot : tot_pages x = Z.of_nat (length (page_list x));
  do_max : tot_pages x <= max_pages x;
  do_width : max_pages x + 2 ^ MAX_ORDER < 2 ^ 32;
  do_pages m : m ∈ page_list x -> owned w d m
}.

Record dinv (w : hworld) : Prop := DInv {
  di_heap : heap_ok true w;
  di_dom d x : hdoms w !! d = Some x -> dom_ok w d x
}.

(** Pages of domains are not touched by changes to free pages. *)
Lemma owned_relabelled w w' d m : owned w d m -> relabelled w w' m -> heap_nodes w' = heap_nodes w -> owned w' d m.
Proof.
  intros [(p & Hp & Hv & Hu & Hx) H1 H2 H3] [E|(Hf & q & x & Hq & Hq')] En; [split; [exists p; by rewrite E|done|done|by rewrite En]|].
  exfalso. destruct Hf as (r & Hr & Hf). assert (r = p) as -> by congruence. apply in_use_not_free in Hu. congruence.
Qed.

Lemma owned_not_free w d m : owned w d m -> ~ is_free w m.
Proof. intros [(p & Hp & _ & Hu & _) _ _ _] (q & Hq & Hf). apply in_use_not_free in Hu. congruence. Qed.

Lemma dom_ok_pages w w' d x :
  dom_ok w d x -> (forall m, m ∈ page_list x -> relabelled w w' m) -> heap_nodes w' = heap_nodes w -> dom_ok w' d x.
Proof. intros [D1 D2 D3 D4 D5 D6 D7 D8] HR En. split; try done. intros m Hm. eapply owned_relabelled; eauto. Qed.

(** ** Assigning *)

Definition assigned (d : Z) (p : page_info) : page_info := set_count_info (Z.lor PGC_allocated 1) (page_set_owner (Some d) p).

Definition add_pages (l : list Z) (x : hdom) : hdom := set_dom_pages (tot_pages x) (page_list x ++ l) x.

Lemma wp_get_hdom d x (Q : hdom -> hworld -> Prop) w : hdoms w !! d = Some x -> Q x w -> wp no_error (get_hdom d) Q w.
Proof. intros Hx HQ. unfold get_hdom. wp_step. wp_step. by eapply wp_of_option. Qed.

Lemma wp_mod_hdom d x f (Q : unit -> hworld -> Prop) w : hdoms w !! d = Some x -> Q tt (set_hdoms (<[d := f x]> (hdoms w)) w) -> wp no_error (mod_hdom d f) Q w.
Proof. intros Hx HQ. unfold mod_hdom. wp_step. eapply wp_get_hdom; [done|]. by wp_step. Qed.

Lemma seqZ_snoc m i : m <= i -> seqZ m (i + 1 - m) = seqZ m (i - m) ++ [i].
Proof. intros Hi. replace (i + 1 - m) with ((i - m) + 1) by lia. rewrite seqZ_app by lia. f_equal. replace (m + (i - m)) with i by lia. done. Qed.

Lemma assign_loop_spec d x pg n w :
  hdoms w !! d = Some x -> (forall i, pg <= i < pg + Z.of_nat n -> exists p, pages w !! i = Some p /\ v p = 0 /\ Z.ldiff (count_info p) (Z.lor PGC_allocated 1) = 0) ->
  wp no_error (for_ n pg (assign_page d)) (fun _ w' => changed (assigned d) pg (pg + Z.of_nat n) w w' /\
    w' = set_hdoms (<[d := add_pages (seqZ pg (Z.of_nat n)) x]> (hdoms w)) (set_pages (pages w') w)) w.
Proof.
  intros Hx Hp. apply (wp_for _ (fun i w' => pg <= i /\ changed (assigned d) pg i w w' /\ w' = set_hdoms (<[d := add_pages (seqZ pg (i - pg)) x]> (hdoms w)) (set_pages (pages w') w))).
  - split_and!; [lia|apply changed_refl|]. replace (pg - pg) with 0 by lia. assert (add_pages (seqZ pg 0) x = x) as -> by (unfold add_pages; simpl; rewrite app_nil_r; by destruct x).
    rewrite insert_id by done. by destruct w.
  - intros i w' Hi (Hge & Hc & Ew). destruct (Hp i Hi) as (p & Hpi & Hv & Hcnt). pose proof (changed_at _ _ _ _ _ Hc) as Hat. rewrite Hpi in Hat.
    unfold assign_page. wp_step. eapply wp_get_page; [done|]. unfold page_get_owner. rewrite Hv, Hcnt. wp_step. apply wp_assert; [done|]. wp_step. apply wp_assert; [done|].
    wp_step. eapply wp_mod_page; [done|]. eapply wp_mod_hdom; [simpl; rewrite Ew; simpl; by rewrite lookup_insert_eq|].
    split_and!; [lia|by eapply changed_step|]. rewrite Ew. simpl. rewrite insert_insert_eq, seqZ_snoc by done.
    unfold add_pages, set_dom_pages. simpl. by rewrite app_assoc.
  - intros w' (_ & Hc & Ew). split; [done|]. by replace (pg + Z.of_nat n - pg) with (Z.of_nat n) in Ew by lia.
Qed.

(** ** Requests *)

(** The domains have the pages they had. *)
Definition holdings (x : hdom) : list Z * Z * Z * bool := (page_list x, tot_pages x, max_pages x, hd_dying x).
Definition same_doms (w w' : hworld) : Prop := holdings <$> hdoms w' = holdings <$> hdoms w.

Lemma same_doms_lookup w w' e x : same_doms w w' -> hdoms w !! e = Some x -> exists x', hdoms w' !! e = Some x' /\ holdings x' = holdings x.
Proof.
  intros HS Hx. assert ((holdings <$> hdoms w') !! e = Some (holdings x)) as E by (rewrite HS, lookup_fmap, Hx; done).
  rewrite lookup_fmap in E. destruct (hdoms w' !! e) as [x'|]; [|done]. exists x'. split; [done|]. cbn in E. congruence.
Qed.

(** A block from the heap is nobody's. *)
Lemma allocated_dinv lo hi order pg d x w w' :
  dinv w -> hdoms w !! d = Some x -> 0 <= order -> allocated true lo hi order pg (Some d) w w' -> dinv w' /\ same_doms w w'.
Proof.
  intros [Hh Hd] Hx Ho A. pose proof (al_doms _ _ _ _ _ _ _ _ A) as Ed. cbn in Ed. pose proof Hh as [I _].
  assert (0 <= phys_to_nid pg < MAX_NUMNODES) as Hn.
  { destruct (al_block _ _ _ _ _ _ _ _ A pg ltac:(by apply in_block_self)) as (Hf & _). by apply (hi_nodes _ _ _ I), (hi_free _ _ _ I). }
  assert (forall e y m, hdoms w !! e = Some y -> m ∈ page_list y -> relabelled w w' m) as HR.
  { intros e y m Hy Hm. apply (al_rest _ _ _ _ _ _ _ _ A). intros Hb. destruct (al_block _ _ _ _ _ _ _ _ A m Hb) as (Hf & _).
    eapply owned_not_free; [by eapply do_pages; [apply Hd|]|done]. }
  split; [split; [apply A|]|].
  - intros e y. rewrite Ed. destruct (decide (e = d)) as [->|Hne]; [|rewrite lookup_alter_ne by done; intros Hy; eapply dom_ok_pages; [by apply Hd|by eauto|apply A]].
    rewrite lookup_alter_eq, Hx. intros [= <-]. destruct (dom_ok_pages w w' d x (Hd _ _ Hx) ltac:(eauto) ltac:(apply A)) as [D1 [D2 _] D3 D4 D5 D6 D7 D8].
    split; try done. split; [done|]. simpl. lia.
  - apply map_eq. intros e. rewrite Ed, !lookup_fmap. destruct (decide (e = d)) as [->|Hne]; [by rewrite lookup_alter_eq, Hx|by rewrite lookup_alter_ne].
Qed.

Lemma freed_dinv order pg w w' :
  dinv w -> freed order pg w w' -> (forall e x m, hdoms w !! e = Some x -> m ∈ page_list x -> ~ in_block pg order m) -> dinv w' /\ same_doms w w'.
Proof.
  intros [Hh Hd] F Hout. split; [split; [apply F|]|unfold same_doms; by rewrite (fr_doms _ _ _ _ F)].
  intros e x. rewrite (fr_doms _ _ _ _ F). intros Hx. eapply dom_ok_pages; [by apply Hd| |apply F]. intros m Hm. by eapply (fr_rest _ _ _ _ F), Hout.
Qed.

(** What was allocated can be given back. *)
Lemma allocated_releasable lo hi order pg d w w' :
  heap_ok true w -> 0 <= order <= MAX_ORDER -> allocated true lo hi order pg d w w' -> releasable w' pg order.
Proof.
  intros [I _] Ho A. assert (forall i, in_block pg order i -> exists p, pages w' !! i = Some (used p)) as HP.
  { intros i Hi. destruct (al_page _ _ _ _ _ _ _ _ A i Hi) as (p & _ & Hp). by exists p. }
  split; [done|apply A|by apply A| | |].
  - intros p Hp. destruct (HP pg ltac:(by apply in_block_self; lia)) as (q & Hq). assert (p = used q) as -> by congruence. done.
  - rewrite (al_nodes _ _ _ _ _ _ _ _ A). apply (hi_free _ _ _ I). apply (al_block _ _ _ _ _ _ _ _ A). apply in_block_self. lia.
  - intros i Hi. destruct (HP i Hi) as (q & Hq). destruct (al_block _ _ _ _ _ _ _ _ A i Hi) as (Hf & _ & Hn). split_and!; [by exists (used q)|by apply (hi_free _ _ _ I)|done].
Qed.

Lemma allocated_free_all al lo hi order pg d w w' : allocated al lo hi order pg d w w' -> free_all w' = free_all w ∖ block_set pg order.
Proof.
  intros A. apply set_eq. intros i. rewrite elem_of_difference, !elem_of_free_all, elem_of_block_set. destruct (decide (pg <= i < pg + 2 ^ order)) as [Hi|Hi].
  - split; [|unfold in_block; tauto]. destruct (al_page _ _ _ _ _ _ _ _ A i Hi) as (p & _ & Hp). intros (q & Hq & Hf). assert (q = used p) as -> by congruence. done.
  - rewrite (relabelled_free w w') by by apply (al_rest _ _ _ _ _ _ _ _ A). unfold in_block. tauto.
Qed.

(** The free pages are what they were when a block comes back. *)
Lemma alloc_free_same lo hi order pg d w w1 w2 :
  allocated true lo hi order pg d w w1 -> freed order pg w1 w2 -> free_all w2 = free_all w.
Proof.
  intros A F. apply set_eq. intros i. rewrite !elem_of_free_all. destruct (decide (pg <= i < pg + 2 ^ order)) as [Hi|Hi].
  - split; intros _; [by apply (al_block _ _ _ _ _ _ _ _ A)|]. destruct (fr_block _ _ _ _ F i Hi) as (p & x & _ & Hp). by exists (set_v x (released p)).
  - rewrite (relabelled_free w1 w2) by by apply (fr_rest _ _ _ _ F). apply relabelled_free. by apply (al_rest _ _ _ _ _ _ _ _ A).
Qed.

(** ** Pages in use that change *)

Definition busy_change (w w' : hworld) : Prop := forall i, pages w' !! i = pages w !! i \/ (~ is_free w i /\ ~ is_free w' i /\ is_Some (pages w' !! i)).

Lemma busy_free w w' i : busy_change w w' -> is_free w' i <-> is_free w i.
Proof. intros HB. destruct (HB i) as [E|(H1 & H2 & _)]; [unfold is_free; by rewrite E|tauto]. Qed.

Lemma busy_free_page w w' i : busy_change w w' -> is_free w i -> pages w' !! i = pages w !! i.
Proof. intros HB Hf. destruct (HB i) as [E|(H1 & _)]; done. Qed.

Lemma busy_heap_ok al w w' :
  heap_ok al w -> busy_change w w' -> heap w' = heap w -> heap_nodes w' = heap_nodes w -> avail w' = avail w -> total_avail_pages w' = total_avail_pages w -> heap_ok al w'.
Proof.
  intros [I [c1 c2]] HB Eh En Ea Et. assert (forall key, free_list key w' = free_list key w) as HL by (intros key; unfold free_list; by rewrite Eh).
  assert (forall n z k m, blk [] w' n z k m <-> blk [] w n z k m) as EB by (intros; unfold blk, listed; by rewrite HL).
  assert (free_all w' = free_all w) as EF by (apply set_eq; intros i; rewrite !elem_of_free_all; by apply busy_free).
  split; [|split; [intros n z; unfold avail_at; rewrite Ea, EF; apply c1|by rewrite Et, EF]]. split.
  - intros key. rewrite HL. apply I.
  - intros n z k m Hb. apply EB, (hi_block _ _ _ I) in Hb as (? & ? & ? & Hi). split_and!; [lia|lia|lia|done|]. intros i Hbi. rewrite (busy_free w w') by done. by apply Hi.
  - intros n z k m Hl. unfold listed in Hl. rewrite HL in Hl. destruct (hi_order _ _ _ I n z k m Hl) as (p & Hp & Hv). exists p. rewrite (busy_free_page w w'); [done|done|].
    destruct (hi_block _ _ _ I n z k m ltac:(by left)) as (? & _ & _ & Hi). apply Hi, in_block_self. lia.
  - intros n z k m n' z' k' m' i H1 H2. apply EB in H1, H2. exact (hi_disj _ _ _ I _ _ _ _ _ _ _ _ _ H1 H2).
  - intros n z k m Hin. by apply not_elem_of_nil in Hin.
  - intros i Hf. apply (busy_free w w') in Hf; [|done]. destruct (hi_cover _ _ _ I i Hf) as (n & z & k & m & Hb & ?). exists n, z, k, m. split; [by apply EB|done].
  - intros n z k m. unfold listed. rewrite !HL. apply I.
  - intros i p Hp Hf. destruct (HB i) as [E|(_ & Hn & _)]; [apply (hi_count _ _ _ I i); [congruence|done]|]. destruct Hn. by exists p.
  - intros i Hv. destruct (HB i) as [E|(_ & _ & ?)]; [rewrite E; by apply (hi_valid _ _ _ I)|done].
  - intros i Hf. rewrite En. apply (hi_free _ _ _ I). by apply (busy_free w w').
  - intros n. rewrite En. apply I.
Qed.

(** ** Assignment to a domain *)

(** The pages of the block are the last ones of the domain's list. *)
Record granted (d pg order : Z) (w w' : hworld) : Prop := Granted {
  gr_inv : dinv w';
  gr_dom x : hdoms w !! d = Some x -> exists x', hdoms w' !! d = Some x' /\ page_list x' = page_list x ++ seqZ pg (2 ^ order) /\ tot_pages x' = tot_pages x + 2 ^ order /\ max_pages x' = max_pages x;
  gr_others e : e <> d -> hdoms w' !! e = hdoms w !! e;
  gr_pages i : in_block pg order i -> owned w' d i;
  gr_page i p : in_block pg order i -> pages w !! i = Some p -> pages w' !! i = Some (assigned d p);
  gr_keep i : ~ in_block pg order i -> pages w' !! i = pages w !! i;
  gr_free : free_all w' = free_all w;
  gr_nodes : heap_nodes w' = heap_nodes w;
  gr_events e : e ∈ events w -> e ∈ events w'
}.

Lemma granted_intro d x pg order w w2 :
  let x' := add_pages (seqZ pg (2 ^ order)) (set_dom_pages (tot_pages x + 2 ^ order) (page_list x) x) in
  dinv w -> hdoms w !! d = Some x -> releasable w pg order -> (forall i, in_block pg order i -> exists p, pages w !! i = Some (used p)) -> tot_pages x + 2 ^ order <= max_pages x ->
  (forall i, pages w2 !! i = if decide (pg <= i < pg + 2 ^ order) then assigned d <$> pages w !! i else pages w !! i) -> hdoms w2 = <[d := x']> (hdoms w) ->
  heap w2 = heap w -> heap_nodes w2 = heap_nodes w -> avail w2 = avail w -> total_avail_pages w2 = total_avail_pages w -> (forall e, e ∈ events w -> e ∈ events w2) -> granted d pg order w w2.
Proof.
  intros x' HI Hx Hrel Hnew Hle P2 Ed Eh En Ea Et Hev. pose proof (di_dom _ HI d x Hx) as D. pose proof (rl_order _ _ _ Hrel) as Ho. assert (0 < 2 ^ order) by (apply Z.pow_pos_nonneg; lia). pose proof (do_tot _ _ _ D).
  assert (forall i, in_block pg order i -> exists p, pages w !! i = Some (used p) /\ pages w2 !! i = Some (assigned d (used p))) as HP.
  { intros i Hi. destruct (Hnew i Hi) as (p & Hp). exists p. by rewrite P2, decide_True, Hp. }
  assert (busy_change w w2) as HB.
  { intros i. destruct (decide (pg <= i < pg + 2 ^ order)) as [Hi|Hi]; [right|left; by rewrite P2, decide_False]. destruct (HP i Hi) as (p & Hp & Hp').
    split_and!; [intros (q & Hq & Hf); assert (q = used p) as -> by congruence; done|intros (q & Hq & Hf); assert (q = assigned d (used p)) as -> by congruence; done|by rewrite Hp']. }
  assert (forall i, in_block pg order i -> owned w2 d i) as Hown.
  { intros i Hi. destruct (HP i Hi) as (p & _ & Hp'). destruct (rl_pages _ _ _ Hrel i Hi) as (_ & Hv & Hn). pose proof (rl_pos _ _ _ Hrel). split; [|unfold in_block in Hi; lia|done|].
    - exists (assigned d (used p)). done.
    - rewrite Hn, En. apply Hrel. }
  assert (forall e y m, hdoms w !! e = Some y -> m ∈ page_list y -> ~ in_block pg order m /\ owned w2 e m) as Hkeep.
  { intros e y m Hy Hm. pose proof (do_pages _ _ _ (di_dom _ HI e y Hy) m Hm) as Hom. assert (~ in_block pg order m) as Hnb.
    { intros Hi. destruct (HP m Hi) as (p & Hp & _). destruct Hom as [(q & Hq & Hv & _) _ _ _]. pose proof (proj1 (do_id _ _ _ (di_dom _ HI e y Hy))). assert (q = used p) as -> by congruence. simpl in Hv. lia. }
    split; [done|]. eapply owned_relabelled; [exact Hom|left; by rewrite P2, decide_False|done]. }
  split.
  - split; [apply (busy_heap_ok true w); [apply HI|exact HB|done..]|]. intros e y. rewrite Ed. destruct (decide (e = d)) as [->|Hne].
    + rewrite lookup_insert_eq. intros [= <-]. destruct D as [D1 D2 D3 D4 D5 D6 D7 D8]. split; try done; simpl.
      * apply NoDup_app. split_and!; [done| |apply NoDup_seqZ]. intros m Hm Hm'%elem_of_seqZ. destruct (Hkeep d x m Hx Hm) as [Hn _]. by apply Hn.
      * rewrite length_app, length_seqZ. lia.
      * intros m [Hm|Hm%elem_of_seqZ]%elem_of_app; [by apply (Hkeep d x m)|by apply Hown].
    + rewrite lookup_insert_ne by done. intros Hy. destruct (di_dom _ HI e y Hy) as [D1 D2 D3 D4 D5 D6 D7 D8]. split; try done. intros m Hm. by apply (Hkeep e y m).
  - intros y Hy. assert (y = x) as -> by congruence. exists x'. rewrite Ed, lookup_insert_eq. done.
  - intros e Hne. by rewrite Ed, lookup_insert_ne.
  - done.
  - intros i p Hi Hp. by rewrite P2, decide_True, Hp.
  - intros i Hi. by rewrite P2, decide_False.
  - apply set_eq. intros i. rewrite !elem_of_free_all. by apply busy_free.
  - done.
  - done.
Qed.

Lemma assign_pages_spec d x pg order memflags w :
  dinv w -> hdoms w !! d = Some x -> releasable w pg order -> (forall i, in_block pg order i -> exists p, pages w !! i = Some (used p)) -> has_flag memflags MEMF_no_refcount = false ->
  wp no_error (assign_pages d pg order memflags) (fun b w' => if b : bool then hd_dying x = false /\ granted d pg order w w' else w' = w /\ (hd_dying x = true \/ max_pages x < tot_pages x + 2 ^ order)) w.
Proof.
  intros HI Hx Hrel Hnew Hcount. pose proof (di_dom _ HI d x Hx) as D. pose proof (rl_order _ _ _ Hrel) as Ho.
  assert (0 < 2 ^ order <= 2 ^ MAX_ORDER) as Hpow by (split; [apply Z.pow_pos_nonneg; lia|apply Z.pow_le_mono_r; lia]).
  pose proof (do_tot _ _ _ D). pose proof (do_max _ _ _ D). pose proof (do_width _ _ _ D).
  unfold assign_pages. wp_step. eapply wp_get_hdom; [done|]. destruct (hd_dying x) eqn:Hdy; [wp_step; split; [done|by left]|].
  rewrite Hcount. cbn [negb andb]. rewrite shift_pow by lia. assert (u32 (tot_pages x + 2 ^ order) = tot_pages x + 2 ^ order) as Eu.
  { unfold u32. apply Z.mod_small. change 4294967296 with (2 ^ 32). lia. }
  rewrite Eu. destruct (Z.ltb_spec (max_pages x) (tot_pages x + 2 ^ order)); [wp_step; split; [done|by right]|]. wp_step. unfold when at 1. wp_step.
  assert (forall w1, (forall e, e ∈ events w -> e ∈ events w1) -> w1 = set_events (events w1) w ->
    wp no_error (mod_hdom d (fun x => set_dom_pages (u32 (tot_pages x + 2 ^ order)) (page_list x) x))
      (fun _ w' => wp no_error (for_ (Z.to_nat (2 ^ order)) pg (assign_page d) ;;; ret true) (fun b w' => if b : bool then false = false /\ granted d pg order w w' else w' = w /\ (false = true \/ max_pages x < tot_pages x + 2 ^ order)) w') w1) as Hgo.
  2:{ apply wp_when; intros _; [unfold event; wp_step|]; apply Hgo; try done; [intros e He; simpl; apply elem_of_app; by left|by destruct w]. }
  intros w1 Hev E1. assert (hdoms w1 !! d = Some x) as Hx1 by by rewrite E1. eapply wp_mod_hdom; [done|]. rewrite Eu. wp_step.
  eapply wp_mono; [eapply assign_loop_spec; [simpl; by rewrite lookup_insert_eq|]|].
  { intros i Hi. destruct (Hnew i) as (p & Hp); [unfold in_block; lia|]. exists (used p). simpl. rewrite E1. done. }
  intros [] w2 [Hc E2]. wp_step. split; [done|]. replace (Z.of_nat (Z.to_nat (2 ^ order))) with (2 ^ order) in * by lia.
  assert (forall i, pages w2 !! i = if decide (pg <= i < pg + 2 ^ order) then assigned d <$> pages w !! i else pages w !! i) as P2.
  { intros i. rewrite (Hc i). simpl. rewrite E1. done. }
  apply (granted_intro d x pg order w w2); try done; [rewrite E2; simpl; rewrite insert_insert_eq; by rewrite E1|by rewrite E2; simpl; rewrite E1..|]. intros e He. rewrite E2. simpl. by apply Hev.
Qed.

(** ** Requests of a domain *)

(** The highest zone a request may take pages of. *)
Definition zone_limit (d : option Z) (memflags : Z) : Z :=
  Z.min (bits_to_zone (domain_clamp_alloc_bitsize d (if Z.shiftr memflags 24 =? 0 then 64 + PAGE_SHIFT else Z.shiftr memflags 24))) (NR_ZONES - 1).

Lemma zone_limit_range d memflags : 0 <= zone_limit d memflags < NR_ZONES.
Proof. unfold zone_limit, bits_to_zone, NR_ZONES. case_match; lia. Qed.

(** The zones above those for DMA first, then all of them. *)
Lemma zone_stages d hi order memflags w (Q : option Z -> hworld -> Prop) :
  machine_ok -> heap_ok true w -> node_flag_ok memflags -> caller_ok w d -> 0 <= order -> 1 <= hi < NR_ZONES ->
  (forall pg w' lo, 1 <= lo -> order <= MAX_ORDER -> allocated true lo hi order pg d w w' -> Q (Some pg) w') ->
  ((order <= MAX_ORDER -> exact_node memflags = false -> has_flag memflags MEMF_no_dma = false -> forall n z, n ∈ node_online_map -> 1 <= z <= hi -> no_block w n z order) -> Q None w) ->
  wp no_error (if negb (dma_bitsize =? 0) && (bits_to_zone dma_bitsize <? hi) then alloc_heap_pages (bits_to_zone dma_bitsize + 1) hi order memflags d else ret None)
    (fun pg w' => wp no_error (match pg with Some pg => ret (Some pg) | None => if has_flag memflags MEMF_no_dma then ret None else alloc_heap_pages (MEMZONE_XEN + 1) hi order memflags d end) Q w') w.
Proof.
  intros HM HO Hn Hc Ho Hhi HS HN. assert (0 <= bits_to_zone dma_bitsize) as Hz by (unfold bits_to_zone; case_match; lia).
  assert (wp no_error (if has_flag memflags MEMF_no_dma then ret None else alloc_heap_pages (MEMZONE_XEN + 1) hi order memflags d) Q w) as Hsecond.
  { destruct (has_flag memflags MEMF_no_dma) eqn:Hf; [wp_step; by apply HN|]. eapply wp_mono; [apply (alloc_heap_spec true); try done; unfold MEMZONE_XEN; lia|].
    intros [pg|] w' Hr; [destruct Hr as [Hm A]; by eapply (HS _ _ 1)|]. destruct Hr as [-> Hr]. apply HN. intros Hm He _. by apply Hr. }
  destruct (negb (dma_bitsize =? 0)) eqn:Hd; cbn [andb]; [|by wp_step]. destruct (Z.ltb_spec (bits_to_zone dma_bitsize) hi) as [Hlt|_]; [|by wp_step].
  eapply wp_mono; [apply (alloc_heap_spec true); try done; lia|]. intros [pg|] w' Hr; [wp_step; destruct Hr as [Hm A]; eapply (HS _ _ _ _ Hm A)|].
  destruct Hr as [-> _]. done.
  Unshelve. lia.
Qed.

(** What a domain gets: an aligned block of free pages, all of one node, that no domain had. *)
Record domheap_block (d order pg hi : Z) (w w' : hworld) : Prop := DomBlock {
  db_order : order <= MAX_ORDER;
  db_aligned : aligned pg order;
  db_free i : in_block pg order i -> is_free w i /\ 1 <= Z.log2 i <= hi /\ phys_to_nid i = phys_to_nid pg;
  db_owned i : in_block pg order i -> owned w' d i;
  db_page i : in_block pg order i -> exists p, pages w' !! i = Some (assigned d (used p));
  db_keep i : ~ is_free w i -> pages w' !! i = pages w !! i;
  db_dom x : hdoms w !! d = Some x -> hd_dying x = false /\ exists x', hdoms w' !! d = Some x' /\ page_list x' = page_list x ++ seqZ pg (2 ^ order) /\ tot_pages x' = tot_pages x + 2 ^ order /\ max_pages x' = max_pages x;
  db_others e : e <> d -> hdoms w' !! e = hdoms w !! e;
  db_rest : free_all w' = free_all w ∖ block_set pg order;
  db_flush i p c : in_block pg order i -> pages w !! i = Some p -> need_tlbflush p = true -> c ∈ cpu_online_map -> NEED_FLUSH c (tlbflush_timestamp p) = true ->
    exists mask, FlushTlb mask ∈ events w' /\ c ∈ mask
}.

Definition domheap_post (d order memflags : Z) (w : hworld) (r : option Z) (w' : hworld) : Prop :=
  dinv w' /\ heap_nodes w' = heap_nodes w /\
  match r with
  | Some pg => domheap_block d order pg (zone_limit (Some d) memflags) w w'
  | None => free_all w' = free_all w /\ same_doms w w' /\ (forall i, ~ is_free w i -> pages w' !! i = pages w !! i) /\
      forall x, hdoms w !! d = Some x -> hd_dying x = false -> tot_pages x + 2 ^ order <= max_pages x -> order <= MAX_ORDER -> exact_node memflags = false -> has_flag memflags MEMF_no_dma = false ->
        forall n z, n ∈ node_online_map -> 1 <= z <= zone_limit (Some d) memflags -> no_block w n z order
  end.

Lemma alloc_domheap_spec d x order memflags w :
  machine_ok -> dinv w -> hdoms w !! d = Some x -> node_flag_ok memflags -> has_flag memflags MEMF_no_refcount = false -> 0 <= order ->
  wp no_error (alloc_domheap_pages (Some d) order memflags) (domheap_post d order memflags w) w.
Proof.
  intros HM HI Hx Hn Hr Ho. pose proof (di_heap _ HI) as Hh. pose proof (zone_limit_range (Some d) memflags) as Hzl.
  unfold alloc_domheap_pages. fold (zone_limit (Some d) memflags). set (hi := zone_limit (Some d) memflags) in *.
  destruct (Z.eqb_spec hi 0) as [Hz|Hz]; [wp_step; split_and!; try done; intros; unfold hi in Hz; lia|].
  wp_step. eapply wp_mono; [|intros r w' Hq; wp_step; exact Hq]. eapply zone_stages; try done; [exists x; split; [done|]; exact (do_nodes _ _ _ (di_dom _ HI d x Hx))|lia|].
  intros pg w1 lo Hlo Hm A. destruct (allocated_dinv lo hi order pg d x w w1 HI Hx Ho A) as [HI1 SD].
  pose proof (allocated_releasable lo hi order pg (Some d) w w1 Hh ltac:(lia) A) as HR.
  destruct (same_doms_lookup w w1 d x SD Hx) as (x1 & Hx1 & Eh). injection Eh as El Et Em Ey.
  wp_step. eapply wp_mono; [eapply (assign_pages_spec d x1); try done; intros i Hi; destruct (al_page _ _ _ _ _ _ _ _ A i Hi) as (p & _ & ?); by exists p|].
  intros [|] w2 Hres; [destruct Hres as [Hdy G]|destruct Hres as [-> Hwhy]].
  - wp_step. split_and!; [apply G|by rewrite (gr_nodes _ _ _ _ _ G); apply A|]. split; [done|by apply A|..].
    + intros i Hi. destruct (al_block _ _ _ _ _ _ _ _ A i Hi) as (? & ? & ?). split_and!; [done|lia|lia|done].
    + apply G.
    + intros i Hi. destruct (al_page _ _ _ _ _ _ _ _ A i Hi) as (p & _ & Hp). exists p. by apply (gr_page _ _ _ _ _ G).
    + intros i Hf. assert (~ in_block pg order i) as Hi by (intros Hi; by apply Hf, (al_block _ _ _ _ _ _ _ _ A)). rewrite (gr_keep _ _ _ _ _ G) by done. destruct (al_rest _ _ _ _ _ _ _ _ A i Hi) as [E|(Hf' & _)]; done.
    + intros y Hy. assert (y = x) as -> by congruence. split; [congruence|]. rewrite <- El, <- Et, <- Em. by apply (gr_dom _ _ _ _ _ G).
    + intros e Hne. rewrite (gr_others _ _ _ _ _ G) by done. rewrite (al_doms _ _ _ _ _ _ _ _ A). by rewrite lookup_alter_ne.
    + rewrite (gr_free _ _ _ _ _ G). by eapply allocated_free_all.
    + intros i p c Hi Hp Hf Hc Hne. destruct (al_flush _ _ _ _ _ _ _ _ A i p c Hi Hp Hf Hc Hne) as (mask & Hmask & ?). exists mask. split; [by apply (gr_events _ _ _ _ _ G)|done].
  - wp_step. eapply wp_mono; [apply free_heap_spec; [done|apply HI1|done]|]. intros [] w3 F. wp_step.
    destruct (freed_dinv order pg w1 w3 HI1 F) as [HI3 SD3].
    { intros e y m Hy Hmy Hb. destruct (al_page _ _ _ _ _ _ _ _ A m Hb) as (p & _ & Hp). pose proof (di_dom _ HI1 e y Hy) as D. destruct (do_pages _ _ _ D m Hmy) as [(q & Hq & Hv & _) _ _ _].
      pose proof (proj1 (do_id _ _ _ D)). assert (q = used p) as -> by congruence. simpl in Hv. lia. }
    split_and!; [done|by rewrite (fr_nodes _ _ _ _ F); apply A|by eapply alloc_free_same|by unfold same_doms in *; congruence| |].
    { intros i Hf. assert (~ in_block pg order i) as Hi by (intros Hi; by apply Hf, (al_block _ _ _ _ _ _ _ _ A)).
      destruct (al_rest _ _ _ _ _ _ _ _ A i Hi) as [E1|(Hf' & _)]; [|done]. destruct (fr_rest _ _ _ _ F i Hi) as [E3|(Hf' & _)]; [congruence|]. exfalso. apply Hf. unfold is_free. by rewrite <- E1. }
    intros y Hy Hd1 Hmax. assert (y = x) as -> by congruence. exfalso. destruct Hwhy; [congruence|lia].
Qed.

(** ** Pages given back *)

Definition outside (lo hi : Z) (l : list Z) : list Z := filter (fun y => ~ (lo <= y < hi)) l.

Lemma outside_length lo n l : NoDup l -> 0 <= n -> (forall i, lo <= i < lo + n -> i ∈ l) -> Z.of_nat (length (outside lo (lo + n) l)) = Z.of_nat (length l) - n.
Proof.
  intros Hnd Hn Hin. pose proof (Permutation_length (filter_app_complement (fun y => lo <= y < lo + n) l)) as E. rewrite length_app in E.
  assert (filter (fun y => lo <= y < lo + n) l ≡ₚ seqZ lo n) as EP.
  { apply NoDup_Permutation; [by apply NoDup_filter|apply NoDup_seqZ|]. intros i. rewrite list_elem_of_filter, elem_of_seqZ. naive_solver. }
  apply Permutation_length in EP. rewrite length_seqZ in EP. unfold outside. lia.
Qed.

Lemma outside_step pg i l : pg <= i -> filter (fun y => y <> i) (outside pg i l) = outside pg (i + 1) l.
Proof. intros Hi. unfold outside. rewrite list_filter_filter. apply list_filter_iff. intros y. lia. Qed.

Lemma outside_nil pg l : outside pg pg l = l.
Proof. unfold outside. induction l as [|y l IH]; [done|]. rewrite filter_cons_True by lia. by rewrite IH. Qed.

Lemma del_pages_spec d x pg n w :
  hdoms w !! d = Some x -> (forall i, pg <= i < pg + Z.of_nat n -> i ∈ page_list x /\ exists p, pages w !! i = Some p /\ has_flag (type_info p) PGT_count_mask = false) ->
  wp no_error (for_ n pg (fun m => let! p := get_page m in (if has_flag (type_info p) PGT_count_mask then fail Abort else ret tt) ;;; del_page d m))
    (fun _ w' => w' = set_hdoms (<[d := set_dom_pages (tot_pages x) (outside pg (pg + Z.of_nat n) (page_list x)) x]> (hdoms w)) w) w.
Proof.
  intros Hx Hp. apply (wp_for _ (fun i w' => pg <= i /\ w' = set_hdoms (<[d := set_dom_pages (tot_pages x) (outside pg i (page_list x)) x]> (hdoms w)) w)).
  - split; [done|]. rewrite outside_nil. assert (set_dom_pages (tot_pages x) (page_list x) x = x) as -> by by destruct x. rewrite insert_id by done. by destruct w.
  - intros i w' Hi (Hge & ->). destruct (Hp i Hi) as (Hin & p & Hpi & Ht). wp_step. eapply wp_get_page; [done|]. rewrite Ht. wp_step. wp_step. unfold del_page. wp_step.
    eapply wp_get_hdom; [simpl; by rewrite lookup_insert_eq|]. rewrite bool_decide_true by (simpl; apply list_elem_of_filter; split; [lia|done]).
    eapply wp_mod_hdom; [simpl; by rewrite lookup_insert_eq|]. split; [lia|]. simpl. rewrite insert_insert_eq. by rewrite outside_step.
  - intros w' (_ & ->). done.
Qed.

Lemma scrub_pages_spec pg n w :
  wp no_error (for_ n pg (fun m => event (Scrub m)))
    (fun _ w' => w' = set_events (events w') w /\ (forall e, e ∈ events w -> e ∈ events w') /\ forall m, pg <= m < pg + Z.of_nat n -> Scrub m ∈ events w') w.
Proof.
  apply (wp_for _ (fun i w' => pg <= i /\ w' = set_events (events w') w /\ (forall e, e ∈ events w -> e ∈ events w') /\ forall m, pg <= m < i -> Scrub m ∈ events w')).
  - split_and!; [done|by destruct w|done|intros; lia].
  - intros i w' Hi (Hge & E & Hk & Hs). unfold event. wp_step. split_and!; [lia|rewrite E; simpl; done|intros e He; simpl; apply elem_of_app; left; auto|].
    intros m Hm. simpl. apply elem_of_app. destruct (decide (m = i)) as [->|]; [right; by apply list_elem_of_singleton|left; apply Hs; lia].
  - intros w' (_ & E & Hk & Hs). done.
Qed.

(** An aligned block of pages of the domain, of one node, that no page table uses. *)
Record returnable (w : hworld) (x : hdom) (pg order : Z) : Prop := Returnable {
  rt_order : 0 <= order <= MAX_ORDER;
  rt_aligned : aligned pg order;
  rt_pages i : in_block pg order i -> i ∈ page_list x /\ phys_to_nid i = phys_to_nid pg /\ exists p, pages w !! i = Some p /\ has_flag (type_info p) PGT_count_mask = false
}.

Record returned (d : Z) (x : hdom) (pg order : Z) (w w' : hworld) : Prop := Returned {
  re_inv : dinv w';
  re_dom : exists x', hdoms w' !! d = Some x' /\ page_list x' = outside pg (pg + 2 ^ order) (page_list x) /\ tot_pages x' = tot_pages x - 2 ^ order /\ max_pages x' = max_pages x;
  re_others e : e <> d -> hdoms w' !! e = hdoms w !! e;
  re_free : free_all w' = free_all w ∪ block_set pg order;
  re_nodes : heap_nodes w' = heap_nodes w;
  re_keep i : ~ in_block pg order i -> ~ is_free w i -> pages w' !! i = pages w !! i;
  (** The pages of a dying domain are erased. *)
  re_scrub i : hd_dying x = true -> in_block pg order i -> Scrub i ∈ events w';
  (** The reference its pages held is dropped with the last one. *)
  re_put : tot_pages x = 2 ^ order -> PutDom d ∈ events w'
}.

Lemma freed_free_all order pg w w' : freed order pg w w' -> free_all w' = free_all w ∪ block_set pg order.
Proof.
  intros F. apply set_eq. intros i. rewrite elem_of_union, !elem_of_free_all, elem_of_block_set. destruct (decide (pg <= i < pg + 2 ^ order)) as [Hi|Hi].
  - split; [by right|]. intros _. destruct (fr_block _ _ _ _ F i Hi) as (p & x & _ & Hp). by exists (set_v x (released p)).
  - rewrite (relabelled_free w w') by by apply (fr_rest _ _ _ _ F). unfold in_block. tauto.
Qed.

Lemma dinv_events ev w : dinv w -> dinv (set_events ev w).
Proof.
  intros [[I [c1 c2]] HD]. split; [split; [by apply (hinv_ext true [] w)|split; [exact c1|exact c2]]|].
  intros e y Hy. destruct (HD e y Hy) as [? ? ? ? ? ? ? D8]. split; try done. intros m Hm. destruct (D8 m Hm). by split.
Qed.

(** A domain with some of its pages taken off its list. *)
Lemma outside_dinv d x pg order w w' :
  dinv w -> hdoms w !! d = Some x -> returnable w x pg order -> pages w' = pages w -> heap w' = heap w -> heap_nodes w' = heap_nodes w -> avail w' = avail w -> total_avail_pages w' = total_avail_pages w ->
  hdoms w' = <[d := set_dom_pages (tot_pages x - 2 ^ order) (outside pg (pg + 2 ^ order) (page_list x)) x]> (hdoms w) ->
  dinv w' /\ forall e y m, hdoms w' !! e = Some y -> m ∈ page_list y -> ~ in_block pg order m.
Proof.
  intros HI Hx HR Ep Eh En Ea Et Ed. pose proof (di_dom _ HI d x Hx) as D. pose proof (rt_order _ _ _ _ HR) as Ho. pose proof (Z.pow_pos_nonneg 2 order ltac:(lia) ltac:(lia)) as Hpos.
  assert (forall e m, owned w e m -> owned w' e m) as Hown by (intros e m [O1 O2 O3 O4]; split; [by rewrite Ep|done|done|by rewrite En]).
  split; [split; [apply (busy_heap_ok true w); [apply HI|by intros i; left; rewrite Ep|done..]|]|].
  - intros e y. rewrite Ed. destruct (decide (e = d)) as [->|Hne].
    + rewrite lookup_insert_eq. intros [= <-]. destruct D as [D1 D2 D3 D4 D5 D6 D7 D8]. split; try done; simpl.
      * by apply NoDup_filter.
      * rewrite outside_length; [lia|done|lia|]. intros i Hi. by apply (rt_pages _ _ _ _ HR).
      * lia.
      * intros m [_ Hm]%list_elem_of_filter. auto.
    + rewrite lookup_insert_ne by done. intros Hy. destruct (di_dom _ HI e y Hy) as [D1 D2 D3 D4 D5 D6 D7 D8]. split; auto.
  - intros e y m. rewrite Ed. destruct (decide (e = d)) as [->|Hne].
    + rewrite lookup_insert_eq. intros [= <-] [Hm _]%list_elem_of_filter. done.
    + rewrite lookup_insert_ne by done. intros Hy Hm Hb. destruct (rt_pages _ _ _ _ HR m Hb) as (Hin & _).
      destruct (do_pages _ _ _ D m Hin) as [(p & Hp & Hv & _) _ _ _]. destruct (do_pages _ _ _ (di_dom _ HI e y Hy) m Hm) as [(q & Hq & Hv' & _) _ _ _]. congruence.
Qed.

Lemma free_domheap_spec d x pg order w :
  machine_ok -> dinv w -> hdoms w !! d = Some x -> returnable w x pg order -> wp no_error (free_domheap_pages pg order) (fun _ w' => returned d x pg order w w') w.
Proof.
  intros HM HI Hx HR. pose proof (di_dom _ HI d x Hx) as D. pose proof (rt_order _ _ _ _ HR) as Ho. pose proof (Z.pow_pos_nonneg 2 order ltac:(lia) ltac:(lia)) as Hpos.
  assert (in_block pg order pg) as Hself by (apply in_block_self; lia). destruct (rt_pages _ _ _ _ HR pg Hself) as (Hin & _ & p & Hp & _).
  pose proof (do_pages _ _ _ D pg Hin) as [(q & Hq & Hv & Hu & Hxh) Hm _ Hnode]. assert (q = p) as -> by congruence. destruct (do_id _ _ _ D) as [Hd0 Hcow].
  unfold free_domheap_pages. wp_step. eapply wp_get_page; [done|]. rewrite Hxh. assert (page_get_owner p = Some d) as -> by (unfold page_get_owner; rewrite Hv; destruct (Z.eqb_spec d 0); [lia|done]).
  destruct (Z.eqb_spec d dom_cow); [done|]. rewrite !shift_pow by lia. wp_step.
  eapply wp_mono; [eapply del_pages_spec; [done|]|]. { intros i Hi. destruct (rt_pages _ _ _ _ HR i ltac:(unfold in_block; lia)) as (? & _ & ?). done. }
  intros [] w1 ->. replace (Z.of_nat (Z.to_nat (2 ^ order))) with (2 ^ order) by lia. wp_step. eapply wp_mod_hdom; [simpl; by rewrite lookup_insert_eq|].
  assert (u32 (tot_pages x - 2 ^ order) = tot_pages x - 2 ^ order) as Eu.
  { destruct D as [_ _ D3 _ D5 D6 D7 _]. assert (Z.of_nat (length (outside pg (pg + 2 ^ order) (page_list x))) = Z.of_nat (length (page_list x)) - 2 ^ order) as EL.
    { apply outside_length; [done|lia|]. intros i Hi. by apply (rt_pages _ _ _ _ HR). }
    assert (0 < 2 ^ MAX_ORDER) by done. unfold u32. apply Z.mod_small. change 4294967296 with (2 ^ 32). lia. }
  cbn [set_hdoms hdoms set_dom_pages tot_pages]. rewrite Eu, insert_insert_eq. set (x' := set_dom_pages _ _ _).
  assert (x' = set_dom_pages (tot_pages x - 2 ^ order) (outside pg (pg + 2 ^ order) (page_list x)) x) as Ex by done.
  wp_step. eapply wp_get_hdom; [simpl; by rewrite lookup_insert_eq|]. set (w1 := set_hdoms _ _). wp_step.
  assert (forall w2, w2 = set_events (events w2) w1 -> (hd_dying x = true -> forall i, in_block pg order i -> Scrub i ∈ events w2) ->
    wp no_error (free_heap_pages pg order ;;; when (tot_pages x' =? 0) (event (PutDom d))) (fun _ w' => returned d x pg order w w') w2) as Hgo.
  2:{ apply wp_when; intros Hdy; [|apply Hgo; [done|]; rewrite Ex in Hdy; simpl in Hdy; congruence]. eapply wp_mono; [apply scrub_pages_spec|]. intros [] w2 (E2 & _ & Hs). apply Hgo; [done|].
      intros _ i Hi. apply Hs. unfold in_block in Hi. lia. }
  intros w2 E2 Hscrub. destruct (outside_dinv d x pg order w w2 HI Hx HR) as [HI2 Hout]; [by rewrite E2..|]. wp_step.
  eapply wp_mono; [apply free_heap_spec; [done|apply HI2|]|].
  { split; [done|done|apply HR| | |].
    - intros q. rewrite E2. simpl. intros Hq'. assert (q = p) as -> by congruence. done.
    - by rewrite E2.
    - intros i Hi. destruct (rt_pages _ _ _ _ HR i Hi) as (Hini & Hni & _). destruct (do_pages _ _ _ D i Hini) as [(q & Hqi & _ & Hui & _) _ Hvi _]. split_and!; [exists q; by rewrite E2|done|done]. }
  intros [] w3 F. destruct (freed_dinv order pg w2 w3 HI2 F Hout) as [HI3 _].
  assert (forall w4 ev, w4 = set_events ev w3 -> (forall e, e ∈ events w3 -> e ∈ ev) -> (tot_pages x = 2 ^ order -> PutDom d ∈ ev) -> returned d x pg order w w4) as Hend.
  { intros w4 ev -> Hev Hput. split; simpl.
    - by apply dinv_events.
    - exists x'. rewrite (fr_doms _ _ _ _ F), E2. simpl. by rewrite lookup_insert_eq.
    - intros e Hne. rewrite (fr_doms _ _ _ _ F), E2. simpl. by rewrite lookup_insert_ne.
    - change (free_all (set_events ev w3)) with (free_all w3). rewrite (freed_free_all _ _ _ _ F), E2. done.
    - rewrite (fr_nodes _ _ _ _ F), E2. done.
    - intros i Hi Hf. destruct (fr_rest _ _ _ _ F i Hi) as [E|(Hf' & _)]; [by rewrite E, E2|]. exfalso. apply Hf. rewrite E2 in Hf'. exact Hf'.
    - intros i Hdy Hi. apply Hev. rewrite (fr_events _ _ _ _ F). by apply Hscrub.
    - done. }
  apply wp_when; intros Ht; [unfold event; wp_step; eapply Hend; [done| |]; intros; apply elem_of_app; [by left|right; by apply list_elem_of_singleton]|].
  apply (Hend w3 (events w3)); [by destruct w3|done|]. rewrite Ex in Ht. simpl in Ht. intros. exfalso. apply Z.eqb_neq in Ht. lia.
Qed.

(** ** The hypervisor's own pages *)

Definition xen_flag (p : page_info) : page_info := set_count_info (Z.lor (count_info p) PGC_xen_heap) p.

Lemma flag_pages_spec (f : page_info -> page_info) pg n w :
  (forall i, pg <= i < pg + Z.of_nat n -> is_Some (pages w !! i)) ->
  wp no_error (for_ n pg (fun m => mod_page m f)) (fun _ w' => changed f pg (pg + Z.of_nat n) w w' /\ w' = set_pages (pages w') w) w.
Proof.
  intros Hp. apply (wp_for _ (fun i w' => pg <= i /\ changed f pg i w w' /\ w' = set_pages (pages w') w)).
  - split_and!; [done|apply changed_refl|by destruct w].
  - intros i w' Hi (Hge & Hc & E). destruct (Hp i Hi) as [p Hpi]. pose proof (changed_at _ _ _ _ _ Hc) as Hat. rewrite Hpi in Hat. eapply wp_mod_page; [done|].
    split_and!; [lia|by eapply changed_step|rewrite E; by destruct w].
  - intros w' (_ & Hc & E). done.
Qed.

(** The block is in use and marked; it belongs to no domain. *)
Record xen_block (order pg : Z) (w w' : hworld) : Prop := XenBlock {
  xb_ok : heap_ok true w';
  xb_aligned : aligned pg order;
  xb_free i : in_block pg order i -> is_free w i;
  xb_page i : in_block pg order i -> exists p, pages w' !! i = Some (xen_flag (used p));
  xb_rest i : ~ in_block pg order i -> relabelled w w' i;
  xb_nodes : heap_nodes w' = heap_nodes w;
  xb_doms : hdoms w' = hdoms w
}.

Lemma alloc_xenheap_spec order memflags w :
  machine_ok -> heap_ok true w -> node_flag_ok memflags -> 0 <= order ->
  wp no_error (alloc_xenheap_pages order memflags) (fun r w' => match r with Some pg => order <= MAX_ORDER /\ xen_block order pg w w' | None => w' = w end) w.
Proof.
  intros HM HO Hn Ho. pose proof (zone_limit_range None memflags) as Hzl. unfold alloc_xenheap_pages, alloc_domheap_pages. fold (zone_limit None memflags). set (hi := zone_limit None memflags) in *. wp_step.
  destruct (Z.eqb_spec hi 0) as [Hz|Hz]; [wp_step; by wp_step|]. wp_step. eapply wp_mono; [|intros r w' Hq; wp_step; exact Hq].
  apply zone_stages; try done; [lia|]. intros pg w1 lo Hlo Hm A. wp_step. wp_step. rewrite shift_pow by lia.
  assert (Z.of_nat (Z.to_nat (2 ^ order)) = 2 ^ order) as En by (pose proof (Z.pow_pos_nonneg 2 order); lia).
  eapply wp_mono; [apply flag_pages_spec|]. { intros i Hi. rewrite En in Hi. destruct (al_page _ _ _ _ _ _ _ _ A i Hi) as (p & _ & ->). done. }
  rewrite En. intros [] w2 [Hc E2]. wp_step. split; [done|].
  assert (forall i, in_block pg order i -> exists p, pages w1 !! i = Some (used p) /\ pages w2 !! i = Some (xen_flag (used p))) as HP.
  { intros i Hi. destruct (al_page _ _ _ _ _ _ _ _ A i Hi) as (p & _ & Hp). exists p. split; [done|]. rewrite (Hc i). rewrite decide_True by done. by rewrite Hp. }
  assert (forall i, ~ in_block pg order i -> pages w2 !! i = pages w1 !! i) as HR by (intros i Hi; rewrite (Hc i); by rewrite decide_False).
  split.
  - apply (busy_heap_ok true w1); [apply A| |by rewrite E2..]. intros i. destruct (decide (pg <= i < pg + 2 ^ order)) as [Hi|Hi]; [right|left; by apply HR]. destruct (HP i Hi) as (p & H1 & H2).
    split_and!; [intros (q & Hq & Hf); assert (q = used p) as -> by congruence; done|intros (q & Hq & Hf); assert (q = xen_flag (used p)) as -> by congruence; done|by rewrite H2].
  - by apply A.
  - intros i Hi. by apply (al_block _ _ _ _ _ _ _ _ A).
  - intros i Hi. destruct (HP i Hi) as (p & _ & ?). by exists p.
  - intros i Hi. destruct (al_rest _ _ _ _ _ _ _ _ A i Hi) as [E|(Hf & q & x & Hq & Hq')]; [left|right]; [by rewrite HR|]. split; [done|]. exists q, x. by rewrite HR.
  - rewrite E2. apply A.
  - rewrite E2. apply A.
Qed.

Lemma free_xenheap_spec order pg w :
  machine_ok -> heap_ok true w -> 0 <= order <= MAX_ORDER -> 0 < pg -> aligned pg order -> phys_to_nid pg ∈ heap_nodes w ->
  (forall i, in_block pg order i -> (exists p, pages w !! i = Some (xen_flag (used p))) /\ mfn_valid i = true /\ phys_to_nid i = phys_to_nid pg) ->
  wp no_error (free_xenheap_pages (Some pg) order) (fun _ w' => heap_ok true w' /\ free_all w' = free_all w ∪ block_set pg order /\ hdoms w' = hdoms w) w.
Proof.
  intros HM HO Ho Hpg Hal Hn Hp. unfold free_xenheap_pages. rewrite shift_pow by lia. assert (Z.of_nat (Z.to_nat (2 ^ order)) = 2 ^ order) as En by (pose proof (Z.pow_pos_nonneg 2 order); lia).
  wp_step. eapply wp_mono; [apply flag_pages_spec|]. { intros i Hi. rewrite En in Hi. destruct (Hp i Hi) as ((p & ->) & _). done. }
  rewrite En. intros [] w1 [Hc E1].
  assert (forall i, in_block pg order i -> exists p, pages w !! i = Some (xen_flag (used p)) /\ pages w1 !! i = Some (used p)) as HP.
  { intros i Hi. destruct (Hp i Hi) as ((p & Hpi) & _). exists p. split; [done|]. rewrite (Hc i). rewrite decide_True by done. rewrite Hpi. simpl. f_equal. }
  assert (busy_change w w1) as HB.
  { intros i. destruct (decide (pg <= i < pg + 2 ^ order)) as [Hi|Hi]; [right|left; by rewrite (Hc i), decide_False]. destruct (HP i Hi) as (p & H1 & H2).
    split_and!; [intros (q & Hq & Hf); assert (q = xen_flag (used p)) as -> by congruence; done|intros (q & Hq & Hf); assert (q = used p) as -> by congruence; done|by rewrite H2]. }
  assert (free_all w1 = free_all w) as EF by (apply set_eq; intros i; rewrite !elem_of_free_all; by apply busy_free).
  eapply wp_mono; [apply free_heap_spec; [done|apply (busy_heap_ok true w); [done|done|by rewrite E1..]|]|].
  - split; [done|done|done| |by rewrite E1|].
    + intros p Hpp. destruct (HP pg ltac:(apply in_block_self; lia)) as (q & _ & Hq). assert (p = used q) as -> by congruence. done.
    + intros i Hi. destruct (HP i Hi) as (q & _ & Hq). destruct (Hp i Hi) as (_ & ? & ?). split_and!; [by exists (used q)|done|done].
  - intros [] w2 F. split_and!; [apply F|by rewrite (freed_free_all _ _ _ _ F), EF|by rewrite (fr_doms _ _ _ _ F), E1].
Qed.
End Dom.
