(* ===== verification/PageMain.v ===== *)
(** * Machine pages: what the allocator promises

    The free lists are determined by the set of the free pages, a request fails only when
    no suitable run of free pages exists, and no page ever has two owners. *)

From S2P Require Import Prelude.
From S2P Require Import Xen.
From S2P Require Import PageAlloc.
From S2P Require Import PageFacts.
From S2P Require Import PageCount.
From S2P Require Import PageSearch.
From S2P Require Import PageOps.
From S2P Require Import PageFree.
From S2P Require Import PageDom.

Section Canon.
Context `{HeapEnv}.

(** ** The lists and the free pages *)

(** An aligned run of free pages of one node. *)
Definition free_run (w : hworld) (n m k : Z) : Prop := 0 < m /\ aligned m k /\ forall i, in_block m k i -> is_free w i /\ phys_to_nid i = n.

Lemma free_run_half w n m k : 0 <= k -> free_run w n m (k + 1) -> free_run w n m k /\ free_run w n (m + 2 ^ k) k /\ buddy m k = m + 2 ^ k.
Proof.
  intros Hk (Hm & Ha & Hf). pose proof (Z.pow_pos_nonneg 2 k ltac:(lia) Hk). pose proof (aligned_le m (k + 1) k ltac:(lia) Ha) as Hak. unfold in_block in Hf. rewrite pow_succ in Hf by done.
  unfold free_run. split_and!; [done|done|intros i Hi; apply Hf; unfold in_block in Hi; lia|lia|destruct Hak as [q ->]; exists (q + 1); ring|intros i Hi; apply Hf; unfold in_block in Hi; lia|].
  destruct (buddy_cases m k Hk Hak) as (a & [r ->] & [(-> & E & _)|(E & _)]); [done|]. destruct Ha as [q ->]. rewrite pow_succ in E by done. exfalso. eapply half_odd; [|symmetry; exact E]. done.
Qed.

(** Every aligned run of free pages is inside a block of a list. *)
Lemma run_listed w n (k : nat) : hinv true [] w -> Z.of_nat k <= MAX_ORDER -> forall m, free_run w n m (Z.of_nat k) ->
  exists k' m', Z.of_nat k <= k' <= MAX_ORDER /\ listed w n (Z.log2 m) k' m' /\ in_block m' k' m /\ aligned m' k'.
Proof.
  intros I. induction k as [|k IH]; intros Hk m HR.
  - destruct HR as (Hm & _ & Hf). destruct (Hf m) as [Hfm Hn]; [by apply in_block_self|]. destruct (hi_cover _ _ _ I m Hfm) as (n' & z & k' & m' & Hb & Hi).
    destruct (hi_block _ _ _ I _ _ _ _ Hb) as (Hk' & _ & Ha & Hin). destruct (Hin m Hi) as (_ & <- & <-). destruct Hb as [Hl|[]%not_elem_of_nil]. exists k', m'. rewrite <- Hn. split_and!; try done; try lia. by apply Ha.
  - replace (Z.of_nat (S k)) with (Z.of_nat k + 1) in * by lia. destruct (free_run_half w n m (Z.of_nat k) ltac:(lia) HR) as (H1 & H2 & Eb).
    assert (Z.log2 (m + 2 ^ Z.of_nat k) = Z.log2 m) as Ez.
    { destruct HR as (Hm & Ha & _). apply (zone_block m (Z.of_nat k + 1)); [lia|done|done|]. unfold in_block. rewrite pow_succ by lia. pose proof (Z.pow_pos_nonneg 2 (Z.of_nat k)). lia. }
    destruct (IH ltac:(lia) _ H1) as (k1 & m1 & Hk1 & L1 & B1 & A1). destruct (IH ltac:(lia) _ H2) as (k2 & m2 & Hk2 & L2 & B2 & A2). rewrite Ez in L2.
    destruct (decide (k1 = Z.of_nat k)) as [->|Hne1]; [|exists k1, m1; split_and!; try done; lia].
    assert (aligned m (Z.of_nat k) /\ aligned (m + 2 ^ Z.of_nat k) (Z.of_nat k)) as [Am Am2] by (split; [apply H1|apply H2]).
    assert (m1 = m) as ->. { destruct (aligned_inside m1 (Z.of_nat k) m (Z.of_nat k) m ltac:(lia) A1 Am B1 ltac:(apply in_block_self; lia)). lia. }
    destruct (decide (k2 = Z.of_nat k)) as [->|Hne2].
    + assert (m2 = m + 2 ^ Z.of_nat k) as ->. { destruct (aligned_inside m2 (Z.of_nat k) _ (Z.of_nat k) _ ltac:(lia) A2 Am2 B2 ltac:(apply in_block_self; lia)). lia. }
      exfalso. rewrite <- Eb in L2. by eapply (hi_merged _ _ _ I); [|exact L1| |exact L2]; [|lia].
    + assert (in_block m2 k2 m) as B3.
      { destruct HR as (_ & Ha & _). destruct (aligned_inside m2 k2 m (Z.of_nat k + 1) (m + 2 ^ Z.of_nat k) ltac:(lia) A2 Ha B2) as [? ?]; unfold in_block in *; rewrite ?pow_succ in * by lia; lia. }
      exists k2, m2. split_and!; try done; lia.
Qed.

(** A listed block is an aligned run. *)
Lemma listed_run w n z k m : hinv true [] w -> listed w n z k m -> 0 <= k <= MAX_ORDER /\ z = Z.log2 m /\ free_run w n m k.
Proof.
  intros I Hl. destruct (hi_block _ _ _ I n z k m ltac:(by left)) as (Hk & Hm & Ha & Hi). specialize (Ha eq_refl).
  unfold free_run. split_and!; [lia|lia| |done|done|intros i Hb; destruct (Hi i Hb) as (? & ? & ?); done]. destruct (Hi m ltac:(apply in_block_self; lia)) as (_ & _ & Hz). done.
Qed.

Lemma same_free_listed w w' n z k m : hinv true [] w -> hinv true [] w' -> free_all w' = free_all w -> listed w n z k m -> listed w' n z k m.
Proof.
  intros I I' E Hl. destruct (listed_run w n z k m I Hl) as (Hk & -> & HR).
  assert (forall i, is_free w' i <-> is_free w i) as EF by (intros i; rewrite <- !elem_of_free_all, E; done).
  assert (free_run w' n m k) as HR' by (destruct HR as (? & ? & Hf); split_and!; [done|done|]; intros i Hi; rewrite EF; auto).
  assert (Z.of_nat (Z.to_nat k) = k) as Ek by lia. destruct (run_listed w' n (Z.to_nat k) I' ltac:(lia) m ltac:(by rewrite Ek)) as (k1 & m1 & Hk1 & L1 & B1 & A1).
  destruct (listed_run w' n _ k1 m1 I' L1) as (_ & Ez & HR1). assert (free_run w n m1 k1) as HR1' by (destruct HR1 as (? & ? & Hf); split_and!; [done|done|]; intros i Hi; rewrite <- EF; auto).
  assert (Z.of_nat (Z.to_nat k1) = k1) as Ek1 by lia. destruct (run_listed w n (Z.to_nat k1) I ltac:(lia) m1 ltac:(by rewrite Ek1)) as (k2 & m2 & Hk2 & L2 & B2 & A2).
  assert (m2 <= m1 /\ m1 + 2 ^ k1 <= m2 + 2 ^ k2) as [? ?] by (apply (aligned_inside m2 k2 m1 k1 m1); [lia|done|done|done|apply in_block_self; lia]).
  assert (in_block m k m) as Bm by (apply in_block_self; lia). assert (in_block m2 k2 m) as Bm2 by (unfold in_block in *; lia).
  assert (blk [] w n (Z.log2 m) k m) as K1 by by left. assert (blk [] w n (Z.log2 m1) k2 m2) as K2 by by left.
  destruct (hi_disj _ _ _ I _ _ _ _ _ _ _ _ m K1 K2 Bm Bm2) as (_ & _ & E2 & E3).
  rewrite Ek in Hk1. rewrite Ek1 in Hk2. assert (k1 = k) as -> by lia. assert (m1 = m) as -> by (unfold in_block in B1; subst; lia). done.
Qed.
End Canon.

Section Main.
Context `{HeapEnv}.

(** ** The heap *)

(** C11: a request for [2^order] pages always returns. Given a block, the block is aligned,
    all its pages were free, of the zones asked for and of one node; they are now in use,
    no other page has changed state, the counters and lists describe what is left, and
    every processor that may hold a stale translation of one of them has been told to
    flush. The request fails only when no run of that many free pages exists in these
    zones on any node in use, or when it insists on one node. *)
Theorem heap_alloc_correct lo hi order memflags d w :
  machine_ok -> heap_ok true w -> node_flag_ok memflags -> caller_ok w d -> 0 <= order -> lo <= hi < NR_ZONES ->
  exists r w', alloc_heap_pages lo hi order memflags d w = Ok (r, w') /\
    match r with
    | Some pg => order <= MAX_ORDER /\ allocated true lo hi order pg d w w' /\ free_all w' = free_all w ∖ block_set pg order
    | None => w' = w /\ (order <= MAX_ORDER -> exact_node memflags = false -> forall n m, n ∈ node_online_map -> free_run w n m order -> ~ (lo <= Z.log2 m <= hi))
    end.
Proof.
  intros HM HO Hn Hc Ho Hz. destruct (wp_total _ _ _ (alloc_heap_spec true lo hi order memflags d w HM HO Hn Hc Ho Hz)) as (r & w' & E & HP).
  exists r, w'. split; [done|]. destruct r as [pg|]; cbn in HP.
  - destruct HP as [Hm A]. split_and!; [done|done|by eapply allocated_free_all].
  - destruct HP as [-> Hnone]. split; [done|]. intros Hm He n m Hn' HR Hzone. assert (Z.of_nat (Z.to_nat order) = order) as Eo by lia.
    destruct (run_listed w n (Z.to_nat order) (proj1 HO) ltac:(lia) m ltac:(by rewrite Eo)) as (k & m' & Hk & Hl & _). rewrite Eo in Hk.
    unfold listed in Hl. rewrite (Hnone Hm He n _ Hn' Hzone k ltac:(lia)) in Hl. by apply not_elem_of_nil in Hl.
Qed.

(** C12: a block in use can always be given back. Its pages are free afterwards, no other
    page changes, and every run of free pages that could be one block is inside one. *)
Theorem heap_free_correct pg order w :
  machine_ok -> heap_ok true w -> releasable w pg order ->
  exists w', free_heap_pages pg order w = Ok (tt, w') /\ freed order pg w w' /\ free_all w' = free_all w ∪ block_set pg order /\
    forall n m k, 0 <= k <= MAX_ORDER -> free_run w' n m k -> exists k' m', k <= k' <= MAX_ORDER /\ listed w' n (Z.log2 m) k' m' /\ m' <= m /\ m + 2 ^ k <= m' + 2 ^ k'.
Proof.
  intros HM HO HR. destruct (wp_total _ _ _ (free_heap_spec pg order w HM HO HR)) as ([] & w' & E & F). exists w'. split_and!; [done|done|by apply freed_free_all|].
  intros n m k Hk Hrun. assert (Z.of_nat (Z.to_nat k) = k) as Ek by lia.
  destruct (run_listed w' n (Z.to_nat k) (proj1 (fr_ok _ _ _ _ F)) ltac:(lia) m ltac:(by rewrite Ek)) as (k' & m' & Hk' & Hl & Hb & Ha). rewrite Ek in Hk'.
  exists k', m'. split_and!; [lia|lia|done|..]; destruct (aligned_inside m' k' m k m ltac:(lia) Ha ltac:(apply Hrun) Hb ltac:(apply in_block_self; lia)); lia.
Qed.

(** C20: giving back the block just allocated undoes the allocation: every list has the
    same blocks as before and every counter its old value. *)
Theorem alloc_free_roundtrip lo hi order memflags d w pg w1 :
  machine_ok -> heap_ok true w -> node_flag_ok memflags -> caller_ok w d -> 0 <= order -> lo <= hi < NR_ZONES -> alloc_heap_pages lo hi order memflags d w = Ok (Some pg, w1) ->
  exists w2, free_heap_pages pg order w1 = Ok (tt, w2) /\ (forall n z k m, listed w2 n z k m <-> listed w n z k m) /\ (forall n z, avail_at (n, z) w2 = avail_at (n, z) w) /\
    total_avail_pages w2 = total_avail_pages w.
Proof.
  intros HM HO Hn Hc Ho Hz Erun. destruct (wp_total _ _ _ (alloc_heap_spec true lo hi order memflags d w HM HO Hn Hc Ho Hz)) as (r & w' & E & HP).
  assert (r = Some pg /\ w' = w1) as [-> ->] by (split; congruence). destruct HP as [Hm A].
  destruct (wp_total _ _ _ (free_heap_spec pg order w1 HM (al_ok _ _ _ _ _ _ _ _ A) (allocated_releasable lo hi order pg d w w1 HO ltac:(lia) A))) as ([] & w2 & E2 & F).
  pose proof (alloc_free_same _ _ _ _ _ _ _ _ A F) as EF. destruct (fr_ok _ _ _ _ F) as [I2 [c1 c2]]. destruct HO as [I [d1 d2]].
  exists w2. split_and!; [done| |intros n z; by rewrite c1, d1, EF|by rewrite c2, d2, EF]. intros n z k m. split; intros Hl; [by apply (same_free_listed w2)|by apply (same_free_listed w)].
Qed.

(** ** The domains *)

Inductive heap_req :=
  | AllocDom (d order memflags : Z)
  | FreeDom (pg order : Z).

Definition serve (r : heap_req) : M hworld (option Z) :=
  match r with
  | AllocDom d order memflags => alloc_domheap_pages (Some d) order memflags
  | FreeDom pg order => free_domheap_pages pg order ;;; ret None
  end.

(** What the callers see to. *)
Definition req_ok (w : hworld) (r : heap_req) : Prop :=
  match r with
  | AllocDom d order memflags => is_Some (hdoms w !! d) /\ node_flag_ok memflags /\ has_flag memflags MEMF_no_refcount = false /\ 0 <= order
  | FreeDom pg order => exists d x, hdoms w !! d = Some x /\ returnable w x pg order
  end.

Definition die (x : hdom) : hdom := HDom true (tot_pages x) (max_pages x) (xenheap_pages x) (page_list x) (xenpage_list x) (relmem_list x) (last_alloc_node x) (node_affinity x).

(** Requests in any order; a domain may start to die at any moment. *)
Inductive heap_step : hworld -> hworld -> Prop :=
  | heap_serve w r res w' : req_ok w r -> serve r w = Ok (res, w') -> heap_step w w'
  | heap_die w d x : hdoms w !! d = Some x -> heap_step w (set_hdoms (<[d := die x]> (hdoms w)) w).

(** The page is free or some domain's. *)
Definition managed (w : hworld) (i : Z) : Prop := is_free w i \/ exists d x, hdoms w !! d = Some x /\ i ∈ page_list x.

Lemma serve_spec r w : machine_ok -> dinv w -> req_ok w r -> exists res w', serve r w = Ok (res, w') /\ dinv w' /\ forall i, managed w' i <-> managed w i.
Proof.
  intros HM HI HR. destruct r as [d order memflags|pg order].
  - destruct HR as ([x Hx] & Hn & Hr & Ho). destruct (wp_total _ _ _ (alloc_domheap_spec d x order memflags w HM HI Hx Hn Hr Ho)) as (res & w' & E & HI' & _ & HP).
    exists res, w'. split_and!; [done|done|]. intros i. unfold managed. rewrite <- !elem_of_free_all. destruct res as [pg|].
    + destruct (db_dom _ _ _ _ _ _ HP x Hx) as (_ & x' & Hx' & El & _). rewrite (db_rest _ _ _ _ _ _ HP), elem_of_difference, elem_of_block_set. split.
      * intros [[? _]|(e & y & Hy & Hi)]; [by left|]. destruct (decide (e = d)) as [->|Hne]; [|right; exists e, y; by rewrite <- (db_others _ _ _ _ _ _ HP) by done].
        assert (y = x') as -> by congruence. rewrite El in Hi. apply elem_of_app in Hi as [Hi|Hi%elem_of_seqZ]; [right; by exists d, x|left; by apply elem_of_free_all, (db_free _ _ _ _ _ _ HP)].
      * intros [Hf|(e & y & Hy & Hi)].
        -- destruct (decide (pg <= i < pg + 2 ^ order)) as [Hb|Hb]; [right; exists d, x'; split; [done|]; rewrite El; apply elem_of_app; right; by apply elem_of_seqZ|by left].
        -- right. destruct (decide (e = d)) as [->|Hne]; [|exists e, y; by rewrite (db_others _ _ _ _ _ _ HP) by done]. assert (y = x) as -> by congruence. exists d, x'. split; [done|]. rewrite El. apply elem_of_app. by left.
    + destruct HP as (EF & SD & _). rewrite EF. split; (intros [?|(e & y & Hy & Hi)]; [by left|right]).
      * destruct (same_doms_lookup w' w e y (eq_sym SD) Hy) as (y' & Hy' & Eh). injection Eh as El _ _ _. exists e, y'. by rewrite El.
      * destruct (same_doms_lookup w w' e y SD Hy) as (y' & Hy' & Eh). injection Eh as El _ _ _. exists e, y'. by rewrite El.
  - destruct HR as (d & x & Hx & HR). destruct (wp_total _ _ _ (free_domheap_spec d x pg order w HM HI Hx HR)) as ([] & w' & E & F). exists None, w'.
    split_and!; [unfold serve, bind, ret; by rewrite E|apply F|]. destruct (re_dom _ _ _ _ _ _ F) as (x' & Hx' & El & _).
    intros i. unfold managed. rewrite <- !elem_of_free_all, (re_free _ _ _ _ _ _ F), elem_of_union, elem_of_block_set. split.
    + intros [[?|Hb]|(e & y & Hy & Hi)]; [by left|right; exists d, x; split; [done|by apply (rt_pages _ _ _ _ HR)]|right].
      destruct (decide (e = d)) as [->|Hne]; [|exists e, y; by rewrite <- (re_others _ _ _ _ _ _ F) by done]. assert (y = x') as -> by congruence. exists d, x. rewrite El in Hi. by apply list_elem_of_filter in Hi as [_ ?].
    + intros [?|(e & y & Hy & Hi)]; [by left; left|]. destruct (decide (e = d)) as [->|Hne]; [|right; exists e, y; by rewrite (re_others _ _ _ _ _ _ F) by done]. assert (y = x) as -> by congruence.
      destruct (decide (pg <= i < pg + 2 ^ order)) as [Hb|Hb]; [by left; right|right; exists d, x'; split; [done|]; rewrite El; by apply list_elem_of_filter].
Qed.

Lemma die_dinv w d x : dinv w -> hdoms w !! d = Some x -> dinv (set_hdoms (<[d := die x]> (hdoms w)) w) /\ forall i, managed (set_hdoms (<[d := die x]> (hdoms w)) w) i <-> managed w i.
Proof.
  intros [[I [c1 c2]] HD] Hx. split.
  - split; [split; [by apply (hinv_ext true [] w)|split; [exact c1|exact c2]]|]. intros e y. simpl. destruct (decide (e = d)) as [->|Hne].
    + rewrite lookup_insert_eq. intros [= <-]. destruct (HD d x Hx) as [? ? ? ? ? ? ? D8]. split; try done. intros m Hm. by destruct (D8 m Hm).
    + rewrite lookup_insert_ne by done. intros Hy. destruct (HD e y Hy) as [? ? ? ? ? ? ? D8]. split; try done. intros m Hm. by destruct (D8 m Hm).
  - intros i. unfold managed. simpl. split; (intros [?|(e & y & Hy & Hi)]; [by left|right]); (destruct (decide (e = d)) as [->|Hne]; [|exists e, y; by rewrite ?lookup_insert_ne in * by done]).
    + rewrite lookup_insert_eq in Hy. injection Hy as <-. by exists d, x.
    + assert (y = x) as -> by congruence. exists d, (die x). by rewrite lookup_insert_eq.
Qed.

Lemma heap_steps_inv w w' : machine_ok -> dinv w -> rtc heap_step w w' -> dinv w' /\ forall i, managed w' i <-> managed w i.
Proof.
  intros HM HI Hr. induction Hr as [w|w1 w2 w3 Hs _ IH]; [done|]. assert (dinv w2 /\ forall i, managed w2 i <-> managed w1 i) as [HI2 HM2].
  { destruct Hs as [w1 r res w2 Hok Hrun|w1 d x Hx]; [|by apply die_dinv]. destruct (serve_spec r w1 HM HI Hok) as (res' & w2' & E & ? & ?). assert (w2' = w2) as -> by congruence. done. }
  destruct (IH HI2) as [HI3 HM3]. split; [done|]. intros i. by rewrite HM3.
Qed.

(** C6: whatever requests the domains make, in any order and while domains die, no page
    belongs to two domains, a free page belongs to none, no domain holds more pages than
    it may, its counter is the number of its pages, no page is lost, and the next request
    is served without failing an assertion. *)
Theorem page_owners_safe w w' :
  machine_ok -> dinv w -> rtc heap_step w w' ->
  (forall d e x y m, hdoms w' !! d = Some x -> hdoms w' !! e = Some y -> m ∈ page_list x -> m ∈ page_list y -> d = e) /\
  (forall d x m, hdoms w' !! d = Some x -> m ∈ page_list x -> ~ is_free w' m) /\
  (forall d x, hdoms w' !! d = Some x -> NoDup (page_list x) /\ tot_pages x = Z.of_nat (length (page_list x)) /\ tot_pages x <= max_pages x) /\
  (forall i, managed w' i <-> managed w i) /\
  (forall r, req_ok w' r -> exists res w2, serve r w' = Ok (res, w2)).
Proof.
  intros HM HI Hr. destruct (heap_steps_inv w w' HM HI Hr) as [HI' Hman]. split_and!.
  - intros d e x y m Hx Hy Hm Hm'. destruct (do_pages _ _ _ (di_dom _ HI' d x Hx) m Hm) as [(p & Hp & Hv & _) _ _ _]. destruct (do_pages _ _ _ (di_dom _ HI' e y Hy) m Hm') as [(q & Hq & Hv' & _) _ _ _]. congruence.
  - intros d x m Hx Hm. by eapply owned_not_free, (di_dom _ HI' d x Hx).
  - intros d x Hx. destruct (di_dom _ HI' d x Hx). done.
  - done.
  - intros r Hok. destruct (serve_spec r w' HM HI' Hok) as (res & w2 & E & _). by exists res, w2.
Qed.

(** C25: a domain that is not dying, asks for no more than it may have and does not insist
    on a node or on memory above the DMA range gets a block whenever one of that size
    exists; the pages are then the last of its list and belong to nobody else. *)
Theorem domheap_alloc_complete d x order memflags w n m :
  machine_ok -> dinv w -> hdoms w !! d = Some x -> node_flag_ok memflags -> has_flag memflags MEMF_no_refcount = false -> exact_node memflags = false -> has_flag memflags MEMF_no_dma = false ->
  0 <= order <= MAX_ORDER -> hd_dying x = false -> tot_pages x + 2 ^ order <= max_pages x -> n ∈ node_online_map -> free_run w n m order -> 1 <= Z.log2 m <= zone_limit (Some d) memflags ->
  exists pg w', alloc_domheap_pages (Some d) order memflags w = Ok (Some pg, w') /\ dinv w' /\ domheap_block d order pg (zone_limit (Some d) memflags) w w'.
Proof.
  intros HM HI Hx Hn Hr He Hd Ho Hdy Hmax Hon HR Hz. destruct (wp_total _ _ _ (alloc_domheap_spec d x order memflags w HM HI Hx Hn Hr ltac:(lia))) as (res & w' & E & HI' & _ & HP).
  destruct res as [pg|]; [by exists pg, w'|]. exfalso. destruct HP as (_ & _ & _ & Hnone). assert (Z.of_nat (Z.to_nat order) = order) as Eo by lia.
  destruct (run_listed w n (Z.to_nat order) (proj1 (di_heap _ HI)) ltac:(lia) m ltac:(by rewrite Eo)) as (k & m' & Hk & Hl & _). rewrite Eo in Hk. unfold listed in Hl.
  rewrite (Hnone x Hx Hdy Hmax ltac:(lia) He Hd n _ Hon Hz k ltac:(lia)) in Hl. by apply not_elem_of_nil in Hl.
Qed.
End Main.

(** ** A small machine *)

Definition sample_env : HeapEnv := {| mfn_valid m := (32 <=? m) && (m <? 64); phys_to_nid _ := 0; node_online_map := {[0]}; this_node := 0; cpu_online_map := {[0; 1]};
  NEED_FLUSH _ _ := true; tlbflush_current_time := 0; machine_to_phys_mapping_valid := true; opt_tmem := false; tmem_freeable_pages _ := 0; tmem_relinquish_pages _ _ _ := None;
  dma_bitsize := 0; domain_clamp_alloc_bitsize _ b := b; dom_cow := 32754; page_is_ram _ := true; is_xen_fixed_mfn _ := false; p2m_pod_hit _ := false |}.

Definition sample_dom : hdom := HDom false 0 24 0 [] [] [] (-1) {[0]}.
(** 32 pages in use, one domain. *)
Definition sample_boot : hworld := HWorld (gset_to_gmap (Page 0 0 0 true 0) (list_to_set (seqZ 32 32))) ∅ {[0]} ∅ 0 0 [] [] UINT64_MAX 0 0 0 {[1 := sample_dom]} ∅ [].
(** All of them given to the heap. *)
Definition sample_world : hworld := match free_heap_pages (H := sample_env) 32 5 sample_boot with Ok (_, w) => w | Err _ => sample_boot end.

Lemma empty_heap_ok `{HeapEnv} w :
  heap w = ∅ -> avail w = ∅ -> total_avail_pages w = 0 -> (forall i, ~ is_free w i) -> (forall i, mfn_valid i = true -> is_Some (pages w !! i)) -> (forall n, n ∈ heap_nodes w -> 0 <= n < MAX_NUMNODES) -> heap_ok true w.
Proof.
  intros Eh Ea Et Hf Hv Hn. assert (forall n z k m, ~ listed w n z k m) as HL by (intros n z k m; unfold listed, free_list; rewrite Eh, lookup_empty; apply not_elem_of_nil).
  assert (free_all w = ∅) as EF by (apply set_eq; intros i; rewrite elem_of_free_all; set_solver).
  assert (forall n z k m, ~ blk [] w n z k m) as HB by (intros n z k m [?|[]%not_elem_of_nil]; by eapply HL).
  assert (forall n z, of_zone n z ∅ = ∅) as EZ by (intros n z; apply set_eq; intros i; unfold of_zone; rewrite elem_of_filter; set_solver).
  split; [split|split; [intros n z; unfold avail_at; rewrite Ea, EF, lookup_empty, EZ; by rewrite size_empty|by rewrite Et, EF, size_empty]].
  - intros key. unfold free_list. rewrite Eh, lookup_empty. apply NoDup_nil_2.
  - intros n z k m Hb. by apply HB in Hb.
  - intros n z k m Hl. by apply HL in Hl.
  - intros n z k m n' z' k' m' i Hb. by apply HB in Hb.
  - intros n z k m []%not_elem_of_nil.
  - intros i Hi. by apply Hf in Hi.
  - intros n z k m _ Hl. by apply HL in Hl.
  - intros i p Hp Hs. exfalso. apply (Hf i). by exists p.
  - done.
  - intros i Hi. by apply Hf in Hi.
  - done.
Qed.

Lemma sample_page i p : pages sample_boot !! i = Some p -> 32 <= i < 64 /\ p = Page 0 0 0 true 0.
Proof. intros [Hi ->]%lookup_gset_to_gmap_Some. apply elem_of_list_to_set, elem_of_seqZ in Hi. split; [lia|done]. Qed.

Lemma sample_page_in i : 32 <= i < 64 -> pages sample_boot !! i = Some (Page 0 0 0 true 0).
Proof. intros Hi. apply lookup_gset_to_gmap_Some. split; [|done]. apply elem_of_list_to_set, elem_of_seqZ. lia. Qed.

Lemma sample_machine_ok : machine_ok (H := sample_env).
Proof. split_and!; [|done|done|done]. intros n Hn. change (n ∈@{gset Z} {[0]}) in Hn. apply elem_of_singleton in Hn as ->. done. Qed.

Lemma sample_boot_ok : heap_ok (H := sample_env) true sample_boot.
Proof.
  apply empty_heap_ok; [done|done|done| | |].
  - intros i (p & Hp & Hf). apply sample_page in Hp as [_ ->]. done.
  - intros i Hi. cbn in Hi. rewrite sample_page_in; [done|]. apply andb_true_iff in Hi as [?%Z.leb_le ?%Z.ltb_lt]. done.
  - intros n Hn. change (n ∈@{gset Z} {[0]}) in Hn. apply elem_of_singleton in Hn as ->. done.
Qed.

Lemma sample_releasable : releasable (H := sample_env) sample_boot 32 5.
Proof.
  split; [done|done|by exists 1|intros p Hp; by apply sample_page in Hp as [_ ->]|change (0 ∈@{gset Z} {[0]}); by apply elem_of_singleton|].
  intros i Hi. unfold in_block in Hi. split_and!; [exists (Page 0 0 0 true 0); split; [apply sample_page_in; lia|done]|cbn; apply andb_true_iff; split; [apply Z.leb_le|apply Z.ltb_lt]; lia|done].
Qed.

Lemma sample_freed : freed (H := sample_env) 5 32 sample_boot sample_world.
Proof.
  pose proof (free_heap_spec (H := sample_env) 32 5 sample_boot sample_machine_ok sample_boot_ok sample_releasable) as Hw. apply wp_total in Hw as ([] & w' & E & F).
  unfold sample_world. by rewrite E.
Qed.

Lemma sample_dinv : dinv (H := sample_env) sample_world.
Proof.
  split; [apply sample_freed|]. intros d x. rewrite (fr_doms _ _ _ _ sample_freed). change (hdoms sample_boot) with ({[1 := sample_dom]} : gmap Z hdom). intros [<- <-]%lookup_singleton_Some. split; try done; [|apply NoDup_nil_2|by intros m []%not_elem_of_nil].
  split; [|done]. intros n Hn. change (n ∈@{gset Z} {[0]}) in Hn. apply elem_of_singleton in Hn as ->. done.
Qed.

Definition after {A} (m : M hworld A) (w : hworld) : hworld := match m w with Ok (_, w') => w' | Err _ => w end.
(** The heap gives a block of four pages; the domain gets one, dies, and the block comes back. *)
Definition sample_taken : hworld := after (alloc_heap_pages (H := sample_env) 1 39 2 0 None) sample_world.
Definition sample_owned : hworld := after (alloc_domheap_pages (H := sample_env) (Some 1) 2 0) sample_world.
Definition sample_owner : hdom := HDom false 4 24 0 [60; 61; 62; 63] [] [] 0 {[0]}.
Definition sample_dying : hworld := set_hdoms (<[1 := die sample_owner]> (hdoms sample_owned)) sample_owned.
Definition sample_back : hworld := after (free_domheap_pages (H := sample_env) 60 2) sample_dying.

Lemma sample_returnable : returnable (H := sample_env) sample_dying (die sample_owner) 60 2.
Proof.
  split; [done|by exists 15|]. intros i Hi. unfold in_block in Hi. assert (i = 60 \/ i = 61 \/ i = 62 \/ i = 63) as Hc by lia.
  split_and!; [destruct Hc as [-> | [-> | [-> | ->]]]; cbn; set_solver|done|].
  exists (Page (Z.lor PGC_allocated 1) 1 0 false 0). destruct Hc as [-> | [-> | [-> | ->]]]; split; vm_compute; reflexivity.
Qed.

Lemma sample_taken_run : alloc_heap_pages (H := sample_env) 1 39 2 0 None sample_world = Ok (Some 60, sample_taken).
Proof. vm_compute. reflexivity. Qed.

Lemma heap_alloc_correct_witness : allocated (H := sample_env) true 1 39 2 60 None sample_world sample_taken.
Proof.
  destruct (@heap_alloc_correct sample_env 1 39 2 0 None sample_world sample_machine_ok (di_heap _ sample_dinv) ltac:(by right) I ltac:(done) ltac:(done)) as (r & w' & E & Hr).
  rewrite sample_taken_run in E. assert (Some 60 = r /\ sample_taken = w') as [<- <-] by (split; congruence). apply Hr.
Defined.

Lemma heap_free_correct_witness : exists w', free_heap_pages (H := sample_env) 32 5 sample_boot = Ok (tt, w') /\ freed (H := sample_env) 5 32 sample_boot w'.
Proof. destruct (@heap_free_correct sample_env 32 5 sample_boot sample_machine_ok sample_boot_ok sample_releasable) as (w' & E & F & _). exists w'. split; [exact E|exact F]. Defined.

Lemma alloc_free_roundtrip_witness : exists w2, free_heap_pages (H := sample_env) 60 2 sample_taken = Ok (tt, w2) /\ total_avail_pages w2 = total_avail_pages sample_world.
Proof.
  destruct (@alloc_free_roundtrip sample_env 1 39 2 0 None sample_world 60 sample_taken sample_machine_ok (di_heap _ sample_dinv) ltac:(by right) I ltac:(done) ltac:(done) sample_taken_run) as (w2 & E & _ & _ & Et).
  exists w2. split; [exact E|exact Et].
Defined.

Lemma sample_steps : rtc (heap_step (H := sample_env)) sample_world sample_back.
Proof.
  eapply rtc_l; [apply (heap_serve (H := sample_env) _ (AllocDom 1 2 0) (Some 60) sample_owned); [|vm_compute; reflexivity]|].
  { split_and!; [by eexists; vm_compute|by right|done|done]. }
  eapply rtc_l; [apply (heap_die (H := sample_env) _ 1 sample_owner); vm_compute; reflexivity|].
  apply rtc_once. apply (heap_serve (H := sample_env) _ (FreeDom 60 2) None); [|vm_compute; reflexivity]. exists 1, (die sample_owner). split; [vm_compute; reflexivity|exact sample_returnable].
Qed.

Lemma page_owners_safe_witness : managed sample_back 60 <-> managed sample_world 60.
Proof. apply (@page_owners_safe sample_env sample_world sample_back sample_machine_ok sample_dinv sample_steps). Defined.

Lemma sample_run : free_run (H := sample_env) sample_world 0 40 2.
Proof.
  split_and!; [done|by exists 10|]. intros i Hi. split; [|done]. unfold in_block in Hi. apply elem_of_free_all. rewrite (freed_free_all _ _ _ _ sample_freed).
  apply elem_of_union_r, elem_of_block_set. unfold in_block. lia.
Qed.

Lemma sample_world_dom : hdoms sample_world !! 1 = Some sample_dom.
Proof. by rewrite (fr_doms _ _ _ _ sample_freed). Qed.

Lemma domheap_alloc_complete_witness : exists pg w', alloc_domheap_pages (H := sample_env) (Some 1) 2 0 sample_world = Ok (Some pg, w') /\ dinv (H := sample_env) w'.
Proof.
  destruct (@domheap_alloc_complete sample_env 1 sample_dom 2 0 sample_world 0 40 sample_machine_ok sample_dinv sample_world_dom ltac:(by right) ltac:(done) ltac:(done) ltac:(done) ltac:(done) ltac:(done) ltac:(done) (proj2 (elem_of_singleton 0 0) eq_refl) sample_run ltac:(done)) as (pg & w' & E & HI & _).
  exists pg, w'. split; [exact E|exact HI].
Defined.
