(* ===== verification/BootAlloc.v ===== *)
(** * The allocator used while the hypervisor starts

    [src/xen/common/page_alloc.c], boot-time allocator: the machine pages that are not yet
    in the heap are kept as a list of regions, in one page taken from the first of them. The
    theorems relate the list to the set of the pages it stands for. *)

From S2P Require Import Prelude.
From S2P Require Import Xen.
From S2P Require Import PageAlloc.
From Stdlib Require Import Ascii.
From Stdlib Require Import String.

Local Notation length := Datatypes.length.

(** ** State *)

(** The regions [s .. e-1], and the page that holds their list. *)
Record bootmem := Bootmem { list_mfn : option Z; bootmem_region_list : list (Z * Z); first_valid_mfn : Z }.

Definition set_list_mfn m b := Bootmem m (bootmem_region_list b) (first_valid_mfn b).
Definition set_regions l b := Bootmem (list_mfn b) l (first_valid_mfn b).
Definition set_first_valid m b := Bootmem (list_mfn b) (bootmem_region_list b) m.

Definition bootmem_init : bootmem := Bootmem None [] UINT64_MAX.

(** [PAGE_SIZE / sizeof(struct bootmem_region)] *)
Definition MAX_REGIONS : nat := 256.

(** ** Regions *)

(** The first region that ends behind [s]. *)
Fixpoint region_index (s : Z) (l : list (Z * Z)) : nat :=
  match l with
  | [] => O
  | (_, e) :: l => if s <? e then O else S (region_index s l)
  end.

Definition boot_bug_on (p : bool) : M bootmem unit := if p then fail Abort else ret tt.

Definition bootmem_region_add (s e : Z) : M bootmem unit :=
  let! b := gets id in
  let first := bool_decide (list_mfn b = None) && (s <? e) in
  when first (modify (set_list_mfn (Some s))) ;;;
  let s := if first then s + 1 else s in
  if e <=? s then ret tt
  else
    let l := bootmem_region_list b in
    let i := region_index s l in
    boot_bug_on (match l !! i with Some (s', _) => s' <? e | None => false end) ;;;
    boot_bug_on (bool_decide (length l = MAX_REGIONS)) ;;;
    modify (set_regions (take i l ++ (s, e) :: drop i l)).

Fixpoint zap_from (fuel : nat) (i : nat) (s e : Z) : M bootmem unit :=
  match fuel with
  | O => fail OutOfFuel
  | S fuel =>
      let! l := gets bootmem_region_list in
      match l !! i with
      | None => ret tt
      | Some (rs, re) =>
          if e <=? rs then ret tt
          else if re <=? s then zap_from fuel (S i) s e
          else
            (if s <=? rs then modify (set_regions (<[i := (Z.min e re, re)]> l))
             else if re <=? e then modify (set_regions (<[i := (rs, s)]> l))
             else modify (set_regions (<[i := (rs, s)]> l)) ;;; bootmem_region_add e re) ;;;
            zap_from fuel (S i) s e
      end
  end.

(** There are never more than [MAX_REGIONS] regions. *)
Definition zap_fuel : nat := S (S MAX_REGIONS).
Definition bootmem_region_zap (s e : Z) : M bootmem unit := zap_from zap_fuel 0 s e.

(** From the last region down. *)
Fixpoint alloc_boot_from (n : nat) (nr_pfns pfn_align : Z) : M bootmem Z :=
  match n with
  | O => fail Abort
  | S i =>
      let! l := gets bootmem_region_list in
      let! r := of_option OutOfBounds (l !! i) in
      let '(rs, re) := r in
      let pg := Z.ldiff (u64 (re - nr_pfns)) (pfn_align - 1) in
      if pg <? rs then alloc_boot_from i nr_pfns pfn_align
      else
        modify (set_regions (<[i := (rs, pg)]> l)) ;;;
        bootmem_region_add (u64 (pg + nr_pfns)) re ;;;
        ret pg
  end.

Definition alloc_boot_pages (nr_pfns pfn_align : Z) : M bootmem Z :=
  let! n := gets (fun b => length (bootmem_region_list b)) in
  alloc_boot_from n nr_pfns pfn_align.

(** ** The list of bad pages *)

Definition code (c : ascii) : Z := Z.of_N (N_of_ascii c).
Definition isdigit (c : Z) : bool := (48 <=? c) && (c <=? 57).
Definition islower (c : Z) : bool := (97 <=? c) && (c <=? 122).
Definition toupper (c : Z) : Z := if islower c then c - 32 else c.
Definition isxdigit (c : Z) : bool := isdigit c || ((65 <=? toupper c) && (toupper c <=? 70)).
Definition digit_value (c : Z) : Z := if isdigit c then c - 48 else toupper c - 65 + 10.

(** The first character, or the terminating zero. *)
Definition peek (p : string) : Z := match p with EmptyString => 0 | String.String c _ => code c end.
Definition tail (p : string) : string := match p with EmptyString => EmptyString | String.String _ p => p end.

Fixpoint strtoul_digits (p : string) (base acc : Z) : Z * string :=
  match p with
  | EmptyString => (acc, p)
  | String.String c q => if isxdigit (code c) && (digit_value (code c) <? base) then strtoul_digits q base (u64 (acc * base + digit_value (code c))) else (acc, p)
  end.

Definition simple_strtoul (p : string) (base : Z) : Z * string :=
  if base =? 0 then
    if peek p =? 48 then
      let p := tail p in
      if (toupper (peek p) =? 88) && isxdigit (peek (tail p)) then strtoul_digits (tail p) 16 0 else strtoul_digits p 8 0
    else strtoul_digits p 10 0
  else if base =? 16 then
    strtoul_digits (if (peek p =? 48) && (toupper (peek (tail p)) =? 88) then tail (tail p) else p) 16 0
  else strtoul_digits p base 0.

(** [44] is a comma and [45] a dash. *)
Fixpoint zap_bad (fuel : nat) (p : string) : M bootmem unit :=
  match fuel with
  | O => fail OutOfFuel
  | S fuel =>
      match p with
      | EmptyString => ret tt
      | _ =>
          let '(bad_spfn, p) := simple_strtoul p 0 in
          let '(bad_epfn, p) :=
            (if peek p =? 45 then let '(e, p) := simple_strtoul (tail p) 0 in (if e <? bad_spfn then bad_spfn else e, p) else (bad_spfn, p)) in
          if (peek p =? 44) || bool_decide (p = EmptyString) then
            bootmem_region_zap bad_spfn (u64 (bad_epfn + 1)) ;;; zap_bad fuel (tail p)
          else ret tt
      end
  end.

Definition PAGE_SIZE : Z := 2 ^ PAGE_SHIFT.
Definition round_pgdown (p : Z) : Z := Z.ldiff p (PAGE_SIZE - 1).
Definition round_pgup (p : Z) : Z := Z.ldiff (u64 (p + (PAGE_SIZE - 1))) (PAGE_SIZE - 1).

Definition init_boot_pages (opt_badpage : string) (ps pe : Z) : M bootmem unit :=
  let ps := round_pgup ps in
  let pe := round_pgdown pe in
  if pe <=? ps then ret tt
  else
    let s := Z.shiftr ps PAGE_SHIFT in
    modify (fun b => set_first_valid (Z.min s (first_valid_mfn b)) b) ;;;
    bootmem_region_add s (Z.shiftr pe PAGE_SHIFT) ;;;
    zap_bad (S (String.length opt_badpage)) opt_badpage.

(** ** The pages of the regions *)

Definition before (a b : Z * Z) : Prop := a.2 <= b.1.
Definition region_ok (r : Z * Z) : Prop := 0 <= r.1 <= r.2 /\ r.2 < 2 ^ 64.
Definition free_mfn (l : list (Z * Z)) (i : Z) : Prop := exists r, r ∈ l /\ r.1 <= i < r.2.
Definition free_page (b : bootmem) (i : Z) : Prop := free_mfn (bootmem_region_list b) i.

(** The regions are in order and do not overlap; the page of the list is in none. *)
Record boot_ok (b : bootmem) : Prop := BootOk {
  bo_sorted : StronglySorted before (bootmem_region_list b);
  bo_regions r : r ∈ bootmem_region_list b -> region_ok r;
  bo_room : (length (bootmem_region_list b) <= MAX_REGIONS)%nat;
  bo_none : list_mfn b = None -> bootmem_region_list b = [];
  bo_list m : list_mfn b = Some m -> ~ free_page b m
}.

Lemma free_mfn_app l k i : free_mfn (l ++ k) i <-> free_mfn l i \/ free_mfn k i.
Proof. unfold free_mfn. setoid_rewrite elem_of_app. naive_solver. Qed.
Lemma free_mfn_cons r l i : free_mfn (r :: l) i <-> r.1 <= i < r.2 \/ free_mfn l i.
Proof. unfold free_mfn. setoid_rewrite elem_of_cons. naive_solver. Qed.
Lemma free_mfn_nil i : ~ free_mfn [] i.
Proof. intros (r & Hr & _). by apply not_elem_of_nil in Hr. Qed.

Lemma region_index_before s l r : r ∈ take (region_index s l) l -> r.2 <= s.
Proof.
  induction l as [|[a e] l IH]; simpl; [intros Hr; by apply not_elem_of_nil in Hr|]. destruct (Z.ltb_spec s e); [intros Hr; by apply not_elem_of_nil in Hr|].
  simpl. intros [->|Hr]%elem_of_cons; [done|auto].
Qed.

Lemma region_index_at s l r : l !! region_index s l = Some r -> s < r.2.
Proof. induction l as [|[a e] l IH]; simpl; [done|]. destruct (Z.ltb_spec s e); [intros [= <-]; done|simpl; auto]. Qed.

Lemma region_index_past s l i r : StronglySorted before l -> (forall r, r ∈ l -> region_ok r) -> l !! i = Some r -> r.2 <= s -> (i < region_index s l)%nat.
Proof.
  intros Hs Hok Hi Hr. destruct (Nat.lt_ge_cases i (region_index s l)) as [|Hge]; [done|]. exfalso.
  assert (is_Some (l !! region_index s l)) as [r' Hr'] by (apply lookup_lt_is_Some; apply lookup_lt_Some in Hi; lia). pose proof (region_index_at s l r' Hr') as Hlt.
  destruct (decide (region_index s l = i)) as [E|Hne]; [rewrite E in Hr'; assert (r' = r) by congruence; subst; lia|].
  rewrite <- (take_drop_middle l _ _ Hr') in Hs. apply strongly_sorted_app in Hs as (_ & [_ Hd]%sorted_cons & _).
  assert (r ∈ drop (S (region_index s l)) l) as Hin by (apply list_elem_of_lookup; exists (i - S (region_index s l))%nat; rewrite lookup_drop; by replace (S (region_index s l) + (i - S (region_index s l)))%nat with i by lia).
  specialize (Hd r Hin). unfold before in Hd. destruct (Hok r ltac:(by eapply list_elem_of_lookup_2)). lia.
Qed.

(** A region put where it belongs. *)
Lemma insert_region s e l :
  StronglySorted before l -> (forall r, r ∈ l -> region_ok r) -> s < e -> match l !! region_index s l with Some (s', _) => s' <? e | None => false end = false ->
  StronglySorted before (take (region_index s l) l ++ (s, e) :: drop (region_index s l) l) /\ (forall i, s <= i < e -> ~ free_mfn l i).
Proof.
  intros Hs Hok Hse Hc. set (k := region_index s l) in *. pose proof Hs as Hs'. rewrite <- (take_drop k l) in Hs'. apply strongly_sorted_app in Hs' as (S1 & S2 & S12).
  assert (forall r, r ∈ drop k l -> e <= r.1) as Hafter.
  { intros r Hr. destruct (l !! k) as [[s' e']|] eqn:Hk; [|apply lookup_ge_None in Hk; rewrite drop_ge in Hr by done; by apply not_elem_of_nil in Hr].
    apply Z.ltb_ge in Hc. rewrite (drop_S _ _ _ Hk) in S2, Hr. apply sorted_cons in S2 as [_ Hd]. apply elem_of_cons in Hr as [->|Hr]; [done|].
    specialize (Hd r Hr). unfold before in Hd. simpl in Hd. destruct (Hok (s', e') ltac:(by eapply list_elem_of_lookup_2)). simpl in *. lia. }
  split.
  - apply strongly_sorted_app. split_and!; [done|apply sorted_cons; split; [done|exact Hafter]|]. intros x y Hx [->|Hy]%elem_of_cons; [by eapply region_index_before|by apply S12].
  - intros i Hi (r & Hr & Hin). rewrite <- (take_drop k l) in Hr. apply elem_of_app in Hr as [Hr|Hr]; [apply region_index_before in Hr; lia|apply Hafter in Hr; lia].
Qed.

(** A region made smaller. *)
Lemma shrink_region l i rs re a b :
  StronglySorted before l -> (forall r, r ∈ l -> region_ok r) -> l !! i = Some (rs, re) -> rs <= a <= b -> b <= re ->
  StronglySorted before (<[i := (a, b)]> l) /\ (forall r, r ∈ <[i := (a, b)]> l -> region_ok r) /\ (forall j, free_mfn (<[i := (a, b)]> l) j <-> free_mfn l j /\ (rs <= j < re -> a <= j < b)).
Proof.
  intros Hs Hok Hi Ha Hb. pose proof (lookup_lt_Some _ _ _ Hi) as Hlt. rewrite insert_take_drop by done. pose proof (take_drop_middle l i _ Hi) as El. rewrite <- El in Hs, Hok.
  apply strongly_sorted_app in Hs as (S1 & [S2 S3]%sorted_cons & S12). destruct (Hok (rs, re) ltac:(apply elem_of_app; right; by left)) as [? ?]. cbn [fst snd] in *.
  split_and!.
  - apply strongly_sorted_app. split_and!; [done| |].
    + apply sorted_cons. split; [done|]. intros y Hy. specialize (S3 y Hy). unfold before in *. simpl in *. lia.
    + intros x y Hx [->|Hy]%elem_of_cons; [|apply S12; [done|by right]]. specialize (S12 x (rs, re) Hx ltac:(by left)). unfold before in *. simpl in *. lia.
  - intros r [Hr|[->|Hr]%elem_of_cons]%elem_of_app; [apply Hok; apply elem_of_app; by left|split; simpl; lia|apply Hok; apply elem_of_app; right; by right].
  - intros j. rewrite <- El at 3. rewrite !free_mfn_app, !free_mfn_cons. cbn [fst snd]. assert (free_mfn (take i l) j -> j < rs) as H1.
    { intros (r & Hr & Hin). specialize (S12 r (rs, re) Hr ltac:(by left)). unfold before in S12. simpl in S12. lia. }
    assert (free_mfn (drop (S i) l) j -> re <= j) as H2 by (intros (r & Hr & Hin); specialize (S3 r Hr); unfold before in S3; simpl in S3; lia).
    split.
    + intros [Hj|[Hj|Hj]]; (split; [|intros Hin]); [by left|specialize (H1 Hj); lia|right; left; lia|lia|by right; right|specialize (H2 Hj); lia].
    + intros [[Hj|[Hj|Hj]] Hk]; [by left|right; left; by apply Hk|by right; right].
Qed.

(** ** Operations *)

Definition panics (e : error) : Prop := e = Abort.

(** No region is in the way and there is room for one more. *)
Definition addable (b : bootmem) (s e : Z) : Prop := (forall r, r ∈ bootmem_region_list b -> r.2 <= s \/ e <= r.1) /\ (length (bootmem_region_list b) < MAX_REGIONS)%nat.

Record added (s e : Z) (b b' : bootmem) : Prop := Added {
  ad_ok : boot_ok b';
  ad_first : first_valid_mfn b' = first_valid_mfn b;
  ad_list : list_mfn b' = match list_mfn b with Some m => Some m | None => if s <? e then Some s else None end;
  ad_new i : s <= i < e -> ~ free_page b i;
  ad_free i : free_page b' i <-> free_page b i \/ (s <= i < e /\ list_mfn b' <> Some i);
  ad_regions : is_Some (list_mfn b) -> s < e ->
    bootmem_region_list b' = take (region_index s (bootmem_region_list b)) (bootmem_region_list b) ++ (s, e) :: drop (region_index s (bootmem_region_list b)) (bootmem_region_list b)
}.

Lemma wp_boot_bug (E : error -> Prop) p (Q : unit -> bootmem -> Prop) b : (p = false \/ E Abort) -> (p = false -> Q tt b) -> wp E (boot_bug_on p) Q b.
Proof. intros HE HQ. unfold boot_bug_on. destruct p; [by destruct HE|wp_step; auto]. Qed.

Lemma added_empty s e b : boot_ok b -> e <= s -> added s e b b.
Proof. intros Hok Hle. split; try done; [destruct (list_mfn b); [done|]; destruct (Z.ltb_spec s e); [lia|done]|lia|intros; split; [tauto|intros [?|?]; [done|lia]]|lia]. Qed.

(** The list of the regions is in a page of its own already. *)
Lemma region_add_listed (E : error -> Prop) b m s e :
  boot_ok b -> list_mfn b = Some m -> 0 <= s -> e < 2 ^ 64 -> ~ (s <= m < e) -> (E Abort \/ (s < e -> addable b s e)) -> wp E (bootmem_region_add s e) (fun _ b' => added s e b b') b.
Proof.
  intros Hok Hm Hs He Hlist HE. unfold bootmem_region_add. wp_step. wp_step. change (id b) with b. rewrite Hm, bool_decide_false by done. cbn [andb]. unfold when. wp_step. wp_step.
  destruct (Z.leb_spec e s) as [Hle|Hlt]; [wp_step; by apply added_empty|]. destruct Hok as [B1 B2 B3 B4 B5]. set (l := bootmem_region_list b) in *.
  wp_step. apply wp_boot_bug.
  { destruct HE as [HE|HE]; [by right|left]. destruct (HE Hlt) as [Hr _]. fold l in Hr. destruct (l !! region_index s l) as [[s' e']|] eqn:Hi; [|done]. pose proof (region_index_at _ _ _ Hi) as Hat. simpl in Hat.
    destruct (Hr (s', e') ltac:(by eapply list_elem_of_lookup_2)) as [?|?]; simpl in *; [lia|]. apply Z.ltb_ge. lia. }
  intros Hc. wp_step. apply wp_boot_bug. { destruct HE as [HE|HE]; [by right|left]. destruct (HE Hlt) as [_ Hr]. fold l in Hr. apply bool_decide_false. lia. }
  intros Hlen%bool_decide_eq_false. destruct (insert_region s e l B1 B2 Hlt Hc) as [S1 Hnew]. wp_step. set (l' := take _ l ++ _).
  assert (forall i, free_mfn l' i <-> free_mfn l i \/ s <= i < e) as Hfree.
  { intros i. assert (free_mfn l i <-> free_mfn (take (region_index s l) l) i \/ free_mfn (drop (region_index s l) l) i) as El by by rewrite <- free_mfn_app, take_drop.
    unfold l'. rewrite free_mfn_app, free_mfn_cons, El. simpl. tauto. }
  split; try done.
  - split; simpl; try done.
    + intros r. fold l'. unfold l'. rewrite elem_of_app, elem_of_cons. intros [Hr|[->|Hr]]; [|split; simpl; lia|]; apply B2; rewrite <- (take_drop (region_index s l) l); apply elem_of_app; tauto.
    + unfold l'. rewrite length_app. simpl. rewrite length_take, length_drop. lia.
    + congruence.
    + intros m' Hm'. unfold free_page. simpl. rewrite Hfree. intros [?|?]; [by eapply B5|]. assert (m' = m) as -> by congruence. done.
  - simpl. by rewrite Hm.
  - intros i. unfold free_page. simpl. rewrite Hfree. fold l. split; [|tauto]. intros [?|?]; [by left|right]. split; [done|]. intros Hmi. assert (m = i) as -> by congruence. done.
Qed.

(** The first region gives the page of the list. *)
Lemma region_add_first b s e : list_mfn b = None -> s < e -> bootmem_region_add s e b = bootmem_region_add (s + 1) e (set_list_mfn (Some s) b).
Proof.
  intros Hn Hlt. apply Z.ltb_lt in Hlt. unfold bootmem_region_add, bind, gets, when, modify, id. cbn [list_mfn set_list_mfn bootmem_region_list]. rewrite Hn, Hlt, (bool_decide_true (None = None)), (bool_decide_false (Some s = None)) by done. reflexivity.
Qed.

Lemma region_add_spec (E : error -> Prop) b s e :
  boot_ok b -> 0 <= s -> e < 2 ^ 64 -> (forall m, list_mfn b = Some m -> ~ (s <= m < e)) -> (E Abort \/ (s < e -> addable b s e)) -> wp E (bootmem_region_add s e) (fun _ b' => added s e b b') b.
Proof.
  intros Hok Hs He Hlist HE. destruct (list_mfn b) as [m|] eqn:Hm; [by eapply region_add_listed; eauto|]. pose proof (bo_none _ Hok Hm) as El.
  destruct (Z.lt_ge_cases s e) as [Hlt|Hge].
  - unfold wp. rewrite region_add_first by done. fold (wp E (bootmem_region_add (s + 1) e) (fun _ b' => added s e b b') (set_list_mfn (Some s) b)).
    eapply wp_mono; [apply (region_add_listed E (set_list_mfn (Some s) b) s); simpl; try done|].
    + destruct Hok as [B1 B2 B3 B4 B5]. split; try done. intros m _. unfold free_page. simpl. rewrite El. apply free_mfn_nil.
    + lia.
    + lia.
    + right. intros _. unfold addable. simpl. rewrite El. split; [intros r Hr; by apply not_elem_of_nil in Hr|simpl; unfold MAX_REGIONS; lia].
    + intros [] b' [A1 A2 A3 A4 A5 A6]. split; try done.
      * rewrite A3, Hm. simpl. by apply Z.ltb_lt in Hlt as ->.
      * intros i _. unfold free_page. rewrite El. apply free_mfn_nil.
      * intros i. rewrite A5, A3. unfold free_page. simpl. split; (intros [?|[? ?]]; [by left|right]); (split; [|done]); [lia|]. assert (i <> s) by congruence. lia.
      * rewrite Hm. by intros [? ?].
  - unfold bootmem_region_add. wp_step. wp_step. change (id b) with b. destruct (Z.ltb_spec s e) as [|_]; [lia|]. rewrite andb_false_r. unfold when. wp_step. wp_step.
    destruct (Z.leb_spec e s); [|lia]. wp_step. by apply added_empty.
Qed.

(** A region of the list made smaller. *)
Lemma shrink_ok b i rs re x y :
  boot_ok b -> bootmem_region_list b !! i = Some (rs, re) -> rs <= x <= y -> y <= re ->
  boot_ok (set_regions (<[i := (x, y)]> (bootmem_region_list b)) b) /\
  forall j, free_page (set_regions (<[i := (x, y)]> (bootmem_region_list b)) b) j <-> free_page b j /\ (rs <= j < re -> x <= j < y).
Proof.
  intros [B1 B2 B3 B4 B5] Hi Hx Hy. destruct (shrink_region _ _ _ _ x y B1 B2 Hi Hx Hy) as (S1 & S2 & S3). split; [|done]. split; simpl; try done.
  - by rewrite length_insert.
  - intros Hn. rewrite (B4 Hn) in Hi. done.
  - intros m Hm. unfold free_page. simpl. rewrite S3. intros [? _]. by eapply B5.
Qed.

Definition zapped (s e : Z) (b b' : bootmem) : Prop :=
  boot_ok b' /\ list_mfn b' = list_mfn b /\ first_valid_mfn b' = first_valid_mfn b /\ forall j, free_page b' j <-> free_page b j /\ ~ (s <= j < e).

Definition clear_upto (s e : Z) (i : nat) (b : bootmem) : Prop := forall r, r ∈ take i (bootmem_region_list b) -> forall j, r.1 <= j < r.2 -> ~ (s <= j < e).

(** All other regions are outside. *)
Lemma zapped_rest s e i b :
  boot_ok b -> clear_upto s e i b -> (forall r, r ∈ drop i (bootmem_region_list b) -> e <= r.1) -> zapped s e b b.
Proof.
  intros Hok Hc Hd. split_and!; try done. intros j. split; [|tauto]. intros Hf. split; [done|]. destruct Hf as (r & Hr & Hj). rewrite <- (take_drop i) in Hr.
  apply elem_of_app in Hr as [Hr|Hr]; [by eapply Hc|]. specialize (Hd r Hr). lia.
Qed.

Lemma clear_step s e i b r : clear_upto s e i b -> bootmem_region_list b !! i = Some r -> (forall j, r.1 <= j < r.2 -> ~ (s <= j < e)) -> clear_upto s e (S i) b.
Proof. intros Hc Hi Hr q Hq. rewrite (take_S_r _ _ _ Hi) in Hq. apply elem_of_app in Hq as [Hq|Hq%list_elem_of_singleton]; [exact (Hc q Hq)|subst q; exact Hr]. Qed.

Lemma clear_shrink s e i b r : clear_upto s e i b -> (i < length (bootmem_region_list b))%nat -> (forall j, r.1 <= j < r.2 -> ~ (s <= j < e)) ->
  clear_upto s e (S i) (set_regions (<[i := r]> (bootmem_region_list b)) b).
Proof.
  intros Hc Hi Hr. eapply clear_step; [|simpl; by apply list_lookup_insert_eq|done]. intros q Hq. cbn [set_regions bootmem_region_list] in Hq. rewrite take_insert_ge in Hq by lia. exact (Hc q Hq).
Qed.

(** The pages [s .. e-1] are cut out of the region [rs .. re-1]. *)
Lemma cut_region (E : error -> Prop) s e i rs re b :
  boot_ok b -> bootmem_region_list b !! i = Some (rs, re) -> rs <= s <= e -> e <= re -> (E Abort \/ (length (bootmem_region_list b) < MAX_REGIONS)%nat) ->
  wp E (modify (set_regions (<[i := (rs, s)]> (bootmem_region_list b))) ;;; bootmem_region_add e re)
    (fun _ b' => boot_ok b' /\ list_mfn b' = list_mfn b /\ first_valid_mfn b' = first_valid_mfn b /\ (forall j, free_page b' j <-> free_page b j /\ (rs <= j < re -> ~ (s <= j < e))) /\
      (e < re -> take (S i) (bootmem_region_list b') = take (S i) (<[i := (rs, s)]> (bootmem_region_list b)))) b.
Proof.
  intros Hok Hi Hrs Hre HE. destruct (bo_regions _ Hok (rs, re) ltac:(by eapply list_elem_of_lookup_2)) as [Hr1 Hr2]. simpl in Hr1, Hr2.
  destruct (shrink_ok b i rs re rs s Hok Hi ltac:(lia) ltac:(lia)) as [Hok1 Hf1]. pose proof (lookup_lt_Some _ _ _ Hi) as Hlt.
  destruct (list_mfn b) as [m|] eqn:Hm; [|by rewrite (bo_none _ Hok Hm) in Hi]. wp_step. wp_step. set (b1 := set_regions _ b) in *.
  assert (length (bootmem_region_list b1) = length (bootmem_region_list b)) as EL by apply length_insert.
  assert (bootmem_region_list b1 !! i = Some (rs, s)) as Hi1 by by apply list_lookup_insert_eq.
  eapply wp_mono; [apply (region_add_spec E b1); [done|lia|lia| |]|].
  - intros m' Hm' Hin. simpl in Hm'. apply (bo_list _ Hok m'); [congruence|]. exists (rs, re). split; [by eapply list_elem_of_lookup_2|simpl; lia].
  - destruct HE as [HE|HE]; [by left|right]. intros Her. split; [|lia]. intros r Hr. destruct (decide (r.2 <= e)) as [|Hne]; [by left|right].
    pose proof (bo_sorted _ Hok) as HS. rewrite <- (take_drop_middle _ _ _ Hi) in HS. apply strongly_sorted_app in HS as (_ & [_ S3]%sorted_cons & S12).
    simpl in Hr. rewrite insert_take_drop in Hr by done. apply elem_of_app in Hr as [Hr|[->|Hr]%elem_of_cons]; [|simpl in Hne; lia|exact (S3 r Hr)].
    specialize (S12 r (rs, re) Hr ltac:(by left)). unfold before in S12. simpl in S12. lia.
  - intros [] b2 [A1 A2 A3 A4 A5 A6]. split_and!; try done.
    + rewrite A3. simpl. by rewrite Hm.
    + intros j. rewrite A5, Hf1, A3. simpl. rewrite Hm. assert (rs <= j < re -> free_page b j) as Hin by (intros; exists (rs, re); split; [by eapply list_elem_of_lookup_2|done]).
      assert (e <= j < re -> Some m <> Some j) as Hmj by (intros Hj [= ->]; apply (bo_list _ Hok j Hm); apply Hin; lia).
      split; [intros [[Hf Hj]|[Hj _]]; (split; [|intros Hr]); [done|specialize (Hj Hr); lia|apply Hin; lia|lia]|]. intros [Hf Hj]. destruct (decide (e <= j < re)); [right; auto|left]. split; [done|]. intros Hr. specialize (Hj Hr). lia.
    + intros Her. assert (i < region_index e (bootmem_region_list b1))%nat as Hk by (apply (region_index_past e _ i (rs, s)); [apply Hok1|apply Hok1|done|simpl; lia]).
      rewrite (A6 ltac:(simpl; by rewrite Hm) Her), take_app_le by (rewrite length_take, EL; lia). by rewrite take_take, Nat.min_l by lia.
Qed.

Lemma zapped_part s e b b1 b2 rs re :
  list_mfn b1 = list_mfn b -> first_valid_mfn b1 = first_valid_mfn b -> (forall j, free_page b1 j <-> free_page b j /\ (rs <= j < re -> ~ (s <= j < e))) -> zapped s e b1 b2 -> zapped s e b b2.
Proof. intros El Ef Hf (Z1 & Z2 & Z3 & Z4). split_and!; [done|congruence|congruence|]. intros j. rewrite Z4, Hf. tauto. Qed.

Lemma zap_from_spec fuel i s e b :
  boot_ok b -> 0 <= s -> e < 2 ^ 64 -> e = 0 \/ s <= e -> (MAX_REGIONS + 2 <= fuel + i)%nat -> (i <= S MAX_REGIONS)%nat -> clear_upto s e i b ->
  wp panics (zap_from fuel i s e) (fun _ b' => zapped s e b b') b.
Proof.
  intros Hok Hs He Hse Hfuel Hi Hc. revert i b Hok Hfuel Hi Hc. induction fuel as [|fuel IH]; intros i b Hok Hfuel Hi Hc; [lia|].
  cbn [zap_from]. wp_step. wp_step. destruct (bootmem_region_list b !! i) as [[rs re]|] eqn:Hr.
  2:{ wp_step. apply (zapped_rest s e i); [done|done|]. intros r Hin. apply lookup_ge_None in Hr. rewrite drop_ge in Hin by done. by apply not_elem_of_nil in Hin. }
  destruct (bo_regions _ Hok (rs, re) ltac:(by eapply list_elem_of_lookup_2)) as [Hr1 Hr2]. simpl in Hr1, Hr2. pose proof (lookup_lt_Some _ _ _ Hr) as Hlt. pose proof (bo_room _ Hok) as Hroom.
  destruct (Z.leb_spec e rs) as [Hle|Hgt].
  { wp_step. apply (zapped_rest s e i); [done|done|]. intros r Hin. pose proof (bo_sorted _ Hok) as HS. rewrite <- (take_drop_middle _ _ _ Hr) in HS.
    apply strongly_sorted_app in HS as (_ & [_ HS]%sorted_cons & _). rewrite (drop_S _ _ _ Hr) in Hin. apply elem_of_cons in Hin as [->|Hin]; [done|]. specialize (HS r Hin). unfold before in HS. simpl in HS. lia. }
  destruct (Z.leb_spec re s) as [Hle|Hgt']; [apply IH; [done|lia|lia|]; eapply clear_step; [done|done|]; simpl; lia|].
  assert (s <= e) as Hse' by lia. destruct (Z.leb_spec s rs) as [Hsr|Hsr]; [|destruct (Z.leb_spec re e) as [Hre|Hre]].
  - wp_step. wp_step. destruct (shrink_ok b i rs re (Z.min e re) re Hok Hr ltac:(lia) ltac:(lia)) as [Hok1 Hf1].
    eapply wp_mono; [apply IH; [done|lia|lia|apply clear_shrink; [done|done|simpl; lia]]|]. intros [] b2 HZ. eapply (zapped_part s e b _ b2 rs re); [| |intros j; rewrite Hf1|exact HZ]; [done|done|].
    split; intros [Hf Hj]; (split; [done|]); intros Hin; specialize (Hj Hin); lia.
  - wp_step. wp_step. destruct (shrink_ok b i rs re rs s Hok Hr ltac:(lia) ltac:(lia)) as [Hok1 Hf1].
    eapply wp_mono; [apply IH; [done|lia|lia|apply clear_shrink; [done|done|simpl; lia]]|]. intros [] b2 HZ. eapply (zapped_part s e b _ b2 rs re); [| |intros j; rewrite Hf1|exact HZ]; [done|done|].
    split; intros [Hf Hj]; (split; [done|]); intros Hin; specialize (Hj Hin); lia.
  - wp_step. eapply wp_mono; [apply (cut_region panics s e i rs re); [done|done|lia|lia|by left]|]. intros [] b1 (K1 & K2 & K3 & K4 & K5). eapply wp_mono; [apply IH; [done|lia|lia|]|].
    { unfold clear_upto. rewrite (K5 Hre). apply (clear_shrink s e i b (rs, s)); [done|done|simpl; lia]. }
    intros [] b2 HZ. by eapply zapped_part.
Qed.

Lemma region_zap_spec s e b :
  boot_ok b -> 0 <= s -> e < 2 ^ 64 -> e = 0 \/ s <= e -> wp panics (bootmem_region_zap s e) (fun _ b' => zapped s e b b') b.
Proof. intros Hok Hs He Hse. apply zap_from_spec; [done|done|done|done|unfold zap_fuel; lia|lia|]. intros r Hr. by apply not_elem_of_nil in Hr. Qed.

Record boot_block (nr a : Z) (b : bootmem) (pg : Z) (b' : bootmem) : Prop := BootBlock {
  bb_ok : boot_ok b';
  bb_aligned : (2 ^ a | pg);
  bb_free i : pg <= i < pg + nr -> free_page b i;
  bb_rest j : free_page b' j <-> free_page b j /\ ~ (pg <= j < pg + nr);
  bb_list : list_mfn b' = list_mfn b;
  bb_first : first_valid_mfn b' = first_valid_mfn b
}.

(** A region with an aligned run of [nr] pages. *)
Definition has_room (nr a : Z) (r : Z * Z) : Prop := exists p, (2 ^ a | p) /\ r.1 <= p /\ p + nr <= r.2.

Lemma align_down x a : 0 <= a -> 0 <= x -> Z.ldiff x (2 ^ a - 1) = 2 ^ a * (x / 2 ^ a).
Proof.
  intros Ha Hx. replace (2 ^ a - 1) with (Z.ones a) by (rewrite Z.ones_equiv; lia). rewrite Z.ldiff_ones_r, Z.shiftr_div_pow2, Z.shiftl_mul_pow2 by lia. lia.
Qed.

Lemma alloc_boot_from_spec (E : error -> Prop) n nr a b :
  boot_ok b -> 0 <= a -> 0 <= nr -> (n <= length (bootmem_region_list b))%nat -> (forall r, r ∈ bootmem_region_list b -> nr <= r.2) ->
  (E Abort \/ ((length (bootmem_region_list b) < MAX_REGIONS)%nat /\ exists r, r ∈ take n (bootmem_region_list b) /\ has_room nr a r)) ->
  wp E (alloc_boot_from n nr (2 ^ a)) (fun pg b' => boot_block nr a b pg b') b.
Proof.
  intros Hok Ha Hnr Hn Hwrap HE. induction n as [|i IH]; cbn [alloc_boot_from].
  - destruct HE as [HE|(_ & r & Hr & _)]; [done|by apply not_elem_of_nil in Hr].
  - assert (is_Some (bootmem_region_list b !! i)) as [[rs re] Hi] by (apply lookup_lt_is_Some; lia). wp_step. wp_step. wp_step. eapply wp_of_option; [done|].
    assert ((rs, re) ∈ bootmem_region_list b) as Hin by by eapply list_elem_of_lookup_2. destruct (bo_regions _ Hok _ Hin) as [Hr1 Hr2]. pose proof (Hwrap _ Hin) as Hw. simpl in Hr1, Hr2, Hw.
    assert (u64 (re - nr) = re - nr) as -> by (unfold u64; apply Z.mod_small; change 18446744073709551616 with (2 ^ 64); lia).
    rewrite align_down by lia. set (q := (re - nr) / 2 ^ a). assert (0 < 2 ^ a) as Hpos by (apply Z.pow_pos_nonneg; lia).
    assert (2 ^ a * q <= re - nr < 2 ^ a * (q + 1)) as Hq by (unfold q; pose proof (Z.mul_div_le (re - nr) (2 ^ a)); pose proof (Z.mul_succ_div_gt (re - nr) (2 ^ a)); lia).
    destruct (Z.ltb_spec (2 ^ a * q) rs) as [Hlt|Hge].
    + apply IH; [lia|]. destruct HE as [HE|(Hlen & r & Hr & p & [c Hp] & Hp1 & Hp2)]; [by left|right]. split; [done|]. exists r. rewrite (take_S_r _ _ _ Hi) in Hr. apply elem_of_app in Hr as [Hr|Hr%list_elem_of_singleton].
      * split; [done|]. exists p. split_and!; [by exists c|done|done].
      * exfalso. subst r. simpl in Hp1, Hp2. subst p. assert (c < q + 1) by nia. nia.
    + assert (u64 (2 ^ a * q + nr) = 2 ^ a * q + nr) as -> by (unfold u64; apply Z.mod_small; change 18446744073709551616 with (2 ^ 64); lia).
      assert (forall i0, 2 ^ a * q <= i0 < 2 ^ a * q + nr -> free_page b i0) as Hfree by (intros j Hj; exists (rs, re); simpl; split; [done|lia]).
      apply wp_bind_assoc, wp_bind.
      eapply wp_mono; [apply (cut_region E (2 ^ a * q) (2 ^ a * q + nr) i rs re); [done|done|lia|lia|destruct HE as [?|[? _]]; [by left|by right]]|].
      intros [] b' (K1 & K2 & K3 & K4 & _). wp_step. split; try done; [exists q; lia|]. intros j. rewrite K4. split; intros [? Hk]; (split; [done|]); [intros Hj; apply Hk; lia|tauto].
Qed.

(** ** Reading the list of bad pages *)

Lemma strtoul_digits_spec p base acc : 0 <= acc < 2 ^ 64 -> 0 <= (strtoul_digits p base acc).1 < 2 ^ 64 /\ (String.length (strtoul_digits p base acc).2 <= String.length p)%nat.
Proof.
  revert acc. induction p as [|c p IH]; intros acc Hacc; simpl; [done|]. destruct (isxdigit (code c) && _); [|done].
  destruct (IH (u64 (acc * base + digit_value (code c)))) as [? ?]; [unfold u64; change 18446744073709551616 with (2 ^ 64); apply Z.mod_pos_bound; lia|]. split; [done|lia].
Qed.

Lemma tail_length p : (String.length (tail p) <= String.length p)%nat.
Proof. destruct p; simpl; lia. Qed.

Lemma simple_strtoul_spec p base : 0 <= (simple_strtoul p base).1 < 2 ^ 64 /\ (String.length (simple_strtoul p base).2 <= String.length p)%nat.
Proof.
  assert (forall q b, (String.length q <= String.length p)%nat -> 0 <= (strtoul_digits q b 0).1 < 2 ^ 64 /\ (String.length (strtoul_digits q b 0).2 <= String.length p)%nat) as Hd.
  { intros q b Hq. destruct (strtoul_digits_spec q b 0 ltac:(lia)) as [? ?]. split; [done|lia]. }
  pose proof (tail_length p). pose proof (tail_length (tail p)). unfold simple_strtoul. repeat case_match; apply Hd; lia.
Qed.

(** The ranges of pages the list names. *)
Fixpoint bad_ranges (fuel : nat) (p : string) : list (Z * Z) :=
  match fuel with
  | O => []
  | S fuel =>
      match p with
      | EmptyString => []
      | _ =>
          let '(bad_spfn, p) := simple_strtoul p 0 in
          let '(bad_epfn, p) :=
            (if peek p =? 45 then let '(e, p) := simple_strtoul (tail p) 0 in (if e <? bad_spfn then bad_spfn else e, p) else (bad_spfn, p)) in
          if (peek p =? 44) || bool_decide (p = EmptyString) then (bad_spfn, u64 (bad_epfn + 1)) :: bad_ranges fuel (tail p) else []
      end
  end.

Definition bad_pages (p : string) : list (Z * Z) := bad_ranges (S (String.length p)) p.

Lemma zapped_trans s e l b b1 b2 : zapped s e b b1 -> (boot_ok b2 /\ list_mfn b2 = list_mfn b1 /\ first_valid_mfn b2 = first_valid_mfn b1 /\ forall j, free_page b2 j <-> free_page b1 j /\ ~ free_mfn l j) ->
  boot_ok b2 /\ list_mfn b2 = list_mfn b /\ first_valid_mfn b2 = first_valid_mfn b /\ forall j, free_page b2 j <-> free_page b j /\ ~ free_mfn ((s, e) :: l) j.
Proof. intros (Z1 & Z2 & Z3 & Z4) (Y1 & Y2 & Y3 & Y4). split_and!; [done|congruence|congruence|]. intros j. rewrite Y4, Z4, free_mfn_cons. simpl. tauto. Qed.

Lemma zap_bad_spec fuel p b :
  boot_ok b -> (String.length p < fuel)%nat ->
  wp panics (zap_bad fuel p) (fun _ b' => boot_ok b' /\ list_mfn b' = list_mfn b /\ first_valid_mfn b' = first_valid_mfn b /\ forall j, free_page b' j <-> free_page b j /\ ~ free_mfn (bad_ranges fuel p) j) b.
Proof.
  revert p b. induction fuel as [|fuel IH]; intros p b Hok Hlen; [lia|]. cbn [zap_bad bad_ranges].
  assert (forall b, boot_ok b -> boot_ok b /\ list_mfn b = list_mfn b /\ first_valid_mfn b = first_valid_mfn b /\ forall j, free_page b j <-> free_page b j /\ ~ free_mfn [] j) as Hnone.
  { intros b' Hok'. split_and!; try done. intros j. pose proof (free_mfn_nil j). tauto. }
  destruct p as [|c0 p0] eqn:Ep; [wp_step; by apply Hnone|]. assert (1 <= String.length p)%nat as Hne by (rewrite Ep; simpl; lia). rewrite <- Ep in *. clear Ep c0 p0.
  destruct (simple_strtoul_spec p 0) as [Hs1 Hl1]. destruct (simple_strtoul p 0) as [s q]. cbn [fst snd] in Hs1, Hl1.
  set (eq := if peek q =? 45 then _ else _). assert (s <= eq.1 < 2 ^ 64 /\ (String.length eq.2 <= String.length q)%nat) as [He Hl2].
  { unfold eq. destruct (peek q =? 45); [|simpl; lia]. destruct (simple_strtoul_spec (tail q) 0) as [He2 Hl2]. destruct (simple_strtoul (tail q) 0) as [e q2]. cbn [fst snd] in *. pose proof (tail_length q).
    destruct (Z.ltb_spec e s); simpl; lia. }
  destruct eq as [e q2]. cbn [fst snd] in *. destruct ((peek q2 =? 44) || bool_decide (q2 = EmptyString)) eqn:Hc; [|wp_step; by apply Hnone].
  wp_step. assert (0 <= u64 (e + 1) < 2 ^ 64 /\ (u64 (e + 1) = 0 \/ s <= u64 (e + 1))) as [Hu1 Hu2].
  { unfold u64. change 18446744073709551616 with (2 ^ 64). split; [apply Z.mod_pos_bound; lia|]. destruct (decide (e + 1 = 2 ^ 64)) as [->|]; [left; by rewrite Z_mod_same_full|right; rewrite Z.mod_small; lia]. }
  eapply wp_mono; [apply region_zap_spec; [done|lia|lia|done]|]. intros [] b1 HZ. eapply wp_mono; [apply IH; [apply HZ|]|intros [] b2; by apply zapped_trans].
  destruct q2 as [|c q2]; simpl in *; lia.
Qed.

(** The page numbers [ps .. pe] of physical addresses, rounded inwards. *)
Definition range_start (ps : Z) : Z := Z.shiftr (round_pgup ps) PAGE_SHIFT.
Definition range_end (pe : Z) : Z := Z.shiftr (round_pgdown pe) PAGE_SHIFT.

Lemma round_shift x : 0 <= x -> Z.shiftr (Z.ldiff x (PAGE_SIZE - 1)) PAGE_SHIFT = x / PAGE_SIZE.
Proof.
  intros Hx. unfold PAGE_SIZE, PAGE_SHIFT. rewrite align_down by lia. rewrite Z.shiftr_div_pow2 by lia. rewrite Z.mul_comm. apply Z.div_mul. lia.
Qed.

Record given (opt_badpage : string) (s e : Z) (b b' : bootmem) : Prop := Given {
  gv_ok : boot_ok b';
  gv_list : list_mfn b' = match list_mfn b with Some m => Some m | None => if s <? e then Some s else None end;
  gv_new i : s <= i < e -> ~ free_page b i;
  gv_free i : free_page b' i <-> (free_page b i \/ (s <= i < e /\ list_mfn b' <> Some i)) /\ (s < e -> ~ free_mfn (bad_pages opt_badpage) i)
}.

Lemma init_boot_spec opt_badpage ps pe b :
  boot_ok b -> 0 <= ps -> ps + PAGE_SIZE <= 2 ^ 64 -> 0 <= pe < 2 ^ 64 -> (forall m, list_mfn b = Some m -> ~ (range_start ps <= m < range_end pe)) ->
  wp panics (init_boot_pages opt_badpage ps pe) (fun _ b' => given opt_badpage (range_start ps) (range_end pe) b b') b.
Proof.
  intros Hok Hps Hps2 Hpe Hlist. unfold init_boot_pages. cbv zeta. fold (range_start ps) (range_end pe). assert (0 < PAGE_SIZE) as HP by done.
  assert (u64 (ps + (PAGE_SIZE - 1)) = ps + (PAGE_SIZE - 1)) as Eu by (unfold u64; apply Z.mod_small; change 18446744073709551616 with (2 ^ 64); lia).
  assert (range_start ps = (ps + (PAGE_SIZE - 1)) / PAGE_SIZE) as Es by (unfold range_start, round_pgup; rewrite Eu, round_shift by lia; done).
  assert (range_end pe = pe / PAGE_SIZE) as Ee by (unfold range_end, round_pgdown; rewrite round_shift by lia; done).
  assert (0 <= range_start ps /\ range_end pe < 2 ^ 64) as [Hs0 He0].
  { rewrite Es, Ee. split; [apply Z.div_pos; lia|]. apply Z.div_lt_upper_bound; [done|]. unfold PAGE_SIZE, PAGE_SHIFT in *. lia. }
  assert (round_pgup ps = PAGE_SIZE * range_start ps) as Rs by (rewrite Es; unfold round_pgup; rewrite Eu; apply (align_down _ PAGE_SHIFT); [done|lia]).
  assert (round_pgdown pe = PAGE_SIZE * range_end pe) as Re by (rewrite Ee; unfold round_pgdown; apply (align_down _ PAGE_SHIFT); [done|lia]).
  rewrite Rs, Re. assert (forall x y, PAGE_SIZE * x < PAGE_SIZE * y <-> x < y) as Hcmp by (intros x y; unfold PAGE_SIZE, PAGE_SHIFT; lia).
  destruct (Z.leb_spec (PAGE_SIZE * range_end pe) (PAGE_SIZE * range_start ps)) as [Hle|Hlt].
  - wp_step. assert (range_end pe <= range_start ps) by (apply Z.nlt_ge; rewrite <- Hcmp; lia). split; [done| |lia|].
    + destruct (list_mfn b); [done|]. destruct (Z.ltb_spec (range_start ps) (range_end pe)); [lia|done].
    + intros i. split; [intros; split; [by left|lia]|intros [[?|?] _]; [done|lia]].
  - apply (proj1 (Hcmp _ _)) in Hlt. wp_step. wp_step. wp_step. set (b1 := set_first_valid _ b). assert (boot_ok b1) as Hok1 by (destruct Hok; split; done).
    eapply wp_mono; [apply (region_add_spec panics b1); [done|done|done|exact Hlist|by left]|]. intros [] b2 [A1 A2 A3 A4 A5 _].
    eapply wp_mono; [apply zap_bad_spec; [done|lia]|]. intros [] b3 (Y1 & Y2 & Y3 & Y4).
    split; [done|by rewrite Y2, A3|exact A4|]. intros i. rewrite Y4, A5, Y2. fold (bad_pages opt_badpage). change (free_page b1 i) with (free_page b i). split; intros [? ?]; split; auto.
Qed.

(** ** Boot *)

Section Boot.
(** The list of bad pages is that of the command line. *)
Variable opt_badpage : string.

Definition in_run (r : Z * Z) (i : Z) : Prop := r.1 <= i < r.1 + r.2.

(** The memory map gives each range once; the blocks taken so far are on record. *)
Inductive boot_step : bootmem * list (Z * Z) -> bootmem * list (Z * Z) -> Prop :=
  | boot_give b out ps pe b' :
      0 <= ps -> ps + PAGE_SIZE <= 2 ^ 64 -> 0 <= pe < 2 ^ 64 ->
      (forall i, range_start ps <= i < range_end pe -> list_mfn b <> Some i /\ forall r, r ∈ out -> ~ in_run r i) ->
      init_boot_pages opt_badpage ps pe b = Ok (tt, b') -> boot_step (b, out) (b', out)
  | boot_take b out nr a pg b' :
      0 <= nr -> 0 <= a -> (forall r, r ∈ bootmem_region_list b -> nr <= r.2) ->
      alloc_boot_pages nr (2 ^ a) b = Ok (pg, b') -> boot_step (b, out) (b', (pg, nr) :: out).

Record boot_inv (st : bootmem * list (Z * Z)) : Prop := BootInv {
  bi_ok : boot_ok st.1;
  bi_good i : free_page st.1 i -> ~ free_mfn (bad_pages opt_badpage) i;
  bi_out r i : r ∈ st.2 -> in_run r i -> ~ free_page st.1 i /\ list_mfn st.1 <> Some i /\ ~ free_mfn (bad_pages opt_badpage) i;
  bi_apart k1 k2 r1 r2 i : st.2 !! k1 = Some r1 -> st.2 !! k2 = Some r2 -> in_run r1 i -> in_run r2 i -> k1 = k2
}.

Lemma wp_run {S A} (E : error -> Prop) (m : M S A) (Q : A -> S -> Prop) s a s' : wp E m Q s -> m s = Ok (a, s') -> Q a s'.
Proof. unfold wp. intros Hw E0. by rewrite E0 in Hw. Qed.

Lemma boot_step_inv st st' : boot_inv st -> boot_step st st' -> boot_inv st'.
Proof.
  intros [I1 I2 I3 I4] Hs. destruct Hs as [b out ps pe b' H1 H2 H3 Hnew Hrun|b out nr a pg b' Hnr Ha Hw Hrun]; cbn [fst snd] in *.
  - pose proof (wp_run _ _ _ _ _ _ (init_boot_spec opt_badpage ps pe b I1 H1 H2 H3 ltac:(intros m Hm Hin; by apply (proj1 (Hnew m Hin)))) Hrun) as [G1 G2 G3 G4]. split; cbn [fst snd]; try done.
    + intros i [[Hf|[Hf _]] Hbad]%G4; [by apply I2|apply Hbad; lia].
    + intros r i Hr Hi. destruct (I3 r i Hr Hi) as (J1 & J2 & J3). split_and!; [|intros Hl|done].
      * intros [[?|[Hin _]] _]%G4; [done|]. by apply (proj2 (Hnew i Hin) r).
      * rewrite G2 in Hl. destruct (list_mfn b) as [m|]; [done|]. destruct (Z.ltb_spec (range_start ps) (range_end pe)); [|done]. injection Hl as Hl. apply (proj2 (Hnew i ltac:(lia)) r Hr Hi).
  - unfold alloc_boot_pages in Hrun. cbn [bind gets] in Hrun.
    pose proof (wp_run _ _ _ _ _ _ (alloc_boot_from_spec panics _ nr a b I1 Ha Hnr ltac:(done) Hw ltac:(by left)) Hrun) as [K1 K2 K3 K4 K5 K6]. split; cbn [fst snd]; try done.
    + intros i [Hf _]%K4. by apply I2.
    + intros r i [->|Hr]%elem_of_cons Hi; rewrite K4, K5.
      * unfold in_run in Hi. simpl in Hi. pose proof (K3 i Hi) as Hf. split_and!; [tauto| |by apply I2]. intros Hl. by apply (bo_list _ I1 i Hl).
      * destruct (I3 r i Hr Hi) as (J1 & J2 & J3). tauto.
    + intros k1 k2 r1 r2 i. assert (forall k r, out !! k = Some r -> in_run r i -> ~ in_run (pg, nr) i) as Hout.
      { intros k r Hk Hi Hp. destruct (I3 r i ltac:(by eapply list_elem_of_lookup_2) Hi) as (J1 & _). apply J1, K3. exact Hp. }
      destruct k1 as [|k1], k2 as [|k2]; simpl; [done| | |]; intros E1 E2 D1 D2; simplify_eq; [exfalso; by eapply Hout|exfalso; by eapply Hout|f_equal; by eapply I4].
Qed.

Lemma boot_inv_init : boot_inv (bootmem_init, []).
Proof.
  split; [split| | |]; cbn [fst snd bootmem_init bootmem_region_list list_mfn]; try done.
  - apply SSorted_nil.
  - intros r Hr. by apply not_elem_of_nil in Hr.
  - unfold MAX_REGIONS. simpl. lia.
  - intros i Hf. by apply free_mfn_nil in Hf.
  - intros r i Hr. by apply not_elem_of_nil in Hr.
Qed.

Lemma boot_steps_inv st st' : rtc boot_step st st' -> boot_inv st -> boot_inv st'.
Proof. intros Hr. induction Hr as [|x y z Hxy _ IH]; [done|]. intros HI. by eapply IH, boot_step_inv. Qed.

End Boot.

(** ** Examples *)

Definition sample_bad : string := "0x103-0x104,0x110"%string.
Definition boot_ran {A} (m : M bootmem A) (b : bootmem) : bootmem := match m b with Ok (_, b') => b' | Err _ => b end.
(** The pages [0x100 .. 0x11f], of which a block of four is taken. *)
Definition sample_given : bootmem := boot_ran (init_boot_pages sample_bad 0x100000 0x120000) bootmem_init.
Definition sample_cut : bootmem := boot_ran (alloc_boot_pages 4 4) sample_given.

Lemma sample_regions : list_mfn sample_given = Some 256 /\ bootmem_region_list sample_given = [(257, 259); (261, 272); (273, 288)] /\ bootmem_region_list sample_cut = [(257, 259); (261, 272); (273, 284)].
Proof. split_and!; vm_compute; reflexivity. Qed.

Lemma sample_boot_steps : rtc (boot_step sample_bad) (bootmem_init, []) (sample_cut, [(284, 4)]).
Proof.
  eapply rtc_l; [eapply (boot_give sample_bad bootmem_init [] 0x100000 0x120000 sample_given); [done|done|done| |vm_compute; reflexivity]|].
  { intros i _. split; [done|]. intros r Hr. by apply not_elem_of_nil in Hr. }
  apply rtc_once. apply (boot_take sample_bad sample_given [] 4 2 284 sample_cut); [done|done| |vm_compute; reflexivity].
  intros r. destruct sample_regions as (_ & -> & _). intros Hr. repeat (apply elem_of_cons in Hr as [->|Hr]; [simpl; lia|]). by apply not_elem_of_nil in Hr.
Qed.


(** The page that holds the list of the regions is taken before the bad pages are. *)
Lemma bad_first_page : list_mfn (boot_ran (init_boot_pages "0x100"%string 0x100000 0x120000) bootmem_init) = Some 0x100.
Proof. vm_compute. reflexivity. Qed.

(** Page numbers without a prefix are read as decimal numbers, and an item that ends in
    anything else ends the list. *)
Lemma bad_page_unprefixed : bad_pages "3f45"%string = [] /\ bad_pages "0x3f45"%string = [(0x3f45, 0x3f46)] /\ bad_pages "100"%string = [(100, 101)].
Proof. split_and!; vm_compute; reflexivity. Qed.

(** A request larger than the end of a region wraps around: the address is far outside. *)
Lemma alloc_boot_wraps : exists b, alloc_boot_pages 400 1 (Bootmem (Some 1) [(2, 159)] 1) = Ok (2 ^ 64 - 241, b).
Proof. eexists. vm_compute. reflexivity. Qed.
