(* ===== verification/PageInit.v ===== *)
(** * Machine pages: from the boot-time allocator to the heap

    [src/xen/common/page_alloc.c]: the pages that are left when the boot-time allocator
    ends go to the heap, a node's lists are set up when its first page arrives, and the
    threshold of the low-memory warning is chosen. *)

From S2P Require Import Prelude.
From S2P Require Import Xen.
From S2P Require Import PageAlloc.
From S2P Require Import PageFacts.
From S2P Require Import PageCount.
From S2P Require Import PageSearch.
From S2P Require Import PageOps.
From S2P Require Import PageFree.
From S2P Require Import PageDom.
From S2P Require Import BootAlloc.
From S2P Require Import PageMain.

(** ** Orders *)

(** The number of times [n] can be halved. *)
Definition halvings (n : Z) : Z := if n =? 0 then 0 else Z.log2 n + 1.
Definition get_order_from_bytes (size : Z) : Z := halvings (Z.shiftr (u64 (size - 1)) PAGE_SHIFT).
Definition get_order_from_pages (nr_pages : Z) : Z := halvings (u64 (nr_pages - 1)).

Fixpoint trailing_zeros (p : positive) : Z :=
  match p with
  | xO p => 1 + trailing_zeros p
  | _ => 0
  end.
(** The instruction leaves a zero as it is. *)
Definition find_first_set_bit (word : Z) : Z := match word with Zpos p => trailing_zeros p | _ => 0 end.

(** ** A node's lists *)

(** [sizeof] the lists of a node and [sizeof] its counters. *)
Definition HEAP_BYTES : Z := NR_ZONES * (MAX_ORDER + 1) * 16.
Definition AVAIL_BYTES : Z := 8 * NR_ZONES.
Definition node_pages : Z := Z.shiftr (HEAP_BYTES + AVAIL_BYTES + PAGE_SIZE - 1) PAGE_SHIFT.

Definition set_heap_nodes n w := HWorld (pages w) (heap w) n (avail w) (total_avail_pages w) (midsize_alloc_zone_pages w) (page_offlined_list w) (page_broken_list w) (low_mem_virq_high w)
  (low_mem_virq_th w) (low_mem_virq_orig w) (low_mem_virq_th_order w) (hdoms w) (m2p w) (events w).

(** The counters are zero and the lists are empty. *)
Definition clear_node (node : Z) (w : hworld) : hworld :=
  set_counts (filter (fun kv => kv.1.1 <> node) (avail w)) (total_avail_pages w)
    (set_heap (filter (fun kv => kv.1.1.1 <> node) (heap w)) (set_heap_nodes ({[node]} ∪ heap_nodes w) w)).

Section Init.
Context `{HeapEnv}.
(** [directmap_mfns]: the pages below this one are mapped. [xmalloc_fails]: small allocations fail. *)
Context (directmap_mfns : Z) (xmalloc_fails : bool).

(** The pages used for the lists, and whether they are the last ones of the range. *)
Definition init_node_heap (node mfn nr : Z) (use_tail : bool) : M hworld (Z * bool) :=
  let needed := node_pages in
  let! first := gets (fun w => bool_decide (heap_nodes w = ∅)) in
  let! r :=
    (if first : bool then ret (0, use_tail)
     else if use_tail && (needed <=? nr) && (mfn + nr <=? directmap_mfns) then
       event (NodeHeapAt node (mfn + nr - needed)) ;;; ret (needed, use_tail)
     else if (needed <=? nr) && (mfn + needed <=? directmap_mfns) then
       event (NodeHeapAt node mfn) ;;; ret (needed, false)
     else if get_order_from_bytes HEAP_BYTES =? get_order_from_pages needed then
       let! pg := alloc_xenheap_pages (get_order_from_pages needed) 0 in
       match pg with
       | None => fail Abort
       | Some pg => event (NodeHeapAt node pg) ;;; ret (0, use_tail)
       end
     else if xmalloc_fails then fail Abort else ret (0, use_tail)) in
  modify (clear_node node) ;;;
  ret r.

Fixpoint init_heap_loop (fuel : nat) (pg i nr_pages : Z) : M hworld unit :=
  match fuel with
  | O => fail OutOfFuel
  | S fuel =>
      if nr_pages <=? i then ret tt
      else
        let nid := phys_to_nid (pg + i) in
        let! known := gets (fun w => bool_decide (nid ∈ heap_nodes w)) in
        if known : bool then free_heap_pages (pg + i) 0 ;;; init_heap_loop fuel pg (i + 1) nr_pages
        else
          let s := pg + i in
          let e := pg + nr_pages - 1 + 1 in
          let use_tail := (nid =? phys_to_nid (e - 1)) && negb (has_flag s (Z.shiftl 1 MAX_ORDER - 1)) && (find_first_set_bit e <=? find_first_set_bit s) in
          let! r := init_node_heap nid s (nr_pages - i) use_tail in
          let '(n, use_tail) := r in
          if nr_pages <? i + n then fail Abort
          else if negb (n =? 0) && negb use_tail then init_heap_loop fuel pg (i + n) nr_pages
          else if i + n =? nr_pages then ret tt
          else free_heap_pages (pg + i) 0 ;;; init_heap_loop fuel pg (i + 1) (nr_pages - n)
  end.

Definition init_heap_pages (pg nr_pages : Z) : M hworld unit := init_heap_loop (S (Z.to_nat nr_pages)) pg 0 nr_pages.

Definition init_domheap_pages (ps pe : Z) : M hworld unit :=
  let smfn := Z.shiftr (round_pgup ps) PAGE_SHIFT in
  let emfn := Z.shiftr (round_pgdown pe) PAGE_SHIFT in
  init_heap_pages smfn (u64 (emfn - smfn)).

(** ** The end of the boot-time allocator *)

(** The first region of the node of processor 0. *)
Fixpoint first_region (node0 : Z) (l : list (Z * Z)) : option nat :=
  match l with
  | [] => None
  | (s, e) :: l => if (s <? e) && (phys_to_nid s =? node0) then Some O else S <$> first_region node0 l
  end.

Definition init_region (r : Z * Z) : M hworld unit := when (r.1 <? r.2) (init_heap_pages r.1 (r.2 - r.1)).

(** The width of the DMA zone of a machine with several nodes. *)
Definition boot_dma_bitsize (dma_bits num_nodes node0_spanned_pages : Z) : Z :=
  if (dma_bits =? 0) && (1 <? num_nodes) then Z.min (u32 (halvings node0_spanned_pages - 1 + PAGE_SHIFT - 2)) 32 else dma_bits.

Definition end_boot_allocator (node0 : Z) (b : bootmem) : M hworld unit :=
  let l := bootmem_region_list b in
  let! l :=
    match first_region node0 l with
    | Some i => let! r := of_option OutOfBounds (l !! i) in init_heap_pages r.1 (r.2 - r.1) ;;; ret (<[i := (r.1, r.1)]> l)
    | None => ret l
    end in
  for_each (rev l) init_region ;;;
  let! m := of_option NullDeref (list_mfn b) in
  init_heap_pages m 1.

(** ** The low-memory threshold *)

Definition DEFAULT_LOW_MEM_VIRQ : Z := Z.shiftl 64 20.
Definition MAX_LOW_MEM_VIRQ : Z := Z.shiftl 1024 20.

Definition set_threshold th orig order w := HWorld (pages w) (heap w) (heap_nodes w) (avail w) (total_avail_pages w) (midsize_alloc_zone_pages w) (page_offlined_list w) (page_broken_list w) (low_mem_virq_high w)
  th orig order (hdoms w) (m2p w) (events w).

Definition setup_low_mem_virq (opt_low_mem_virq : Z) : M hworld unit :=
  let! w := gets id in
  if opt_low_mem_virq =? 0 then modify (set_threshold UINT64_MAX (low_mem_virq_orig w) (low_mem_virq_th_order w))
  else
    let halve := opt_low_mem_virq =? UINT64_MAX in
    let total := u64 (Z.shiftl (total_avail_pages w) PAGE_SHIFT) in
    let threshold := if halve then DEFAULT_LOW_MEM_VIRQ else opt_low_mem_virq in
    let threshold := Z.min threshold total in
    let threshold := Z.min threshold MAX_LOW_MEM_VIRQ in
    let threshold := if halve && (threshold =? total) then Z.shiftr threshold 1 else threshold in
    let threshold := Z.max threshold PAGE_SIZE in
    let th := Z.shiftr threshold PAGE_SHIFT in
    let order := get_order_from_pages th in
    let order := if th <? Z.shiftl 1 order then order - 1 else order in
    modify (set_threshold (Z.shiftl 1 order) (Z.shiftl 1 order) order).

(** The loop over all pages erases those that are free. *)
Definition scrub_heap_pages (opt_bootscrub : bool) (first_valid max_page opt_low_mem_virq : Z) : M hworld unit :=
  when opt_bootscrub
    (for_ (Z.to_nat (max_page - first_valid)) first_valid (fun mfn =>
       when (mfn_valid mfn) (let! p := get_page mfn in when (page_state_is p PGC_state_free) (event (Scrub mfn)))) ;;;
     setup_low_mem_virq opt_low_mem_virq).

(** ** Queries *)

Definition avail_domheap_pages_region (node min_width max_width : Z) (w : hworld) : Z :=
  let clamp z := Z.max (MEMZONE_XEN + 1) (Z.min (NR_ZONES - 1) z) in
  avail_heap_pages (clamp (if min_width =? 0 then MEMZONE_XEN + 1 else bits_to_zone min_width)) (clamp (if max_width =? 0 then NR_ZONES - 1 else bits_to_zone max_width)) node w.
Definition avail_domheap_pages (w : hworld) : Z := avail_heap_pages (MEMZONE_XEN + 1) (NR_ZONES - 1) (-1) w.
Definition avail_node_heap_pages (nodeid : Z) (w : hworld) : Z := avail_heap_pages MEMZONE_XEN (NR_ZONES - 1) nodeid w.
End Init.

(** ** Setting up the heap *)

Section InitFacts.
Context `{HeapEnv}.
Context (directmap_mfns : Z) (xmalloc_fails : bool).

(** A node without a heap has no free page, so nothing is lost. *)
Lemma clear_node_ok node w : heap_ok true w -> node ∉ heap_nodes w -> 0 <= node < MAX_NUMNODES -> heap_ok true (clear_node node w) /\ free_all (clear_node node w) = free_all w.
Proof.
  intros [I [c1 c2]] Hn Hr. assert (forall n z k m, listed w n z k m -> n ∈ heap_nodes w) as HL.
  { intros n z k m Hl. destruct (hi_block _ _ _ I n z k m ltac:(by left)) as (Hk & _ & _ & Hi). destruct (Hi m ltac:(apply in_block_self; lia)) as (Hf & <- & _). by apply (hi_free _ _ _ I). }
  assert (forall n z k, free_list (n, z, k) (clear_node node w) = free_list (n, z, k) w) as Efl.
  { intros n z k. unfold free_list. simpl. destruct (decide (n = node)) as [->|Hne].
    - rewrite map_lookup_filter_None_2 by (right; intros x _; simpl; tauto). destruct (heap w !! (node, z, k)) as [l|] eqn:El; [|done]. destruct l as [|m l]; [done|]. exfalso. apply Hn, (HL node z k m).
      unfold listed, free_list. rewrite El. by left.
    - f_equal. destruct (heap w !! (n, z, k)) as [l|] eqn:El; [by apply map_lookup_filter_Some|]. apply map_lookup_filter_None. by left. }
  assert (forall n z, avail_at (n, z) (clear_node node w) = avail_at (n, z) w) as Eav.
  { intros n z. unfold avail_at. simpl. destruct (decide (n = node)) as [->|Hne].
    - rewrite map_lookup_filter_None_2 by (right; intros x _; simpl; tauto). change (0 = avail_at (node, z) w). rewrite c1. assert (of_zone node z (free_all w) = ∅) as ->; [|by rewrite size_empty].
      apply set_eq. intros i. unfold of_zone. rewrite elem_of_filter, elem_of_free_all. split; [|set_solver]. intros [[<- _] Hf]. exfalso. by apply Hn, (hi_free _ _ _ I).
    - f_equal. destruct (avail w !! (n, z)) as [l|] eqn:El; [by apply map_lookup_filter_Some|]. apply map_lookup_filter_None. by left. }
  split; [|done]. split; [|split; [intros n z; by rewrite Eav, c1|exact c2]].
  assert (forall n z k m, listed (clear_node node w) n z k m <-> listed w n z k m) as ELi by (intros; unfold listed; by rewrite Efl).
  destruct I as [J1 J2 J3 J4 J5 J6 J7 J8 J9 J10 J11]. split; unfold blk; try setoid_rewrite ELi; try done.
  - intros [[n z] k]. rewrite Efl. apply J1.
  - intros i Hf. destruct (J10 i Hf) as [? ?]. split; [done|]. by apply elem_of_union_r.
  - intros n. simpl. intros [->%elem_of_singleton|Hin]%elem_of_union; [done|by apply J11].
Qed.

(** Pages that can be given to the heap. *)
Definition givable (w : hworld) (lo hi : Z) : Prop :=
  forall m, lo <= m < hi -> 0 < m /\ (exists p, pages w !! m = Some p /\ in_use p /\ has_flag (count_info p) PGC_xen_heap = false) /\ mfn_valid m = true /\ 0 <= phys_to_nid m < MAX_NUMNODES.

Lemma givable_not_free w lo hi m : givable w lo hi -> lo <= m < hi -> ~ is_free w m.
Proof. intros Hg Hm (q & Hq & Hf). destruct (Hg m Hm) as (_ & (p & Hp & Hu & _) & _). apply in_use_not_free in Hu. congruence. Qed.

Record node_ready (node nr : Z) (w : hworld) (n : Z) (w' : hworld) : Prop := NodeReady {
  nr_ok : heap_ok true w';
  nr_nodes : heap_nodes w' = {[node]} ∪ heap_nodes w;
  nr_free m : is_free w' m -> is_free w m;
  nr_keep m : ~ is_free w m -> pages w' !! m = pages w !! m;
  nr_doms : hdoms w' = hdoms w;
  nr_count : 0 <= n <= nr;
  nr_first : heap_nodes w = ∅ -> n = 0 /\ forall m, is_free w m -> is_free w' m
}.

Lemma clear_node_ready node nr w w0 n :
  heap_ok true w -> node ∉ heap_nodes w -> 0 <= node < MAX_NUMNODES -> heap_nodes w = heap_nodes w0 -> (forall m, is_free w m -> is_free w0 m) -> (forall m, ~ is_free w0 m -> pages w !! m = pages w0 !! m) ->
  hdoms w = hdoms w0 -> 0 <= n <= nr -> (heap_nodes w0 = ∅ -> n = 0 /\ forall m, is_free w0 m -> is_free w m) -> node_ready node nr w0 n (clear_node node w).
Proof.
  intros HO Hn Hr En Hf Hk Hd Hc H1. destruct (clear_node_ok node w HO Hn Hr) as [HO' _]. split; try done. simpl. by rewrite En.
Qed.

Lemma init_node_heap_spec (E : error -> Prop) node mfn nr use_tail w :
  machine_ok -> heap_ok true w -> node ∉ heap_nodes w -> 0 <= node < MAX_NUMNODES -> 0 <= nr -> (E Abort \/ heap_nodes w = ∅) ->
  wp E (init_node_heap directmap_mfns xmalloc_fails node mfn nr use_tail) (fun r w' => node_ready node nr w r.1 w') w.
Proof.
  intros HM HO Hn Hr Hnr HE. unfold init_node_heap. wp_step. wp_step. wp_step.
  assert (forall ev n, 0 <= n <= nr -> (heap_nodes w = ∅ -> n = 0) -> node_ready node nr w n (clear_node node (set_events ev w))) as Hplain.
  { intros ev n Hc H0. destruct HO as [I [c1 c2]]. apply clear_node_ready; try done; [split; [by apply (hinv_ext true [] w)|split; [exact c1|exact c2]]|]. intros E0. split; [by apply H0|done]. }
  assert (0 <= node_pages) as Hp by done.
  destruct (bool_decide (heap_nodes w = ∅)) eqn:Hb; [|apply bool_decide_eq_false in Hb].
  { wp_step. wp_step. wp_step. wp_step. assert (set_events (events w) w = w) as Ew by by destruct w. specialize (Hplain (events w) 0 ltac:(lia) ltac:(done)). rewrite Ew in Hplain. exact Hplain. }
  destruct (use_tail && (node_pages <=? nr) && (mfn + nr <=? directmap_mfns)) eqn:Ht.
  { apply andb_true_iff in Ht as [[_ Ht%Z.leb_le]%andb_true_iff _]. unfold event. wp_step. wp_step. wp_step. wp_step. wp_step. wp_step. apply Hplain; [simpl; lia|done]. }
  destruct ((node_pages <=? nr) && (mfn + node_pages <=? directmap_mfns)) eqn:Hh.
  { apply andb_true_iff in Hh as [Hh%Z.leb_le _]. unfold event. wp_step. wp_step. wp_step. wp_step. wp_step. wp_step. apply Hplain; [simpl; lia|done]. }
  destruct (get_order_from_bytes HEAP_BYTES =? get_order_from_pages node_pages) eqn:Ho; [|by vm_compute in Ho].
  wp_step. apply wp_no_error. eapply wp_mono; [apply alloc_xenheap_spec; [done|done|by right|by vm_compute]|]. intros [pg|] w1 Hres; [|by destruct HE].
  destruct Hres as [_ [X1 X2 X3 X4 X5 X6 X7]]. unfold event. wp_step. wp_step. wp_step. wp_step. wp_step. wp_step.
  assert (forall m, is_free w1 m -> is_free w m) as Hsub.
  { intros m Hf. destruct (decide (pg <= m < pg + 2 ^ get_order_from_pages node_pages)) as [Hin|Hout]; [by apply X3|]. by apply (relabelled_free w w1), Hf; apply X5. }
  apply clear_node_ready; simpl; try done.
  - destruct X1 as [I [c1 c2]]. split; [by apply (hinv_ext true [] w1)|split; [exact c1|exact c2]].
  - by rewrite X6.
  - intros m Hm. destruct (X5 m) as [E0|(Hf & _)]; [|done|done]. intros Hin. by apply Hm, X3.
Qed.

(** The pages [lo .. hi-1] were given to the heap. *)
Record inited (lo hi : Z) (w w' : hworld) : Prop := Inited {
  in_ok : heap_ok true w';
  in_free m : is_free w' m -> is_free w m \/ lo <= m < hi;
  in_keep m : ~ (lo <= m < hi) -> ~ is_free w m -> pages w' !! m = pages w !! m;
  in_nodes : heap_nodes w ⊆ heap_nodes w';
  in_new n : n ∈ heap_nodes w' -> n ∈ heap_nodes w \/ exists m, lo <= m < hi /\ phys_to_nid m = n;
  in_doms : hdoms w' = hdoms w;
  (** None is missing when their node has a heap, or is the first one. *)
  in_all : (forall m, lo <= m < hi -> phys_to_nid m ∈ heap_nodes w \/ (heap_nodes w = ∅ /\ phys_to_nid m = phys_to_nid lo)) -> forall m, is_free w m \/ lo <= m < hi -> is_free w' m
}.

Lemma inited_refl lo hi w : heap_ok true w -> hi <= lo -> inited lo hi w w.
Proof. intros HO Hle. split; try done; [by left|by left|]. intros _ m [?|?]; [done|lia]. Qed.

Lemma givable_keep w w' lo hi : givable w lo hi -> (forall m, lo <= m < hi -> pages w' !! m = pages w !! m) -> givable w' lo hi.
Proof. intros Hg Hk m Hm. destruct (Hg m Hm) as (? & Hp & ?). split; [done|]. by rewrite Hk. Qed.

Lemma givable_sub w lo hi lo' hi' : givable w lo hi -> lo <= lo' -> hi' <= hi -> givable w lo' hi'.
Proof. intros Hg H1 H2 m Hm. apply Hg. lia. Qed.

(** One page goes to the heap of its node. *)
Lemma give_page lo hi w : machine_ok -> heap_ok true w -> givable w lo hi -> lo < hi -> phys_to_nid lo ∈ heap_nodes w -> wp no_error (free_heap_pages lo 0) (fun _ w' => freed 0 lo w w') w.
Proof.
  intros HM HO Hg Hlt Hn. destruct (Hg lo ltac:(lia)) as (Hpos & (p & Hp & Hu & Hx) & Hv & Hr). apply free_heap_spec; [done|done|]. split; [done|done|by exists lo; rewrite Z.mul_1_r|intros q Hq; assert (q = p) as -> by congruence; done|done|].
  intros i Hi. unfold in_block in Hi. assert (i = lo) as -> by (change (2 ^ 0) with 1 in Hi; lia). split_and!; [by exists p|done|done].
Qed.

Lemma freed_keep lo w w' m : freed 0 lo w w' -> m <> lo -> ~ is_free w m -> pages w' !! m = pages w !! m.
Proof. intros F Hne Hf. destruct (fr_rest _ _ _ _ F m) as [E|(Hf' & _)]; [unfold in_block; change (2 ^ 0) with 1; lia|done|done]. Qed.

Lemma inited_page lo hi hi' w w1 w2 :
  givable w lo hi -> lo < hi' <= hi -> freed 0 lo w w1 -> inited (lo + 1) hi' w1 w2 -> phys_to_nid lo ∈ heap_nodes w -> (hi' = hi \/ ~ (forall m, lo <= m < hi -> phys_to_nid m ∈ heap_nodes w)) -> inited lo hi w w2.
Proof.
  intros Hg Hlt F [J1 J2 J3 J4 JN J5 J6] Hn Hhi. assert (forall m, is_free w1 m <-> is_free w m \/ m = lo) as Hf1.
  { intros m. rewrite <- !elem_of_free_all, (freed_free_all _ _ _ _ F), elem_of_union, elem_of_block_set. unfold in_block. change (2 ^ 0) with 1. split; (intros [?|?]; [by left|right; lia]). }
  assert (heap_nodes w <> ∅) as Hne by set_solver. split; try done.
  - intros m Hm. apply J2 in Hm as [Hm|Hm]; [apply Hf1 in Hm as [?| ->]; [by left|right; lia]|right; lia].
  - intros m Hm Hf. rewrite J3; [apply (freed_keep lo); [done|lia|done]|lia|]. rewrite Hf1. intros [?| ->]; [done|lia].
  - by rewrite <- (fr_nodes _ _ _ _ F).
  - intros n Hin. apply JN in Hin as [Hin|(m & Hm & Hnm)]; [left; by rewrite <- (fr_nodes _ _ _ _ F)|right; exists m; split; [lia|done]].
  - by rewrite J5, (fr_doms _ _ _ _ F).
  - intros Hall. assert (forall m, lo <= m < hi -> phys_to_nid m ∈ heap_nodes w) as Hin by (intros m Hm; destruct (Hall m Hm) as [?|[? _]]; done).
    assert (hi' = hi) as -> by (destruct Hhi; done). intros m Hm. apply J6; [intros q Hq; left; rewrite (fr_nodes _ _ _ _ F); apply Hin; lia|]. rewrite Hf1. destruct Hm as [?|?]; [tauto|]. destruct (decide (m = lo)); [tauto|right; lia].
Qed.

(** A node is set up first; [n] pages of the range may go for its lists. *)
Lemma inited_node lo hi lo' hi' node n w w1 w2 :
  givable w lo hi -> node_ready node (hi - lo) w n w1 -> inited lo' hi' w1 w2 -> lo <= lo' -> hi' <= hi -> phys_to_nid lo = node -> node ∉ heap_nodes w -> lo < hi -> (n = 0 -> lo' = lo /\ hi' = hi) -> inited lo hi w w2.
Proof.
  intros Hg [K1 K2 K3 K4 K5 K6 K7] [J1 J2 J3 J4 JN J5 J6] Hlo Hhi Hnode Hn Hlt H0. split; try done.
  - intros m Hm. apply J2 in Hm as [Hm|Hm]; [left; by apply K3|right; lia].
  - intros m Hm Hf. rewrite J3; [by apply K4|lia|]. intros Hf1. by apply Hf, K3.
  - etrans; [|exact J4]. rewrite K2. set_solver.
  - intros q Hq. apply JN in Hq as [Hq|(m & Hm & Hqm)]; [|right; exists m; split; [lia|done]]. rewrite K2 in Hq. apply elem_of_union in Hq as [->%elem_of_singleton|Hq]; [right; exists lo; split; [lia|done]|by left].
  - congruence.
  - intros Hall. destruct (Hall lo ltac:(lia)) as [Hin|[He _]]; [rewrite Hnode in Hin; done|]. destruct (K7 He) as [En Hf1]. destruct (H0 En) as [-> ->].
    intros m Hm. apply J6; [|destruct Hm as [?|?]; [left; by apply Hf1|by right]]. intros q Hq. left. rewrite K2. apply elem_of_union_l, elem_of_singleton. destruct (Hall q Hq) as [Hin|[_ ->]]; [rewrite He in Hin; set_solver|done].
Qed.

(** The nodes have a heap, or all pages are of the first node. *)
Definition one_node (lo hi : Z) (w : hworld) : Prop := forall m, lo <= m < hi -> phys_to_nid m ∈ heap_nodes w \/ (heap_nodes w = ∅ /\ phys_to_nid m = phys_to_nid lo).

Lemma init_heap_loop_spec (E : error -> Prop) fuel pg i nr w :
  machine_ok -> heap_ok true w -> givable w (pg + i) (pg + nr) -> (Z.to_nat (nr - i) < fuel)%nat -> (E Abort \/ one_node (pg + i) (pg + nr) w) ->
  wp E (init_heap_loop directmap_mfns xmalloc_fails fuel pg i nr) (fun _ w' => inited (pg + i) (pg + nr) w w') w.
Proof.
  intros HM. revert i nr w. induction fuel as [|fuel IH]; intros i nr w HO Hg Hfuel HE; [lia|]. cbn [init_heap_loop].
  destruct (Z.leb_spec nr i) as [Hle|Hlt]; [wp_step; apply inited_refl; [done|lia]|]. destruct (Hg (pg + i) ltac:(lia)) as (_ & _ & _ & Hrange).
  assert (forall w1 nr1, heap_ok true w1 -> i < nr1 <= nr -> givable w1 (pg + i) (pg + nr1) -> phys_to_nid (pg + i) ∈ heap_nodes w1 -> (E Abort \/ forall m, pg + i <= m < pg + nr1 -> phys_to_nid m ∈ heap_nodes w1) ->
    wp E (free_heap_pages (pg + i) 0 ;;; init_heap_loop directmap_mfns xmalloc_fails fuel pg (i + 1) nr1) (fun _ w' => inited (pg + i) (pg + nr1) w1 w') w1) as Hpage.
  { intros w1 nr1 HO1 Hn1 Hg1 Hin HE1. wp_step. apply wp_no_error. eapply wp_mono; [eapply (give_page _ (pg + nr1)); try done; lia|]. intros [] w2 F.
    eapply wp_mono; [apply IH; [apply F| |lia|]|].
    - eapply givable_keep; [eapply givable_sub; [exact Hg1|lia|lia]|]. intros m Hm. apply (freed_keep (pg + i)); [done|lia|]. apply (givable_not_free w1 (pg + i) (pg + nr1)); [done|lia].
    - destruct HE1 as [?|HE1]; [by left|right]. intros m Hm. left. rewrite (fr_nodes _ _ _ _ F). apply HE1. lia.
    - intros [] w3 J. replace (pg + (i + 1)) with (pg + i + 1) in J by lia. eapply (inited_page _ _ (pg + nr1)); try done; [lia|by left]. }
  wp_step. wp_step. destruct (bool_decide (phys_to_nid (pg + i) ∈ heap_nodes w)) eqn:Hk; [apply bool_decide_eq_true in Hk; apply Hpage; try done|apply bool_decide_eq_false in Hk].
  { destruct HE as [?|HE]; [by left|right]. intros m Hm. destruct (HE m Hm) as [?|[He _]]; [done|]. rewrite He in Hk. set_solver. }
  assert (E Abort \/ (heap_nodes w = ∅ /\ forall m, pg + i <= m < pg + nr -> phys_to_nid m = phys_to_nid (pg + i))) as HE'.
  { destruct HE as [?|HE]; [by left|right]. destruct (HE (pg + i) ltac:(lia)) as [?|[He _]]; [done|]. split; [done|]. intros m Hm. destruct (HE m Hm) as [Hin|[_ ?]]; [rewrite He in Hin; set_solver|done]. }
  wp_step. eapply wp_mono; [apply (init_node_heap_spec E); try done; [lia|destruct HE' as [?|[? _]]; [by left|by right]]|]. intros [n use_tail] w1 K. cbn [fst] in K. pose proof (nr_count _ _ _ _ _ K) as Hc.
  assert (givable w1 (pg + i) (pg + nr)) as Hg1 by (eapply givable_keep; [done|]; intros m Hm; apply (nr_keep _ _ _ _ _ K); by eapply givable_not_free).
  assert (nr - i = pg + nr - (pg + i)) as Ed by lia. rewrite Ed in K.
  destruct (Z.ltb_spec nr (i + n)); [lia|].
  assert (E Abort \/ (n = 0 /\ forall m, pg + i <= m < pg + nr -> phys_to_nid m ∈ heap_nodes w1)) as HE1.
  { destruct HE' as [?|[He Hall]]; [by left|right]. split; [by apply (nr_first _ _ _ _ _ K)|]. intros m Hm. rewrite (nr_nodes _ _ _ _ _ K), (Hall m Hm). set_solver. } destruct (negb (n =? 0) && negb use_tail) eqn:Hskip; [|destruct (Z.eqb_spec (i + n) nr) as [Hend|Hend]].
  - apply andb_true_iff in Hskip as [Hn0%negb_true_iff%Z.eqb_neq _]. eapply wp_mono; [apply IH; [apply K|eapply givable_sub; [exact Hg1|lia|lia]|lia|destruct HE1 as [?|[? _]]; [by left|done]]|].
    intros [] w2 J. eapply (inited_node _ _ (pg + (i + n)) (pg + nr)); try done; lia.
  - wp_step. eapply (inited_node _ _ (pg + i) (pg + i) _ n w w1); try done; [apply inited_refl; [apply K|lia]|lia|lia|lia].
  - eapply wp_mono; [apply Hpage; [apply K|lia|eapply givable_sub; [exact Hg1|lia|lia]|rewrite (nr_nodes _ _ _ _ _ K); set_solver|destruct HE1 as [?|[_ HE1]]; [by left|right; intros m Hm; apply HE1; lia]]|].
    intros [] w2 J. eapply (inited_node _ _ (pg + i) (pg + (nr - n))); try done; lia.
Qed.

Lemma init_heap_pages_spec (E : error -> Prop) pg nr w :
  machine_ok -> heap_ok true w -> givable w pg (pg + nr) -> (E Abort \/ one_node pg (pg + nr) w) -> wp E (init_heap_pages directmap_mfns xmalloc_fails pg nr) (fun _ w' => inited pg (pg + nr) w w') w.
Proof.
  intros HM HO Hg HE. unfold init_heap_pages. eapply wp_mono; [apply (init_heap_loop_spec E); [done|done|by rewrite Z.add_0_r|lia|by rewrite Z.add_0_r]|]. intros [] w'. by rewrite Z.add_0_r.
Qed.

(** ** All the pages of the boot-time allocator *)

(** The pages in [P] were given to the heap, in whatever pieces. *)
Record given_pages (P : Z -> Prop) (w w' : hworld) : Prop := GivenPages {
  gp_ok : heap_ok true w';
  gp_free m : is_free w' m -> is_free w m \/ P m;
  gp_keep m : ~ P m -> ~ is_free w m -> pages w' !! m = pages w !! m;
  gp_new n : n ∈ heap_nodes w' -> n ∈ heap_nodes w \/ exists m, P m /\ phys_to_nid m = n;
  gp_doms : hdoms w' = hdoms w;
  gp_all node : (forall m, P m -> phys_to_nid m = node) -> heap_nodes w ⊆ {[node]} -> forall m, is_free w m \/ P m -> is_free w' m
}.

Definition givable_all (w : hworld) (P : Z -> Prop) : Prop :=
  forall m, P m -> 0 < m /\ (exists p, pages w !! m = Some p /\ in_use p /\ has_flag (count_info p) PGC_xen_heap = false) /\ mfn_valid m = true /\ 0 <= phys_to_nid m < MAX_NUMNODES.

Lemma given_none w (P : Z -> Prop) : heap_ok true w -> (forall m, ~ P m) -> given_pages P w w.
Proof. intros HO HP. split; try done; [by left|by left|]. intros node _ _ m [?|?]; [done|by destruct (HP m)]. Qed.

Lemma given_ext (P Q : Z -> Prop) w w' : given_pages P w w' -> (forall m, P m <-> Q m) -> given_pages Q w w'.
Proof.
  intros [G1 G2 G3 G4 G5 G6] HQ. split; try done.
  - intros m Hm. rewrite <- HQ. auto.
  - intros m Hm. apply G3. by rewrite HQ.
  - intros n Hn. destruct (G4 n Hn) as [?|(m & Hm & ?)]; [by left|right; exists m; by rewrite <- HQ].
  - intros node Hn Hs m Hm. apply (G6 node); [intros q Hq; apply Hn; by rewrite <- HQ|done|by rewrite HQ].
Qed.

Lemma given_range lo hi w w' : inited lo hi w w' -> given_pages (fun m => lo <= m < hi) w w'.
Proof.
  intros [J1 J2 J3 J4 JN J5 J6]. split; try done. intros node Hn Hs m Hm. apply J6; [|done]. intros q Hq. rewrite (Hn q Hq). destruct (decide (node ∈ heap_nodes w)) as [Hin|Hin]; [by left|right].
  split; [set_solver|]. symmetry. apply Hn. lia.
Qed.

Lemma given_trans (P Q : Z -> Prop) w w1 w2 :
  given_pages P w w1 -> given_pages Q w1 w2 -> given_pages (fun m => P m \/ Q m) w w2.
Proof.
  intros [G1 G2 G3 G4 G5 G6] [K1 K2 K3 K4 K5 K6]. split; [done| | | |congruence|].
  - intros m Hm. apply K2 in Hm as [Hm|?]; [|tauto]. apply G2 in Hm. tauto.
  - intros m Hm Hf. rewrite K3; [apply G3; tauto|tauto|]. intros Hf1. apply G2 in Hf1. tauto.
  - intros n Hn. apply K4 in Hn as [Hn|(m & ? & ?)]; [apply G4 in Hn as [?|(m & ? & ?)]; [by left|]|]; right; exists m; tauto.
  - intros node Hn Hs m Hm. apply (K6 node); [intros q Hq; apply Hn; tauto| |].
    + intros n Hin. apply G4 in Hin as [?|(q & Hq & <-)]; [by apply Hs|]. rewrite (Hn q ltac:(tauto)). by apply elem_of_singleton.
    + destruct Hm as [?|[?|?]]; [left|left|by right]; apply (G6 node); try done; try tauto; intros q Hq; apply Hn; tauto.
Qed.

Lemma givable_after (P Q : Z -> Prop) w w1 : given_pages P w w1 -> givable_all w Q -> (forall m, Q m -> ~ P m) -> givable_all w1 Q.
Proof.
  intros G HQ Hd m Hm. destruct (HQ m Hm) as (? & Hp & ?). split; [done|]. rewrite (gp_keep _ _ _ G m); [done|by apply Hd|]. intros (q & Hq & Hf). destruct Hp as (p & Hp & Hu & _). apply in_use_not_free in Hu. congruence.
Qed.

Definition in_region (r : Z * Z) (m : Z) : Prop := r.1 <= m < r.2.
(** No page is in two of the regions. *)
Definition apart (a b : Z * Z) : Prop := forall m, in_region a m -> ~ in_region b m.

(** The machine has one node, or the hypervisor may stop. *)
Definition may_stop (E : error -> Prop) (P : Z -> Prop) (w : hworld) : Prop := E Abort \/ exists node, (forall m, P m -> phys_to_nid m = node) /\ heap_nodes w ⊆ {[node]}.

Lemma may_stop_sub E (P Q : Z -> Prop) w w' : may_stop E P w -> given_pages Q w w' -> (forall m, Q m -> P m) -> may_stop E P w'.
Proof.
  intros [?|(node & Hn & Hs)] G HQ; [by left|right]. exists node. split; [done|]. intros n Hin. apply (gp_new _ _ _ G) in Hin as [?|(m & Hm & <-)]; [by apply Hs|]. rewrite (Hn m (HQ m Hm)). by apply elem_of_singleton.
Qed.

Lemma init_range_spec E lo hi w :
  machine_ok -> heap_ok true w -> givable_all w (fun m => lo <= m < hi) -> may_stop E (fun m => lo <= m < hi) w -> wp E (init_heap_pages directmap_mfns xmalloc_fails lo (hi - lo)) (fun _ w' => given_pages (fun m => lo <= m < hi) w w') w.
Proof.
  intros HM HO Hg HE. eapply wp_mono; [apply (init_heap_pages_spec E); [done|done|by replace (lo + (hi - lo)) with hi by lia|]|].
  - destruct HE as [?|(node & Hn & Hs)]; [by left|right]. replace (lo + (hi - lo)) with hi by lia. intros m Hm. rewrite (Hn m Hm). destruct (decide (node ∈ heap_nodes w)) as [|Hin]; [by left|right]. split; [set_solver|]. symmetry. apply Hn. lia.
  - replace (lo + (hi - lo)) with hi by lia. intros [] w'. apply given_range.
Qed.

Lemma init_regions_spec E l w :
  machine_ok -> heap_ok true w -> StronglySorted apart l -> givable_all w (free_mfn l) -> may_stop E (free_mfn l) w ->
  wp E (for_each l (init_region directmap_mfns xmalloc_fails)) (fun _ w' => given_pages (free_mfn l) w w') w.
Proof.
  intros HM. revert w. induction l as [|r l IH]; intros w HO HS Hg HE; cbn [for_each]; [wp_step; apply given_none; [done|intros m Hm; by apply free_mfn_nil in Hm]|].
  apply sorted_cons in HS as [HS Hr]. assert (forall m, free_mfn (r :: l) m <-> r.1 <= m < r.2 \/ free_mfn l m) as Hc by (intros; apply free_mfn_cons).
  wp_step. apply (wp_mono _ _ (fun _ w1 => given_pages (in_region r) w w1)).
  { unfold init_region. apply wp_when; intros Hlt; [|apply given_none; [done|]; intros m Hm; unfold in_region in Hm; apply Z.ltb_ge in Hlt; lia].
    apply init_range_spec; [done|done|intros m Hm; apply Hg, Hc; by left|]. destruct HE as [?|(node & Hn & Hs)]; [by left|right]. exists node. split; [|done]. intros m Hm. apply Hn, Hc. by left. }
  intros [] w1 G. assert (forall m, free_mfn l m -> ~ in_region r m) as Hd by (intros m (q & Hq & Hm) Hin; by apply (Hr q Hq m Hin)).
  eapply wp_mono; [apply IH; [apply G|done| |]|].
  - eapply givable_after; [exact G| |exact Hd]. intros m Hm. apply Hg, Hc. by right.
  - destruct (may_stop_sub E _ _ _ _ HE G ltac:(intros m Hm; apply Hc; by left)) as [?|(node & Hn & Hs)]; [by left|right]. exists node. split; [|done]. intros m Hm. apply Hn, Hc. by right.
  - intros [] w2 G2. eapply given_ext; [by eapply given_trans|]. intros m. by rewrite Hc.
Qed.

Lemma sorted_rev {A} (R : A -> A -> Prop) l : (forall a b, R a b -> R b a) -> StronglySorted R l -> StronglySorted R (rev l).
Proof.
  intros Hsym. induction l as [|a l IH]; simpl; [intros _; apply SSorted_nil|]. intros [HS Ha]%sorted_cons. apply strongly_sorted_app. split_and!; [auto|apply sorted_cons; split; [apply SSorted_nil|intros y Hy; by apply not_elem_of_nil in Hy]|].
  intros x y Hx ->%list_elem_of_singleton. apply Hsym, Ha. apply list_elem_of_In in Hx. apply list_elem_of_In. by apply in_rev.
Qed.

Lemma free_mfn_rev l m : free_mfn (rev l) m <-> free_mfn l m.
Proof. induction l as [|r l IH]; simpl; [done|]. rewrite free_mfn_app, !free_mfn_cons, IH. pose proof (free_mfn_nil m). tauto. Qed.

Lemma before_apart l : StronglySorted before l -> (forall r, r ∈ l -> region_ok r) -> StronglySorted apart l.
Proof.
  induction l as [|r l IH]; [intros _ _; apply SSorted_nil|]. intros [HS Hr]%sorted_cons Hok. apply sorted_cons. split; [apply IH; [done|intros; apply Hok; by right]|].
  intros y Hy m H1 H2. specialize (Hr y Hy). unfold before in Hr. unfold in_region in *. lia.
Qed.

Lemma first_region_some node0 l i : first_region node0 l = Some i -> exists s e, l !! i = Some (s, e) /\ s < e.
Proof.
  revert i. induction l as [|[s e] l IH]; simpl; [done|]. intros i. destruct ((s <? e) && (phys_to_nid s =? node0)) eqn:Hc; [intros [= <-]; apply andb_true_iff in Hc as [?%Z.ltb_lt _]; by exists s, e|].
  destruct (first_region node0 l) as [j|]; [|done]. intros [= <-]. by apply IH.
Qed.

(** All free pages of the boot-time allocator and the page of its list become free pages
    of the heap. *)
Lemma end_boot_spec E node0 b m0 w :
  machine_ok -> heap_ok true w -> boot_ok b -> list_mfn b = Some m0 -> givable_all w (fun m => free_page b m \/ m = m0) -> may_stop E (fun m => free_page b m \/ m = m0) w ->
  wp E (end_boot_allocator directmap_mfns xmalloc_fails node0 b) (fun _ w' => given_pages (fun m => free_page b m \/ m = m0) w w') w.
Proof.
  intros HM HO HB Hm0 Hg HE. pose proof HB as [B1 B2 B3 B4 B5]. unfold end_boot_allocator. set (l := bootmem_region_list b) in *.
  assert (forall (P : Z -> Prop) l1 w1, given_pages P w w1 -> StronglySorted before l1 -> (forall r, r ∈ l1 -> region_ok r) -> (forall m, free_mfn l m <-> P m \/ free_mfn l1 m) -> (forall m, free_mfn l1 m -> ~ P m) ->
    wp E (for_each (rev l1) (init_region directmap_mfns xmalloc_fails) ;;; let! m := of_option NullDeref (list_mfn b) in init_heap_pages directmap_mfns xmalloc_fails m 1)
      (fun _ w' => given_pages (fun m => free_page b m \/ m = m0) w w') w1) as Hrest.
  { intros P l1 w1 G1 HS Hok Hall Hd. assert (forall m, P m -> free_page b m \/ m = m0) as HP by (intros m Hm; left; apply Hall; by left).
    pose proof (may_stop_sub E _ _ _ _ HE G1 HP) as HE1. wp_step. eapply wp_mono; [apply (init_regions_spec E); [done|apply G1| | |]|].
    - apply sorted_rev; [|by apply before_apart]. intros x y Hxy m H1 H2. by apply (Hxy m).
    - eapply givable_after; [exact G1| |intros m; rewrite free_mfn_rev; apply Hd]. intros m. rewrite free_mfn_rev. intros Hm. apply Hg. left. apply Hall. by right.
    - destruct HE1 as [?|(node & Hn & Hs)]; [by left|right]. exists node. split; [|done]. intros m. rewrite free_mfn_rev. intros Hm. apply Hn. left. apply Hall. by right.
    - intros [] w2 G2. pose proof (given_trans _ _ _ _ _ G1 G2) as G. assert (forall m, P m \/ free_mfn (rev l1) m <-> free_page b m) as Hfp by (intros m; rewrite free_mfn_rev; symmetry; apply Hall).
      apply (given_ext _ _ _ _ G) in Hfp as G'. pose proof (may_stop_sub E _ _ _ _ HE G' ltac:(intros m Hm; by left)) as HE2.
      assert (forall m, m0 <= m < m0 + 1 -> m = m0) as H1 by lia. rewrite Hm0. wp_step. eapply wp_of_option; [done|]. replace 1 with (m0 + 1 - m0) by lia.
      eapply wp_mono; [apply (init_range_spec E m0 (m0 + 1)); [done|apply G'| |]|].
      + eapply givable_after; [exact G'|intros m ->%H1; apply Hg; by right|]. intros m ->%H1. by apply B5.
      + destruct HE2 as [?|(node & Hn & Hs)]; [by left|right]. exists node. split; [|done]. intros m ->%H1. apply Hn. by right.
      + intros [] w3 G3. eapply given_ext; [exact (given_trans _ _ _ _ _ G' G3)|]. intros m. simpl. split; (intros [?|?]; [by left|right; lia]). }
  destruct (first_region node0 l) as [i|] eqn:Hfirst.
  - destruct (first_region_some _ _ _ Hfirst) as (s & e & Hi & Hlt). wp_step. wp_step. eapply wp_of_option; [done|]. cbn [fst snd]. wp_step.
    assert (forall m, s <= m < e -> free_page b m) as Hin by (intros m Hm; exists (s, e); split; [by eapply list_elem_of_lookup_2|done]).
    eapply wp_mono; [apply (init_range_spec E s e); [done|done|intros m Hm; apply Hg; left; auto|]|].
    { destruct HE as [?|(node & Hn & Hs)]; [by left|right]. exists node. split; [|done]. intros m Hm. apply Hn. left. auto. }
    intros [] w1 G1. wp_step. destruct (shrink_region l i s e s s B1 B2 Hi ltac:(lia) ltac:(lia)) as (S1 & S2 & S3). apply (Hrest (fun m => s <= m < e)); [done|done|done| |].
    + intros m. rewrite S3. specialize (Hin m). unfold free_page in Hin. fold l in Hin. destruct (decide (s <= m < e)) as [Hm|Hm]; [tauto|]. split; [intros; right; split; [done|tauto]|tauto].
    + intros m Hf Hm. apply S3 in Hf as [_ Hf]. specialize (Hf Hm). lia.
  - wp_step. apply wp_ret. apply (Hrest (fun _ => False)); [apply given_none; [done|tauto]|done|done|tauto|tauto].
Qed.
End InitFacts.

(** ** The low-memory warning *)

Lemma halvings_spec n : 0 <= n -> 0 <= halvings n /\ n < 2 ^ halvings n /\ (0 < n -> 2 ^ (halvings n - 1) <= n).
Proof.
  intros Hn. unfold halvings. destruct (Z.eqb_spec n 0) as [->|Hne]; [split_and!; [done|done|lia]|]. pose proof (Z.log2_spec n ltac:(lia)). pose proof (Z.log2_nonneg n).
  split_and!; [lia|replace (Z.log2 n + 1) with (Z.succ (Z.log2 n)) by lia; lia|]. intros _. replace (Z.log2 n + 1 - 1) with (Z.log2 n) by lia. lia.
Qed.

(** The order of a number of pages, rounded down. *)
Lemma order_down th : 1 <= th < 2 ^ 64 -> (if th <? Z.shiftl 1 (get_order_from_pages th) then get_order_from_pages th - 1 else get_order_from_pages th) = Z.log2 th.
Proof.
  intros Hth. unfold get_order_from_pages. assert (u64 (th - 1) = th - 1) as -> by (unfold u64; apply Z.mod_small; change 18446744073709551616 with (2 ^ 64); lia).
  destruct (halvings_spec (th - 1) ltac:(lia)) as (H0 & H1 & H2). set (o := halvings (th - 1)) in *. rewrite shift_pow by lia. symmetry. destruct (Z.ltb_spec th (2 ^ o)) as [Hlt|Hge].
  - assert (o <> 0) as Hne by (intros E; rewrite E in Hlt; change (2 ^ 0) with 1 in Hlt; lia). apply Z.log2_unique; [lia|]. replace (Z.succ (o - 1)) with o by lia. split; [|lia]. destruct (decide (th = 1)) as [->|]; [by destruct Hne|specialize (H2 ltac:(lia)); lia].
  - assert (th = 2 ^ o) as E by lia. rewrite E. by apply Z.log2_pow2.
Qed.

(** The threshold is a power of two, at most a gigabyte and at most what is available; by
    default it is below what is available. *)
Lemma setup_low_mem_spec opt w :
  0 < opt < 2 ^ 64 -> 0 <= total_avail_pages w < 2 ^ 51 ->
  exists w' k, setup_low_mem_virq opt w = Ok (tt, w') /\ 0 <= k <= 18 /\ low_mem_virq_th w' = 2 ^ k /\ low_mem_virq_orig w' = 2 ^ k /\ low_mem_virq_th_order w' = k /\ low_mem_virq_high w' = low_mem_virq_high w /\
    2 ^ k <= Z.max 1 (total_avail_pages w) /\ (opt = UINT64_MAX -> 2 <= total_avail_pages w -> 2 ^ k < total_avail_pages w).
Proof.
  intros Ho Ht. unfold setup_low_mem_virq, bind, gets, modify. destruct (Z.eqb_spec opt 0); [lia|]. cbv zeta. unfold id.
  assert (u64 (Z.shiftl (total_avail_pages w) PAGE_SHIFT) = total_avail_pages w * PAGE_SIZE) as ->.
  { rewrite Z.shiftl_mul_pow2 by done. unfold u64. apply Z.mod_small. unfold PAGE_SIZE, PAGE_SHIFT. change (2 ^ 12) with 4096. change 18446744073709551616 with (2 ^ 51 * 8192). lia. }
  set (t1 := if opt =? UINT64_MAX then DEFAULT_LOW_MEM_VIRQ else opt). set (t2 := Z.min (Z.min t1 _) _). set (t3 := if _ && _ then Z.shiftr t2 1 else t2). set (th := Z.shiftr (Z.max t3 PAGE_SIZE) PAGE_SHIFT).
  assert (0 < t1) as H1 by (unfold t1; destruct (opt =? UINT64_MAX); [done|lia]).
  assert (0 <= t2 <= total_avail_pages w * PAGE_SIZE /\ t2 <= 2 ^ 30) as [H2 H2'] by (unfold t2, MAX_LOW_MEM_VIRQ, PAGE_SIZE, PAGE_SHIFT; change (Z.shiftl 1024 20) with (2 ^ 30); change (2 ^ 12) with 4096; lia).
  assert (0 <= t3 <= t2) as H3 by (unfold t3; destruct (_ && _); [rewrite Z.shiftr_div_pow2 by done; change (2 ^ 1) with 2; split; [apply Z.div_pos; lia|apply Z.div_le_upper_bound; lia]|lia]).
  assert (th = Z.max t3 PAGE_SIZE / PAGE_SIZE) as Eth by (unfold th; by rewrite Z.shiftr_div_pow2).
  assert (PAGE_SIZE = 4096) as EP by done. assert (1 <= th <= 2 ^ 18) as H4.
  { rewrite Eth. split; [apply Z.div_le_lower_bound; lia|]. apply Z.div_le_upper_bound; [lia|]. rewrite EP. change (4096 * 2 ^ 18) with (2 ^ 30). lia. }
  rewrite order_down by lia. pose proof (Z.log2_spec th ltac:(lia)) as [L1 L2]. pose proof (Z.log2_nonneg th) as L0.
  assert (th <= Z.max 1 (total_avail_pages w)) as H5 by (rewrite Eth; assert (Z.max t3 PAGE_SIZE <= Z.max 1 (total_avail_pages w) * PAGE_SIZE) by lia; apply Z.div_le_upper_bound; lia).
  eexists _, (Z.log2 th). split; [reflexivity|]. simpl. rewrite !shift_pow by lia. split_and!; try done; [|lia|].
  - change 18 with (Z.log2 (2 ^ 18)). apply Z.log2_le_mono. lia.
  - intros -> H6. apply (Z.le_lt_trans _ th); [lia|]. rewrite Eth. apply Z.div_lt_upper_bound; [lia|].
    assert (t3 < total_avail_pages w * PAGE_SIZE); [|lia]. unfold t3. rewrite Z.eqb_refl. cbn [andb]. destruct (Z.eqb_spec t2 (total_avail_pages w * PAGE_SIZE)) as [E|E]; [|lia].
    rewrite Z.shiftr_div_pow2 by done. apply Z.div_lt_upper_bound; lia.
Qed.

Section LowMem.
Context `{HeapEnv}.

(** Between two orders of magnitude of the available memory the warning is sent once. *)
Record low_inv (k : Z) (w : hworld) : Prop := LowInv {
  lv_orig : 1 <= k <= 18 /\ low_mem_virq_orig w = 2 ^ k;
  lv_order : 0 <= low_mem_virq_th_order w <= k;
  lv_th : low_mem_virq_th w = 2 ^ low_mem_virq_th_order w;
  lv_high : low_mem_virq_high w = UINT64_MAX \/ low_mem_virq_th_order w < k
}.

Lemma u64_pow k : 0 <= k < 64 -> u64 (Z.shiftl 1 k) = 2 ^ k.
Proof.
  intros Hk. rewrite shift_pow by lia. unfold u64. apply Z.mod_small. change 18446744073709551616 with (2 ^ 64). split; [apply Z.pow_nonneg; lia|]. apply Z.pow_lt_mono_r; lia.
Qed.

(** The threshold never grows above the one chosen at the start. *)
Lemma check_low_inv k w :
  opt_tmem = false -> low_inv k w -> 0 <= total_avail_pages w < UINT64_MAX ->
  wp no_error check_low_mem_virq (fun _ w' => low_inv k w' /\ low_mem_virq_th w' <= low_mem_virq_orig w' /\ (total_avail_pages w <= low_mem_virq_th w -> SendGlobalVirq ∈ events w')) w.
Proof.
  intros Htm [[Hk Ho] Hord Hth Hhigh] Ht. unfold check_low_mem_virq. wp_step. wp_step. change (id w) with w. rewrite Htm, Z.add_0_r.
  assert (forall w', low_inv k w' -> low_mem_virq_th w' <= low_mem_virq_orig w') as Hle by (intros w' [[? ->] ? -> _]; apply Z.pow_le_mono_r; lia).
  destruct (Z.leb_spec (total_avail_pages w) (low_mem_virq_th w)) as [Hfire|Hquiet]; [|destruct (Z.leb_spec (low_mem_virq_high w) (total_avail_pages w)) as [Hgrow|Hsame]].
  - unfold event. wp_step. wp_step. wp_step. set (o := if 0 <? _ then _ else _). assert (0 <= o < k) as Hor by (unfold o; destruct (Z.ltb_spec 0 (low_mem_virq_th_order w)); lia).
    match goal with |- low_inv k ?x /\ _ => assert (low_inv k x) as HI end. { split; simpl; [done|lia|by rewrite u64_pow by lia|right; lia]. }
    split_and!; [done|by apply Hle|]. intros _. simpl. apply elem_of_app. right. by apply list_elem_of_singleton.
  - wp_step. assert (low_mem_virq_th_order w < k) as Hlt by (destruct Hhigh as [E|?]; [rewrite E in Hgrow; lia|done]). rewrite !u64_pow by lia.
    match goal with |- low_inv k ?x /\ _ => assert (low_inv k x) as HI end.
    { split; simpl; [done|lia|done|]. rewrite Ho. destruct (Z.eqb_spec (2 ^ (low_mem_virq_th_order w + 1)) (2 ^ k)) as [E|E]; [by left|right]. assert (low_mem_virq_th_order w + 1 <> k) by congruence. lia. }
    split_and!; [done|by apply Hle|lia].
  - wp_step. assert (low_inv k w) as HI by by split. split_and!; [done|by apply Hle|lia].
Qed.

(** With a threshold of one page the order passes the one chosen at the start and the
    threshold keeps growing. *)
Definition growing (avail th orig order high : Z) (w : hworld) : hworld :=
  HWorld (pages w) (heap w) (heap_nodes w) (PageAlloc.avail w) avail (midsize_alloc_zone_pages w) (page_offlined_list w) (page_broken_list w) high th orig order (hdoms w) (m2p w) (events w).

Lemma low_mem_escalates w :
  opt_tmem = false -> exists w1 w2 w3, check_low_mem_virq (growing 1 1 1 0 UINT64_MAX w) = Ok (tt, w1) /\ low_mem_virq_th w1 = 1 /\
    check_low_mem_virq (growing 2 (low_mem_virq_th w1) (low_mem_virq_orig w1) (low_mem_virq_th_order w1) (low_mem_virq_high w1) w1) = Ok (tt, w2) /\ low_mem_virq_th w2 = 2 /\
    check_low_mem_virq (growing 8 (low_mem_virq_th w2) (low_mem_virq_orig w2) (low_mem_virq_th_order w2) (low_mem_virq_high w2) w2) = Ok (tt, w3) /\ low_mem_virq_th w3 = 4 /\ low_mem_virq_orig w3 = 1.
Proof. intros Htm. unfold check_low_mem_virq, bind, gets, event, modify. rewrite Htm. cbn. do 3 eexists. split_and!; reflexivity. Qed.

(** A limit of zero makes the warning fire on the next allocation instead of never. *)
Lemma low_mem_zero_fires w w' :
  opt_tmem = false -> setup_low_mem_virq 0 w = Ok (tt, w') -> 0 <= total_avail_pages w < 2 ^ 63 -> exists w2, check_low_mem_virq w' = Ok (tt, w2) /\ SendGlobalVirq ∈ events w2.
Proof.
  intros Htm E Ht. injection E as <-. unfold check_low_mem_virq, bind, gets, event, modify, id. rewrite Htm. cbn [set_threshold total_avail_pages low_mem_virq_th].
  assert (total_avail_pages w + 0 <=? UINT64_MAX = true) as -> by (apply Z.leb_le; unfold UINT64_MAX; lia). eexists. split; [reflexivity|]. simpl. apply elem_of_app. right. by apply list_elem_of_singleton.
Qed.
End LowMem.

(** ** Counting *)

Section Counting.
Context `{HeapEnv}.

(** The parts of a finite set by a key. *)
Lemma size_parts (f : Z -> Z) (L : list Z) (X : gset Z) :
  NoDup L -> foldr Z.add 0 ((fun k => Z.of_nat (size (filter (fun i => f i = k) X))) <$> L) = Z.of_nat (size (filter (fun i => f i ∈ L) X)).
Proof.
  induction L as [|k L IH]; intros HL.
  - simpl. assert (filter (fun i => f i ∈ []) X = ∅) as ->; [|by rewrite size_empty]. apply set_eq. intros i. rewrite elem_of_filter, list_elem_of_In. set_solver.
  - apply NoDup_cons in HL as [Hk HL]. rewrite fmap_cons. cbn [foldr]. rewrite IH by done.
    assert (filter (fun i => f i ∈ k :: L) X = filter (fun i => f i = k) X ∪ filter (fun i => f i ∈ L) X) as ->.
    { apply set_eq. intros i. rewrite elem_of_union, !elem_of_filter, elem_of_cons. tauto. }
    rewrite size_union; [lia|]. intros i. rewrite !elem_of_filter. intros [<- _] [? _]. done.
Qed.

(** The free pages of the zones on the nodes in use. *)
Definition zone_pages (lo hi : Z) (w : hworld) : gset Z := filter (fun i => lo <= Z.log2 i <= hi /\ phys_to_nid i ∈ node_online_map) (free_all w).

Lemma node_zone_pages lo hi n w :
  foldr Z.add 0 ((fun zone => Z.of_nat (size (of_zone n zone (free_all w)))) <$> seqZ lo (hi - lo + 1)) = Z.of_nat (size (filter (fun i => phys_to_nid i = n) (filter (fun i => lo <= Z.log2 i <= hi) (free_all w)))).
Proof.
  assert (forall zone, of_zone n zone (free_all w) = filter (fun i => Z.log2 i = zone) (filter (fun i => phys_to_nid i = n) (free_all w))) as EZ.
  { intros zone. apply set_eq. intros i. unfold of_zone. rewrite !elem_of_filter. tauto. }
  rewrite (list_fmap_ext _ (fun zone => Z.of_nat (size (filter (fun i => Z.log2 i = zone) (filter (fun i => phys_to_nid i = n) (free_all w)))))) by (intros; by rewrite EZ).
  rewrite size_parts by apply NoDup_seqZ. do 2 f_equal. apply set_eq. intros i. rewrite !elem_of_filter, elem_of_seqZ. split; [intros (? & ? & ?)|intros (? & ? & ?)]; split_and!; try done; lia.
Qed.

(** The counters answer exactly. *)
Lemma avail_counts al lo hi w :
  heap_ok al w -> hi < NR_ZONES -> avail_heap_pages lo hi (-1) w = Z.of_nat (size (zone_pages lo hi w)).
Proof.
  intros [I [c1 _]] Hhi. unfold avail_heap_pages. rewrite Z.min_l by lia. cbn [Z.eqb orb].
  rewrite (list_fmap_ext _ (fun n => Z.of_nat (size (filter (fun i => phys_to_nid i = n) (filter (fun i => lo <= Z.log2 i <= hi) (free_all w)))))).
  - rewrite size_parts by apply NoDup_elements. do 2 f_equal. apply set_eq. intros i. unfold zone_pages. rewrite !elem_of_filter, elem_of_elements. tauto.
  - intros k n _. rewrite andb_true_r. destruct (bool_decide (n ∈ heap_nodes w)) eqn:Hb.
    + rewrite <- node_zone_pages. f_equal. apply list_fmap_ext. intros j zone _. apply c1.
    + apply bool_decide_eq_false in Hb. assert (filter (fun i => phys_to_nid i = n) (filter (fun i => lo <= Z.log2 i <= hi) (free_all w)) = ∅) as ->; [|by rewrite size_empty].
      apply set_eq. intros i. rewrite !elem_of_filter, elem_of_free_all. split; [|set_solver]. intros (<- & _ & Hf). exfalso. by apply Hb, (hi_free _ _ _ I).
Qed.
End Counting.

(** ** Handing over *)

Section Handover.
Context `{HeapEnv}.
Context (directmap_mfns : Z) (xmalloc_fails : bool).

End Handover.

(** The 32 pages of the small machine, before any of them is in the heap. *)
Definition sample_cold : hworld := set_heap_nodes ∅ sample_boot.
Definition cold_given : bootmem := boot_ran (init_boot_pages String.EmptyString 0x20000 0x40000) bootmem_init.
Definition cold_cut : bootmem := boot_ran (alloc_boot_pages 4 4) cold_given.

Lemma cold_regions : bootmem_region_list cold_given = [(33, 64)] /\ bootmem_region_list cold_cut = [(33, 60)] /\ list_mfn cold_cut = Some 32.
Proof. split_and!; vm_compute; reflexivity. Qed.

Lemma cold_steps : rtc (boot_step String.EmptyString) (bootmem_init, []) (cold_cut, [(60, 4)]).
Proof.
  eapply rtc_l; [eapply (boot_give _ bootmem_init [] 0x20000 0x40000 cold_given); [done|done|done| |vm_compute; reflexivity]|].
  { intros i _. split; [done|]. intros r Hr. by apply not_elem_of_nil in Hr. }
  apply rtc_once. apply (boot_take _ cold_given [] 4 2 60 cold_cut); [done|done| |vm_compute; reflexivity].
  intros r. destruct cold_regions as (-> & _). intros ->%list_elem_of_singleton. simpl. lia.
Qed.

Lemma cold_ok : heap_ok (H := sample_env) true sample_cold.
Proof.
  apply empty_heap_ok; [done|done|done| | |].
  - intros i (p & Hp & Hf). apply sample_page in Hp as [_ ->]. done.
  - intros i Hi. cbn in Hi. apply andb_true_iff in Hi as [?%Z.leb_le ?%Z.ltb_lt]. exists (Page 0 0 0 true 0). by apply sample_page_in.
  - intros n Hn. change (n ∈@{gset Z} ∅) in Hn. set_solver.
Qed.

Lemma cold_givable : givable_all (H := sample_env) sample_cold (fun m => free_page cold_cut m \/ m = 32).
Proof.
  intros m Hm. assert (32 <= m < 64) as Hr.
  { destruct Hm as [Hm| ->]; [|lia]. unfold free_page in Hm. destruct cold_regions as (_ & E & _). rewrite E in Hm. destruct Hm as (r & ->%list_elem_of_singleton & Hin). simpl in Hin. lia. }
  split_and!; [lia|exists (Page 0 0 0 true 0); split; [by apply sample_page_in|done]|cbn; apply andb_true_iff; split; [apply Z.leb_le|apply Z.ltb_lt]; lia|done|done].
Qed.

