(* ===== verification/PageOffline.v ===== *)
(** * Machine pages: pages taken out of service

    A free page that goes offline leaves the heap; the other pages of its block go back to
    the lists. The pieces need not be aligned, so what holds afterwards is the invariant
    without alignment, under which blocks are still handed out correctly. *)

From S2P Require Import Prelude.
From S2P Require Import Xen.
From S2P Require Import PageAlloc.
From S2P Require Import PageFacts.
From S2P Require Import PageCount.
From S2P Require Import PageSearch.
From S2P Require Import PageOps.
From S2P Require Import PageFree.
From S2P Require Import PageDom.
From S2P Require Import PageMain.

Section Offline.
Context `{HeapEnv}.

(** ** Single pages in hand *)

Definition offlined (w : hworld) (i : Z) : Prop := exists p, pages w !! i = Some p /\ page_state_is p PGC_state_offlined = true.

#[local] Instance offlined_dec w i : Decision (offlined w i).
Proof.
  destruct (pages w !! i) as [p|] eqn:E; [|right; intros (p & Hp & _); congruence].
  destruct (page_state_is p PGC_state_offlined) eqn:Hf; [left; by exists p|right; intros (q & Hq & Hfq); congruence].
Defined.

(** The pages of [lo .. hi-1] that are in service, one by one. *)
Definition singles (w : hworld) (n z lo hi : Z) : list (Z * Z * Z * Z) := (fun i => (n, z, 0, i)) <$> filter (fun i => ~ offlined w i) (seqZ lo (hi - lo)).

Lemma elem_of_singles w n z lo hi n' z' k m : (n', z', k, m) ∈ singles w n z lo hi <-> n' = n /\ z' = z /\ k = 0 /\ lo <= m < hi /\ ~ offlined w m.
Proof.
  unfold singles. rewrite list_elem_of_fmap. split.
  - intros (i & E & Hi). apply list_elem_of_filter in Hi as [Ho Hi%elem_of_seqZ]. simplify_eq. split_and!; try done; lia.
  - intros (-> & -> & -> & Hm & Ho). exists m. split; [done|]. apply list_elem_of_filter. split; [done|]. apply elem_of_seqZ. lia.
Qed.

Lemma in_block_0 m i : in_block m 0 i <-> i = m.
Proof. unfold in_block. change (2 ^ 0) with 1. lia. Qed.

(** The invariant without alignment. *)
Lemma hinv_weaken al L w : hinv al L w -> hinv false L w.
Proof. intros [J1 J2 J3 J4 J5 J6 J7 J8 J9 J10 J11]. split; try done. intros n z k m Hb. destruct (J2 n z k m Hb) as (? & ? & _ & ?). split_and!; try done; lia. Qed.

(** A block in hand some pages of which have gone offline is what is left of it, page by page. *)
Lemma hinv_offline al n z k m w w' :
  hinv al [(n, z, k, m)] w -> heap w' = heap w -> heap_nodes w' = heap_nodes w ->
  (forall i, pages w' !! i = pages w !! i \/ (in_block m k i /\ offlined w' i)) -> hinv false (singles w' n z m (m + 2 ^ k)) w'.
Proof.
  intros I Eh En Hp. destruct (hi_block _ _ _ I n z k m ltac:(right; by left)) as (Hk & Hm & _ & Hi).
  assert (forall key, free_list key w' = free_list key w) as HL by (intros key; unfold free_list; by rewrite Eh).
  assert (forall i, offlined w' i -> ~ is_free w' i) as Hof.
  { intros i (p & Hpi & Hs) (q & Hq & Hf). assert (q = p) as -> by congruence. unfold page_state_is in *. apply Z.eqb_eq in Hs, Hf. rewrite Hs in Hf. done. }
  assert (forall i, is_free w' i <-> is_free w i /\ (in_block m k i -> ~ offlined w' i)) as HF.
  { intros i. destruct (Hp i) as [E|[Hin Ho]].
    - unfold is_free. rewrite E. split; [|tauto]. intros Hf. split; [done|]. intros _ Ho. apply (Hof i Ho). unfold is_free. by rewrite E.
    - split; [intros Hf; by destruct (Hof i Ho)|tauto]. }
  assert (forall a b c x, listed w a b c x -> forall i, in_block x c i -> ~ in_block m k i) as Hap.
  { intros a b c x Hl i Hx Hin. by apply (loose_apart al [] w n z k m a b c x i I ltac:(apply not_elem_of_nil) ltac:(by left) Hin). }
  split.
  - intros key. rewrite HL. apply I.
  - intros a b c x [Hl|Hl].
    + unfold listed in Hl. rewrite HL in Hl. destruct (hi_block _ _ _ I a b c x ltac:(by left)) as (? & ? & _ & Hx). split_and!; [lia|lia|lia|done|]. intros i Hbi. rewrite HF. destruct (Hx i Hbi) as (? & ? & ?).
      split_and!; try done. intros Hin. by destruct (Hap _ _ _ _ Hl i Hbi).
    + apply elem_of_singles in Hl as (-> & -> & -> & Hx & Ho). split_and!; [lia|done|lia|done|]. intros i ->%in_block_0. rewrite HF. destruct (Hi x Hx) as (? & ? & ?). tauto.
  - intros a b c x Hl. unfold listed in Hl. rewrite HL in Hl. destruct (hi_order _ _ _ I a b c x Hl) as (p & Hpp & Hv). exists p. split; [|done].
    destruct (hi_block _ _ _ I a b c x ltac:(by left)) as (Hc & _). destruct (Hp x) as [->|[Hin _]]; [done|]. destruct (Hap _ _ _ _ Hl x); [apply in_block_self; lia|done].
  - intros a b c x a' b' c' x' i H1 H2 B1 B2. destruct H1 as [H1|H1], H2 as [H2|H2].
    + unfold listed in H1, H2. rewrite HL in H1, H2. by eapply (hi_disj _ _ _ I a b c x a' b' c' x' i); [left|left|..].
    + unfold listed in H1. rewrite HL in H1. apply elem_of_singles in H2 as (-> & -> & -> & Hx & _). apply in_block_0 in B2 as ->. by destruct (Hap _ _ _ _ H1 x' B1).
    + unfold listed in H2. rewrite HL in H2. apply elem_of_singles in H1 as (-> & -> & -> & Hx & _). apply in_block_0 in B1 as ->. by destruct (Hap _ _ _ _ H2 x B2).
    + apply elem_of_singles in H1 as (-> & -> & -> & _), H2 as (-> & -> & -> & _). apply in_block_0 in B1 as ->, B2 as ->. done.
  - intros a b c x Hl Hl'. apply elem_of_singles in Hl as (-> & -> & -> & Hx & _). unfold listed in Hl'. rewrite HL in Hl'. by apply (Hap _ _ _ _ Hl' x); [apply in_block_0|].
  - intros i Hf. apply HF in Hf as [Hf Ho]. destruct (hi_cover _ _ _ I i Hf) as (a & b & c & x & [Hl|Hl%list_elem_of_singleton] & Hx).
    + exists a, b, c, x. split; [left; unfold listed; by rewrite HL|done].
    + simplify_eq. exists n, z, 0, i. split; [right; apply elem_of_singles; by split_and!; auto; apply Hx|by apply in_block_0].
  - done.
  - intros i p Hpi Hs. destruct (Hp i) as [E|[Hin Ho]]; [apply (hi_count _ _ _ I i); congruence|]. destruct (Hof i Ho). by exists p.
  - intros i Hv. destruct (Hp i) as [->|[_ (p & Hpi & _)]]; [by apply (hi_valid _ _ _ I)|by rewrite Hpi].
  - intros i Hf. rewrite En. apply (hi_free _ _ _ I). by apply HF.
  - intros a. rewrite En. apply I.
Qed.

(** ** The pieces of a block *)

Lemma none_offlined_spec n m w :
  (forall i, m <= i < m + Z.of_nat n -> is_Some (pages w !! i)) ->
  wp no_error (none_offlined n m) (fun b w' => w' = w /\ (b = true -> forall i, m <= i < m + Z.of_nat n -> ~ offlined w i)) w.
Proof.
  revert m. induction n as [|n IH]; intros m Hp; cbn [none_offlined]; [wp_step; split; [done|lia]|].
  destruct (Hp m ltac:(lia)) as [p Hm]. wp_step. eapply wp_get_page; [done|]. destruct (page_state_is p PGC_state_offlined) eqn:Hs; [by wp_step|].
  eapply wp_mono; [apply IH; intros i Hi; apply Hp; lia|]. intros b w' [-> Hb]. split; [done|]. intros Ht i Hi. destruct (decide (i = m)) as [->|]; [|apply Hb; [done|lia]].
  intros (q & Hq & Hf). congruence.
Qed.

Lemma grow_order_spec fuel cur finish co ho w :
  (forall i, cur <= i < finish -> is_Some (pages w !! i)) -> finish <= cur + 2 ^ ho -> 0 <= co < ho -> cur + 2 ^ co <= finish -> (forall i, cur <= i < cur + 2 ^ co -> ~ offlined w i) -> ho - co <= Z.of_nat fuel ->
  wp no_error (grow_order fuel cur finish co ho) (fun o w' => w' = w /\ 0 <= o < ho /\ cur + 2 ^ o <= finish /\ forall i, cur <= i < cur + 2 ^ o -> ~ offlined w i) w.
Proof.
  intros Hp Hfin. revert co. induction fuel as [|fuel IH]; intros co Hco Hend Hin Hfuel; [lia|]. cbn [grow_order]. destruct (Z.ltb_spec co ho); [|lia]. rewrite !shift_pow by lia.
  destruct (Z.leb_spec finish (cur + 2 ^ (co + 1))) as [|Hlt]; [by wp_step; split_and!; try done; lia|]. pose proof (pow_succ co ltac:(lia)) as Es. pose proof (Z.pow_pos_nonneg 2 co ltac:(lia) ltac:(lia)) as Hpos.
  assert (Z.of_nat (Z.to_nat (2 ^ co)) = 2 ^ co) as En by lia.
  wp_step. eapply wp_mono; [apply none_offlined_spec; rewrite En; intros i Hi; apply Hp; lia|]. rewrite En. intros b w' [-> Hb]. destruct b; [|by wp_step; split_and!; try done; lia].
  assert (co + 1 <> ho) by (intros E; rewrite E in Hlt; lia).
  apply IH; [lia|lia| |lia]. intros i Hi. destruct (decide (i < cur + 2 ^ co)); [apply Hin; lia|apply Hb; [done|lia]].
Qed.

Lemma relabelled_offlined w w' i : relabelled w w' i -> offlined w' i <-> offlined w i.
Proof.
  intros [E|(Hf & p & x & Hp & Hp')]; [unfold offlined; by rewrite E|]. destruct Hf as (q & Hq & Hf). assert (q = p) as -> by congruence. unfold page_state_is in Hf. apply Z.eqb_eq in Hf.
  split; (intros (r & Hr & Hs); exfalso; unfold page_state_is in Hs; apply Z.eqb_eq in Hs).
  - assert (r = set_v x p) as -> by congruence. simpl in Hs. rewrite Hs in Hf. done.
  - assert (r = p) as -> by congruence. rewrite Hs in Hf. done.
Qed.

Lemma singles_relabel w w' n z lo hi : relabel w w' -> singles w' n z lo hi = singles w n z lo hi.
Proof. intros HR. unfold singles. f_equal. apply list_filter_iff. intros i. by rewrite (relabelled_offlined w w' i (HR i)). Qed.

(** Some of the pages become one block. *)
Lemma hinv_gather n z cur finish o w :
  hinv false (singles w n z cur finish) w -> 0 <= o <= MAX_ORDER -> 0 < cur -> cur + 2 ^ o <= finish -> (forall i, cur <= i < cur + 2 ^ o -> ~ offlined w i) ->
  hinv false ((n, z, o, cur) :: singles w n z (cur + 2 ^ o) finish) w.
Proof.
  intros I Ho Hcur Hend Hin. pose proof (Z.pow_pos_nonneg 2 o ltac:(lia) ltac:(lia)) as Hpos. apply (hinv_regroup false (singles w n z cur finish)); [done| | |].
  - intros a b c x [E|Hx]%elem_of_cons.
    + simplify_eq. split_and!; [lia|lia|done|done|]. intros i Hi. exists 0, i. split; [|by apply in_block_0]. unfold in_block in Hi. apply elem_of_singles. split_and!; try done; try lia. apply Hin. lia.
    + apply elem_of_singles in Hx as (-> & -> & -> & Hx & Hno). split_and!; [done|done|lia|done|]. intros i ->%in_block_0. exists 0, x. split; [apply elem_of_singles; split_and!; try done; lia|by apply in_block_0].
  - intros a b c x a' b' c' x' i [E1|H1]%elem_of_cons [E2|H2]%elem_of_cons B1 B2; simplify_eq; try done.
    + apply elem_of_singles in H2 as (-> & -> & -> & Hx & _). apply in_block_0 in B2 as ->. unfold in_block in B1. lia.
    + apply elem_of_singles in H1 as (-> & -> & -> & Hx & _). apply in_block_0 in B1 as ->. unfold in_block in B2. lia.
    + apply elem_of_singles in H1 as (-> & -> & -> & _), H2 as (-> & -> & -> & _). apply in_block_0 in B1 as ->, B2 as ->. done.
  - intros a b c x i Hx Hi. apply elem_of_singles in Hx as (-> & -> & -> & Hx & Hno). apply in_block_0 in Hi as ->. destruct (decide (x < cur + 2 ^ o)).
    + exists n, z, o, cur. split; [by left|]. unfold in_block. lia.
    + exists n, z, 0, x. split; [right; apply elem_of_singles; split_and!; try done; lia|by apply in_block_0].
Qed.

Lemma requeue_spec fuel n z cur finish ho w :
  hinv false (singles w n z cur finish) w -> (forall i, cur <= i < finish -> is_Some (pages w !! i)) -> 0 < cur -> finish <= cur + 2 ^ ho -> 0 <= ho <= MAX_ORDER -> (ho = 0 -> forall i, cur <= i < finish -> offlined w i) ->
  finish - cur <= Z.of_nat fuel ->
  wp no_error (requeue fuel n z cur finish ho) (fun _ w' => hinv false [] w' /\ relabel w w' /\ w' = set_heap (heap w') (set_pages (pages w') w)) w.
Proof.
  revert cur w. induction fuel as [|fuel IH]; intros cur w I Hp Hcur Hfin Hho H0 Hfuel; cbn [requeue]; destruct (Z.leb_spec finish cur) as [Hle|Hlt]; try lia.
  1,2: wp_step; split_and!; [|intros i; by left|by destruct w]; assert (singles w n z cur finish = []) as E by (unfold singles; by replace (seqZ cur (finish - cur)) with (@nil Z) by (symmetry; apply seqZ_nil; lia)); by rewrite E in I.
  destruct (Hp cur ltac:(lia)) as [p Hpc]. wp_step. eapply wp_get_page; [done|]. destruct (page_state_is p PGC_state_offlined) eqn:Hs.
  - eapply wp_mono; [apply IH; try done; [|intros i Hi; apply Hp; lia|lia|lia|intros E i Hi; apply H0; [done|lia]|lia]|done].
    assert (singles w n z cur finish = singles w n z (cur + 1) finish) as E; [|by rewrite <- E]. unfold singles. replace (finish - cur) with (1 + (finish - (cur + 1))) by lia. rewrite seqZ_app by lia. simpl.
    rewrite filter_cons_False by (intros Hn; apply Hn; by exists p). done.
  - assert (~ offlined w cur) as Hno by (intros (q & Hq & Hf); congruence). assert (1 <= ho) as Hho1 by (destruct (decide (ho = 0)) as [E|]; [by destruct Hno; apply H0; [|lia]|lia]).
    wp_step. eapply wp_mono; [apply grow_order_spec; try done; [lia|change (2 ^ 0) with 1; lia|change (2 ^ 0) with 1; intros i Hi; by replace i with cur by lia|lia]|].
    intros o w' (-> & Ho & Hend & Hin). pose proof (Z.pow_pos_nonneg 2 o ltac:(lia) ltac:(lia)) as Hpos. pose proof (hinv_gather n z cur finish o w I ltac:(lia) Hcur Hend Hin) as I1.
    unfold page_list_add_tail. wp_step. wp_step. wp_step. eapply wp_mod_page; [exact Hpc|]. rewrite shift_pow by lia.
    pose proof (hinv_put false _ n z o cur w p I1) as I2. set (w1 := set_pages _ _). specialize (I2 ltac:(intros Hx; apply elem_of_singles in Hx; lia) Hpc ltac:(done)).
    change (hinv false (singles w n z (cur + 2 ^ o) finish) w1) in I2. assert (is_free w cur) as Hfree.
    { destruct (hi_block _ _ _ I1 n z o cur ltac:(right; by left)) as (_ & _ & _ & Hi). apply Hi. apply in_block_self. lia. }
    assert (relabel w w1) as R1.
    { intros i. simpl. destruct (decide (i = cur)) as [->|Hne]; [right; split; [done|]; exists p, o; simpl; by rewrite lookup_insert_eq|left; simpl; by rewrite lookup_insert_ne]. }
    eapply wp_mono; [apply IH; [by rewrite (singles_relabel w w1)| |lia|lia|done|lia|lia]|].
    + intros i Hi. destruct (R1 i) as [->|(_ & q & x & _ & ->)]; [apply Hp; lia|done].
    + intros [] w2 (I3 & R2 & E2). split_and!; [done|by eapply relabel_trans|]. rewrite E2. done.
Qed.

(** ** Counting them out *)

Definition offs (w : hworld) (lo hi : Z) : gset Z := list_to_set (filter (fun i => offlined w i) (seqZ lo (hi - lo))).

Lemma elem_of_offs w lo hi i : i ∈ offs w lo hi <-> lo <= i < hi /\ offlined w i.
Proof. unfold offs. rewrite elem_of_list_to_set, list_elem_of_filter, elem_of_seqZ. split; [intros [? ?]; split; [lia|done]|intros [? ?]; split; [done|lia]]. Qed.

Lemma wp_add_avail E n z x (Q : unit -> hworld -> Prop) w :
  n ∈ heap_nodes w -> 0 <= n < MAX_NUMNODES -> Q tt (set_counts (<[(n, z) := avail_at (n, z) w + x]> (avail w)) (total_avail_pages w + x) w) -> wp E (add_avail n z x) Q w.
Proof.
  intros Hn Hr HQ. unfold add_avail, get_avail. wp_step. rewrite bool_decide_eq_true_2 by done. wp_step. wp_step. wp_step. change (id w) with w. rewrite bool_decide_eq_true_2 by done. by wp_step.
Qed.

(** What the loop leaves: only the counters and the two lists have changed. *)
Definition kept (w w' : hworld) : Prop := exists a t o b, w' = set_off_lists o b (set_counts a t w).

Lemma take_offlined_spec n z head len w F :
  n ∈ heap_nodes w -> 0 <= n < MAX_NUMNODES -> (forall i, head <= i < head + Z.of_nat len -> is_Some (pages w !! i) /\ phys_to_nid i = n /\ Z.log2 i = z) ->
  (forall i, i ∈ F -> ~ offlined w i) -> counts (F ∪ offs w head (head + Z.of_nat len)) w ->
  wp no_error (for_acc len head (take_offlined n z) 0) (fun c w' => counts F w' /\ kept w w' /\
    (forall i, head <= i < head + Z.of_nat len -> offlined w i -> i ∈ page_offlined_list w' ++ page_broken_list w') /\ forall i, i ∈ page_offlined_list w ++ page_broken_list w -> i ∈ page_offlined_list w' ++ page_broken_list w') w.
Proof.
  intros Hn Hr Hp HF HC. set (fin := head + Z.of_nat len) in *.
  apply (wp_for_acc no_error (fun i _ w' => counts (F ∪ offs w i fin) w' /\ kept w w' /\ (forall j, head <= j < i -> offlined w j -> j ∈ page_offlined_list w' ++ page_broken_list w') /\
    forall j, j ∈ page_offlined_list w ++ page_broken_list w -> j ∈ page_offlined_list w' ++ page_broken_list w')).
  - split_and!; [done|exists (avail w), (total_avail_pages w), (page_offlined_list w), (page_broken_list w); by destruct w|lia|done].
  - intros i c w' Hi (C1 & (a & t & o & b & ->) & Hl & Hk). destruct (Hp i Hi) as ([p Hpi] & Hni & Hzi). unfold take_offlined. wp_step. eapply wp_get_page; [done|].
    destruct (page_state_is p PGC_state_offlined) eqn:Hs; cbn [negb].
    + assert (offlined w i) as Hoff by by exists p. wp_step. apply wp_add_avail; [done|done|]. set (w1 := set_counts _ _ _).
      destruct (counts_sub _ n z 0 i _ ltac:(lia) C1) as (_ & Ht & C2). { intros j ->%in_block_0. split_and!; [|done|done]. apply elem_of_union_r, elem_of_offs. split; [lia|done]. }
      change (2 ^ 0) with 1 in Ht, C2. wp_step. wp_step. wp_step. apply wp_assert; [apply Z.leb_le; simpl in *; lia|]. wp_step. wp_step. wp_step.
      assert ((F ∪ offs w i fin) ∖ block_set i 0 = F ∪ offs w (i + 1) fin) as EF.
      { apply set_eq. intros j. rewrite elem_of_difference, !elem_of_union, !elem_of_offs, elem_of_block_set, in_block_0. split.
        - intros [[?|[? ?]] Hne]; [by left|right; split; [lia|done]].
        - intros [Hj|[Hj ?]]; [split; [by left|intros ->; by apply (HF i)]|split; [right; split; [lia|done]|lia]]. }
      rewrite EF in C2. set (w2 := if has_flag _ _ then _ else _).
      assert (exists o' b', w2 = set_off_lists o' b' w1 /\ i ∈ o' ++ b' /\ forall j, j ∈ o ++ b -> j ∈ o' ++ b') as (o' & b' & E2 & Hio & Hko).
      { unfold w2. destruct (has_flag (count_info p) PGC_broken); [exists o, (b ++ [i])|exists (o ++ [i]), b]; (split; [done|]); split; set_solver. }
      rewrite E2. split_and!.
      * destruct C2 as [c1 c2]. split; [intros n' z'; rewrite <- c1; unfold avail_at; simpl; done|simpl; rewrite <- c2; simpl; lia].
      * unfold w1. simpl. by eexists _, _, o', b'.
      * intros j Hj Ho. simpl. destruct (decide (j = i)) as [->|]; [done|]. apply Hko. apply (Hl j); [lia|done].
      * intros j Hj. simpl. by apply Hko, (Hk j).
    + wp_step. assert (offs w i fin = offs w (i + 1) fin) as E.
      { apply set_eq. intros j. rewrite !elem_of_offs. split; intros [? ?]; (split; [|done]); [|lia]. destruct (decide (j = i)) as [->|]; [|lia]. exfalso. match goal with Ho : offlined w i |- _ => destruct Ho as (q & Hq & Hf) end. congruence. }
      rewrite <- E. split_and!; [done|by eexists _, _, o, b| |done]. intros j Hj Ho. apply Hl; [|done]. destruct (decide (j = i)) as [->|]; [|lia]. exfalso. destruct Ho as (q & Hq & Hf). congruence.
  - intros c w' (C1 & K & Hl & Hk). split_and!; try done. assert (offs w fin fin = ∅) as E by (apply set_eq; intros j; rewrite elem_of_offs; split; [lia|set_solver]). change (head + Z.of_nat len) with fin in C1. by rewrite E, union_empty_r_L in C1.
Qed.

(** ** A block with pages that are offline *)

(** [w] is [w0] with some pages of the block at [head] offline. *)
Record part_offline (n z k head : Z) (w0 w : hworld) : Prop := PartOffline {
  po_heap : heap w = heap w0;
  po_nodes : heap_nodes w = heap_nodes w0;
  po_avail : avail w = avail w0 /\ total_avail_pages w = total_avail_pages w0;
  po_pages i : pages w !! i = pages w0 !! i \/ (in_block head k i /\ offlined w i);
  po_head : exists p, pages w !! head = Some p /\ v p = k /\ has_flag (count_info p) PGC_xen_heap = false;
  po_some : k = 0 -> offlined w head
}.

Record reserved (k head : Z) (w w' : hworld) : Prop := Reserved {
  rv_ok : heap_ok false w';
  rv_pages : relabel w w';
  rv_rest : hdoms w' = hdoms w /\ heap_nodes w' = heap_nodes w /\ events w' = events w;
  rv_listed i : in_block head k i -> offlined w i -> i ∈ page_offlined_list w' ++ page_broken_list w';
  rv_kept i : i ∈ page_offlined_list w ++ page_broken_list w -> i ∈ page_offlined_list w' ++ page_broken_list w'
}.

Lemma free_not_offlined w i : is_free w i -> ~ offlined w i.
Proof. intros (p & Hp & Hf) (q & Hq & Hs). assert (q = p) as -> by congruence. unfold page_state_is in *. apply Z.eqb_eq in Hs, Hf. rewrite Hs in Hf. done. Qed.

Lemma part_offline_free n z k head w0 w : part_offline n z k head w0 w -> (forall i, in_block head k i -> is_free w0 i) -> free_all w0 = free_all w ∪ offs w head (head + 2 ^ k).
Proof.
  intros P Hb. apply set_eq. intros i. rewrite elem_of_union, !elem_of_free_all, elem_of_offs. destruct (po_pages _ _ _ _ _ _ P i) as [E|[Hin Ho]].
  - assert (is_free w i <-> is_free w0 i) as -> by (unfold is_free; by rewrite E). split; [by left|]. intros [?|[Hin Ho]]; [done|]. by apply Hb.
  - split; [intros _; right; by split|]. intros _. by apply Hb.
Qed.

Lemma reserve_offlined_spec al n z k head w0 w :
  heap_ok al w0 -> listed w0 n z k head -> part_offline n z k head w0 w -> wp no_error (reserve_offlined_page head) (fun _ w' => reserved k head w w') w.
Proof.
  intros [I C] Hl P. destruct (hi_block _ _ _ I n z k head ltac:(by left)) as (Hk & Hpos & _ & Hb). pose proof (Z.pow_pos_nonneg 2 k ltac:(lia) ltac:(lia)) as Hpow.
  destruct (Hb head ltac:(apply in_block_self; lia)) as (Hhf & Hn & Hz). destruct (po_head _ _ _ _ _ _ P) as (p & Hp & Hv & Hx). pose proof (proj2 (hi_free _ _ _ I head Hhf)) as Hnode. rewrite Hn in Hnode.
  pose proof (hi_nodes _ _ _ I n Hnode) as Hrange. assert (Z.of_nat (Z.to_nat (2 ^ k)) = 2 ^ k) as En by lia.
  unfold reserve_offlined_page. wp_step. eapply wp_get_page; [done|]. unfold page_to_zone, PFN_ORDER. rewrite Hx, Hv, Hn, Hz, shift_pow by lia.
  unfold page_list_del. wp_step. wp_step. wp_step. assert (free_list (n, z, k) w = free_list (n, z, k) w0) as Efl by (unfold free_list; by rewrite (po_heap _ _ _ _ _ _ P)).
  rewrite Efl, bool_decide_eq_true_2 by exact Hl. wp_step. set (l := filter _ _). set (w1 := set_heap _ w).
  assert (hinv al [(n, z, k, head)] (set_heap (<[(n, z, k) := l]> (heap w0)) w0)) as I0.
  { eapply hinv_take; [exact I|exact Hl| | |done]; [apply NoDup_filter, I|]. intros x. unfold l. rewrite list_elem_of_filter. unfold listed. tauto. }
  assert (hinv false (singles w1 n z head (head + 2 ^ k)) w1) as I1.
  { eapply (hinv_offline al n z k head _ w1 I0); simpl; [by rewrite (po_heap _ _ _ _ _ _ P)|apply P|]. intros i. apply (po_pages _ _ _ _ _ _ P). }
  assert (forall i, head <= i < head + 2 ^ k -> is_Some (pages w1 !! i)) as Hsome.
  { intros i Hi. simpl. destruct (po_pages _ _ _ _ _ _ P i) as [->|[_ (q & -> & _)]]; [|done]. destruct (Hb i Hi) as ((q & -> & _) & _). done. }
  wp_step. eapply wp_mono; [apply requeue_spec; [exact I1|exact Hsome|done|lia|lia| |lia]|].
  { intros -> i Hi. change (2 ^ 0) with 1 in Hi. replace i with head by lia. by apply (po_some _ _ _ _ _ _ P). }
  intros [] w2 (I2 & R2 & E2). assert (relabel w w2) as R by exact R2.
  assert (forall i, offlined w2 i <-> offlined w i) as Hoff by (intros i; by apply relabelled_offlined).
  eapply wp_mono; [apply (take_offlined_spec n z head _ w2 (free_all w2))|].
  - rewrite E2. simpl. by rewrite (po_nodes _ _ _ _ _ _ P).
  - done.
  - rewrite En. intros i Hi. destruct (Hb i Hi) as (_ & ? & ?). split_and!; try done. destruct (R i) as [->|(_ & q & x & _ & ->)]; [by apply Hsome|done].
  - intros i Hi. apply elem_of_free_all, free_not_offlined in Hi. done.
  - rewrite En. assert (free_all w2 ∪ offs w2 head (head + 2 ^ k) = free_all w0) as ->.
    { rewrite (part_offline_free n z k head w0 w P) by (intros i Hi; by apply Hb). rewrite (relabel_free_all w w2 R). f_equal. apply set_eq. intros i. rewrite !elem_of_offs, Hoff. done. }
    destruct (po_avail _ _ _ _ _ _ P) as [Ea Et]. destruct C as [c1 c2]. split; [intros n' z'; rewrite <- c1; unfold avail_at; rewrite E2; simpl; by rewrite Ea|rewrite E2; simpl; by rewrite Et].
  - rewrite En. intros c w3 (C3 & (a & t & o & b & E3) & Hls & Hks). split.
    + subst w3. split; [by apply (hinv_ext false [] w2)|exact C3].
    + intros i. rewrite E3. apply R.
    + rewrite E3, E2. done.
    + intros i Hi Ho. apply Hls; [done|by apply Hoff].
    + intros i Hi. apply Hks. rewrite E2. exact Hi.
Qed.

(** ** Taking a free page offline *)

Lemma find_block_spec al cnt n z k head pg i w :
  hinv al [] w -> listed w n z k head -> in_block head k pg -> 0 <= i <= k -> k < i + Z.of_nat cnt -> find_block cnt n z pg i w = Some head.
Proof.
  intros I Hl Hin. revert i. induction cnt as [|cnt IH]; intros i Hi Hcnt; [lia|]. cbn [find_block]. destruct (list_find _ (free_list (n, z, i) w)) as [[j h]|] eqn:Hf.
  - apply list_find_Some in Hf as (Hj & [Hh1 Hh2] & _). rewrite shift_pow in Hh2 by lia. f_equal.
    destruct (hi_disj _ _ _ I n z k head n z i h pg ltac:(by left) ltac:(left; by eapply list_elem_of_lookup_2) Hin ltac:(unfold in_block; lia)) as (_ & _ & _ & ?). done.
  - destruct (decide (i = k)) as [->|Hne]; [|apply IH; lia]. exfalso. apply list_find_None in Hf. eapply Forall_forall in Hf; [|exact Hl]. apply Hf. rewrite shift_pow by lia. unfold in_block in Hin. lia.
Qed.

Definition offline_mark (broken : bool) (p : page_info) : page_info := set_count_info (offline_info PGC_state_free broken) p.

(** The page is marked and its block cut into pieces. *)
Lemma offline_run al owner_id mfn broken w :
  heap_ok al w -> is_free w mfn -> is_xen_fixed_mfn mfn = false -> page_is_ram mfn = true ->
  exists p k head, pages w !! mfn = Some p /\ in_block head k mfn /\
    wp no_error (offline_page owner_id mfn broken) (fun r w' => r = (0, if broken then Z.lor PG_OFFLINE_OFFLINED PG_OFFLINE_BROKEN else PG_OFFLINE_OFFLINED) /\ reserved k head (set_pages (<[mfn := offline_mark broken p]> (pages w)) w) w') w.
Proof.
  intros HO Hfree Hfix Hram. pose proof HO as [I C]. destruct (hi_cover _ _ _ I mfn Hfree) as (n & z & k & head & [Hl|[]%not_elem_of_nil] & Hin).
  destruct (hi_block _ _ _ I n z k head ltac:(by left)) as (Hk & Hpos & _ & Hb). destruct (Hb mfn Hin) as (_ & Hn & Hz). destruct Hfree as (p & Hp & Hf). pose proof (hi_count _ _ _ I mfn p Hp Hf) as Hcount.
  assert (mfn_valid mfn = true) as Hvalid by (apply (hi_free _ _ _ I); by exists p). set (w1 := set_pages (<[mfn := offline_mark broken p]> (pages w)) w).
  assert (offlined w1 mfn) as Ho1 by (exists (offline_mark broken p); split; [simpl; by rewrite lookup_insert_eq|by destruct broken]).
  assert (forall i, i <> mfn -> pages w1 !! i = pages w !! i) as Hne1 by (intros i Hi; simpl; by rewrite lookup_insert_ne).
  assert (part_offline n z k head w w1) as P.
  { split; try done.
    - intros i. destruct (decide (i = mfn)) as [->|Hi]; [by right|left; by apply Hne1].
    - destruct (hi_order _ _ _ I n z k head Hl) as (q & Hq & Hv). destruct (decide (head = mfn)) as [E|Hne].
      + subst head. assert (q = p) as -> by congruence. exists (offline_mark broken p). split_and!; [simpl; by rewrite lookup_insert_eq|done|by destruct broken].
      + exists q. split_and!; [by rewrite Hne1|done|]. destruct (Hb head ltac:(apply in_block_self; lia)) as ((q' & Hq' & Hf') & _). assert (q' = q) as -> by congruence. by rewrite (hi_count _ _ _ I head q Hq Hf').
    - intros ->. unfold in_block in Hin. change (2 ^ 0) with 1 in Hin. by replace head with mfn by lia. }
  exists p, k, head. split_and!; [done|done|].
  unfold offline_page. rewrite Hvalid, Hfix, Hram. cbn [negb]. wp_step. eapply wp_get_page; [done|]. rewrite Hcount. change (has_flag PGC_state_free PGC_broken) with false. cbn [negb].
    wp_step. unfold mark_page_offline. wp_step. apply wp_assert; [done|]. wp_step. eapply wp_get_page; [done|]. rewrite Hcount. wp_step. eapply wp_mod_page; [done|]. wp_step. fold (offline_mark broken p). fold w1.
    assert (pages w1 !! mfn = Some (offline_mark broken p)) as Hp1 by (simpl; by rewrite lookup_insert_eq). wp_step. eapply wp_get_page; [exact Hp1|].
    assert (page_state_is (offline_mark broken p) PGC_state_offlined = true) as -> by by destruct broken. wp_step. unfold reserve_heap_page. wp_step. eapply wp_get_page; [exact Hp1|]. wp_step. wp_step. change (id w1) with w1.
    assert (page_to_zone mfn (offline_mark broken p) = z) as -> by (unfold page_to_zone; replace (has_flag (count_info (offline_mark broken p)) PGC_xen_heap) with false by (by destruct broken); done).
    assert (find_block (Z.to_nat (MAX_ORDER + 1)) (phys_to_nid mfn) z mfn 0 w1 = Some head) as ->.
    { rewrite Hn. change (find_block (Z.to_nat (MAX_ORDER + 1)) n z mfn 0 w = Some head). apply (find_block_spec al _ n z k); [done|done|done|lia|unfold MAX_ORDER in *; lia]. }
    eapply wp_mono; [by apply (reserve_offlined_spec al n z k head w w1)|]. intros c w' HR. wp_step. done.
Qed.

End Offline.

Lemma sample_free_40 : is_free sample_world 40.
Proof. apply sample_run. by apply in_block_self. Qed.


(** ** What taking a page offline does to the lists *)

(** Sixteen pages are free and the first of them goes offline. *)
Definition sample_half : hworld := after (free_heap_pages (H := sample_env) 32 4) sample_boot.
Definition sample_offline : hworld := after (offline_page (H := sample_env) id 32 false) sample_half.

Fixpoint take_single (n : nat) : M hworld (list (option Z)) :=
  match n with
  | O => ret []
  | S n => let! r := alloc_heap_pages (H := sample_env) 1 39 0 0 None in let! l := take_single n in ret (r :: l)
  end.

(** What is left of the block is cut into pieces that are not aligned: page 40 is inside a
    block of eight that starts at 33. *)
Lemma offline_misaligns : listed sample_offline 0 5 3 33 /\ ~ aligned 33 3.
Proof. split; [unfold listed; apply (bool_decide_unpack _); vm_compute; done|intros [q Hq]; change (2 ^ 3) with 8 in Hq; lia]. Qed.

(** Giving back page 41 then takes page 40 for the first page of a free block and unlinks
    it from a list it is not in. *)
Lemma offline_breaks_merge :
  (let! l := take_single 7 in free_heap_pages (H := sample_env) 41 0 ;;; ret l) sample_offline = Err Uninitialized /\
  option_map fst (match take_single 7 sample_offline with Ok r => Some r | Err _ => None end) = Some (Some <$> [47; 46; 45; 44; 43; 42; 41]).
Proof. split; vm_compute; reflexivity. Qed.

(** A broken page that is offline is refused and freed all the same. *)
Lemma online_frees_broken :
  online_page (H := sample_env) 32 (after (offline_page (H := sample_env) id 32 true) sample_half) = Err AssertFail.
Proof. vm_compute. reflexivity. Qed.
