(* ===== verification/Memop.v ===== *)
(** * Memory reservations of the domains

    [src/xen/common/memory.c]: a domain asks for pages, fills its physical map or gives pages
    back; [src/xen/arch/x86/mm.c]: the references to a page, the last of which gives it back
    to the heap. [MemopFacts] and [MemopMain] have the theorems. *)

From S2P Require Import Prelude.
From S2P Require Import Xen.
From S2P Require Import PageAlloc.
From S2P Require Import PageInit.

Definition MEMF_populate_on_demand : Z := 2.
Definition MEMF_node (n : Z) : Z := Z.shiftl (Z.land (n + 1) 0xff) 8.
Definition MEMF_bits (n : Z) : Z := u32 (Z.shiftl n 24).
Definition XENMEMF_get_address_bits (x : Z) : Z := Z.land x 0xff.
Definition XENMEMF_get_node (x : Z) : Z := Z.land (Z.shiftr x 8 - 1) 0xff.
Definition XENMEMF_populate_on_demand : Z := 2 ^ 16.
Definition XENMEMF_exact_node_request : Z := 2 ^ 17.
Definition PGC_cacheattr_mask : Z := 7 * 2 ^ 58.
Definition PGT_pinned : Z := 2 ^ 59.
Definition DOMID_SELF : Z := 0x7ff0.

(** What a guest frame is. *)
Inductive p2m_type : Type := P2mPlain | P2mPagingOut | P2mPaged | P2mShared.

(** What is outside the model: the list of extents in guest memory, the physical map of a
    domain, page types, mappings of the hypervisor, the other domains and the moment at which
    a hypercall is interrupted. *)
Class MemEnv : Type := {
  extent_at : Z -> option Z;
  extent_writable : Z -> bool;
  extent_list_null : bool;
  extent_list_okay : bool;
  hypercall_preempt_check : Z -> bool;
  has_io_caps : bool;
  mark_populate_on_demand : Z -> Z -> Z -> Z;
  paging_mode_translate : Z -> bool;
  is_hvm_domain : Z -> bool;
  p2m_pod_decrease_reservation : Z -> Z -> Z -> bool;
  get_gfn_query : Z -> Z -> hworld -> Z * p2m_type;
  mem_sharing_unshare_page : Z -> Z -> M hworld bool;
  put_page_type : Z -> M hworld unit;
  update_xen_mappings_fails : Z -> bool;
  max_page : Z;
  current_domain : Z;
  domain_by_id : Z -> option Z;
  is_priv_for : Z -> bool;
  xsm_memory_adjust_reservation : Z -> Z
}.

Section Memop.
Context `{HeapEnv} `{MemEnv}.

(** ** References *)

(** [true]: the page must not be given back. *)
Definition cleanup_page_cacheattr (m : Z) : M hworld bool :=
  let! p := get_page m in
  if has_flag (count_info p) PGC_cacheattr_mask then
    mod_page m (fun p => set_count_info (Z.ldiff (count_info p) PGC_cacheattr_mask) p) ;;;
    (if has_flag (count_info p) PGC_xen_heap then fail Abort else ret (update_xen_mappings_fails m))
  else ret false.

Definition put_page (m : Z) : M hworld unit :=
  let! p := get_page m in
  assert_ (has_flag (count_info p) PGC_count_mask) ;;;
  let nx := u64 (count_info p - 1) in
  mod_page m (set_count_info nx) ;;;
  if has_flag nx PGC_count_mask then ret tt
  else
    let! leak := cleanup_page_cacheattr m in
    if leak : bool then ret tt else free_domheap_pages m 0.

Definition page_get_owner_and_reference (m : Z) : M hworld (option Z) :=
  let! p := get_page m in
  if Z.land (u64 (count_info p + 2)) PGC_count_mask <=? 2 then ret None
  else mod_page m (set_count_info (u64 (count_info p + 1))) ;;; ret (page_get_owner p).

(** [get_page]; the name is that of a model function here. *)
Definition take_page (m d : Z) : M hworld bool :=
  let! owner := page_get_owner_and_reference m in
  if bool_decide (owner = Some d) then ret true
  else
    when (bool_decide (is_Some owner)) (put_page m) ;;;
    ret false.

Definition test_and_clear_allocated (m : Z) : M hworld bool :=
  let! p := get_page m in
  mod_page m (set_count_info (Z.ldiff (count_info p) PGC_allocated)) ;;;
  ret (has_flag (count_info p) PGC_allocated).

Definition test_and_clear_pinned (m : Z) : M hworld bool :=
  let! p := get_page m in
  mod_page m (set_type_info (Z.ldiff (type_info p) PGT_pinned)) ;;;
  ret (has_flag (type_info p) PGT_pinned).

Definition drop_allocated (m : Z) : M hworld unit :=
  let! b := test_and_clear_allocated m in
  when b (put_page m).

Definition drop_pinned (m : Z) : M hworld unit :=
  let! pinned := test_and_clear_pinned m in
  when pinned (put_page_type m ;;; put_page m).

(** A page loses its owner, if nothing but the owner refers to it. *)
Definition steal_page (d m memflags : Z) : M hworld Z :=
  let! p := get_page m in
  let c := count_info p in
  if has_flag c PGC_xen_heap || negb (bool_decide (page_get_owner p = Some d)) then ret (- 1)
  else if negb (Z.land c (Z.lor PGC_count_mask PGC_allocated) =? Z.lor 1 PGC_allocated) then ret (- 1)
  else
    mod_page m (fun p => set_count_info (Z.lor (Z.ldiff c PGC_count_mask) 1) (page_set_owner None p)) ;;;
    let! x := get_hdom d in
    let counted := negb (has_flag memflags MEMF_no_refcount) in
    let tot := if counted then u32 (tot_pages x - 1) else tot_pages x in
    (if bool_decide (m ∈ page_list x) then mod_hdom d (set_dom_pages tot (filter (fun y => y <> m) (page_list x))) else fail Uninitialized) ;;;
    when (counted && (tot =? 0)) (event (PutDom d)) ;;;
    ret 0.

(** ** Requests *)

Record memop_args : Type := Memop {
  ma_domain : Z;
  nr_extents : Z;
  extent_order : Z;
  memflags : Z;
  nr_done : Z;
  preempted : bool
}.
Definition set_done (r : Z * bool) (a : memop_args) : memop_args := Memop (ma_domain a) (nr_extents a) (extent_order a) (memflags a) r.1 r.2.

Definition multipage_allocation_permitted (order : Z) : bool := (order <=? 9) || has_io_caps.

(** [1 << order] of type [int]; larger shifts are not defined. *)
Definition int_shl (order : Z) : M hworld Z := if (0 <=? order) && (order <? 31) then ret (2 ^ order) else fail OutOfBounds.

(** The loop over the extents: [body] says whether to go on. *)
Fixpoint extents (n : nat) (i : Z) (body : Z -> M hworld bool) : M hworld (Z * bool) :=
  match n with
  | O => ret (i, false)
  | S n =>
      if hypercall_preempt_check i then ret (i, true)
      else
        let! go := body i in
        if go : bool then extents n (i + 1) body else ret (i, false)
  end.

Definition for_extents (a : memop_args) (body : Z -> M hworld bool) : M hworld memop_args :=
  let! r := extents (Z.to_nat (nr_extents a - nr_done a)) (nr_done a) body in
  ret (set_done r a).

Definition write_extent (i mfn : Z) : M hworld bool :=
  if extent_writable i then event (ExtentWrite i mfn) ;;; ret true else ret false.

Definition increase_reservation (a : memop_args) : M hworld memop_args :=
  if negb extent_list_null && negb extent_list_okay then ret a
  else if negb (multipage_allocation_permitted (extent_order a)) then ret a
  else
    for_extents a (fun i =>
      let! page := alloc_domheap_pages (Some (ma_domain a)) (extent_order a) (memflags a) in
      match page with
      | None => ret false
      | Some mfn => if extent_list_null then ret true else write_extent i mfn
      end).

Definition populate_extent (a : memop_args) (i gpfn : Z) : M hworld bool :=
  let d := ma_domain a in
  let! page := alloc_domheap_pages (Some d) (extent_order a) (memflags a) in
  match page with
  | None => ret false
  | Some mfn =>
      event (PhysmapAdd d gpfn mfn (extent_order a)) ;;;
      if paging_mode_translate d then ret true
      else
        let! n := int_shl (extent_order a) in
        for_ (Z.to_nat n) 0 (fun j => set_gpfn_from_mfn (mfn + j) (u64 (gpfn + j))) ;;;
        write_extent i mfn
  end.

Definition populate_physmap (a : memop_args) : M hworld memop_args :=
  if negb extent_list_okay then ret a
  else if negb (multipage_allocation_permitted (extent_order a)) then ret a
  else
    for_extents a (fun i =>
      match extent_at i with
      | None => ret false
      | Some gpfn =>
          if has_flag (memflags a) MEMF_populate_on_demand then ret (negb (mark_populate_on_demand (ma_domain a) gpfn (extent_order a) <? 0))
          else populate_extent a i gpfn
      end).

(** The page of a guest frame loses the references of its owner. *)
Definition remove_plain (d gmfn mfn : Z) : M hworld bool :=
  let! ok := take_page mfn d in
  if negb ok then ret false
  else
    drop_pinned mfn ;;;
    drop_allocated mfn ;;;
    event (PhysmapRemove d gmfn mfn) ;;;
    put_page mfn ;;;
    ret true.

Definition guest_remove_page (d gmfn : Z) : M hworld bool :=
  let! q := gets (get_gfn_query d gmfn) in
  let '(mfn, t) := q in
  match t with
  | P2mPagingOut | P2mPaged =>
      event (PhysmapRemove d gmfn mfn) ;;;
      match t with P2mPagingOut => assert_ (mfn_valid mfn) ;;; drop_allocated mfn | _ => ret tt end ;;;
      event (PagingDrop d gmfn) ;;;
      ret true
  | _ =>
      if negb (mfn_valid mfn) then ret false
      else
        match t with
        | P2mShared =>
            let! failed := mem_sharing_unshare_page d gmfn in
            if failed : bool then event (SharingEnomem d gmfn) ;;; ret false
            else
              let! q := gets (get_gfn_query d gmfn) in
              let '(mfn, t) := q in
              assert_ (match t with P2mShared => false | _ => true end) ;;;
              remove_plain d gmfn mfn
        | _ => remove_plain d gmfn mfn
        end
  end.

Fixpoint remove_pages (n : nat) (d gmfn : Z) : M hworld bool :=
  match n with
  | O => ret true
  | S n => let! ok := guest_remove_page d gmfn in if ok : bool then remove_pages n d (u64 (gmfn + 1)) else ret false
  end.

Definition decrease_reservation (a : memop_args) : M hworld memop_args :=
  if negb extent_list_okay then ret a
  else
    for_extents a (fun i =>
      match extent_at i with
      | None => ret false
      | Some gmfn =>
          if is_hvm_domain (ma_domain a) && p2m_pod_decrease_reservation (ma_domain a) gmfn (extent_order a) then ret true
          else let! n := int_shl (extent_order a) in remove_pages (Z.to_nat n) (ma_domain a) gmfn
      end).

(** ** The hypercall *)

Record reservation : Type := Reservation { rs_nr_extents : Z; rs_extent_order : Z; rs_mem_flags : Z; rs_domid : Z }.
Inductive memop : Type := XENMEM_increase_reservation | XENMEM_decrease_reservation | XENMEM_populate_physmap.
Definition op_code (op : memop) : Z := match op with XENMEM_increase_reservation => 0 | XENMEM_decrease_reservation => 1 | XENMEM_populate_physmap => 6 end.
Definition MEMOP_EXTENT_SHIFT : Z := 6.

(** The result, or the command with which the hypercall is made again. *)
Inductive memop_ret : Type := MemRet (rc : Z) | MemAgain (cmd : Z).

Definition int32 (x : Z) : Z := (x + 2 ^ 31) mod 2 ^ 32 - 2 ^ 31.

(** The flags of the allocation, unless the address width is too small. *)
Definition reservation_flags (op : memop) (r : reservation) : option Z :=
  let address_bits := XENMEMF_get_address_bits (rs_mem_flags r) in
  let limited := negb (address_bits =? 0) && (address_bits <? get_order_from_pages max_page + PAGE_SHIFT) in
  if limited && (address_bits <=? PAGE_SHIFT) then None
  else
    let f := if limited then MEMF_bits address_bits else 0 in
    let f := Z.lor f (MEMF_node (XENMEMF_get_node (rs_mem_flags r))) in
    let f := if has_flag (rs_mem_flags r) XENMEMF_exact_node_request then Z.lor f MEMF_exact_node else f in
    Some (match op with XENMEM_populate_physmap => if has_flag (rs_mem_flags r) XENMEMF_populate_on_demand then Z.lor f MEMF_populate_on_demand else f | _ => f end).

Definition target_domain (domid : Z) : option Z :=
  if domid =? DOMID_SELF then Some current_domain
  else match domain_by_id domid with Some d => if is_priv_for d then Some d else None | None => None end.

(** The three operations. *)
Definition run_op (op : memop) (a : memop_args) : M hworld memop_args :=
  match op with
  | XENMEM_increase_reservation => increase_reservation a
  | XENMEM_decrease_reservation => decrease_reservation a
  | XENMEM_populate_physmap => populate_physmap a
  end.

(** [r] is what was copied from the guest. *)
Definition do_memory_op (op : memop) (start_extent : Z) (r : option reservation) : M hworld memop_ret :=
  match r with
  | None => ret (MemRet start_extent)
  | Some r =>
      if UINT64_MAX / 2 ^ MEMOP_EXTENT_SHIFT <? rs_nr_extents r then ret (MemRet start_extent)
      else if rs_nr_extents r <=? start_extent then ret (MemRet start_extent)
      else
        match reservation_flags op r, target_domain (rs_domid r) with
        | Some flags, Some d =>
            let rc := xsm_memory_adjust_reservation d in
            if negb (rc =? 0) then ret (MemRet rc)
            else
              let a := Memop d (u32 (rs_nr_extents r)) (rs_extent_order r) flags (u32 start_extent) false in
              let! a := run_op op a in
              let rc := int32 (nr_done a) in
              if preempted a then ret (MemAgain (Z.lor (op_code op) (int32 (Z.shiftl rc MEMOP_EXTENT_SHIFT)))) else ret (MemRet rc)
        | _, _ => ret (MemRet start_extent)
        end
  end.
End Memop.
