(* ===== verification/MemopFacts.v ===== *)
(** * Memory reservations: references

    The references to a page cover its type references and that of its owner, so that a page
    that goes back to the heap is not in use any more. *)

From S2P Require Import Prelude.
From S2P Require Import Xen.
From S2P Require Import PageAlloc.
From S2P Require Import PageFacts.
From S2P Require Import PageCount.
From S2P Require Import PageSearch.
From S2P Require Import PageOps.
From S2P Require Import PageFree.
From S2P Require Import PageDom.
From S2P Require Import PageInit.
From S2P Require Import Memop.

(** ** Counters and flags in one word *)

Definition COUNT_BITS : Z := 55.
Definition gcount (p : page_info) : Z := Z.land (count_info p) PGC_count_mask.
Definition tcount (p : page_info) : Z := Z.land (type_info p) PGT_count_mask.
Definition aref (p : page_info) : Z := if has_flag (count_info p) PGC_allocated then 1 else 0.

Lemma count_mod c : Z.land c PGC_count_mask = c mod 2 ^ 55.
Proof. unfold PGC_count_mask. replace (2 ^ 55 - 1) with (Z.ones 55) by done. by apply Z.land_ones. Qed.

(** A flag above the counter depends on the upper part of the word only. *)
Lemma flag_upper c c' f : c / 2 ^ 55 = c' / 2 ^ 55 -> Z.land c (f * 2 ^ 55) = Z.land c' (f * 2 ^ 55).
Proof.
  intros E. rewrite <- !Z.shiftr_div_pow2 in E by done. rewrite <- Z.shiftl_mul_pow2 by done. apply Z.bits_inj'. intros i Hi. rewrite !Z.land_spec.
  destruct (Z.lt_ge_cases i 55); [rewrite Z.shiftl_spec_low by done; by rewrite !andb_false_r|].
  assert (Z.testbit c i = Z.testbit c' i) as ->; [|done]. replace i with ((i - 55) + 55) by lia. rewrite <- !Z.shiftr_spec by lia. by rewrite E.
Qed.

Lemma has_flag_upper c c' f : c / 2 ^ 55 = c' / 2 ^ 55 -> has_flag c (f * 2 ^ 55) = has_flag c' (f * 2 ^ 55).
Proof. intros E. unfold has_flag. by rewrite (flag_upper c c' f E). Qed.

Lemma step_upper c k : 0 <= c mod 2 ^ 55 + k < 2 ^ 55 -> (c + k) / 2 ^ 55 = c / 2 ^ 55 /\ (c + k) mod 2 ^ 55 = c mod 2 ^ 55 + k.
Proof.
  intros Hk. pose proof (Z.div_mod c (2 ^ 55) ltac:(done)) as E. split.
  - symmetry. apply (Z.div_unique_pos _ _ _ (c mod 2 ^ 55 + k)); [lia|]. lia.
  - symmetry. apply (Z.mod_unique_pos _ _ (c / 2 ^ 55)); [lia|]. lia.
Qed.

(** Clearing bits leaves the others. *)
Lemma clear_keeps c a f : Z.land a f = 0 -> Z.land (Z.ldiff c a) f = Z.land c f.
Proof.
  intros Ha. apply Z.bits_inj'. intros i Hi. rewrite !Z.land_spec, Z.ldiff_spec. assert (Z.testbit a i && Z.testbit f i = false) as E by (rewrite <- Z.land_spec, Ha; apply Z.testbit_0_l).
  destruct (Z.testbit c i), (Z.testbit a i), (Z.testbit f i); done.
Qed.

Lemma clear_flag_keeps c a f : Z.land a f = 0 -> has_flag (Z.ldiff c a) f = has_flag c f.
Proof. intros Ha. unfold has_flag. by rewrite clear_keeps. Qed.

Lemma clear_flag_gone c a : has_flag (Z.ldiff c a) a = false.
Proof. unfold has_flag. rewrite land_ldiff_same. done. Qed.

Lemma ldiff_range c a : 0 <= c < 2 ^ 64 -> 0 <= a -> 0 <= Z.ldiff c a < 2 ^ 64.
Proof.
  intros Hc Ha. assert (Z.ldiff c (Z.land c a) = Z.ldiff c a) as E1 by (apply Z.bits_inj'; intros i Hi; rewrite !Z.ldiff_spec, Z.land_spec; by destruct (Z.testbit c i), (Z.testbit a i)).
  assert (Z.ldiff (Z.land c a) c = 0) as E2 by (apply Z.bits_inj'; intros i Hi; rewrite Z.ldiff_spec, Z.land_spec, Z.testbit_0_l; by destruct (Z.testbit c i), (Z.testbit a i)).
  pose proof (Z.sub_nocarry_ldiff c (Z.land c a) E2) as E3. rewrite E1 in E3. assert (0 <= Z.land c a) by (apply Z.land_nonneg; lia). split; [apply Z.ldiff_nonneg; lia|lia].
Qed.

(** A reference is taken only where the counter has room. *)
Lemma count_room c : 2 < u64 (c + 2) mod 2 ^ 55 <-> 1 <= c mod 2 ^ 55 <= 2 ^ 55 - 3.
Proof.
  unfold u64. change 18446744073709551616 with (2 ^ 64). rewrite Z.mod_mod_divide by (exists (2 ^ 9); done). rewrite <- (Zplus_mod_idemp_l c).
  pose proof (Z.mod_pos_bound c (2 ^ 55) ltac:(done)) as Hg. set (g := c mod 2 ^ 55) in *. destruct (Z.lt_ge_cases (g + 2) (2 ^ 55)).
  - rewrite Z.mod_small by lia. lia.
  - assert ((g + 2) mod 2 ^ 55 = g + 2 - 2 ^ 55) as E by (symmetry; apply (Z.mod_unique_pos _ _ 1); lia). lia.
Qed.

(** ** The invariant *)

Section Facts.
Context `{HeapEnv} `{MemEnv}.

(** The word is a 64-bit word; [extra] references to page [m0] are held by the running code. *)
Record ref_ok (extra : Z) (p : page_info) : Prop := RefOk {
  ro_word : 0 <= count_info p < 2 ^ 64;
  ro_refs : tcount p + aref p + extra <= gcount p;
  ro_pin : has_flag (type_info p) PGT_pinned = true -> 1 <= tcount p
}.

Definition extra_at (m0 k m : Z) : Z := if decide (m = m0) then k else 0.
Definition refs (m0 k : Z) (w : hworld) : Prop := forall d x m p, hdoms w !! d = Some x -> m ∈ page_list x -> pages w !! m = Some p -> ref_ok (extra_at m0 k m) p.

(** Every page with references and an owner is in the owner's list. *)
Definition owner_listed (w : hworld) : Prop := forall m p, pages w !! m = Some p -> gcount p <> 0 -> v p <> 0 -> exists x, hdoms w !! v p = Some x /\ m ∈ page_list x.

Record minv (m0 k : Z) (w : hworld) : Prop := MInv {
  mi_dom : dinv w;
  mi_refs : refs m0 k w;
  mi_own : owner_listed w;
  mi_words m p : pages w !! m = Some p -> 0 <= count_info p < 2 ^ 64
}.

Lemma free_count w m p : dinv w -> pages w !! m = Some p -> is_free w m -> count_info p = PGC_state_free /\ gcount p = 0.
Proof.
  intros [[I _] _] Hp (q & Hq & Hf). assert (q = p) as -> by congruence. pose proof (hi_count _ _ _ I m p Hp Hf) as E. unfold gcount. by rewrite E.
Qed.

(** The pages that changed are free or in the list of their owner. *)
Lemma minv_frame m0 k w w' :
  minv m0 k w -> dinv w' ->
  (forall m p', pages w' !! m = Some p' -> pages w !! m = Some p' \/ is_free w' m \/ exists x', hdoms w' !! v p' = Some x' /\ m ∈ page_list x') ->
  (forall e x m, hdoms w !! e = Some x -> m ∈ page_list x -> is_free w' m \/ exists x', hdoms w' !! e = Some x' /\ m ∈ page_list x') ->
  (forall e x' m p', hdoms w' !! e = Some x' -> m ∈ page_list x' -> pages w' !! m = Some p' -> (exists x, hdoms w !! e = Some x /\ m ∈ page_list x /\ pages w !! m = Some p') \/ ref_ok (extra_at m0 k m) p') ->
  minv m0 k w'.
Proof.
  intros [I1 I2 I3 I4] HI' H1 H2 H3. assert (refs m0 k w') as HR.
  { intros e x' m p' Hx' Hm Hp'. destruct (H3 e x' m p' Hx' Hm Hp') as [(x & Hx & Hmx & Hp)|?]; [by eapply I2|done]. }
  split; [done|done| |].
  - intros m p' Hp' Hg Hv. destruct (H1 m p' Hp') as [Hp|[Hf|?]]; [|by destruct (free_count w' m p' HI' Hp' Hf)|done].
    destruct (I3 m p' Hp Hg Hv) as (x & Hx & Hm). destruct (H2 _ x m Hx Hm) as [Hf|?]; [by destruct (free_count w' m p' HI' Hp' Hf)|done].
  - intros m p' Hp'. destruct (H1 m p' Hp') as [Hp|[Hf|(x' & Hx' & Hm)]]; [by eapply I4|destruct (free_count w' m p' HI' Hp' Hf) as [-> _]; done|]. by destruct (HR _ x' m p' Hx' Hm Hp').
Qed.

Lemma refs_none m0 m1 w : refs m0 0 w -> refs m1 0 w.
Proof. intros HR d x m p Hx Hm Hp. specialize (HR d x m p Hx Hm Hp). unfold extra_at in *. by repeat case_decide. Qed.

Lemma minv_none m0 m1 w : minv m0 0 w -> minv m1 0 w.
Proof. intros [I1 I2 I3 I4]. split; try done. by eapply refs_none. Qed.

(** A page of a domain is changed without changing its owner or state. *)
Definition touched (p p' : page_info) : Prop := v p' = v p /\ Z.land (count_info p') PGC_state = Z.land (count_info p) PGC_state /\ Z.land (count_info p') PGC_broken = Z.land (count_info p) PGC_broken /\
  has_flag (count_info p') PGC_xen_heap = has_flag (count_info p) PGC_xen_heap.

Lemma touch_dinv d x m p p' w : dinv w -> hdoms w !! d = Some x -> m ∈ page_list x -> pages w !! m = Some p -> touched p p' -> dinv (set_pages (<[m := p']> (pages w)) w).
Proof.
  intros HI Hx Hm Hp (T1 & T2 & T3 & T4). pose proof (do_pages _ _ _ (di_dom _ HI d x Hx) m Hm) as Hown. set (w' := set_pages _ w).
  destruct Hown as [(q & Hq & Hv & [Hu1 Hu2] & Hxh) _ _ _]. assert (q = p) as -> by congruence.
  assert (busy_change w w') as HB.
  { intros i. simpl. destruct (decide (i = m)) as [->|Hne]; [right|left; by rewrite lookup_insert_ne]. rewrite lookup_insert_eq. split_and!; [| |done].
    - intros (q & Hq' & Hf). assert (q = p) as -> by congruence. unfold page_state_is in Hf. rewrite Hu1 in Hf. done.
    - intros (q & Hq' & Hf). simpl in Hq'. rewrite lookup_insert_eq in Hq'. injection Hq' as <-. unfold page_state_is in Hf. rewrite T2, Hu1 in Hf. done. }
  split; [by apply (busy_heap_ok true w); [apply HI|..]|]. intros e y Hy. destruct (di_dom _ HI e y Hy) as [D1 D2 D3 D4 D5 D6 D7 D8]. split; try done. intros i Hi. destruct (D8 i Hi) as [(r & Hr & Hrv & [Hr1 Hr2] & Hrx) R2 R3 R4].
  split; try done. simpl. destruct (decide (i = m)) as [->|Hne]; [|rewrite lookup_insert_ne by done; exists r; done]. rewrite lookup_insert_eq. assert (r = p) as -> by congruence.
  exists p'. split_and!; [done|congruence|split; congruence|congruence].
Qed.

Lemma gcount_range p : 0 <= gcount p < 2 ^ 55.
Proof. unfold gcount. rewrite count_mod. apply Z.mod_pos_bound. done. Qed.
Lemma tcount_nonneg p : 0 <= tcount p.
Proof. unfold tcount. apply Z.land_nonneg. right. done. Qed.
Lemma aref_range p : 0 <= aref p <= 1.
Proof. unfold aref. destruct (has_flag _ _); lia. Qed.
Lemma count_flag p : has_flag (count_info p) PGC_count_mask = negb (gcount p =? 0).
Proof. done. Qed.

(** The counter goes up or down by one; the flags stay. *)
Lemma count_step p k : 0 <= count_info p < 2 ^ 64 -> 0 <= gcount p + k < 2 ^ 55 ->
  let p' := set_count_info (u64 (count_info p + k)) p in 0 <= count_info p' < 2 ^ 64 /\ gcount p' = gcount p + k /\ aref p' = aref p /\ touched p p' /\ has_flag (count_info p') PGC_cacheattr_mask = has_flag (count_info p) PGC_cacheattr_mask.
Proof.
  intros Hc Hg. unfold gcount in *. rewrite count_mod in *. destruct (step_upper (count_info p) k Hg) as [Hd Hm].
  assert (0 <= count_info p + k < 2 ^ 64) as Hw.
  { pose proof (Z.div_mod (count_info p) (2 ^ 55) ltac:(done)) as E1. pose proof (Z.div_mod (count_info p + k) (2 ^ 55) ltac:(done)) as E2. rewrite Hd in E2. rewrite Hm in E2.
    assert (0 <= count_info p / 2 ^ 55 < 2 ^ 9) as Hq by (split; [apply Z.div_pos; lia|apply Z.div_lt_upper_bound; [done|]; change (2 ^ 55 * 2 ^ 9) with (2 ^ 64); lia]).
    change (2 ^ 64) with (2 ^ 55 * 2 ^ 9). nia. }
  assert (u64 (count_info p + k) = count_info p + k) as -> by (unfold u64; apply Z.mod_small; change 18446744073709551616 with (2 ^ 64); lia). simpl. rewrite count_mod.
  assert (forall f, Z.land (count_info p + k) (f * 2 ^ 55) = Z.land (count_info p) (f * 2 ^ 55)) as HF by (intros f; by apply flag_upper).
  assert (forall f, has_flag (count_info p + k) (f * 2 ^ 55) = has_flag (count_info p) (f * 2 ^ 55)) as HG by (intros f; by apply has_flag_upper).
  split_and!; [lia|lia|done| |unfold touched; simpl; split_and!; [done|exact (HF 3)|exact (HF 4)|exact (HG 128)]|exact (HG 56)].
  unfold aref. simpl. change PGC_allocated with (256 * 2 ^ 55). by rewrite HG.
Qed.

Lemma touch_refs m0 k k' p p' w d x :
  refs m0 k w -> dinv w -> hdoms w !! d = Some x -> m0 ∈ page_list x -> pages w !! m0 = Some p -> ref_ok k' p' -> refs m0 k' (set_pages (<[m0 := p']> (pages w)) w).
Proof.
  intros HR HI Hx Hm Hp Hok e y m q Hy Hmy Hq. simpl in Hq. unfold extra_at. destruct (decide (m = m0)) as [->|Hne].
  - rewrite lookup_insert_eq in Hq. injection Hq as <-. done.
  - rewrite lookup_insert_ne in Hq by done. specialize (HR e y m q Hy Hmy Hq). unfold extra_at in HR. by rewrite decide_False in HR.
Qed.

(** What happens to a page that loses a reference. *)
Definition dropped (d m : Z) (p : page_info) (w w' : hworld) : Prop :=
  (gcount p <> 1 /\ w' = set_pages (<[m := set_count_info (u64 (count_info p - 1)) p]> (pages w)) w) \/
  (gcount p = 1 /\ exists p' w1, w1 = set_pages (<[m := p']> (pages w)) w /\ gcount p' = 0 /\ touched p p' /\ hdoms w1 = hdoms w /\
    ((w' = w1 /\ has_flag (count_info p) PGC_cacheattr_mask = true) \/ exists x, hdoms w !! d = Some x /\ returned d x m 0 w1 w')).

Lemma returned_minv d x m w w' : minv m 0 w -> hdoms w !! d = Some x -> returned d x m 0 w w' -> minv m 0 w'.
Proof.
  intros MI Hx R. pose proof (mi_dom _ _ _ MI) as HI. destruct (re_dom _ _ _ _ _ _ R) as (x' & Hx' & El & _). assert (in_block m 0 m) as Hself by by apply in_block_self.
  assert (forall i, in_block m 0 i <-> i = m) as Hb by (intros i; unfold in_block; change (2 ^ 0) with 1; lia).
  assert (forall i, is_free w' i <-> is_free w i \/ i = m) as HF by (intros i; rewrite <- !elem_of_free_all, (re_free _ _ _ _ _ _ R), elem_of_union, elem_of_block_set, Hb; done).
  assert (forall e y i, hdoms w' !! e = Some y -> i ∈ page_list y -> exists y0, hdoms w !! e = Some y0 /\ i ∈ page_list y0 /\ i <> m) as Hback.
  { intros e y i Hy Hi. assert (i <> m) as Hne by (intros ->; eapply owned_not_free; [by eapply (do_pages _ _ _ (di_dom _ (re_inv _ _ _ _ _ _ R) e y Hy))|apply HF; by right]).
    destruct (decide (e = d)) as [->|Hed]; [|exists y; by rewrite <- (re_others _ _ _ _ _ _ R)]. assert (y = x') as -> by congruence. rewrite El in Hi. apply list_elem_of_filter in Hi as [_ Hi]. by exists x. }
  apply (minv_frame m 0 w); [done|apply R| | |].
  - intros i p' Hp'. destruct (decide (is_free w' i)) as [|Hnf]; [tauto|]. left. rewrite HF in Hnf. rewrite <- (re_keep _ _ _ _ _ _ R i); [done|rewrite Hb; tauto|tauto].
  - intros e y i Hy Hi. destruct (decide (i = m)) as [->|Hne]; [left; apply HF; by right|right]. destruct (decide (e = d)) as [->|Hed]; [|exists y; by rewrite (re_others _ _ _ _ _ _ R)]. assert (y = x) as -> by congruence.
    exists x'. split; [done|]. rewrite El. apply list_elem_of_filter. split; [change (2 ^ 0) with 1; lia|done].
  - intros e y i p' Hy Hi Hp'. left. destruct (Hback e y i Hy Hi) as (y0 & Hy0 & Hi0 & Hne). exists y0. split_and!; try done. rewrite <- (re_keep _ _ _ _ _ _ R i); [done|by rewrite Hb|].
    by eapply owned_not_free, (do_pages _ _ _ (di_dom _ HI e y0 Hy0)).
Qed.

(** A change to a page of a domain. *)
Lemma touch_minv m0 k k' p p' w d x :
  minv m0 k w -> hdoms w !! d = Some x -> m0 ∈ page_list x -> pages w !! m0 = Some p -> touched p p' -> ref_ok k' p' -> minv m0 k' (set_pages (<[m0 := p']> (pages w)) w).
Proof.
  intros [I1 I2 I3 I4] Hx Hm Hp T Hok. split; [by eapply touch_dinv|by eapply touch_refs| |].
  - intros i q Hq Hg Hv. simpl in Hq. destruct (decide (i = m0)) as [->|Hne]; [|rewrite lookup_insert_ne in Hq by done; by apply (I3 i q)]. rewrite lookup_insert_eq in Hq. injection Hq as <-.
    destruct (do_pages _ _ _ (di_dom _ I1 d x Hx) m0 Hm) as [(q & Hq & Hvq & _) _ _ _]. assert (q = p) as -> by congruence. destruct T as (-> & _). rewrite Hvq. by exists x.
  - intros i q Hq. simpl in Hq. destruct (decide (i = m0)) as [->|Hne]; [rewrite lookup_insert_eq in Hq; injection Hq as <-; apply Hok|rewrite lookup_insert_ne in Hq by done; by eapply I4].
Qed.

Lemma put_page_spec d x m p k w :
  machine_ok -> minv m k w -> 1 <= k -> hdoms w !! d = Some x -> m ∈ page_list x -> pages w !! m = Some p -> wp no_error (put_page m) (fun _ w' => minv m (k - 1) w' /\ dropped d m p w w') w.
Proof.
  intros HM MI Hk Hx Hm Hp. pose proof (mi_dom _ _ _ MI) as HI. destruct (mi_refs _ _ _ MI d x m p Hx Hm Hp) as [Hw Hrefs Hpin]. unfold extra_at in Hrefs. rewrite decide_True in Hrefs by done.
  pose proof (gcount_range p) as Hg. pose proof (tcount_nonneg p) as Ht. pose proof (aref_range p) as Ha. unfold put_page. wp_step. eapply wp_get_page; [done|]. wp_step. rewrite count_flag. apply wp_assert; [destruct (Z.eqb_spec (gcount p) 0); [lia|done]|].
  destruct (count_step p (-1) Hw ltac:(lia)) as (S1 & S2 & S3 & S4 & S5). set (p1 := set_count_info (u64 (count_info p + -1)) p) in *. change (u64 (count_info p - 1)) with (u64 (count_info p + -1)). fold p1 in S2.
  wp_step. eapply wp_mod_page; [done|]. fold p1. set (w1 := set_pages (<[m := p1]> (pages w)) w).
  assert (minv m (k - 1) w1) as M1 by (eapply touch_minv; try done; split; [done|rewrite S2, S3; change (tcount p1) with (tcount p); lia|done]).
  change (has_flag (u64 (count_info p + -1)) PGC_count_mask) with (has_flag (count_info p1) PGC_count_mask). rewrite count_flag, S2.
  destruct (Z.eqb_spec (gcount p + -1) 0) as [Hz|Hz]; cbn [negb]; [|wp_step; split; [done|left; split; [lia|done]]].
  assert (gcount p = 1 /\ tcount p = 0 /\ aref p = 0 /\ k = 1) as (Hg1 & Ht0 & Ha0 & ->) by lia. change (1 - 1) with 0 in *.
  assert (pages w1 !! m = Some p1) as Hp1 by (simpl; by rewrite lookup_insert_eq). assert (hdoms w1 !! d = Some x) as Hx1 by done.
  assert (forall w2 p2, minv m 0 w2 -> w2 = set_pages (<[m := p2]> (pages w)) w -> tcount p2 = 0 -> gcount p2 = 0 -> touched p p2 -> wp no_error (free_domheap_pages m 0) (fun _ w' => minv m 0 w' /\ dropped d m p w w') w2) as Hfree.
  { intros w2 p2 M2 E2 Ht2 Hg2 T2. assert (hdoms w2 !! d = Some x) as Hx2 by by rewrite E2. eapply wp_mono; [apply (free_domheap_spec d x); [done|apply M2|done|]|].
    - split; [done|by exists m; rewrite Z.mul_1_r|]. intros i Hi. unfold in_block in Hi. change (2 ^ 0) with 1 in Hi. replace i with m by lia. split_and!; [done|done|]. exists p2. rewrite E2. simpl. rewrite lookup_insert_eq. split; [done|].
      unfold has_flag. change (Z.land (type_info p2) PGT_count_mask) with (tcount p2). by rewrite Ht2.
    - intros [] w3 R. split; [by eapply returned_minv|]. right. split; [done|]. exists p2, w2. split_and!; try done; [by rewrite E2|]. right. by exists x. }
  wp_step. unfold cleanup_page_cacheattr. wp_step. eapply wp_get_page; [exact Hp1|]. destruct (has_flag (count_info p1) PGC_cacheattr_mask) eqn:Hca.
  - destruct (do_pages _ _ _ (di_dom _ HI d x Hx) m Hm) as [(q & Hq & _ & _ & Hxh) _ _ _]. assert (q = p) as -> by congruence. destruct S4 as (T1 & T2 & T3 & T4). rewrite T4, Hxh.
    wp_step. eapply wp_mod_page; [exact Hp1|]. set (p2 := set_count_info (Z.ldiff (count_info p1) PGC_cacheattr_mask) p1). simpl. rewrite insert_insert_eq. set (w2 := set_pages _ _).
    assert (gcount p2 = 0) as Hg2 by (unfold gcount, p2; simpl; rewrite clear_keeps by done; change (gcount p1 = 0); lia).
    assert (touched p p2) as Tp by (unfold touched, p2; simpl; rewrite !clear_keeps, clear_flag_keeps by done; done).
    assert (minv m 0 w2) as M2.
    { assert (w2 = set_pages (<[m := p2]> (pages w)) w) as -> by done. eapply touch_minv; try done. split; [unfold p2; simpl| |done].
      - apply ldiff_range; [exact S1|done].
      - rewrite Hg2. assert (tcount p2 = 0) as -> by done. assert (aref p2 = 0) as ->; [|lia]. unfold aref, p2. simpl. rewrite clear_flag_keeps by done. change (aref p1 = 0). lia. }
    wp_step. destruct (update_xen_mappings_fails m); [wp_step|by apply (Hfree w2 p2)]. split; [done|]. right. split; [done|]. exists p2, w2. split_and!; try done. left. split; [done|]. congruence.
  - wp_step. apply (Hfree w1 p1); try done. lia.
Qed.

Definition quiet (w w' : hworld) : Prop := hdoms w' = hdoms w /\ free_all w' = free_all w.

Lemma touch_free m p p' w : pages w !! m = Some p -> touched p p' -> free_all (set_pages (<[m := p']> (pages w)) w) = free_all w.
Proof.
  intros Hp (_ & T & _). apply set_eq. intros i. rewrite !elem_of_free_all. unfold is_free. simpl. destruct (decide (i = m)) as [->|Hne]; [|by rewrite lookup_insert_ne]. rewrite lookup_insert_eq, Hp. unfold page_state_is.
  split; intros (q & [= <-] & Hf); [exists p|exists p']; (split; [done|]); by rewrite T in * || rewrite <- T.
Qed.

(** A page without an owner. *)
Lemma touch_nobody m0 m k p p' w : minv m0 k w -> pages w !! m = Some p -> v p = 0 -> gcount p <> 0 -> touched p p' -> 0 <= count_info p' < 2 ^ 64 -> minv m0 k (set_pages (<[m := p']> (pages w)) w).
Proof.
  intros [I1 I2 I3 I4] Hp Hv Hg T Hw. assert (~ is_free w m) as Hnf by (intros Hf; by destruct (free_count w m p I1 Hp Hf)).
  assert (forall e y, hdoms w !! e = Some y -> m ∉ page_list y) as Hno.
  { intros e y Hy Hin. pose proof (di_dom _ I1 e y Hy) as D. destruct (do_pages _ _ _ D m Hin) as [(q & Hq & Hvq & _) _ _ _]. pose proof (proj1 (do_id _ _ _ D)). assert (q = p) as -> by congruence. lia. }
  assert (forall i, i <> m -> pages (set_pages (<[m := p']> (pages w)) w) !! i = pages w !! i) as Hne by (intros i Hi; simpl; by rewrite lookup_insert_ne).
  assert (busy_change w (set_pages (<[m := p']> (pages w)) w)) as HB.
  { intros i. destruct (decide (i = m)) as [->|Hi]; [right|left; by apply Hne]. split_and!; [done| |simpl; by rewrite lookup_insert_eq]. rewrite <- elem_of_free_all, (touch_free m p p' w Hp T), elem_of_free_all. done. }
  split.
  - split; [by apply (busy_heap_ok true w); [apply I1|..]|]. intros e y Hy. destruct (di_dom _ I1 e y Hy) as [? ? ? ? ? ? ? D8]. split; try done. intros i Hi. destruct (D8 i Hi) as [O1 O2 O3 O4]. split; try done. rewrite Hne; [done|]. intros ->. by apply (Hno e y Hy).
  - intros e y i q Hy Hi Hq. rewrite Hne in Hq; [by eapply I2|]. intros ->. by apply (Hno e y Hy).
  - intros i q Hq. destruct (decide (i = m)) as [->|Hi]; [|rewrite Hne in Hq by done; by apply I3]. simpl in Hq. rewrite lookup_insert_eq in Hq. injection Hq as <-. destruct T as (-> & _). by rewrite Hv.
  - intros i q Hq. destruct (decide (i = m)) as [->|Hi]; [|rewrite Hne in Hq by done; by eapply I4]. simpl in Hq. rewrite lookup_insert_eq in Hq. injection Hq as <-. done.
Qed.

(** A reference is taken only to a page of the domain; otherwise all is as before. *)
Lemma take_page_spec d m p w :
  machine_ok -> minv m 0 w -> pages w !! m = Some p -> 0 < d ->
  wp no_error (take_page m d) (fun b w' => if b : bool then exists x, hdoms w !! d = Some x /\ m ∈ page_list x /\ v p = d /\ 1 <= gcount p <= 2 ^ 55 - 3 /\ minv m 1 w' /\ w' = set_pages (<[m := set_count_info (u64 (count_info p + 1)) p]> (pages w)) w
    else minv m 0 w' /\ quiet w w' /\ ~ (v p = d /\ 1 <= gcount p <= 2 ^ 55 - 3)) w.
Proof.
  intros HM MI Hp Hd. pose proof (mi_words _ _ _ MI m p Hp) as Hw. pose proof (gcount_range p) as Hg.
  unfold take_page, page_get_owner_and_reference. wp_step. wp_step. eapply wp_get_page; [done|]. rewrite count_mod. destruct (Z.leb_spec (u64 (count_info p + 2) mod 2 ^ 55) 2) as [Hle|Hgt].
  { wp_step. rewrite bool_decide_false by done. rewrite bool_decide_false by (by intros [? ?]). unfold when. wp_step. wp_step. wp_step. split_and!; [done|done|]. intros [_ Hr]. unfold gcount in Hr. rewrite count_mod in Hr. apply count_room in Hr. lia. }
  assert (1 <= gcount p <= 2 ^ 55 - 3) as Hgr by (unfold gcount; rewrite count_mod; by apply count_room).
  destruct (count_step p 1 Hw ltac:(lia)) as (S1 & S2 & S3 & S4 & _). set (p1 := set_count_info (u64 (count_info p + 1)) p) in *.
  wp_step. eapply wp_mod_page; [done|]. fold p1. set (w1 := set_pages (<[m := p1]> (pages w)) w). wp_step. assert (quiet w w1) as Q1 by (split; [done|by eapply touch_free]).
  destruct (decide (v p = 0)) as [Hv0|Hv0].
  - assert (page_get_owner p = None) as -> by (unfold page_get_owner; rewrite Hv0; done). rewrite bool_decide_false by done. rewrite bool_decide_false by (by intros [? ?]). unfold when. wp_step. wp_step. wp_step.
    split_and!; [|done|lia]. eapply touch_nobody; try done. lia.
  - assert (page_get_owner p = Some (v p)) as -> by (unfold page_get_owner; by apply Z.eqb_neq in Hv0 as ->). destruct (mi_own _ _ _ MI m p Hp ltac:(lia) Hv0) as (x & Hx & Hm).
    assert (minv m 1 w1) as M1.
    { eapply touch_minv; try done. destruct (mi_refs _ _ _ MI _ x m p Hx Hm Hp) as [_ Hr Hpin]. unfold extra_at in Hr. rewrite decide_True in Hr by done. split; [done|rewrite S2, S3; change (tcount p1) with (tcount p); lia|done]. }
    destruct (decide (v p = d)) as [E|Hne].
    + rewrite bool_decide_true by congruence. wp_step. exists x. rewrite <- E. split_and!; try done; lia.
    + rewrite bool_decide_false by congruence. rewrite bool_decide_true by by eexists. unfold when. wp_step. eapply wp_mono; [eapply (put_page_spec (v p) x m p1 1 w1); try done; simpl; by rewrite lookup_insert_eq|].
      intros [] w2 [M2 [[_ E2]|[Hz _]]]; [|lia]. wp_step. change (1 - 1) with 0 in M2. split_and!; [done| |tauto]. assert (w2 = w) as ->; [|done]. rewrite E2. unfold w1. simpl. rewrite insert_insert_eq.
      assert (set_count_info (u64 (u64 (count_info p + 1) - 1)) p1 = p) as ->.
      { assert (u64 (u64 (count_info p + 1) - 1) = count_info p) as ->; [|by destruct p]. unfold u64. rewrite Zminus_mod_idemp_l. replace (count_info p + 1 - 1) with (count_info p) by lia.
        apply Z.mod_small. change 18446744073709551616 with (2 ^ 64). lia. }
      rewrite insert_id by done. by destruct w.
Qed.

(** ** Giving pages back *)

(** Domain [d] has fewer pages, or the same; those it lost are free. *)
Record shrunk (d : Z) (w w' : hworld) : Prop := Shrunk {
  sh_dom x : hdoms w !! d = Some x -> exists x', hdoms w' !! d = Some x' /\ tot_pages x' <= tot_pages x /\ max_pages x' = max_pages x /\ forall i, i ∈ page_list x' -> i ∈ page_list x;
  sh_gone x x' i : hdoms w !! d = Some x -> hdoms w' !! d = Some x' -> i ∈ page_list x -> i ∈ page_list x' \/ is_free w' i;
  sh_others e : e <> d -> hdoms w' !! e = hdoms w !! e;
  sh_free : free_all w ⊆ free_all w'
}.

Lemma quiet_shrunk d w w' : quiet w w' -> shrunk d w w'.
Proof. intros [Ed Ef]. split; try (rewrite Ed); try (by rewrite Ef); [intros x Hx; by exists x|intros x x' i Hx Hx' Hi; left; congruence|done]. Qed.

Lemma shrunk_trans d w1 w2 w3 : shrunk d w1 w2 -> shrunk d w2 w3 -> shrunk d w1 w3.
Proof.
  intros [A1 A2 A3 A4] [B1 B2 B3 B4]. split.
  - intros x Hx. destruct (A1 x Hx) as (x2 & Hx2 & ? & ? & L2). destruct (B1 x2 Hx2) as (x3 & Hx3 & ? & ? & L3). exists x3. split_and!; [done|lia|congruence|auto].
  - intros x x3 i Hx Hx3 Hi. destruct (A1 x Hx) as (x2 & Hx2 & _). destruct (A2 x x2 i Hx Hx2 Hi) as [Hi2|Hf]; [by apply (B2 x2 x3)|right]. apply elem_of_free_all, B4, elem_of_free_all, Hf.
  - intros e Hne. by rewrite B3, A3.
  - set_solver.
Qed.

Lemma dropped_shrunk d m p w w' : pages w !! m = Some p -> 0 <= count_info p < 2 ^ 64 -> 1 <= gcount p -> dropped d m p w w' -> shrunk d w w'.
Proof.
  intros Hp Hw Hg [[_ ->]|(Hg1 & p' & w1 & E1 & _ & T & Ed & Hc)].
  - apply quiet_shrunk. split; [done|]. eapply touch_free; [done|]. destruct (count_step p (-1) Hw ltac:(pose proof (gcount_range p); lia)) as (_ & _ & _ & T & _). exact T.
  - assert (quiet w w1) as Q by (split; [done|rewrite E1; by eapply touch_free]). destruct Hc as [[-> _]|(x & Hx & R)]; [by apply quiet_shrunk|]. assert (hdoms w1 !! d = Some x) as Hx1 by by rewrite Ed.
    eapply shrunk_trans; [by apply quiet_shrunk|]. destruct (re_dom _ _ _ _ _ _ R) as (x' & Hx' & El & Et & Em). split.
    + intros y Hy. assert (y = x) as -> by congruence. exists x'. split_and!; [done|change (2 ^ 0) with 1 in Et; lia|done|]. rewrite El. intros i Hi. by apply list_elem_of_filter in Hi as [_ ?].
    + intros y y' i Hy Hy' Hi. assert (y = x /\ y' = x') as [-> ->] by (split; congruence). rewrite El. destruct (decide (i = m)) as [->|Hne]; [right; apply elem_of_free_all; rewrite (re_free _ _ _ _ _ _ R); apply elem_of_union_r, elem_of_block_set, in_block_self; lia|left].
      apply list_elem_of_filter. split; [change (2 ^ 0) with 1; lia|done].
    + apply R.
    + rewrite (re_free _ _ _ _ _ _ R). set_solver.
Qed.

(** What is known of [put_page_type]: it drops one type reference and changes nothing else. *)
Definition drops_type : Prop :=
  forall m p w, pages w !! m = Some p -> 1 <= tcount p -> exists t, put_page_type m w = Ok (tt, set_pages (<[m := set_type_info t p]> (pages w)) w) /\ Z.land t PGT_count_mask = tcount p - 1 /\ has_flag t PGT_pinned = has_flag (type_info p) PGT_pinned.

Lemma clear_pinned p : tcount (set_type_info (Z.ldiff (type_info p) PGT_pinned) p) = tcount p.
Proof. unfold tcount. simpl. by apply clear_keeps. Qed.

(** The reference of the owner goes; the page stays if another one is held. *)
Lemma drop_allocated_spec d x m p k w :
  machine_ok -> minv m k w -> 0 <= k -> hdoms w !! d = Some x -> m ∈ page_list x -> pages w !! m = Some p ->
  wp no_error (drop_allocated m) (fun _ w' => minv m k w' /\ shrunk d w w' /\ (1 <= k -> quiet w w' /\ exists p', pages w' !! m = Some p' /\ aref p' = 0 /\ gcount p' = gcount p - aref p /\ tcount p' = tcount p /\ has_flag (count_info p') PGC_cacheattr_mask = has_flag (count_info p) PGC_cacheattr_mask)) w.
Proof.
  intros HM MI Hk Hx Hm Hp. destruct (mi_refs _ _ _ MI d x m p Hx Hm Hp) as [Hw Hr Hpin]. unfold extra_at in Hr. rewrite decide_True in Hr by done. pose proof (tcount_nonneg p).
  unfold drop_allocated, test_and_clear_allocated. wp_step. wp_step. eapply wp_get_page; [done|]. wp_step. eapply wp_mod_page; [done|]. set (p1 := set_count_info _ p). set (w1 := set_pages _ w). wp_step.
  assert (gcount p1 = gcount p) as Eg by (unfold gcount, p1; simpl; by apply clear_keeps). assert (aref p1 = 0) as Ea by (unfold aref, p1; simpl; by rewrite clear_flag_gone).
  assert (touched p p1) as T by (unfold touched, p1; simpl; rewrite !clear_keeps, clear_flag_keeps by done; done). assert (pages w1 !! m = Some p1) as Hp1 by (simpl; by rewrite lookup_insert_eq).
  assert (minv m (k + aref p) w1) as M1 by (eapply touch_minv; try done; split; [by apply ldiff_range|rewrite Eg, Ea; change (tcount p1) with (tcount p); lia|done]).
  assert (quiet w w1) as Q by (split; [done|by eapply touch_free]). assert (aref p = if has_flag (count_info p) PGC_allocated then 1 else 0) as Har by done. destruct (has_flag (count_info p) PGC_allocated) eqn:Hal; rewrite Har in *.
  - unfold when. eapply wp_mono; [eapply (put_page_spec d x m p1 (k + 1) w1); try done; lia|]. intros [] w2 [M2 D]. replace (k + 1 - 1) with k in M2 by lia.
    split_and!; [done|eapply shrunk_trans; [by apply quiet_shrunk|]; apply (dropped_shrunk d m p1); [done|by apply ldiff_range|lia|done]|]. intros Hk1. destruct D as [[_ E2]|[Hz _]]; [|unfold gcount in *; lia].
    destruct (count_step p1 (-1) ltac:(by apply ldiff_range) ltac:(rewrite Eg; pose proof (gcount_range p); lia)) as (S1 & S2 & S3 & S4 & S5).
    split; [split; [by rewrite E2|rewrite E2, (touch_free m p1) by done; apply Q]|]. exists (set_count_info (u64 (count_info p1 - 1)) p1). rewrite E2. simpl. rewrite lookup_insert_eq.
    change (u64 (Z.ldiff (count_info p) PGC_allocated - 1)) with (u64 (count_info p1 + -1)). split_and!; [done|by rewrite S3|rewrite S2, Eg; lia|done|]. etrans; [exact S5|]. unfold p1. simpl. by apply clear_flag_keeps.
  - unfold when. wp_step. replace (k + 0) with k in M1 by lia. split_and!; [done|by apply quiet_shrunk|]. intros _. split; [done|]. exists p1. split_and!; try done; [lia|]. unfold p1. simpl. by apply clear_flag_keeps.
Qed.

(** The type references held by pinning go, and the reference for them. *)
Lemma unpin_spec d x m p k w :
  machine_ok -> drops_type -> minv m k w -> 1 <= k -> hdoms w !! d = Some x -> m ∈ page_list x -> pages w !! m = Some p ->
  wp no_error (drop_pinned m)
    (fun _ w' => minv m k w' /\ quiet w w' /\ exists p', pages w' !! m = Some p' /\ aref p' = aref p /\ (has_flag (type_info p) PGT_pinned = false -> gcount p' = gcount p /\ tcount p' = tcount p /\ has_flag (count_info p') PGC_cacheattr_mask = has_flag (count_info p) PGC_cacheattr_mask)) w.
Proof.
  intros HM HT MI Hk Hx Hm Hp. destruct (mi_refs _ _ _ MI d x m p Hx Hm Hp) as [Hw Hr Hpin]. unfold extra_at in Hr. rewrite decide_True in Hr by done. pose proof (aref_range p).
  unfold drop_pinned, test_and_clear_pinned. wp_step. wp_step. eapply wp_get_page; [done|]. wp_step. eapply wp_mod_page; [done|]. set (p1 := set_type_info _ p). set (w1 := set_pages _ w). wp_step.
  assert (tcount p1 = tcount p) as Et by apply clear_pinned. assert (touched p p1) as T by done. assert (pages w1 !! m = Some p1) as Hp1 by (simpl; by rewrite lookup_insert_eq). assert (quiet w w1) as Q by (split; [done|by eapply touch_free]).
  destruct (has_flag (type_info p) PGT_pinned) eqn:Hpn.
  - unfold when. destruct (HT m p1 w1 Hp1 ltac:(rewrite Et; auto)) as (t & Erun & Etc & Etp). wp_step. unfold wp at 1. rewrite Erun. simpl. rewrite insert_insert_eq. set (p2 := set_type_info t p). change (set_type_info t p1) with p2. set (w2 := set_pages _ _).
    assert (tcount p2 = tcount p - 1) as Et2 by (change (tcount p2) with (Z.land t PGT_count_mask); by rewrite Etc, Et). assert (touched p p2) as T2 by done. assert (pages w2 !! m = Some p2) as Hp2 by (simpl; by rewrite lookup_insert_eq).
    assert (minv m (k + 1) w2) as M2.
    { assert (w2 = set_pages (<[m := p2]> (pages w)) w) as -> by done. eapply touch_minv; try done. split; [done|rewrite Et2; change (gcount p2) with (gcount p); change (aref p2) with (aref p); lia|].
      intros Hpn2. change (type_info p2) with t in Hpn2. rewrite Etp in Hpn2. unfold p1 in Hpn2. simpl in Hpn2. by rewrite clear_flag_gone in Hpn2. }
    eapply wp_mono; [eapply (put_page_spec d x m p2 (k + 1) w2); try done; lia|]. change (gcount p2) with (gcount p). intros [] w3 [M3 [[_ E3]|[Hz _]]].
    2:{ exfalso. specialize (Hpin eq_refl). unfold dropped in *. change (gcount p2) with (gcount p) in Hz. lia. }
    replace (k + 1 - 1) with k in M3 by lia. destruct (count_step p2 (-1) Hw ltac:(change (gcount p2) with (gcount p); pose proof (gcount_range p); specialize (Hpin eq_refl); lia)) as (S1 & S2 & S3 & S4 & _).
    split_and!; [done|split; [by rewrite E3|rewrite E3, (touch_free m p2) by done; change (free_all (set_pages (<[m := p2]> (pages w)) w) = free_all w); by eapply touch_free]|]. exists (set_count_info (u64 (count_info p2 - 1)) p2). rewrite E3. simpl. rewrite lookup_insert_eq.
    split_and!; [done|exact S3|done].
  - unfold when. wp_step. assert (minv m k w1) as M1 by (eapply touch_minv; try done; split; [done|rewrite Et; exact Hr|]; intros Hq; unfold p1 in Hq; simpl in Hq; by rewrite clear_flag_gone in Hq).
    split_and!; try done. exists p1. done.
Qed.

(** A page that nothing but its owner refers to. *)
Definition sole (p : page_info) : Prop := gcount p = 1 /\ aref p = 1 /\ has_flag (type_info p) PGT_pinned = false /\ has_flag (count_info p) PGC_cacheattr_mask = false.

Lemma events_minv m k ev w : minv m k w -> minv m k (set_events ev w).
Proof. intros [I1 I2 I3 I4]. split; [by apply dinv_events|exact I2|exact I3|exact I4]. Qed.

Lemma mem_quiet_trans w1 w2 w3 : quiet w1 w2 -> quiet w2 w3 -> quiet w1 w3.
Proof. intros [E1 F1] [E2 F2]. split; congruence. Qed.

(** A domain gives back its own pages only. *)
Lemma remove_plain_spec d gmfn m p w :
  machine_ok -> drops_type -> minv m 0 w -> pages w !! m = Some p -> 0 < d ->
  wp no_error (remove_plain d gmfn m) (fun b w' => minv m 0 w' /\ shrunk d w w' /\ (b = true <-> v p = d /\ 1 <= gcount p <= 2 ^ 55 - 3) /\ (b = true -> sole p -> is_free w' m)) w.
Proof.
  intros HM HT MI Hp Hd. unfold remove_plain. wp_step. eapply wp_mono; [by eapply take_page_spec|]. intros [|] w1 Hres; cbn [negb].
  2:{ destruct Hres as (M1 & Q & Hno). wp_step. split_and!; [done|by apply quiet_shrunk|done|done]. }
  destruct Hres as (x & Hx & Hm & Hv & Hg & M1 & E1). pose proof (mi_words _ _ _ MI m p Hp) as Hw. destruct (count_step p 1 Hw ltac:(lia)) as (S1 & S2 & S3 & S4 & S5). set (p1 := set_count_info _ p) in *.
  assert (hdoms w1 !! d = Some x) as Hx1 by by rewrite E1. assert (pages w1 !! m = Some p1) as Hp1 by (rewrite E1; simpl; by rewrite lookup_insert_eq). assert (quiet w w1) as Q1 by (rewrite E1; split; [done|by eapply touch_free]).
  wp_step. eapply wp_mono; [eapply (unpin_spec d x m p1 1 w1); try done; lia|]. intros [] w2 (M2 & Q2 & p2 & Hp2 & Ea2 & Es2). assert (hdoms w2 !! d = Some x) as Hx2 by by rewrite (proj1 Q2).
  wp_step. eapply wp_mono; [eapply (drop_allocated_spec d x m p2 1 w2); try done; lia|]. intros [] w3 (M3 & _ & Hres). destruct (Hres ltac:(done)) as (Q3 & p3 & Hp3 & Ea3 & Eg3 & Et3 & Ec3). clear Hres.
  wp_step. unfold event. wp_step. set (w4 := set_events _ w3). assert (quiet w w4) as Q4 by (eapply mem_quiet_trans; [done|]; eapply mem_quiet_trans; [done|exact Q3]). assert (hdoms w4 !! d = Some x) as Hx4 by by rewrite (proj1 Q4).
  assert (minv m 1 w4) as M4 by by apply events_minv. destruct (mi_refs _ _ _ M4 d x m p3 Hx4 Hm Hp3) as [Hw3 Hr3 _]. unfold extra_at in Hr3. rewrite decide_True in Hr3 by done. pose proof (tcount_nonneg p3).
  wp_step. eapply wp_mono; [eapply (put_page_spec d x m p3 1 w4); try done; lia|]. intros [] w5 [M5 D]. wp_step. split_and!; [done| |done|].
  - eapply shrunk_trans; [by apply quiet_shrunk|]. by apply (dropped_shrunk d m p3); [..|lia|].
  - intros _ (Z1 & Z2 & Z3 & Z4). destruct (Es2 Z3) as (Eg2 & Et2 & Ec2). assert (gcount p3 = 1) as E by lia. destruct D as [[? _]|(_ & p' & w' & _ & _ & _ & _ & [[_ Hc]|(y & _ & R)])]; [lia|congruence|].
    apply elem_of_free_all. rewrite (re_free _ _ _ _ _ _ R). apply elem_of_union_r, elem_of_block_set, in_block_self. lia.
Qed.
End Facts.
