(* ===== verification/MemopMain.v ===== *)
(** * Memory reservations: requests

    A reservation changes the pages of the target domain only, keeps the references of every
    page, and can be interrupted and taken up again. *)

From S2P Require Import Prelude.
From S2P Require Import Xen.
From S2P Require Import PageAlloc.
From S2P Require Import PageFacts.
From S2P Require Import PageCount.
From S2P Require Import PageSearch.
From S2P Require Import PageOps.
From S2P Require Import PageFree.
From S2P Require Import PageDom.
From S2P Require Import PageInit.
From S2P Require Import Memop.
From S2P Require Import MemopFacts.
From S2P Require Import PageMain.

Section Requests.
Context `{HeapEnv} `{MemEnv}.

Definition mem_ok (w : hworld) : Prop := minv 0 0 w.

(** ** Giving pages back *)

(** A frame being paged out is a page of the domain; shared frames are not considered. *)
Definition p2m_ok (d : Z) : Prop :=
  forall g w, mem_ok w -> match (get_gfn_query d g w).2 with
                          | P2mPagingOut => exists x, hdoms w !! d = Some x /\ (get_gfn_query d g w).1 ∈ page_list x
                          | P2mShared => False
                          | _ => True
                          end.

Lemma shrunk_events d ev w w' : shrunk d w w' -> shrunk d w (set_events ev w').
Proof. intros [A1 A2 A3 A4]. split; done. Qed.

Lemma events_shrunk d ev w w' : shrunk d (set_events ev w) w' -> shrunk d w w'.
Proof. intros [A1 A2 A3 A4]. split; done. Qed.

Lemma shrunk_refl d w : shrunk d w w.
Proof. by apply quiet_shrunk. Qed.

Lemma guest_remove_spec d gmfn w :
  machine_ok -> drops_type -> p2m_ok d -> mem_ok w -> 0 < d ->
  wp no_error (guest_remove_page d gmfn) (fun _ w' => mem_ok w' /\ shrunk d w w') w.
Proof.
  intros HM HT HP MI Hd. unfold guest_remove_page. wp_step. wp_step. specialize (HP gmfn w MI). destruct (get_gfn_query d gmfn w) as [m t]. simpl in HP.
  assert (wp no_error (if negb (mfn_valid m) then ret false else remove_plain d gmfn m) (fun _ w' => mem_ok w' /\ shrunk d w w') w) as Hplain.
  { destruct (mfn_valid m) eqn:Hv; cbn [negb]; [|wp_step; split; [done|apply shrunk_refl]]. destruct (hi_valid _ _ _ (proj1 (di_heap _ (mi_dom _ _ _ MI))) m Hv) as [p Hp].
    eapply wp_mono; [eapply (remove_plain_spec d gmfn m p); try done; by eapply minv_none|]. intros b w' (M' & S' & _). split; [by eapply minv_none|done]. }
  destruct t; [exact Hplain| | |done].
  - destruct HP as (x & Hx & Hm). wp_step. unfold event. wp_step. set (w1 := set_events _ w). assert (minv m 0 w1) as M1 by (apply events_minv; by eapply minv_none). destruct (do_pages _ _ _ (di_dom _ (mi_dom _ _ _ MI) d x Hx) m Hm) as [(p & Hp & _) _ Hv _].
    wp_step. wp_step. apply wp_assert; [done|]. eapply wp_mono; [eapply (drop_allocated_spec d x m p 0 w1); done|]. intros [] w2 (M2 & S2 & _). wp_step. wp_step. wp_step.
    split; [apply events_minv; by eapply minv_none|]. by eapply shrunk_events, events_shrunk.
  - wp_step. unfold event. wp_step. wp_step. wp_step. wp_step. wp_step. wp_step. split; [by do 2 apply events_minv|]. do 2 apply shrunk_events. apply shrunk_refl.
Qed.

(** A plain frame of the domain that nobody else refers to goes back to the heap. *)
Lemma guest_remove_frees d gmfn m p w :
  machine_ok -> drops_type -> mem_ok w -> 0 < d -> get_gfn_query d gmfn w = (m, P2mPlain) -> mfn_valid m = true -> pages w !! m = Some p -> v p = d -> sole p ->
  wp no_error (guest_remove_page d gmfn) (fun b w' => b = true /\ mem_ok w' /\ is_free w' m) w.
Proof.
  intros HM HT MI Hd Hq Hv Hp Ho Hs. unfold guest_remove_page. wp_step. wp_step. rewrite Hq, Hv. cbn [negb]. eapply wp_mono; [eapply (remove_plain_spec d gmfn m p); try done; by eapply minv_none|].
  intros b w' (M' & _ & Hb & Hfree). assert (b = true) as -> by (apply Hb; destruct Hs as [-> _]; done). split_and!; [done|by eapply minv_none|by apply Hfree].
Qed.

Lemma remove_pages_spec n d gmfn w :
  machine_ok -> drops_type -> p2m_ok d -> mem_ok w -> 0 < d -> wp no_error (remove_pages n d gmfn) (fun _ w' => mem_ok w' /\ shrunk d w w') w.
Proof.
  intros HM HT HP MI Hd. revert gmfn w MI. induction n as [|n IH]; intros gmfn w MI; simpl; [wp_step; split; [done|apply shrunk_refl]|].
  wp_step. eapply wp_mono; [by apply guest_remove_spec|]. intros [|] w1 [M1 S1]; [|wp_step; done]. eapply wp_mono; [by apply IH|]. intros b w2 [M2 S2]. split; [done|]. by eapply shrunk_trans.
Qed.

(** ** New pages *)

(** Domain [d] has [k] pages more, that were free. *)
Record grown (d k : Z) (w w' : hworld) : Prop := Grown {
  gw_dom x : hdoms w !! d = Some x -> exists x' l, hdoms w' !! d = Some x' /\ page_list x' = page_list x ++ l /\ tot_pages x' = tot_pages x + k /\ max_pages x' = max_pages x /\ forall i, i ∈ l -> is_free w i;
  gw_others e : e <> d -> holdings <$> hdoms w' !! e = holdings <$> hdoms w !! e;
  gw_free : free_all w' ⊆ free_all w
}.

Lemma mem_grown_refl d w : grown d 0 w w.
Proof. split; [|done|done]. intros x Hx. exists x, []. rewrite app_nil_r. split_and!; try done; [lia|]. intros i Hi. by apply not_elem_of_nil in Hi. Qed.

Lemma grown_trans d j k w1 w2 w3 : grown d j w1 w2 -> grown d k w2 w3 -> grown d (j + k) w1 w3.
Proof.
  intros [A1 A2 A3] [B1 B2 B3]. split.
  - intros x Hx. destruct (A1 x Hx) as (x2 & l2 & Hx2 & E2 & T2 & M2 & F2). destruct (B1 x2 Hx2) as (x3 & l3 & Hx3 & E3 & T3 & M3 & F3). exists x3, (l2 ++ l3). rewrite E3, E2, app_assoc. split_and!; [done|done|lia|congruence|].
    intros i [Hi|Hi]%elem_of_app; [by apply F2|]. by apply elem_of_free_all, A3, elem_of_free_all, F3.
  - intros e Hne. by rewrite B2, A2.
  - set_solver.
Qed.

Lemma grown_none d w w' : same_doms w w' -> free_all w' = free_all w -> grown d 0 w w'.
Proof.
  intros SD Hf. split; [| |by rewrite Hf].
  - intros x Hx. destruct (same_doms_lookup w w' d x SD Hx) as (x' & Hx' & Eh). injection Eh as El Et Em _. exists x', []. rewrite app_nil_r. split_and!; try done; [lia|]. intros i Hi. by apply not_elem_of_nil in Hi.
  - intros e _. unfold same_doms in SD. by rewrite <- !lookup_fmap, SD.
Qed.

Lemma same_doms_back w w' e y : same_doms w w' -> hdoms w' !! e = Some y -> exists z, hdoms w !! e = Some z /\ page_list z = page_list y.
Proof.
  intros SD Hy. assert (same_doms w' w) as SD' by by unfold same_doms in *. destruct (same_doms_lookup w' w e y SD' Hy) as (z & Hz & Eh). injection Eh as El _ _ _. by exists z.
Qed.

Lemma new_page_refs d p : ref_ok 0 (assigned d (used p)).
Proof. split; [done|done|]. intros Hp. done. Qed.

(** An allocation keeps the references, whether it succeeds or not. *)
Lemma alloc_minv d x order memflags w :
  machine_ok -> mem_ok w -> hdoms w !! d = Some x -> node_flag_ok memflags -> has_flag memflags MEMF_no_refcount = false -> 0 <= order ->
  wp no_error (alloc_domheap_pages (Some d) order memflags)
    (fun r w' => mem_ok w' /\ match r with Some pg => order <= MAX_ORDER /\ grown d (2 ^ order) w w' /\ (forall i, in_block pg order i -> owned w' d i) | None => grown d 0 w w' end) w.
Proof.
  intros HM MI Hx Hn Hr Ho. pose proof (mi_dom _ _ _ MI) as HI. eapply wp_mono; [by eapply alloc_domheap_spec|]. intros [pg|] w' (HI' & _ & HP).
  - destruct (db_dom _ _ _ _ _ _ HP x Hx) as (_ & x' & Hx' & El & Et & Em). assert (0 <= 2 ^ order) by lia.
    assert (forall i, is_free w i -> in_block pg order i \/ is_free w' i) as HF.
    { intros i Hi. destruct (decide (in_block pg order i)) as [|Hni]; [by left|right]. apply elem_of_free_all. rewrite (db_rest _ _ _ _ _ _ HP). apply elem_of_difference. split; [by apply elem_of_free_all|by rewrite elem_of_block_set]. }
    assert (forall i, in_block pg order i -> i ∈ page_list x') as Hin by (intros i Hi; rewrite El; apply elem_of_app; right; apply elem_of_seqZ; exact Hi).
    split; [|split_and!; [by apply HP| |by apply HP]].
    + apply (minv_frame 0 0 w); [done|done|..].
      * intros m p' Hp'. destruct (decide (is_free w m)) as [Hf|Hf]; [|left; by rewrite <- (db_keep _ _ _ _ _ _ HP m Hf)]. right. destruct (HF m Hf) as [Hb|?]; [right|by left].
        destruct (db_page _ _ _ _ _ _ HP m Hb) as [q Hq]. assert (p' = assigned d (used q)) as -> by congruence. exists x'. split; [done|by apply Hin].
      * intros e y m Hy Hm. right. destruct (decide (e = d)) as [->|Hne]; [|exists y; by rewrite (db_others _ _ _ _ _ _ HP)]. assert (y = x) as -> by congruence. exists x'. rewrite El, elem_of_app. by split; [|left].
      * intros e y m p' Hy Hm Hp'. destruct (decide (in_block pg order m)) as [Hb|Hb].
        { right. destruct (db_page _ _ _ _ _ _ HP m Hb) as [q Hq]. assert (p' = assigned d (used q)) as -> by congruence. unfold extra_at. destruct (decide _); apply new_page_refs. }
        left. assert (exists z, hdoms w !! e = Some z /\ m ∈ page_list z) as (z & Hz & Hmz).
        { destruct (decide (e = d)) as [->|Hne]; [|exists y; by rewrite <- (db_others _ _ _ _ _ _ HP)]. assert (y = x') as -> by congruence. exists x. split; [done|]. rewrite El in Hm. apply elem_of_app in Hm as [?|Hm]; [done|]. by apply elem_of_seqZ in Hm. }
        exists z. split_and!; [done|done|]. rewrite <- (db_keep _ _ _ _ _ _ HP m); [done|]. by eapply owned_not_free, (do_pages _ _ _ (di_dom _ HI e z Hz)).
    + split; [| |rewrite (db_rest _ _ _ _ _ _ HP); set_solver].
      * intros y Hy. assert (y = x) as -> by congruence. exists x', (seqZ pg (2 ^ order)). split_and!; try done. intros i Hi. apply elem_of_seqZ in Hi. by apply (db_free _ _ _ _ _ _ HP).
      * intros e Hne. by rewrite (db_others _ _ _ _ _ _ HP).
  - destruct HP as (Hf & SD & Hk & _). split; [|by apply grown_none]. assert (forall i, is_free w' i <-> is_free w i) as HF by (intros i; by rewrite <- !elem_of_free_all, Hf).
    assert (forall e y, hdoms w' !! e = Some y -> exists z, hdoms w !! e = Some z /\ page_list z = page_list y) as Hback by (intros e y Hy; by eapply same_doms_back).
    apply (minv_frame 0 0 w); [done|done|..].
    + intros m p' Hp'. destruct (decide (is_free w m)) as [Hm|Hm]; [right; left; by apply HF|left; by rewrite <- (Hk m Hm)].
    + intros e y m Hy Hm. right. destruct (same_doms_lookup w w' e y SD Hy) as (y' & Hy' & Eh). injection Eh as El _ _ _. exists y'. split; [done|congruence].
    + intros e y m p' Hy Hm Hp'. left. destruct (Hback e y Hy) as (z & Hz & Ez). exists z. split_and!; [done|by rewrite Ez|]. rewrite <- (Hk m); [done|]. eapply owned_not_free, (do_pages _ _ _ (di_dom _ HI e z Hz)). by rewrite Ez.
Qed.

(** ** Loops over extents *)

Lemma extents_spec (E : error -> Prop) (I J : Z -> hworld -> Prop) n i body w :
  I i w -> (forall j w, i <= j < i + Z.of_nat n -> I j w -> wp E (body j) (fun go w' => if go : bool then I (j + 1) w' else J j w') w) ->
  wp E (extents n i body) (fun r w' => i <= r.1 <= i + Z.of_nat n /\ ((I r.1 w' /\ (r.2 = true /\ r.1 < i + Z.of_nat n \/ r.2 = false /\ r.1 = i + Z.of_nat n)) \/ (J r.1 w' /\ r.2 = false /\ r.1 < i + Z.of_nat n))) w.
Proof.
  revert i w. induction n as [|n IH]; intros i w HI Hb; simpl; [wp_step; simpl; split; [lia|left; split; [done|right; split; [done|lia]]]|].
  destruct (hypercall_preempt_check i); [wp_step; simpl; split; [lia|left; split; [done|left; split; [done|lia]]]|].
  wp_step. eapply wp_mono; [apply (Hb i w); [lia|done]|]. intros [|] w1 H1; [|wp_step; simpl; split; [lia|right; split_and!; [done|done|lia]]].
  eapply wp_mono; [apply (IH (i + 1) w1 H1)|]; [intros j w2 Hj; apply Hb; lia|]. intros [k b] w2. cbn [fst snd]. replace (i + Z.of_nat (S n)) with (i + 1 + Z.of_nat n) by lia. intros [Hk Hc]. split; [lia|done].
Qed.

(** What a loop over extents leaves: the index at which it stopped, and why. *)
Definition loop_post (a a' : memop_args) (I J : Z -> hworld -> Prop) (w' : hworld) : Prop :=
  a' = set_done (nr_done a', preempted a') a /\ nr_done a <= nr_done a' <= nr_extents a /\
  (if preempted a' then I (nr_done a') w' /\ nr_done a' < nr_extents a else if nr_done a' =? nr_extents a then I (nr_done a') w' else J (nr_done a') w').

Lemma for_extents_spec (E : error -> Prop) (I J : Z -> hworld -> Prop) a body w :
  nr_done a <= nr_extents a -> I (nr_done a) w ->
  (forall j w, nr_done a <= j < nr_extents a -> I j w -> wp E (body j) (fun go w' => if go : bool then I (j + 1) w' else J j w') w) ->
  wp E (for_extents a body) (fun a' w' => loop_post a a' I J w') w.
Proof.
  intros Hn HI Hb. unfold for_extents. wp_step. eapply wp_mono; [apply (extents_spec E I J); [done|]; intros j w1 Hj; apply Hb; lia|]. intros [k b] w1. simpl. replace (nr_done a + Z.of_nat _) with (nr_extents a) by lia. intros [Hk Hc]. wp_step.
  unfold loop_post. simpl. split_and!; [done|lia|lia|]. destruct Hc as [[Hi [[-> Hlt]|[-> ->]]]|(Hj & -> & Hlt)]; [done|by rewrite Z.eqb_refl|]. destruct (Z.eqb_spec k (nr_extents a)); [lia|done].
Qed.

Lemma m2p_minv m k f w : minv m k w -> minv m k (set_m2p f w).
Proof.
  intros [[[I [c1 c2]] HD] I2 I3 I4]. split; [|exact I2|exact I3|exact I4]. split; [split; [by apply (hinv_ext true [] w)|split; [exact c1|exact c2]]|].
  intros e y Hy. destruct (HD e y Hy) as [? ? ? ? ? ? ? D8]. split; try done. intros i Hi. destruct (D8 i Hi). by split.
Qed.

(** [n] extents, between [lo] and [hi], were added. *)
Definition added (d order lo hi : Z) (w w' : hworld) : Prop := mem_ok w' /\ exists n, lo <= n <= hi /\ grown d (n * 2 ^ order) w w'.

Lemma grown_events d k ev w w' : grown d k w w' -> grown d k w (set_events ev w').
Proof. intros [A1 A2 A3]. by split. Qed.
Lemma grown_m2p d k f w w' : grown d k w w' -> grown d k w (set_m2p f w').
Proof. intros [A1 A2 A3]. by split. Qed.

Lemma write_extent_spec i mfn d k w w0 : mem_ok w -> grown d k w0 w -> wp no_error (write_extent i mfn) (fun _ w' => mem_ok w' /\ grown d k w0 w') w.
Proof. intros MI G. unfold write_extent. destruct (extent_writable i); [wp_step; unfold event; wp_step|]; wp_step; split; try done; [by apply events_minv|by apply grown_events]. Qed.

(** One extent is added to [n] others, or none and the loop stops. *)
Lemma alloc_extent_spec d x order memflags n w0 w :
  machine_ok -> mem_ok w -> hdoms w0 !! d = Some x -> grown d (n * 2 ^ order) w0 w -> node_flag_ok memflags -> has_flag memflags MEMF_no_refcount = false -> 0 <= order ->
  wp no_error (alloc_domheap_pages (Some d) order memflags)
    (fun r w' => mem_ok w' /\ match r with Some pg => order <= MAX_ORDER /\ grown d ((n + 1) * 2 ^ order) w0 w' /\ (forall i, in_block pg order i -> owned w' d i) | None => grown d (n * 2 ^ order) w0 w' end) w.
Proof.
  intros HM MI Hx G Hn Hr Ho. destruct (gw_dom _ _ _ _ G x Hx) as (x' & _ & Hx' & _). eapply wp_mono; [by eapply alloc_minv|]. intros [pg|] w' [M' HP]; (split; [done|]).
  - destruct HP as (Hm & G' & Hown). split_and!; [done| |done]. replace ((n + 1) * 2 ^ order) with (n * 2 ^ order + 2 ^ order) by lia. by eapply grown_trans.
  - replace (n * 2 ^ order) with (n * 2 ^ order + 0) by lia. by eapply grown_trans.
Qed.

Lemma added_start d order i w : mem_ok w -> added d order (i - i) (i - i) w w.
Proof. intros MI. split; [done|]. exists 0. split; [lia|]. apply mem_grown_refl. Qed.

Lemma added_weaken d order lo hi hi' w w' : hi <= hi' -> added d order lo hi w w' -> added d order lo hi' w w'.
Proof. intros Hh (MI & n & Hn & G). split; [done|]. exists n. split; [lia|done]. Qed.

Lemma loop_idle a I J w : preempted a = false -> nr_done a <= nr_extents a -> I (nr_done a) w -> J (nr_done a) w -> loop_post a a I J w.
Proof. intros Hp Hn HI HJ. unfold loop_post. rewrite Hp. split_and!; [by destruct a; simpl in *; subst|lia|lia|]. by destruct (_ =? _). Qed.

Definition args_ok (a : memop_args) (w : hworld) : Prop :=
  (exists x, hdoms w !! ma_domain a = Some x) /\ node_flag_ok (memflags a) /\ has_flag (memflags a) MEMF_no_refcount = false /\ 0 <= extent_order a /\ 0 <= nr_done a <= nr_extents a /\ preempted a = false.

Lemma increase_spec a w :
  machine_ok -> mem_ok w -> args_ok a w ->
  wp no_error (increase_reservation a) (fun a' w' => loop_post a a' (fun i => added (ma_domain a) (extent_order a) (i - nr_done a) (i - nr_done a) w) (fun i => added (ma_domain a) (extent_order a) (i - nr_done a) (i - nr_done a + if extent_list_null then 0 else 1) w) w') w.
Proof.
  intros HM MI ([x Hx] & Hn & Hr & Ho & Hd & Hpre). set (I := fun i => added _ _ (i - nr_done a) (i - nr_done a) w). set (J := fun i => added _ _ _ _ w). assert (I (nr_done a) w) as I0 by by apply added_start. assert (J (nr_done a) w) as J0 by (eapply added_weaken; [|exact I0]; destruct extent_list_null; lia).
  unfold increase_reservation. destruct (_ && _); [wp_step; by apply loop_idle; [|lia|..]|]. destruct (negb _); [wp_step; by apply loop_idle; [|lia|..]|].
  apply for_extents_spec; [lia|done|]. intros j w1 Hj (M1 & n & Hn1 & G1). replace n with (j - nr_done a) in G1 by lia. wp_step. eapply wp_mono; [by eapply (alloc_extent_spec _ x)|]. intros [mfn|] w2 [M2 HP].
  - destruct HP as (_ & G2 & _). unfold J. destruct extent_list_null; [wp_step; split; [done|]; eexists; split; [|done]; lia|].
    eapply wp_mono; [by eapply write_extent_spec|]. intros b w3 [M3 G3]. destruct b; (split; [done|]); eexists; (split; [|done]); lia.
  - wp_step. split; [done|]. eexists. split; [|done]. destruct extent_list_null; lia.
Qed.

Lemma set_gpfns_spec n pfn mfn w0 k d w :
  mem_ok w -> grown d k w0 w -> (forall i, mfn <= i < mfn + Z.of_nat n -> exists p, pages w !! i = Some p) ->
  wp no_error (for_ n 0 (fun j => set_gpfn_from_mfn (mfn + j) (u64 (pfn + j)))) (fun _ w' => mem_ok w' /\ grown d k w0 w') w.
Proof.
  intros MI G Hp. eapply (wp_for _ (fun _ w' => mem_ok w' /\ grown d k w0 w' /\ pages w' = pages w)); [done| |by intros w' (? & ? & _)]. intros j w1 Hj (M1 & G1 & E1).
  unfold set_gpfn_from_mfn. apply wp_when; intros _; [|done]. destruct (Hp (mfn + j) ltac:(lia)) as [p Hpj]. wp_step. eapply wp_get_page; [by rewrite E1|]. wp_step. split_and!; [by apply m2p_minv|by apply grown_m2p|done].
Qed.

Lemma populate_extent_spec a x i gpfn n w0 w :
  machine_ok -> mem_ok w -> hdoms w0 !! ma_domain a = Some x -> grown (ma_domain a) (n * 2 ^ extent_order a) w0 w -> node_flag_ok (memflags a) -> has_flag (memflags a) MEMF_no_refcount = false -> 0 <= extent_order a ->
  wp no_error (populate_extent a i gpfn) (fun go w' => if go : bool then mem_ok w' /\ grown (ma_domain a) ((n + 1) * 2 ^ extent_order a) w0 w' else added (ma_domain a) (extent_order a) n (n + 1) w0 w') w.
Proof.
  intros HM MI Hx G Hn Hr Ho. unfold populate_extent. wp_step. eapply wp_mono; [by eapply (alloc_extent_spec _ x)|]. intros [mfn|] w1 [M1 HP]; [|wp_step; split; [done|]; exists n; split; [lia|done]].
  destruct HP as (Hmax & G1 & Hown). wp_step. unfold event. wp_step. set (w2 := set_events _ w1). assert (mem_ok w2) as M2 by by apply events_minv. assert (grown (ma_domain a) ((n + 1) * 2 ^ extent_order a) w0 w2) as G2 by by apply grown_events.
  destruct (paging_mode_translate _); [wp_step; done|]. wp_step. unfold int_shl, MAX_ORDER in *. destruct (Z.leb_spec 0 (extent_order a)); [|lia]. destruct (Z.ltb_spec (extent_order a) 31); [|lia]. cbn [andb]. wp_step.
  assert (0 <= 2 ^ extent_order a) by lia. wp_step. eapply wp_mono; [eapply set_gpfns_spec; [done|done|]|].
  - intros m Hm. destruct (Hown m) as [(p & Hp & _) _ _ _]; [unfold in_block; lia|by exists p].
  - intros [] w3 [M3 G3]. eapply wp_mono; [by eapply write_extent_spec|]. intros [|] w4 [M4 G4]; [done|]. split; [done|]. exists (n + 1). split; [lia|done].
Qed.

Lemma populate_spec a w :
  machine_ok -> mem_ok w -> args_ok a w ->
  wp no_error (populate_physmap a) (fun a' w' => let pod := has_flag (memflags a) MEMF_populate_on_demand in
    loop_post a a' (fun i => added (ma_domain a) (extent_order a) (if pod then 0 else i - nr_done a) (if pod then 0 else i - nr_done a) w)
      (fun i => added (ma_domain a) (extent_order a) (if pod then 0 else i - nr_done a) (if pod then 0 else i - nr_done a + 1) w) w') w.
Proof.
  intros HM MI ([x Hx] & Hn & Hr & Ho & Hd & Hpre). cbn zeta. set (pod := has_flag (memflags a) MEMF_populate_on_demand). set (I := fun i => added _ _ _ _ w). set (J := fun i => added _ _ _ (if pod then 0 else i - nr_done a + 1) w).
  assert (I (nr_done a) w) as I0 by (split; [done|]; exists 0; split; [destruct pod; lia|apply mem_grown_refl]). assert (J (nr_done a) w) as J0 by (eapply added_weaken; [|exact I0]; destruct pod; lia).
  unfold populate_physmap. destruct (negb _); [wp_step; by apply loop_idle; [|lia|..]|]. destruct (negb _); [wp_step; by apply loop_idle; [|lia|..]|].
  apply for_extents_spec; [lia|done|]. intros j w1 Hj (M1 & n & Hn1 & G1). destruct (extent_at j) as [gpfn|]; [|wp_step; split; [done|]; exists n; split; [destruct pod; lia|done]].
  fold pod. unfold I, J. destruct pod.
  - destruct (negb _); wp_step; (split; [done|]); by exists n.
  - replace n with (j - nr_done a) in G1 by lia. eapply wp_mono; [by eapply (populate_extent_spec a x)|]. intros [|] w2 H2; [|done]. destruct H2 as [M2 G2]. split; [done|]. eexists. split; [|done]. lia.
Qed.

Lemma decrease_spec a w :
  machine_ok -> drops_type -> p2m_ok (ma_domain a) -> mem_ok w -> args_ok a w -> extent_order a < 31 ->
  wp no_error (decrease_reservation a) (fun a' w' => loop_post a a' (fun _ w' => mem_ok w' /\ shrunk (ma_domain a) w w') (fun _ w' => mem_ok w' /\ shrunk (ma_domain a) w w') w') w.
Proof.
  intros HM HT HP MI ([x Hx] & _ & _ & Ho & Hd & Hpre) Ho31. pose proof (proj1 (do_id _ _ _ (di_dom _ (mi_dom _ _ _ MI) _ x Hx))) as Hpos. pose proof (shrunk_refl (ma_domain a) w).
  unfold decrease_reservation. destruct (negb _); [wp_step; by apply loop_idle; [|lia|..]|]. apply for_extents_spec; [lia|done|]. intros j w1 Hj [M1 S1]. destruct (extent_at j) as [gmfn|]; [|wp_step; done].
  destruct (_ && _); [wp_step; done|]. wp_step. unfold int_shl. destruct (Z.leb_spec 0 (extent_order a)); [|lia]. destruct (Z.ltb_spec (extent_order a) 31); [|lia]. cbn [andb]. wp_step.
  eapply wp_mono; [by apply remove_pages_spec|]. intros b w2 [M2 S2]. assert (mem_ok w2 /\ shrunk (ma_domain a) w w2) by (split; [done|]; by eapply shrunk_trans). by destruct b.
Qed.

(** ** Flags of a request *)

Lemma shl_low x k m : 0 <= k -> 0 <= m < 2 ^ k -> Z.land (Z.shiftl x k) m = 0.
Proof.
  intros Hk Hm. apply Z.bits_inj'. intros i Hi. rewrite Z.land_spec, Z.testbit_0_l. destruct (Z.lt_ge_cases i k); [by rewrite Z.shiftl_spec_low|].
  rewrite <- (Z.mod_small m (2 ^ k)) by done. rewrite Z.mod_pow2_bits_high by lia. apply andb_false_r.
Qed.

Lemma byte_range x : 0 <= Z.land x 0xff <= 255.
Proof. change (Z.land x 0xff) with (Z.land x (Z.ones 8)). rewrite Z.land_ones by done. pose proof (Z.mod_pos_bound x (2 ^ 8) ltac:(done)). change (2 ^ 8) with 256 in *. lia. Qed.

Definition byte1 (f : Z) : Z := Z.land (Z.shiftr f 8) 0xff.

Lemma byte1_lor a b : byte1 (Z.lor a b) = Z.lor (byte1 a) (byte1 b).
Proof. unfold byte1. by rewrite Z.shiftr_lor, Z.land_lor_distr_l. Qed.

Lemma byte1_land f : byte1 f = Z.shiftr (Z.land f 0xff00) 8.
Proof. unfold byte1. by rewrite Z.shiftr_land. Qed.

(** The address width is in the upper byte. *)
Lemma bits_low x m : 0 <= m < 2 ^ 24 -> Z.land (MEMF_bits x) m = 0.
Proof.
  intros Hm. apply Z.bits_inj'. intros i Hi. rewrite Z.land_spec, Z.testbit_0_l. destruct (Z.lt_ge_cases i 24).
  - unfold MEMF_bits, u32. change 4294967296 with (2 ^ 32). rewrite Z.mod_pow2_bits_low by lia. by rewrite Z.shiftl_spec_low.
  - rewrite <- (Z.mod_small m (2 ^ 24)) by done. rewrite Z.mod_pow2_bits_high by lia. apply andb_false_r.
Qed.

Lemma bits_byte1 x : byte1 (MEMF_bits x) = 0.
Proof. by rewrite byte1_land, bits_low. Qed.

Lemma node_low n : byte1 (MEMF_node n) = Z.land (n + 1) 0xff /\ Z.land (MEMF_node n) 0xff = 0.
Proof. unfold MEMF_node, byte1. rewrite Z.shiftr_shiftl_l by done. split; [|by apply shl_low]. change (8 - 8) with 0. rewrite Z.shiftl_0_r. by rewrite <- Z.land_assoc. Qed.

Lemma land_byte f g : Z.land g 0xff = g -> has_flag f g = has_flag (Z.land f 0xff) g.
Proof. intros Hg. unfold has_flag. rewrite <- Z.land_assoc, (Z.land_comm 0xff g), Hg. done. Qed.

(** The node is the one the guest asks for; pages are counted. *)
Lemma reservation_flags_spec op r f :
  reservation_flags op r = Some f -> requested_node f = XENMEMF_get_node (rs_mem_flags r) /\ has_flag f MEMF_no_refcount = false /\
    has_flag f MEMF_populate_on_demand = match op with XENMEM_populate_physmap => has_flag (rs_mem_flags r) XENMEMF_populate_on_demand | _ => false end.
Proof.
  unfold reservation_flags. set (ab := XENMEMF_get_address_bits _). set (nd := XENMEMF_get_node _). set (lim := negb (ab =? 0) && _). destruct (lim && _); [done|].
  set (e := has_flag _ XENMEMF_exact_node_request). set (q := has_flag _ XENMEMF_populate_on_demand). clearbody e q. intros [= Ef].
  assert (0 <= ab <= 255) as Hab by apply byte_range.
  assert (0 <= nd <= 255) as Hnd by apply byte_range.
  pose proof (bits_byte1 ab) as B1. pose proof (bits_low ab 0xff ltac:(done)) as B2. destruct (node_low nd) as [N1 N2].
  set (ex := if e then MEMF_exact_node else 0).
  set (po := match op with XENMEM_populate_physmap => if q then MEMF_populate_on_demand else 0 | _ => 0 end).
  assert (f = Z.lor (Z.lor (Z.lor (if lim then MEMF_bits ab else 0) (MEMF_node nd)) ex) po) as ->.
  { rewrite <- Ef. unfold ex, po. destruct op, e, q; by rewrite ?Z.lor_0_r. }
  assert (Z.land (Z.lor (Z.lor (Z.lor (if lim then MEMF_bits ab else 0) (MEMF_node nd)) ex) po) 0xff = Z.lor ex po) as Hlow.
  { rewrite !Z.land_lor_distr_l, N2. assert (Z.land (if lim then MEMF_bits ab else 0) 255 = 0) as -> by by destruct lim. simpl. unfold ex, po. by destruct op, e, q. }
  split_and!.
  - unfold requested_node, u8. rewrite <- Zminus_mod_idemp_l. change 256 with (2 ^ 8) at 1. rewrite <- Z.land_ones by done. change (Z.ones 8) with 0xff. fold (byte1 (Z.lor (Z.lor (Z.lor (if lim then MEMF_bits ab else 0) (MEMF_node nd)) ex) po)). rewrite !byte1_lor, N1.
    assert (byte1 (if lim then MEMF_bits ab else 0) = 0) as -> by by destruct lim. assert (byte1 ex = 0) as -> by (unfold ex; by destruct e). assert (byte1 po = 0) as -> by (unfold po; by destruct op, q).
    rewrite !Z.lor_0_r, Z.lor_0_l. change 0xff with (Z.ones 8). rewrite Z.land_ones by done. rewrite Zminus_mod_idemp_l. replace (nd + 1 - 1) with nd by lia. apply Z.mod_small. lia.
  - rewrite land_byte by done. rewrite Hlow. unfold ex, po. by destruct op, e, q.
  - rewrite land_byte by done. rewrite Hlow. unfold ex, po. by destruct op, e, q.
Qed.

(** ** The hypercall *)

Lemma int32_small x : 0 <= x < 2 ^ 31 -> int32 x = x.
Proof. intros Hx. unfold int32. rewrite Z.mod_small by lia. lia. Qed.

(** The command of a continuation holds the operation and the index. *)
Lemma continuation_encodes op k : 0 <= k < 2 ^ 25 ->
  Z.lor (op_code op) (int32 (Z.shiftl (int32 k) MEMOP_EXTENT_SHIFT)) = k * 64 + op_code op.
Proof.
  intros Hk. rewrite (int32_small k) by lia. unfold MEMOP_EXTENT_SHIFT. assert (Z.land (Z.shiftl k 6) (op_code op) = 0) as Hl by (apply shl_low; [done|]; by destruct op).
  rewrite int32_small by (rewrite Z.shiftl_mul_pow2 by done; change (2 ^ 6) with 64; lia). rewrite Z.lor_comm. rewrite <- Z.lxor_lor by done. rewrite <- Z.add_nocarry_lxor by done. rewrite Z.shiftl_mul_pow2 by done. done.
Qed.

Lemma command_decodes op k : Z.land (k * 64 + op_code op) 63 = op_code op /\ Z.shiftr (k * 64 + op_code op) MEMOP_EXTENT_SHIFT = k.
Proof.
  assert (0 <= op_code op < 64) by by destruct op. split.
  - change 63 with (Z.ones 6). rewrite Z.land_ones by done. change (2 ^ 6) with 64. rewrite Z.add_comm, Z_mod_plus_full. by apply Z.mod_small.
  - unfold MEMOP_EXTENT_SHIFT. rewrite Z.shiftr_div_pow2 by done. change (2 ^ 6) with 64. rewrite Z.div_add_l by done. rewrite Z.div_small by done. lia.
Qed.

Definition others_kept (d : Z) (w w' : hworld) : Prop := forall e, e <> d -> holdings <$> hdoms w' !! e = holdings <$> hdoms w !! e.

(** What the operation does to domain [d] when it stops after [k] extents. *)
Definition op_effect (op : memop) (r : reservation) (d k : Z) (w w' : hworld) : Prop :=
  let order := rs_extent_order r in
  mem_ok w' /\ others_kept d w w' /\
  match op with
  | XENMEM_increase_reservation => exists n, k <= n <= (k + if extent_list_null then 0 else 1) /\ grown d (n * 2 ^ order) w w'
  | XENMEM_populate_physmap => exists n, (if has_flag (rs_mem_flags r) XENMEMF_populate_on_demand then n = 0 else k <= n <= k + 1) /\ grown d (n * 2 ^ order) w w'
  | XENMEM_decrease_reservation => shrunk d w w'
  end.

Lemma added_effect d order lo hi w w' : added d order lo hi w w' -> mem_ok w' /\ others_kept d w w' /\ exists n, lo <= n <= hi /\ grown d (n * 2 ^ order) w w'.
Proof. intros (MI & n & Hn & G). split_and!; [done|exact (gw_others _ _ _ _ G)|by exists n]. Qed.

(** Either way the loop ends, the effect is that of the extents done. *)
Lemma loop_effect a a' I J (P : Z -> hworld -> Prop) w' : loop_post a a' I J w' -> (forall i, I i w' -> P i w') -> (forall i, J i w' -> P i w') -> nr_done a <= nr_done a' <= nr_extents a /\ P (nr_done a') w' /\ (preempted a' = true -> nr_done a' < nr_extents a).
Proof. intros (_ & Hd & Hc) HI HJ. destruct (preempted a'); [destruct Hc; by auto|]. split_and!; [lia|lia| |done]. destruct (_ =? _); auto. Qed.

Lemma mem_run_op_spec op r d flags start w :
  machine_ok -> drops_type -> p2m_ok d -> mem_ok w -> reservation_flags op r = Some flags ->
  let a := Memop d (rs_nr_extents r) (rs_extent_order r) flags start false in
  args_ok a w -> (op = XENMEM_decrease_reservation -> rs_extent_order r < 31) ->
  wp no_error (run_op op a) (fun a' w' => start <= nr_done a' <= rs_nr_extents r /\ op_effect op r d (nr_done a' - start) w w' /\ (preempted a' = true -> nr_done a' < rs_nr_extents r)) w.
Proof.
  intros HM HT HP MI Hf a Ha Ho. destruct (reservation_flags_spec op r flags Hf) as (_ & _ & Epod). destruct op; cbn [run_op].
  - eapply wp_mono; [by apply increase_spec|]. intros a' w' L. eapply (loop_effect a a' _ _ (fun i => op_effect XENMEM_increase_reservation r d (i - start) w)) in L; [done|..]; intros i Hi; apply added_effect in Hi as (? & ? & n & Hn & G); split_and!; try done; exists n; (split; [|done]); subst a; simpl in *; destruct extent_list_null; lia.
  - eapply wp_mono; [apply decrease_spec; auto|]. intros a' w' L. eapply (loop_effect a a' _ _ (fun i => op_effect XENMEM_decrease_reservation r d (i - start) w)) in L; [done|..]; intros i [Mi Si]; split_and!; try done; intros e Hne; by rewrite (sh_others _ _ _ Si).
  - eapply wp_mono; [by apply populate_spec|]. cbn zeta. simpl. rewrite Epod. intros a' w' L. eapply (loop_effect a a' _ _ (fun i => op_effect XENMEM_populate_physmap r d (i - start) w)) in L; [done|..]; intros i Hi; apply added_effect in Hi as (? & ? & n & Hn & G); split_and!; try done; exists n; (split; [|done]); subst a; simpl in *; destruct (has_flag (rs_mem_flags r) XENMEMF_populate_on_demand); lia.
Qed.

Definition node_ok (r : reservation) : Prop := XENMEMF_get_node (rs_mem_flags r) < MAX_NUMNODES \/ XENMEMF_get_node (rs_mem_flags r) = NUMA_NO_NODE.

(** What a request leaves: no effect, or the effect of [k] extents. *)
Definition request_post (op : memop) (start : Z) (r : reservation) (w : hworld) (ret : memop_ret) (w' : hworld) : Prop :=
  w' = w /\ (ret = MemRet start \/ exists d, target_domain (rs_domid r) = Some d /\ ret = MemRet (xsm_memory_adjust_reservation d)) \/
  exists d k, target_domain (rs_domid r) = Some d /\ start <= k <= rs_nr_extents r /\ op_effect op r d (k - start) w w' /\ (ret = MemRet k \/ ret = MemAgain (k * 64 + op_code op) /\ k < rs_nr_extents r).

Record request_ok (op : memop) (start : Z) (r : reservation) (w : hworld) : Prop := RequestOk {
  rq_node : node_ok r;
  rq_order : 0 <= rs_extent_order r;
  rq_decrease : op = XENMEM_decrease_reservation -> rs_extent_order r < 31;
  rq_start : 0 <= start;
  rq_extents : rs_nr_extents r < 2 ^ 25;
  rq_domain d : target_domain (rs_domid r) = Some d -> p2m_ok d /\ exists x, hdoms w !! d = Some x
}.

Lemma do_memory_op_spec op start r w :
  machine_ok -> drops_type -> mem_ok w -> request_ok op start r w -> wp no_error (do_memory_op op start (Some r)) (request_post op start r w) w.
Proof.
  intros HM HT MI [Hn Ho Hdec Hs Hnr Ht]. unfold do_memory_op. destruct (_ <? rs_nr_extents r); [wp_step; left; auto|]. destruct (Z.leb_spec (rs_nr_extents r) start) as [|Hlt]; [wp_step; left; auto|].
  destruct (reservation_flags op r) as [flags|] eqn:Ef; [|wp_step; left; auto]. destruct (target_domain (rs_domid r)) as [d|] eqn:Ed; [|wp_step; left; auto].
  destruct (Z.eqb_spec (xsm_memory_adjust_reservation d) 0); cbn [negb]; [|wp_step; left; split; [done|right; by exists d]].
  destruct (Ht d eq_refl) as [HP Hx]. destruct (reservation_flags_spec op r flags Ef) as (En & Er & _). assert (forall x, 0 <= x < 2 ^ 25 -> u32 x = x) as Hu by (intros x Hx32; apply Z.mod_small; lia). rewrite !Hu by lia.
  wp_step. eapply wp_mono; [apply (mem_run_op_spec op r d flags start w HM HT HP MI Ef); [split_and!; try done; [change (node_flag_ok flags); unfold node_flag_ok; rewrite En; exact Hn|simpl; lia..]|exact Hdec]|].
  intros a' w' (Hk & He & Hp). rewrite continuation_encodes by (destruct (preempted a') eqn:Ep; [|lia]; specialize (Hp eq_refl); lia). rewrite int32_small by lia.
  destruct (preempted a'); wp_step; right; exists d, (nr_done a'); split_and!; try done; try lia; [right; auto|by left].
Qed.


(** ** Continuations *)

(** The same machine, where no hypercall is interrupted. *)
Definition uninterrupted (E : MemEnv) : MemEnv := {|
  extent_at := extent_at; extent_writable := extent_writable; extent_list_null := extent_list_null; extent_list_okay := extent_list_okay;
  hypercall_preempt_check := fun _ => false;
  has_io_caps := has_io_caps; mark_populate_on_demand := mark_populate_on_demand; paging_mode_translate := paging_mode_translate; is_hvm_domain := is_hvm_domain;
  p2m_pod_decrease_reservation := p2m_pod_decrease_reservation; get_gfn_query := get_gfn_query; mem_sharing_unshare_page := mem_sharing_unshare_page; put_page_type := put_page_type;
  update_xen_mappings_fails := update_xen_mappings_fails; max_page := max_page; current_domain := current_domain; domain_by_id := domain_by_id; is_priv_for := is_priv_for;
  xsm_memory_adjust_reservation := xsm_memory_adjust_reservation |}.

Lemma extents_resume n i body w k w1 :
  extents n i body w = Ok ((k, true), w1) ->
  i <= k < i + Z.of_nat n /\ @extents (uninterrupted H0) n i body w = @extents (uninterrupted H0) (Z.to_nat (i + Z.of_nat n - k)) k body w1.
Proof.
  revert i w. induction n as [|n IH]; intros i w; simpl; [done|]. destruct (hypercall_preempt_check i).
  - intros [= <- <-]. split; [lia|]. replace (Z.to_nat _) with (S n) by lia. done.
  - unfold bind. destruct (body i w) as [[[|] w2]|e]; [|done|done]. intros E. destruct (IH _ _ E) as [Hk ->]. split; [lia|]. f_equal. lia.
Qed.

Lemma for_extents_resume a body w a' w1 :
  nr_done a <= nr_extents a -> for_extents a body w = Ok (a', w1) -> preempted a' = true ->
  nr_done a <= nr_done a' < nr_extents a /\ a' = set_done (nr_done a', true) a /\
  @for_extents (uninterrupted H0) a body w = @for_extents (uninterrupted H0) (set_done (nr_done a', false) a) body w1.
Proof.
  intros Hn E Hp. unfold for_extents, bind in E. destruct (extents _ _ body w) as [[[k b] w2]|e] eqn:Ee; [|done]. injection E as <- <-. simpl in Hp. subst b.
  destruct (extents_resume _ _ _ _ _ _ Ee) as [Hk Er]. replace (nr_done a + Z.of_nat _) with (nr_extents a) in * by lia. simpl. split_and!; [lia|lia|done|]. unfold for_extents at 1, bind. rewrite Er. simpl. done.
Qed.

Lemma run_op_resume op a w a' w1 :
  nr_done a <= nr_extents a -> preempted a = false -> run_op op a w = Ok (a', w1) -> preempted a' = true ->
  nr_done a <= nr_done a' < nr_extents a /\ @run_op _ (uninterrupted H0) op a w = @run_op _ (uninterrupted H0) op (set_done (nr_done a', false) a) w1.
Proof.
  intros Hn Hp E Hp'. destruct op; cbn [run_op] in *.
  - unfold increase_reservation in *. simpl. destruct (_ && _); [injection E as <- <-; congruence|]. destruct (negb _); [injection E as <- <-; congruence|]. destruct (for_extents_resume _ _ _ _ _ Hn E Hp') as (? & _ & Er). split; [done|exact Er].
  - unfold decrease_reservation in *. simpl. destruct (negb _); [injection E as <- <-; congruence|]. destruct (for_extents_resume _ _ _ _ _ Hn E Hp') as (? & _ & Er). split; [done|exact Er].
  - unfold populate_physmap in *. simpl. destruct (negb _); [injection E as <- <-; congruence|]. destruct (negb _); [injection E as <- <-; congruence|]. destruct (for_extents_resume _ _ _ _ _ Hn E Hp') as (? & _ & Er). split; [done|exact Er].
Qed.

End Requests.

(** ** Examples *)

(** A guest whose frames are machine frames; it is interrupted at the third extent. *)
Definition sample_put_type (m : Z) : M hworld unit := mod_page m (fun p => set_type_info (type_info p - 1) p).
Definition sample_mem : MemEnv := {|
  extent_at i := Some (61 + i); extent_writable _ := true; extent_list_null := false; extent_list_okay := true; hypercall_preempt_check i := i =? 2; has_io_caps := false;
  mark_populate_on_demand _ _ _ := 0; paging_mode_translate _ := false; is_hvm_domain _ := false; p2m_pod_decrease_reservation _ _ _ := false; get_gfn_query _ g _ := (g, P2mPlain);
  mem_sharing_unshare_page _ _ := ret false; put_page_type := sample_put_type; update_xen_mappings_fails _ := false; max_page := 64; current_domain := 1;
  domain_by_id d := if d =? 1 then Some 1 else None; is_priv_for _ := false; xsm_memory_adjust_reservation _ := 0 |}.
Definition sample_request (node order : Z) : reservation := Reservation 3 order (Z.shiftl (Z.land (node + 1) 0xff) 8) DOMID_SELF.

Lemma sample_drops_type : drops_type (H0 := sample_mem).
Proof.
  intros m p w Hp Ht. exists (type_info p - 1). assert (tcount p = type_info p mod 2 ^ 55) as Et by apply count_mod. destruct (step_upper (type_info p) (-1)) as [Hd Hm].
  { pose proof (Z.mod_pos_bound (type_info p) (2 ^ 55) ltac:(done)). lia. }
  split_and!.
  - change (put_page_type (MemEnv := sample_mem) m w) with (sample_put_type m w). unfold sample_put_type, mod_page, get_page, bind, gets, of_option, modify, ret. by rewrite Hp.
  - change PGT_count_mask with PGC_count_mask. rewrite count_mod. replace (type_info p - 1) with (type_info p + -1) by lia. rewrite Hm. lia.
  - change PGT_pinned with (16 * 2 ^ 55). apply has_flag_upper. exact Hd.
Qed.

Lemma sample_mem_ok : mem_ok (H := sample_env) sample_world.
Proof.
  assert (map_Forall (fun _ p => gcount p = 0 /\ 0 <= count_info p /\ count_info p < 2 ^ 64) (pages sample_world)) as HF by (apply (bool_decide_unpack _); vm_compute; exact I).
  split; [exact sample_dinv| | |].
  - intros d x m p Hx Hm. rewrite (fr_doms _ _ _ _ sample_freed) in Hx. change (hdoms sample_boot) with ({[1 := sample_dom]} : gmap Z hdom) in Hx. apply lookup_singleton_Some in Hx as [_ <-]. destruct (not_elem_of_nil m Hm).
  - intros m p Hp Hg. destruct (HF m p Hp) as [Hz _]. destruct (Hg Hz).
  - intros m p Hp. apply (HF m p Hp).
Qed.


Definition sample_interrupted : hworld := after (do_memory_op (H := sample_env) (H0 := sample_mem) XENMEM_increase_reservation 0 (Some (sample_request 255 1))) sample_world.


(** ** Requests that go wrong *)

(** The node number of a guest is not checked: the tables of the heap have 64 nodes. *)
Lemma guest_node_out_of_bounds : do_memory_op (H := sample_env) (H0 := sample_mem) XENMEM_increase_reservation 0 (Some (sample_request 100 0)) sample_world = Err OutOfBounds.
Proof. vm_compute. reflexivity. Qed.

(** The order of an extent to give back is not checked: the shift is not defined. *)
Lemma decrease_order_undefined : do_memory_op (H := sample_env) (H0 := sample_mem) XENMEM_decrease_reservation 0 (Some (sample_request 255 31)) sample_world = Err OutOfBounds.
Proof. vm_compute. reflexivity. Qed.

(** From 2^25 extents on the index of a continuation does not fit the [int]. *)
Lemma continuation_wraps : Z.shiftr (u64 (Z.lor (op_code XENMEM_decrease_reservation) (int32 (Z.shiftl (int32 (2 ^ 25)) MEMOP_EXTENT_SHIFT)))) MEMOP_EXTENT_SHIFT = 2 ^ 58 - 2 ^ 25.
Proof. reflexivity. Qed.
