(* ===== verification/Exchange.v ===== *)
(** * Exchange of pages

    [memory_exchange] of [src/xen/common/memory.c]: a domain trades pages for others of a
    different size or place. [ExchangeFacts] and [ExchangeMain] have the theorems. *)

From S2P Require Import Prelude.
From S2P Require Import Xen.
From S2P Require Import PageAlloc.
From S2P Require Import Memop.

(** What is outside the model: the request in guest memory, the physical map. *)
Class ExchEnv : Type := {
  in_extent : Z -> option Z;
  out_extent : Z -> option Z;
  out_writable : Z -> bool;
  nr_writable : bool;
  get_gfn_unshare : Z -> Z -> M hworld (Z * p2m_type);
  mfn_to_gmfn : Z -> Z -> hworld -> Z;
  uninit_gpfn : Z
}.

Record xen_memory_exchange : Type := Exch { ex_in : reservation; ex_out : reservation; nr_exchanged : Z }.

(** The result and the number of extents exchanged, or the request is made again. *)
Inductive exch_ret : Type := ExchRet (rc nr : Z) | ExchAgain (nr : Z).

Section Exchange.
Context `{HeapEnv} `{MemEnv} `{ExchEnv}.

(** [~0UL >> order] *)
Definition ones_shr (order : Z) : M hworld Z := if (0 <=? order) && (order <? 64) then ret (Z.shiftr UINT64_MAX order) else fail OutOfBounds.

Definition size_mismatch (e : xen_memory_exchange) : M hworld bool :=
  let i := ex_in e in
  let o := ex_out e in
  if (rs_nr_extents i <? nr_exchanged e) || negb (rs_domid i =? rs_domid o) then ret true
  else
    let! mi := ones_shr (rs_extent_order i) in
    if mi <? rs_nr_extents i then ret true
    else
      let! mo := ones_shr (rs_extent_order o) in
      if mo <? rs_nr_extents o then ret true
      else ret (negb (u64 (Z.shiftl (rs_nr_extents i) (rs_extent_order i)) =? u64 (Z.shiftl (rs_nr_extents o) (rs_extent_order o)))).

(** ** One chunk *)

(** The pages stolen so far are the list [l], the last one first. *)
Fixpoint steal_frames (n : nat) (d gmfn : Z) (l : list Z) : M hworld (Z * list Z) :=
  match n with
  | O => ret (0, l)
  | S n =>
      let! q := get_gfn_unshare d gmfn in
      let '(mfn, t) := q in
      match t with
      | P2mShared => ret (- ENOMEM, l)
      | _ =>
          if negb (mfn_valid mfn) then ret (- EINVAL, l)
          else
            let! rc := steal_page d mfn MEMF_no_refcount in
            if negb (rc =? 0) then ret (- EINVAL, l) else steal_frames n d (u64 (gmfn + 1)) (mfn :: l)
      end
  end.

Fixpoint steal_extents (n : nat) (d order idx : Z) (l : list Z) : M hworld (Z * list Z) :=
  match n with
  | O => ret (0, l)
  | S n =>
      match in_extent idx with
      | None => ret (- EFAULT, l)
      | Some gmfn =>
          let! r := steal_frames (Z.to_nat (Z.shiftl 1 order)) d gmfn l in
          if negb (r.1 =? 0) then ret r else steal_extents n d order (idx + 1) r.2
      end
  end.

Fixpoint alloc_out (n : nat) (order memflags : Z) (l : list Z) : M hworld (Z * list Z) :=
  match n with
  | O => ret (0, l)
  | S n =>
      let! page := alloc_domheap_pages None order memflags in
      match page with
      | None => ret (- ENOMEM, l)
      | Some mfn => alloc_out n order memflags (mfn :: l)
      end
  end.

(** The last reference to a stolen page. *)
Definition put_stolen (d mfn : Z) : M hworld unit :=
  let! b := test_and_clear_allocated mfn in
  (if b : bool then ret tt else fail Abort) ;;;
  let! gfn := gets (mfn_to_gmfn d mfn) in
  (if gfn =? SHARED_M2P_ENTRY then fail Abort else ret tt) ;;;
  event (PhysmapRemove d gfn mfn) ;;;
  put_page mfn.

(** The domain learns of a new block; errors are ignored. *)
Definition announce (d order idx gpfn mfn : Z) : M hworld unit :=
  event (PhysmapAdd d gpfn mfn order) ;;;
  when (negb (paging_mode_translate d))
    (for_ (Z.to_nat (Z.shiftl 1 order)) 0 (fun k => set_gpfn_from_mfn (mfn + k) (u64 (gpfn + k))) ;;;
     when (out_writable idx) (event (ExtentWrite idx mfn))).

(** The domain dies while blocks are assigned: the pages it does not get are not counted. *)
Definition uncount (d dec_count : Z) : M hworld unit :=
  mod_hdom d (fun x => set_dom_pages (u32 (tot_pages x - dec_count)) (page_list x) x) ;;;
  let! x := get_hdom d in
  when (negb (dec_count =? 0) && (tot_pages x =? 0)) (event (PutDom d)).

(** The blocks [l] are assigned, [j] have been; what is left if the domain is dying. *)
Fixpoint assign_out (l : list Z) (d in_pages blocks order base j gpfn : Z) : M hworld (option (list Z) * Z) :=
  match l with
  | [] =>
      let! x := get_hdom d in
      if negb (hd_dying x) && negb (j =? blocks) then fail Abort else ret (None, gpfn)
  | mfn :: l =>
      let! ok := assign_pages d mfn order MEMF_no_refcount in
      if negb ok then
        uncount d (u64 (in_pages - j * Z.shiftl 1 order)) ;;;
        free_domheap_pages mfn order ;;;
        ret (Some l, gpfn)
      else
        let gpfn := default gpfn (out_extent (base + j)) in
        announce d order (base + j) gpfn mfn ;;;
        assign_out l d in_pages blocks order base (j + 1) gpfn
  end.

(** Stolen pages go back to the domain. *)
Definition give_back (d : Z) (l : list Z) : M hworld unit :=
  for_each l (fun m => let! ok := assign_pages d m 0 MEMF_no_refcount in if ok : bool then ret tt else fail Abort).

Definition free_out (order : Z) (l : list Z) : M hworld unit := for_each l (fun m => free_domheap_pages m order).

(** [None]: the chunk is exchanged; otherwise the loop ends with the result. *)
Definition exchange_chunk (d in_order out_order in_chunk_order out_chunk_order memflags i gpfn : Z) : M hworld (option Z * Z) :=
  let! s := steal_extents (Z.to_nat (Z.shiftl 1 in_chunk_order)) d in_order (Z.shiftl i in_chunk_order) [] in
  if negb (s.1 =? 0) then give_back d s.2 ;;; ret (Some s.1, gpfn)
  else
    let! o := alloc_out (Z.to_nat (Z.shiftl 1 out_chunk_order)) out_order memflags [] in
    if negb (o.1 =? 0) then give_back d s.2 ;;; free_out out_order o.2 ;;; ret (Some o.1, gpfn)
    else
      for_each s.2 (put_stolen d) ;;;
      let! a := assign_out o.2 d (Z.shiftl 1 in_order * Z.shiftl 1 in_chunk_order) (Z.shiftl 1 out_chunk_order) out_order (Z.shiftl i out_chunk_order) 0 gpfn in
      match a.1 with
      | None => ret (None, a.2)
      | Some l => free_out out_order l ;;; ret (Some 0, a.2)
      end.

(** ** The hypercall *)

(** How the loop ends. *)
Inductive chunks_end : Type := ChunksDone | ChunksPreempted (i : Z) | ChunksFailed (rc i : Z).

Fixpoint exchange_chunks (n : nat) (chunk : Z -> Z -> M hworld (option Z * Z)) (i gpfn : Z) : M hworld chunks_end :=
  match n with
  | O => ret ChunksDone
  | S n =>
      if hypercall_preempt_check i then ret (ChunksPreempted i)
      else
        let! r := chunk i gpfn in
        match r.1 with
        | Some rc => ret (ChunksFailed rc i)
        | None => exchange_chunks n chunk (i + 1) r.2
        end
  end.

(** The number of extents is copied to the guest. *)
Definition copy_nr (rc nr : Z) : exch_ret := if nr_writable then ExchRet rc nr else ExchRet (- EFAULT) nr.

(** The domain, or the result when there is none. *)
Definition exchange_domain (domid : Z) : Z + Z :=
  if domid =? DOMID_SELF then inl current_domain
  else match domain_by_id domid with
       | None => inr 0
       | Some d => if is_priv_for d then inl d else inr (- EPERM)
       end.

Definition exchange_flags (d : Z) (o : reservation) : Z :=
  let bits := XENMEMF_get_address_bits (rs_mem_flags o) in
  Z.lor (MEMF_bits (domain_clamp_alloc_bitsize (Some d) (if bits =? 0 then 64 + PAGE_SHIFT else bits))) (MEMF_node (XENMEMF_get_node (rs_mem_flags o))).

(** [e] is what was copied from the guest. *)
Definition memory_exchange (e : option xen_memory_exchange) : M hworld exch_ret :=
  match e with
  | None => ret (ExchRet (- EFAULT) 0)
  | Some e =>
      let i := ex_in e in
      let o := ex_out e in
      let! bad := size_mismatch e in
      if bad : bool then ret (copy_nr (- EINVAL) (nr_exchanged e))
      else if negb (multipage_allocation_permitted (rs_extent_order i)) || negb (multipage_allocation_permitted (rs_extent_order o)) then ret (copy_nr (- EPERM) (nr_exchanged e))
      else
        let in_chunk_order := if rs_extent_order i <=? rs_extent_order o then rs_extent_order o - rs_extent_order i else 0 in
        let out_chunk_order := if rs_extent_order i <=? rs_extent_order o then 0 else rs_extent_order i - rs_extent_order o in
        match exchange_domain (rs_domid i) with
        | inr rc => ret (copy_nr rc (nr_exchanged e))
        | inl d =>
            let first := Z.shiftr (nr_exchanged e) in_chunk_order in
            let chunk := exchange_chunk d (rs_extent_order i) (rs_extent_order o) in_chunk_order out_chunk_order (exchange_flags d o) in
            let! r := exchange_chunks (Z.to_nat (Z.shiftr (rs_nr_extents i) in_chunk_order - first)) chunk first uninit_gpfn in
            match r with
            | ChunksDone => ret (copy_nr 0 (rs_nr_extents i))
            | ChunksPreempted k => ret (if nr_writable then ExchAgain (Z.shiftl k in_chunk_order) else ExchRet (- EFAULT) (Z.shiftl k in_chunk_order))
            | ChunksFailed rc k => ret (copy_nr rc (Z.shiftl k in_chunk_order))
            end
        end
  end.
End Exchange.

(** ** The other commands *)

(** Security modules and the architecture. *)
Class StatEnv : Type := {
  xsm_memory_stat_reservation : Z -> Z;
  xsm_remove_from_physmap : Z -> bool;
  domain_get_maximum_gpfn : Z -> hworld -> Z;
  get_page_from_gfn_p2m : Z -> Z -> M hworld (option Z);
  arch_memory_op : Z -> M hworld Z
}.

Definition XENMEM_maximum_ram_page : Z := 2.
Definition XENMEM_current_reservation : Z := 3.
Definition XENMEM_maximum_reservation : Z := 4.
Definition XENMEM_exchange : Z := 11.
Definition XENMEM_maximum_gpfn : Z := 14.
Definition XENMEM_remove_from_physmap : Z := 15.

(** What the argument is when it is read as each of the types. *)
Record mem_arg : Type := MemArg { arg_reservation : option reservation; arg_exchange : option xen_memory_exchange; arg_domid : option Z; arg_xrfp : option (Z * Z) }.
Inductive mem_result : Type := MemResult (rc : Z) | MemContinue (cmd : Z).

Section Commands.
Context `{HeapEnv} `{MemEnv} `{ExchEnv} `{StatEnv}.

Definition rcu_lock_target_domain_by_id (domid : Z) : Z + Z :=
  if domid =? DOMID_SELF then inl current_domain
  else match domain_by_id domid with
       | None => inr (- ESRCH)
       | Some d => if is_priv_for d then inl d else inr (- EPERM)
       end.

Definition memory_stat (op : Z) (domid : option Z) : M hworld Z :=
  match domid with
  | None => ret (- EFAULT)
  | Some domid =>
      match rcu_lock_target_domain_by_id domid with
      | inr rc => ret rc
      | inl d =>
          let rc := xsm_memory_stat_reservation d in
          if negb (rc =? 0) then ret rc
          else
            let! x := get_hdom d in
            if op =? XENMEM_current_reservation then ret (int32 (tot_pages x))
            else if op =? XENMEM_maximum_reservation then ret (int32 (max_pages x))
            else
              let! n := gets (domain_get_maximum_gpfn d) in
              ret (int32 n)
      end
  end.

(** The frame of a domain that is not translated is the machine frame. *)
Definition get_page_from_gfn (d gfn : Z) : M hworld (option Z) :=
  if paging_mode_translate d then get_page_from_gfn_p2m d gfn
  else let! ok := take_page gfn d in ret (if ok : bool then Some gfn else None).

Definition remove_from_physmap (arg : option (Z * Z)) : M hworld Z :=
  match arg with
  | None => ret (- EFAULT)
  | Some (domid, gpfn) =>
      match rcu_lock_target_domain_by_id domid with
      | inr rc => ret rc
      | inl d =>
          if xsm_remove_from_physmap d then ret (- EPERM)
          else
            let! page := get_page_from_gfn d gpfn in
            match page with
            | None => ret (- ENOENT)
            | Some mfn => event (PhysmapRemove d gpfn mfn) ;;; put_page mfn ;;; ret 0
            end
      end
  end.

Definition reservation_op (op : memop) (cmd : Z) (g : mem_arg) : M hworld mem_result :=
  let! r := do_memory_op op (Z.shiftr cmd MEMOP_EXTENT_SHIFT) (arg_reservation g) in
  ret (match r with MemRet rc => MemResult rc | MemAgain cmd => MemContinue cmd end).

(** [do_memory_op] for every command. *)
Definition memory_op (cmd : Z) (g : mem_arg) : M hworld mem_result :=
  let op := Z.land cmd (Z.shiftl 1 MEMOP_EXTENT_SHIFT - 1) in
  if op =? op_code XENMEM_increase_reservation then reservation_op XENMEM_increase_reservation cmd g
  else if op =? op_code XENMEM_decrease_reservation then reservation_op XENMEM_decrease_reservation cmd g
  else if op =? op_code XENMEM_populate_physmap then reservation_op XENMEM_populate_physmap cmd g
  else if op =? XENMEM_exchange then
    let! r := memory_exchange (arg_exchange g) in
    ret (match r with ExchRet rc _ => MemResult (int32 rc) | ExchAgain _ => MemContinue XENMEM_exchange end)
  else if op =? XENMEM_maximum_ram_page then ret (MemResult (int32 max_page))
  else if (op =? XENMEM_current_reservation) || (op =? XENMEM_maximum_reservation) || (op =? XENMEM_maximum_gpfn) then
    let! rc := memory_stat op (arg_domid g) in
    ret (MemResult rc)
  else if op =? XENMEM_remove_from_physmap then
    let! rc := remove_from_physmap (arg_xrfp g) in
    ret (MemResult rc)
  else
    let! rc := arch_memory_op op in
    ret (MemResult rc).
End Commands.
