(* ===== verification/ExchangeFacts.v ===== *)
(** * Exchange of pages: pages between owners

    During an exchange pages have left the list of the domain but still count for it. The
    invariant of the memory holds of the world in which they are not counted. *)

From S2P Require Import Prelude.
From S2P Require Import Xen.
From S2P Require Import PageAlloc.
From S2P Require Import PageFacts.
From S2P Require Import PageCount.
From S2P Require Import PageSearch.
From S2P Require Import PageOps.
From S2P Require Import PageFree.
From S2P Require Import PageDom.
From S2P Require Import Memop.
From S2P Require Import MemopFacts.
From S2P Require Import MemopMain.
From S2P Require Import Exchange.

Section Facts.
Context `{HeapEnv} `{MemEnv} `{ExchEnv}.

(** The domain counts the pages of its list. *)
Definition recount (d : Z) (x : hdom) (w : hworld) : hworld :=
  set_hdoms (<[d := set_dom_pages (Z.of_nat (length (page_list x))) (page_list x) x]> (hdoms w)) w.

(** ** Pages without an owner *)

Record anon (w : hworld) (i : Z) : Prop := Anon {
  an_page : exists p, pages w !! i = Some p /\ v p = 0 /\ (count_info p = 0 \/ count_info p = Z.lor PGC_allocated 1) /\ tcount p = 0 /\ has_flag (type_info p) PGT_pinned = false;
  an_pos : 0 < i;
  an_valid : mfn_valid i = true;
  an_node : phys_to_nid i ∈ heap_nodes w
}.

Lemma anon_busy w i : anon w i -> ~ is_free w i.
Proof. intros [(p & Hp & _ & Hc & _) _ _ _] (q & Hq & Hf). assert (q = p) as -> by congruence. unfold page_state_is in Hf. by destruct Hc as [E|E]; rewrite E in Hf. Qed.

Lemma anon_same w w' i : anon w i -> pages w' !! i = pages w !! i -> heap_nodes w' = heap_nodes w -> anon w' i.
Proof. intros [Ap A2 A3 A4] E En. split; [by rewrite E|done|done|by rewrite En]. Qed.

Lemma anon_unlisted w i e y : dinv w -> anon w i -> hdoms w !! e = Some y -> i ∉ page_list y.
Proof.
  intros HI [(p & Hp & Hv & _) _ _ _] Hy Hin. pose proof (di_dom _ HI e y Hy) as D. destruct (do_pages _ _ _ D i Hin) as [(q & Hq & Hvq & _) _ _ _]. pose proof (proj1 (do_id _ _ _ D)). assert (q = p) as -> by congruence. lia.
Qed.

(** Pages in use are not relabelled. *)
Lemma relabelled_busy w w' i : relabelled w w' i -> ~ is_free w i -> pages w' !! i = pages w !! i.
Proof. intros [E|[Hf _]] Hn; done. Qed.

(** Blocks [pg] to [e] change hands between the heap and nobody. *)
Lemma unowned_ok pg e w w' :
  mem_ok w -> dinv w' -> hdoms w' = hdoms w -> (forall i, ~ pg <= i < e -> relabelled w w' i) -> (forall i, pg <= i < e -> exists p, pages w' !! i = Some p /\ gcount p = 0 /\ 0 <= count_info p < 2 ^ 64) ->
  (forall f y i, hdoms w !! f = Some y -> i ∈ page_list y -> ~ pg <= i < e) -> mem_ok w'.
Proof.
  intros [HI I2 I3 I4] HI' Ed HR HB Hout.
  assert (forall i p, ~ pg <= i < e -> pages w' !! i = Some p -> pages w !! i = Some p \/ gcount p = 0 /\ 0 <= count_info p < 2 ^ 64) as Hback.
  { intros i p Hb Hp. destruct (HR i Hb) as [E|(Hf & q & x & Hq & Hq')]; [left; congruence|right]. assert (p = set_v x q) as -> by congruence. destruct (free_count w i q HI Hq Hf) as [_ Hz]. split; [done|by apply (I4 i q)]. }
  split; [done| | |].
  - intros f y i p. rewrite Ed. intros Hy Hi Hp. eapply I2; [done|done|]. rewrite <- (relabelled_busy w w' i); [done|by apply HR, (Hout f y)|]. exact (owned_not_free _ _ _ (do_pages _ _ _ (di_dom _ HI f y Hy) i Hi)).
  - intros i p Hp Hg Hv. rewrite Ed. destruct (decide (pg <= i < e)) as [Hb|Hb]; [destruct (HB i Hb) as (q & Hq & Hz & _); assert (q = p) as -> by congruence; done|]. destruct (Hback i p Hb Hp) as [?|[? _]]; [by apply I3|done].
  - intros i p Hp. destruct (decide (pg <= i < e)) as [Hb|Hb]; [destruct (HB i Hb) as (q & Hq & _ & ?); assert (q = p) as -> by congruence; done|]. destruct (Hback i p Hb Hp) as [?|[_ ?]]; [by apply (I4 i)|done].
Qed.

(** A block comes from the heap for nobody. *)
Lemma anon_alloc_ok lo hi k pg w w' : 0 <= k -> mem_ok w -> allocated true lo hi k pg None w w' -> mem_ok w'.
Proof.
  intros Hk MI A. pose proof (mi_dom _ _ _ MI) as HI. pose proof (al_doms _ _ _ _ _ _ _ _ A) as Ed. simpl in Ed.
  assert (forall e y i, hdoms w !! e = Some y -> i ∈ page_list y -> ~ in_block pg k i) as Hout.
  { intros e y i Hy Hi Hb. apply (owned_not_free _ _ _ (do_pages _ _ _ (di_dom _ HI e y Hy) i Hi)). by apply (al_block _ _ _ _ _ _ _ _ A). }
  apply (unowned_ok pg (pg + 2 ^ k) w); [done| |done|apply A| |exact Hout].
  - split; [apply A|]. intros e y. rewrite Ed. intros Hy. eapply dom_ok_pages; [by apply HI| |apply A]. intros i Hi. by eapply (al_rest _ _ _ _ _ _ _ _ A), Hout.
  - intros i Hb. destruct (al_page _ _ _ _ _ _ _ _ A i Hb) as (q & _ & Hq). by exists (used q).
Qed.

(** A block of nobody goes back. *)
Lemma anon_free_ok k pg w w' : mem_ok w -> freed k pg w w' -> (forall i, in_block pg k i -> anon w i) -> mem_ok w'.
Proof.
  intros MI F Ha. pose proof (mi_dom _ _ _ MI) as HI.
  assert (forall e y i, hdoms w !! e = Some y -> i ∈ page_list y -> ~ in_block pg k i) as Hout by (intros e y i Hy Hi Hb; by eapply anon_unlisted; [exact HI|apply Ha|..]).
  apply (unowned_ok pg (pg + 2 ^ k) w); [done|by apply (freed_dinv k pg w)|apply F|apply F| |exact Hout].
  intros i Hb. destruct (fr_block _ _ _ _ F i Hb) as (q & x & _ & Hq). by exists (set_v x (released q)).
Qed.

(** ** The state between two steps *)

(** Stolen pages [l] and new blocks [o] of order [k] wait for their owner. *)
Record mid (d k : Z) (l o : list Z) (x : hdom) (w : hworld) : Prop := Mid {
  md_dom : hdoms w !! d = Some x;
  md_live : hd_dying x = false;
  md_inv : mem_ok (recount d x w);
  md_stolen m : m ∈ l -> anon w m /\ exists p, pages w !! m = Some p /\ count_info p = Z.lor PGC_allocated 1;
  md_new pg : pg ∈ o -> releasable w pg k /\ forall i, in_block pg k i -> exists p, pages w !! i = Some (used p);
  md_nodup : NoDup l;
  md_apart pg m : pg ∈ o -> m ∈ l -> ~ in_block pg k m;
  md_blocks i j pg pg' m : o !! i = Some pg -> o !! j = Some pg' -> in_block pg k m -> in_block pg' k m -> i = j;
  md_clean m p : m ∈ page_list x -> pages w !! m = Some p -> gcount p = 1 -> aref p = 1 -> count_info p = Z.lor PGC_allocated 1
}.

Lemma new_anon d k l o x w pg i : mid d k l o x w -> pg ∈ o -> in_block pg k i -> anon w i.
Proof.
  intros M Hpg Hi. destruct (md_new _ _ _ _ _ _ M pg Hpg) as [R Hu]. destruct (Hu i Hi) as [p Hp]. destruct (rl_pages _ _ _ R i Hi) as (_ & Hv & Hn). pose proof (rl_pos _ _ _ R).
  split; [exists (used p); split_and!; try done; by left|unfold in_block in Hi; lia|done|rewrite Hn; apply R].
Qed.

(** All pages that are free, the domain's or on their way. *)
Definition blocks (k : Z) (o : list Z) : list Z := o ≫= (fun pg => seqZ pg (2 ^ k)).
Definition all_pages (k : Z) (l o : list Z) (x : hdom) (w : hworld) : gset Z := free_all w ∪ list_to_set (page_list x) ∪ list_to_set l ∪ list_to_set (blocks k o).

Lemma heap_ok_doms al h w : heap_ok al w -> heap_ok al (set_hdoms h w).
Proof. intros HO. apply (busy_heap_ok al w); try done. intros i. by left. Qed.

Lemma allocated_recount al lo hi k pg d x w w' : allocated al lo hi k pg None w w' -> allocated al lo hi k pg None (recount d x w) (recount d x w').
Proof. intros [A1 A2 A3 A4 A5 A6 A7 A8 A9 A10]. split; try done; [by apply heap_ok_doms|]. simpl. by rewrite A9. Qed.

Lemma freed_recount k pg d x w w' : freed k pg w w' -> freed k pg (recount d x w) (recount d x w').
Proof. intros [F1 F2 F3 F4 F5 F6]. split; try done; [by apply heap_ok_doms|]. simpl. by rewrite F5. Qed.

(** The pages still on their way are not touched. *)
Lemma mid_frame d k l0 l o0 o x x' w w' :
  mid d k (l0 ++ l) (o0 ++ o) x w -> hdoms w' !! d = Some x' -> hd_dying x' = false -> mem_ok (recount d x' w') -> heap_nodes w' = heap_nodes w ->
  (forall i, anon w i -> i ∈ l \/ (exists pg, pg ∈ o /\ in_block pg k i) -> pages w' !! i = pages w !! i) ->
  (forall m p, m ∈ page_list x' -> pages w' !! m = Some p -> gcount p = 1 -> aref p = 1 -> count_info p = Z.lor PGC_allocated 1) ->
  mid d k l o x' w'.
Proof.
  intros M Hx' Hl Hinv En Hkeep Hclean. split; try done.
  - intros m Hm. destruct (md_stolen _ _ _ _ _ _ M m) as [A (p & Hp & Hc)]; [apply elem_of_app; by right|]. assert (pages w' !! m = pages w !! m) as E by (apply Hkeep; [done|by left]).
    split; [by apply (anon_same w)|]. exists p. by rewrite E.
  - intros pg Hpg. assert (pg ∈ o0 ++ o) as Hin by (apply elem_of_app; by right). destruct (md_new _ _ _ _ _ _ M pg Hin) as [R Hu].
    assert (forall i, in_block pg k i -> pages w' !! i = pages w !! i) as E by (intros i Hi; apply Hkeep; [by eapply new_anon|right; by exists pg]). pose proof (rl_order _ _ _ R) as Ho.
    split; [|intros i Hi; rewrite E by done; by apply Hu]. destruct R as [R1 R2 R3 R4 R5 R6]. split; try done; [intros p; rewrite E by (apply in_block_self; lia); apply R4|by rewrite En|]. intros i Hi. rewrite E by done. by apply R6.
  - pose proof (md_nodup _ _ _ _ _ _ M) as Hd. by apply NoDup_app in Hd as (_ & _ & ?).
  - intros pg m Hpg Hm. apply (md_apart _ _ _ _ _ _ M); apply elem_of_app; by right.
  - intros i j pg pg' m Hi Hj Hb Hb'. assert (length o0 + i = length o0 + j)%nat as E; [|lia]. eapply (md_blocks _ _ _ _ _ _ M); [..|exact Hb|exact Hb']; rewrite lookup_app_r by lia; [by replace (length o0 + i - length o0)%nat with i by lia|by replace (length o0 + j - length o0)%nat with j by lia].
Qed.

Lemma mid_push d k l o x w m p : mid d k l o x w -> anon w m -> pages w !! m = Some p -> count_info p = Z.lor PGC_allocated 1 -> m ∉ l -> (forall pg, pg ∈ o -> ~ in_block pg k m) -> mid d k (m :: l) o x w.
Proof.
  intros [M1 M2 M3 M4 M5 M6 M7 M8 M9] Ha Hp Hc Hnl Hno. split; try done; [|by apply NoDup_cons|].
  - intros i [->|Hi]%elem_of_cons; [|by apply M4]. split; [done|]. by exists p.
  - intros pg i Hpg [->|Hi]%elem_of_cons; [by apply Hno|by apply M7].
Qed.

Lemma mid_push_block d k l o x w pg :
  mid d k l o x w -> releasable w pg k -> (forall i, in_block pg k i -> exists p, pages w !! i = Some (used p)) -> (forall m, m ∈ l -> ~ in_block pg k m) -> (forall q i, q ∈ o -> in_block q k i -> ~ in_block pg k i) ->
  mid d k l (pg :: o) x w.
Proof.
  intros [M1 M2 M3 M4 M5 M6 M7 M8 M9] R Hu Hl Ho. split; try done.
  - intros q [->|Hq]%elem_of_cons; [done|by apply M5].
  - intros q i [->|Hq]%elem_of_cons Hi; [by apply Hl|by apply M7].
  - intros [|i] [|j] q q' m; simpl; intros Hi Hj Hb Hb'; [done|injection Hi as ->|injection Hj as ->|f_equal; by eapply M8].
    + exfalso. by eapply (Ho q' m); [eapply list_elem_of_lookup_2| |].
    + exfalso. by eapply (Ho q m); [eapply list_elem_of_lookup_2| |].
Qed.

(** ** Stealing *)

Definition without (m : Z) (x : hdom) : hdom := set_dom_pages (tot_pages x) (filter (fun y => y <> m) (page_list x)) x.

Lemma sole_flags c : Z.land c (Z.lor PGC_count_mask PGC_allocated) = Z.lor 1 PGC_allocated -> Z.land c PGC_count_mask = 1 /\ has_flag c PGC_allocated = true.
Proof.
  intros E. assert (forall f, Z.land (Z.lor PGC_count_mask PGC_allocated) f = f -> Z.land c f = Z.land (Z.lor 1 PGC_allocated) f) as HF by (intros f Hf; by rewrite <- E, <- Z.land_assoc, Hf).
  split; [by rewrite (HF PGC_count_mask)|]. unfold has_flag. by rewrite (HF PGC_allocated).
Qed.

(** A page leaves the list of its owner. *)
Lemma stolen_ok d x m p w :
  mem_ok (recount d x w) -> m ∈ page_list x -> pages w !! m = Some p -> v p = d -> count_info p = Z.lor PGC_allocated 1 ->
  let w' := set_hdoms (<[d := without m x]> (hdoms w)) (set_pages (<[m := page_set_owner None p]> (pages w)) w) in
  mem_ok (recount d (without m x) w') /\ anon w' m /\ free_all w' = free_all w.
Proof.
  intros MI Hm Hp Hv Hc w'. pose proof (mi_dom _ _ _ MI) as HI. set (w0 := recount d x w) in *. set (x0 := set_dom_pages (Z.of_nat (length (page_list x))) (page_list x) x).
  assert (hdoms w0 !! d = Some x0) as Hx0 by (simpl; by rewrite lookup_insert_eq). assert (forall i, i <> m -> pages w' !! i = pages w0 !! i) as Hne by (intros i Hi; simpl; by rewrite lookup_insert_ne).
  assert (pages w' !! m = Some (page_set_owner None p)) as Hpm by (simpl; by rewrite lookup_insert_eq). destruct (do_pages _ _ _ (di_dom _ HI d x0 Hx0) m Hm) as [_ O2 O3 O4].
  destruct (mi_refs _ _ _ MI d x0 m p Hx0 Hm Hp) as [Hw Hr Hpin]. unfold extra_at in Hr. assert (gcount p = 1 /\ aref p = 1) as [Eg Ea] by (unfold gcount, aref; rewrite Hc; done). pose proof (tcount_nonneg p).
  assert (tcount p = 0) as Et by (destruct (decide _); lia). assert (has_flag (type_info p) PGT_pinned = false) as Epin by (destruct (has_flag _ PGT_pinned); [specialize (Hpin eq_refl); lia|done]).
  assert (anon w' m) as A by (split; try done; exists (page_set_owner None p); split_and!; try done; by right).
  assert (busy_change w w') as HB.
  { intros i. destruct (decide (i = m)) as [->|Hi]; [right|left; by rewrite Hne]. split_and!; [|by apply anon_busy|by rewrite Hpm]. intros (q & Hq & Hf). assert (q = p) as -> by congruence. unfold page_state_is in Hf. by rewrite Hc in Hf. }
  split_and!; [|done|apply set_eq; intros i; rewrite !elem_of_free_all; by apply busy_free].
  assert (forall e y, hdoms (recount d (without m x) w') !! e = Some y -> exists z, hdoms w0 !! e = Some z /\ (forall i, i ∈ page_list y -> i ∈ page_list z /\ i <> m) /\ (forall i, i ∈ page_list z -> i = m \/ i ∈ page_list y)) as Hback.
  { intros e y. simpl. rewrite insert_insert_eq. destruct (decide (e = d)) as [->|Hed]; [rewrite lookup_insert_eq; intros [= <-]|rewrite lookup_insert_ne by done; intros Hy].
    - exists x0. split_and!; [by rewrite lookup_insert_eq|intros i Hi; by apply list_elem_of_filter in Hi as [? ?]|]. intros i Hi. destruct (decide (i = m)); [by left|right]. by apply list_elem_of_filter.
    - assert (hdoms w0 !! e = Some y) as Hy0 by (simpl; by rewrite lookup_insert_ne). exists y. rewrite lookup_insert_ne by done. split_and!; [done| |by right]. intros i Hi. split; [done|]. intros ->.
      destruct (do_pages _ _ _ (di_dom _ HI e y Hy0) m Hi) as [(q & Hq & Hvq & _) _ _ _]. simpl in Hq. congruence. }
  assert (dinv (recount d (without m x) w')) as HI'.
  { split; [apply (busy_heap_ok true w0); try done; apply HI|]. intros e y Hy. destruct (Hback e y Hy) as (z & Hz & Hyz & _).
    assert (forall i, i ∈ page_list y -> owned (recount d (without m x) w') e i) as Hown.
    { intros i Hi. destruct (Hyz i Hi) as [Hiz Him]. destruct (do_pages _ _ _ (di_dom _ HI e z Hz) i Hiz) as [Q1 Q2 Q3 Q4]. split; try done. change (pages (recount d (without m x) w')) with (pages w'). by rewrite Hne. }
    destruct (di_dom _ HI e z Hz) as [D1 D2 D3 D4 D5 D6 D7 D8]. simpl in Hy. rewrite insert_insert_eq in Hy. destruct (decide (e = d)) as [->|Hed].
    - rewrite lookup_insert_eq in Hy. injection Hy as <-. assert (z = x0) as -> by congruence. pose proof (length_filter (fun y => y <> m) (page_list x)). split; try done; simpl in *; [by apply NoDup_filter|lia].
    - rewrite lookup_insert_ne in Hy by done. simpl in Hz. rewrite lookup_insert_ne in Hz by done. assert (z = y) as -> by congruence. by split. }
  destruct MI as [_ I2 I3 I4]. split; [done| | |].
  - intros e y i q Hy Hi Hq. destruct (Hback e y Hy) as (z & Hz & Hyz & _). destruct (Hyz i Hi) as [Hiz Him]. apply (I2 e z i q Hz Hiz). by rewrite <- Hne.
  - intros i q Hq Hg Hv'. destruct (decide (i = m)) as [->|Him]; [assert (q = page_set_owner None p) as -> by (change (pages (recount d (without m x) w')) with (pages w') in Hq; congruence); done|].
    change (pages (recount d (without m x) w')) with (pages w') in Hq. rewrite Hne in Hq by done. destruct (I3 i q Hq Hg Hv') as (z & Hz & Hiz). simpl. rewrite insert_insert_eq. destruct (decide (v q = d)) as [E|E].
    + rewrite E in *. assert (z = x0) as -> by congruence. eexists. split; [by rewrite lookup_insert_eq|]. by apply list_elem_of_filter.
    + exists z. rewrite lookup_insert_ne by done. simpl in Hz. rewrite lookup_insert_ne in Hz by done. done.
  - intros i q Hq. change (pages (recount d (without m x) w')) with (pages w') in Hq. destruct (decide (i = m)) as [->|Him]; [assert (q = page_set_owner None p) as -> by congruence; done|]. rewrite Hne in Hq by done. by apply (I4 i).
Qed.

Lemma steal_page_spec d k l o x m p w :
  mid d k l o x w -> pages w !! m = Some p ->
  wp no_error (steal_page d m MEMF_no_refcount) (fun rc w' => if rc =? 0 then m ∈ page_list x /\ m ∉ l /\ mid d k (m :: l) o (without m x) w' /\ free_all w' = free_all w /\ (forall e, e <> d -> hdoms w' !! e = hdoms w !! e) else w' = w) w.
Proof.
  intros M Hp. pose proof (md_inv _ _ _ _ _ _ M) as MI. pose proof (md_dom _ _ _ _ _ _ M) as Hx. unfold steal_page. wp_step. eapply wp_get_page; [done|].
  destruct (has_flag (count_info p) PGC_xen_heap || _) eqn:Hown; [wp_step; done|]. apply orb_false_iff in Hown as [_ Hown]. apply negb_false_iff, bool_decide_eq_true in Hown.
  destruct (Z.eqb_spec (Z.land (count_info p) (Z.lor PGC_count_mask PGC_allocated)) (Z.lor 1 PGC_allocated)) as [Hs|]; cbn [negb]; [|wp_step; done].
  destruct (sole_flags _ Hs) as [Eg Ea]. assert (v p = d /\ v p <> 0) as [Hv Hv0] by (unfold page_get_owner in Hown; destruct (Z.eqb_spec (v p) 0); [done|]; split; congruence).
  assert (m ∈ page_list x) as Hm.
  { destruct (mi_own _ _ _ MI m p Hp) as (y & Hy & Hmy); [unfold gcount; lia|done|]. rewrite Hv in Hy. simpl in Hy. rewrite lookup_insert_eq in Hy. by injection Hy as <-. }
  assert (count_info p = Z.lor PGC_allocated 1) as Hc by (apply (md_clean _ _ _ _ _ _ M m p Hm Hp); [exact Eg|]; unfold aref; by rewrite Ea).
  wp_step. eapply wp_mod_page; [done|]. cbn beta. assert (set_count_info (Z.lor (Z.ldiff (count_info p) PGC_count_mask) 1) (page_set_owner None p) = page_set_owner None p) as -> by (rewrite Hc; destruct p; simpl in *; by subst).
  wp_step. eapply wp_get_hdom; [done|]. change (has_flag MEMF_no_refcount MEMF_no_refcount) with true. cbn [negb andb]. rewrite bool_decide_true by done. wp_step. eapply wp_mod_hdom; [done|]. wp_step. unfold when. wp_step. wp_step. change (0 =? 0) with true. cbn iota.
  set (w' := set_hdoms _ _). assert (w' = set_hdoms (<[d := without m x]> (hdoms w)) (set_pages (<[m := page_set_owner None p]> (pages w)) w)) as Ew by done. clearbody w'.
  destruct (stolen_ok d x m p w MI Hm Hp Hv Hc) as (MI' & A & EF). rewrite <- Ew in *. assert (forall i, anon w i -> i <> m) as Hne by (intros i [(q & Hq & Hvq & _) _ _ _] ->; congruence).
  assert (m ∉ l) as Hnl by (intros Hin; by destruct (md_stolen _ _ _ _ _ _ M m Hin) as [?%Hne _]). assert (hdoms w' = <[d := without m x]> (hdoms w)) as Ed by by rewrite Ew.
  split_and!; [done|done| |done|intros e He; by rewrite Ed, lookup_insert_ne].
  eapply (mid_push d k l o (without m x) w' m (page_set_owner None p)); [|done|rewrite Ew; simpl; by rewrite lookup_insert_eq|done|done|intros pg Hpg Hi; by eapply Hne; [eapply new_anon|]].
  apply (mid_frame d k [] l [] o x (without m x) w w' M); [by rewrite Ed, lookup_insert_eq|apply M|done|by rewrite Ew| |].
  - intros i Hi%Hne _. rewrite Ew. simpl. by rewrite lookup_insert_ne.
  - intros i q Hi Hq. apply list_elem_of_filter in Hi as [Him Hi]. rewrite Ew in Hq. simpl in Hq. rewrite lookup_insert_ne in Hq by done. by apply (md_clean _ _ _ _ _ _ M i q).
Qed.

(** ** Blocks from the heap and back *)

Definition others_same (d : Z) (w w' : hworld) : Prop := forall e, e <> d -> hdoms w' !! e = hdoms w !! e.

Lemma mid_heap d k l o x w : mid d k l o x w -> heap_ok true w.
Proof. intros M. apply (busy_heap_ok true (recount d x w)); try done; [apply (mi_dom _ _ _ (md_inv _ _ _ _ _ _ M))|]. intros i. by left. Qed.

Lemma alloc_anon_spec d k l o x memflags w :
  machine_ok -> mid d k l o x w -> node_flag_ok memflags -> 0 <= k ->
  wp no_error (alloc_domheap_pages None k memflags) (fun r w' => match r with
    | Some pg => mid d k l (pg :: o) x w' /\ (forall i, in_block pg k i -> is_free w i) /\ free_all w' = free_all w ∖ block_set pg k /\ hdoms w' = hdoms w
    | None => w' = w end) w.
Proof.
  intros HM M Hn Hk. pose proof (md_inv _ _ _ _ _ _ M) as MI. pose proof (mid_heap _ _ _ _ _ _ M) as HO.
  pose proof (zone_limit_range None memflags) as Hzl. unfold alloc_domheap_pages. fold (zone_limit None memflags). set (hi := zone_limit None memflags) in *.
  destruct (Z.eqb_spec hi 0) as [Hz|Hz]; [by wp_step|]. wp_step. eapply wp_mono; [|intros r w' Hq; wp_step; exact Hq].
  apply zone_stages; try done; [lia|]. intros pg w1 lo Hlo Hm A. wp_step. pose proof (al_doms _ _ _ _ _ _ _ _ A) as Ed. simpl in Ed.
  assert (forall i, ~ is_free w i -> ~ in_block pg k i /\ pages w1 !! i = pages w !! i) as Hkeep.
  { intros i Hf. assert (~ in_block pg k i) as Hb by (intros Hb; by apply Hf, (al_block _ _ _ _ _ _ _ _ A)). split; [done|]. apply relabelled_busy; [by apply A|done]. }
  split_and!; [|intros i Hi; by apply (al_block _ _ _ _ _ _ _ _ A)|by eapply allocated_free_all|done].
  apply mid_push_block; [|by eapply allocated_releasable| | |].
  - apply (mid_frame d k [] l [] o x x w w1 M); [by rewrite Ed; apply M|apply M|eapply anon_alloc_ok; [done|exact MI|by apply allocated_recount]|apply A|intros i Hi _; by apply Hkeep, anon_busy|].
    intros m p Hmx Hp. assert (owned (recount d x w) d m) as Hown by (eapply (do_pages _ _ _ (di_dom _ (mi_dom _ _ _ MI) d _ ltac:(simpl; by rewrite lookup_insert_eq))); done).
    destruct (Hkeep m) as [_ E]; [exact (owned_not_free _ _ _ Hown)|]. rewrite E in Hp. by apply (md_clean _ _ _ _ _ _ M m p).
  - intros i Hi. destruct (al_page _ _ _ _ _ _ _ _ A i Hi) as (p & _ & Hp). by exists p.
  - intros m Hml. destruct (md_stolen _ _ _ _ _ _ M m Hml) as [Ha _]. by apply Hkeep, anon_busy.
  - intros q i Hq Hi. apply Hkeep, anon_busy. by eapply new_anon.
Qed.

(** A block nobody owns goes back to the heap. *)
Lemma free_anon_spec d k l0 l o0 o x pg j w :
  machine_ok -> mid d k (l0 ++ l) (o0 ++ o) x w -> releasable w pg j -> (forall i, in_block pg j i -> anon w i) -> (forall i, in_block pg j i -> i ∉ l /\ forall q, q ∈ o -> ~ in_block q k i) ->
  wp no_error (free_heap_pages pg j) (fun _ w' => mid d k l o x w' /\ free_all w' = free_all w ∪ block_set pg j /\ hdoms w' = hdoms w) w.
Proof.
  intros HM M R Ha Hout. pose proof (md_inv _ _ _ _ _ _ M) as MI. pose proof (mid_heap _ _ _ _ _ _ M) as HO.
  eapply wp_mono; [by apply free_heap_spec|]. intros [] w' F. pose proof (fr_doms _ _ _ _ F) as Ed. split_and!; [|by eapply freed_free_all|done].
  assert (forall i, in_block pg j i -> anon (recount d x w) i) as Ha' by (intros i Hi; destruct (Ha i Hi) as [? ? ? ?]; by split).
  apply (mid_frame d k l0 l o0 o x x w w' M); [by rewrite Ed; apply M|apply M|eapply anon_free_ok; [exact MI|by apply freed_recount|exact Ha']|apply F| |].
  - intros i Hi Hc. apply relabelled_busy; [|by apply anon_busy]. apply (fr_rest _ _ _ _ F). intros Hb. destruct (Hout i Hb) as [H1' H2']. destruct Hc as [Hc|(q & Hq & Hc)]; [done|by eapply H2'].
  - intros m p Hmx Hp. pose proof (mi_dom _ _ _ MI) as HI. assert (hdoms (recount d x w) !! d = Some (set_dom_pages (Z.of_nat (length (page_list x))) (page_list x) x)) as Hx by (simpl; by rewrite lookup_insert_eq).
    assert (~ in_block pg j m) as Hb by (intros Hb; by eapply (anon_unlisted _ m d _ HI (Ha' m Hb) Hx)). pose proof (owned_not_free _ _ _ (do_pages _ _ _ (di_dom _ HI d _ Hx) m Hmx)) as Hnf.
    rewrite (relabelled_busy w w' m) in Hp; [by apply (md_clean _ _ _ _ _ _ M m p)|by apply F|done].
Qed.

Lemma anon_owner w i p : anon w i -> pages w !! i = Some p -> page_get_owner p = None /\ has_flag (count_info p) PGC_xen_heap = false.
Proof. intros [(q & Hq & Hv & Hc & _) _ _ _] Hp. assert (q = p) as -> by congruence. unfold page_get_owner. rewrite Hv. split; [done|]. by destruct Hc as [-> | ->]. Qed.

Lemma free_anon_dom pg k w (Q : unit -> hworld -> Prop) : anon w pg -> wp no_error (free_heap_pages pg k) Q w -> wp no_error (free_domheap_pages pg k) Q w.
Proof.
  intros A HQ. destruct (an_page _ _ A) as (p & Hp & _). destruct (anon_owner w pg p A Hp) as [Eo Ex]. unfold free_domheap_pages. wp_step. eapply wp_get_page; [done|]. rewrite Eo, Ex. done.
Qed.

Lemma one_block m i : in_block m 0 i <-> i = m.
Proof. unfold in_block. change (2 ^ 0) with 1. lia. Qed.

(** A page in use of nobody can be given back alone. *)
Lemma anon_releasable w m : anon w m -> releasable w m 0.
Proof.
  intros A. destruct (an_page _ _ A) as (p & Hp & Hv & Hc & _). split; [done|apply A|by exists m; rewrite Z.mul_1_r| |apply A|].
  - intros q Hq. by destruct (anon_owner w m q A Hq).
  - intros i Hi. apply one_block in Hi as ->. split_and!; [exists p; split; [done|]; by destruct Hc as [Hc|Hc]; unfold in_use; rewrite Hc|apply A|done].
Qed.

(** The last reference to a page of nobody. *)
Lemma put_last m p w (Q : unit -> hworld -> Prop) :
  pages w !! m = Some p -> v p = 0 -> count_info p = 1 -> wp no_error (free_heap_pages m 0) Q (set_pages (<[m := set_count_info 0 p]> (pages w)) w) -> wp no_error (put_page m) Q w.
Proof.
  intros Hp Hv Hc HQ. unfold put_page. wp_step. eapply wp_get_page; [done|]. rewrite Hc. wp_step. apply wp_assert; [done|]. change (u64 (1 - 1)) with 0. wp_step. eapply wp_mod_page; [done|]. change (has_flag 0 PGC_count_mask) with false. cbn iota.
  set (w1 := set_pages _ w) in *. assert (pages w1 !! m = Some (set_count_info 0 p)) as Hp1 by (simpl; by rewrite lookup_insert_eq).
  wp_step. unfold cleanup_page_cacheattr. wp_step. eapply wp_get_page; [done|]. change (has_flag (count_info (set_count_info 0 p)) PGC_cacheattr_mask) with false. cbn iota. wp_step.
  unfold free_domheap_pages. wp_step. eapply wp_get_page; [done|]. change (has_flag (count_info (set_count_info 0 p)) PGC_xen_heap) with false. cbn iota zeta. unfold page_get_owner. simpl. rewrite Hv. done.
Qed.

(** A stolen page goes to the heap. *)
Lemma put_stolen_spec d k l o x m w :
  machine_ok -> (forall m w, mfn_to_gmfn d m w <> SHARED_M2P_ENTRY) -> mid d k (m :: l) o x w ->
  wp no_error (put_stolen d m) (fun _ w' => mid d k l o x w' /\ free_all w' = free_all w ∪ {[m]} /\ hdoms w' = hdoms w) w.
Proof.
  intros HM HG M. destruct (md_stolen _ _ _ _ _ _ M m) as [A (p & Hp & Hc)]; [by left|]. pose proof (md_inv _ _ _ _ _ _ M) as MI. destruct (an_page _ _ A) as (q & Hq & Hv & _ & Ht & Hpin). assert (q = p) as -> by congruence.
  unfold put_stolen, test_and_clear_allocated. wp_step. wp_step. eapply wp_get_page; [done|]. rewrite Hc. wp_step. eapply wp_mod_page; [done|]. wp_step. change (has_flag (Z.lor PGC_allocated 1) PGC_allocated) with true. cbn iota. wp_step. wp_step. wp_step. wp_step.
  change (Z.ldiff (Z.lor PGC_allocated 1) PGC_allocated) with 1. set (w1 := set_pages _ w). wp_step. destruct (Z.eqb_spec (mfn_to_gmfn d m w1) SHARED_M2P_ENTRY) as [E|_]; [by apply HG in E|]. wp_step. wp_step. unfold event. wp_step.
  eapply put_last; [simpl; by rewrite lookup_insert_eq|done|done|]. simpl. rewrite insert_insert_eq. set (w3 := set_pages _ _). set (p3 := set_count_info 0 p).
  assert (pages w3 = <[m := p3]> (pages w)) as E3 by done. assert (touched p p3) as T by (unfold touched, p3; simpl; by rewrite Hc).
  assert (forall i, i <> m -> pages w3 !! i = pages w !! i) as Hne by (intros i Hi; rewrite E3; by rewrite lookup_insert_ne). assert (pages w3 !! m = Some p3) as Hp3 by (rewrite E3; by rewrite lookup_insert_eq).
  assert (anon w3 m) as A3 by (destruct A as [_ A2 A4 A5]; split; try done; exists p3; split_and!; try done; by left).
  assert (free_all w3 = free_all w) as EF by (etrans; [|by apply (touch_free m p p3 w Hp T)]; done).
  assert (mem_ok (recount d x w3)) as MI3.
  { change (minv 0 0 (set_events (events w3) (set_pages (<[m := p3]> (pages (recount d x w))) (recount d x w)))). apply events_minv. eapply touch_nobody; [exact MI|exact Hp|done| |done|done]. unfold gcount. by rewrite Hc. }
  pose proof (md_nodup _ _ _ _ _ _ M) as Hnd. apply NoDup_cons in Hnd as [Hml _].
  assert (mid d k l o x w3) as M3.
  { apply (mid_frame d k [m] l [] o x x w w3 M); [apply M|apply M|done|done| |].
    - intros i _ Hi. apply Hne. intros ->. destruct Hi as [?|(pg & Hpg & Hi)]; [done|]. by eapply (md_apart _ _ _ _ _ _ M pg m); [|left|].
    - intros i q Hi Hq3. rewrite Hne in Hq3; [by apply (md_clean _ _ _ _ _ _ M i q)|]. intros ->. eapply (anon_unlisted (recount d x w) m d); [apply MI|destruct A; by split|simpl; by rewrite lookup_insert_eq|exact Hi]. }
  eapply wp_mono; [apply (free_anon_spec d k [] l [] o x m 0 w3 HM M3); [by apply anon_releasable|by intros i ->%one_block|]|].
  - intros i ->%one_block. split; [done|]. intros q Hq' Hi. by eapply (md_apart _ _ _ _ _ _ M q m); [|left|].
  - intros [] w' (M' & EF' & Ed'). split_and!; [done|rewrite EF', EF; f_equal|done]. apply set_eq. intros i. rewrite elem_of_block_set, one_block, elem_of_singleton. done.
Qed.

(** ** New owners *)

Lemma assigned_refs d w i p : anon w i -> pages w !! i = Some p -> ref_ok 0 (assigned d p).
Proof.
  intros [(q & Hq & _ & _ & Ht & Hpin) _ _ _] Hp. assert (q = p) as -> by congruence. split; [done| |].
  - change (tcount (assigned d p)) with (tcount p). rewrite Ht. done.
  - intros Hf. change (type_info (assigned d p)) with (type_info p) in Hf. congruence.
Qed.

Lemma assigned_owned d w w' i p : 0 < d -> anon w i -> pages w !! i = Some p -> pages w' !! i = Some (assigned d p) -> heap_nodes w' = heap_nodes w -> owned w' d i.
Proof. intros Hd A Hp Hp' En. split; [exists (assigned d p); split_and!; try done|apply A|apply A|rewrite En; apply A]. Qed.

(** The pages of a block get an owner and are in its list. *)
Lemma assigned_ok d x pg e w w' :
  let x' := add_pages (seqZ pg (e - pg)) x in
  mem_ok (recount d x w) -> (forall i, pg <= i < e -> anon w i) -> Z.of_nat (length (page_list x)) + Z.max 0 (e - pg) <= max_pages x ->
  changed (assigned d) pg e w w' -> w' = set_hdoms (<[d := x']> (hdoms w)) (set_pages (pages w') w) -> mem_ok (recount d x' w') /\ busy_change w w'.
Proof.
  intros x' MI Ha Hmax Hc E. pose proof (mi_dom _ _ _ MI) as HI. set (w0 := recount d x w) in *. set (x0 := set_dom_pages (Z.of_nat (length (page_list x))) (page_list x) x).
  assert (hdoms w0 !! d = Some x0) as Hx0 by (simpl; by rewrite lookup_insert_eq). pose proof (di_dom _ HI d x0 Hx0) as D0. pose proof (proj1 (do_id _ _ _ D0)) as Hd.
  assert (forall i, ~ pg <= i < e -> pages w' !! i = pages w0 !! i) as Hne by (intros i Hi; rewrite (Hc i); by rewrite decide_False).
  assert (forall i, pg <= i < e -> exists p, pages w0 !! i = Some p /\ pages w' !! i = Some (assigned d p)) as Hin by (intros i Hi; destruct (an_page _ _ (Ha i Hi)) as (p & Hp & _); exists p; split; [done|]; by rewrite (Hc i), decide_True, Hp).
  assert (heap_nodes w' = heap_nodes w) as En by by rewrite E.
  assert (busy_change w w') as HB.
  { intros i. destruct (decide (pg <= i < e)) as [Hi|Hi]; [right|left; by rewrite Hne]. destruct (Hin i Hi) as (p & _ & Hp'). split_and!; [by apply anon_busy, Ha| |by rewrite Hp']. intros (q & Hq & Hf). assert (q = assigned d p) as -> by congruence. done. }
  split; [|done]. assert (forall f y i, hdoms w0 !! f = Some y -> i ∈ page_list y -> ~ pg <= i < e) as Hout.
  { intros f y i Hy Hi Hb. eapply (anon_unlisted w0 i f y); [done|destruct (Ha i Hb); by split|done|done]. }
  set (w1 := recount d x' w'). set (x1 := set_dom_pages (Z.of_nat (length (page_list x'))) (page_list x') x').
  assert (forall f, hdoms w1 !! f = if decide (f = d) then Some x1 else hdoms w0 !! f) as HD.
  { intros f. unfold w1, w0. simpl. rewrite E. simpl. rewrite insert_insert_eq. destruct (decide (f = d)) as [->|Hf]; [by rewrite lookup_insert_eq|by rewrite !lookup_insert_ne]. }
  assert (dinv w1) as HI1.
  { split; [apply (busy_heap_ok true w0); try done; [apply HI|by unfold w1; simpl; rewrite E..]|]. intros f y. rewrite HD. destruct (decide (f = d)) as [->|Hf].
    - intros [= <-]. destruct D0 as [D1 D2 D3 D4 D5 D6 D7 D8]. split; try done; simpl in *.
      + apply NoDup_app. split_and!; [done| |apply NoDup_seqZ]. intros i Hi Hi'%elem_of_seqZ. apply (Hout d x0 i Hx0 Hi). lia.
      + rewrite length_app, length_seqZ. lia.
      + intros i [Hi|Hi%elem_of_seqZ]%elem_of_app.
        * destruct (D8 i Hi) as [Q1 Q2 Q3 Q4]. split; try done; [|by change (phys_to_nid i ∈ heap_nodes w'); rewrite En]. change (pages w1) with (pages w'). rewrite Hne; [done|]. by apply (Hout d x0 i Hx0).
        * destruct (Hin i ltac:(lia)) as (p & Hp & Hp'). apply (assigned_owned d w w1 i p); try done. apply Ha. lia.
    - intros Hy. destruct (di_dom _ HI f y Hy) as [D1 D2 D3 D4 D5 D6 D7 D8]. split; try done. intros i Hi. destruct (D8 i Hi) as [Q1 Q2 Q3 Q4]. split; try done; [|by change (phys_to_nid i ∈ heap_nodes w'); rewrite En].
      change (pages w1) with (pages w'). rewrite Hne; [done|]. by apply (Hout f y). }
  apply (minv_frame 0 0 w0); [done|done|..].
  - intros i p' Hp'. change (pages w1) with (pages w') in Hp'. destruct (decide (pg <= i < e)) as [Hi|Hi]; [right; right|left; by rewrite <- Hne]. destruct (Hin i Hi) as (p & _ & Hp1). assert (p' = assigned d p) as -> by congruence.
    exists x1. change (v (assigned d p)) with d. rewrite HD, decide_True by done. split; [done|]. simpl. apply elem_of_app. right. apply elem_of_seqZ. lia.
  - intros f y i Hy Hi. right. rewrite HD. destruct (decide (f = d)) as [->|Hf]; [|by exists y]. exists x1. split; [done|]. assert (y = x0) as -> by congruence. simpl. apply elem_of_app. by left.
  - intros f y i p' Hy Hi Hp'. change (pages w1) with (pages w') in Hp'. destruct (decide (pg <= i < e)) as [Hb|Hb].
    + right. destruct (Hin i Hb) as (p & Hp & Hp1). assert (p' = assigned d p) as -> by congruence. unfold extra_at. destruct (decide _); by apply (assigned_refs d w i p (Ha i Hb)).
    + left. rewrite HD in Hy. rewrite Hne in Hp' by done. destruct (decide (f = d)) as [->|Hf]; [injection Hy as <-|by exists y]. exists x0. split_and!; [done| |done]. simpl in Hi. apply elem_of_app in Hi as [?|Hi%elem_of_seqZ]; [done|lia].
Qed.

Lemma assign_anon_spec d k l0 l o0 o x pg j w :
  mid d k (l0 ++ l) (o0 ++ o) x w -> 0 <= j -> (forall i, in_block pg j i -> anon w i) -> (forall i, in_block pg j i -> i ∉ l /\ forall q, q ∈ o -> ~ in_block q k i) ->
  Z.of_nat (length (page_list x)) + 2 ^ j <= max_pages x ->
  wp no_error (assign_pages d pg j MEMF_no_refcount) (fun b w' => b = true /\ mid d k l o (add_pages (seqZ pg (2 ^ j)) x) w' /\ free_all w' = free_all w /\ others_same d w w') w.
Proof.
  intros M Hj Ha Hout Hmax. pose proof (md_inv _ _ _ _ _ _ M) as MI. pose proof (mi_dom _ _ _ MI) as HI. assert (0 < 2 ^ j) as Hpos by (apply Z.pow_pos_nonneg; lia).
  unfold assign_pages. wp_step. eapply wp_get_hdom; [apply M|]. rewrite (md_live _ _ _ _ _ _ M). change (has_flag MEMF_no_refcount MEMF_no_refcount) with true. cbn [negb andb]. unfold when. wp_step. wp_step. rewrite shift_pow by lia. wp_step.
  eapply wp_mono; [eapply assign_loop_spec; [apply M|]|].
  { intros i Hi. destruct (an_page _ _ (Ha i ltac:(unfold in_block; lia))) as (p & Hp & Hv & Hc & _). exists p. split_and!; [done|done|]. by destruct Hc as [-> | ->]. }
  intros [] w' [Hc E]. wp_step. replace (Z.of_nat (Z.to_nat (2 ^ j))) with (2 ^ j) in * by lia. split; [done|].
  assert (forall i, pg <= i < pg + 2 ^ j -> anon w i) as Ha' by exact Ha. destruct (assigned_ok d x pg (pg + 2 ^ j) w w' MI Ha' ltac:(lia) Hc) as [MI' HB]; [by replace (pg + 2 ^ j - pg) with (2 ^ j) by lia|].
  replace (pg + 2 ^ j - pg) with (2 ^ j) in MI' by lia. split_and!; [|apply set_eq; intros i; rewrite !elem_of_free_all; by apply busy_free|intros e He; rewrite E; simpl; by rewrite lookup_insert_ne].
  apply (mid_frame d k l0 l o0 o x _ w w' M); [rewrite E; simpl; by rewrite lookup_insert_eq|apply M|exact MI'|by rewrite E| |].
  - intros i _ Hi. rewrite (Hc i). rewrite decide_False; [done|]. intros Hb. destruct (Hout i Hb) as [Hl' Ho']. destruct Hi as [?|(q & Hq & Hi)]; [done|by eapply Ho'].
  - intros i p Hi Hp. rewrite (Hc i) in Hp. destruct (decide _) as [Hb|Hb]; [destruct (pages w !! i) as [q|]; [|done]; by injection Hp as <-|]. simpl in Hi. apply elem_of_app in Hi as [Hi|Hi%elem_of_seqZ]; [by apply (md_clean _ _ _ _ _ _ M i p)|lia].
Qed.
End Facts.
