(* ===== verification/ExchangeMain.v ===== *)
(** * Exchange of pages: the hypercall

    A domain that trades pages ends with as many as before; a chunk is traded completely or
    not at all. *)

From S2P Require Import Prelude.
From S2P Require Import Xen.
From S2P Require Import PageAlloc.
From S2P Require Import PageFacts.
From S2P Require Import PageCount.
From S2P Require Import PageSearch.
From S2P Require Import PageOps.
From S2P Require Import PageFree.
From S2P Require Import PageDom.
From S2P Require Import PageMain.
From S2P Require Import Memop.
From S2P Require Import MemopFacts.
From S2P Require Import MemopMain.
From S2P Require Import Exchange.
From S2P Require Import ExchangeFacts.

Section Main.
Context `{HeapEnv} `{MemEnv} `{ExchEnv}.

(** ** Between requests *)

(** The domain exists and is not dying; its pages with one reference have no other attribute. *)
Record ready (d : Z) (x : hdom) (w : hworld) : Prop := Ready {
  rd_ok : mem_ok w;
  rd_dom : hdoms w !! d = Some x;
  rd_live : hd_dying x = false;
  rd_clean m p : m ∈ page_list x -> pages w !! m = Some p -> gcount p = 1 -> aref p = 1 -> count_info p = Z.lor PGC_allocated 1
}.

Lemma recount_id d x w : hdoms w !! d = Some x -> tot_pages x = Z.of_nat (length (page_list x)) -> recount d x w = w.
Proof. intros Hx Ht. unfold recount. rewrite <- Ht. assert (set_dom_pages (tot_pages x) (page_list x) x = x) as -> by by destruct x. rewrite insert_id by done. by destruct w. Qed.

Lemma ready_mid d k x w : ready d x w -> mid d k [] [] x w.
Proof.
  intros [R1 R2 R3 R4]. split; try done; [|by intros m []%not_elem_of_nil|by intros m []%not_elem_of_nil|apply NoDup_nil_2|by intros pg m []%not_elem_of_nil].
  rewrite recount_id; [done|done|]. apply (do_tot _ _ _ (di_dom _ (mi_dom _ _ _ R1) d x R2)).
Qed.

Lemma mid_ready d k x w : mid d k [] [] x w -> tot_pages x = Z.of_nat (length (page_list x)) -> ready d x w.
Proof. intros M Ht. split; try apply M. rewrite <- (recount_id d x w); [apply M|apply M|done]. Qed.

(** ** Stealing *)

(** The pages [l] have left the domain. *)
Record took (d k : Z) (x0 : hdom) (w0 : hworld) (l : list Z) (x : hdom) (w : hworld) : Prop := Took {
  tk_mid : mid d k l [] x w;
  tk_list : page_list x = filter (fun m => m ∉ l) (page_list x0);
  tk_from m : m ∈ l -> m ∈ page_list x0;
  tk_tot : tot_pages x = tot_pages x0;
  tk_max : max_pages x = max_pages x0;
  tk_free : free_all w = free_all w0;
  tk_others : others_same d w0 w
}.

Definition plain_gfn (d : Z) : Prop := forall g w, exists q, get_gfn_unshare d g w = Ok (q, w).

Lemma took_more d k x0 w0 l x w m w' :
  took d k x0 w0 l x w -> m ∈ page_list x -> mid d k (m :: l) [] (without m x) w' -> free_all w' = free_all w -> others_same d w w' -> took d k x0 w0 (m :: l) (without m x) w'.
Proof.
  intros [T1 T2 T3 T4 T5 T6 T7] Hm M' EF Ho. split; try done.
  - simpl. rewrite T2, list_filter_filter. apply list_filter_iff. intros i. rewrite not_elem_of_cons. tauto.
  - intros i [->|Hi]%elem_of_cons; [|by apply T3]. rewrite T2 in Hm. by apply list_elem_of_filter in Hm as [_ ?].
  - congruence.
  - intros e He. by rewrite Ho, T7.
Qed.

Lemma steal_frames_spec d k x0 w0 n gmfn l x w :
  plain_gfn d -> took d k x0 w0 l x w ->
  wp no_error (steal_frames n d gmfn l) (fun r w' => (exists x', took d k x0 w0 r.2 x' w') /\ (r.1 = 0 -> length r.2 = (n + length l)%nat)) w.
Proof.
  intros HP. revert gmfn l x w. induction n as [|n IH]; intros gmfn l x w T; simpl; [wp_step; split; [by exists x|done]|].
  wp_step. destruct (HP gmfn w) as [[m t] E]. unfold wp at 1. rewrite E. assert (forall rc, rc <> 0 -> (exists x', took d k x0 w0 (rc, l).2 x' w) /\ ((rc, l).1 = 0 -> length (rc, l).2 = S (n + length l))) as Hstop by (intros rc Hrc; split; [by exists x|done]).
  assert (wp no_error (if negb (mfn_valid m) then ret (- EINVAL, l) else let! rc := steal_page d m MEMF_no_refcount in if negb (rc =? 0) then ret (- EINVAL, l) else steal_frames n d (u64 (gmfn + 1)) (m :: l))
    (fun r w' => (exists x', took d k x0 w0 r.2 x' w') /\ (r.1 = 0 -> length r.2 = S (n + length l))) w) as Hgo; [|destruct t; [exact Hgo..|wp_step; by apply Hstop]].
  destruct (mfn_valid m) eqn:Hv; cbn [negb]; [|wp_step; by apply Hstop]. destruct (hi_valid _ _ _ (proj1 (mid_heap _ _ _ _ _ _ (tk_mid _ _ _ _ _ _ _ T))) m Hv) as [p Hp].
  wp_step. eapply wp_mono; [eapply steal_page_spec; [apply T|done]|]. intros rc w'. cbn beta. destruct (Z.eqb_spec rc 0) as [Hz|Hz]; cbn [negb]; intros Hr.
  - destruct Hr as (Hm & _ & M' & EF & Ho). eapply wp_mono; [eapply IH; by eapply took_more|]. intros r w2 [HT Hl]. split; [done|]. intros Hr0. rewrite (Hl Hr0). simpl. lia.
  - subst w'. wp_step. by apply Hstop.
Qed.

Lemma steal_extents_spec d k x0 w0 n order idx l x w :
  plain_gfn d -> 0 <= order -> took d k x0 w0 l x w ->
  wp no_error (steal_extents n d order idx l) (fun r w' => (exists x', took d k x0 w0 r.2 x' w') /\ (r.1 = 0 -> Z.of_nat (length r.2) = Z.of_nat n * 2 ^ order + Z.of_nat (length l))) w.
Proof.
  intros HP Ho. revert idx l x w. induction n as [|n IH]; intros idx l x w T; simpl; [wp_step; split; [by exists x|done]|].
  destruct (in_extent idx) as [gmfn|]; [|wp_step; split; [by exists x|done]]. wp_step. eapply wp_mono; [by eapply steal_frames_spec|]. intros r w1 [[x1 T1] Hl]. rewrite shift_pow in Hl by lia. assert (0 < 2 ^ order) by (apply Z.pow_pos_nonneg; lia).
  destruct (Z.eqb_spec r.1 0) as [Hz|Hz]; cbn [negb]; [|wp_step; split; [by exists x1|done]]. eapply wp_mono; [by eapply IH|]. intros r2 w2 [HT HL2]. split; [done|]. intros Hr. rewrite (HL2 Hr), (Hl Hz). lia.
Qed.

(** ** New blocks *)

Lemma elem_of_blocks k o i : i ∈ blocks k o <-> exists pg, pg ∈ o /\ in_block pg k i.
Proof. unfold blocks. rewrite list_elem_of_bind. split; intros (pg & H1' & H2'); exists pg; rewrite elem_of_seqZ in *; done. Qed.

Lemma blocks_cons k pg o : blocks k (pg :: o) = seqZ pg (2 ^ k) ++ blocks k o.
Proof. done. Qed.

Lemma length_blocks k o : 0 <= k -> Z.of_nat (length (blocks k o)) = Z.of_nat (length o) * 2 ^ k.
Proof. intros Hk. pose proof (Z.pow_pos_nonneg 2 k). induction o as [|pg o IH]; [done|]. rewrite blocks_cons, length_app, length_seqZ, Nat2Z.inj_add, IH. simpl. lia. Qed.

Lemma block_set_blocks k pg : block_set pg k = list_to_set (seqZ pg (2 ^ k)).
Proof. apply set_eq. intros i. rewrite elem_of_block_set, elem_of_list_to_set, elem_of_seqZ. done. Qed.

(** The blocks [o] have left the heap. *)
Record drawn (d k : Z) (l : list Z) (x : hdom) (w0 : hworld) (o : list Z) (w : hworld) : Prop := Drawn {
  dr_mid : mid d k l o x w;
  dr_from i : i ∈ blocks k o -> is_free w0 i;
  dr_free : free_all w = free_all w0 ∖ list_to_set (blocks k o);
  dr_doms : hdoms w = hdoms w0
}.

Lemma alloc_out_spec d k l x w0 n memflags o w :
  machine_ok -> node_flag_ok memflags -> 0 <= k -> drawn d k l x w0 o w ->
  wp no_error (alloc_out n k memflags o) (fun r w' => drawn d k l x w0 r.2 w' /\ (r.1 = 0 -> length r.2 = (n + length o)%nat)) w.
Proof.
  intros HM Hn Hk. revert o w. induction n as [|n IH]; intros o w D; simpl; [wp_step; done|]. wp_step. eapply wp_mono; [eapply alloc_anon_spec; [done|apply D|done|done]|]. intros [pg|] w1 Hr; [|subst w1; wp_step; done].
  destruct Hr as (M1 & Hf & EF & Ed). eapply wp_mono; [eapply IH|intros r w2 [D2 Hl]; split; [done|]; intros Hz; rewrite (Hl Hz); simpl; lia]. destruct D as [D1 D2 D3 D4]. split; [done| | |congruence].
  - intros i Hi. rewrite blocks_cons in Hi. apply elem_of_app in Hi as [Hi%elem_of_seqZ|Hi]; [|by apply D2]. assert (is_free w i) as Hi' by by apply Hf. apply elem_of_free_all in Hi'. rewrite D3 in Hi'. apply elem_of_difference in Hi' as [Hi' _]. by apply elem_of_free_all.
  - rewrite EF, D3, block_set_blocks, blocks_cons, list_to_set_app_L. set_solver.
Qed.

(** ** Events and the machine-to-physical map *)

Lemma mid_quiet d k l o x ev f w : mid d k l o x w -> mid d k l o x (set_events ev (set_m2p f w)).
Proof.
  intros M. apply (mid_frame d k [] l [] o x x w _ M); try done; try apply M.
  change (minv 0 0 (set_events ev (set_m2p f (recount d x w)))). apply events_minv, m2p_minv, M.
Qed.

Lemma set_gpfns_run n pfn mfn w :
  (forall i, mfn <= i < mfn + Z.of_nat n -> exists p, pages w !! i = Some p) ->
  wp no_error (for_ n 0 (fun j => set_gpfn_from_mfn (mfn + j) (u64 (pfn + j)))) (fun _ w' => exists f, w' = set_m2p f w) w.
Proof.
  intros Hp. eapply (wp_for _ (fun _ w' => exists f, w' = set_m2p f w)); [exists (m2p w); by destruct w| |done]. intros j w1 Hj [f ->].
  unfold set_gpfn_from_mfn. apply wp_when; intros _; [|by exists f]. destruct (Hp (mfn + j) ltac:(lia)) as [p Hpj]. wp_step. eapply wp_get_page; [done|]. wp_step. by eexists.
Qed.

Lemma announce_spec d order idx gpfn mfn w :
  0 <= order -> (forall i, in_block mfn order i -> exists p, pages w !! i = Some p) ->
  wp no_error (announce d order idx gpfn mfn) (fun _ w' => exists ev f, w' = set_events ev (set_m2p f w)) w.
Proof.
  intros Ho Hp. assert (0 < 2 ^ order) by (apply Z.pow_pos_nonneg; lia). unfold announce, event. wp_step. wp_step. apply wp_when; intros _; [|eexists _, (m2p w); by destruct w].
  wp_step. rewrite shift_pow by lia. eapply wp_mono; [apply set_gpfns_run; intros i Hi; apply Hp; unfold in_block; lia|]. intros [] w1 [f ->]. apply wp_when; intros _; [wp_step|]; by eexists _, f.
Qed.

(** ** The end of a chunk *)

Lemma others_trans d w1 w2 w3 : others_same d w1 w2 -> others_same d w2 w3 -> others_same d w1 w3.
Proof. intros E1 E2 e He. by rewrite E2, E1. Qed.
Lemma others_doms d w w' : hdoms w' = hdoms w -> others_same d w w'.
Proof. intros E e _. by rewrite E. Qed.

Definition gmfn_ok (d : Z) : Prop := forall m w, mfn_to_gmfn d m w <> SHARED_M2P_ENTRY.

Lemma put_all_spec d k l o x w :
  machine_ok -> gmfn_ok d -> mid d k l o x w -> wp no_error (for_each l (put_stolen d)) (fun _ w' => mid d k [] o x w' /\ free_all w' = free_all w ∪ list_to_set l /\ hdoms w' = hdoms w) w.
Proof.
  intros HM HG. revert w. induction l as [|m l IH]; intros w M; simpl; [wp_step; split_and!; [done|set_solver|done]|]. wp_step. eapply wp_mono; [by apply put_stolen_spec|]. intros [] w1 (M1 & F1 & D1).
  eapply wp_mono; [by apply IH|]. intros [] w2 (M2 & F2 & D2). split_and!; [done|rewrite F2, F1; set_solver|congruence].
Qed.

Lemma add_pages_app l1 l2 x : add_pages l2 (add_pages l1 x) = add_pages (l1 ++ l2) x.
Proof. unfold add_pages, set_dom_pages. simpl. by rewrite app_assoc. Qed.
Lemma add_pages_nil x : add_pages [] x = x.
Proof. unfold add_pages, set_dom_pages. rewrite app_nil_r. by destruct x. Qed.

(** The other blocks are not in the first one. *)
Lemma first_block d k l pg o x w i : mid d k l (pg :: o) x w -> in_block pg k i -> i ∉ l /\ forall q, q ∈ o -> ~ in_block q k i.
Proof.
  intros M Hi. split; [intros Hl; by eapply (md_apart _ _ _ _ _ _ M pg i); [left| |]|]. intros q Hq Hiq. apply list_elem_of_lookup_1 in Hq as [j Hj].
  pose proof (md_blocks _ _ _ _ _ _ M 0 (S j) pg q i eq_refl Hj Hi Hiq). lia.
Qed.

Lemma assign_out_spec d k ip nb base o j gpfn x w :
  0 <= k -> mid d k [] o x w -> Z.of_nat (length (page_list x)) + Z.of_nat (length o) * 2 ^ k <= max_pages x -> j + Z.of_nat (length o) = nb ->
  wp no_error (assign_out o d ip nb k base j gpfn) (fun r w' => r.1 = None /\ mid d k [] [] (add_pages (blocks k o) x) w' /\ free_all w' = free_all w /\ others_same d w w') w.
Proof.
  intros Hk. assert (0 < 2 ^ k) by (apply Z.pow_pos_nonneg; lia). revert j gpfn x w. induction o as [|pg o IH]; intros j gpfn x w M Hmax Hj; cbn [assign_out].
  - wp_step. eapply wp_get_hdom; [apply M|]. rewrite (proj2 (Z.eqb_eq j nb)) by (simpl in Hj; lia). rewrite andb_false_r. wp_step. change (blocks k []) with (@nil Z). rewrite add_pages_nil. by split_and!.
  - cbn [length] in *. wp_step. eapply wp_mono; [apply (assign_anon_spec d k [] [] [pg] o x pg k w M); [done|intros i Hi; eapply new_anon; [exact M|left|done]|intros i Hi; by eapply first_block|lia]|].
    intros b w1 (-> & M1 & F1 & O1). cbn [negb]. wp_step. eapply wp_mono; [apply announce_spec; [done|]|].
    { intros i Hi. destruct (hi_valid _ _ _ (proj1 (mid_heap _ _ _ _ _ _ M1)) i) as [p Hp]; [|by exists p]. assert (anon w i) as A by (eapply new_anon; [exact M|left|done]). apply A. }
    intros [] w2 (ev & f & ->). eapply wp_mono; [apply IH; [by apply mid_quiet| |lia]|].
    + simpl. rewrite length_app, length_seqZ. lia.
    + intros r w3 (Hr & M3 & F3 & O3). rewrite blocks_cons, <- add_pages_app. split_and!; [done|done|etrans; [exact F3|exact F1]|]. eapply others_trans; [exact O1|exact O3].
Qed.

Lemma give_back_spec d k l o x w :
  mid d k l o x w -> Z.of_nat (length (page_list x)) + Z.of_nat (length l) <= max_pages x ->
  wp no_error (give_back d l) (fun _ w' => mid d k [] o (add_pages l x) w' /\ free_all w' = free_all w /\ others_same d w w') w.
Proof.
  unfold give_back. revert x w. induction l as [|m l IH]; intros x w M Hmax; simpl; [wp_step; rewrite add_pages_nil; by split_and!|]. cbn [length] in *.
  wp_step. wp_step. eapply wp_mono; [apply (assign_anon_spec d k [m] l [] o x m 0 w M); [done|intros i ->%one_block; apply (md_stolen _ _ _ _ _ _ M); left| |change (2 ^ 0) with 1; lia]|].
  - intros i ->%one_block. pose proof (md_nodup _ _ _ _ _ _ M) as Hnd. apply NoDup_cons in Hnd as [Hml _]. split; [done|]. intros q Hq Hi. by eapply (md_apart _ _ _ _ _ _ M q m); [|left|].
  - intros b w1 (-> & M1 & F1 & O1). wp_step. change (seqZ m (2 ^ 0)) with [m] in M1. eapply wp_mono; [apply IH; [exact M1|simpl; rewrite length_app; simpl; lia]|].
    intros [] w2 (M2 & F2 & O2). rewrite add_pages_app in M2. split_and!; [done|congruence|by eapply others_trans].
Qed.

Lemma free_out_spec d k o x w :
  machine_ok -> mid d k [] o x w -> wp no_error (free_out k o) (fun _ w' => mid d k [] [] x w' /\ free_all w' = free_all w ∪ list_to_set (blocks k o) /\ hdoms w' = hdoms w) w.
Proof.
  intros HM. unfold free_out. revert w. induction o as [|pg o IH]; intros w M; simpl; [wp_step; split_and!; [done|set_solver|done]|]. destruct (md_new _ _ _ _ _ _ M pg) as [R _]; [left|]. pose proof (rl_order _ _ _ R).
  assert (forall i, in_block pg k i -> anon w i) as Ha by (intros i Hi; eapply new_anon; [exact M|left|done]).
  wp_step. apply free_anon_dom; [apply Ha, in_block_self; lia|]. eapply wp_mono; [apply (free_anon_spec d k [] [] [pg] o x pg k w HM M R Ha); intros i Hi; by eapply first_block|]. intros [] w1 (M1 & F1 & D1).
  eapply wp_mono; [by apply IH|]. intros [] w2 (M2 & F2 & D2). split_and!; [done| |congruence]. rewrite F2, F1, block_set_blocks. change (list_to_set (blocks k (pg :: o))) with (list_to_set (C := gset Z) (seqZ pg (2 ^ k) ++ blocks k o)). rewrite list_to_set_app_L. set_solver.
Qed.

(** ** Chunks *)

(** [n] pages [l] of the domain were traded for the blocks [o]. *)
Definition swapped (k n : Z) (x : hdom) (w : hworld) (x' : hdom) (w' : hworld) : Prop :=
  exists l o, NoDup l /\ Z.of_nat (length l) = n /\ (forall m, m ∈ l -> m ∈ page_list x) /\ (forall i, i ∈ blocks k o -> is_free w i) /\ Z.of_nat (length (blocks k o)) = n /\
    page_list x' = filter (fun m => m ∉ l) (page_list x) ++ blocks k o /\ free_all w' = (free_all w ∖ list_to_set (blocks k o)) ∪ list_to_set l.
(** The domain has the pages it had. *)
Definition kept (x : hdom) (w : hworld) (x' : hdom) (w' : hworld) : Prop := page_list x' ≡ₚ page_list x /\ free_all w' = free_all w.

Record chunk_post (d : Z) (x : hdom) (w : hworld) (x' : hdom) (w' : hworld) : Prop := ChunkPost {
  cp_ready : ready d x' w';
  cp_tot : tot_pages x' = tot_pages x;
  cp_max : max_pages x' = max_pages x;
  cp_others : others_same d w w'
}.

Lemma took_start d k x w : ready d x w -> took d k x w [] x w.
Proof.
  intros R. split; try done; [by apply ready_mid| |by intros m []%not_elem_of_nil]. induction (page_list x) as [|m l IH]; [done|]. cbn. rewrite decide_True by apply not_elem_of_nil. by f_equal.
Qed.

Lemma took_perm d k x0 w0 l x w : NoDup (page_list x0) -> took d k x0 w0 l x w -> page_list x ++ l ≡ₚ page_list x0.
Proof.
  intros Hnd [T1 T2 T3 _ _ _ _]. apply NoDup_Permutation; [apply NoDup_app; split_and!| done|].
  - rewrite T2. by apply NoDup_filter.
  - intros m Hm. rewrite T2 in Hm. by apply list_elem_of_filter in Hm as [? _].
  - apply T1.
  - intros m. rewrite elem_of_app, T2, list_elem_of_filter. split; [intros [[_ ?]|?]; [done|by apply T3]|]. intros Hm. destruct (decide (m ∈ l)); [by right|by left].
Qed.

Lemma ready_nodup d x w : ready d x w -> NoDup (page_list x) /\ tot_pages x = Z.of_nat (length (page_list x)) /\ tot_pages x <= max_pages x.
Proof. intros R. destruct (di_dom _ (mi_dom _ _ _ (rd_ok _ _ _ R)) d x (rd_dom _ _ _ R)). done. Qed.

(** A chunk that fails is undone. *)
Lemma undo_spec d k x0 w0 l x o w :
  machine_ok -> ready d x0 w0 -> took d k x0 w0 l x w -> forall w1, drawn d k l x w o w1 ->
  wp no_error (give_back d l) (fun _ w' => wp no_error (free_out k o) (fun _ w' => exists x', chunk_post d x0 w0 x' w' /\ kept x0 w0 x' w') w') w1.
Proof.
  intros HM R T w1 D. destruct (ready_nodup _ _ _ R) as (Hnd & Htot & Hmax). pose proof (took_perm _ _ _ _ _ _ _ Hnd T) as HP. pose proof (Permutation_length HP) as HL. rewrite length_app in HL.
  eapply wp_mono; [eapply give_back_spec; [apply D|rewrite (tk_max _ _ _ _ _ _ _ T); lia]|]. intros [] w2 (M2 & F2 & O2). eapply wp_mono; [by eapply free_out_spec|]. intros [] w3 (M3 & F3 & D3).
  exists (add_pages l x). split; [split|split].
  - eapply mid_ready; [exact M3|]. simpl. rewrite length_app, (tk_tot _ _ _ _ _ _ _ T). lia.
  - apply T.
  - apply T.
  - eapply others_trans; [apply T|]. eapply others_trans; [apply others_doms, (dr_doms _ _ _ _ _ _ _ D)|]. eapply others_trans; [exact O2|by apply others_doms].
  - exact HP.
  - rewrite F3, F2, (dr_free _ _ _ _ _ _ _ D), <- (tk_free _ _ _ _ _ _ _ T). apply set_eq. intros i. rewrite elem_of_union, elem_of_difference, elem_of_list_to_set. pose proof (dr_from _ _ _ _ _ _ _ D i) as Hfrom. rewrite elem_of_free_all.
    destruct (decide (i ∈ blocks k o)); tauto.
Qed.

Lemma drawn_start d k l x w x0 w0 : took d k x0 w0 l x w -> drawn d k l x w [] w.
Proof. intros T. split; [apply T|by intros i []%not_elem_of_nil|set_solver|done]. Qed.

Lemma exchange_chunk_spec d io oo ic oc memflags i gpfn x w :
  machine_ok -> plain_gfn d -> gmfn_ok d -> node_flag_ok memflags -> 0 <= io -> 0 <= oo -> 0 <= ic -> 0 <= oc -> io + ic = oo + oc -> ready d x w ->
  wp no_error (exchange_chunk d io oo ic oc memflags i gpfn) (fun r w' => exists x', chunk_post d x w x' w' /\ match r.1 with None => swapped oo (2 ^ (io + ic)) x w x' w' | Some rc => rc <> 0 /\ kept x w x' w' end) w.
Proof.
  intros HM HP HG Hn Hio Hoo Hic Hoc Hsz R. destruct (ready_nodup _ _ _ R) as (Hnd & Htot & Hmax). unfold exchange_chunk. assert (forall a, 0 <= a -> Z.of_nat (Z.to_nat (Z.shiftl 1 a)) = 2 ^ a) as Hsh by (intros a Ha; rewrite shift_pow by lia; pose proof (Z.pow_pos_nonneg 2 a); lia).
  wp_step. eapply wp_mono; [eapply (steal_extents_spec d oo x w); [done|done|by apply took_start]|]. intros [rc l] w1 [[x1 T] Hl]. cbn [fst snd] in *. rewrite Hsh in Hl by done.
  destruct (Z.eqb_spec rc 0) as [Hz|Hz]; cbn [negb].
  2:{ wp_step. eapply wp_mono; [eapply undo_spec; [done|exact R|exact T|by eapply drawn_start]|]. intros [] w2 Hw. wp_step. apply (wp_total (ret tt)) in Hw as ([] & w3 & [= <-] & x' & Hp & Hkp). by exists x'. }
  wp_step. eapply wp_mono; [eapply alloc_out_spec; [done|done|done|by eapply drawn_start]|]. intros [rc2 o] w2 [D Ho]. cbn [fst snd] in *. destruct (Z.eqb_spec rc2 0) as [Hz2|Hz2]; cbn [negb].
  2:{ wp_step. eapply wp_mono; [eapply undo_spec; [done|exact R|exact T|exact D]|]. intros [] w3 Hw. wp_step. eapply wp_mono; [exact Hw|]. intros [] w4 (x' & Hp & Hkp). wp_step. by exists x'. }
  specialize (Hl Hz). specialize (Ho Hz2). assert (Z.of_nat (length o) = 2 ^ oc) as HLo by (rewrite Ho; simpl; rewrite Nat.add_0_r; by apply Hsh). cbn [length] in Hl. rewrite <- Z.pow_add_r in Hl by lia. rewrite (Z.add_comm ic io) in Hl.
  assert (Z.of_nat (length (blocks oo o)) = 2 ^ (io + ic)) as HLb by (rewrite length_blocks, HLo, <- Z.pow_add_r by lia; f_equal; lia). pose proof (took_perm _ _ _ _ _ _ _ Hnd T) as HPm. pose proof (Permutation_length HPm) as HL. rewrite length_app in HL.
  wp_step. eapply wp_mono; [eapply put_all_spec; [done|done|apply D]|]. intros [] w3 (M3 & F3 & D3). wp_step. eapply wp_mono; [eapply assign_out_spec; [done|exact M3| |]|].
  - rewrite (tk_max _ _ _ _ _ _ _ T). rewrite length_blocks in HLb by done. lia.
  - rewrite Z.add_0_l, HLo, shift_pow by lia. done.
  - intros r w4 (-> & M4 & F4 & O4). wp_step. exists (add_pages (blocks oo o) x1). cbn [fst]. split; [split|].
    + eapply mid_ready; [exact M4|]. simpl. rewrite length_app, (tk_tot _ _ _ _ _ _ _ T). lia.
    + apply T.
    + apply T.
    + eapply others_trans; [apply T|]. eapply others_trans; [apply others_doms, (dr_doms _ _ _ _ _ _ _ D)|]. eapply others_trans; [by apply others_doms|exact O4].
    + exists l, o. split_and!; [apply T|lia|apply T| |done|by simpl; rewrite (tk_list _ _ _ _ _ _ _ T)|by rewrite F4, F3, (dr_free _ _ _ _ _ _ _ D), (tk_free _ _ _ _ _ _ _ T)].
      intros j Hj. apply elem_of_free_all. rewrite <- (tk_free _ _ _ _ _ _ _ T). apply elem_of_free_all. by apply (dr_from _ _ _ _ _ _ _ D).
Qed.

(** ** The hypercall *)

(** [c] chunks of [n] pages were traded, one after the other. *)
Inductive swaps (d k n : Z) : nat -> hdom -> hworld -> hdom -> hworld -> Prop :=
  | swaps_none x w : swaps d k n O x w x w
  | swaps_more c x w x1 w1 x2 w2 : swapped k n x w x1 w1 -> chunk_post d x w x1 w1 -> swaps d k n c x1 w1 x2 w2 -> swaps d k n (S c) x w x2 w2.

Lemma chunk_post_refl d x w : ready d x w -> chunk_post d x w x w.
Proof. intros R. by split. Qed.

Lemma chunk_post_trans d x1 w1 x2 w2 x3 w3 : chunk_post d x1 w1 x2 w2 -> chunk_post d x2 w2 x3 w3 -> chunk_post d x1 w1 x3 w3.
Proof. intros [_ A2 A3 A4] [B1 B2 B3 B4]. split; [done|congruence|congruence|by eapply others_trans]. Qed.

Definition loop_end (d k n : Z) (total : nat) (first : Z) (x : hdom) (w : hworld) (r : chunks_end) (w' : hworld) : Prop :=
  exists c x1 w1 x', swaps d k n c x w x1 w1 /\ chunk_post d x w x' w' /\ kept x1 w1 x' w' /\
    match r with
    | ChunksDone => c = total
    | ChunksPreempted i => i = first + Z.of_nat c /\ (c < total)%nat
    | ChunksFailed rc i => rc <> 0 /\ i = first + Z.of_nat c /\ (c < total)%nat
    end.

Lemma exchange_chunks_spec d k n total chunk i gpfn x w :
  (forall i gpfn x w, ready d x w -> wp no_error (chunk i gpfn) (fun r w' => exists x', chunk_post d x w x' w' /\ match r.1 with None => swapped k n x w x' w' | Some rc => rc <> 0 /\ kept x w x' w' end) w) ->
  ready d x w -> wp no_error (exchange_chunks total chunk i gpfn) (loop_end d k n total i x w) w.
Proof.
  intros Hc. assert (forall r total i x w, ready d x w -> match r with ChunksDone => total = O | ChunksPreempted j => j = i /\ (0 < total)%nat | ChunksFailed _ _ => False end -> loop_end d k n total i x w r w) as Hstop.
  { intros r t j y u Ry Hr. exists O, y, u, y. split_and!; [apply swaps_none|by apply chunk_post_refl|by split|]. destruct r; [done|lia|done]. }
  revert i gpfn x w. induction total as [|total IH]; intros i gpfn x w R; simpl; [wp_step; by apply Hstop|]. destruct (hypercall_preempt_check i); [wp_step; apply Hstop; [done|lia]|].
  wp_step. eapply wp_mono; [by apply Hc|]. intros [[rc|] g] w1 (x1 & Hp & Hr); cbn [fst snd] in *.
  - wp_step. exists O, x, w, x1. destruct Hr as [Hrc Hk]. split_and!; [apply swaps_none|done|done|done|lia|lia].
  - eapply wp_mono; [apply IH, Hp|]. intros r w2 (c & x2 & w2' & x' & Hs & Hp2 & Hk2 & Hr2). exists (S c), x2, w2', x'. split_and!; [by econstructor|by eapply chunk_post_trans|done|]. destruct r; [by f_equal|lia|]. destruct Hr2 as (? & ? & ?). split_and!; [done|lia|lia].
Qed.

Lemma exchange_flags_node d o : requested_node (exchange_flags d o) = XENMEMF_get_node (rs_mem_flags o).
Proof.
  unfold exchange_flags. set (b := domain_clamp_alloc_bitsize _ _). set (nd := XENMEMF_get_node _). destruct (node_low nd) as [N1 _]. assert (0 <= nd <= 255) as Hnd by apply byte_range.
  unfold requested_node, u8. rewrite <- Zminus_mod_idemp_l. change 256 with (2 ^ 8) at 1. rewrite <- Z.land_ones by done. change (Z.ones 8) with 0xff. fold (byte1 (Z.lor (MEMF_bits b) (MEMF_node nd))). rewrite byte1_lor, N1, bits_byte1, Z.lor_0_l.
  change 0xff with (Z.ones 8). rewrite Z.land_ones by done. rewrite Zminus_mod_idemp_l. replace (nd + 1 - 1) with nd by lia. apply Z.mod_small. lia.
Qed.

Lemma ones_shr_run order w (Q : Z -> hworld -> Prop) : 0 <= order < 64 -> (forall z, Q z w) -> wp no_error (ones_shr order) Q w.
Proof. intros Ho HQ. unfold ones_shr. destruct (Z.leb_spec 0 order); [|lia]. destruct (Z.ltb_spec order 64); [|lia]. cbn [andb]. wp_step. apply HQ. Qed.

Lemma size_mismatch_run e w : 0 <= rs_extent_order (ex_in e) < 64 -> 0 <= rs_extent_order (ex_out e) < 64 -> wp no_error (size_mismatch e) (fun _ w' => w' = w) w.
Proof.
  intros Hi Ho. unfold size_mismatch. destruct (_ || _); [by wp_step|]. wp_step. apply ones_shr_run; [done|]. intros mi. destruct (_ <? _); [by wp_step|]. wp_step. apply ones_shr_run; [done|]. intros mo. destruct (_ <? _); by wp_step.
Qed.

Definition in_chunk (e : xen_memory_exchange) : Z := Z.max 0 (rs_extent_order (ex_out e) - rs_extent_order (ex_in e)).
Definition exchange_ready (d : Z) (w : hworld) : Prop := plain_gfn d /\ gmfn_ok d /\ exists x, ready d x w.

Record exchange_ok (e : xen_memory_exchange) (w : hworld) : Prop := ExchangeOk {
  eo_in : 0 <= rs_extent_order (ex_in e) < 64;
  eo_out : 0 <= rs_extent_order (ex_out e) < 64;
  eo_node : node_ok (ex_out e);
  eo_domain d : exchange_domain (rs_domid (ex_in e)) = inl d -> exchange_ready d w
}.

(** What an exchange leaves: no effect, or [c] chunks traded and perhaps one undone. *)
Definition exch_post (e : xen_memory_exchange) (w : hworld) (ret : exch_ret) (w' : hworld) : Prop :=
  (w' = w /\ exists rc, ret = copy_nr rc (nr_exchanged e)) \/
  exists d x x1 w1 x' (c : nat), let k := Z.shiftl (Z.shiftr (nr_exchanged e) (in_chunk e) + Z.of_nat c) (in_chunk e) in
    exchange_domain (rs_domid (ex_in e)) = inl d /\ hdoms w !! d = Some x /\
    swaps d (rs_extent_order (ex_out e)) (2 ^ Z.max (rs_extent_order (ex_in e)) (rs_extent_order (ex_out e))) c x w x1 w1 /\ kept x1 w1 x' w' /\ chunk_post d x w x' w' /\
    (ret = copy_nr 0 (rs_nr_extents (ex_in e)) /\ Z.of_nat c = Z.max 0 (Z.shiftr (rs_nr_extents (ex_in e)) (in_chunk e) - Z.shiftr (nr_exchanged e) (in_chunk e)) \/
     ret = ExchAgain k \/ exists rc, rc <> 0 /\ ret = ExchRet rc k).

Lemma memory_exchange_spec e w : machine_ok -> exchange_ok e w -> wp no_error (memory_exchange (Some e)) (exch_post e w) w.
Proof.
  intros HM [Hio Hoo Hn Hd]. unfold memory_exchange, exch_post. wp_step. eapply wp_mono; [by apply size_mismatch_run|]. intros bad w0 ->.
  destruct bad; [wp_step; left; split; [done|by eexists]|]. destruct (_ || _); [wp_step; left; split; [done|by eexists]|]. destruct (exchange_domain _) as [d|rc] eqn:Edom; [|wp_step; left; split; [done|by eexists]].
  destruct (Hd d eq_refl) as (HP & HG & x & R). assert (node_flag_ok (exchange_flags d (ex_out e))) as Hnf by (unfold node_flag_ok; by rewrite exchange_flags_node).
  set (io := rs_extent_order (ex_in e)) in *. set (oo := rs_extent_order (ex_out e)) in *. set (ic := if io <=? oo then oo - io else 0). set (oc := if io <=? oo then 0 else io - oo).
  assert (ic = in_chunk e /\ 0 <= ic /\ 0 <= oc /\ io + ic = oo + oc /\ io + ic = Z.max io oo) as (Eic & Hic & Hoc & Hsz & Emax) by (unfold ic, oc, in_chunk; fold io oo; destruct (Z.leb_spec io oo); lia). rewrite <- Eic, <- Emax.
  wp_step. eapply wp_mono; [apply (exchange_chunks_spec d oo (2 ^ (io + ic))); [|exact R]; intros; apply exchange_chunk_spec; try done; lia|]. intros r w' (c & x1 & w1 & x' & Hs & Hp & Hk & Hr).
  destruct r as [|i|rc i]; wp_step; right; exists d, x, x1, w1, x', c; (split_and!; [done|apply R|done|done|done|]).
  - left. split; [done|]. subst c. lia.
  - right. destruct Hr as [-> _]. destruct nr_writable; [by left|right; by exists (- EFAULT)].
  - right; right. destruct Hr as (Hrc & -> & _). unfold copy_nr. destruct nr_writable; [by exists rc|by exists (- EFAULT)].
Qed.

End Main.

(** ** Examples *)

(** A guest whose frames are machine frames; four extents can be read. *)
Definition sample_exch : ExchEnv := {|
  in_extent i := if i <? 4 then Some (60 + i) else None; out_extent i := Some (100 + i); out_writable _ := true; nr_writable := true;
  get_gfn_unshare _ g := ret (g, P2mPlain); mfn_to_gmfn _ m _ := 100; uninit_gpfn := 0 |}.
Definition trade (domid n order_in m order_out : Z) : xen_memory_exchange := Exch (Reservation n order_in 0 domid) (Reservation m order_out 0 domid) 0.
Definition run_trade (e : xen_memory_exchange) (w : hworld) : result (exch_ret * hworld) := memory_exchange (H := sample_env) (H0 := sample_mem) (H1 := sample_exch) (Some e) w.

Lemma sample_owned_dom : hdoms sample_owned !! 1 = Some sample_owner.
Proof. vm_compute. reflexivity. Qed.

Lemma sample_owned_ok : mem_ok (H := sample_env) sample_owned.
Proof.
  pose proof (alloc_minv (H := sample_env) 1 sample_dom 2 0 sample_world sample_machine_ok sample_mem_ok sample_world_dom ltac:(by right) ltac:(done) ltac:(done)) as Hw.
  apply wp_total in Hw as (r & w' & E & Hok & _). assert (alloc_domheap_pages (H := sample_env) (Some 1) 2 0 sample_world = Ok (Some 60, sample_owned)) as E' by (vm_compute; reflexivity).
  rewrite E' in E. assert (sample_owned = w') as -> by congruence. exact Hok.
Qed.

Lemma sample_owned_ready : ready (H := sample_env) 1 sample_owner sample_owned.
Proof.
  assert (map_Forall (fun _ p => gcount p <> 1 \/ count_info p = Z.lor PGC_allocated 1) (pages sample_owned)) as HF by (apply (bool_decide_unpack _); vm_compute; exact I).
  split; [exact sample_owned_ok|exact sample_owned_dom|reflexivity|]. intros m p _ Hp Hg _. destruct (HF m p Hp) as [Hn|Hc]; [destruct (Hn Hg)|exact Hc].
Qed.


(** ** Exchanges that go wrong *)

(** A domain that does not exist: the result is that of success. *)
Lemma exchange_unknown_domain : run_trade (trade 5 4 0 1 2) sample_owned = Ok (ExchRet 0 0, sample_owned).
Proof. vm_compute. reflexivity. Qed.

(** A dying domain: a chunk that fails cannot be undone, and the hypervisor stops. *)
Lemma exchange_dying_stops : run_trade (trade DOMID_SELF 8 0 1 3) sample_dying = Err Abort.
Proof. vm_compute. reflexivity. Qed.

(** A dying domain: its pages are gone, no extent is exchanged, and the result is that of success. *)
Lemma exchange_dying_zero : (match run_trade (trade DOMID_SELF 4 0 1 2) sample_dying with Ok (r, w') => Some (r, hd_dying <$> hdoms w' !! 1, tot_pages <$> hdoms w' !! 1, page_list <$> hdoms w' !! 1) | Err _ => None end) = Some (ExchRet 0 0, Some true, Some 0, Some []).
Proof. vm_compute. reflexivity. Qed.

(** A page with a cache attribute: it can be stolen but not be given back. *)
Definition sample_attribute : hworld := set_pages (alter (fun p => set_count_info (Z.lor (count_info p) (2 ^ 58)) p) 60 (pages sample_owned)) sample_owned.
Lemma exchange_attribute_fails : run_trade (trade DOMID_SELF 8 0 1 3) sample_attribute = Err AssertFail.
Proof. vm_compute. reflexivity. Qed.

(** The order of the extents is shifted by before it is checked. *)
Lemma exchange_order_undefined : run_trade (trade DOMID_SELF 4 64 1 2) sample_owned = Err OutOfBounds.
Proof. vm_compute. reflexivity. Qed.
