(* ===== verification/MemoryOp.v ===== *)
(** * The memory hypercall

    Whatever command a guest gives, and with whatever arguments, the pages of the machine stay
    in order and only the domain that the arguments name gains or loses pages. *)

From S2P Require Import Prelude.
From S2P Require Import Xen.
From S2P Require Import PageAlloc.
From S2P Require Import PageFacts.
From S2P Require Import PageOps.
From S2P Require Import PageDom.
From S2P Require Import PageMain.
From S2P Require Import Memop.
From S2P Require Import MemopFacts.
From S2P Require Import MemopMain.
From S2P Require Import Exchange.
From S2P Require Import ExchangeMain.

Section Commands.
Context `{HeapEnv} `{MemEnv} `{ExchEnv} `{StatEnv}.

Lemma exchange_domain_target domid d : exchange_domain domid = inl d -> target_domain domid = Some d.
Proof. unfold exchange_domain, target_domain. destruct (domid =? DOMID_SELF); [by intros [= ->]|]. destruct (domain_by_id domid) as [e|]; [|done]. destruct (is_priv_for e); [by intros [= ->]|done]. Qed.

Lemma locked_target domid d : rcu_lock_target_domain_by_id domid = inl d -> target_domain domid = Some d.
Proof. unfold rcu_lock_target_domain_by_id, target_domain. destruct (domid =? DOMID_SELF); [by intros [= ->]|]. destruct (domain_by_id domid) as [e|]; [|done]. destruct (is_priv_for e); [by intros [= ->]|done]. Qed.

(** ** What a command needs *)

Definition op_of (cmd : Z) : Z := Z.land cmd (Z.shiftl 1 MEMOP_EXTENT_SHIFT - 1).

(** The frame is valid; that of a translated domain is looked up and referred to in one step. *)
Definition frame_ok (d gfn : Z) : Prop :=
  if paging_mode_translate d then
    forall w, mem_ok w -> get_page_from_gfn_p2m d gfn w = Ok (None, w) \/
      exists m, mfn_valid m = true /\ get_page_from_gfn_p2m d gfn w = (let! ok := take_page m d in ret (if ok : bool then Some m else None)) w
  else mfn_valid gfn = true.

Record cmd_ok (cmd : Z) (g : mem_arg) (w : hworld) : Prop := CmdOk {
  co_known : op_of cmd ∈ [0; 1; 2; 3; 4; 6; 11; 14; 15];
  co_reservation op r : op_of cmd = op_code op -> arg_reservation g = Some r -> request_ok op (Z.shiftr cmd MEMOP_EXTENT_SHIFT) r w;
  co_exchange e : op_of cmd = XENMEM_exchange -> arg_exchange g = Some e -> exchange_ok e w;
  co_domid domid d : arg_domid g = Some domid -> target_domain domid = Some d -> is_Some (hdoms w !! d);
  co_xrfp domid gpfn d : arg_xrfp g = Some (domid, gpfn) -> target_domain domid = Some d -> is_Some (hdoms w !! d) /\ frame_ok d gpfn
}.

(** The domain the argument names. *)
Definition named (cmd : Z) (g : mem_arg) : option Z :=
  let op := op_of cmd in
  if (op =? 0) || (op =? 1) || (op =? 6) then r ← arg_reservation g; target_domain (rs_domid r)
  else if op =? XENMEM_exchange then e ← arg_exchange g; target_domain (rs_domid (ex_in e))
  else if op =? XENMEM_remove_from_physmap then q ← arg_xrfp g; target_domain q.1
  else None.

Definition confined (d : option Z) (w w' : hworld) : Prop := mem_ok w' /\ forall e, d <> Some e -> holdings <$> hdoms w' !! e = holdings <$> hdoms w !! e.

Lemma confined_refl d w : mem_ok w -> confined d w w.
Proof. by split. Qed.

Lemma confined_others d w w' : mem_ok w' -> others_kept d w w' -> confined (Some d) w w'.
Proof. intros M O. split; [done|]. intros e He. apply O. congruence. Qed.

(** ** Commands *)

Lemma reservation_op_spec op cmd g w :
  machine_ok -> drops_type -> mem_ok w -> op_of cmd = op_code op -> cmd_ok cmd g w ->
  wp no_error (reservation_op op cmd g) (fun _ w' => confined (r ← arg_reservation g; target_domain (rs_domid r)) w w') w.
Proof.
  intros HM HT MI Hop C. unfold reservation_op. wp_step. destruct (arg_reservation g) as [r|] eqn:Er; [|simpl; wp_step; wp_step; by apply confined_refl].
  eapply wp_mono; [apply do_memory_op_spec; [done|done|done|by eapply co_reservation]|]. intros ret w' [[-> _]|(d & k & Ed & _ & (M' & O & _) & _)]; wp_step; [by apply confined_refl|]. simpl. rewrite Ed. by apply confined_others.
Qed.

Lemma exchange_op_spec g w :
  machine_ok -> mem_ok w -> (forall e, arg_exchange g = Some e -> exchange_ok e w) ->
  wp no_error (memory_exchange (arg_exchange g)) (fun _ w' => confined (e ← arg_exchange g; target_domain (rs_domid (ex_in e))) w w') w.
Proof.
  intros HM MI HE. destruct (arg_exchange g) as [e|]; [|simpl; wp_step; by apply confined_refl]. eapply wp_mono; [apply memory_exchange_spec; auto|].
  intros ret w' [[-> _]|(d & x & x1 & w1 & x' & c & Ed & _ & _ & _ & P & _)]; [by apply confined_refl|]. simpl. rewrite (exchange_domain_target _ _ Ed). apply confined_others; [apply P|]. intros f Hf. by rewrite (cp_others _ _ _ _ _ P).
Qed.

Lemma memory_stat_spec op domid w : (forall i d, domid = Some i -> target_domain i = Some d -> is_Some (hdoms w !! d)) -> wp no_error (memory_stat op domid) (fun _ w' => w' = w) w.
Proof.
  intros HD. unfold memory_stat. destruct domid as [i|]; [|by wp_step]. destruct (rcu_lock_target_domain_by_id i) as [d|rc] eqn:Ed; [|by wp_step]. destruct (negb _); [by wp_step|]. destruct (HD i d eq_refl (locked_target _ _ Ed)) as [x Hx].
  wp_step. eapply wp_get_hdom; [done|]. destruct (op =? XENMEM_current_reservation); [by wp_step|]. destruct (op =? XENMEM_maximum_reservation); [by wp_step|]. wp_step. wp_step. by wp_step.
Qed.

(** The reference to a page of the domain is taken and dropped. *)
Lemma drop_mapping_spec d gfn m w :
  machine_ok -> mem_ok w -> mfn_valid m = true -> 0 < d ->
  wp no_error (let! page := (let! ok := take_page m d in ret (if ok : bool then Some m else None)) in
               match page with None => ret (- ENOENT) | Some mfn => event (PhysmapRemove d gfn mfn) ;;; put_page mfn ;;; ret 0 end) (fun _ w' => confined (Some d) w w') w.
Proof.
  intros HM MI Hv Hd. destruct (hi_valid _ _ _ (proj1 (di_heap _ (mi_dom _ _ _ MI))) m Hv) as [p Hp]. wp_step. wp_step. eapply wp_mono; [eapply (take_page_spec d m p); try done; by eapply minv_none|]. intros [|] w1 Hr; wp_step.
  - destruct Hr as (x & Hx & Hm & Hvd & Hg & M1 & E1). destruct (count_step p 1 (mi_words _ _ _ MI m p Hp) ltac:(lia)) as (S1 & S2 & _). set (p1 := set_count_info _ p) in *. wp_step. unfold event. wp_step. set (w2 := set_events _ w1).
    assert (hdoms w2 !! d = Some x) as Hx2 by (unfold w2; by rewrite E1). assert (pages w2 !! m = Some p1) as Hp2 by (unfold w2; rewrite E1; simpl; by rewrite lookup_insert_eq).
    wp_step. eapply wp_mono; [eapply (put_page_spec d x m p1 1 w2); try done; by apply events_minv|]. intros [] w3 [M3 D]. wp_step. apply confined_others; [by eapply minv_none|]. intros e He.
    rewrite (sh_others _ _ _ (dropped_shrunk d m p1 w2 w3 Hp2 S1 ltac:(lia) D) e He). unfold w2. by rewrite E1.
  - destruct Hr as (M1 & [Q _] & _). apply confined_others; [by eapply minv_none|]. intros e He. by rewrite Q.
Qed.

Lemma remove_from_physmap_spec arg w :
  machine_ok -> mem_ok w -> (forall i gfn d, arg = Some (i, gfn) -> target_domain i = Some d -> is_Some (hdoms w !! d) /\ frame_ok d gfn) ->
  wp no_error (remove_from_physmap arg) (fun _ w' => confined (q ← arg; target_domain q.1) w w') w.
Proof.
  intros HM MI HA. unfold remove_from_physmap. destruct arg as [[i gfn]|]; [|wp_step; by apply confined_refl]. destruct (rcu_lock_target_domain_by_id i) as [d|rc] eqn:Ed; [|wp_step; by apply confined_refl].
  destruct (xsm_remove_from_physmap d); [wp_step; by apply confined_refl|]. pose proof (locked_target _ _ Ed) as Et. destruct (HA i gfn d eq_refl Et) as [[x Hx] Hf]. simpl. rewrite Et. pose proof (proj1 (do_id _ _ _ (di_dom _ (mi_dom _ _ _ MI) d x Hx))) as Hd.
  unfold get_page_from_gfn, frame_ok in *. destruct (paging_mode_translate d); [|by apply drop_mapping_spec]. destruct (Hf w MI) as [E|(m & Hv & E)].
  - unfold wp, bind. rewrite E. by apply confined_refl.
  - pose proof (drop_mapping_spec d gfn m w HM MI Hv Hd) as Hw. unfold wp, bind at 1 in Hw. unfold wp, bind at 1. rewrite E. exact Hw.
Qed.

End Commands.

(** ** Examples *)

Definition sample_stat : StatEnv := {| xsm_memory_stat_reservation _ := 0; xsm_remove_from_physmap _ := false; domain_get_maximum_gpfn _ _ := 0; get_page_from_gfn_p2m _ _ := ret None; arch_memory_op _ := ret (- ENOSYS) |}.
Definition unmap (gpfn : Z) : mem_arg := MemArg None None None (Some (DOMID_SELF, gpfn)).
Definition run_command (cmd : Z) (g : mem_arg) (w : hworld) : result (mem_result * hworld) := memory_op (H := sample_env) (H0 := sample_mem) (H1 := sample_exch) (H2 := sample_stat) cmd g w.


(** The frame a guest names is not checked: the page structure is read and written wherever
    the number leads. *)
Lemma remove_any_frame : run_command 15 (unmap (2 ^ 40)) sample_owned = Err OutOfBounds.
Proof. vm_compute. reflexivity. Qed.
